(* ===== verification/_CoqProject ===== *)
-Q . S2P
Prelude.v
Bytes.v
JsString.v
Base64Url.v
JsMap.v
Json.v
JsonText.v
Proto.v
FsSegments.v
DirectCrypto.v
DirectFraming.v
DirectRoute.v
DirectHandshake.v
Layout.v
SessionInfo.v
RouteCandidates.v
Opaque.v
ConnWire.v
EventLoop.v
Transport.v
DirectClient.v
DirectClientInv.v
DirectClientAuth.v
DirectClientDelivery.v
DirectClientToy.v
DirectClientProps.v
NativeDirect.v
NativeDirectProps.v
Connection.v
ConnFrame.v
ConnTouches.v
ConnOutput.v
ConnRequests.v
ConnRelay.v
ConnFinal.v
ConnBackoff.v
ConnToy.v
ConnProps.v
ListConnection.v
ListConnectionProps.v
PeerIdentity.v
PeerDocuments.v
PeerTrust.v
PeerMembers.v
PeerSession.v
PeerSessionBooks.v
PeerSessionView.v
PeerSessionRoute.v
PeerSessionTurns.v
PeerSessionToy.v
PeerSessionCalm.v
PeerSessionFinal.v
PeerSessionOutput.v
PeerSessionInput.v
PeerSessionProps.v
PeerHandshake.v
PeerJoin.v
PeerState.v
PeerStateProps.v
PeerFragments.v
QuickTunnel.v
QuickTunnelInv.v
QuickTunnelSteps.v
QuickTunnelClosed.v
QuickTunnelDisposed.v
QuickTunnelToy.v
QuickTunnelProps.v
QuickTunnelGrowth.v
PeerCatalog.v
PeerCatalogProps.v
AsyncTasks.v
PeerBridge.v
PeerBridgeProps.v
PrefsSync.v
PrefsSyncProps.v
