(* ===== verification/Prelude.v ===== *)
(** * AT Term front end: verification library (root file)

    AT Term lets a browser, a phone or another desktop use terminal sessions
    that run on a host. The TypeScript under [src/desktop/frontend/src/lib]
    holds the client. With an account it talks to a relay over one WebSocket
    per session, can move a session to a direct WebRTC route, and opens content
    that the relay cannot read. Without an account the devices of a space trust
    each other by signed documents and meet over direct routes and tunnels.
    This library models that client and proves what it relies on.

    ** How the parts interact

    With an account, [SessionConnection] (connection.ts) owns one session. It
    frames what it sends with the wire protocol (proto.ts, fsSegments.ts),
    opens sealed content with the account key (opaque.ts), asks the route
    tracker (directRoute.ts) whether a callback is current and an output new,
    and drives a direct transport (directClient.ts in the browser,
    nativeDirectClient.ts through the desktop host), which authenticates with
    the handshake (directHandshake.ts over directCrypto.ts) and splits large
    frames (directFraming.ts). [SessionListConnection] keeps the list of
    sessions; the list merges the routes to a session (routeCandidates.ts) and
    shows sessions in panes (layout.ts, types.ts).

    Without an account, a device holds an identity (peer/identity.ts). The
    documents of a space (peer/documents.ts) say who is a member. A device
    joins with a signed request (peer/joinRequest.ts) that it seals for the
    issuer of an invitation; the checked answer becomes its stored state
    (peer/clientState.ts). From that state a transport authenticates the host
    by its membership (peer/handshake.ts), and [PeerSessionConnection]
    (peerSessionConnection.ts) runs a session over such transports.

    ** Files

    - [Prelude]: exceptions ([result]), methods of an object ([method]: state
      in, state and result out, the state kept on a throw), record update,
      list slices, tactics. [EventLoop]: methods of objects that live in the
      event loop ([Act]), chains of promises, rules for invariants. [Bytes]:
      [Uint8Array], [DataView], doubles as far as sequence numbers need them.
      [JsString]: UTF-16 strings, UTF-8, base 64; [Base64Url]. [JsMap]:
      insertion-ordered [Map]. [Json]: JSON values; the text layer
      ([TextDecoder], [JSON.parse], [JSON.stringify]) is the class [JsText],
      and [JsonText] is an instance of it for the witnesses.
    - [Proto], [FsSegments]: the codecs of proto.ts and fsSegments.ts.
    - [DirectCrypto], [DirectFraming], [DirectHandshake], [DirectRoute]: the
      files of the same name. Hashes, HKDF, HMAC and the AEAD are the class
      [Crypto], with their documented laws in [CryptoLaws]; the P-256 exchange
      of WebCrypto is [WebCrypto].
    - [Opaque]: opaque.ts, the wrap of the account key and the envelopes.
    - [SessionInfo], [RouteCandidates], [Layout]: the session records,
      routeCandidates.ts, layout.ts with types.ts.
    - [ConnWire]: the pure functions of connection.ts. [Connection]: the class
      itself. Its fields are the record [Conn]; [World] adds the part of the
      run time it touches: sockets with their ready state and the generation
      their handlers captured, direct transports, timers, promises, the account
      key and the trace of effects. Each method is one definition of the same
      name; [step] is one turn of the event loop (a call, a socket event, a
      callback of the transport, a timer), [run] a sequence of them. The
      transport is the class [DirectTransport], the random values and the
      possible failure of [new WebSocket] the class [Host].
      [ConnFrame], [ConnTouches]: frame reasoning. [touches F m] says which
      fields and kinds of effect a method can write; an invariant that depends
      on other fields is kept by it without a proof of its own. [ConnOutput],
      [ConnRequests], [ConnRelay], [ConnBackoff], [ConnFinal]: the invariants
      of the class, method by method. [ConnToy]: a run time and a transport for
      the witnesses. [ConnProps]: the theorems on all runs.
    - [Transport]: options and callbacks that the transports share.
      [DirectClient]: directClient.ts with the browser objects it creates and
      every point where a method is suspended; [DirectClientInv],
      [DirectClientAuth], [DirectClientDelivery], [DirectClientToy],
      [DirectClientProps] its invariants, a run time and the theorems.
      [NativeDirect], [NativeDirectProps]: nativeDirectClient.ts.
    - [ListConnection], [ListConnectionProps]: the list connection.
    - [PeerIdentity], [PeerDocuments]: peer/identity.ts, peer/documents.ts;
      signatures are the class [PeerCrypto], addresses, strict UTF-8 and the
      order of the locale the class [Platform]. [PeerTrust], [PeerMembers]:
      what accepted documents and lists of members mean.
    - [PeerHandshake], [PeerJoin]: peer/handshake.ts, peer/joinRequest.ts.
      [PeerState], [PeerStateProps]: peer/clientState.ts.
    - [PeerSession]: peerSessionConnection.ts, with its transports as the
      environment. [PeerSessionView]: what the invariants see of a state.
      [PeerSessionRoute], [PeerSessionBooks], [PeerSessionTurns],
      [PeerSessionCalm], [PeerSessionFinal], [PeerSessionOutput],
      [PeerSessionInput]: the invariants of the class, method by method.
      [PeerSessionToy], [PeerSessionProps]: a run time and the theorems.
    - [PeerFragments], [QuickTunnel]: peer/quickTunnelClient.ts, the fragments
      of signals and control messages, and class PeerQuickTunnelTransport with
      the browser objects it creates and every point where a method is
      suspended. [QuickTunnelInv], [QuickTunnelSteps], [QuickTunnelClosed],
      [QuickTunnelDisposed], [QuickTunnelGrowth]: its invariants; [QuickTunnelToy],
      [QuickTunnelProps]: a run time and the theorems. [PeerCatalog],
      [PeerCatalogProps]: the listing of sessions at the end of that file, over
      a transport of its own.
    - [AsyncTasks]: [async] functions that overlap, as programs in turns, with
      a scheduler and rules for what every turn keeps. [PeerBridge],
      [PeerBridgeProps]: peer/clientBridge.ts, over a store that is a class.
    - [PrefsSync], [PrefsSyncProps]: prefsSync.ts with its storage
      (prefsSync.capacitor.ts) and the copy of the engine in the web client.

    ** What is shown

    - The session ([ConnProps]): after any sequence of events the sequenced
      output is shown once and in order; there is one live relay socket at most
      and never one beside a reconnect timer or the active direct route; a
      connection that was attached always has a way to its session; every
      promise is settled once or waits for a running timer or a paste; [detach]
      is final, and only answers to later calls of the owner are reported after
      it; failures of the direct transport are not lost; reconnects back
      off. [relay_deaf_after_abort] is a fault: after a direct attempt that
      failed before it was active, the relay socket that stays in use no longer
      delivers its frames.
    - The direct route ([DirectClientProps], [DirectHandshake], [NativeDirectProps]):
      a client is authenticated only by a host that proves the account key for
      the transcript of its attempt, made of the [direct_attempt] message that
      it received and the key pair drawn for it; callbacks come in the order of
      the transport contract; frames are delivered whole, once and in order; an
      attempt ends; records open once and in order; the native chain of sends is
      a queue. The transcript determines the peers ([DirectCrypto]), fragments give the frame
      back and nothing else ([DirectFraming]), the tracker is a state machine
      that lets every output through once ([DirectRoute]).
    - The list ([ListConnectionProps]): one socket or one timer; unusable frames
      change a counter and the backoff of reconnects, and are reported as the
      code says.
    - Spaces ([PeerTrust], [PeerMembers], [PeerIdentity]): a membership ends in
      the creator through a chain in which nobody hands on more permission or
      rights than he has, nor listed sessions outside those listed for him; of
      scopes that list nothing and of invitations see the two gaps of
      [delegation_gaps]. An accepted membership has the declared type and names
      its space; the list of members is the best grant of every peer that is not
      revoked, in whatever order the tokens come; signatures have one form.
    - Joining ([PeerJoin], [PeerStateProps]): a join request proves the keys it
      names; a join gives what the ticket offered in the space that was
      confirmed, and ends in a state that the transports accept; the stored
      state is read back as it was.
    - The peer handshake ([PeerHandshake]): keys are returned only after the
      holder of the verified host membership signed this transcript, and one
      CLIENT_FINISH for the same binding; against an honest host it completes.
    - The peer session ([PeerSessionProps]): one transport in use and every
      other closed, but for one whose own [start] threw; a way back after every
      loss; output once and in order across handovers; input once, and in order while no transport takes a
      frame after it refused one; promises settled once; [detach] final.
      [peer_failback_lost] shows two faults of the way back to the direct route.
    - The peer transport ([QuickTunnelProps], [PeerFragments]): an authenticated
      route stands on two active memberships, an authorization within both, and
      keys that the host signed for; the owner hears of it in order; a closed
      transport holds and says nothing, up to the keys of a handshake that was
      deriving them when it was closed ([tunnel_closed_final]). Fragments give
      back the message.
      A listing of sessions ([PeerCatalogProps]) settles once, by its deadline at
      the latest, with sessions that came over an authenticated transport.
    - The bridge ([PeerBridgeProps]): however its calls overlap, a configured
      space and membership stay as they are. [consent_withdrawal_lost] is a
      fault: an import restores a consent that was withdrawn meanwhile.
    - Preferences ([PrefsSyncProps]): a pull leaves alone what was changed here,
      whatever runs meanwhile; run alone, pull and push do what they should, and
      the two copies of the engine the same. [edit_lost_in_flight] is a fault: a
      push overwrites a change made while it is under way.
    - Codecs and envelopes ([Proto], [FsSegments], [Opaque]): round trips, exact
      acceptance; no reader opens sealed content under another session, frame
      type or output number.
    - Models of the interface ([RouteCandidates], [Layout]): route selection,
      the merged session list, pane splitting and closing.

    ** Conventions and bounds

    Numbers that the code keeps integral are [Z]; where the code writes them
    into bytes the wrap-around is written out ([Bytes]). Sequence numbers read
    from 64 bits are rounded to doubles as [Number] does. A byte array is a
    list of [Z]; well-formedness ([bytes_ok]) is a hypothesis only where a
    theorem needs it. A loop over a list is a [Fixpoint] on it. Fuel occurs
    five times: the queued inputs in [flush_direct_inputs] and [flush_inputs],
    each turn of which removes one or stops, with the length of the queue; the
    levels of [verifyGrant_at], which are the depth that the code allows; the
    cutting of a message ([cut_records], the length of the message: every turn
    takes a byte at least, and [peer_fragments_roundtrip] says that it ends); and
    the two levels of [QuickTunnel.handleRecord], which more levels do not change
    ([handleRecord_depth]: a collected message is never a fragment again).
    Key buffers that the code zeroes are modelled where they are read again. Time
    is what each reading gives: no theorem assumes that it grows unless it says so.

    ** Not modelled

    The user interface (Vue), the bridges to the native hosts and HTTP, the
    log, generated and translated data, and the programs in other languages.
    The callbacks given by the interface are effects: they neither throw nor
    call back. WebCrypto's key storage and IndexedDB. The [start] of the direct
    transport of an account does not throw (directClient.ts catches what
    [new WebSocket] throws, nativeDirectClient.ts what its bridge rejects with),
    and the join functions are given a valid date.
    Left for later: the web client's second implementation of the protocol, and
    the pure view models (links, labels, prompts, shortcuts, search, traffic,
    recovery). *)

From stdpp Require Export base list gmap strings.
From Stdlib Require Export ZArith Lia.
From Stdlib Require Import Sorted.

#[global] Open Scope Z_scope.

(** ** Exceptions

    A TypeScript function that can [throw] returns a [result]: the value, or
    the message of the [Error] it raises. *)

Inductive result (A : Type) : Type :=
  | Ok (a : A)
  | Throw (msg : string).
Arguments Ok {A} a.
Arguments Throw {A} msg.

Declare Scope js_scope.
Delimit Scope js_scope with js.
#[global] Open Scope js_scope.

Definition rbind {A B} (m : result A) (k : A -> result B) : result B :=
  match m with
  | Ok a => k a
  | Throw msg => Throw msg
  end.

Notation "'let*' x := m 'in' k" := (rbind m (fun x => k))
  (at level 10, x name, m at level 100, k at level 200) : js_scope.

(** [throw_if b msg ;;; k] is the guard [if (b) throw new Error(msg)]. *)
Notation "'throw_if' b msg ';;;' k" := (if b then Throw msg else k)
  (at level 10, b at level 9, msg at level 9, k at level 200) : js_scope.

Definition is_ok {A} (r : result A) : bool :=
  match r with Ok _ => true | Throw _ => false end.

(** ** Stateful methods that can throw

    A method of a class is a function of the object's state. When it throws,
    the writes made before the throw stay: the state comes back in both cases. *)

Definition method (S A : Type) : Type := S -> S * result A.

Definition mret {S A} (a : A) : method S A := fun s => (s, Ok a).
Definition mthrow {S A} (msg : string) : method S A := fun s => (s, Throw msg).
Definition mbind {S A B} (m : method S A) (k : A -> method S B) : method S B :=
  fun s => match m s with
           | (s', Ok a) => k a s'
           | (s', Throw msg) => (s', Throw msg)
           end.
Definition mget {S} : method S S := fun s => (s, Ok s).
Definition mput {S} (s' : S) : method S unit := fun _ => (s', Ok tt).
Definition mlift {S A} (r : result A) : method S A := fun s => (s, r).

Notation "'do*' x := m 'in' k" := (mbind m (fun x => k))
  (at level 10, x name, m at level 100, k at level 200) : js_scope.
Notation "'guard_throw' b msg ';;;' k" := (if b then mthrow msg else k)
  (at level 10, b at level 9, msg at level 9, k at level 200) : js_scope.

(** ** Record update

    [r <| f := v |>] is the assignment [this.f = v]. A record that is used as
    an object's state declares an [Eta] instance, from which the setter of
    each field is built. *)

Class Eta (R : Type) := eta_expand : R -> R.
Class Setter {R E : Type} (proj : R -> E) := set_field : (E -> E) -> R -> R.
Arguments set_field {R E} proj {Setter} f r : simpl nomatch.

Ltac build_setter :=
  match goal with
  | |- @Setter ?R ?E ?p =>
    let e := constr:(_ : Eta R) in
    let e' := eval hnf in e in
    exact (fun (f : E -> E) (r : R) => ltac:(
      let b := eval cbv beta in (e' r) in
      match b with
      | context C [p r] => let b' := context C [f (p r)] in exact b'
      end))
  end.

#[global] Hint Extern 1 (Setter _) => build_setter : typeclass_instances.

Notation "r <| f := v |>" := (set_field f (fun _ => v) r)
  (at level 1, f at level 9, v at level 200, left associativity) : js_scope.

(** [default d (Some x)] reduces to [id x]. *)
Ltac undefault := cbn [from_option] in *; unfold id in *.

(** One evaluation of a method's body: unfolds the monad and the setters and
    nothing else. *)
Ltac mrun :=
  cbv beta iota zeta delta [mbind mget mput mlift mret mthrow set_field].

(** ** Lengths and slices

    JavaScript lengths and offsets are numbers; here they are [Z]. *)

Definition zlen {A} (l : list A) : Z := Z.of_nat (length l).

(** [a.slice(i, j)] and [a.subarray(i, j)] for [0 <= i <= j]; an end past the
    last element is clamped. *)
Definition slice {A} (l : list A) (i j : Z) : list A :=
  take (Z.to_nat (j - i)) (drop (Z.to_nat i) l).

(** [a.slice(i)]. *)
Definition slice_from {A} (l : list A) (i : Z) : list A := drop (Z.to_nat i) l.

(** [a[i]]: [undefined] out of range. *)
Definition idx {A} (l : list A) (i : Z) : option A :=
  if i <? 0 then None else l !! Z.to_nat i.

(** ** Automation *)

(** Turns the boolean guards of the code into propositions. *)
Ltac guards :=
  repeat match goal with
  | H : (_ && _)%bool = true |- _ => apply andb_prop in H as [? ?]
  | H : (_ || _)%bool = false |- _ => apply orb_false_elim in H as [? ?]
  | H : negb _ = true |- _ => apply negb_true_iff in H
  | H : negb _ = false |- _ => apply negb_false_iff in H
  | H : (_ =? _)%Z = true |- _ => apply Z.eqb_eq in H
  | H : (_ =? _)%Z = false |- _ => apply Z.eqb_neq in H
  | H : (_ <? _)%Z = true |- _ => apply Z.ltb_lt in H
  | H : (_ <? _)%Z = false |- _ => apply Z.ltb_ge in H
  | H : (_ <=? _)%Z = true |- _ => apply Z.leb_le in H
  | H : (_ <=? _)%Z = false |- _ => apply Z.leb_gt in H
  | H : (_ >? _)%Z = _ |- _ => rewrite Z.gtb_ltb in H
  | H : (_ >=? _)%Z = _ |- _ => rewrite Z.geb_leb in H
  | H : bool_decide _ = true |- _ => apply bool_decide_eq_true in H
  | H : bool_decide _ = false |- _ => apply bool_decide_eq_false in H
  end.

(** Case analysis on the first guard of the goal that has no guard inside. *)
Ltac split_guard :=
  match goal with
  | |- context [if ?b then _ else _] =>
      lazymatch b with
      | context [if _ then _ else _] => fail
      | _ => let H := fresh "Hg" in destruct b eqn:H; guards
      end
  end.

Ltac split_guard_in H :=
  match type of H with
  | context [if ?b then _ else _] =>
      let G := fresh "Hg" in destruct b eqn:G; guards
  end.

(** Inversion of the successful runs of the exception monad. *)
Lemma rbind_ok {A B} (m : result A) (k : A -> result B) b :
  rbind m k = Ok b -> exists a, m = Ok a /\ k a = Ok b.
Proof. destruct m as [a|msg]; cbn; [eauto | discriminate]. Qed.

Lemma Ok_inj {A} (a b : A) : Ok a = Ok b -> a = b.
Proof. congruence. Qed.

Lemma Some_eq_inj {A} (a b : A) : Some a = Some b -> a = b.
Proof. congruence. Qed.

Ltac inv_ok :=
  repeat match goal with
  | H : Ok _ = Ok _ |- _ => apply Ok_inj in H; try subst
  | H : (_, _) = (_, _) |- _ => apply pair_equal_spec in H; destruct H; try subst
  | H : Throw _ = Ok _ |- _ => discriminate H
  | H : Ok _ = Throw _ |- _ => discriminate H
  | H : Some _ = Some _ |- _ => apply Some_eq_inj in H; try subst
  | H : None = Some _ |- _ => discriminate H
  | H : Some _ = None |- _ => discriminate H
  | H : rbind _ _ = Ok _ |- _ =>
      let a := fresh "a" in let E := fresh "E" in
      apply rbind_ok in H; destruct H as [a [E H]]; cbn beta in H
  | H : (if ?b then Throw _ else _) = Ok _ |- _ =>
      let G := fresh "Hg" in destruct b eqn:G; [discriminate H | guards]
  | H : (if ?b then None else _) = Some _ |- _ =>
      let G := fresh "Hg" in destruct b eqn:G; [discriminate H | guards]
  end.

(** ** Generic lemmas *)

Section Lists.
Context {A : Type}.
Implicit Types (l a b c : list A) (i j : Z).

Lemma zlen_nonneg l : 0 <= zlen l.
Proof. unfold zlen. lia. Qed.

Lemma zlen_app a b : zlen (a ++ b) = zlen a + zlen b.
Proof. unfold zlen. rewrite length_app. lia. Qed.

Lemma zlen_cons (x : A) l : zlen (x :: l) = 1 + zlen l.
Proof. unfold zlen. cbn. lia. Qed.

Lemma zlen_nil : zlen ([] : list A) = 0.
Proof. reflexivity. Qed.

Lemma zlen_zero_inv l : zlen l = 0 -> l = [].
Proof. destruct l; [done|]. rewrite zlen_cons. pose proof (zlen_nonneg l). lia. Qed.

Lemma zlen_nat l : Z.to_nat (zlen l) = length l.
Proof. unfold zlen. lia. Qed.

Lemma zlen_replicate n (x : A) : zlen (replicate n x) = Z.of_nat n.
Proof. unfold zlen. by rewrite length_replicate. Qed.

Lemma zlen_slice l i j : 0 <= i -> i <= j -> j <= zlen l -> zlen (slice l i j) = j - i.
Proof. unfold slice, zlen. rewrite length_take, length_drop. lia. Qed.

Lemma zlen_slice_from l i : 0 <= i -> i <= zlen l -> zlen (slice_from l i) = zlen l - i.
Proof. unfold slice_from, zlen. rewrite length_drop. lia. Qed.

Lemma slice_from_app a b i : i = zlen a -> slice_from (a ++ b) i = b.
Proof. intros ->. unfold slice_from. rewrite zlen_nat. by rewrite drop_app_length. Qed.

Lemma slice_app a b c i j : i = zlen a -> j = zlen a + zlen b -> slice (a ++ b ++ c) i j = b.
Proof.
  intros -> ->. unfold slice. rewrite zlen_nat, drop_app_length.
  replace (zlen a + zlen b - zlen a) with (zlen b) by lia.
  rewrite zlen_nat. by rewrite take_app_length.
Qed.

Lemma slice_prefix a b i j : i = 0 -> j = zlen a -> slice (a ++ b) i j = a.
Proof.
  intros -> ->. unfold slice. rewrite Z.sub_0_r, zlen_nat.
  change (drop (Z.to_nat 0) (a ++ b)) with (a ++ b). by rewrite take_app_length.
Qed.

Lemma slice_split l i : 0 <= i -> slice l 0 i ++ slice_from l i = l.
Proof.
  intros Hi. unfold slice, slice_from. rewrite Z.sub_0_r. cbn [Z.to_nat drop].
  apply take_drop.
Qed.

Lemma slice_cut l i j k : 0 <= i -> i <= j -> j <= k -> slice l i j ++ slice l j k = slice l i k.
Proof.
  intros. unfold slice.
  replace (drop (Z.to_nat j) l) with (drop (Z.to_nat (j - i)) (drop (Z.to_nat i) l))
    by (rewrite drop_drop; f_equal; lia).
  replace (Z.to_nat (k - i)) with (Z.to_nat (j - i) + Z.to_nat (k - j))%nat by lia.
  rewrite <- (take_drop (Z.to_nat (j - i)) (drop (Z.to_nat i) l)) at 3.
  set (d := drop (Z.to_nat i) l).
  destruct (decide (Z.to_nat (j - i) <= length d)%nat) as [Hle|Hgt].
  - rewrite take_app_add'; [done|]. rewrite length_take. lia.
  - rewrite (drop_ge d) by lia. rewrite take_nil, !app_nil_r.
    rewrite !take_ge; rewrite ?length_take; [done|lia..].
Qed.

Lemma slice_all l i j : i = 0 -> zlen l <= j -> slice l i j = l.
Proof. intros -> Hj. unfold slice. cbn. apply take_ge. unfold zlen in Hj. lia. Qed.

Lemma slice_to_end l i : 0 <= i -> slice l i (zlen l) = slice_from l i.
Proof.
  intros Hi. unfold slice, slice_from. apply take_ge. rewrite length_drop. unfold zlen. lia.
Qed.

Lemma Forall_slice (P : A -> Prop) l i j : Forall P l -> Forall P (slice l i j).
Proof. intros H. unfold slice. by apply Forall_take, Forall_drop. Qed.

Lemma Forall_slice_from (P : A -> Prop) l i : Forall P l -> Forall P (slice_from l i).
Proof. intros H. unfold slice_from. by apply Forall_drop. Qed.

Lemma last_cons_default (x d : A) l : List.last (x :: l) d = List.last l x.
Proof. revert x d. induction l as [|y l IH]; intros x d; [done|]. change (List.last (y :: l) d = List.last (y :: l) x). by rewrite !IH. Qed.

Lemma idx_lookup l i x : 0 <= i -> l !! Z.to_nat i = Some x -> idx l i = Some x.
Proof. intros Hi Hl. unfold idx. rewrite (proj2 (Z.ltb_ge i 0)) by lia. done. Qed.
End Lists.

Lemma zlen_map {A B} (f : A -> B) l : zlen (map f l) = zlen l.
Proof. unfold zlen. by rewrite length_map. Qed.

(** A larger number keeps a list strictly increasing. *)
Lemma sorted_snoc (l : list Z) x :
  StronglySorted Z.lt l -> Forall (fun y => y < x) l -> StronglySorted Z.lt (l ++ [x]).
Proof.
  induction l as [|y l IH]; cbn; intros Hs Hf; [repeat constructor|].
  apply Forall_cons in Hf as [Hy Hf]. apply StronglySorted_inv in Hs as [Hs Hall].
  constructor; [auto|]. apply Forall_app. split; [done|by repeat constructor].
Qed.

Create HintDb atterm.
Create Rewrite HintDb zlen.
#[export] Hint Resolve zlen_nonneg Forall_slice Forall_slice_from : atterm.
#[export] Hint Rewrite @zlen_app @zlen_cons @zlen_nil @zlen_replicate @zlen_map : zlen.

(** Arithmetic on lengths: normalise [zlen] and close with [lia]. *)
Ltac zlen_lia :=
  autorewrite with zlen in *;
  repeat match goal with
  | l : list _ |- _ =>
      lazymatch goal with
      | _ : 0 <= zlen l |- _ => fail
      | _ => pose proof (zlen_nonneg l)
      end
  end; lia.
