(* ===== verification/Bytes.v ===== *)
(** * Byte arrays, [DataView] and double-precision integers

    The part of the JavaScript standard library that the wire codecs use:
    [Uint8Array] as a list of integers in [0, 256), [DataView]'s big-endian
    accessors, [TypedArray.prototype.set], and the rounding of an integer to
    a JavaScript number. *)

From S2P Require Import Prelude.

Abbreviation bytes := (list Z).

Definition is_byte (b : Z) : Prop := 0 <= b < 256.
Definition bytes_ok (p : bytes) : Prop := Forall is_byte p.

#[export] Instance is_byte_dec b : Decision (is_byte b).
Proof. unfold is_byte. apply _. Defined.

#[export] Instance bytes_ok_dec p : Decision (bytes_ok p).
Proof. unfold bytes_ok. apply _. Defined.

(** [new Uint8Array(n)] *)
Definition zeros (n : Z) : bytes := replicate (Z.to_nat n) 0.

(** [buf[i] = v]: the value is taken modulo 256; a write out of range is
    ignored, for a typed array as for [<[_:=_]>]. *)
Definition set_idx (buf : bytes) (i v : Z) : bytes := <[Z.to_nat i := v mod 256]> buf.

Definition range_error : string := "RangeError: offset is out of bounds".

(** [buf.set(src, off)] *)
Definition set_range (buf src : bytes) (off : Z) : result bytes :=
  throw_if (zlen buf <? off + zlen src) range_error ;;;
  Ok (slice buf 0 off ++ src ++ slice_from buf (off + zlen src)).

(** Big-endian bytes of the low [8 * n] bits of [v]. *)
Fixpoint be_bytes (n : nat) (v : Z) : bytes :=
  match n with
  | O => []
  | S n' => (v / 256 ^ Z.of_nat n') mod 256 :: be_bytes n' v
  end.

Fixpoint be_val (p : bytes) : Z :=
  match p with
  | [] => 0
  | b :: p' => b * 256 ^ zlen p' + be_val p'
  end.

(** [view.getUint16/getUint32/getBigUint64(off, false)], by width in bytes. *)
Definition getUint (n : nat) (p : bytes) (off : Z) : result Z :=
  throw_if (zlen p <? off + Z.of_nat n) range_error ;;;
  Ok (be_val (slice p off (off + Z.of_nat n))).

(** [view.setUint16/setUint32/setBigUint64(off, v, false)] *)
Definition setUint (n : nat) (buf : bytes) (off v : Z) : result bytes :=
  set_range buf (be_bytes n v) off.

(** The JavaScript number nearest to a non-negative integer: round to 53
    significant bits, ties to even. *)
Definition js_round (z : Z) : Z :=
  let e := Z.log2 z - 52 in
  if e <=? 0 then z
  else
    let u := 2 ^ e in
    let q := z / u in
    let r := z mod u in
    if (2 * r <? u) then q * u
    else if (u <? 2 * r) then (q + 1) * u
    else if Z.even q then q * u else (q + 1) * u.

Definition MAX_SAFE_INTEGER : Z := 2 ^ 53 - 1.

(** [Number.isSafeInteger] of an integer-valued number *)
Definition isSafeInteger (z : Z) : bool := (- MAX_SAFE_INTEGER <=? z) && (z <=? MAX_SAFE_INTEGER).

(** ** Lemmas *)

Lemma bytes_ok_app p q : bytes_ok (p ++ q) <-> bytes_ok p /\ bytes_ok q.
Proof. apply Forall_app. Qed.

Lemma zlen_zeros n : 0 <= n -> zlen (zeros n) = n.
Proof. intros. unfold zeros. rewrite zlen_replicate. lia. Qed.

Lemma zeros_app n m : 0 <= n -> 0 <= m -> zeros (n + m) = zeros n ++ zeros m.
Proof. intros. unfold zeros. rewrite Z2Nat.inj_add by lia. by rewrite replicate_add. Qed.

Lemma zeros_cons n : 0 <= n -> zeros (1 + n) = 0 :: zeros n.
Proof. intros. rewrite zeros_app by lia. done. Qed.

Lemma zlen_be_bytes n v : zlen (be_bytes n v) = Z.of_nat n.
Proof. induction n as [|n IH]; [done|]. cbn [be_bytes]. rewrite zlen_cons, IH. lia. Qed.

Lemma be_bytes_ok n v : bytes_ok (be_bytes n v).
Proof.
  unfold bytes_ok. induction n as [|n IH]; cbn [be_bytes]; constructor; [|done].
  apply Z.mod_pos_bound. lia.
Qed.

Lemma be_val_bound p : bytes_ok p -> 0 <= be_val p < 256 ^ zlen p.
Proof.
  unfold bytes_ok. induction 1 as [|b p Hb _ IH]; cbn [be_val]; [done|].
  unfold is_byte in Hb. pose proof (zlen_nonneg p).
  rewrite zlen_cons, Z.pow_add_r by lia. change (256 ^ 1) with 256. nia.
Qed.

Lemma be_val_be_bytes n v : be_val (be_bytes n v) = v mod 256 ^ Z.of_nat n.
Proof.
  induction n as [|n IH]; [by rewrite Z.mod_1_r|].
  cbn [be_bytes be_val]. rewrite IH, zlen_be_bytes.
  rewrite Nat2Z.inj_succ, Z.pow_succ_r by lia.
  rewrite (Z.mul_comm 256), Z.rem_mul_r by lia. lia.
Qed.

Lemma be_val_be_bytes_small n v :
  0 <= v < 256 ^ Z.of_nat n -> be_val (be_bytes n v) = v.
Proof. intros H. rewrite be_val_be_bytes. by apply Z.mod_small. Qed.

Lemma be_bytes_mod n m v :
  (n <= m)%nat -> be_bytes n (v mod 256 ^ Z.of_nat m) = be_bytes n v.
Proof.
  induction n as [|n IH]; intros Hle; [done|]. cbn [be_bytes]. rewrite IH by lia. f_equal.
  replace (Z.of_nat m) with (Z.of_nat n + (1 + (Z.of_nat m - Z.of_nat n - 1))) by lia.
  rewrite Z.pow_add_r, Z.rem_mul_r by lia.
  rewrite (Z.mul_comm (256 ^ Z.of_nat n)), Z.div_add by lia.
  rewrite (Z.div_small (v mod _)) by (apply Z.mod_pos_bound; lia). rewrite Z.add_0_l.
  rewrite Z.pow_add_r, Z.pow_1_r by lia. rewrite Z.rem_mul_r by lia.
  rewrite (Z.mul_comm 256), Z.mod_add by lia. by rewrite Z.mod_mod by lia.
Qed.

Lemma be_bytes_be_val p : bytes_ok p -> be_bytes (length p) (be_val p) = p.
Proof.
  unfold bytes_ok. induction 1 as [|b p Hb Hp IH]; [done|].
  cbn [length be_bytes be_val]. pose proof (be_val_bound p Hp) as Hv.
  change (Z.of_nat (length p)) with (zlen p). unfold is_byte in Hb. f_equal.
  - rewrite Z.add_comm, Z.div_add by lia. rewrite Z.div_small by lia.
    apply Z.mod_small. lia.
  - rewrite <- (be_bytes_mod _ (length p)) by lia. change (Z.of_nat (length p)) with (zlen p).
    rewrite Z.add_comm, Z.mod_add by lia. by rewrite Z.mod_small.
Qed.

Lemma be_bytes_be_val_len p n : bytes_ok p -> length p = n -> be_bytes n (be_val p) = p.
Proof. intros ? <-. by apply be_bytes_be_val. Qed.

Lemma be_bytes_inj n v w :
  0 <= v < 256 ^ Z.of_nat n -> 0 <= w < 256 ^ Z.of_nat n -> be_bytes n v = be_bytes n w -> v = w.
Proof. intros Hv Hw E. rewrite <- (be_val_be_bytes_small n v), E by done. by apply be_val_be_bytes_small. Qed.

(** Writing over the middle third of a buffer. *)
Lemma set_range_mid a b c src off :
  off = zlen a -> zlen b = zlen src -> set_range (a ++ b ++ c) src off = Ok (a ++ src ++ c).
Proof.
  intros -> Hb. unfold set_range. split_guard; [zlen_lia|].
  rewrite slice_prefix by done. rewrite (app_assoc a b c).
  rewrite slice_from_app; [done|]. rewrite zlen_app. lia.
Qed.

Lemma set_range_zeros a src off k :
  off = zlen a -> zlen src <= k ->
  set_range (a ++ zeros k) src off = Ok (a ++ src ++ zeros (k - zlen src)).
Proof.
  intros -> Hk. pose proof (zlen_nonneg src).
  replace k with (zlen src + (k - zlen src)) at 1 by lia.
  rewrite zeros_app by lia. apply set_range_mid; [done|]. by rewrite zlen_zeros.
Qed.

Lemma set_range_start src k :
  zlen src <= k -> set_range (zeros k) src 0 = Ok (src ++ zeros (k - zlen src)).
Proof. intros. by rewrite <- (app_nil_l (zeros k)), set_range_zeros. Qed.

Lemma setUint_zeros n a off v k :
  off = zlen a -> Z.of_nat n <= k ->
  setUint n (a ++ zeros k) off v = Ok (a ++ be_bytes n v ++ zeros (k - Z.of_nat n)).
Proof.
  intros Ho Hk. unfold setUint.
  rewrite set_range_zeros; rewrite ?zlen_be_bytes; done.
Qed.

(** Filling a buffer of the very width. *)
Lemma setUint_fill n k v : k = Z.of_nat n -> setUint n (zeros k) 0 v = Ok (be_bytes n v).
Proof.
  intros ->. rewrite <- (app_nil_l (zeros _)), setUint_zeros by (done || lia).
  rewrite Z.sub_diag. cbn [zeros Z.to_nat replicate app]. by rewrite app_nil_r.
Qed.

Lemma getUint_app n a v c off :
  off = zlen a -> 0 <= v < 256 ^ Z.of_nat n ->
  getUint n (a ++ be_bytes n v ++ c) off = Ok v.
Proof.
  intros -> Hv. unfold getUint. pose proof (zlen_be_bytes n v) as Hl.
  split_guard; [zlen_lia|].
  rewrite (slice_app a _ c) by (rewrite ?Hl; done). by rewrite be_val_be_bytes_small.
Qed.

(** A successful read gives back the bytes that were read. *)
Lemma getUint_inv n p off v :
  bytes_ok p -> 0 <= off -> getUint n p off = Ok v ->
  off + Z.of_nat n <= zlen p /\ 0 <= v < 256 ^ Z.of_nat n /\
  be_bytes n v = slice p off (off + Z.of_nat n).
Proof.
  unfold getUint. intros Hp Ho H. inv_ok.
  set (q := slice p off (off + Z.of_nat n)).
  assert (Hq : zlen q = Z.of_nat n) by (unfold q; rewrite zlen_slice; lia).
  assert (bytes_ok q) by (by apply Forall_slice).
  pose proof (be_val_bound q ltac:(done)) as Hb. rewrite Hq in Hb.
  split_and!; [lia..|]. apply be_bytes_be_val_len; [done|]. unfold zlen in Hq. lia.
Qed.

Lemma getUint_in_range n p off :
  off + Z.of_nat n <= zlen p -> getUint n p off = Ok (be_val (slice p off (off + Z.of_nat n))).
Proof. intros. unfold getUint. split_guard; [lia|done]. Qed.

Lemma js_round_small z : z < 2 ^ 53 -> js_round z = z.
Proof.
  intros Hz. unfold js_round. destruct (Z.leb_spec (Z.log2 z - 52) 0) as [|Hl]; [done|].
  exfalso. destruct (Z.le_gt_cases z 0) as [Hz0|Hz0]; [rewrite Z.log2_nonpos in Hl; lia|].
  assert (Z.log2 z < 53) by (apply Z.log2_lt_pow2; lia). lia.
Qed.

Lemma js_round_nonneg z : 0 <= z -> 0 <= js_round z.
Proof.
  intros. unfold js_round. split_guard; [done|].
  assert (0 < 2 ^ (Z.log2 z - 52)) by (apply Z.pow_pos_nonneg; lia).
  pose proof (Z.div_pos z (2 ^ (Z.log2 z - 52))). repeat split_guard; nia.
Qed.

#[export] Hint Resolve be_bytes_ok js_round_nonneg : atterm.
#[export] Hint Rewrite zlen_be_bytes : zlen.
