(* ===== verification/JsString.v ===== *)
(** * JavaScript strings

    A string is its sequence of UTF-16 code units. This file has the string
    operations the codecs use: literals, [TextEncoder.encode], the removal of
    a character, hexadecimal [parseInt], and the base-64 decoding of [atob]. *)

From S2P Require Import Prelude Bytes.

Abbreviation jsstr := (list Z).

(** An ASCII literal of the source. *)
Definition js (s : string) : jsstr :=
  map (fun c => Z.of_N (Ascii.N_of_ascii c)) (String.list_ascii_of_string s).

Definition is_unit (c : Z) : Prop := 0 <= c < 65536.
Definition jsstr_ok (s : jsstr) : Prop := Forall is_unit s.

(** ** [new TextEncoder().encode(s)]: UTF-8, a lone surrogate becomes U+FFFD. *)

Definition is_high_surrogate (c : Z) : bool := (55296 <=? c) && (c <=? 56319).
Definition is_low_surrogate (c : Z) : bool := (56320 <=? c) && (c <=? 57343).

Definition utf8_code_point (c : Z) : bytes :=
  if c <? 128 then [c]
  else if c <? 2048 then [192 + c / 64; 128 + c mod 64]
  else if c <? 65536 then [224 + c / 4096; 128 + (c / 64) mod 64; 128 + c mod 64]
  else [240 + c / 262144; 128 + (c / 4096) mod 64; 128 + (c / 64) mod 64; 128 + c mod 64].

Fixpoint utf8_encode (s : jsstr) : bytes :=
  match s with
  | [] => []
  | c :: s' =>
      if is_high_surrogate c then
        match s' with
        | d :: s'' =>
            if is_low_surrogate d
            then utf8_code_point (65536 + (c - 55296) * 1024 + (d - 56320)) ++ utf8_encode s''
            else utf8_code_point 65533 ++ utf8_encode s'
        | [] => utf8_code_point 65533
        end
      else if is_low_surrogate c then utf8_code_point 65533 ++ utf8_encode s'
      else utf8_code_point c ++ utf8_encode s'
  end.

(** ** [s.replace(/c/g, "")] for a single character *)

Definition remove_char (c : Z) (s : jsstr) : jsstr := filter (fun x => x <> c) s.

(** [s.replaceAll(a, b)] for single characters *)
Definition replace_char (a b : Z) (s : jsstr) : jsstr := map (fun x => if x =? a then b else x) s.

(** ** [parseInt(s, 16)]: [None] is [NaN] *)

Definition hex_digit (c : Z) : option Z :=
  if (48 <=? c) && (c <=? 57) then Some (c - 48)
  else if (97 <=? c) && (c <=? 102) then Some (c - 87)
  else if (65 <=? c) && (c <=? 70) then Some (c - 55)
  else None.

(** White space and line terminators of ECMAScript *)
Definition is_space (c : Z) : bool :=
  ((9 <=? c) && (c <=? 13)) || (c =? 32) || (c =? 160) || (c =? 5760)
  || ((8192 <=? c) && (c <=? 8202)) || (c =? 8232) || (c =? 8233)
  || (c =? 8239) || (c =? 8287) || (c =? 12288) || (c =? 65279).

Fixpoint trim_start (s : jsstr) : jsstr :=
  match s with
  | c :: s' => if is_space c then trim_start s' else s
  | [] => []
  end.

Fixpoint hex_prefix (acc : Z) (s : jsstr) : Z :=
  match s with
  | c :: s' => match hex_digit c with Some d => hex_prefix (16 * acc + d) s' | None => acc end
  | [] => acc
  end.

Definition parse_sign (s : jsstr) : Z * jsstr :=
  match s with
  | c :: s' => if c =? 45 then (-1, s') else if c =? 43 then (1, s') else (1, s)
  | [] => (1, s)
  end.

Definition strip_0x (s : jsstr) : jsstr :=
  match s with
  | c :: d :: s' => if (c =? 48) && ((d =? 120) || (d =? 88)) then s' else s
  | _ => s
  end.

Definition parseInt16 (s : jsstr) : option Z :=
  let '(sign, r) := parse_sign (trim_start s) in
  let r := strip_0x r in
  match r with
  | c :: _ => match hex_digit c with Some _ => Some (sign * hex_prefix 0 r) | None => None end
  | [] => None
  end.

(** ** Searching and cutting *)

(** [s.startsWith(p)] *)
Fixpoint starts_with (p s : jsstr) : bool :=
  match p, s with
  | [], _ => true
  | a :: p', b :: s' => (a =? b) && starts_with p' s'
  | _ :: _, [] => false
  end.

(** [s.includes(p)] *)
Fixpoint includes (s p : jsstr) : bool :=
  starts_with p s || match s with [] => false | _ :: s' => includes s' p end.

Definition trim_end (s : jsstr) : jsstr := rev (trim_start (rev s)).

(** [s.trim()] *)
Definition trim (s : jsstr) : jsstr := trim_end (trim_start s).

(** [s.split(c)] for one character [c] *)
Fixpoint split_on (c : Z) (s : jsstr) : list jsstr :=
  match s with
  | [] => [[]]
  | d :: s' =>
      if d =? c then [] :: split_on c s'
      else match split_on c s' with
           | part :: rest => (d :: part) :: rest
           | [] => [[d]]
           end
  end.

Lemma split_on_plain c s : c ∉ s -> split_on c s = [s].
Proof.
  induction s as [|d s IH]; [done|]. rewrite not_elem_of_cons. intros [Hd Hs]. cbn [split_on].
  rewrite (proj2 (Z.eqb_neq d c)) by congruence. by rewrite IH.
Qed.

Lemma split_on_first c a rest : c ∉ a -> split_on c (a ++ [c] ++ rest) = a :: split_on c rest.
Proof.
  induction a as [|d a IH]; [cbn; by rewrite Z.eqb_refl|]. rewrite not_elem_of_cons. intros [Hd Ha].
  cbn [app split_on]. rewrite (proj2 (Z.eqb_neq d c)) by congruence. cbn [app] in IH. by rewrite IH.
Qed.

(** [b.toString(16).padStart(2, "0")] of a byte *)
Definition hex_char (d : Z) : Z := if d <? 10 then d + 48 else d + 87.
Definition hex_byte (b : Z) : jsstr := [hex_char (b / 16); hex_char (b mod 16)].

(** [a < b], by code units *)
Fixpoint string_lt (a b : jsstr) : bool :=
  match a, b with
  | _, [] => false
  | [], _ :: _ => true
  | x :: a', y :: b' => (x <? y) || ((x =? y) && string_lt a' b')
  end.

Lemma string_lt_irrefl a : string_lt a a = false.
Proof. induction a as [|x a IH]; [done|]. cbn. by rewrite Z.ltb_irrefl, IH, andb_false_r. Qed.

Lemma string_lt_cons x a y b :
  string_lt (x :: a) (y :: b) = true <-> x < y \/ (x = y /\ string_lt a b = true).
Proof. cbn. by rewrite orb_true_iff, andb_true_iff, Z.ltb_lt, Z.eqb_eq. Qed.

Lemma string_lt_trans a b c : string_lt a b = true -> string_lt b c = true -> string_lt a c = true.
Proof.
  revert b c. induction a as [|x a IH]; intros [|y b] [|z c]; try done.
  rewrite !string_lt_cons. intros [?|[-> ?]] [?|[-> ?]]; [left; lia|left; lia|left; lia|].
  right. split; [done|]. by eapply IH.
Qed.

Lemma string_lt_total a b : a <> b -> string_lt a b = true \/ string_lt b a = true.
Proof.
  revert b. induction a as [|x a IH]; intros [|y b]; [done|by left|by right|]. intros Hne.
  rewrite !string_lt_cons. destruct (Z.lt_trichotomy x y) as [?|[->|?]]; [by left; left| |by right; left].
  destruct (IH b) as [?|?]; [congruence|auto|auto].
Qed.

Lemma string_lt_asym a b : string_lt a b = true -> string_lt b a = false.
Proof.
  intros Hab. destruct (string_lt b a) eqn:Hba; [|done].
  pose proof (string_lt_trans _ _ _ Hab Hba) as H. by rewrite string_lt_irrefl in H.
Qed.

(** [a.join(sep)] *)
Fixpoint join (sep : jsstr) (l : list jsstr) : jsstr :=
  match l with
  | [] => []
  | [s] => s
  | s :: rest => s ++ sep ++ join sep rest
  end.

(** ** [atob]: forgiving base-64 decoding of a padded string

    The callers check the alphabet and pad to a multiple of four, so white
    space never occurs; [None] is the [InvalidCharacterError]. *)

Definition b64_digit (c : Z) : option Z :=
  if (65 <=? c) && (c <=? 90) then Some (c - 65)
  else if (97 <=? c) && (c <=? 122) then Some (c - 71)
  else if (48 <=? c) && (c <=? 57) then Some (c + 4)
  else if c =? 43 then Some 62
  else if c =? 47 then Some 63
  else None.

Fixpoint atob (s : jsstr) : option bytes :=
  match s with
  | [] => Some []
  | a :: b :: c :: d :: s' =>
      if (d =? 61) && bool_decide (s' = []) then
        if c =? 61 then
          match b64_digit a, b64_digit b with
          | Some x, Some y => Some [4 * x + y / 16]
          | _, _ => None
          end
        else
          match b64_digit a, b64_digit b, b64_digit c with
          | Some x, Some y, Some z => Some [4 * x + y / 16; (16 * y + z / 4) mod 256]
          | _, _, _ => None
          end
      else
        match b64_digit a, b64_digit b, b64_digit c, b64_digit d, atob s' with
        | Some x, Some y, Some z, Some w, Some r =>
            Some (4 * x + y / 16 :: (16 * y + z / 4) mod 256 :: (64 * z + w) mod 256 :: r)
        | _, _, _, _, _ => None
        end
  | _ => None
  end.

(** [atob] of a string that need not be padded and may hold white space *)
Definition is_ascii_space (c : Z) : bool :=
  (c =? 9) || (c =? 10) || (c =? 12) || (c =? 13) || (c =? 32).

Definition atob_text (s : jsstr) : option bytes :=
  let s := filter (fun c => is_ascii_space c = false) s in
  if zlen s mod 4 =? 0 then atob s
  else if (zlen s mod 4 =? 1) || existsb (fun c => c =? 61) s then None
  else atob (s ++ replicate (Z.to_nat (4 - zlen s mod 4)) 61).

(** ** [btoa] of a string whose code units are the bytes [p] *)

Definition b64_char (d : Z) : Z :=
  if d <? 26 then d + 65 else if d <? 52 then d + 71 else if d <? 62 then d - 4
  else if d =? 62 then 43 else 47.

Fixpoint btoa (p : bytes) : jsstr :=
  match p with
  | [] => []
  | [a] => [b64_char (a / 4); b64_char ((a * 16) mod 64); 61; 61]
  | [a; b] => [b64_char (a / 4); b64_char ((a * 16) mod 64 + b / 16); b64_char ((b * 4) mod 64); 61]
  | a :: b :: c :: p' =>
      b64_char (a / 4) :: b64_char ((a * 16) mod 64 + b / 16)
        :: b64_char ((b * 4) mod 64 + c / 64) :: b64_char (c mod 64) :: btoa p'
  end.

(** ** Lemmas *)

Lemma hex_digit_range c d : hex_digit c = Some d -> 0 <= d < 16.
Proof. unfold hex_digit. repeat split_guard; intros; inv_ok; lia. Qed.

(** Two hexadecimal digits are read as the byte they denote. *)
Lemma parseInt16_two c d x y :
  hex_digit c = Some x -> hex_digit d = Some y -> parseInt16 [c; d] = Some (16 * x + y).
Proof.
  intros Hc Hd. unfold parseInt16.
  assert (Hs : is_space c = false /\ c <> 45 /\ c <> 43).
  { revert Hc. unfold hex_digit, is_space. repeat split_guard; intros; inv_ok; lia. }
  destruct Hs as (Hs & H1 & H2). cbn [trim_start]. rewrite Hs. cbn [parse_sign].
  rewrite (proj2 (Z.eqb_neq _ _) H1), (proj2 (Z.eqb_neq _ _) H2). cbn [strip_0x].
  assert (Hx : ((d =? 120) || (d =? 88))%bool = false).
  { revert Hd. unfold hex_digit. repeat split_guard; intros; inv_ok; lia. }
  rewrite Hx, andb_false_r, Hc. cbn [hex_prefix]. rewrite Hc, Hd. f_equal. lia.
Qed.

Lemma utf8_code_point_ok c : 0 <= c < 1114112 -> bytes_ok (utf8_code_point c).
Proof.
  intros Hc. unfold utf8_code_point, bytes_ok, is_byte.
  repeat split_guard; repeat constructor; try (Z.div_mod_to_equations; lia).
Qed.

Lemma utf8_encode_ok s : jsstr_ok s -> bytes_ok (utf8_encode s).
Proof.
  unfold jsstr_ok, is_unit.
  induction s as [s IH] using (induction_ltof1 _ (@length Z)). unfold ltof in IH.
  intros Hs. destruct s as [|c s']; [constructor|]. apply Forall_cons in Hs as [Hc Hs'].
  cbn [utf8_encode]. unfold is_high_surrogate, is_low_surrogate.
  assert (IHs : bytes_ok (utf8_encode s')) by (apply IH; [cbn; lia|done]).
  split_guard; [destruct s' as [|d s'']|].
  - by apply utf8_code_point_ok.
  - apply Forall_cons in Hs' as [Hd Hs'']. split_guard; apply bytes_ok_app; split;
      try (by apply utf8_code_point_ok); try (apply utf8_code_point_ok; lia); try done.
    apply IH; [cbn; lia|done].
  - split_guard; apply bytes_ok_app; split; try done; apply utf8_code_point_ok; lia.
Qed.

Lemma b64_digit_char d : 0 <= d < 64 -> b64_digit (b64_char d) = Some d.
Proof.
  intros Hd. unfold b64_char, b64_digit.
  repeat (split_guard; [|try lia]); try (f_equal; lia); repeat split_guard; try (f_equal; lia); lia.
Qed.

Lemma b64_char_not_pad d : 0 <= d < 64 -> b64_char d <> 61.
Proof. intros Hd. unfold b64_char. repeat split_guard; lia. Qed.

(** [atob] undoes [btoa]. *)
Lemma atob_btoa p : bytes_ok p -> atob (btoa p) = Some p.
Proof.
  induction p as [p IH] using (induction_ltof1 _ (@length Z)). unfold ltof in IH. intros Hp.
  unfold bytes_ok, is_byte in *.
  destruct p as [|a [|b [|c p']]]; [done|..]; rewrite ?Forall_cons in Hp; cbn [btoa atob].
  - rewrite bool_decide_true by done. cbn [andb Z.eqb Pos.eqb].
    rewrite !b64_digit_char by (Z.div_mod_to_equations; lia). do 2 f_equal. Z.div_mod_to_equations. lia.
  - rewrite bool_decide_true by done. cbn [andb Z.eqb Pos.eqb].
    rewrite (proj2 (Z.eqb_neq _ 61)) by (apply b64_char_not_pad; Z.div_mod_to_equations; lia).
    rewrite !b64_digit_char by (Z.div_mod_to_equations; lia). do 2 f_equal; [|f_equal];
      Z.div_mod_to_equations; lia.
  - destruct Hp as (Ha & Hb & Hc & Hp).
    rewrite (proj2 (Z.eqb_neq _ 61)) by (apply b64_char_not_pad; Z.div_mod_to_equations; lia).
    cbn [andb]. rewrite !b64_digit_char by (Z.div_mod_to_equations; lia).
    rewrite IH by (cbn; lia || done). do 2 f_equal; [|f_equal; [|f_equal]];
      Z.div_mod_to_equations; lia.
Qed.

Lemma btoa_ind (P : bytes -> Prop) :
  P [] -> (forall a, P [a]) -> (forall a b, P [a; b]) ->
  (forall a b c p, P p -> P (a :: b :: c :: p)) -> forall p, P p.
Proof.
  intros H0 H1 H2 H3 p. induction p as [p IH] using (induction_ltof1 _ (@length Z)). unfold ltof in IH.
  destruct p as [|a [|b [|c p']]]; auto. apply H3, IH. cbn. lia.
Qed.

Lemma btoa_length p : zlen (btoa p) mod 4 = 0.
Proof.
  induction p as [| | |a b c p IH] using btoa_ind; [done..|]. cbn [btoa]. rewrite !zlen_cons.
  Z.div_mod_to_equations. lia.
Qed.

(** The characters of standard base 64 survive the URL-safe replacement. *)
Lemma btoa_url_safe p :
  bytes_ok p -> replace_char 95 47 (replace_char 45 43 (btoa p)) = btoa p.
Proof.
  assert (H : forall d, 0 <= d < 64 -> (if (if b64_char d =? 45 then 43 else b64_char d) =? 95
              then 47 else if b64_char d =? 45 then 43 else b64_char d) = b64_char d).
  { intros d Hd. unfold b64_char. repeat split_guard; lia. }
  unfold bytes_ok, is_byte, replace_char.
  induction p as [| | |a b c p IH] using btoa_ind; rewrite ?Forall_cons; intros Hp; cbn [btoa map];
    rewrite ?H by (Z.div_mod_to_equations; lia); try done.
  rewrite IH by tauto. done.
Qed.

#[export] Hint Resolve hex_digit_range utf8_encode_ok : atterm.
