(* ===== verification/Base64Url.v ===== *)
(** * URL-safe base 64 without padding

    The encoding of tickets, tokens and peer documents: [btoa] with [-] and [_]
    for the two characters a URL cannot carry and without the padding. *)

From S2P Require Import Prelude Bytes JsString.

(** [/[A-Za-z0-9_-]/] *)
Definition is_b64url (c : Z) : bool :=
  ((65 <=? c) && (c <=? 90)) || ((97 <=? c) && (c <=? 122)) || ((48 <=? c) && (c <=? 57))
  || (c =? 95) || (c =? 45).

(** [.replace(/=+$/g, "")] *)
Fixpoint strip_padding (s : jsstr) : jsstr :=
  match s with
  | [] => []
  | c :: s' =>
      match strip_padding s' with
      | [] => if c =? 61 then [] else [c]
      | r => c :: r
      end
  end.

(** A base-64 digit made URL-safe is in the alphabet, is not the padding, and
    the decoder maps it back. *)
Definition url_char (d : Z) : Z :=
  let c := b64_char d in let c := if c =? 43 then 45 else c in if c =? 47 then 95 else c.

Lemma url_char_ok d : 0 <= d < 64 ->
  is_b64url (url_char d) = true /\ url_char d <> 61 /\
  (let c := if url_char d =? 45 then 43 else url_char d in if c =? 95 then 47 else c) = b64_char d.
Proof.
  intros Hd. unfold url_char, is_b64url, b64_char.
  repeat split_guard; cbv zeta; try lia; (split; [|split; [lia|repeat split_guard; lia]]);
    rewrite ?orb_true_iff, ?andb_true_iff, ?Z.leb_le, ?Z.eqb_eq; lia.
Qed.

Lemma url_char_sub d : 0 <= d < 64 -> is_b64url (url_char d) = true.
Proof. apply url_char_ok. Qed.

Lemma url_char_back d : 0 <= d < 64 ->
  (if (if url_char d =? 45 then 43 else url_char d) =? 95 then 47
   else if url_char d =? 45 then 43 else url_char d) = b64_char d.
Proof. apply url_char_ok. Qed.

Lemma strip_padding_cons c s : c <> 61 -> strip_padding (c :: s) = c :: strip_padding s.
Proof. intros Hc. cbn. destruct (strip_padding s); [|done]. by rewrite (proj2 (Z.eqb_neq _ _)). Qed.

Definition base64url (p : bytes) : jsstr := strip_padding (replace_char 47 95 (replace_char 43 45 (btoa p))).

Definition unpadded (p : bytes) : jsstr := replace_char 95 47 (replace_char 45 43 (base64url p)).

Lemma base64url_steps :
  (forall a, 0 <= a < 256 -> base64url [a] = [url_char (a / 4); url_char ((a * 16) mod 64)]) /\
  (forall a b, 0 <= a < 256 -> 0 <= b < 256 ->
     base64url [a; b] = [url_char (a / 4); url_char ((a * 16) mod 64 + b / 16); url_char ((b * 4) mod 64)]) /\
  (forall a b c p, 0 <= a < 256 -> 0 <= b < 256 -> 0 <= c < 256 ->
     base64url (a :: b :: c :: p) = url_char (a / 4) :: url_char ((a * 16) mod 64 + b / 16)
        :: url_char ((b * 4) mod 64 + c / 64) :: url_char (c mod 64) :: base64url p).
Proof.
  assert (Hne : forall d, 0 <= d < 64 -> url_char d <> 61) by (intros d Hd; by apply url_char_ok).
  unfold base64url, replace_char. split_and!; intros; cbn [btoa map]; fold (url_char (a / 4));
    rewrite !strip_padding_cons by (apply Hne; Z.div_mod_to_equations; lia); done.
Qed.

Lemma base64url_chars p : bytes_ok p -> forallb is_b64url (base64url p) = true.
Proof.
  destruct base64url_steps as (H1 & H2 & H3). unfold bytes_ok, is_byte.
  induction p as [|a|a b|a b c p IH] using btoa_ind; rewrite ?Forall_cons; intros Hp; [done|..].
  - rewrite H1 by tauto. cbn [forallb]. by rewrite !url_char_sub by (Z.div_mod_to_equations; lia).
  - rewrite H2 by tauto. cbn [forallb]. by rewrite !url_char_sub by (Z.div_mod_to_equations; lia).
  - rewrite H3 by tauto. cbn [forallb]. rewrite !url_char_sub by (Z.div_mod_to_equations; lia).
    cbn [andb]. apply IH. tauto.
Qed.

Definition b64_padding (n : Z) : jsstr := if n mod 4 =? 0 then [] else replicate (Z.to_nat (4 - n mod 4)) 61.

Lemma unpadded_padding p : bytes_ok p -> unpadded p ++ b64_padding (zlen (unpadded p)) = btoa p.
Proof.
  destruct base64url_steps as (H1 & H2 & H3). unfold bytes_ok, is_byte, unpadded, replace_char.
  induction p as [|a|a b|a b c p IH] using btoa_ind; rewrite ?Forall_cons; intros Hp; [done|..].
  - rewrite H1 by tauto. cbn [map btoa].
    rewrite !url_char_back by (Z.div_mod_to_equations; lia). done.
  - rewrite H2 by tauto. cbn [map btoa].
    rewrite !url_char_back by (Z.div_mod_to_equations; lia). done.
  - rewrite H3 by tauto. cbn [map btoa].
    rewrite !url_char_back by (Z.div_mod_to_equations; lia).
    rewrite !zlen_cons. rewrite <- (IH ltac:(tauto)). cbn [app]. do 4 f_equal. f_equal.
    unfold b64_padding.
    match goal with |- context [(1 + (1 + (1 + (1 + ?n)))) mod 4] =>
      replace ((1 + (1 + (1 + (1 + n)))) mod 4) with (n mod 4) by (Z.div_mod_to_equations; lia) end.
    done.
Qed.

