(* ===== verification/JsMap.v ===== *)
(** * JavaScript [Map] and [Set]

    A [Map] keeps its entries in insertion order: [set] on a present key
    replaces the value in place, on a new key appends it, and iteration
    follows that order. It is modelled as the association list of its entries,
    with the laws the components use. *)

From S2P Require Import Prelude.

Section JsMap.
Context {K V : Type} `{EqDecision K}.
Implicit Types (m : list (K * V)) (k : K) (v : V).

Definition jsmap : Type := list (K * V).

Fixpoint map_get m k : option V :=
  match m with
  | [] => None
  | (k', v) :: m' => if bool_decide (k' = k) then Some v else map_get m' k
  end.

Definition map_has m k : bool := match map_get m k with Some _ => true | None => false end.

Fixpoint map_set m k v : list (K * V) :=
  match m with
  | [] => [(k, v)]
  | (k', v') :: m' => if bool_decide (k' = k) then (k', v) :: m' else (k', v') :: map_set m' k v
  end.

Fixpoint map_delete m k : list (K * V) :=
  match m with
  | [] => []
  | (k', v') :: m' => if bool_decide (k' = k) then m' else (k', v') :: map_delete m' k
  end.

Definition map_values m : list V := map snd m.
Definition map_keys m : list K := map fst m.

(** A [Map] holds one entry per key. *)
Definition map_ok m : Prop := NoDup (map_keys m).

Lemma map_get_set m k v k' :
  map_get (map_set m k v) k' = if bool_decide (k = k') then Some v else map_get m k'.
Proof.
  induction m as [|[k0 v0] m IH]; [done|]. cbn [map_set].
  destruct (bool_decide_reflect (k0 = k)) as [->|Hk]; cbn [map_get].
  - by case_bool_decide.
  - rewrite IH. repeat case_bool_decide; congruence.
Qed.

Lemma map_get_in m k v : map_get m k = Some v -> (k, v) ∈ m.
Proof.
  induction m as [|[k0 v0] m IH]; [done|]. cbn [map_get].
  case_bool_decide; intros; simplify_eq; [left|right; auto].
Qed.

Lemma map_get_none m k : map_get m k = None <-> k ∉ map_keys m.
Proof.
  induction m as [|[k0 v0] m IH]; cbn; [split; [intros _ H; by apply not_elem_of_nil in H|done]|].
  rewrite not_elem_of_cons. case_bool_decide; [naive_solver|]. rewrite IH. naive_solver.
Qed.

Lemma map_in_get m k v : map_ok m -> (k, v) ∈ m -> map_get m k = Some v.
Proof.
  unfold map_ok. induction m as [|[k0 v0] m IH]; [intros _ H; by apply not_elem_of_nil in H|].
  cbn. intros [Hn Hnd]%NoDup_cons [E|Hin]%elem_of_cons; [simplify_eq; by rewrite bool_decide_true|].
  rewrite bool_decide_false; [auto|]. intros ->. apply Hn.
  change k with (fst (k, v)). by apply list_elem_of_fmap_2.
Qed.

(** [set] keeps the place of a present key and appends a new one. *)
Lemma map_keys_set m k v :
  map_keys (map_set m k v) = if map_has m k then map_keys m else map_keys m ++ [k].
Proof.
  unfold map_has. induction m as [|[k0 v0] m IH]; [done|]. cbn [map_set map_get].
  case_bool_decide; [done|]. cbn. unfold map_keys in IH. rewrite IH. by destruct (map_get m k).
Qed.

Lemma map_ok_set m k v : map_ok m -> map_ok (map_set m k v).
Proof.
  unfold map_ok. rewrite map_keys_set. unfold map_has.
  destruct (map_get m k) eqn:E; [done|]. intros H. apply NoDup_app. split_and!; [done| |].
  - intros x Hx ->%list_elem_of_singleton. by apply map_get_none in E.
  - apply NoDup_singleton.
Qed.

Lemma map_keys_delete_sub m k x : x ∈ map_keys (map_delete m k) -> x ∈ map_keys m.
Proof.
  induction m as [|[k0 v0] m IH]; [done|]. cbn. case_bool_decide; cbn; rewrite ?elem_of_cons; tauto.
Qed.

Lemma map_ok_delete m k : map_ok m -> map_ok (map_delete m k).
Proof.
  unfold map_ok. induction m as [|[k0 v0] m IH]; [done|]. cbn.
  intros [Hn Hnd]%NoDup_cons. case_bool_decide; [done|]. cbn. apply NoDup_cons. split; [|auto].
  intros Hin. by apply Hn, (map_keys_delete_sub _ k).
Qed.

Lemma map_get_delete m k k' :
  map_ok m -> map_get (map_delete m k) k' = if bool_decide (k = k') then None else map_get m k'.
Proof.
  unfold map_ok. induction m as [|[k0 v0] m IH]; cbn; [by case_bool_decide|].
  intros [Hn Hnd]%NoDup_cons. destruct (bool_decide_reflect (k0 = k)) as [->|Hk].
  - case_bool_decide; [|done]. subst. by apply map_get_none.
  - cbn. rewrite (IH Hnd). repeat case_bool_decide; congruence.
Qed.

Lemma map_delete_absent m k : map_get m k = None -> map_delete m k = m.
Proof.
  induction m as [|[k0 v0] m IH]; [done|]. cbn. case_bool_decide; [done|]. intros. by rewrite IH.
Qed.
End JsMap.
Arguments jsmap : clear implicits.

#[export] Hint Resolve map_ok_set map_ok_delete : atterm.

(** ** The winner of a list of candidates *)

Section Winner.
Context {C : Type} (better : C -> C -> bool).
Implicit Types (cs : list C).

(** The entry that stays after [cs] are offered to the holder [cur]. *)
Fixpoint winner (cur : option C) cs : option C :=
  match cs with
  | [] => cur
  | c :: rest =>
      winner (match cur with
              | None => Some c
              | Some d => if better c d then Some c else Some d
              end) rest
  end.

(** The winner beats what came before it, and nothing after beats it. *)
Lemma winner_split cs cur w :
  (forall a b c, better a b = true -> better b c = true -> better a c = true) ->
  (forall a b c, better a b = true -> better c b = false -> better a c = true) ->
  winner cur cs = Some w ->
  (cur = Some w /\ (forall c, c ∈ cs -> better c w = false)) \/
  exists before after : list C, cs = before ++ w :: after /\
    (forall d, cur = Some d -> better w d = true) /\
    (forall c, c ∈ before -> better w c = true) /\ (forall c, c ∈ after -> better c w = false).
Proof.
  intros Htr Hneg. revert cur. induction cs as [|c cs IH]; intros cur; cbn [winner].
  - intros ->. left. split; [done|]. intros c Hc. by apply not_elem_of_nil in Hc.
  - intros Hw. destruct (IH _ Hw) as [[E Hafter]|(b & a & -> & Hd & Hb & Ha)]; clear IH.
    + destruct cur as [d|].
      * destruct (better c d) eqn:Ebetter; simplify_eq.
        -- right. exists [], cs. split_and!; [done|naive_solver|set_solver|done].
        -- left. split; [done|]. intros x [->|Hx]%elem_of_cons; auto.
      * simplify_eq. right. exists [], cs. split_and!; [done|done|set_solver|done].
    + right. exists (c :: b), a. destruct cur as [d|].
      * destruct (better c d) eqn:Ebetter; specialize (Hd _ eq_refl); split_and!; try done.
        -- intros ? [= <-]. eauto.
        -- intros x [->|Hx]%elem_of_cons; auto.
        -- intros ? [= <-]. done.
        -- intros x [->|Hx]%elem_of_cons; [eapply Hneg; eauto|auto].
      * specialize (Hd _ eq_refl). split_and!; try done. intros x [->|Hx]%elem_of_cons; auto.
Qed.

(** When nobody beats anybody the first candidate stays. *)
Lemma winner_head cs :
  (forall c d, c ∈ cs -> d ∈ cs -> better c d = false) -> winner None cs = head cs.
Proof.
  destruct cs as [|c cs]; [done|]. intros Hno. cbn [winner head].
  assert (H : forall c', c' ∈ cs -> better c' c = false) by (intros; apply Hno; set_solver).
  clear Hno. induction cs as [|d cs IH]; [done|]. cbn [winner].
  rewrite H by set_solver. apply IH. intros c' Hc'. apply H. set_solver.
Qed.

Lemma winner_some cs c : exists w, winner (Some c) cs = Some w.
Proof. revert c. induction cs as [|d cs IH]; intros c; cbn; [by exists c|]. destruct (better d c); apply IH. Qed.

(** When the order decides between any two candidates the winner is the best. *)
Lemma winner_best cs w :
  (forall a b c, better a b = true -> better b c = true -> better a c = true) ->
  (forall a b c, better a b = true -> better c b = false -> better a c = true) ->
  (forall a, better a a = false) ->
  (forall c d, c ∈ cs -> d ∈ cs -> better c d = true \/ better d c = true \/ c = d) ->
  winner None cs = Some w <-> w ∈ cs /\ forall c, c ∈ cs -> better c w = false.
Proof.
  intros Htr Hneg Hirr Htot.
  assert (Hasym : forall a b, better a b = true -> better b a = false).
  { intros a b Hab. destruct (better b a) eqn:E; [|done]. pose proof (Htr _ _ _ Hab E). by rewrite Hirr in *. }
  assert (Hbest : forall v, winner None cs = Some v -> v ∈ cs /\ forall c, c ∈ cs -> better c v = false).
  { intros v [[? _]|(b & a & -> & _ & Hb & Ha)]%winner_split; [done| |done..]. split; [set_solver|].
    intros c [Hc|[->|Hc]%elem_of_cons]%elem_of_app; auto. }
  split; [apply Hbest|]. intros [Hin Hw].
  assert (exists v, winner None cs = Some v) as [v Hv].
  { destruct cs as [|c cs']; [by apply not_elem_of_nil in Hin|]. apply winner_some. }
  rewrite Hv. f_equal. destruct (Hbest v Hv) as [Hvin Hvw].
  destruct (Htot v w Hvin Hin) as [H|[H|H]]; [by rewrite Hw in H|by rewrite Hvw in H|done].
Qed.
End Winner.

(** ** Keeping the best entry per key

    The loop [for (const c of cs) { const cur = m.get(key(c)); if (!cur ||
    better(c, cur)) m.set(key(c), c) }] and its meaning: one entry per key, in
    the order in which the keys first occur, each the winner of its group. *)

Section Upsert.
Context {K C : Type} `{EqDecision K} (key : C -> K) (better : C -> C -> bool).
Implicit Types (cs : list C) (m : list (K * C)).

Fixpoint upsert_loop cs m : list (K * C) :=
  match cs with
  | [] => m
  | c :: rest =>
      let take := match map_get m (key c) with None => true | Some cur => better c cur end in
      upsert_loop rest (if take then map_set m (key c) c else m)
  end.

(** The distinct elements of a list, in the order they first occur. *)
Fixpoint firsts (l : list K) : list K :=
  match l with
  | [] => []
  | x :: l' => x :: filter (.≠ x) (firsts l')
  end.

Lemma firsts_elem l x : x ∈ firsts l <-> x ∈ l.
Proof.
  induction l as [|y l IH]; cbn; [done|]. rewrite !elem_of_cons, list_elem_of_filter, IH.
  destruct (decide (x = y)); tauto.
Qed.

Lemma firsts_NoDup l : NoDup (firsts l).
Proof.
  induction l as [|y l IH]; cbn; [constructor|]. apply NoDup_cons. split; [|by apply NoDup_filter].
  rewrite list_elem_of_filter. tauto.
Qed.

Lemma upsert_get cs m k :
  map_get (upsert_loop cs m) k = winner better (map_get m k) (filter (fun c => key c = k) cs).
Proof.
  revert m. induction cs as [|c cs IH]; intros m; [done|]. cbn [upsert_loop].
  rewrite IH, filter_cons. destruct (decide (key c = k)) as [<-|Hk]; cbn [winner].
  - destruct (map_get m (key c)) as [d|] eqn:E; [destruct (better c d)|];
      rewrite ?map_get_set, ?bool_decide_true by done; by rewrite ?E.
  - case_match; [|done]. by rewrite map_get_set, bool_decide_false.
Qed.

Lemma upsert_keys cs m :
  map_keys (upsert_loop cs m) = map_keys m ++ filter (.∉ map_keys m) (firsts (map key cs)).
Proof.
  revert m. induction cs as [|c cs IH]; intros m; cbn [upsert_loop map firsts].
  - cbn. by rewrite app_nil_r.
  - rewrite IH. clear IH.
    destruct (map_get m (key c)) as [d|] eqn:E.
    + assert (Hin : key c ∈ map_keys m).
      { destruct (decide (key c ∈ map_keys m)) as [H|H]; [done|]. apply map_get_none in H. congruence. }
      assert (Hk : map_keys (if better c d then map_set m (key c) c else m) = map_keys m).
      { destruct (better c d); [|done]. rewrite map_keys_set. unfold map_has. by rewrite E. }
      rewrite Hk, filter_cons, decide_False by (intros H; by apply H). f_equal.
      symmetry. apply list_filter_filter_l. intros y Hy ->. by apply Hy.
    + rewrite map_keys_set. unfold map_has. rewrite E. apply map_get_none in E.
      rewrite filter_cons, decide_True by done. rewrite <- app_assoc. cbn. do 2 f_equal.
      rewrite list_filter_filter. apply list_filter_iff. intros y.
      rewrite not_elem_of_app, list_elem_of_singleton. tauto.
Qed.

(** The loop from the empty map. *)
Lemma upsert_ok cs : map_ok (upsert_loop cs []).
Proof.
  unfold map_ok. rewrite upsert_keys. cbn. apply NoDup_filter, firsts_NoDup.
Qed.

Lemma upsert_keys_nil cs : map_keys (upsert_loop cs []) = firsts (map key cs).
Proof.
  rewrite upsert_keys. cbn. induction (firsts (map key cs)) as [|x l IH]; [done|].
  rewrite filter_cons, decide_True by apply not_elem_of_nil. by rewrite IH.
Qed.

(** Entries sit under their own key. *)
Lemma upsert_keyed cs k c :
  map_get (upsert_loop cs []) k = Some c -> key c = k /\ c ∈ cs.
Proof.
  rewrite upsert_get. cbn [map_get].
  assert (Hw : forall l cur, winner better cur l = Some c -> cur = Some c \/ c ∈ l).
  { induction l as [|x l IH]; intros cur; cbn; [by left|]. intros [H|H]%IH.
    - destruct cur as [d|]; [destruct (better x d)|]; simplify_eq; rewrite ?elem_of_cons; auto.
    - rewrite elem_of_cons. auto. }
  intros [H|[H Hc]%list_elem_of_filter]%Hw; done.
Qed.

Lemma upsert_values cs c :
  c ∈ map_values (upsert_loop cs []) <->
  map_get (upsert_loop cs []) (key c) = Some c.
Proof.
  split.
  - intros [[k c'] [-> Hin]]%list_elem_of_fmap. cbn.
    apply map_in_get in Hin; [|apply upsert_ok].
    by destruct (upsert_keyed _ _ _ Hin) as [-> _].
  - intros H%map_get_in. change c with (snd (key c, c)). by apply list_elem_of_fmap_2.
Qed.

Lemma upsert_value_keys cs :
  map key (map_values (upsert_loop cs [])) = firsts (map key cs).
Proof.
  rewrite <- upsert_keys_nil. unfold map_values, map_keys. rewrite map_map.
  apply map_ext_in. intros [k c] Hin%list_elem_of_In. cbn.
  apply map_in_get in Hin; [|apply upsert_ok]. by apply upsert_keyed in Hin as [-> _].
Qed.
End Upsert.

Lemma firsts_map {K L} `{EqDecision K, EqDecision L} (h : K -> L) `{!Inj (=) (=) h} (l : list K) :
  firsts (map h l) = map h (firsts l).
Proof.
  induction l as [|x l IH]; [done|]. cbn [firsts map]. rewrite IH. f_equal. clear IH.
  induction (firsts l) as [|y k IH]; [done|]. cbn [map]. rewrite !filter_cons, IH.
  destruct (decide (y = x)) as [->|Hy].
  - by rewrite !decide_False by auto.
  - rewrite !decide_True; [done|done|]. by intros ->%(inj h).
Qed.

Lemma firsts_filter {K} `{EqDecision K} (P : K -> Prop) `{!forall x, Decision (P x)} (l : list K) :
  filter P (firsts l) = firsts (filter P l).
Proof.
  induction l as [|x l IH]; [done|]. cbn [firsts]. rewrite !filter_cons.
  assert (Hc : filter P (filter (.≠ x) (firsts l)) = filter (.≠ x) (firsts (filter P l))).
  { rewrite <- IH, !list_filter_filter. apply list_filter_iff. tauto. }
  destruct (decide (P x)) as [Hx|Hx].
  - cbn [firsts]. by rewrite Hc.
  - rewrite <- IH. apply list_filter_filter_l. by intros y Hy ->.
Qed.

(** Dropping repeats before or after a projection is the same. *)
Lemma firsts_map_firsts {K L} `{EqDecision K, EqDecision L} (h : K -> L) (l : list K) :
  firsts (map h (firsts l)) = firsts (map h l).
Proof.
  induction l as [|x l IH]; [done|]. cbn [firsts map]. f_equal. rewrite <- IH. clear IH.
  rewrite !(firsts_filter (.≠ h x)). f_equal.
  induction (firsts l) as [|y k IH]; [done|]. rewrite filter_cons. cbn [map].
  destruct (decide (y = x)) as [->|Hy].
  - rewrite decide_False, filter_cons, decide_False by auto. apply IH.
  - rewrite decide_True by done. cbn [map]. rewrite !filter_cons, IH. done.
Qed.

Lemma head_filter {A} (P : A -> Prop) `{!forall x, Decision (P x)} (l : list A) (x : A) :
  head (filter P l) = Some x -> P x.
Proof.
  induction l as [|y l IH]; [done|]. rewrite filter_cons. destruct (decide (P y)); [|done].
  by intros [= <-].
Qed.
