(* ===== verification/Json.v ===== *)
(** * JSON values and text

    JSON documents as values, the property accesses the code makes on them
    (a [null] throws, a missing property is [undefined]), and the text
    functions of the language as the operations of a class: the theorems hold
    for every [JSON.parse], [JSON.stringify] and [TextDecoder]. *)

From Stdlib Require Import QArith.
From S2P Require Import Prelude Bytes JsString JsMap.
#[local] Open Scope Z_scope.

(** A JavaScript number. *)
Inductive Number := Finite (q : Q) | NaN | PosInfinity | NegInfinity.

Inductive Json :=
  | JNull
  | JBool (b : bool)
  | JNum (n : Number)
  | JStr (s : jsstr)
  | JArr (l : list Json)
  | JObj (fields : list (jsstr * Json)).

Class JsText := {
  decodeText : bytes -> jsstr;
  JSON_parse : jsstr -> result Json;
  JSON_stringify : Json -> jsstr;
  Number_toString : Number -> jsstr;
}.

Definition jint (z : Z) : Json := JNum (Finite (inject_Z z)).

Definition null_access : string := "TypeError: null is not an object".

(** [j.k]: [null] throws, a value that is not an object has none of the
    properties the code asks for. *)
Definition prop (j : Json) (k : string) : result (option Json) :=
  match j with
  | JNull => Throw null_access
  | JObj fields => Ok (map_get fields (js k))
  | _ => Ok None
  end.

(** [isRecord(value)] and the properties of a record. *)
Definition as_record (j : Json) : option (list (jsstr * Json)) :=
  match j with JObj fields => Some fields | _ => None end.

Definition field (fields : list (jsstr * Json)) (k : string) : option Json := map_get fields (js k).

(** [fields.k = v] *)
Definition set_prop (fields : list (jsstr * Json)) (k : string) (v : Json) : list (jsstr * Json) :=
  map_set fields (js k) v.

(** [delete fields.k] *)
Definition delete_prop (fields : list (jsstr * Json)) (k : string) : list (jsstr * Json) :=
  map_delete fields (js k).

(** [Object.assign(fields, j)]: the properties of an object in order, the
    indices of a string or an array; nothing for the other primitives. *)
Fixpoint assign_fields (fields extra : list (jsstr * Json)) : list (jsstr * Json) :=
  match extra with
  | [] => fields
  | (k, v) :: rest => assign_fields (map_set fields k v) rest
  end.

(** [typeof j === "string"] and the value. *)
Definition as_string (j : option Json) : option jsstr :=
  match j with Some (JStr s) => Some s | _ => None end.

Definition is_string (j : option Json) : bool :=
  match j with Some (JStr _) => true | _ => false end.
Definition is_boolean (j : option Json) : bool :=
  match j with Some (JBool _) => true | _ => false end.
Definition is_finite_number (j : option Json) : bool :=
  match j with Some (JNum (Finite _)) => true | _ => false end.

(** [Boolean(j)]: what an [if] tests. *)
Definition truthy (j : option Json) : bool :=
  match j with
  | None | Some JNull => false
  | Some (JBool b) => b
  | Some (JNum (Finite q)) => negb (Qeq_bool q 0)
  | Some (JNum NaN) => false
  | Some (JNum _) => true
  | Some (JStr s) => negb (bool_decide (s = []))
  | Some (JArr _) | Some (JObj _) => true
  end.

(** [j === s] for a string [s] *)
Definition is_text (j : option Json) (s : jsstr) : bool := bool_decide (as_string j = Some s).

(** [j === n] for an integer [n] *)
Definition is_number (j : option Json) (n : Z) : bool :=
  match j with Some (JNum (Finite q)) => Qeq_bool q (inject_Z n) | _ => false end.

(** [j1 === j2]: two parsed objects are never the same object. *)
Definition strict_equal (j1 j2 : option Json) : bool :=
  match j1, j2 with
  | None, None | Some JNull, Some JNull => true
  | Some (JBool a), Some (JBool b) => Bool.eqb a b
  | Some (JNum (Finite a)), Some (JNum (Finite b)) => Qeq_bool a b
  | Some (JNum PosInfinity), Some (JNum PosInfinity) => true
  | Some (JNum NegInfinity), Some (JNum NegInfinity) => true
  | Some (JStr a), Some (JStr b) => bool_decide (a = b)
  | _, _ => false
  end.

(** [Number.isSafeInteger(j)] and [BigInt(j)] *)
Definition safe_integer (j : option Json) : option Z :=
  match j with
  | Some (JNum (Finite q)) =>
      let z := Qnum q / Zpos (Qden q) in
      if Qeq_bool q (inject_Z z) && (Z.abs z <=? MAX_SAFE_INTEGER) then Some z else None
  | _ => None
  end.

(** A field that is only tested for truth, where a string is needed. *)
Definition text_of (j : option Json) : jsstr := default [] (as_string j).

Section Stringify.
Context `{JsText}.

(** [String(j)]; an array joins its elements with commas, [null] being the
    empty string inside it. *)
Fixpoint String_ (j : Json) : jsstr :=
  match j with
  | JNull => js "null"
  | JBool b => js (if b then "true" else "false")
  | JNum n => Number_toString n
  | JStr s => s
  | JObj _ => js "[object Object]"
  | JArr l =>
      (fix join (l : list Json) : jsstr :=
         match l with
         | [] => []
         | [x] => match x with JNull => [] | _ => String_ x end
         | x :: rest => match x with JNull => [] | _ => String_ x end ++ js "," ++ join rest
         end) l
  end.

(** [String(meta.k ?? "")] *)
Definition string_or_empty (v : option Json) : jsstr :=
  match v with None | Some JNull => [] | Some j => String_ j end.

(** [`${j}`], [undefined] included *)
Definition template (j : option Json) : jsstr :=
  match j with Some j => String_ j | None => js "undefined" end.
End Stringify.
