(* ===== verification/JsonText.v ===== *)
(** * A concrete JSON text layer, for the witnesses

    An instance of [JsText] that the witnesses can evaluate: ASCII text and
    JSON whose numbers are integers. The theorems do not depend on it. *)

From Stdlib Require Import QArith.
From stdpp Require Import pretty.
From S2P Require Import Prelude Bytes JsString JsMap Json.
#[local] Open Scope Z_scope.

Module AsciiJson.
Definition number (n : Number) : jsstr :=
  match n with
  | Finite q => js (pretty (Qnum q / Zpos (Qden q)))
  | NaN => js "NaN"
  | PosInfinity => js "Infinity"
  | NegInfinity => js "-Infinity"
  end.

Definition quote (s : jsstr) : jsstr :=
  [34] ++ concat (map (fun c => if (c =? 34) || (c =? 92) then [92; c] else [c]) s) ++ [34].

Fixpoint stringify (j : Json) : jsstr :=
  match j with
  | JNull => js "null"
  | JBool b => js (if b then "true" else "false")
  | JNum n => match n with Finite _ => number n | _ => js "null" end
  | JStr s => quote s
  | JArr l =>
      js "[" ++
      (fix go (l : list Json) : jsstr :=
         match l with [] => [] | [x] => stringify x | x :: r => stringify x ++ js "," ++ go r end) l
      ++ js "]"
  | JObj fs =>
      js "{" ++
      (fix go (fs : list (jsstr * Json)) : jsstr :=
         match fs with
         | [] => []
         | [(k, v)] => quote k ++ js ":" ++ stringify v
         | (k, v) :: r => quote k ++ js ":" ++ stringify v ++ js "," ++ go r
         end) fs
      ++ js "}"
  end.

Definition syntax {A} : result A := Throw "SyntaxError".

Fixpoint skip_ws (s : jsstr) : jsstr :=
  match s with
  | c :: s' => if (c =? 32) || (c =? 10) || (c =? 13) || (c =? 9) then skip_ws s' else s
  | [] => []
  end.

Fixpoint digits (acc : Z) (s : jsstr) : Z * jsstr :=
  match s with
  | c :: s' => if (48 <=? c) && (c <=? 57) then digits (10 * acc + (c - 48)) s' else (acc, s)
  | [] => (acc, [])
  end.

(** The rest of a string literal, after the opening quote. *)
Fixpoint string_body (s : jsstr) : result (jsstr * jsstr) :=
  match s with
  | [] => syntax
  | c :: s' =>
      if c =? 34 then Ok ([], s')
      else if c =? 92 then
        match s' with
        | d :: s'' => let* r := string_body s'' in Ok (d :: fst r, snd r)
        | [] => syntax
        end
      else let* r := string_body s' in Ok (c :: fst r, snd r)
  end.

(** Expects a character after white space. *)
Definition expect (c : Z) (s : jsstr) : result jsstr :=
  match skip_ws s with
  | d :: s' => if d =? c then Ok s' else syntax
  | [] => syntax
  end.

Definition next_is (c : Z) (s : jsstr) : bool :=
  match skip_ws s with d :: _ => d =? c | [] => false end.

Fixpoint value (fuel : nat) (s : jsstr) : result (Json * jsstr) :=
  match fuel with
  | O => syntax
  | S fuel =>
      match skip_ws s with
      | [] => syntax
      | c :: s' =>
          if c =? 110 then Ok (JNull, drop 3 s')
          else if c =? 116 then Ok (JBool true, drop 3 s')
          else if c =? 102 then Ok (JBool false, drop 4 s')
          else if c =? 34 then let* r := string_body s' in Ok (JStr (fst r), snd r)
          else if c =? 45 then let r := digits 0 s' in Ok (jint (- fst r), snd r)
          else if (48 <=? c) && (c <=? 57) then let r := digits 0 (c :: s') in Ok (jint (fst r), snd r)
          else if c =? 91 then
            if next_is 93 s' then let* s' := expect 93 s' in Ok (JArr [], s')
            else let* r := elements fuel s' in Ok (JArr (fst r), snd r)
          else if c =? 123 then
            if next_is 125 s' then let* s' := expect 125 s' in Ok (JObj [], s')
            else let* r := members fuel s' in Ok (JObj (fst r), snd r)
          else syntax
      end
  end
with elements (fuel : nat) (s : jsstr) : result (list Json * jsstr) :=
  match fuel with
  | O => syntax
  | S fuel =>
      let* v := value fuel s in
      if next_is 44 (snd v) then
        let* s := expect 44 (snd v) in
        let* r := elements fuel s in
        Ok (fst v :: fst r, snd r)
      else let* s := expect 93 (snd v) in Ok ([fst v], s)
  end
with members (fuel : nat) (s : jsstr) : result (list (jsstr * Json) * jsstr) :=
  match fuel with
  | O => syntax
  | S fuel =>
      let* s := expect 34 s in
      let* k := string_body s in
      let* s := expect 58 (snd k) in
      let* v := value fuel s in
      if next_is 44 (snd v) then
        let* s := expect 44 (snd v) in
        let* r := members fuel s in
        Ok ((fst k, fst v) :: fst r, snd r)
      else let* s := expect 125 (snd v) in Ok ([(fst k, fst v)], s)
  end.

Definition parse (s : jsstr) : result Json :=
  let* r := value (S (length s)) s in
  match skip_ws (snd r) with
  | [] => Ok (fst r)
  | _ => syntax
  end.
End AsciiJson.

#[export] Instance ascii_text : JsText := {
  decodeText p := p;
  JSON_parse := AsciiJson.parse;
  JSON_stringify := AsciiJson.stringify;
  Number_toString := AsciiJson.number;
}.

Example parse_stringify :
  let j := JObj [(js "phase", JStr (js "end")); (js "seq", jint 12); (js "l", JArr [JNull; JBool true; jint (-5)])] in
  JSON_parse (JSON_stringify j) = Ok j.
Proof. by vm_compute. Qed.
