(* ===== verification/Proto.v ===== *)
(** * The wire protocol ([src/desktop/frontend/src/lib/proto.ts])

    Frames are [version(1) || type(1) || payload_len(4 BE) || session id(16)
    || payload]. [encodeFrame] fills a zeroed buffer with the writes of the
    source, [decodeFrame] makes its checks in the order of the source. *)

From S2P Require Import Prelude Bytes JsString.

Definition VERSION : Z := 1.
Definition HEADER_LEN : Z := 6.
Definition SID_LEN : Z := 16.

Module TYPE.
Definition OPEN : Z := 0x01.
Definition IN : Z := 0x02.
Definition OUT : Z := 0x03.
Definition RESIZE : Z := 0x04.
Definition META : Z := 0x05.
Definition CLOSE : Z := 0x06.
Definition ATTACH : Z := 0x10.
Definition LIST : Z := 0x11.
Definition LIST_RESP : Z := 0x12.
Definition REPLAY_PROGRESS : Z := 0x13.
Definition PREFS_CHANGED : Z := 0x14.
Definition PING : Z := 0x20.
Definition PONG : Z := 0x21.
Definition PASTE_IMAGE : Z := 0x33.
Definition CLAIM_DRIVER : Z := 0x34.
Definition PASTE_FILE : Z := 0x37.
Definition FS_REQUEST : Z := 0x38.
Definition FS_RESPONSE : Z := 0x39.
Definition FS_EVENT : Z := 0x3a.
Definition SESSION_CREATE : Z := 0x3b.
Definition SESSION_CREATED : Z := 0x3c.
Definition SERVICE_OPEN : Z := 0x3d.
Definition SERVICE_OPENED : Z := 0x3e.
Definition SERVICE_CLOSE : Z := 0x3f.
End TYPE.

Record Frame := mkFrame {
  f_type : Z;
  f_sid : bytes;
  f_payload : bytes;
}.

#[export] Instance Frame_eq_dec : EqDecision Frame.
Proof. solve_decision. Defined.

Definition NIL_SID : bytes := zeros SID_LEN.

(** The loop of [uuidParse]: [out[i] = parseInt(hex.substr(i * 2, 2), 16)],
    where a [NaN] is stored as 0. *)
Fixpoint uuidParse_loop (n : nat) (i : Z) (hex : jsstr) (out : bytes) : bytes :=
  match n with
  | O => out
  | S n' =>
      let v := default 0 (parseInt16 (slice hex (i * 2) (i * 2 + 2))) in
      uuidParse_loop n' (i + 1) hex (set_idx out i v)
  end.

Definition uuidParse (s : jsstr) : result bytes :=
  let hex := remove_char 45 s in
  throw_if (negb (zlen hex =? 32)) "bad uuid" ;;;
  Ok (uuidParse_loop (Z.to_nat SID_LEN) 0 hex (zeros SID_LEN)).

Definition encodeFrame (type : Z) (sid : bytes) (payload : option bytes) : result bytes :=
  let p := default (zeros 0) payload in
  let buf := zeros (HEADER_LEN + SID_LEN + zlen p) in
  let buf := set_idx buf 0 VERSION in
  let buf := set_idx buf 1 type in
  let* buf := setUint 4 buf 2 (zlen p) in
  let* buf := set_range buf sid HEADER_LEN in
  set_range buf p (HEADER_LEN + SID_LEN).

Definition decodeFrame (arr : bytes) : result Frame :=
  throw_if (zlen arr <? HEADER_LEN + SID_LEN) "short frame" ;;;
  throw_if (negb (bool_decide (idx arr 0 = Some VERSION))) "bad version" ;;;
  let* plen := getUint 4 arr 2 in
  throw_if (negb (HEADER_LEN + SID_LEN + plen =? zlen arr)) "bad len" ;;;
  Ok {| f_type := default 0 (idx arr 1);
        f_sid := slice arr HEADER_LEN (HEADER_LEN + SID_LEN);
        f_payload := slice_from arr (HEADER_LEN + SID_LEN) |}.

(** [hi * 0x100000000 + lo] is a sum of two numbers, rounded to a double. *)
Definition decodeOutPayload (p : bytes) : result (Z * bytes) :=
  if zlen p <? 8 then Ok (0, [])
  else
    let* hi := getUint 4 p 0 in
    let* lo := getUint 4 p 4 in
    Ok (js_round (hi * 0x100000000 + lo), slice_from p 8).

Definition encodeResize (cols rows : Z) : result bytes :=
  let b := zeros 4 in
  let* b := setUint 2 b 0 cols in
  setUint 2 b 2 rows.

Definition encodeText (s : jsstr) : bytes := utf8_encode s.

(** ** Well-formed frames *)

Definition frame_ok (f : Frame) : Prop :=
  is_byte (f_type f) /\ bytes_ok (f_sid f) /\ zlen (f_sid f) = SID_LEN /\
  bytes_ok (f_payload f) /\ zlen (f_payload f) < 2 ^ 32.

(** ** Lemmas *)

(** The layout that [encodeFrame] produces for a 16-byte session id. *)
Definition frame_bytes (type : Z) (sid p : bytes) : bytes :=
  [VERSION; type mod 256] ++ be_bytes 4 (zlen p) ++ sid ++ p.

Lemma encodeFrame_layout type sid p :
  zlen sid = SID_LEN -> encodeFrame type sid (Some p) = Ok (frame_bytes type sid p).
Proof.
  unfold encodeFrame, HEADER_LEN, SID_LEN. intros Hs. cbn [from_option]. unfold id. cbv zeta. pose proof (zlen_nonneg p).
  replace (6 + 16 + zlen p) with (1 + (1 + (4 + (16 + zlen p)))) by lia.
  rewrite zeros_cons, (zeros_cons (4 + _)) by lia.
  change (setUint 4 _ 2 (zlen p)) with
    (setUint 4 ([VERSION; type mod 256] ++ zeros (4 + (16 + zlen p))) 2 (zlen p)).
  rewrite (setUint_zeros 4 [VERSION; type mod 256]) by (cbn; lia || done). cbn [rbind].
  rewrite (app_assoc [VERSION; type mod 256]), set_range_zeros.
  2: { rewrite zlen_app, zlen_be_bytes. done. }
  2: { lia. }
  cbn [rbind]. rewrite app_assoc, set_range_zeros.
  2: { rewrite !zlen_app, zlen_be_bytes, Hs. done. }
  2: { lia. }
  unfold frame_bytes. rewrite Hs.
  replace (4 + (16 + zlen p) - Z.of_nat 4 - 16 - zlen p) with 0 by lia.
  cbn [zeros Z.to_nat replicate]. by rewrite app_nil_r, <- !app_assoc.
Qed.

Lemma zlen_frame_bytes type sid p :
  zlen (frame_bytes type sid p) = 6 + zlen sid + zlen p.
Proof. unfold frame_bytes. autorewrite with zlen. lia. Qed.

Lemma decodeFrame_layout type sid p :
  is_byte type -> zlen sid = SID_LEN -> zlen p < 2 ^ 32 ->
  decodeFrame (frame_bytes type sid p) = Ok (mkFrame type sid p).
Proof.
  unfold is_byte. intros Ht Hs Hp. pose proof (zlen_nonneg p).
  pose proof (zlen_frame_bytes type sid p) as Hl. unfold decodeFrame, HEADER_LEN, SID_LEN in *.
  split_guard; [lia|]. change (idx _ 0) with (Some VERSION).
  rewrite bool_decide_eq_true_2 by done. cbn [negb].
  unfold frame_bytes at 1.
  rewrite (getUint_app 4 [VERSION; type mod 256]) by (done || cbn; lia). cbn [rbind].
  split_guard; [lia|]. change (idx _ 1) with (Some (type mod 256)). cbn [from_option]; unfold id.
  rewrite Z.mod_small by lia. f_equal. f_equal.
  - unfold frame_bytes. rewrite (app_assoc _ (be_bytes 4 _)).
    rewrite slice_app; autorewrite with zlen; (done || lia).
  - unfold frame_bytes. rewrite (app_assoc _ (be_bytes 4 _)), app_assoc.
    rewrite slice_from_app; autorewrite with zlen; (done || lia).
Qed.

(** Every byte string that decodes is the layout of its frame. *)
Lemma decodeFrame_inv arr f :
  bytes_ok arr -> decodeFrame arr = Ok f ->
  frame_ok f /\ arr = frame_bytes (f_type f) (f_sid f) (f_payload f).
Proof.
  unfold decodeFrame, frame_ok, HEADER_LEN, SID_LEN. intros Hb H. inv_ok.
  apply getUint_inv in E as (_ & Hv & Hbe); [|done|lia].
  change (6 + 16) with 22 in *. change (2 + Z.of_nat 4) with 6 in *.
  cbn [f_type f_sid f_payload].
  destruct arr as [|v [|t arr]]; try (exfalso; clear -Hg; zlen_lia).
  change (idx _ 0) with (Some v) in Hg0. change (idx _ 1) with (Some t). injection Hg0 as ->.
  cbn [from_option] in *. unfold id. pose proof Hb as Hb'. unfold bytes_ok in Hb'.
  apply Forall_cons in Hb' as [_ Hb']. apply Forall_cons in Hb' as [Ht _].
  assert (Hl : zlen (slice_from (VERSION :: t :: arr) 22) = a).
  { rewrite zlen_slice_from; lia. }
  split.
  - split_and!; [done| | | |].
    + by apply Forall_slice.
    + rewrite zlen_slice; lia.
    + by apply Forall_slice_from.
    + lia.
  - unfold frame_bytes. rewrite Hl, Hbe. unfold is_byte in Ht. rewrite Z.mod_small by lia.
    rewrite <- slice_to_end by lia.
    rewrite (app_assoc (slice _ _ _)), (slice_cut _ 2 6 22) by lia. rewrite slice_cut by lia.
    rewrite slice_to_end by lia. done.
Qed.

(** ** Properties *)

(** C39. The frame codec is a bijection between well-formed frames and the
    byte strings the decoder accepts: [decodeFrame] accepts exactly the output
    of [encodeFrame] and gives back the frame that was encoded. *)
Theorem frame_codec_correct (f : Frame) (arr : bytes) (Harr : bytes_ok arr) :
  (frame_ok f /\ encodeFrame (f_type f) (f_sid f) (Some (f_payload f)) = Ok arr)
  <-> decodeFrame arr = Ok f.
Proof.
  split.
  - intros [(Ht & _ & Hs & _ & Hp) He]. rewrite encodeFrame_layout in He by done. inv_ok.
    rewrite decodeFrame_layout by done. by destruct f.
  - intros Hd. apply decodeFrame_inv in Hd as [Hf ->]; [|done]. split; [done|].
    apply encodeFrame_layout. apply Hf.
Qed.

Lemma frame_codec_correct_witness :
  let f := mkFrame TYPE.IN (zeros 16) [104; 105] in
  let arr := [1; 2; 0; 0; 0; 2] ++ zeros 16 ++ [104; 105] in
  bytes_ok arr /\ (frame_ok f /\ encodeFrame TYPE.IN (zeros 16) (Some [104; 105]) = Ok arr) /\
  decodeFrame arr = Ok f.
Proof.
  cbv zeta. split; [by vm_compute; repeat constructor|].
  assert (H : frame_ok (mkFrame TYPE.IN (zeros 16) [104; 105]) /\
    encodeFrame TYPE.IN (zeros 16) (Some [104; 105])
    = Ok ([1; 2; 0; 0; 0; 2] ++ zeros 16 ++ [104; 105])).
  { split; [|by vm_compute]. by vm_compute; repeat constructor. }
  split; [exact H|].
  apply (frame_codec_correct (mkFrame TYPE.IN (zeros 16) [104; 105])); [|exact H].
  by vm_compute; repeat constructor.
Defined.

(** An OUT payload of at least eight bytes carries a 64-bit sequence
    number: it is read exactly below [2 ^ 53] and rounded to the nearest
    double above; a shorter payload yields sequence 0 and no data. No read
    leaves the payload. *)
Theorem decodeOutPayload_spec (p : bytes) (Hp : bytes_ok p) :
  match decodeOutPayload p with
  | Throw _ => False
  | Ok (seq, data) =>
      if zlen p <? 8 then seq = 0 /\ data = []
      else data = slice_from p 8 /\ seq = js_round (be_val (slice p 0 8)) /\
           (be_val (slice p 0 8) < 2 ^ 53 ->
            0 <= seq < 2 ^ 53 /\ p = be_bytes 8 seq ++ data)
  end.
Proof.
  unfold decodeOutPayload. split_guard; [done|].
  rewrite !getUint_in_range by lia. cbn [rbind]. change (0 + Z.of_nat 4) with 4.
  change (4 + Z.of_nat 4) with 8. split; [done|].
  assert (Ha : be_val (slice p 0 4) * 0x100000000 + be_val (slice p 4 8) = be_val (slice p 0 8)).
  { destruct p as [|b0 [|b1 [|b2 [|b3 [|b4 [|b5 [|b6 [|b7 p]]]]]]]]; try (exfalso; clear -Hg; zlen_lia).
    change (slice _ 0 4) with [b0; b1; b2; b3]. change (slice _ 4 8) with [b4; b5; b6; b7].
    change (slice _ 0 8) with [b0; b1; b2; b3; b4; b5; b6; b7]. cbn [be_val].
    unfold zlen. cbn [length]. lia. }
  rewrite Ha. split; [done|]. intros Hlt. rewrite js_round_small by done.
  assert (Hq : bytes_ok (slice p 0 8)) by (by apply Forall_slice).
  assert (Hz : zlen (slice p 0 8) = 8) by (rewrite zlen_slice; lia).
  pose proof (be_val_bound _ Hq). split; [lia|].
  rewrite be_bytes_be_val_len; [|done|by unfold zlen in Hz; lia].
  by rewrite slice_split.
Qed.

Lemma decodeOutPayload_spec_witness :
  bytes_ok [0; 0; 0; 1; 0; 0; 0; 2; 65] /\
  decodeOutPayload [0; 0; 0; 1; 0; 0; 0; 2; 65] = Ok (4294967298, [65]) /\
  (0 <= 4294967298 < 2 ^ 53).
Proof.
  assert (H : bytes_ok [0; 0; 0; 1; 0; 0; 0; 2; 65]) by (by vm_compute; repeat constructor).
  split; [exact H|]. split; [by vm_compute|].
  pose proof (decodeOutPayload_spec _ H) as S. apply S. by vm_compute.
Defined.
