(* ===== verification/FsSegments.v ===== *)
(** * Segmented file-system payloads ([src/desktop/frontend/src/lib/fsSegments.ts])

    [payload := segment_count(1) || segment*], [segment := length(4 BE) ||
    bytes]. The encoder sizes the buffer in a first loop and fills it in a
    second; the decoder walks the declared lengths. *)

From stdpp Require Import pretty.
From S2P Require Import Prelude Bytes.

Definition MAX_SEGMENT : Z := 16 * 1024 * 1024.

(** First loop of [encodeSegments]: the size of the output. *)
Fixpoint segments_total (segments : list bytes) (total : Z) : result Z :=
  match segments with
  | [] => Ok total
  | s :: rest =>
      throw_if (MAX_SEGMENT <? zlen s) "fs segments: segment too large" ;;;
      segments_total rest (total + (4 + zlen s))
  end.

(** Second loop: the writes. *)
Fixpoint segments_write (segments : list bytes) (out : bytes) (offset : Z) : result bytes :=
  match segments with
  | [] => Ok out
  | s :: rest =>
      let* out := setUint 4 out offset (zlen s) in
      let offset := offset + 4 in
      let* out := set_range out s offset in
      segments_write rest out (offset + zlen s)
  end.

Definition encodeSegments (segments : list bytes) : result bytes :=
  throw_if ((zlen segments =? 0) || (255 <? zlen segments))
    ("fs segments: bad segment count " +:+ pretty (zlen segments)) ;;;
  let* total := segments_total segments 1 in
  let out := set_idx (zeros total) 0 (zlen segments) in
  segments_write segments out 1.

(** The loop of [decodeSegments] over the remaining [n] segments, and the
    check after it; [Ok None] is the early [return null]. *)
Fixpoint segments_read (n : nat) (payload : bytes) (offset : Z) (segments : list bytes)
    : result (option (list bytes)) :=
  match n with
  | O => if negb (offset =? zlen payload) then Ok None else Ok (Some segments)
  | S n' =>
      if zlen payload <? offset + 4 then Ok None
      else
        let* len := getUint 4 payload offset in
        if MAX_SEGMENT <? len then Ok None
        else
          let offset := offset + 4 in
          if zlen payload <? offset + len then Ok None
          else segments_read n' payload (offset + len)
                 (segments ++ [slice payload offset (offset + len)])
  end.

Definition decodeSegments (payload : bytes) : result (option (list bytes)) :=
  if zlen payload <? 1 then Ok None
  else
    let count := default 0 (idx payload 0) in
    if count =? 0 then Ok None
    else segments_read (Z.to_nat count) payload 1 [].

(** ** Lemmas *)

Definition seg_bytes (s : bytes) : bytes := be_bytes 4 (zlen s) ++ s.

(** What the encoder writes after the count byte. *)
Definition segs_bytes (segments : list bytes) : bytes := concat (map seg_bytes segments).

Definition segs_ok (segments : list bytes) : Prop :=
  Forall (fun s => bytes_ok s /\ zlen s <= MAX_SEGMENT) segments.

Lemma zlen_seg_bytes s : zlen (seg_bytes s) = 4 + zlen s.
Proof. unfold seg_bytes. by autorewrite with zlen. Qed.

Lemma segs_bytes_cons s l : segs_bytes (s :: l) = seg_bytes s ++ segs_bytes l.
Proof. done. Qed.

Lemma segs_bytes_ok l : Forall bytes_ok l -> bytes_ok (segs_bytes l).
Proof.
  induction 1; [constructor|]. rewrite segs_bytes_cons. apply bytes_ok_app. split; [|done].
  apply bytes_ok_app. auto with atterm.
Qed.

Lemma segments_total_ok l t :
  Forall (fun s => zlen s <= MAX_SEGMENT) l -> segments_total l t = Ok (t + zlen (segs_bytes l)).
Proof.
  intros H. revert t. induction H as [|s l Hs _ IH]; intros t; cbn [segments_total].
  - f_equal. rewrite (eq_refl : zlen (segs_bytes []) = 0). lia.
  - split_guard; [lia|]. rewrite IH, segs_bytes_cons, zlen_app, zlen_seg_bytes. f_equal. lia.
Qed.

Lemma segments_total_inv l t n :
  segments_total l t = Ok n -> Forall (fun s => zlen s <= MAX_SEGMENT) l.
Proof.
  revert t. induction l as [|s l IH]; intros t H; [constructor|].
  cbn [segments_total] in H. inv_ok. constructor; [lia|]. by eapply IH.
Qed.

Lemma segments_write_layout l a off :
  off = zlen a ->
  segments_write l (a ++ zeros (zlen (segs_bytes l))) off = Ok (a ++ segs_bytes l).
Proof.
  revert a off. induction l as [|s l IH]; intros a off ->; cbn [segments_write]; [done|].
  rewrite segs_bytes_cons. autorewrite with zlen. rewrite zlen_seg_bytes.
  pose proof (zlen_nonneg s). pose proof (zlen_nonneg (segs_bytes l)).
  rewrite setUint_zeros by (done || lia). cbn [rbind]. rewrite app_assoc.
  rewrite set_range_zeros by (rewrite ?zlen_app, ?zlen_be_bytes; lia). cbn [rbind].
  replace (4 + zlen s + zlen (segs_bytes l) - Z.of_nat 4 - zlen s) with (zlen (segs_bytes l)) by lia.
  rewrite app_assoc, IH by (autorewrite with zlen; lia).
  unfold seg_bytes. by rewrite <- !app_assoc.
Qed.

Lemma encodeSegments_layout l :
  0 < zlen l <= 255 -> Forall (fun s => zlen s <= MAX_SEGMENT) l ->
  encodeSegments l = Ok (zlen l :: segs_bytes l).
Proof.
  intros Hl Hs. unfold encodeSegments.
  destruct (_ || _)%bool eqn:E; [apply orb_prop in E; destruct E; guards; lia|].
  rewrite segments_total_ok by done. cbn [rbind].
  rewrite zeros_cons by apply zlen_nonneg.
  change (set_idx _ 0 _) with ([zlen l mod 256] ++ zeros (zlen (segs_bytes l))).
  rewrite Z.mod_small by lia. by apply (segments_write_layout l [zlen l]).
Qed.

Lemma encodeSegments_inv l b :
  encodeSegments l = Ok b ->
  0 < zlen l <= 255 /\ Forall (fun s => zlen s <= MAX_SEGMENT) l /\ b = zlen l :: segs_bytes l.
Proof.
  intros H. assert (Hlen : 0 < zlen l <= 255 /\ Forall (fun s => zlen s <= MAX_SEGMENT) l).
  { unfold encodeSegments in H. inv_ok. pose proof (zlen_nonneg l).
    split; [lia|]. by eapply segments_total_inv. }
  destruct Hlen as [Hl Hs]. rewrite encodeSegments_layout in H by done. by inv_ok.
Qed.

(** Reading back the written segments, after any prefix. *)
Lemma segments_read_layout l a acc :
  segs_ok l ->
  segments_read (length l) (a ++ segs_bytes l) (zlen a) acc = Ok (Some (acc ++ l)).
Proof.
  intros H. revert a acc. induction H as [|s l [Hb Hs] _ IH]; intros a acc; cbn [length segments_read].
  - rewrite !app_nil_r. by rewrite Z.eqb_refl.
  - rewrite segs_bytes_cons. pose proof (zlen_nonneg s). pose proof (zlen_nonneg (segs_bytes l)).
    unfold MAX_SEGMENT in *.
    split_guard; [rewrite !zlen_app, zlen_seg_bytes in *; lia|].
    unfold seg_bytes at 1. rewrite <- app_assoc, getUint_app by (done || cbn; lia). cbn [rbind].
    split_guard; [lia|]. split_guard; [rewrite !zlen_app, zlen_seg_bytes in *; lia|].
    rewrite (app_assoc a (seg_bytes s)).
    replace (zlen a + 4 + zlen s) with (zlen (a ++ seg_bytes s))
      by (rewrite zlen_app, zlen_seg_bytes; lia).
    rewrite IH, <- app_assoc. cbn [app]. do 4 f_equal.
    unfold seg_bytes. rewrite <- !app_assoc, app_assoc.
    rewrite slice_app; autorewrite with zlen; (done || lia).
Qed.

(** What the decoder accepts is the layout of the segments it returns. *)
Lemma segments_read_inv n payload off acc segs :
  bytes_ok payload -> 0 <= off -> off <= zlen payload ->
  segments_read n payload off acc = Ok (Some segs) ->
  exists l, segs = acc ++ l /\ length l = n /\ segs_ok l /\ slice_from payload off = segs_bytes l.
Proof.
  intros Hp. revert off acc. induction n as [|n IH]; intros off acc Ho Hle H; cbn [segments_read] in H.
  - destruct (off =? zlen payload) eqn:E; cbn [negb] in H; [|discriminate]. guards. inv_ok.
    exists []. rewrite app_nil_r. split_and!; [done..|constructor|].
    unfold slice_from. apply drop_ge. unfold zlen in *. lia.
  - split_guard_in H; [discriminate|]. inv_ok.
    apply getUint_inv in E as (Hr & Hv & Hbe); [|done|lia].
    split_guard_in H; [discriminate|]. split_guard_in H; [discriminate|].
    apply IH in H as (l & -> & Hn & Hl & Hd); [|lia..].
    assert (Hz : zlen (slice payload (off + 4) (off + 4 + a)) = a) by (rewrite zlen_slice; lia).
    exists (slice payload (off + 4) (off + 4 + a) :: l). rewrite <- app_assoc. split_and!; [done| | |].
    + cbn. by f_equal.
    + constructor; [|done]. split; [by apply Forall_slice|]. rewrite Hz. lia.
    + rewrite segs_bytes_cons, <- Hd. unfold seg_bytes. rewrite Hz, Hbe.
      change (Z.of_nat 4) with 4. rewrite <- app_assoc.
      rewrite <- (slice_to_end payload (off + 4 + a)), slice_cut, slice_cut by lia.
      by rewrite slice_to_end.
Qed.

Lemma segments_read_total n payload off acc :
  bytes_ok payload -> 0 <= off -> is_ok (segments_read n payload off acc) = true.
Proof.
  intros Hp. revert off acc. induction n as [|n IH]; intros off acc Ho; cbn [segments_read].
  - by split_guard.
  - split_guard; [done|]. rewrite getUint_in_range by lia. cbn [rbind].
    split_guard; [done|]. split_guard; [done|]. apply IH.
    assert (Hb : bytes_ok (slice payload off (off + Z.of_nat 4))) by (by apply Forall_slice).
    apply be_val_bound in Hb. lia.
Qed.

Lemma decodeSegments_total payload : bytes_ok payload -> is_ok (decodeSegments payload) = true.
Proof.
  intros Hp. unfold decodeSegments. repeat (split_guard; [done|]).
  apply segments_read_total; [done|lia].
Qed.

Lemma decodeSegments_layout l :
  0 < zlen l <= 255 -> segs_ok l -> decodeSegments (zlen l :: segs_bytes l) = Ok (Some l).
Proof.
  intros Hl Hs. unfold decodeSegments. pose proof (zlen_nonneg (segs_bytes l)).
  split_guard; [zlen_lia|]. change (idx _ 0) with (Some (zlen l)). cbn [from_option]. unfold id.
  split_guard; [lia|]. rewrite zlen_nat. by apply (segments_read_layout l [zlen l] []).
Qed.

Lemma decodeSegments_inv payload segs :
  bytes_ok payload -> decodeSegments payload = Ok (Some segs) ->
  0 < zlen segs <= 255 /\ segs_ok segs /\ payload = zlen segs :: segs_bytes segs.
Proof.
  intros Hp. unfold decodeSegments. destruct payload as [|c p]; [done|].
  split_guard; [done|]. change (idx (c :: p) 0) with (Some c). cbn [from_option]. unfold id.
  split_guard; [done|]. intros H.
  assert (Hc : is_byte c) by (by apply Forall_cons in Hp as [? _]). unfold is_byte in Hc.
  apply segments_read_inv in H as (l & -> & Hn & Hl & Hd); [|done|lia|lia]. cbn [app].
  assert (Hz : zlen l = c) by (unfold zlen; lia).
  split_and!; [lia..|done|]. rewrite Hz, <- Hd. done.
Qed.

(** ** Properties *)

(** [decodeSegments] never throws, and it is the exact inverse of
    [encodeSegments]: a payload decodes to [segs] precisely when encoding
    [segs] succeeds with that payload. Truncated, padded, oversized or empty
    payloads are therefore all refused. *)
Theorem segments_codec_correct (payload : bytes) (Hp : bytes_ok payload) :
  is_ok (decodeSegments payload) = true /\
  forall segs, decodeSegments payload = Ok (Some segs) <->
    Forall bytes_ok segs /\ encodeSegments segs = Ok payload.
Proof.
  split; [by apply decodeSegments_total|]. intros segs. split.
  - intros H. apply decodeSegments_inv in H as (Hl & Hs & ->); [|done]. split.
    + eapply Forall_impl; [exact Hs|]. by intros ? [? _].
    + apply encodeSegments_layout; [done|]. eapply Forall_impl; [exact Hs|]. by intros ? [_ ?].
  - intros [Hb H]. apply encodeSegments_inv in H as (Hl & Hs & ->).
    apply decodeSegments_layout; [done|]. apply Forall_and. done.
Qed.

Lemma segments_codec_correct_witness :
  let p := [2; 0; 0; 0; 1; 7; 0; 0; 0; 0] in
  bytes_ok p /\ decodeSegments p = Ok (Some [[7]; []]) /\
  encodeSegments [[7]; []] = Ok p /\ decodeSegments (p ++ [0]) = Ok None.
Proof.
  cbv zeta. assert (H : bytes_ok [2; 0; 0; 0; 1; 7; 0; 0; 0; 0])
    by (by vm_compute; repeat constructor).
  split; [exact H|]. split; [by vm_compute|]. split; [|by vm_compute].
  apply (segments_codec_correct _ H). by vm_compute.
Defined.
