(* ===== verification/DirectCrypto.v ===== *)
(** * Key schedule and records of the direct route
      ([src/desktop/frontend/src/lib/directCrypto.ts])

    The canonical handshake transcript, the proofs and traffic keys derived
    from it, and the AEAD records with their explicit counter. The primitives
    come from the [@noble] packages and WebCrypto: they are the operations of
    the class [Crypto], and what the code relies on is in [CryptoLaws]. *)

From S2P Require Import Prelude Bytes JsString.

(** The third-party primitives. *)
Class Crypto := {
  utf8ToBytes : jsstr -> bytes;
  sha256 : bytes -> bytes;
  hkdf_sha256 : bytes -> bytes -> bytes -> Z -> bytes;  (* ikm salt info length *)
  hmac_sha256 : bytes -> bytes -> bytes;
  xchacha_encrypt : bytes -> bytes -> bytes -> bytes -> bytes;  (* key nonce aad plaintext *)
  xchacha_decrypt : bytes -> bytes -> bytes -> bytes -> result bytes;
}.

(** Their documented behaviour: output sizes, and that decryption under the
    same key, nonce and associated data undoes encryption. *)
Class CryptoLaws `{Crypto} := {
  utf8ToBytes_spec s : utf8ToBytes s = utf8_encode s;
  sha256_length p : zlen (sha256 p) = 32;
  sha256_bytes p : bytes_ok (sha256 p);
  hkdf_length ikm salt info n : 0 <= n -> zlen (hkdf_sha256 ikm salt info n) = n;
  hmac_length key p : zlen (hmac_sha256 key p) = 32;
  xchacha_length key nonce aad p : zlen (xchacha_encrypt key nonce aad p) = zlen p + 16;
  xchacha_bytes key nonce aad p : bytes_ok p -> bytes_ok (xchacha_encrypt key nonce aad p);
  xchacha_roundtrip key nonce aad p :
    xchacha_decrypt key nonce aad (xchacha_encrypt key nonce aad p) = Ok p;
}.

Definition RECORD_VERSION : Z := 1.
Definition RECORD_HEADER_SIZE : Z := 14.
Definition RECORD_TAG_SIZE : Z := 16.
Definition MAX_DIRECT_RECORD_PLAINTEXT : Z := 16 * 1024.

Module DirectPermission.
Definition View : Z := 1.
Definition Control : Z := 2.
Definition Full : Z := 3.
End DirectPermission.

Module DirectRole.
Definition Client : Z := 1.
Definition Host : Z := 2.
End DirectRole.

Module DirectRecordKind.
Definition Frame : Z := 1.
Definition Fragment : Z := 2.
Definition DirectReady : Z := 3.
Definition Ping : Z := 4.
Definition Pong : Z := 5.
Definition Close : Z := 6.
Definition ConfigInventory : Z := 7.
Definition ConfigBatch : Z := 8.
Definition ConfigAck : Z := 9.
Definition ConfigFragment : Z := 10.
Definition Signal : Z := 11.
Definition SignalFragment : Z := 12.
Definition Service : Z := 13.
Definition CatalogRequest : Z := 14.
Definition CatalogResponse : Z := 15.
End DirectRecordKind.

Record DirectTranscript := mkTranscript {
  attemptId : jsstr;
  ticket : bytes;
  sessionId : jsstr;
  userId : jsstr;
  hostId : jsstr;
  clientInstanceId : jsstr;
  permission : Z;
  expiresAtUnixMs : Z;
  clientPublicKey : bytes;
  hostPublicKey : bytes;
}.

Record DirectTrafficKeys := mkTrafficKeys {
  clientToHostKey : bytes;
  hostToClientKey : bytes;
  clientToHostNoncePrefix : bytes;
  hostToClientNoncePrefix : bytes;
}.

(** ** Byte helpers *)

Fixpoint concat_write (parts : list bytes) (out : bytes) (offset : Z) : result bytes :=
  match parts with
  | [] => Ok out
  | part :: rest =>
      let* out := set_range out part offset in
      concat_write rest out (offset + zlen part)
  end.

Definition concatBytes (parts : list bytes) : result bytes :=
  let length := fold_left (fun sum part => sum + zlen part) parts 0 in
  concat_write parts (zeros length) 0.

(** The pattern [8-4-4-4-12] of hexadecimal digits: [true] is a digit,
    [false] a dash. *)
Definition uuid_pattern : list bool :=
  replicate 8 true ++ [false] ++ replicate 4 true ++ [false] ++ replicate 4 true ++ [false]
  ++ replicate 4 true ++ [false] ++ replicate 12 true.

Definition is_hex (c : Z) : bool := match hex_digit c with Some _ => true | None => false end.

Fixpoint match_pattern (pat : list bool) (s : jsstr) : bool :=
  match pat, s with
  | [], [] => true
  | b :: pat', c :: s' => (if b then is_hex c else c =? 45) && match_pattern pat' s'
  | _, _ => false
  end.

(** [out[i] = Number.parseInt(compact.slice(i * 2, i * 2 + 2), 16)] *)
Fixpoint hex_fill (n : nat) (i : Z) (compact : jsstr) (out : bytes) : bytes :=
  match n with
  | O => out
  | S n' =>
      hex_fill n' (i + 1) compact
        (set_idx out i (default 0 (parseInt16 (slice compact (i * 2) (i * 2 + 2)))))
  end.

Definition uuidBytes (value : jsstr) : result bytes :=
  throw_if (negb (match_pattern uuid_pattern value)) "invalid UUID" ;;;
  let compact := remove_char 45 value in
  Ok (hex_fill 16 0 compact (zeros 16)).

Definition sizedField (value : bytes) : result bytes :=
  throw_if (0xffff <? zlen value) "direct transcript field too large" ;;;
  let out := zeros (2 + zlen value) in
  let* out := setUint 2 out 0 (zlen value) in
  set_range out value 2.

Section WithCrypto.
Context `{Crypto}.

Definition TRANSCRIPT_DOMAIN : bytes := utf8ToBytes (js "atterm-direct-handshake-v1").
Definition PROOF_INFO : bytes := utf8ToBytes (js "atterm-direct-proof-v1").
Definition CLIENT_PROOF_DOMAIN : bytes := utf8ToBytes (js "atterm-direct-client-v1").
Definition HOST_PROOF_DOMAIN : bytes := utf8ToBytes (js "atterm-direct-host-v1").
Definition FINISH_PROOF_DOMAIN : bytes := utf8ToBytes (js "atterm-direct-finish-v1").
Definition TRAFFIC_INFO : bytes := utf8ToBytes (js "atterm-direct-traffic-v1").

Definition transcriptString (name : string) (value : jsstr) : result bytes :=
  let b := utf8ToBytes value in
  throw_if ((zlen b =? 0) || (128 <? zlen b)) ("invalid " +:+ name) ;;;
  sizedField b.

Definition marshalDirectTranscript (value : DirectTranscript) : result bytes :=
  throw_if (negb (zlen (ticket value) =? 32)) "direct ticket must be 32 bytes" ;;;
  throw_if ((permission value <? DirectPermission.View)
            || (DirectPermission.Full <? permission value)) "invalid direct permission" ;;;
  throw_if (expiresAtUnixMs value <=? 0) "invalid direct expiry" ;;;
  throw_if (negb (zlen (clientPublicKey value) =? 65)
            || negb (zlen (hostPublicKey value) =? 65)) "P-256 public keys must be 65 bytes" ;;;
  let permission_byte := [permission value mod 256] in
  let* expiry := setUint 8 (zeros 8) 0 (expiresAtUnixMs value) in
  let* attempt_field := uuidBytes (attemptId value) in
  let* ticket_field := sizedField (ticket value) in
  let* session_field := uuidBytes (sessionId value) in
  let* user_field := transcriptString "user_id" (userId value) in
  let* host_field := transcriptString "host_id" (hostId value) in
  let* client_field := transcriptString "client_instance_id" (clientInstanceId value) in
  let* client_key_field := sizedField (clientPublicKey value) in
  let* host_key_field := sizedField (hostPublicKey value) in
  concatBytes [TRANSCRIPT_DOMAIN; attempt_field; ticket_field; session_field; user_field;
               host_field; client_field; permission_byte; expiry; client_key_field;
               host_key_field].

Definition deriveDirectProofKey (accountKey transcript : bytes) : result bytes :=
  throw_if (negb (zlen accountKey =? 32)) "account_key must be 32 bytes" ;;;
  Ok (hkdf_sha256 accountKey (sha256 transcript) PROOF_INFO 32).

Definition buildDirectProof (accountKey transcript : bytes) (role : Z) : result bytes :=
  let domain :=
    if role =? DirectRole.Client then Some CLIENT_PROOF_DOMAIN
    else if role =? DirectRole.Host then Some HOST_PROOF_DOMAIN
    else None in
  match domain with
  | None => Throw "invalid direct role"
  | Some domain =>
      let* key := deriveDirectProofKey accountKey transcript in
      let* msg := concatBytes [domain; sha256 transcript] in
      Ok (hmac_sha256 key msg)
  end.

Definition buildDirectFinishProof (accountKey transcript : bytes) : result bytes :=
  let* key := deriveDirectProofKey accountKey transcript in
  let* msg := concatBytes [FINISH_PROOF_DOMAIN; sha256 transcript] in
  Ok (hmac_sha256 key msg).

Definition deriveDirectTrafficKeys (accountKey sharedSecret transcript : bytes)
    : result DirectTrafficKeys :=
  let transcriptHash := sha256 transcript in
  let* proofKey := deriveDirectProofKey accountKey transcript in
  let* info := concatBytes [TRAFFIC_INFO; transcriptHash] in
  let material := hkdf_sha256 sharedSecret proofKey info 96 in
  Ok {| clientToHostKey := slice material 0 32;
        hostToClientKey := slice material 32 64;
        clientToHostNoncePrefix := slice material 64 80;
        hostToClientNoncePrefix := slice material 80 96 |}.

(** *** Records *)

Definition validRecordKind (kind : Z) : bool :=
  (DirectRecordKind.Frame <=? kind) && (kind <=? DirectRecordKind.CatalogResponse).

Definition recordNonce (prefix : bytes) (counter : Z) : result bytes :=
  throw_if (negb (zlen prefix =? 16)) "direct nonce prefix must be 16 bytes" ;;;
  let* nonce := set_range (zeros 24) prefix 0 in
  setUint 8 nonce 16 counter.

Definition recordHeader (kind counter plainLength : Z) : result bytes :=
  throw_if (negb (validRecordKind kind)) "invalid direct record kind" ;;;
  throw_if ((counter <? 0) || (0xffffffffffffffff <? counter)) "invalid direct record counter" ;;;
  throw_if (MAX_DIRECT_RECORD_PLAINTEXT <? plainLength) "direct record plaintext too large" ;;;
  let header := zeros RECORD_HEADER_SIZE in
  let header := set_idx header 0 RECORD_VERSION in
  let header := set_idx header 1 kind in
  let* header := setUint 8 header 2 counter in
  setUint 4 header 10 plainLength.

Definition sealDirectRecord (key noncePrefix transcriptHash : bytes) (kind counter : Z)
    (plaintext : bytes) : result bytes :=
  throw_if (negb (zlen key =? 32) || negb (zlen transcriptHash =? 32))
    "invalid direct record key binding" ;;;
  let* header := recordHeader kind counter (zlen plaintext) in
  let* aad := concatBytes [transcriptHash; header] in
  let* nonce := recordNonce noncePrefix counter in
  let ciphertext := xchacha_encrypt key nonce aad plaintext in
  concatBytes [header; ciphertext].

Definition openDirectRecord (key noncePrefix transcriptHash : bytes) (expectedCounter : Z)
    (record : bytes) : result (Z * bytes) :=
  throw_if (negb (zlen key =? 32) || negb (zlen transcriptHash =? 32))
    "invalid direct record key binding" ;;;
  throw_if (zlen record <? RECORD_HEADER_SIZE + RECORD_TAG_SIZE) "truncated direct record" ;;;
  let header := slice record 0 RECORD_HEADER_SIZE in
  throw_if (negb (bool_decide (idx header 0 = Some RECORD_VERSION)))
    "unsupported direct record version" ;;;
  let kind := default 0 (idx header 1) in
  throw_if (negb (validRecordKind kind)) "invalid direct record kind" ;;;
  let* counter := getUint 8 header 2 in
  throw_if (negb (counter =? expectedCounter)) "invalid direct record sequence" ;;;
  let* plainLength := getUint 4 header 10 in
  throw_if ((MAX_DIRECT_RECORD_PLAINTEXT <? plainLength)
            || negb (zlen record =? RECORD_HEADER_SIZE + plainLength + RECORD_TAG_SIZE))
    "invalid direct record length" ;;;
  let* aad := concatBytes [transcriptHash; header] in
  let* nonce := recordNonce noncePrefix counter in
  let* plaintext := xchacha_decrypt key nonce aad (slice_from record RECORD_HEADER_SIZE) in
  Ok (kind, plaintext).
End WithCrypto.

(** ** Lemmas *)

Lemma fold_zlen (parts : list bytes) (n : Z) :
  fold_left (fun sum part => sum + zlen part) parts n = n + zlen (concat parts).
Proof.
  revert n. induction parts as [|p parts IH]; intros n; cbn [fold_left concat].
  - rewrite (zlen_nil (A := Z)). lia.
  - rewrite IH, zlen_app. lia.
Qed.

Lemma concat_write_layout parts a off :
  off = zlen a -> concat_write parts (a ++ zeros (zlen (concat parts))) off = Ok (a ++ concat parts).
Proof.
  revert a off. induction parts as [|p parts IH]; intros a off ->; cbn [concat_write concat]; [done|].
  rewrite zlen_app. pose proof (zlen_nonneg (concat parts)).
  rewrite set_range_zeros by (done || lia). cbn [rbind].
  replace (zlen p + zlen (concat parts) - zlen p) with (zlen (concat parts)) by lia.
  rewrite !(app_assoc a p). apply IH. by rewrite zlen_app.
Qed.

Lemma concatBytes_ok parts : concatBytes parts = Ok (concat parts).
Proof. unfold concatBytes. rewrite fold_zlen. by apply (concat_write_layout parts []). Qed.

(** The bytes of a length-prefixed field. *)
Definition sized (v : bytes) : bytes := be_bytes 2 (zlen v) ++ v.

Lemma sizedField_ok v : zlen v <= 0xffff -> sizedField v = Ok (sized v).
Proof.
  intros Hv. unfold sizedField. split_guard; [lia|]. cbv zeta. pose proof (zlen_nonneg v).
  rewrite <- (app_nil_l (zeros _)), setUint_zeros by (done || lia). cbn [rbind app].
  rewrite set_range_zeros by (rewrite ?zlen_be_bytes; lia).
  replace (2 + zlen v - Z.of_nat 2 - zlen v) with 0 by lia. unfold sized.
  change (zeros 0) with (@nil Z). by rewrite app_nil_r.
Qed.

Lemma sizedField_inv v b : sizedField v = Ok b -> zlen v <= 0xffff /\ b = sized v.
Proof.
  intros E. assert (Hv : zlen v <= 0xffff) by (unfold sizedField in E; inv_ok; lia).
  rewrite sizedField_ok in E by done. by inv_ok.
Qed.

Lemma zlen_set_idx buf i v : zlen (set_idx buf i v) = zlen buf.
Proof. unfold set_idx, zlen. by rewrite length_insert. Qed.

Lemma zlen_hex_fill n i s out : zlen (hex_fill n i s out) = zlen out.
Proof. revert i out. induction n as [|n IH]; intros; cbn [hex_fill]; [done|]. by rewrite IH, zlen_set_idx. Qed.

Lemma uuidBytes_length s b : uuidBytes s = Ok b -> zlen b = 16.
Proof. unfold uuidBytes. cbv zeta. intros E. inv_ok. by rewrite zlen_hex_fill. Qed.

(** Prefixes of equal length, and length-prefixed fields, split uniquely. *)
Lemma app_inj_zlen (a b x y : bytes) : zlen a = zlen b -> a ++ x = b ++ y -> a = b /\ x = y.
Proof. intros Hl E. apply app_inj_1 in E; [done|]. unfold zlen in Hl. lia. Qed.

Lemma sized_inj (a b x y : bytes) :
  zlen a <= 0xffff -> zlen b <= 0xffff -> sized a ++ x = sized b ++ y -> a = b /\ x = y.
Proof.
  intros Ha Hb E. unfold sized in E. rewrite <- !app_assoc in E.
  pose proof (zlen_nonneg a). pose proof (zlen_nonneg b).
  apply app_inj_zlen in E as [El E]; [|by rewrite !zlen_be_bytes].
  apply be_bytes_inj in El; [|lia..]. by apply app_inj_zlen in E.
Qed.

(** What the receiver of a transcript can rely on: the encoded fields. *)
Definition same_binding `{Crypto} (v w : DirectTranscript) : Prop :=
  uuidBytes (attemptId v) = uuidBytes (attemptId w) /\ ticket v = ticket w /\
  uuidBytes (sessionId v) = uuidBytes (sessionId w) /\
  utf8ToBytes (userId v) = utf8ToBytes (userId w) /\
  utf8ToBytes (hostId v) = utf8ToBytes (hostId w) /\
  utf8ToBytes (clientInstanceId v) = utf8ToBytes (clientInstanceId w) /\
  permission v = permission w /\
  expiresAtUnixMs v mod 2 ^ 64 = expiresAtUnixMs w mod 2 ^ 64 /\
  clientPublicKey v = clientPublicKey w /\ hostPublicKey v = hostPublicKey w.

Section Laws.
Context `{Crypto}.

Lemma transcriptString_inv name v b :
  transcriptString name v = Ok b -> zlen (utf8ToBytes v) <= 0xffff /\ b = sized (utf8ToBytes v).
Proof. unfold transcriptString. intros E. inv_ok. by apply sizedField_inv in E. Qed.

Lemma marshal_layout v t :
  marshalDirectTranscript v = Ok t ->
  1 <= permission v <= 3 /\ 0 < expiresAtUnixMs v /\
  Forall (fun f => zlen f <= 0xffff)
    [ticket v; utf8ToBytes (userId v); utf8ToBytes (hostId v);
     utf8ToBytes (clientInstanceId v); clientPublicKey v; hostPublicKey v] /\
  exists a s, uuidBytes (attemptId v) = Ok a /\ uuidBytes (sessionId v) = Ok s /\
    t = TRANSCRIPT_DOMAIN ++ a ++ sized (ticket v) ++ s ++ sized (utf8ToBytes (userId v))
        ++ sized (utf8ToBytes (hostId v)) ++ sized (utf8ToBytes (clientInstanceId v))
        ++ [permission v mod 256] ++ be_bytes 8 (expiresAtUnixMs v)
        ++ sized (clientPublicKey v) ++ sized (hostPublicKey v).
Proof.
  unfold marshalDirectTranscript, DirectPermission.View, DirectPermission.Full.
  intros E. inv_ok. rewrite concatBytes_ok in E. inv_ok.
  rewrite setUint_fill in E0 by done. inv_ok.
  repeat match goal with
  | H : sizedField _ = Ok _ |- _ => apply sizedField_inv in H as [? ->]
  | H : transcriptString _ _ = Ok _ |- _ => apply transcriptString_inv in H as [? ->]
  end.
  split_and!; [lia..| |].
  - by repeat constructor.
  - eexists _, _. split_and!; [done..|]. cbn [concat app]. by rewrite !app_nil_r.
Qed.

(** The header that [recordHeader] writes. *)
Definition header_bytes (kind counter plainLength : Z) : bytes :=
  [RECORD_VERSION; kind mod 256] ++ be_bytes 8 counter ++ be_bytes 4 plainLength.

Lemma recordHeader_layout kind counter n :
  validRecordKind kind = true -> 0 <= counter <= 0xffffffffffffffff ->
  n <= MAX_DIRECT_RECORD_PLAINTEXT ->
  recordHeader kind counter n = Ok (header_bytes kind counter n).
Proof.
  intros Hk Hc Hn. unfold recordHeader. rewrite Hk. cbn [negb].
  destruct (_ || _)%bool eqn:E; [apply orb_prop in E as [?|?]; guards; lia|].
  split_guard; [lia|]. cbv zeta.
  change (setUint 8 _ 2 counter) with
    (setUint 8 ([RECORD_VERSION; kind mod 256] ++ zeros 12) 2 counter).
  rewrite setUint_zeros by done. cbn [rbind].
  rewrite app_assoc, setUint_zeros by (by autorewrite with zlen).
  change (zeros _) with (@nil Z). by rewrite app_nil_r, <- app_assoc.
Qed.

Lemma recordHeader_inv kind counter n h :
  recordHeader kind counter n = Ok h ->
  validRecordKind kind = true /\ 0 <= counter <= 0xffffffffffffffff /\
  n <= MAX_DIRECT_RECORD_PLAINTEXT /\ h = header_bytes kind counter n.
Proof.
  intros E. assert (G : validRecordKind kind = true /\ 0 <= counter <= 0xffffffffffffffff /\
    n <= MAX_DIRECT_RECORD_PLAINTEXT) by (unfold recordHeader in E; inv_ok; auto with lia).
  destruct G as (Hk & Hc & Hn). rewrite recordHeader_layout in E by done. by inv_ok.
Qed.

Lemma zlen_header_bytes kind counter n : zlen (header_bytes kind counter n) = 14.
Proof. unfold header_bytes. by autorewrite with zlen. Qed.

Lemma recordNonce_layout prefix counter :
  zlen prefix = 16 -> recordNonce prefix counter = Ok (prefix ++ be_bytes 8 counter).
Proof.
  intros Hp. unfold recordNonce. rewrite Hp. cbn [negb Z.eqb Pos.eqb].
  rewrite set_range_start by (rewrite Hp; done). cbn [rbind].
  rewrite setUint_zeros by (rewrite Hp; done). rewrite Hp.
  change (zeros _) with (@nil Z). by rewrite app_nil_r.
Qed.

Lemma recordNonce_inv prefix counter n :
  recordNonce prefix counter = Ok n -> zlen prefix = 16 /\ n = prefix ++ be_bytes 8 counter.
Proof.
  intros E. assert (Hp : zlen prefix = 16) by (unfold recordNonce in E; inv_ok; lia).
  rewrite recordNonce_layout in E by done. by inv_ok.
Qed.

(** The wire form of a sealed record. *)
Definition sealed_bytes (key prefix hash : bytes) (kind counter : Z) (pt : bytes) : bytes :=
  let header := header_bytes kind counter (zlen pt) in
  header ++ xchacha_encrypt key (prefix ++ be_bytes 8 counter) (hash ++ header) pt.

(** When sealing succeeds. *)
Definition seal_ok (key prefix hash : bytes) (kind counter : Z) (pt : bytes) : Prop :=
  zlen key = 32 /\ zlen hash = 32 /\ zlen prefix = 16 /\ validRecordKind kind = true /\
  0 <= counter <= 0xffffffffffffffff /\ zlen pt <= MAX_DIRECT_RECORD_PLAINTEXT.

Lemma sealDirectRecord_layout key prefix hash kind counter pt :
  seal_ok key prefix hash kind counter pt ->
  sealDirectRecord key prefix hash kind counter pt
  = Ok (sealed_bytes key prefix hash kind counter pt).
Proof.
  intros (Hk & Hh & Hp & Hkind & Hc & Hl). unfold sealDirectRecord. rewrite Hk, Hh. cbn [negb Z.eqb Pos.eqb orb].
  rewrite recordHeader_layout by done. cbn [rbind].
  rewrite concatBytes_ok. cbn [rbind concat]. rewrite recordNonce_layout by done. cbn [rbind].
  rewrite concatBytes_ok. cbn [concat]. by rewrite !app_nil_r.
Qed.

Lemma sealDirectRecord_inv key prefix hash kind counter pt r :
  sealDirectRecord key prefix hash kind counter pt = Ok r ->
  seal_ok key prefix hash kind counter pt /\ r = sealed_bytes key prefix hash kind counter pt.
Proof.
  intros E. assert (G : seal_ok key prefix hash kind counter pt).
  { unfold sealDirectRecord in E. inv_ok. unfold seal_ok.
    match goal with H : recordHeader _ _ _ = _ |- _ => apply recordHeader_inv in H as (?&?&?&?) end.
    match goal with H : recordNonce _ _ = _ |- _ => apply recordNonce_inv in H as (?&?) end.
    auto 10 with lia. }
  rewrite sealDirectRecord_layout in E by done. by inv_ok.
Qed.

Lemma validRecordKind_byte kind : validRecordKind kind = true -> 1 <= kind <= 15.
Proof.
  unfold validRecordKind, DirectRecordKind.Frame, DirectRecordKind.CatalogResponse.
  intros E. guards. lia.
Qed.

(** Opening a sealed record: the counter decides. *)
Lemma openDirectRecord_sealed `{!CryptoLaws} key prefix hash kind counter pt c :
  seal_ok key prefix hash kind counter pt ->
  openDirectRecord key prefix hash c (sealed_bytes key prefix hash kind counter pt)
  = if counter =? c then Ok (kind, pt) else Throw "invalid direct record sequence".
Proof.
  intros (Hk & Hh & Hp & Hkind & Hc & Hl). unfold openDirectRecord, sealed_bytes. cbv zeta.
  pose proof (zlen_nonneg pt). pose proof (validRecordKind_byte _ Hkind) as Hb.
  set (header := header_bytes kind counter (zlen pt)).
  set (ct := xchacha_encrypt _ _ _ _).
  assert (Hct : zlen ct = zlen pt + 16) by apply xchacha_length.
  assert (Hhd : zlen header = 14) by apply zlen_header_bytes.
  assert (Hr : zlen (header ++ ct) = 14 + zlen pt + 16) by (rewrite zlen_app; lia).
  rewrite Hk, Hh. cbn [negb Z.eqb Pos.eqb orb].
  unfold RECORD_HEADER_SIZE, RECORD_TAG_SIZE in *. split_guard; [lia|].
  rewrite (slice_prefix header ct) by done.
  change (idx header 0) with (Some RECORD_VERSION). rewrite bool_decide_eq_true_2 by done.
  change (idx header 1) with (Some (kind mod 256)). cbn [negb from_option]. unfold id.
  rewrite Z.mod_small, Hkind by lia. cbn [negb].
  unfold header at 1, header_bytes. rewrite getUint_app by (done || cbn; lia). cbn [rbind].
  destruct (counter =? c) eqn:Ec; cbn [negb]; [|done]. guards. subst c.
  unfold header at 1, header_bytes. rewrite app_assoc, <- (app_nil_r (be_bytes 4 _)).
  unfold MAX_DIRECT_RECORD_PLAINTEXT in *.
  rewrite getUint_app by (autorewrite with zlen; done || cbn; lia). cbn [rbind].
  destruct (_ || _)%bool eqn:E; [apply orb_prop in E as [?|?]; guards; lia|].
  rewrite concatBytes_ok. cbn [rbind concat]. rewrite recordNonce_layout by done. cbn [rbind].
  rewrite app_nil_r, slice_from_app by done.
  unfold ct. rewrite xchacha_roundtrip. done.
Qed.
End Laws.

(** ** Properties *)

(** C40. The canonical transcript binds the handshake unambiguously: two
    transcripts that marshal to the same bytes agree on the attempt, the
    ticket, the session, the encoded user, host and client identifiers, the
    permission, the expiry (as a 64-bit value) and both public keys. *)
Theorem transcript_injective `{Crypto} (v w : DirectTranscript) (t : bytes)
    (Hv : marshalDirectTranscript v = Ok t) (Hw : marshalDirectTranscript w = Ok t) :
  same_binding v w.
Proof.
  apply marshal_layout in Hv as (Hpv & _ & Fv & av & sv & Eav & Esv & ->).
  apply marshal_layout in Hw as (Hpw & _ & Fw & aw & sw & Eaw & Esw & E).
  rewrite !Forall_cons in Fv, Fw. destruct Fv as (?&?&?&?&?&?&_), Fw as (?&?&?&?&?&?&_).
  pose proof (uuidBytes_length _ _ Eav). pose proof (uuidBytes_length _ _ Eaw).
  pose proof (uuidBytes_length _ _ Esv). pose proof (uuidBytes_length _ _ Esw).
  apply app_inj_zlen in E as [_ E]; [|done]. apply app_inj_zlen in E as [-> E]; [|lia].
  apply sized_inj in E as [Et E]; [|done..]. apply app_inj_zlen in E as [-> E]; [|lia].
  apply sized_inj in E as [Eu E]; [|done..]. apply sized_inj in E as [Eh E]; [|done..].
  apply sized_inj in E as [Ei E]; [|done..]. apply app_inj_zlen in E as [Ep E]; [|done].
  apply app_inj_zlen in E as [Ee E]; [|by rewrite !zlen_be_bytes].
  apply sized_inj in E as [Ec E]; [|done..].
  rewrite <- (app_nil_r (sized (hostPublicKey v))), <- (app_nil_r (sized (hostPublicKey w))) in E.
  apply sized_inj in E as [Ek _]; [|done..].
  injection Ep as Ep. rewrite !Z.mod_small in Ep by lia.
  apply (f_equal be_val) in Ee. rewrite !be_val_be_bytes in Ee.
  unfold same_binding. rewrite Eav, Eaw, Esv, Esw. by split_and!.
Qed.

(** A concrete instance of the primitives, for the witnesses: the hashes are
    truncations and the cipher appends a checksum tag. *)
Module Toy.
Definition digest (n : Z) (p : bytes) : bytes := map (fun b => b mod 256) (slice (p ++ zeros n) 0 n).
Definition tag (key nonce aad p : bytes) : bytes :=
  be_bytes 16 (fold_right (fun b acc => (b + 31 * acc) mod 2 ^ 64) 7 (key ++ nonce ++ aad ++ p)).
Definition encrypt (key nonce aad p : bytes) : bytes := p ++ tag key nonce aad p.
Definition decrypt (key nonce aad c : bytes) : result bytes :=
  let p := slice c 0 (zlen c - 16) in
  if bool_decide (c = encrypt key nonce aad p) then Ok p else Throw "invalid tag".
End Toy.

#[export] Instance toy_crypto : Crypto := {
  utf8ToBytes := utf8_encode;
  sha256 := Toy.digest 32;
  hkdf_sha256 ikm salt info n := Toy.digest n (ikm ++ salt ++ info);
  hmac_sha256 key p := Toy.digest 32 (key ++ p);
  xchacha_encrypt := Toy.encrypt;
  xchacha_decrypt := Toy.decrypt;
}.

Lemma toy_digest_length n p : 0 <= n -> zlen (Toy.digest n p) = n.
Proof.
  intros. unfold Toy.digest. pose proof (zlen_nonneg p). rewrite zlen_map.
  rewrite zlen_slice; rewrite ?zlen_app, ?zlen_zeros; lia.
Qed.

#[export] Instance toy_laws : CryptoLaws.
Proof.
  split; cbn.
  - done.
  - intros. by apply toy_digest_length.
  - intros. unfold Toy.digest, bytes_ok. apply Forall_map, Forall_true. intros b. cbn.
    pose proof (Z.mod_pos_bound b 256). unfold is_byte. lia.
  - intros. by apply toy_digest_length.
  - intros. by apply toy_digest_length.
  - intros. unfold Toy.encrypt, Toy.tag. by rewrite zlen_app, zlen_be_bytes.
  - intros. unfold Toy.encrypt. apply bytes_ok_app. split; [done|apply be_bytes_ok].
  - intros key nonce aad p. unfold Toy.decrypt.
    assert (E : slice (Toy.encrypt key nonce aad p) 0 (zlen (Toy.encrypt key nonce aad p) - 16) = p).
    { unfold Toy.encrypt, Toy.tag. rewrite zlen_app, zlen_be_bytes.
      apply slice_prefix; [done|]. lia. }
    rewrite E. by rewrite bool_decide_eq_true_2.
Qed.

Lemma transcript_injective_witness :
  let uuid := js "00112233-4455-6677-8899-aabbccddeeff" in
  let v := mkTranscript uuid (zeros 32) uuid (js "u") (js "h") (js "c") 3 1000 (zeros 65) (zeros 65) in
  let w := mkTranscript (js "00112233-4455-6677-8899-AABBCCDDEEFF") (zeros 32) uuid
             (js "u") (js "h") (js "c") 3 1000 (zeros 65) (zeros 65) in
  exists t, marshalDirectTranscript v = Ok t /\ marshalDirectTranscript w = Ok t /\
    same_binding v w /\
    is_ok (marshalDirectTranscript (mkTranscript uuid (zeros 31) uuid (js "u") (js "h") (js "c")
             3 1000 (zeros 65) (zeros 65))) = false.
Proof.
  cbv zeta. eexists. split; [by vm_compute|]. split; [by vm_compute|]. split; [|by vm_compute].
  eapply transcript_injective; by vm_compute.
Defined.

(** Record protection: under 32-byte keys, a 16-byte nonce prefix, a known
    kind, a 64-bit counter and at most 16 KiB of plaintext, sealing succeeds
    with a record 30 bytes longer than the plaintext; the record opens to the
    same kind and plaintext at the same counter and is refused at every other
    one, so it can be neither replayed nor reordered. Outside these bounds
    sealing throws. *)
Theorem record_seal_open `{CryptoLaws} (key prefix hash : bytes) (kind counter : Z) (pt : bytes) :
  match sealDirectRecord key prefix hash kind counter pt with
  | Throw _ => ~ seal_ok key prefix hash kind counter pt
  | Ok record =>
      seal_ok key prefix hash kind counter pt /\ zlen record = zlen pt + 30 /\
      forall c, openDirectRecord key prefix hash c record
        = if counter =? c then Ok (kind, pt) else Throw "invalid direct record sequence"
  end.
Proof.
  destruct (sealDirectRecord key prefix hash kind counter pt) as [record|msg] eqn:E.
  - apply sealDirectRecord_inv in E as [Hs ->]. split; [done|]. split.
    + unfold sealed_bytes. rewrite zlen_app, zlen_header_bytes, xchacha_length. lia.
    + intros c. by apply openDirectRecord_sealed.
  - intros Hs. by rewrite sealDirectRecord_layout in E.
Qed.

Lemma record_seal_open_witness :
  CryptoLaws /\
  exists r, sealDirectRecord (zeros 32) (zeros 16) (zeros 32) DirectRecordKind.Ping 5 [1; 2] = Ok r /\
    openDirectRecord (zeros 32) (zeros 16) (zeros 32) 5 r = Ok (DirectRecordKind.Ping, [1; 2]) /\
    openDirectRecord (zeros 32) (zeros 16) (zeros 32) 6 r = Throw "invalid direct record sequence".
Proof.
  split; [exact toy_laws|].
  pose proof (record_seal_open (zeros 32) (zeros 16) (zeros 32) DirectRecordKind.Ping 5 [1; 2]) as S.
  destruct (sealDirectRecord (zeros 32) (zeros 16) (zeros 32) DirectRecordKind.Ping 5 [1; 2])
    as [r|m] eqn:E; [|by vm_compute in E].
  exists r. split; [done|]. destruct S as (_ & _ & S). split; apply S.
Defined.
