(* ===== verification/DirectFraming.v ===== *)
(** * Fragmentation of large direct frames
      ([src/desktop/frontend/src/lib/directFraming.ts])

    A frame that does not fit one record travels as ordered fragments
    [message id(8 BE) || offset(4 BE) || total(4 BE) || chunk]. The
    reassembler is a state machine over the fields of the class. *)

From S2P Require Import Prelude Bytes JsString DirectCrypto.

Definition FRAGMENT_HEADER_SIZE : Z := 16.
Definition FRAGMENT_DATA_SIZE : Z := MAX_DIRECT_RECORD_PLAINTEXT - FRAGMENT_HEADER_SIZE.
Definition MAX_DIRECT_FRAME_SIZE : Z := 16 * 1024 * 1024.
Definition DIRECT_REASSEMBLY_TIMEOUT_MS : Z := 10000.

(** The loop of [fragmentDirectFrame]; [fuel] bounds the iterations. *)
Fixpoint fragment_loop (fuel : nat) (messageId : Z) (frame : bytes) (offset : Z)
    (fragments : list bytes) : result (list bytes) :=
  if offset <? zlen frame then
    match fuel with
    | O => Throw "out of fuel"
    | S fuel' =>
        let end_ := Z.min (zlen frame) (offset + FRAGMENT_DATA_SIZE) in
        let fragment := zeros (FRAGMENT_HEADER_SIZE + end_ - offset) in
        let* fragment := setUint 8 fragment 0 messageId in
        let* fragment := setUint 4 fragment 8 offset in
        let* fragment := setUint 4 fragment 12 (zlen frame) in
        let* fragment := set_range fragment (slice frame offset end_) FRAGMENT_HEADER_SIZE in
        fragment_loop fuel' messageId frame (offset + FRAGMENT_DATA_SIZE) (fragments ++ [fragment])
    end
  else Ok fragments.

Definition fragmentDirectFrame (messageId : Z) (frame : bytes) : result (list bytes) :=
  throw_if ((messageId <? 0) || (0xffffffffffffffff <? messageId))
    "invalid direct fragment message id" ;;;
  throw_if (zlen frame <=? MAX_DIRECT_RECORD_PLAINTEXT)
    "direct frame does not require fragmentation" ;;;
  throw_if (MAX_DIRECT_FRAME_SIZE <? zlen frame) "direct frame too large" ;;;
  fragment_loop (length frame) messageId frame 0 [].

(** The private fields of [DirectFrameReassembler]. *)
Record Reassembler := mkReassembler {
  messageId : Z;
  total : Z;
  next : Z;
  startedAtMs : Z;
  buffer : option bytes;
}.

#[export] Instance eta_reassembler : Eta Reassembler :=
  fun r => mkReassembler (messageId r) (total r) (next r) (startedAtMs r) (buffer r).

Definition new_reassembler : Reassembler := mkReassembler 0 0 0 0 None.

Definition reset : method Reassembler unit := mput new_reassembler.

Definition add (fragment : bytes) (nowMs : Z) : method Reassembler (option bytes) :=
  do* this := mget in
  if bool_decide (is_Some (buffer this))
     && (DIRECT_REASSEMBLY_TIMEOUT_MS <? nowMs - startedAtMs this)
  then do* _ := reset in mthrow "direct reassembly timeout"
  else
    guard_throw ((zlen fragment <=? FRAGMENT_HEADER_SIZE)
                 || (MAX_DIRECT_RECORD_PLAINTEXT <? zlen fragment))
      "invalid direct fragment size" ;;;
    do* id := mlift (getUint 8 fragment 0) in
    do* offset := mlift (getUint 4 fragment 8) in
    do* tot := mlift (getUint 4 fragment 12) in
    let chunk := slice_from fragment FRAGMENT_HEADER_SIZE in
    guard_throw ((tot <=? MAX_DIRECT_RECORD_PLAINTEXT) || (MAX_DIRECT_FRAME_SIZE <? tot)
                 || (tot <? offset + zlen chunk))
      "invalid direct fragment bounds" ;;;
    do* _ :=
      match buffer this with
      | Some _ => mret tt
      | None =>
          guard_throw (negb (offset =? 0)) "invalid direct fragment offset" ;;;
          mput (this <| messageId := id |> <| total := tot |> <| startedAtMs := nowMs |>
                     <| buffer := Some (zeros tot) |>)
      end in
    do* this := mget in
    guard_throw (negb (id =? messageId this) || negb (tot =? total this)
                 || negb (offset =? next this))
      "direct fragment ordering mismatch" ;;;
    do* buf := mlift (set_range (default [] (buffer this)) chunk offset) in
    let this := this <| buffer := Some buf |> <| next := next this + zlen chunk |> in
    do* _ := mput this in
    if negb (next this =? total this) then mret None
    else
      let frame := buffer this in
      do* _ := reset in
      mret frame.

(** Feeding a list of fragments, each with its arrival time. *)
Fixpoint add_all (l : list (bytes * Z)) : method Reassembler (list (option bytes)) :=
  match l with
  | [] => mret []
  | (fragment, now) :: rest =>
      do* r := add fragment now in
      do* rs := add_all rest in
      mret (r :: rs)
  end.

(** ** The abstract view of the reassembler

    Idle, or collecting a message: its identifier, total size, start time and
    the bytes received so far, in order. *)
Inductive Progress :=
  | Idle
  | Collecting (id tot t0 : Z) (received : bytes).

(** How the fields represent the abstract state. *)
Definition represents (st : Reassembler) (p : Progress) : Prop :=
  match p with
  | Idle => st = new_reassembler
  | Collecting id tot t0 received =>
      MAX_DIRECT_RECORD_PLAINTEXT < tot <= MAX_DIRECT_FRAME_SIZE /\ zlen received < tot /\
      st = mkReassembler id tot (zlen received) t0
             (Some (received ++ zeros (tot - zlen received)))
  end.

Definition fragment_bytes (id offset tot : Z) (chunk : bytes) : bytes :=
  be_bytes 8 id ++ be_bytes 4 offset ++ be_bytes 4 tot ++ chunk.

(** A fragment the reassembler can parse: its fields in range. *)
Definition fragment_ok (id offset tot : Z) (chunk : bytes) : Prop :=
  0 <= id < 2 ^ 64 /\ 0 <= offset < 2 ^ 32 /\ 0 <= tot < 2 ^ 32 /\ bytes_ok chunk /\
  0 < zlen chunk <= FRAGMENT_DATA_SIZE.

(** The abstract step on a well-formed fragment: the specification. *)
Definition spec_add (p : Progress) (id offset tot : Z) (chunk : bytes) (now : Z)
    : Progress * result (option bytes) :=
  let accept id' tot' t0 received :=
    let received' := received ++ chunk in
    if zlen received' =? tot' then (Idle, Ok (Some received'))
    else (Collecting id' tot' t0 received', Ok None) in
  match p with
  | Idle =>
      if (tot <=? MAX_DIRECT_RECORD_PLAINTEXT) || (MAX_DIRECT_FRAME_SIZE <? tot)
         || (tot <? offset + zlen chunk) then (p, Throw "invalid direct fragment bounds")
      else if negb (offset =? 0) then (p, Throw "invalid direct fragment offset")
      else accept id tot now []
  | Collecting id' tot' t0 received =>
      if DIRECT_REASSEMBLY_TIMEOUT_MS <? now - t0 then (Idle, Throw "direct reassembly timeout")
      else if (tot <=? MAX_DIRECT_RECORD_PLAINTEXT) || (MAX_DIRECT_FRAME_SIZE <? tot)
         || (tot <? offset + zlen chunk) then (p, Throw "invalid direct fragment bounds")
      else if negb (id =? id') || negb (tot =? tot') || negb (offset =? zlen received)
      then (p, Throw "direct fragment ordering mismatch")
      else accept id' tot' t0 received
  end.

(** The specification on any byte string: a collection that has timed out is
    dropped first, then a string of the wrong size is refused. *)
Definition spec_step (p : Progress) (f : bytes) (now : Z) : Progress * result (option bytes) :=
  let timed_out :=
    match p with Idle => false | Collecting _ _ t0 _ => DIRECT_REASSEMBLY_TIMEOUT_MS <? now - t0 end in
  if timed_out then (Idle, Throw "direct reassembly timeout")
  else if (zlen f <=? FRAGMENT_HEADER_SIZE) || (MAX_DIRECT_RECORD_PLAINTEXT <? zlen f)
  then (p, Throw "invalid direct fragment size")
  else spec_add p (be_val (slice f 0 8)) (be_val (slice f 8 12)) (be_val (slice f 12 16))
         (slice_from f 16) now.

(** A run over a sequence of received strings: what each call returned or
    threw, and the final state. *)
Fixpoint feed {S} (step : S -> bytes -> Z -> S * result (option bytes)) (st : S)
    (l : list (bytes * Z)) : S * list (result (option bytes)) :=
  match l with
  | [] => (st, [])
  | (f, now) :: rest =>
      let '(st', r) := step st f now in
      let '(st'', rs) := feed step st' rest in
      (st'', r :: rs)
  end.

(** ** Lemmas *)

Lemma zlen_fragment_bytes id offset tot chunk :
  zlen (fragment_bytes id offset tot chunk) = 16 + zlen chunk.
Proof. unfold fragment_bytes. autorewrite with zlen. lia. Qed.

Lemma fragment_parse id offset tot chunk :
  fragment_ok id offset tot chunk ->
  let f := fragment_bytes id offset tot chunk in
  getUint 8 f 0 = Ok id /\ getUint 4 f 8 = Ok offset /\ getUint 4 f 12 = Ok tot /\
  slice_from f FRAGMENT_HEADER_SIZE = chunk /\
  (zlen f <=? FRAGMENT_HEADER_SIZE) || (MAX_DIRECT_RECORD_PLAINTEXT <? zlen f) = false.
Proof.
  unfold fragment_ok, FRAGMENT_DATA_SIZE, FRAGMENT_HEADER_SIZE, MAX_DIRECT_RECORD_PLAINTEXT.
  intros (Hi & Ho & Ht & _ & Hc). cbv zeta. rewrite zlen_fragment_bytes.
  unfold fragment_bytes. split_and!.
  - by apply (getUint_app 8 []).
  - rewrite getUint_app; [done|by rewrite zlen_be_bytes|done].
  - rewrite app_assoc, getUint_app; [done|by autorewrite with zlen|done].
  - rewrite !app_assoc, <- (app_assoc (be_bytes 8 id)). apply slice_from_app.
    by autorewrite with zlen.
  - apply orb_false_iff. split; [apply Z.leb_gt|apply Z.ltb_ge]; lia.
Qed.

Lemma orb3_true (a b c : bool) : (a || b || c)%bool = true -> a = true \/ b = true \/ c = true.
Proof. destruct a, b, c; auto. Qed.

(** The concrete state reached when a chunk is accepted. *)
Lemma accept_represents (tot : Z) (received chunk : bytes) :
  MAX_DIRECT_RECORD_PLAINTEXT < tot <= MAX_DIRECT_FRAME_SIZE ->
  zlen received + zlen chunk <= tot ->
  set_range (received ++ zeros (tot - zlen received)) chunk (zlen received)
  = Ok ((received ++ chunk) ++ zeros (tot - zlen (received ++ chunk))).
Proof.
  intros Ht Hl. rewrite set_range_zeros by (done || lia). f_equal.
  rewrite zlen_app, <- app_assoc. do 3 f_equal. lia.
Qed.

(** Runs the body of a method of the reassembler up to the next unknown. *)
Ltac run := mrun; unfold reset, new_reassembler; mrun;
  cbn [messageId total next startedAtMs buffer].

(** One step of the reassembler implements one step of the specification. *)
Lemma add_refines (st : Reassembler) (p : Progress) (id offset tot : Z) (chunk : bytes) (now : Z) :
  represents st p -> fragment_ok id offset tot chunk ->
  let '(st', r) := add (fragment_bytes id offset tot chunk) now st in
  let '(p', r') := spec_add p id offset tot chunk now in
  represents st' p' /\ r = r'.
Proof.
  intros Hr Hf. pose proof Hf as (Hid & Hoff & Htot & _ & Hc).
  destruct (fragment_parse _ _ _ _ Hf) as (E1 & E2 & E3 & E4 & E5).
  set (f := fragment_bytes id offset tot chunk) in *. clearbody f. unfold add.
  destruct p as [|id' tot' t0 received]; cbn [represents] in Hr.
  - subst st. run. rewrite bool_decide_eq_false_2 by apply is_Some_None. cbn [andb].
    rewrite E5, E1, E2, E3. run. rewrite E4. unfold spec_add.
    destruct (_ || _ || _)%bool eqn:Eb; [done|]. run.
    apply orb_false_elim in Eb as [Eb Eb3]. apply orb_false_elim in Eb as [Eb1 Eb2]. guards.
    destruct (offset =? 0) eqn:Eo; cbn [negb]; [guards; subst offset|done]. run.
    rewrite !Z.eqb_refl. cbn [negb orb]. undefault.
    pose proof (accept_represents tot [] chunk) as Ha. cbn [app] in Ha.
    rewrite (zlen_nil (A := Z)), Z.sub_0_r in Ha. cbn [app] in Ha. rewrite Ha by lia. run.
    rewrite Z.add_0_l. destruct (zlen chunk =? tot) eqn:Ez; cbn [negb app]; rewrite Ez; run; guards.
    + split; [done|]. rewrite Ez, Z.sub_diag. cbn. by rewrite app_nil_r.
    + split; [|done]. cbn [represents]. split_and!; [lia..|done].
  - destruct Hr as (Ht & Hl & ->). run. rewrite bool_decide_eq_true_2 by done. cbn [andb].
    unfold spec_add. destruct (_ <? now - t0) eqn:Eto; [done|].
    rewrite E5, E1, E2, E3. run. rewrite E4. clear E4.
    destruct (_ || _ || _)%bool eqn:Eb; [done|]. run.
    apply orb_false_elim in Eb as [Eb Eb3]. apply orb_false_elim in Eb as [Eb1 Eb2]. guards.
    destruct (_ || _ || _)%bool eqn:Em; [done|]. run.
    apply orb_false_elim in Em as [Em Em3]. apply orb_false_elim in Em as [Em1 Em2]. guards. subst.
    undefault. rewrite accept_represents by (done || lia). run.
    rewrite <- zlen_app.
    destruct (zlen (received ++ chunk) =? tot') eqn:Ez; cbn [negb]; run; guards.
    + split; [done|]. rewrite Ez, Z.sub_diag. cbn. by rewrite app_nil_r.
    + split; [|done]. cbn [represents]. rewrite zlen_app in *. split_and!; [lia..|done].
Qed.

(** The fragments of [frame] from [off] on. *)
Inductive frags_from (mid : Z) (frame : bytes) : Z -> list bytes -> Prop :=
  | frags_end off : zlen frame <= off -> frags_from mid frame off []
  | frags_step off rest :
      off < zlen frame -> frags_from mid frame (off + FRAGMENT_DATA_SIZE) rest ->
      frags_from mid frame off
        (fragment_bytes mid off (zlen frame)
           (slice frame off (Z.min (zlen frame) (off + FRAGMENT_DATA_SIZE))) :: rest).

Lemma fragment_write mid frame off (stop : Z) (k : bytes -> result (list bytes)) :
  0 <= off <= stop -> stop <= zlen frame ->
  (let* fragment := setUint 8 (zeros (FRAGMENT_HEADER_SIZE + stop - off)) 0 mid in
   let* fragment := setUint 4 fragment 8 off in
   let* fragment := setUint 4 fragment 12 (zlen frame) in
   let* fragment := set_range fragment (slice frame off stop) FRAGMENT_HEADER_SIZE in
   k fragment) = k (fragment_bytes mid off (zlen frame) (slice frame off stop)).
Proof.
  unfold FRAGMENT_HEADER_SIZE. intros Ho Hs.
  assert (Hz : zlen (slice frame off stop) = stop - off) by (rewrite zlen_slice; lia).
  rewrite <- (app_nil_l (zeros _)), setUint_zeros by (done || lia). cbn [rbind app].
  rewrite setUint_zeros by (rewrite ?zlen_be_bytes; done || lia). cbn [rbind].
  rewrite app_assoc, setUint_zeros by (autorewrite with zlen; done || lia). cbn [rbind].
  rewrite app_assoc, set_range_zeros by (autorewrite with zlen; rewrite ?Hz; done || lia).
  cbn [rbind]. rewrite Hz. replace (_ - (stop - off)) with 0 by lia.
  change (zeros 0) with (@nil Z). rewrite app_nil_r, <- !app_assoc. done.
Qed.

(** Enough fuel: one iteration per [FRAGMENT_DATA_SIZE] bytes. *)
Lemma fragment_loop_frags fuel mid frame off acc :
  0 <= off -> zlen frame - off <= Z.of_nat fuel ->
  exists frags, fragment_loop fuel mid frame off acc = Ok (acc ++ frags) /\
                frags_from mid frame off frags.
Proof.
  revert off acc. induction fuel as [|fuel IH]; intros off acc Ho Hf; cbn [fragment_loop].
  - destruct (off <? zlen frame) eqn:E; guards; [lia|]. exists []. rewrite app_nil_r.
    split; [done|]. by constructor.
  - destruct (off <? zlen frame) eqn:E; guards.
    + cbv zeta. unfold FRAGMENT_DATA_SIZE, MAX_DIRECT_RECORD_PLAINTEXT, FRAGMENT_HEADER_SIZE in *.
      rewrite fragment_write by lia.
      edestruct IH as (frags & Hl & Hfr); [| |rewrite Hl; eexists].
      1,2: lia.
      rewrite <- app_assoc. split; [done|]. by constructor.
    + exists []. rewrite app_nil_r. split; [done|]. by constructor.
Qed.

Lemma frags_size mid frame off frags :
  0 <= off -> frags_from mid frame off frags ->
  Forall (fun f => zlen f <= MAX_DIRECT_RECORD_PLAINTEXT) frags.
Proof.
  induction 2; constructor;
    unfold FRAGMENT_DATA_SIZE, MAX_DIRECT_RECORD_PLAINTEXT, FRAGMENT_HEADER_SIZE in *.
  - rewrite zlen_fragment_bytes, zlen_slice; lia.
  - apply IHfrags_from. lia.
Qed.

(** Continuing a collection with the remaining fragments. *)
Lemma add_all_frags mid frame off frags times t0 st :
  0 <= mid < 2 ^ 64 -> bytes_ok frame -> 0 < off -> off < zlen frame ->
  MAX_DIRECT_RECORD_PLAINTEXT < zlen frame <= MAX_DIRECT_FRAME_SIZE ->
  frags_from mid frame off frags -> length times = length frags ->
  Forall (fun t => t - t0 <= DIRECT_REASSEMBLY_TIMEOUT_MS) times ->
  represents st (Collecting mid (zlen frame) t0 (slice frame 0 off)) ->
  add_all (combine frags times) st
  = (new_reassembler, Ok (replicate (length frags - 1) None ++ [Some frame])).
Proof.
  intros Hm Hb Ho0 Ho Hl Hfr. revert times st. induction Hfr as [off He|off rest He Hfr IH].
  { lia. }
  intros [|t times] st Ht Hts Hr; [done|]. cbn [length] in Ht. apply Forall_cons in Hts as [Ht0 Hts].
  cbn [combine add_all]. set (stop := Z.min (zlen frame) (off + FRAGMENT_DATA_SIZE)).
  assert (Hd : FRAGMENT_DATA_SIZE = 16368) by done. assert (Hx : MAX_DIRECT_FRAME_SIZE = 16777216) by done.
  assert (Hz : zlen (slice frame off stop) = stop - off) by (rewrite zlen_slice; lia).
  pose proof (add_refines st _ mid off (zlen frame) (slice frame off stop) t Hr) as Ha.
  unfold mbind at 1. destruct (add _ t st) as [st1 r1]. cbn [spec_add] in Ha.
  assert (H0 : zlen (slice frame 0 off) = off) by (rewrite zlen_slice; lia).
  rewrite H0, Hz, !Z.eqb_refl in Ha. rewrite slice_cut in Ha by lia.
  rewrite (zlen_slice _ 0 stop) in Ha by lia.
  rewrite (proj2 (Z.ltb_ge _ _) Ht0) in Ha.
  rewrite (proj2 (Z.leb_gt _ _)), (proj2 (Z.ltb_ge MAX_DIRECT_FRAME_SIZE _)) in Ha by lia.
  rewrite (proj2 (Z.ltb_ge (zlen frame) _)) in Ha by lia. cbn [orb negb] in Ha.
  destruct (stop - 0 =? zlen frame) eqn:Es; guards;
    destruct Ha as [Hr1 ->]; try (repeat split; try lia; by apply Forall_slice).
  - inversion Hfr; subst; [|lia]. destruct times; [|done]. cbn [represents] in Hr1. subst st1.
    rewrite (slice_all frame 0 stop) by lia. done.
  - assert (Hstop : stop = off + FRAGMENT_DATA_SIZE) by lia.
    rewrite Hstop in Hr1. specialize (IH ltac:(lia) ltac:(lia) times st1 ltac:(lia) Hts Hr1).
    unfold mbind. rewrite IH. mrun. do 2 f_equal.
    destruct rest; [inversion Hfr; lia|]. cbn [length].
    replace (S (S (length rest)) - 1)%nat with (S (length rest)) by lia.
    by replace (S (length rest) - 1)%nat with (length rest) by lia.
Qed.

(** Every string of a legal size is a fragment. *)
Lemma fragment_parse_any f :
  bytes_ok f -> FRAGMENT_HEADER_SIZE < zlen f <= MAX_DIRECT_RECORD_PLAINTEXT ->
  let mid := be_val (slice f 0 8) in
  let off := be_val (slice f 8 12) in
  let tot := be_val (slice f 12 16) in
  f = fragment_bytes mid off tot (slice_from f 16) /\ fragment_ok mid off tot (slice_from f 16).
Proof.
  unfold FRAGMENT_HEADER_SIZE, MAX_DIRECT_RECORD_PLAINTEXT. intros Hb Hl. cbv zeta.
  assert (Hs : forall i j, 0 <= i <= j -> j <= 16 ->
    be_bytes (Z.to_nat (j - i)) (be_val (slice f i j)) = slice f i j /\
    0 <= be_val (slice f i j) < 256 ^ (j - i)).
  { intros i j Hij Hj. assert (Hz : zlen (slice f i j) = j - i) by (rewrite zlen_slice; lia).
    assert (Ho : bytes_ok (slice f i j)) by (by apply Forall_slice). split.
    - apply be_bytes_be_val_len; [done|]. unfold zlen in Hz. lia.
    - rewrite <- Hz. by apply be_val_bound. }
  destruct (Hs 0 8) as [E1 B1]; [lia..|]. destruct (Hs 8 12) as [E2 B2]; [lia..|].
  destruct (Hs 12 16) as [E3 B3]; [lia..|]. split.
  - unfold fragment_bytes. change 8%nat with (Z.to_nat (8 - 0)). rewrite E1.
    change 4%nat with (Z.to_nat (12 - 8)) at 1. rewrite E2.
    change 4%nat with (Z.to_nat (16 - 12)). rewrite E3.
    rewrite <- slice_to_end, !slice_cut by lia. by rewrite slice_all by lia.
  - unfold fragment_ok, FRAGMENT_DATA_SIZE, FRAGMENT_HEADER_SIZE, MAX_DIRECT_RECORD_PLAINTEXT.
    split_and!; try lia; [by apply Forall_slice_from|..]; rewrite zlen_slice_from; lia.
Qed.

Lemma add_refines_step st p f now :
  represents st p -> bytes_ok f ->
  let '(st', r) := add f now st in
  let '(p', r') := spec_step p f now in
  represents st' p' /\ r = r'.
Proof.
  intros Hr Hb. unfold spec_step.
  destruct ((zlen f <=? FRAGMENT_HEADER_SIZE) || (MAX_DIRECT_RECORD_PLAINTEXT <? zlen f))%bool eqn:E.
  - destruct p as [|mid tot t0 received]; cbn [represents] in Hr.
    + subst st. unfold add. run. rewrite bool_decide_eq_false_2 by apply is_Some_None.
      cbn [andb]. by rewrite E.
    + destruct Hr as (Ht & Hl & ->). unfold add. run.
      rewrite bool_decide_eq_true_2 by done. cbn [andb].
      destruct (_ <? now - t0); [done|]. by rewrite E.
  - apply orb_false_elim in E as [E1 E2]. guards.
    destruct (fragment_parse_any f Hb) as [Ef Hf]; [lia|].
    pose proof (add_refines st p _ _ _ _ now Hr Hf) as Ha. rewrite <- Ef in Ha.
    destruct (add f now st) as [st' r]. destruct p as [|mid tot t0 received]; [exact Ha|].
    cbn [spec_add] in *. destruct (_ <? now - t0); exact Ha.
Qed.

(** ** Properties *)

(** What an accepted frame is fragmented into. *)
Lemma fragmentDirectFrame_ok mid frame frags :
  fragmentDirectFrame mid frame = Ok frags ->
  0 <= mid < 2 ^ 64 /\ MAX_DIRECT_RECORD_PLAINTEXT < zlen frame <= MAX_DIRECT_FRAME_SIZE /\
  frags_from mid frame 0 frags.
Proof.
  unfold fragmentDirectFrame. intros E. inv_ok. pose proof (zlen_nonneg frame).
  destruct (fragment_loop_frags (length frame) mid frame 0 []) as (frags' & E' & Hfr);
    [lia|unfold zlen; lia|]. rewrite E' in E. cbn [app] in E. inv_ok. by split_and!; try lia.
Qed.

(** The fragments of a frame, added in time, give the frame. *)
Lemma fragments_add_all mid frame frags t0 times :
  bytes_ok frame -> fragmentDirectFrame mid frame = Ok frags ->
  length (t0 :: times) = length frags ->
  Forall (fun t => t - t0 <= DIRECT_REASSEMBLY_TIMEOUT_MS) times ->
  add_all (combine frags (t0 :: times)) new_reassembler
  = (new_reassembler, Ok (replicate (length frags - 1) None ++ [Some frame])).
Proof.
  intros Hframe Hok Hlen Hts. apply fragmentDirectFrame_ok in Hok as (Hm & Hz0 & Hfr).
  assert (Hd : MAX_DIRECT_RECORD_PLAINTEXT = 16384) by done.
  assert (Hx : FRAGMENT_DATA_SIZE = 16368) by done.
  inversion Hfr as [|? rest H0 Hrest]; subst; [lia|]. rewrite Z.add_0_l in *.
  rewrite Z.min_r in * by lia. cbn [combine add_all]. unfold mbind at 1.
  assert (Hz : zlen (slice frame 0 FRAGMENT_DATA_SIZE) = FRAGMENT_DATA_SIZE)
    by (rewrite zlen_slice; lia).
  pose proof (add_refines new_reassembler Idle mid 0 (zlen frame)
                (slice frame 0 FRAGMENT_DATA_SIZE) t0 eq_refl) as Ha.
  destruct (add _ t0 new_reassembler) as [st1 r1]. cbn [spec_add] in Ha.
  rewrite (proj2 (Z.leb_gt _ _)), (proj2 (Z.ltb_ge MAX_DIRECT_FRAME_SIZE _)) in Ha by lia.
  rewrite (proj2 (Z.ltb_ge (zlen frame) _)) in Ha by lia.
  cbn [orb negb Z.eqb app] in Ha. rewrite Hz in Ha.
  rewrite (proj2 (Z.eqb_neq _ _)) in Ha by lia.
  assert (Hmx : MAX_DIRECT_FRAME_SIZE = 16777216) by done.
  destruct Ha as [Hr1 ->]; [repeat split; try lia; by apply Forall_slice|].
  unfold mbind. rewrite (add_all_frags mid frame FRAGMENT_DATA_SIZE rest times t0 st1);
    try done; try lia; [|by injection Hlen].
  mrun. do 2 f_equal. destruct rest; [inversion Hrest; lia|]. cbn [length].
  replace (S (S (length rest)) - 1)%nat with (S (length rest)) by lia.
  by replace (S (length rest) - 1)%nat with (length rest) by lia.
Qed.

(** Fragmentation round trip: a frame of more than 16 KiB and at most
    16 MiB splits (the loop terminates) into fragments that each fit one
    record, and feeding them in order to a fresh reassembler within the
    timeout returns nothing until the last, then the very frame, and leaves
    the reassembler fresh. Any other frame size or message id is refused. *)
Theorem fragment_reassemble (mid : Z) (frame : bytes) (Hframe : bytes_ok frame) :
  match fragmentDirectFrame mid frame with
  | Throw _ =>
      ~ (0 <= mid < 2 ^ 64 /\ MAX_DIRECT_RECORD_PLAINTEXT < zlen frame <= MAX_DIRECT_FRAME_SIZE)
  | Ok frags =>
      Forall (fun f => zlen f <= MAX_DIRECT_RECORD_PLAINTEXT) frags /\
      forall t0 times, length (t0 :: times) = length frags ->
        Forall (fun t => t - t0 <= DIRECT_REASSEMBLY_TIMEOUT_MS) times ->
        add_all (combine frags (t0 :: times)) new_reassembler
        = (new_reassembler, Ok (replicate (length frags - 1) None ++ [Some frame]))
  end.
Proof.
  destruct (fragmentDirectFrame mid frame) as [frags|m] eqn:E.
  - split; [|by intros t0 times; apply (fragments_add_all mid)].
    apply fragmentDirectFrame_ok in E as (_ & _ & Hfr). by apply (frags_size mid frame 0).
  - unfold fragmentDirectFrame in E.
    destruct (_ || _)%bool eqn:Em; [apply orb_prop in Em as [?|?]; guards; lia|].
    split_guard_in E; [lia|]. split_guard_in E; [lia|]. pose proof (zlen_nonneg frame).
    destruct (fragment_loop_frags (length frame) mid frame 0 []) as (frags & E' & _);
      [lia|unfold zlen; lia|]. by rewrite E' in E.
Qed.

Lemma fragment_reassemble_witness :
  let frame := replicate (Z.to_nat 16390) 7 in
  bytes_ok frame /\ exists frags, fragmentDirectFrame 9 frame = Ok frags /\ length frags = 2%nat /\
    add_all (combine frags [100; 200]) new_reassembler = (new_reassembler, Ok [None; Some frame]).
Proof.
  cbv zeta.
  assert (H : bytes_ok (replicate (Z.to_nat 16390) 7)) by (apply (bool_decide_eq_true_1 (bytes_ok _)); by vm_compute).
  split; [exact H|]. pose proof (fragment_reassemble 9 (replicate (Z.to_nat 16390) 7) H) as S.
  assert (L : match fragmentDirectFrame 9 (replicate (Z.to_nat 16390) 7) with
              | Ok frags => length frags | Throw _ => O end = 2%nat) by (vm_compute; reflexivity).
  destruct (fragmentDirectFrame 9 (replicate (Z.to_nat 16390) 7)) as [frags|m];
    [|discriminate L].
  exists frags. split; [reflexivity|]. split; [exact L|]. destruct S as [_ S].
  specialize (S 100 [200]). rewrite L in S. apply S; [reflexivity|].
  constructor; [|constructor]. unfold DIRECT_REASSEMBLY_TIMEOUT_MS. lia.
Defined.

(** C38. The reassembler implements its specification on every input: for any
    sequence of received byte strings and arrival times, each call returns or
    throws exactly what the abstract collector does, and the fields keep
    representing the abstract state (so the buffer never exceeds 16 MiB, is
    only ever filled in order by one message, and a returned frame is the
    concatenation of that message's chunks). *)
Theorem reassembler_refines (l : list (bytes * Z)) (Hl : Forall (fun x => bytes_ok x.1) l) :
  let '(st, rs) := feed (fun st f now => add f now st) new_reassembler l in
  let '(p, rs') := feed spec_step Idle l in
  represents st p /\ rs = rs'.
Proof.
  assert (G : forall st p, represents st p ->
    let '(st, rs) := feed (fun st f now => add f now st) st l in
    let '(p, rs') := feed spec_step p l in
    represents st p /\ rs = rs').
  { induction Hl as [|[f now] l Hf _ IH]; intros st p Hr; cbn [feed]; [done|].
    pose proof (add_refines_step st p f now Hr Hf) as Ha.
    destruct (add f now st) as [st1 r1], (spec_step p f now) as [p1 r1'].
    destruct Ha as [Hr1 ->]. specialize (IH _ _ Hr1).
    destruct (feed _ st1 l), (feed _ p1 l). by destruct IH as [? ->]. }
  by apply G.
Qed.

Lemma reassembler_refines_witness :
  let l := [([1; 2; 3], 0); (fragment_bytes 5 4 20000 [1], 10); (fragment_bytes 5 0 20000 [1; 2], 20);
            (fragment_bytes 5 3 20000 [1], 30); (fragment_bytes 5 2 20000 [3], 40);
            (fragment_bytes 5 3 20000 [4], 20000)] in
  Forall (fun x => bytes_ok x.1) l /\
  (let '(st, rs) := feed (fun st f now => add f now st) new_reassembler l in
   let '(p, rs') := feed spec_step Idle l in
   represents st p /\ rs = rs' /\
   rs = [Throw "invalid direct fragment size"; Throw "invalid direct fragment offset"; Ok None;
         Throw "direct fragment ordering mismatch"; Ok None; Throw "direct reassembly timeout"]).
Proof.
  cbv zeta. set (l := [_; _; _; _; _; _]).
  assert (H : Forall (fun x => bytes_ok x.1) l) by (apply (bool_decide_eq_true_1 (Forall _ _)); by vm_compute).
  split; [exact H|]. pose proof (reassembler_refines l H) as S. revert S.
  destruct (feed (fun st f now => add f now st) new_reassembler l) as [st rs] eqn:E1.
  destruct (feed spec_step Idle l) as [p rs'] eqn:E2. intros [S1 S2]. split; [exact S1|].
  split; [exact S2|]. rewrite S2. apply (f_equal snd) in E2. cbn [snd] in E2. rewrite <- E2.
  by vm_compute.
Defined.
