(* ===== verification/DirectRoute.v ===== *)
(** * The route tracker ([src/desktop/frontend/src/lib/directRoute.ts])

    [DirectRouteTracker] holds, for one session, the route state, the
    generation that transport callbacks must carry, the output cursor and the
    position of the direct replay. Each method is a function of these fields;
    [run] plays any sequence of calls against one tracker. *)

From Stdlib Require Import Sorted.
From S2P Require Import Prelude Bytes.

Inductive DirectRoute := Route_None | Route_Relay | Route_Direct.

Inductive DirectRouteState :=
  | RelayAttached | DirectConnecting | DirectReplay | DirectActive | RelayReattaching.

#[export] Instance DirectRoute_eq_dec : EqDecision DirectRoute.
Proof. solve_decision. Defined.
#[export] Instance DirectRouteState_eq_dec : EqDecision DirectRouteState.
Proof. solve_decision. Defined.

Record DirectRouteTracker := mkTracker {
  routeState : DirectRouteState;
  routeGeneration : Z;
  lastCommittedSeq : Z;
  directStartSeq : Z;
  directObservedSeq : Z;
  directReady : bool;
}.

#[export] Instance eta_tracker : Eta DirectRouteTracker :=
  fun t => mkTracker (routeState t) (routeGeneration t) (lastCommittedSeq t) (directStartSeq t)
             (directObservedSeq t) (directReady t).

Definition new_tracker (committedSeq : Z) : DirectRouteTracker :=
  mkTracker RelayAttached 1 committedSeq 0 0 false.

Definition state_is (t : DirectRouteTracker) (s : DirectRouteState) : bool :=
  bool_decide (routeState t = s).

Definition invalid_transition : string := "invalid direct route transition".

Definition requireGeneration (generation : Z) : method DirectRouteTracker unit :=
  do* this := mget in
  guard_throw (negb (generation =? routeGeneration this)) "stale direct route generation" ;;;
  mret tt.

Definition beginDirect : method DirectRouteTracker Z :=
  do* this := mget in
  guard_throw (negb (state_is this RelayAttached)) invalid_transition ;;;
  do* _ := mput (this <| routeState := DirectConnecting |>
                      <| directStartSeq := lastCommittedSeq this |>
                      <| directObservedSeq := lastCommittedSeq this |>
                      <| directReady := false |>) in
  mret (routeGeneration this).

Definition beginDirectReplay (generation : Z) : method DirectRouteTracker unit :=
  do* _ := requireGeneration generation in
  do* this := mget in
  guard_throw (negb (state_is this DirectConnecting)) invalid_transition ;;;
  mput (this <| routeState := DirectReplay |>).

Definition noteDirectReady (generation replayedSeq : Z) : method DirectRouteTracker unit :=
  do* _ := requireGeneration generation in
  do* this := mget in
  guard_throw (negb (state_is this DirectReplay) || negb (isSafeInteger replayedSeq)
               || (replayedSeq <? directStartSeq this)) invalid_transition ;;;
  mput (this <| directObservedSeq := Z.max (directObservedSeq this) replayedSeq |>
             <| directReady := true |>).

Definition canActivateDirect (generation : Z) (t : DirectRouteTracker) : bool :=
  (generation =? routeGeneration t) && state_is t DirectReplay && directReady t
  && (lastCommittedSeq t <=? directObservedSeq t).

Definition activateDirect (generation : Z) : method DirectRouteTracker unit :=
  do* _ := requireGeneration generation in
  do* this := mget in
  guard_throw (negb (canActivateDirect generation this)) invalid_transition ;;;
  mput (this <| routeState := DirectActive |>).

Definition abortDirect (generation : Z) : method DirectRouteTracker unit :=
  do* _ := requireGeneration generation in
  do* this := mget in
  guard_throw (negb (state_is this DirectConnecting) && negb (state_is this DirectReplay))
    invalid_transition ;;;
  mput (this <| routeGeneration := routeGeneration this + 1 |> <| routeState := RelayAttached |>).

Definition directLost (generation : Z) : method DirectRouteTracker Z :=
  do* _ := requireGeneration generation in
  do* this := mget in
  guard_throw (negb (state_is this DirectActive)) invalid_transition ;;;
  do* _ := mput (this <| routeGeneration := routeGeneration this + 1 |>
                      <| routeState := RelayReattaching |>) in
  mret (routeGeneration this + 1).

Definition relayAttached (generation : Z) : method DirectRouteTracker unit :=
  do* _ := requireGeneration generation in
  do* this := mget in
  guard_throw (negb (state_is this RelayReattaching)) invalid_transition ;;;
  mput (this <| routeState := RelayAttached |>).

Definition inputRoute (t : DirectRouteTracker) : DirectRoute :=
  match routeState t with
  | RelayAttached | DirectConnecting | DirectReplay => Route_Relay
  | DirectActive => Route_Direct
  | RelayReattaching => Route_None
  end.

(** The [switch] shared by [acceptOutput] and [acceptsRoute]. *)
Definition route_allowed (s : DirectRouteState) (route : DirectRoute) : bool :=
  match s with
  | RelayAttached | DirectConnecting | RelayReattaching => bool_decide (route = Route_Relay)
  | DirectReplay => bool_decide (route = Route_Relay) || bool_decide (route = Route_Direct)
  | DirectActive => bool_decide (route = Route_Direct)
  end.

Definition acceptOutput (generation : Z) (route : DirectRoute) (seq : Z)
    : method DirectRouteTracker bool :=
  do* this := mget in
  if negb (generation =? routeGeneration this) || (seq <=? 0) then mret false
  else if negb (route_allowed (routeState this) route) then mret false
  else
    let this :=
      if bool_decide (route = Route_Direct) && state_is this DirectReplay
      then this <| directObservedSeq := Z.max (directObservedSeq this) seq |>
      else this in
    do* _ := mput this in
    if seq <=? lastCommittedSeq this then mret false
    else
      do* _ := mput (this <| lastCommittedSeq := seq |>) in
      mret true.

Definition acceptsRoute (generation : Z) (route : DirectRoute) (t : DirectRouteTracker) : bool :=
  if negb (generation =? routeGeneration t) then false else route_allowed (routeState t) route.

(** ** Runs: any sequence of method calls *)

Inductive Call :=
  | CBeginDirect
  | CBeginDirectReplay (generation : Z)
  | CNoteDirectReady (generation replayedSeq : Z)
  | CActivateDirect (generation : Z)
  | CAbortDirect (generation : Z)
  | CDirectLost (generation : Z)
  | CRelayAttached (generation : Z)
  | CAcceptOutput (generation : Z) (route : DirectRoute) (seq : Z).

(** The generation a call carries. *)
Definition call_generation (c : Call) : option Z :=
  match c with
  | CBeginDirect => None
  | CBeginDirectReplay g | CNoteDirectReady g _ | CActivateDirect g | CAbortDirect g
  | CDirectLost g | CRelayAttached g | CAcceptOutput g _ _ => Some g
  end.

(** The state after a call, and the sequence number it let through. *)
Definition call_step (c : Call) (t : DirectRouteTracker) : DirectRouteTracker * option Z :=
  match c with
  | CBeginDirect => (fst (beginDirect t), None)
  | CBeginDirectReplay g => (fst (beginDirectReplay g t), None)
  | CNoteDirectReady g r => (fst (noteDirectReady g r t), None)
  | CActivateDirect g => (fst (activateDirect g t), None)
  | CAbortDirect g => (fst (abortDirect g t), None)
  | CDirectLost g => (fst (directLost g t), None)
  | CRelayAttached g => (fst (relayAttached g t), None)
  | CAcceptOutput g r s =>
      match acceptOutput g r s t with
      | (t', Ok true) => (t', Some s)
      | (t', _) => (t', None)
      end
  end.

Fixpoint run (calls : list Call) (t : DirectRouteTracker) : DirectRouteTracker * list Z :=
  match calls with
  | [] => (t, [])
  | c :: rest =>
      let '(t1, o) := call_step c t in
      let '(t2, delivered) := run rest t1 in
      (t2, match o with Some s => s :: delivered | None => delivered end)
  end.

(** The edges of the route's state machine. *)
Inductive route_edge : DirectRouteState -> DirectRouteState -> Prop :=
  | edge_connect : route_edge RelayAttached DirectConnecting
  | edge_replay : route_edge DirectConnecting DirectReplay
  | edge_activate : route_edge DirectReplay DirectActive
  | edge_abort_connecting : route_edge DirectConnecting RelayAttached
  | edge_abort_replay : route_edge DirectReplay RelayAttached
  | edge_lost : route_edge DirectActive RelayReattaching
  | edge_reattached : route_edge RelayReattaching RelayAttached.

(** The output the direct route has shown covers the committed output. *)
Definition caught_up (t : DirectRouteTracker) : Prop :=
  directReady t = true /\ lastCommittedSeq t <= directObservedSeq t.

(** ** Lemmas *)

Ltac tracker_run :=
  mrun; cbn [routeState routeGeneration lastCommittedSeq directStartSeq directObservedSeq
             directReady fst snd].

(** Unfolds the method of a call and splits on its guards. *)
Ltac tracker_cases c :=
  destruct c; cbn [call_step];
  unfold beginDirect, beginDirectReplay, noteDirectReady, activateDirect, abortDirect, directLost,
    relayAttached, acceptOutput, requireGeneration, canActivateDirect, state_is in *;
  tracker_run; repeat (split_guard; tracker_run).

(** A call keeps the state and the generation, or moves along one edge; the
    generation never decreases. *)
Lemma call_step_edge c t :
  let t' := fst (call_step c t) in
  (routeState t' = routeState t /\ routeGeneration t' = routeGeneration t) \/
  (route_edge (routeState t) (routeState t') /\
   routeGeneration t <= routeGeneration t' <= routeGeneration t + 1).
Proof.
  cbv zeta. destruct t as [s g l ds do r]. tracker_cases c; cbn [fst]; try (by left);
    try (right; split; [|lia]); guards; subst; try constructor.
  destruct s; try discriminate; constructor.
Qed.

(** The committed cursor moves exactly when an output is let through. *)
Lemma call_step_deliver c t :
  let '(t', o) := call_step c t in
  match o with
  | Some s => lastCommittedSeq t < s /\ lastCommittedSeq t' = s /\
      exists g r, c = CAcceptOutput g r s /\ acceptsRoute g r t = true
  | None => lastCommittedSeq t' = lastCommittedSeq t
  end.
Proof.
  destruct t as [st g l ds do r]. unfold acceptsRoute.
  tracker_cases c; cbn [fst]; try done; guards.
  all: split; [lia|]; split; [done|]; eexists _, _; split; [done|]; cbn [routeGeneration routeState].
  all: subst; rewrite Z.eqb_refl; done.
Qed.

(** A call that carries another generation does nothing. *)
Lemma call_step_stale c t g :
  call_generation c = Some g -> g <> routeGeneration t -> call_step c t = (t, None).
Proof.
  intros Hg Hne. destruct t as [s gen l ds do r]. cbn [routeGeneration] in Hne.
  destruct c; cbn [call_generation] in Hg; inv_ok; cbn [call_step];
    unfold beginDirectReplay, noteDirectReady, activateDirect, abortDirect, directLost,
      relayAttached, acceptOutput, requireGeneration; tracker_run;
    rewrite (proj2 (Z.eqb_neq _ _) Hne); done.
Qed.

Lemma run_cons c calls t :
  run (c :: calls) t =
  (fst (run calls (fst (call_step c t))),
   match snd (call_step c t) with
   | Some s => s :: snd (run calls (fst (call_step c t)))
   | None => snd (run calls (fst (call_step c t)))
   end).
Proof. cbn [run]. destruct (call_step c t) as [t1 o]. cbn [fst snd]. by destruct (run calls t1). Qed.

Lemma run_generation calls t : routeGeneration t <= routeGeneration (fst (run calls t)).
Proof.
  revert t. induction calls as [|c calls IH]; intros t; [cbn; lia|].
  rewrite run_cons. cbn [fst]. pose proof (IH (fst (call_step c t))).
  pose proof (call_step_edge c t) as [[_ ?]|[_ ?]]; lia.
Qed.

(** ** Properties *)

(** Exactly-once, in-order output across route switches: whatever the
    sequence of route operations and of outputs offered by the Relay and the
    direct route, the sequence numbers let through are strictly increasing,
    all above the cursor at the start, and the cursor ends at the last one. *)
Theorem output_exactly_once (calls : list Call) (t : DirectRouteTracker) :
  let '(t', delivered) := run calls t in
  StronglySorted Z.lt delivered /\
  Forall (fun s => lastCommittedSeq t < s <= lastCommittedSeq t') delivered /\
  lastCommittedSeq t' = List.last delivered (lastCommittedSeq t).
Proof.
  revert t. induction calls as [|c calls IH]; intros t; [cbn; by repeat constructor|].
  rewrite run_cons. set (t1 := fst (call_step c t)).
  pose proof (call_step_deliver c t) as Hd. specialize (IH t1).
  destruct (run calls t1) as [t2 d]. cbn [fst snd]. destruct IH as (IH1 & IH2 & IH3).
  destruct (call_step c t) as [tx o] eqn:Ec. cbn [fst] in t1. subst t1. cbn [snd].
  destruct o as [s|].
  - destruct Hd as (H1 & H2 & _). rewrite H2 in *.
    assert (Hs : s <= lastCommittedSeq t2).
    { rewrite IH3. clear -IH2. induction d as [|x d IH] using rev_ind; [cbn; lia|].
      rewrite last_last. apply Forall_app in IH2 as [_ Hx]. apply Forall_cons in Hx as [Hx _]. lia. }
    split_and!.
    + constructor; [done|]. eapply Forall_impl; [exact IH2|]. cbn. lia.
    + constructor; [lia|]. eapply Forall_impl; [exact IH2|]. cbn. lia.
    + by rewrite IH3, last_cons_default.
  - rewrite Hd in *. done.
Qed.

(** Late callbacks cannot affect a replacement route: once a direct
    attempt is aborted or lost under generation [g], every later call that
    carries [g] changes nothing and lets no output through, whatever calls
    happened in between. *)
Theorem retired_generation_isolated (g : Z) (t t' : DirectRouteTracker)
    (Hretired : abortDirect g t = (t', Ok tt) \/ exists n, directLost g t = (t', Ok n)) :
  forall between late, call_generation late = Some g ->
    let t'' := fst (run between t') in call_step late t'' = (t'', None).
Proof.
  assert (Hg : routeGeneration t' = g + 1).
  { revert Hretired. unfold abortDirect, directLost, requireGeneration, state_is. destruct t as [s gen l ds do r].
    tracker_run. destruct (g =? gen) eqn:E; cbn [negb]; tracker_run;
      [guards; subst|by intros [?|[n ?]]; discriminate].
    intros [E|[n E]]; revert E; split_guard; tracker_run; intros E; try discriminate E;
      by injection E as <-. }
  intros between late Hlate. cbv zeta. eapply call_step_stale; [exact Hlate|].
  pose proof (run_generation between t'). lia.
Qed.

Lemma retired_generation_isolated_witness :
  let t := mkTracker DirectReplay 1 7 5 6 false in
  let t' := mkTracker RelayAttached 2 7 5 6 false in
  abortDirect 1 t = (t', Ok tt) /\
  (let t'' := fst (run [CBeginDirect; CBeginDirectReplay 2] t') in
   call_step (CAcceptOutput 1 Route_Direct 9) t'' = (t'', None)) /\
  snd (run [CBeginDirect; CBeginDirectReplay 2; CAcceptOutput 2 Route_Direct 9] t') = [9].
Proof.
  cbv zeta. split; [reflexivity|]. split; [|reflexivity].
  apply (retired_generation_isolated 1 (mkTracker DirectReplay 1 7 5 6 false)
           (mkTracker RelayAttached 2 7 5 6 false)); [left; reflexivity|reflexivity].
Defined.

(** Route safety of one call: the state stays or follows an edge of the
    machine; the direct route becomes active only through [activateDirect]
    under the current generation, from the replay, with every committed output
    already replayed; only [directLost] leaves it; and an output is let through
    only on a route that [acceptsRoute] admits, the direct one never before
    the replay. *)
Theorem route_machine_safe (c : Call) (t : DirectRouteTracker) :
  let '(t', o) := call_step c t in
  (routeState t' = routeState t \/ route_edge (routeState t) (routeState t')) /\
  (routeState t <> DirectActive -> routeState t' = DirectActive ->
     c = CActivateDirect (routeGeneration t) /\ routeState t = DirectReplay /\ caught_up t) /\
  (routeState t = DirectActive -> routeState t' <> DirectActive ->
     c = CDirectLost (routeGeneration t) /\ inputRoute t' = Route_None /\
     routeGeneration t' = routeGeneration t + 1) /\
  (forall s, o = Some s -> exists g r, c = CAcceptOutput g r s /\ acceptsRoute g r t = true /\
     (r = Route_Direct -> routeState t = DirectReplay \/ routeState t = DirectActive)).
Proof.
  pose proof (call_step_edge c t) as He. pose proof (call_step_deliver c t) as Hd.
  destruct (call_step c t) as [t' o] eqn:E. cbn [fst] in He. split; [by destruct He as [[? _]|[? _]]; auto|].
  assert (Ho : forall s, o = Some s -> exists g r, c = CAcceptOutput g r s /\
    acceptsRoute g r t = true /\
    (r = Route_Direct -> routeState t = DirectReplay \/ routeState t = DirectActive)).
  { intros s ->. destruct Hd as (_ & _ & g & r & -> & Hr). eexists _, _.
    split; [done|]. split; [done|]. intros ->. unfold acceptsRoute in Hr.
    split_guard_in Hr; [done|]. destruct (routeState t); auto; discriminate. }
  split; [|split; [|exact Ho]]; clear He Hd Ho; destruct t as [s g l ds do r];
    unfold caught_up; cbn [routeState routeGeneration]; revert E; tracker_cases c;
    intros E; injection E as <- <-; cbn [routeState directReady lastCommittedSeq directObservedSeq];
    try congruence; intros; guards; subst; try congruence; try discriminate; auto 6.
Qed.
