(* ===== verification/DirectHandshake.v ===== *)
(** * The browser half of the direct handshake, and its record codec
      ([src/desktop/frontend/src/lib/directHandshake.ts])

    [DirectClientHandshake] is a one-way state machine over its private
    fields. [handleHostHello] awaits the ECDH result, so it is two methods:
    the part before the [await] and the continuation, between which other
    methods may run. [DirectClientRecordCodec] numbers the records of each
    direction. *)

From S2P Require Import Prelude Bytes JsString Base64Url DirectCrypto DirectFraming.

Definition HANDSHAKE_VERSION : Z := 1.
Definition CLIENT_HELLO_KIND : Z := 1.
Definition HOST_HELLO_KIND : Z := 2.
Definition CLIENT_FINISH_KIND : Z := 3.
Definition AUTH_OK_KIND : Z := 4.
Definition P256_PUBLIC_KEY_SIZE : Z := 65.
Definition PROOF_SIZE : Z := 32.
Definition CLIENT_HELLO_SIZE : Z := 2 + 16 + 32 + P256_PUBLIC_KEY_SIZE.
Definition HOST_HELLO_SIZE : Z := 2 + P256_PUBLIC_KEY_SIZE + PROOF_SIZE.
Definition CLIENT_FINISH_SIZE : Z := 2 + PROOF_SIZE + PROOF_SIZE.

Record DirectAuthorization := mkAuthorization {
  auth_attemptId : jsstr;
  auth_ticket : bytes;
  auth_sessionId : jsstr;
  auth_userId : jsstr;
  auth_hostId : jsstr;
  auth_clientInstanceId : jsstr;
  auth_permission : Z;
  auth_expiresAtUnixMs : Z;
}.

Record DirectHandshakeKeys := mkHandshakeKeys {
  traffic : DirectTrafficKeys;
  transcriptHash : bytes;
}.

(** [uuidBytes] of this file: any placement of the dashes. *)
Definition uuidBytes_loose (value : jsstr) : result bytes :=
  let compact := remove_char 45 value in
  throw_if (negb ((zlen compact =? 32) && forallb is_hex compact)) "invalid direct attempt UUID" ;;;
  Ok (hex_fill 16 0 compact (zeros 16)).

(** [difference |= left[i] ^ right[i]] over equal lengths. *)
Fixpoint xor_difference (left right : bytes) (difference : Z) : Z :=
  match left, right with
  | l :: left', r :: right' => xor_difference left' right' (Z.lor difference (Z.lxor l r))
  | _, _ => difference
  end.

Definition equalBytes (left right : bytes) : bool :=
  if negb (zlen left =? zlen right) then false else xor_difference left right 0 =? 0.

Inductive ClientHandshakeState := AwaitHostHello | AwaitAuthOK | Complete.

#[export] Instance ClientHandshakeState_eq_dec : EqDecision ClientHandshakeState.
Proof. solve_decision. Defined.

(** The P-256 operations of WebCrypto: a private key handle, and the shared
    secret, or [None] when the browser rejects the peer's point. *)
Class WebCrypto := {
  Jwk : Type;
  p256_shared : Jwk -> bytes -> option bytes;
}.

Definition fill0 (p : bytes) : bytes := zeros (zlen p).

Section Handshake.
Context `{Crypto} `{WebCrypto}.

Record DirectClientHandshake := mkHandshake {
  state : ClientHandshakeState;
  keys : option DirectHandshakeKeys;
  helloSent : bool;
  privateJWK : option Jwk;
  accountKey : bytes;
  authorization : DirectAuthorization;
  clientKey : bytes;
}.

#[export] Instance eta_handshake : Eta DirectClientHandshake :=
  fun h => mkHandshake (state h) (keys h) (helloSent h) (privateJWK h) (accountKey h)
             (authorization h) (clientKey h).

(** [DirectClientHandshake.create]; [now] is [Date.now()], [publicKey] and
    [jwk] the exported key pair that WebCrypto generated. *)
Definition create (auth : DirectAuthorization) (account_key : bytes) (now : Z)
    (publicKey : bytes) (jwk : Jwk) : result DirectClientHandshake :=
  throw_if (negb (zlen account_key =? 32)) "direct handshake requires a 32-byte account_key" ;;;
  throw_if (negb (zlen (auth_ticket auth) =? 32)) "direct ticket must be 32 bytes" ;;;
  throw_if (auth_expiresAtUnixMs auth <=? now) "direct authorization expired" ;;;
  throw_if (negb (zlen publicKey =? P256_PUBLIC_KEY_SIZE)) "invalid generated P-256 public key" ;;;
  Ok (mkHandshake AwaitHostHello None false (Some jwk) account_key auth publicKey).

Definition clientHello : method DirectClientHandshake bytes :=
  do* this := mget in
  guard_throw (negb (bool_decide (state this = AwaitHostHello)) || helloSent this)
    "direct CLIENT_HELLO already sent" ;;;
  do* _ := mput (this <| helloSent := true |>) in
  do* attempt := mlift (uuidBytes_loose (auth_attemptId (authorization this))) in
  mlift (concatBytes [[HANDSHAKE_VERSION; CLIENT_HELLO_KIND]; attempt;
                      auth_ticket (authorization this); clientKey this]).

(** The transcript of this attempt with a host key. *)
Definition transcript_of (auth : DirectAuthorization) (client_key host_key : bytes)
    : DirectTranscript :=
  mkTranscript (auth_attemptId auth) (auth_ticket auth) (auth_sessionId auth) (auth_userId auth)
    (auth_hostId auth) (auth_clientInstanceId auth) (auth_permission auth)
    (auth_expiresAtUnixMs auth) client_key host_key.

(** What the suspended [handleHostHello] holds across the [await]. *)
Record PendingHello := mkPending {
  pend_jwk : Jwk;
  pend_hostKey : bytes;
  pend_transcript : bytes;
}.

(** [handleHostHello] up to [await deriveP256SharedSecret(...)]. *)
Definition handleHostHello (message : bytes) : method DirectClientHandshake PendingHello :=
  do* this := mget in
  guard_throw (negb (bool_decide (state this = AwaitHostHello)) || negb (helloSent this))
    "unexpected direct HOST_HELLO" ;;;
  guard_throw (negb (zlen message =? HOST_HELLO_SIZE)
               || negb (bool_decide (idx message 0 = Some HANDSHAKE_VERSION))
               || negb (bool_decide (idx message 1 = Some HOST_HELLO_KIND)))
    "malformed direct HOST_HELLO" ;;;
  match privateJWK this with
  | None => mthrow "direct private key unavailable"
  | Some jwk =>
      let hostPublicKey := slice message 2 (2 + P256_PUBLIC_KEY_SIZE) in
      let hostProof := slice_from message (2 + P256_PUBLIC_KEY_SIZE) in
      do* transcript := mlift (marshalDirectTranscript
            (transcript_of (authorization this) (clientKey this) hostPublicKey)) in
      do* expectedProof := mlift (buildDirectProof (accountKey this) transcript DirectRole.Host) in
      guard_throw (negb (equalBytes hostProof expectedProof)) "direct host proof mismatch" ;;;
      mret (mkPending jwk hostPublicKey transcript)
  end.

(** The continuation of [handleHostHello] once the shared secret is known;
    the fields are read again. *)
Definition handleHostHello_resume (p : PendingHello) : method DirectClientHandshake bytes :=
  match p256_shared (pend_jwk p) (pend_hostKey p) with
  | None => mthrow "OperationError"
  | Some sharedSecret =>
      do* this := mget in
      let this := this <| privateJWK := None |> in
      do* _ := mput this in
      do* tk := mlift (deriveDirectTrafficKeys (accountKey this) sharedSecret
                         (pend_transcript p)) in
      let this := this <| keys := Some (mkHandshakeKeys tk (sha256 (pend_transcript p))) |> in
      do* _ := mput this in
      do* clientProof := mlift (buildDirectProof (accountKey this) (pend_transcript p)
                                  DirectRole.Client) in
      do* finishProof := mlift (buildDirectFinishProof (accountKey this) (pend_transcript p)) in
      do* _ := mput (this <| state := AwaitAuthOK |>) in
      mlift (concatBytes [[HANDSHAKE_VERSION; CLIENT_FINISH_KIND]; clientProof; finishProof])
  end.

Definition handleAuthOK (message : bytes) : method DirectClientHandshake DirectHandshakeKeys :=
  do* this := mget in
  guard_throw (negb (bool_decide (state this = AwaitAuthOK))) "unexpected direct AUTH_OK" ;;;
  guard_throw (negb (zlen message =? 2)
               || negb (bool_decide (idx message 0 = Some HANDSHAKE_VERSION))
               || negb (bool_decide (idx message 1 = Some AUTH_OK_KIND)))
    "malformed direct AUTH_OK" ;;;
  match keys this with
  | None => mthrow "malformed direct AUTH_OK"
  | Some k =>
      do* _ := mput (this <| state := Complete |> <| accountKey := fill0 (accountKey this) |>) in
      mret k
  end.

(** [dispose]: the fields after it, and what the key buffers then hold. *)
Definition erase_keys (k : DirectHandshakeKeys) : DirectHandshakeKeys :=
  mkHandshakeKeys
    (mkTrafficKeys (fill0 (clientToHostKey (traffic k))) (fill0 (hostToClientKey (traffic k)))
       (fill0 (clientToHostNoncePrefix (traffic k))) (fill0 (hostToClientNoncePrefix (traffic k))))
    (fill0 (transcriptHash k)).

Definition dispose : method DirectClientHandshake (option DirectHandshakeKeys) :=
  do* this := mget in
  do* _ := mput (this <| privateJWK := None |> <| accountKey := fill0 (accountKey this) |>
                      <| keys := None |>) in
  mret (option_map erase_keys (keys this)).

(** *** The record codec *)

Record DirectClientRecordCodec := mkCodec {
  sendCounter : Z;
  receiveCounter : Z;
  nextMessageId : Z;
  codec_keys : DirectHandshakeKeys;
}.

#[export] Instance eta_codec : Eta DirectClientRecordCodec :=
  fun c => mkCodec (sendCounter c) (receiveCounter c) (nextMessageId c) (codec_keys c).

Definition new_codec (k : DirectHandshakeKeys) : DirectClientRecordCodec := mkCodec 0 0 1 k.

Definition seal (kind : Z) (plaintext : bytes) : method DirectClientRecordCodec bytes :=
  do* this := mget in
  do* record := mlift (sealDirectRecord (clientToHostKey (traffic (codec_keys this)))
                         (clientToHostNoncePrefix (traffic (codec_keys this)))
                         (transcriptHash (codec_keys this)) kind (sendCounter this) plaintext) in
  do* _ := mput (this <| sendCounter := sendCounter this + 1 |>) in
  mret record.

(** [fragments.map((fragment) => this.seal(kind, fragment))] *)
Fixpoint seal_map (kind : Z) (fragments : list bytes)
    : method DirectClientRecordCodec (list bytes) :=
  match fragments with
  | [] => mret []
  | fragment :: rest =>
      do* record := seal kind fragment in
      do* records := seal_map kind rest in
      mret (record :: records)
  end.

Definition sealFrame (frame : bytes) : method DirectClientRecordCodec (list bytes) :=
  if zlen frame <=? MAX_DIRECT_RECORD_PLAINTEXT
  then do* record := seal DirectRecordKind.Frame frame in mret [record]
  else
    do* this := mget in
    do* fragments := mlift (fragmentDirectFrame (nextMessageId this) frame) in
    do* _ := mput (this <| nextMessageId := nextMessageId this + 1 |>) in
    seal_map DirectRecordKind.Fragment fragments.

Definition open (record : bytes) : method DirectClientRecordCodec (Z * bytes) :=
  do* this := mget in
  do* opened := mlift (openDirectRecord (hostToClientKey (traffic (codec_keys this)))
                         (hostToClientNoncePrefix (traffic (codec_keys this)))
                         (transcriptHash (codec_keys this)) (receiveCounter this) record) in
  do* _ := mput (this <| receiveCounter := receiveCounter this + 1 |>) in
  mret opened.
End Handshake.

Definition directPermission (value : jsstr) : result Z :=
  if bool_decide (value = js "view") then Ok DirectPermission.View
  else if bool_decide (value = js "control") then Ok DirectPermission.Control
  else if bool_decide (value = js "full") then Ok DirectPermission.Full
  else Throw "invalid direct permission".

(** The class [A-Za-z0-9_-] of base-64url *)
Definition decodeDirectTicket (value : jsstr) : result bytes :=
  throw_if ((zlen value =? 0) || negb (forallb is_b64url value)) "invalid direct ticket" ;;;
  let standard := replace_char 95 47 (replace_char 45 43 value) in
  let padded := standard ++ replicate (Z.to_nat ((4 - zlen standard mod 4) mod 4)) 61 in
  match atob padded with
  | None => Throw "InvalidCharacterError"
  | Some t =>
      throw_if (negb (zlen t =? 32)) "invalid direct ticket length" ;;;
      Ok t
  end.

(** ** Histories of a handshake

    The methods the transport may call. Messages go through its receive
    chain, which waits for [handleHostHello] to settle: while one is suspended
    no further message is handled, but [clientHello] and [dispose] may run. *)

Inductive HsEvent :=
  | EvHello
  | EvHostHello (message : bytes)
  | EvResume
  | EvAuthOK (message : bytes)
  | EvDispose.

Section Histories.
Context `{Crypto} `{WebCrypto}.

Definition hs_step (ev : HsEvent) (s : DirectClientHandshake * option PendingHello)
    : DirectClientHandshake * option PendingHello :=
  let '(h, pend) := s in
  match ev, pend with
  | EvHello, _ => (fst (clientHello h), pend)
  | EvDispose, _ => (fst (dispose h), pend)
  | EvHostHello message, None =>
      match handleHostHello message h with
      | (h', Ok p) => (h', Some p)
      | (h', Throw _) => (h', None)
      end
  | EvAuthOK message, None => (fst (handleAuthOK message h), None)
  | EvResume, Some p => (fst (handleHostHello_resume p h), None)
  | _, _ => s
  end.

Definition hs_run (events : list HsEvent) (h : DirectClientHandshake)
    : DirectClientHandshake * option PendingHello :=
  fold_left (fun s ev => hs_step ev s) events (h, None).

(** A HOST_HELLO message proves knowledge of the account key over the
    transcript of this attempt with the host key it carries. *)
Definition host_proved (auth : DirectAuthorization) (K client_key message host_key transcript : bytes)
    : Prop :=
  host_key = slice message 2 (2 + P256_PUBLIC_KEY_SIZE) /\
  marshalDirectTranscript (transcript_of auth client_key host_key) = Ok transcript /\
  buildDirectProof K transcript DirectRole.Host
  = Ok (slice_from message (2 + P256_PUBLIC_KEY_SIZE)).

(** A suspended call holds a key and transcript the host has proved. *)
Definition pending_ok (auth : DirectAuthorization) (K client_key : bytes) (jwk : Jwk)
    (events : list HsEvent) (p : PendingHello) : Prop :=
  pend_jwk p = jwk /\
  exists message, EvHostHello message ∈ events /\
    host_proved auth K client_key message (pend_hostKey p) (pend_transcript p).

(** The keys come from a proved host key under the account key. *)
Definition keys_ok (auth : DirectAuthorization) (K client_key : bytes) (jwk : Jwk)
    (events : list HsEvent) (k : DirectHandshakeKeys) : Prop :=
  exists message host_key transcript sharedSecret,
    EvHostHello message ∈ events /\
    host_proved auth K client_key message host_key transcript /\
    p256_shared jwk host_key = Some sharedSecret /\
    deriveDirectTrafficKeys K sharedSecret transcript = Ok (traffic k) /\
    transcriptHash k = sha256 transcript.

Definition hs_inv (auth : DirectAuthorization) (K client_key : bytes) (jwk : Jwk)
    (events : list HsEvent) (s : DirectClientHandshake * option PendingHello) : Prop :=
  let '(h, pend) := s in
  authorization h = auth /\ clientKey h = client_key /\ zlen (accountKey h) = 32 /\
  (forall j, privateJWK h = Some j ->
     j = jwk /\ accountKey h = K /\ state h = AwaitHostHello) /\
  (EvDispose ∉ events -> state h <> Complete -> accountKey h = K) /\
  (forall p, pend = Some p ->
     pending_ok auth K client_key jwk events p /\ state h = AwaitHostHello) /\
  (EvDispose ∉ events -> forall k, keys h = Some k -> keys_ok auth K client_key jwk events k).
End Histories.

(** ** Lemmas *)

Lemma xor_difference_zero left right d :
  length left = length right -> xor_difference left right d = 0 <-> d = 0 /\ left = right.
Proof.
  revert right d. induction left as [|l left IH]; intros [|r right] d Hl; try discriminate Hl;
    cbn [xor_difference].
  - tauto.
  - rewrite IH by (by injection Hl). rewrite Z.lor_eq_0_iff, Z.lxor_eq_0_iff.
    split; [intros [[-> ->] ->]; done|]. intros [-> E]. by injection E as -> ->.
Qed.

(** The constant-time comparison decides equality. *)
Lemma equalBytes_spec left right : equalBytes left right = true <-> left = right.
Proof.
  unfold equalBytes. split_guard.
  - split; [done|]. intros ->. lia.
  - rewrite Z.eqb_eq, xor_difference_zero by (unfold zlen in *; lia). tauto.
Qed.

Ltac hs_run_tac :=
  mrun; cbn [state keys helloSent privateJWK accountKey authorization clientKey fst snd].

Section HandshakeLemmas.
Context `{Crypto} `{WebCrypto}.
Context (auth : DirectAuthorization) (K client_key : bytes) (jwk : Jwk).

Lemma pending_ok_mono events ev p :
  pending_ok auth K client_key jwk events p ->
  pending_ok auth K client_key jwk (events ++ [ev]) p.
Proof. intros [? (m & Hm & ?)]. split; [done|]. exists m. split; [set_solver|done]. Qed.

Lemma keys_ok_mono events ev k :
  keys_ok auth K client_key jwk events k -> keys_ok auth K client_key jwk (events ++ [ev]) k.
Proof. intros (m & hk & t & ss & Hm & ?). exists m, hk, t, ss. split; [set_solver|done]. Qed.

(** [handleHostHello] writes no field before its [await]. *)
Lemma handleHostHello_inv message h :
  fst (handleHostHello message h) = h /\
  forall p, snd (handleHostHello message h) = Ok p ->
    state h = AwaitHostHello /\ privateJWK h = Some (pend_jwk p) /\
    host_proved (authorization h) (accountKey h) (clientKey h) message (pend_hostKey p)
      (pend_transcript p).
Proof.
  unfold handleHostHello. hs_run_tac. split_guard; hs_run_tac; [done|].
  split_guard; hs_run_tac; [done|]. destruct (privateJWK h) as [j|] eqn:Ej; hs_run_tac; [|done].
  destruct (marshalDirectTranscript _) as [t|m] eqn:Et; hs_run_tac; [|done].
  destruct (buildDirectProof _ _ _) as [e|m] eqn:Ee; hs_run_tac; [|done].
  split_guard; hs_run_tac; [done|]. split; [done|]. intros p E. inv_ok.
  cbn [pend_jwk pend_hostKey pend_transcript].
  apply equalBytes_spec in Hg as <-. by unfold host_proved.
Qed.

(** What the continuation may write. *)
Lemma handleHostHello_resume_inv p h :
  zlen (accountKey h) = 32 ->
  let h' := fst (handleHostHello_resume p h) in
  h' = h \/
  exists sharedSecret tk, p256_shared (pend_jwk p) (pend_hostKey p) = Some sharedSecret /\
    deriveDirectTrafficKeys (accountKey h) sharedSecret (pend_transcript p) = Ok tk /\
    h' = h <| privateJWK := None |>
           <| keys := Some (mkHandshakeKeys tk (sha256 (pend_transcript p))) |>
           <| state := AwaitAuthOK |>.
Proof.
  intros Hk. cbv zeta. unfold handleHostHello_resume. destruct (p256_shared _ _) as [ss|]; [|by left].
  right. hs_run_tac.
  assert (Hpk : deriveDirectProofKey (accountKey h) (pend_transcript p)
    = Ok (hkdf_sha256 (accountKey h) (sha256 (pend_transcript p)) PROOF_INFO 32)).
  { unfold deriveDirectProofKey. by rewrite Hk. }
  destruct (deriveDirectTrafficKeys _ _ _) as [tk|m] eqn:Et.
  2: { unfold deriveDirectTrafficKeys in Et. rewrite Hpk, concatBytes_ok in Et. discriminate. }
  exists ss, tk. split; [done|]. split; [done|]. unfold buildDirectProof, buildDirectFinishProof.
  rewrite Hpk. change (DirectRole.Client =? DirectRole.Client) with true. cbn iota.
  rewrite !concatBytes_ok. cbn [rbind]. hs_run_tac. done.
Qed.

(** Every event preserves the invariant. *)
Lemma hs_step_inv events s ev :
  hs_inv auth K client_key jwk events s ->
  hs_inv auth K client_key jwk (events ++ [ev]) (hs_step ev s).
Proof.
  destruct s as [h pend]. intros (Ha & Hc & HK & Hj & Hacc & Hp & Hk).
  assert (Hnd : EvDispose ∉ events ++ [ev] -> EvDispose ∉ events /\ ev <> EvDispose) by set_solver.
  assert (Hp' : forall p, pend = Some p ->
    pending_ok auth K client_key jwk (events ++ [ev]) p /\ state h = AwaitHostHello).
  { intros p E. destruct (Hp p E). split; [by apply pending_ok_mono|done]. }
  assert (Hk' : EvDispose ∉ events ++ [ev] -> forall k, keys h = Some k ->
    keys_ok auth K client_key jwk (events ++ [ev]) k).
  { intros Hd k E. apply keys_ok_mono, Hk; [by apply Hnd|done]. }
  assert (Hacc' : EvDispose ∉ events ++ [ev] -> state h <> Complete -> accountKey h = K).
  { intros Hd. apply Hacc. by apply Hnd. }
  assert (Hsame : hs_inv auth K client_key jwk (events ++ [ev]) (h, pend)).
  { by split_and!. }
  destruct ev as [|message| |message|]; cbn [hs_step].
  - unfold clientHello. hs_run_tac. split_guard; hs_run_tac; [exact Hsame|].
    destruct (uuidBytes_loose _); hs_run_tac; by split_and!.
  - destruct pend; [exact Hsame|]. pose proof (handleHostHello_inv message h) as [E1 E2].
    destruct (handleHostHello message h) as [h' [p|m]]; cbn [fst snd] in *; subst h'; [|exact Hsame].
    destruct (E2 p eq_refl) as (Es & Ej & Hpr). destruct (Hj _ Ej) as (Ej' & Ek & _).
    split_and!; try done. intros p' [= <-]. split; [|done]. split; [done|].
    exists message. split; [set_solver|]. by rewrite <- Ha, <- Hc, <- Ek.
  - destruct pend as [p|]; [|exact Hsame]. destruct (Hp p eq_refl) as [[Epj (m & Hm & Hpr)] Es].
    destruct (handleHostHello_resume_inv p h HK) as [->|(ss & tk & E1 & E2 & ->)].
    { by split_and!. }
    hs_run_tac. split_and!; try done.
    + intros Hd _. apply Hacc'; [done|]. by rewrite Es.
    + intros Hd k [= <-]. exists m, (pend_hostKey p), (pend_transcript p), ss.
      rewrite <- Epj. split_and!; [set_solver|done|done| |done].
      rewrite <- (Hacc' Hd ltac:(by rewrite Es)). done.
  - destruct pend; [exact Hsame|]. unfold handleAuthOK. hs_run_tac.
    split_guard; hs_run_tac; [exact Hsame|]. split_guard; hs_run_tac; [exact Hsame|].
    destruct (keys h) as [k|] eqn:E; hs_run_tac; [|rewrite <- E in *; exact Hsame].
    assert (Hst : state h = AwaitAuthOK) by (by destruct (state h)).
    split_and!; try done.
    + cbn. unfold fill0. by rewrite zlen_zeros, HK by (rewrite HK; lia).
    + cbn. intros j Ej. destruct (Hj j Ej) as (_ & _ & ?). congruence.
  - unfold dispose. hs_run_tac. split_and!; try done; cbn.
    + unfold fill0. by rewrite zlen_zeros, HK by (rewrite HK; lia).
    + intros Hd. exfalso. by apply Hnd in Hd as [_ ?].
Qed.

Lemma hs_run_inv h0 now events :
  create auth K now client_key jwk = Ok h0 ->
  hs_inv auth K client_key jwk events (hs_run events h0).
Proof.
  intros E. unfold create in E. inv_ok. unfold hs_run.
  induction events as [|ev events IH] using rev_ind.
  - cbn. split_and!; try done. by intros j [= <-].
  - rewrite fold_left_app. by apply hs_step_inv.
Qed.

(** What [handleAuthOK] returns in a history without [dispose]. *)
Lemma handleAuthOK_keys events message h pend h' k :
  hs_inv auth K client_key jwk events (h, pend) -> EvDispose ∉ events ->
  handleAuthOK message h = (h', Ok k) ->
  keys_ok auth K client_key jwk events k /\ message = [HANDSHAKE_VERSION; AUTH_OK_KIND] /\
  state h' = Complete /\ accountKey h' = zeros 32.
Proof.
  intros (_ & _ & HK & _ & _ & _ & Hk) Hlive. unfold handleAuthOK. hs_run_tac.
  split_guard; hs_run_tac; [done|]. split_guard; hs_run_tac; [done|].
  destruct (keys h) as [k0|] eqn:E; hs_run_tac; [|done]. intros [= <- <-].
  split; [by apply Hk|]. split; [|split; [done|]].
  - destruct message as [|a [|b [|c m]]]; try (exfalso; zlen_lia).
    change (idx [a; b] 0) with (Some a) in *. change (idx [a; b] 1) with (Some b) in *. congruence.
  - cbn. unfold fill0. by rewrite HK.
Qed.
End HandshakeLemmas.

(** ** Streams of records

    The peer's codec holds the same keys with the directions exchanged. *)

Definition mirror (k : DirectHandshakeKeys) : DirectHandshakeKeys :=
  mkHandshakeKeys
    (mkTrafficKeys (hostToClientKey (traffic k)) (clientToHostKey (traffic k))
       (hostToClientNoncePrefix (traffic k)) (clientToHostNoncePrefix (traffic k)))
    (transcriptHash k).

Section Streams.
Context `{Crypto}.

Fixpoint seal_stream (msgs : list (Z * bytes)) : method DirectClientRecordCodec (list bytes) :=
  match msgs with
  | [] => mret []
  | (kind, pt) :: rest =>
      do* record := seal kind pt in
      do* records := seal_stream rest in
      mret (record :: records)
  end.

Fixpoint open_stream (records : list bytes) : method DirectClientRecordCodec (list (Z * bytes)) :=
  match records with
  | [] => mret []
  | record :: rest =>
      do* msg := open record in
      do* msgs := open_stream rest in
      mret (msg :: msgs)
  end.

(** [p] is the peer of [c] and has received everything [c] sent. *)
Definition in_sync (c p : DirectClientRecordCodec) : Prop :=
  codec_keys p = mirror (codec_keys c) /\ receiveCounter p = sendCounter c.

Lemma seal_ok_run kind pt c r :
  sealDirectRecord (clientToHostKey (traffic (codec_keys c)))
    (clientToHostNoncePrefix (traffic (codec_keys c))) (transcriptHash (codec_keys c)) kind
    (sendCounter c) pt = Ok r ->
  seal kind pt c = (c <| sendCounter := sendCounter c + 1 |>, Ok r).
Proof. intros E. unfold seal. mrun. by rewrite E. Qed.

Lemma seal_inv kind pt c c' r :
  seal kind pt c = (c', Ok r) ->
  c' = c <| sendCounter := sendCounter c + 1 |> /\
  seal_ok (clientToHostKey (traffic (codec_keys c)))
    (clientToHostNoncePrefix (traffic (codec_keys c))) (transcriptHash (codec_keys c)) kind
    (sendCounter c) pt /\
  r = sealed_bytes (clientToHostKey (traffic (codec_keys c)))
    (clientToHostNoncePrefix (traffic (codec_keys c))) (transcriptHash (codec_keys c)) kind
    (sendCounter c) pt.
Proof.
  unfold seal. mrun. destruct (sealDirectRecord _ _ _ _ _ _) as [r'|m] eqn:E; [|done].
  intros [= <- <-]. by apply sealDirectRecord_inv in E.
Qed.

(** A record opens at the peer exactly at its counter. *)
Lemma open_sealed `{!CryptoLaws} kind pt c c' r p :
  seal kind pt c = (c', Ok r) -> codec_keys p = mirror (codec_keys c) ->
  open r p = if sendCounter c =? receiveCounter p
             then (p <| receiveCounter := receiveCounter p + 1 |>, Ok (kind, pt))
             else (p, Throw "invalid direct record sequence").
Proof.
  intros Hs Hp. apply seal_inv in Hs as (_ & Hok & ->). unfold open. mrun. rewrite Hp.
  cbn [mirror traffic hostToClientKey hostToClientNoncePrefix transcriptHash].
  rewrite openDirectRecord_sealed by done. by split_guard.
Qed.

Lemma open_next `{!CryptoLaws} kind pt c c' r p :
  seal kind pt c = (c', Ok r) -> in_sync c p ->
  open r p = (p <| receiveCounter := receiveCounter p + 1 |>, Ok (kind, pt)) /\
  in_sync c' (p <| receiveCounter := receiveCounter p + 1 |>).
Proof.
  intros Hs [Hk Hc]. split.
  - rewrite (open_sealed _ _ _ _ _ _ Hs Hk). by rewrite Hc, Z.eqb_refl.
  - apply seal_inv in Hs as (-> & _ & _). unfold in_sync. cbn. split; [done|lia].
Qed.

Lemma open_stream_sealed `{!CryptoLaws} msgs c c' rs p :
  seal_stream msgs c = (c', Ok rs) -> in_sync c p ->
  exists p', open_stream rs p = (p', Ok msgs) /\ in_sync c' p'.
Proof.
  revert c rs p. induction msgs as [|[kind pt] msgs IH]; intros c rs p Hs Hy; cbn [seal_stream] in Hs.
  - revert Hs. mrun. intros [= <- <-]. by exists p.
  - unfold mbind in Hs. destruct (seal kind pt c) as [c1 [r|m]] eqn:E; [|done].
    destruct (seal_stream msgs c1) as [c2 [rs'|m]] eqn:E2; [|done].
    unfold mret in Hs. injection Hs as <- <-. destruct (open_next _ _ _ _ _ _ E Hy) as [Ho Hy'].
    destruct (IH _ _ _ E2 Hy') as (p' & Hp & Hy2). exists p'. split; [|done].
    cbn [open_stream]. unfold mbind. rewrite Ho, Hp. done.
Qed.
End Streams.

(** ** Properties *)

(** C5. A completed handshake is authenticated: in any serialised history
    without [dispose], if [handleAuthOK] returns keys then some HOST_HELLO of
    the history carried a proof under the account key over the transcript of
    this very attempt, the keys are those derived from the account key and the
    ECDH secret with that proved host key, the transcript hash is the one
    proved, and the account key has been erased from the object. *)
Theorem handshake_authenticated `{Crypto} `{WebCrypto} (auth : DirectAuthorization)
    (K client_key : bytes) (now : Z) (jwk : Jwk) (events : list HsEvent) (message : bytes)
    (h0 h' : DirectClientHandshake) (k : DirectHandshakeKeys)
    (Hcreate : create auth K now client_key jwk = Ok h0)
    (Hlive : EvDispose ∉ events)
    (Hdone : handleAuthOK message (fst (hs_run events h0)) = (h', Ok k)) :
  keys_ok auth K client_key jwk events k /\ message = [HANDSHAKE_VERSION; AUTH_OK_KIND] /\
  state h' = Complete /\ accountKey h' = zeros 32.
Proof.
  pose proof (hs_run_inv auth K client_key jwk h0 now events Hcreate) as Hi.
  destruct (hs_run events h0) as [h pend]. by eapply handleAuthOK_keys.
Qed.

(** A toy key exchange for the witness. *)
#[export] Instance toy_webcrypto : WebCrypto := {
  Jwk := Z;
  p256_shared jwk point := Some (Toy.digest 32 (jwk :: point));
}.

Lemma no_dispose m : EvDispose ∉ [EvHello; EvHostHello m; EvResume].
Proof. rewrite !not_elem_of_cons. repeat split; try discriminate. apply not_elem_of_nil. Qed.

Definition toy_jwk : @Jwk toy_webcrypto := 5.

Lemma handshake_authenticated_witness :
  let uuid := js "00112233-4455-6677-8899-aabbccddeeff" in
  let auth := mkAuthorization uuid (zeros 32) uuid (js "u") (js "h") (js "c") 3 1000 in
  let h0 := mkHandshake AwaitHostHello None false (Some toy_jwk) (repeat 9 32) auth (zeros 65) in
  exists hello k h',
    create auth (repeat 9 32) 10 (zeros 65) toy_jwk = Ok h0 /\
    handleAuthOK [1; 4] (fst (hs_run [EvHello; EvHostHello hello; EvResume] h0)) = (h', Ok k) /\
    keys_ok auth (repeat 9 32) (zeros 65) toy_jwk [EvHello; EvHostHello hello; EvResume] k /\
    accountKey h' = zeros 32.
Proof.
  cbv zeta.
  set (uuid := js "00112233-4455-6677-8899-aabbccddeeff").
  set (auth := mkAuthorization uuid (zeros 32) uuid (js "u") (js "h") (js "c") 3 1000).
  set (h0 := mkHandshake AwaitHostHello None false (Some toy_jwk) (repeat 9 32) auth (zeros 65)).
  set (hello := match marshalDirectTranscript (transcript_of auth (zeros 65) (repeat 4 65)) with
    | Ok t => match buildDirectProof (repeat 9 32) t DirectRole.Host with
              | Ok proof => [1; 2] ++ repeat 4 65 ++ proof | Throw _ => [] end
    | Throw _ => [] end).
  set (h1 := fst (hs_run [EvHello; EvHostHello hello; EvResume] h0)).
  set (res := handleAuthOK [1; 4] h1).
  set (k := match snd res with Ok k => k
            | Throw _ => mkHandshakeKeys (mkTrafficKeys [] [] [] []) [] end).
  exists hello, k, (fst res).
  assert (Hr : handleAuthOK [1; 4] h1 = (fst res, Ok k)) by (vm_compute; reflexivity).
  assert (Hc : create auth (repeat 9 32) 10 (zeros 65) toy_jwk = Ok h0) by (vm_compute; reflexivity).
  split; [exact Hc|]. split; [exact Hr|].
  destruct (handshake_authenticated auth (repeat 9 32) (zeros 65) 10 toy_jwk
    [EvHello; EvHostHello hello; EvResume] [1; 4] h0 (fst res) k Hc (no_dispose hello) Hr) as (A & _ & _ & D).
  split; [exact A | exact D].
Defined.

(** C6. The record streams of the two directions stay in step: whatever
    messages one codec seals, the peer opens them to the same messages in the
    same order and remains in step; and the peer refuses any of those records
    at any position but its own, without moving. *)
Theorem record_stream_correct `{CryptoLaws} (msgs : list (Z * bytes))
    (c c' p : DirectClientRecordCodec) (rs : list bytes)
    (Hseal : seal_stream msgs c = (c', Ok rs)) (Hsync : in_sync c p) :
  (exists p', open_stream rs p = (p', Ok msgs) /\ in_sync c' p') /\
  forall i r q, rs !! i = Some r -> codec_keys q = codec_keys p ->
    receiveCounter q <> receiveCounter p + Z.of_nat i ->
    open r q = (q, Throw "invalid direct record sequence").
Proof.
  split; [by eapply open_stream_sealed|]. destruct Hsync as [Hk Hc]. rewrite Hc, Hk. clear Hc Hk.
  revert c rs Hseal. induction msgs as [|[kind pt] msgs IH]; intros c rs Hs i r q Hi Hq Hne;
    cbn [seal_stream] in Hs.
  - revert Hs. mrun. intros [= <- <-]. done.
  - unfold mbind in Hs. destruct (seal kind pt c) as [c1 [r0|m]] eqn:E; [|done].
    destruct (seal_stream msgs c1) as [c2 [rs'|m]] eqn:E2; [|done].
    unfold mret in Hs. injection Hs as <- <-. destruct i as [|i]; cbn in Hi.
    + injection Hi as <-. rewrite (open_sealed _ _ _ _ _ _ E Hq).
      by rewrite (proj2 (Z.eqb_neq _ _)) by lia.
    + apply seal_inv in E as (-> & _ & _). eapply IH; [exact E2|exact Hi|done|].
      cbn. lia.
Qed.

Lemma record_stream_correct_witness :
  let k := mkHandshakeKeys (mkTrafficKeys (zeros 32) (repeat 1 32) (zeros 16) (repeat 2 16)) (zeros 32) in
  let c := new_codec k in
  let p := new_codec (mirror k) in
  exists r0 r1 c', seal_stream [(1, [5]); (4, [6])] c = (c', Ok [r0; r1]) /\ in_sync c p /\
    (exists p', open_stream [r0; r1] p = (p', Ok [(1, [5]); (4, [6])]) /\ in_sync c' p') /\
    open r1 p = (p, Throw "invalid direct record sequence").
Proof.
  cbv zeta.
  set (k := mkHandshakeKeys (mkTrafficKeys (zeros 32) (repeat 1 32) (zeros 16) (repeat 2 16)) (zeros 32)).
  set (res := seal_stream [(1, [5]); (4, [6])] (new_codec k)).
  set (r0 := match snd res with Ok [a; _] => a | _ => [] end).
  set (r1 := match snd res with Ok [_; b] => b | _ => [] end).
  exists r0, r1, (fst res).
  assert (Hs : seal_stream [(1, [5]); (4, [6])] (new_codec k) = (fst res, Ok [r0; r1]))
    by (vm_compute; reflexivity).
  assert (Hy : in_sync (new_codec k) (new_codec (mirror k))) by (split; reflexivity).
  destruct (record_stream_correct _ _ _ _ _ Hs Hy) as [A B].
  split; [exact Hs|]. split; [exact Hy|]. split; [exact A|].
  apply (B 1%nat); [reflexivity|reflexivity|]. cbn. discriminate.
Defined.
