(* ===== verification/Layout.v ===== *)
(** * Pane layouts ([src/desktop/frontend/src/lib/layout.ts], [types.ts])

    The transitions of a tab's pane grid: splitting, closing, moving the
    focus, and finding the pane that holds a session. A session is recorded
    in a pane by its identifier; [lastSeenInfo] is opaque here and only
    copied. *)


From S2P Require Import Prelude Json.
From Stdlib Require Import QArith.
Open Scope Z_scope.

Inductive LayoutKind := single | vertical | horizontal | grid2x2.
Inductive SplitDir := split_vertical | split_horizontal.
Inductive FocusDir := left_ | right_ | up | down.

#[export] Instance LayoutKind_eq_dec : EqDecision LayoutKind.
Proof. solve_decision. Defined.
#[export] Instance FocusDir_eq_dec : EqDecision FocusDir.
Proof. solve_decision. Defined.

Definition RATIO_MIN : Q := 1 # 10.
Definition RATIO_MAX : Q := 9 # 10.
Definition RATIO_DEFAULT : Q := 1 # 2.

Definition Qltb (a b : Q) : bool := negb (Qle_bool b a).

Definition clampRatio (r : Number) : Q :=
  match r with
  | Finite q =>
      if Qltb q RATIO_MIN then RATIO_MIN
      else if Qltb RATIO_MAX q then RATIO_MAX
      else q
  | _ => RATIO_DEFAULT
  end.

Section Layout.
(** [SessionInfo], and the two ratios that every transition threads
    through unchanged. *)
Context {Info : Type}.

Record Pane := mkPane {
  sessionId : option string;
  remote : bool;
  peerDirect : option bool;
  lastSeenInfo : option Info;
}.

Definition EMPTY_PANE : Pane := mkPane None false None None.

Definition empty : Pane := EMPTY_PANE.

Definition PANE_COUNT (l : LayoutKind) : nat :=
  match l with
  | single => 1
  | vertical => 2
  | horizontal => 2
  | grid2x2 => 4
  end.

Record Tab := mkTab {
  tab_id : string;
  layout : LayoutKind;
  panes : list Pane;
  activePaneIdx : Z;
  colRatio : Q;
  rowRatio : Q;
}.

Record TransitionResult := mkTransition {
  tr_layout : LayoutKind;
  tr_panes : list Pane;
  tr_activePaneIdx : Z;
  tr_newPaneIdx : Z;
  tr_noop : bool;
  tr_colRatio : Q;
  tr_rowRatio : Q;
}.

Record CloseResult := mkClose {
  cl_layout : LayoutKind;
  cl_panes : list Pane;
  cl_activePaneIdx : Z;
  cl_closeTab : bool;
  cl_colRatio : Q;
  cl_rowRatio : Q;
}.

(** [{ ...panes[i] }]: spreading [undefined] gives an object with no field;
    the panes of a well-formed tab are in range. *)
Definition copy (ps : list Pane) (i : nat) : Pane := default empty (ps !! i).

(** [panes.findIndex(p)]: -1 when there is none. *)
Fixpoint findIndex_from {A} (f : A -> bool) (l : list A) (i : Z) : Z :=
  match l with
  | [] => -1
  | x :: l' => if f x then i else findIndex_from f l' (i + 1)
  end.
Definition findIndex {A} (f : A -> bool) (l : list A) : Z := findIndex_from f l 0.

Definition filled (p : Pane) : bool := match sessionId p with Some _ => true | None => false end.

Definition transitionLayout (current : LayoutKind) (ps : list Pane) (activeIdx : Z)
    (dir : SplitDir) (cr rr : Q) : TransitionResult :=
  match current with
  | single =>
      let nextLayout := match dir with split_vertical => vertical | split_horizontal => horizontal end in
      mkTransition nextLayout [copy ps 0; empty] 1 1 false cr rr
  | vertical =>
      let newIdx := if activeIdx =? 0 then 2 else 3 in
      mkTransition grid2x2 [copy ps 0; copy ps 1; empty; empty] newIdx newIdx false cr rr
  | horizontal =>
      let newIdx := if activeIdx =? 0 then 1 else 3 in
      mkTransition grid2x2 [copy ps 0; empty; copy ps 1; empty] newIdx newIdx false cr rr
  | grid2x2 =>
      let emptyIdx := findIndex (fun p => negb (filled p)) ps in
      if emptyIdx =? -1
      then mkTransition grid2x2 ps activeIdx (-1) true cr rr
      else mkTransition grid2x2 ps emptyIdx emptyIdx false cr rr
  end.

Definition reduceTwoFilled (ps : list Pane) (idx : list Z) (cr rr : Q) : CloseResult :=
  let a := default 0 (idx !! 0%nat) in
  let b := default 0 (idx !! 1%nat) in
  let sameCol := ((a =? 0) && (b =? 2)) || ((a =? 1) && (b =? 3)) in
  let l := if sameCol then horizontal else vertical in
  mkClose l [copy ps (Z.to_nat a); copy ps (Z.to_nat b)] 0 false cr rr.

(** [panes.map((p, i) => (i === closeIdx ? empty() : { ...p }))] *)
Fixpoint clear_at (ps : list Pane) (i closeIdx : Z) : list Pane :=
  match ps with
  | [] => []
  | p :: ps' => (if i =? closeIdx then empty else p) :: clear_at ps' (i + 1) closeIdx
  end.

(** [next.map((p, i) => (filled ? i : -1)).filter((i) => i >= 0)] *)
Fixpoint filledIndices_from (ps : list Pane) (i : Z) : list Z :=
  match ps with
  | [] => []
  | p :: ps' => if filled p then i :: filledIndices_from ps' (i + 1)
                else filledIndices_from ps' (i + 1)
  end.

Definition closePane (l : LayoutKind) (ps : list Pane) (closeIdx : Z) (cr rr : Q) : CloseResult :=
  match l with
  | single => mkClose single ps 0 true cr rr
  | vertical | horizontal =>
      let survivorIdx := if closeIdx =? 0 then 1%nat else 0%nat in
      mkClose single [copy ps survivorIdx] 0 false cr rr
  | grid2x2 =>
      let next := clear_at ps 0 closeIdx in
      let filledIndices := filledIndices_from next 0 in
      let n := zlen filledIndices in
      if 3 <=? n then mkClose grid2x2 next (default 0 (filledIndices !! 0%nat)) false cr rr
      else if n =? 2 then reduceTwoFilled next filledIndices cr rr
      else if n =? 1
      then mkClose single [copy next (Z.to_nat (default 0 (filledIndices !! 0%nat)))] 0 false cr rr
      else mkClose single [empty] 0 true cr rr
  end.

Definition NEIGHBORS (l : LayoutKind) (i : Z) (d : FocusDir) : option Z :=
  match l, i, d with
  | vertical, 0, right_ => Some 1
  | vertical, 1, left_ => Some 0
  | horizontal, 0, down => Some 1
  | horizontal, 1, up => Some 0
  | grid2x2, 0, right_ => Some 1
  | grid2x2, 0, down => Some 2
  | grid2x2, 1, left_ => Some 0
  | grid2x2, 1, down => Some 3
  | grid2x2, 2, up => Some 0
  | grid2x2, 2, right_ => Some 3
  | grid2x2, 3, up => Some 1
  | grid2x2, 3, left_ => Some 2
  | _, _, _ => None
  end.

Definition focusNeighbor (l : LayoutKind) (activeIdx : Z) (dir : FocusDir) : option Z :=
  NEIGHBORS l activeIdx dir.

Fixpoint findPaneLocation (tabs : list Tab) (sid : string) : option (string * Z) :=
  match tabs with
  | [] => None
  | t :: rest =>
      let idx := findIndex (fun p => bool_decide (sessionId p = Some sid)) (panes t) in
      if 0 <=? idx then Some (tab_id t, idx) else findPaneLocation rest sid
  end.

(** ** Well-formed tabs *)

(** The number of panes matches the layout and the focus is in range. *)
Definition layout_ok (l : LayoutKind) (ps : list Pane) (active : Z) : Prop :=
  length ps = PANE_COUNT l /\ 0 <= active < Z.of_nat (PANE_COUNT l).

(** The sessions on screen, in pane order. *)
Definition sessions (ps : list Pane) : list string := omap sessionId ps.

(** The opposite direction. *)
Definition opposite (d : FocusDir) : FocusDir :=
  match d with left_ => right_ | right_ => left_ | up => down | down => up end.
End Layout.

(** ** Lemmas *)

Section LayoutLemmas.
Context {Info : Type}.
Implicit Types (ps : list (@Pane Info)).

Lemma findIndex_from_spec {A} (f : A -> bool) (l : list A) i :
  0 <= i ->
  (findIndex_from f l i = -1 /\ forall x, x ∈ l -> f x = false) \/
  exists k x, findIndex_from f l i = i + Z.of_nat k /\ l !! k = Some x /\ f x = true /\
    forall j y, (j < k)%nat -> l !! j = Some y -> f y = false.
Proof.
  revert i. induction l as [|a l IH]; intros i Hi; cbn [findIndex_from].
  - left. split; [done|]. intros x Hx. by apply not_elem_of_nil in Hx.
  - destruct (f a) eqn:E.
    + right. exists O, a. split_and!; [lia|done..|]. intros j y Hj. lia.
    + destruct (IH (i + 1) ltac:(lia)) as [[-> Hn]|(k & x & -> & Hk & Hx & Hmin)].
      * left. split; [done|]. intros x [->|Hx]%elem_of_cons; auto.
      * right. exists (S k), x. split_and!; [lia|done..|]. intros [|j] y Hj Hy; [by injection Hy as <-|].
        eapply (Hmin j); [lia|done].
Qed.

Lemma findIndex_spec {A} (f : A -> bool) (l : list A) :
  (findIndex f l = -1 /\ forall x, x ∈ l -> f x = false) \/
  exists k x, findIndex f l = Z.of_nat k /\ l !! k = Some x /\ f x = true /\
    forall j y, (j < k)%nat -> l !! j = Some y -> f y = false.
Proof. apply (findIndex_from_spec f l 0). lia. Qed.
End LayoutLemmas.

(** ** Properties *)

(** Splitting keeps the tab well formed and loses no session: the result
    has the panes its layout needs with the focus in range, exactly the same
    sessions in the same order, the ratios unchanged, and the new pane is an
    empty one that gets the focus; the split is refused only when all four
    panes of the grid are filled. *)
Theorem transitionLayout_correct {Info} (l : LayoutKind) (ps : list (@Pane Info)) (active : Z)
    (dir : SplitDir) (cr rr : Q) (Hok : layout_ok l ps active) :
  let r := transitionLayout l ps active dir cr rr in
  layout_ok (tr_layout r) (tr_panes r) (tr_activePaneIdx r) /\
  sessions (tr_panes r) = sessions ps /\
  tr_colRatio r = cr /\ tr_rowRatio r = rr /\
  (if tr_noop r
   then l = grid2x2 /\ tr_newPaneIdx r = -1 /\ length (sessions ps) = 4%nat /\ tr_panes r = ps
   else tr_newPaneIdx r = tr_activePaneIdx r /\
        exists p, tr_panes r !! Z.to_nat (tr_newPaneIdx r) = Some p /\ sessionId p = None).
Proof.
  destruct Hok as [Hl Ha]. destruct l; cbn [PANE_COUNT] in *.
  - destruct ps as [|p [|]]; try discriminate Hl. destruct dir; cbn; split_and!; try done; by eexists.
  - destruct ps as [|p0 [|p1 [|]]]; try discriminate Hl. cbn.
    destruct (active =? 0); cbn; split_and!; try done; try (by eexists);
      by destruct (sessionId p0), (sessionId p1).
  - destruct ps as [|p0 [|p1 [|]]]; try discriminate Hl. cbn.
    destruct (active =? 0); cbn; split_and!; try done; try (by eexists);
      by destruct (sessionId p0), (sessionId p1).
  - unfold transitionLayout. cbv zeta.
    destruct (findIndex_spec (fun p => negb (filled p)) ps) as [[-> Hn]|(k & p & -> & Hk & Hp & _)].
    + cbn. split_and!; try done; try lia.
      destruct ps as [|p0 [|p1 [|p2 [|p3 [|]]]]]; try discriminate Hl. unfold sessions. cbn.
      assert (Hf : forall p, p ∈ [p0; p1; p2; p3] -> exists s, sessionId p = Some s).
      { intros p Hp. specialize (Hn p Hp). unfold filled in Hn.
        destruct (sessionId p); [by eexists|done]. }
      destruct (Hf p0 ltac:(set_solver)) as [s0 E0], (Hf p1 ltac:(set_solver)) as [s1 E1],
        (Hf p2 ltac:(set_solver)) as [s2 E2], (Hf p3 ltac:(set_solver)) as [s3 E3].
      by rewrite E0, E1, E2, E3.
    + assert (Hlt : (k < length ps)%nat) by (by eapply lookup_lt_Some).
      rewrite (proj2 (Z.eqb_neq _ _)) by lia. cbn.
      unfold layout_ok. cbn. split_and!; try done; try lia. exists p. rewrite Nat2Z.id. split; [done|].
      unfold filled in Hp. by destruct (sessionId p).
Qed.

Lemma transitionLayout_correct_witness :
  let p (s : string) := @mkPane unit (Some s) false None None in
  layout_ok vertical [p "a"; p "b"] 1 /\
  (let r := transitionLayout vertical [p "a"; p "b"] 1 split_vertical (1 # 2) (1 # 2) in
   layout_ok (tr_layout r) (tr_panes r) (tr_activePaneIdx r) /\
   sessions (tr_panes r) = ["a"; "b"]%string /\ tr_newPaneIdx r = 3).
Proof.
  cbv zeta. assert (H : layout_ok vertical
    [@mkPane unit (Some "a"%string) false None None; mkPane (Some "b"%string) false None None] 1)
    by (split; [reflexivity|cbn; lia]).
  split; [exact H|].
  destruct (transitionLayout_correct vertical _ 1 split_vertical (1 # 2) (1 # 2) H) as (A & B & _).
  split; [exact A|]. split; [exact B|reflexivity].
Defined.

(** Closing a pane keeps the tab well formed and removes exactly that
    pane's session, the others staying in order, whatever quadrants of the
    grid are filled. The tab itself is closed only from the single layout or
    when no session remains; a grid stays a grid exactly while three sessions
    or more remain, and two are laid out by column only when they shared one. *)
Theorem closePane_correct {Info} (l : LayoutKind) (ps : list (@Pane Info)) (active closeIdx : Z)
    (cr rr : Q) (Hok : layout_ok l ps active) (Hin : 0 <= closeIdx < Z.of_nat (length ps)) :
  let r := closePane l ps closeIdx cr rr in
  let rest := sessions (delete (Z.to_nat closeIdx) ps) in
  layout_ok (cl_layout r) (cl_panes r) (cl_activePaneIdx r) /\
  cl_colRatio r = cr /\ cl_rowRatio r = rr /\
  (if cl_closeTab r then l = single \/ rest = [] else sessions (cl_panes r) = rest) /\
  (l = grid2x2 ->
     (cl_layout r = grid2x2 <-> (3 <= length rest)%nat) /\ (cl_closeTab r = true <-> rest = []) /\
     ((2 <= length rest)%nat ->
        exists p, cl_panes r !! Z.to_nat (cl_activePaneIdx r) = Some p /\ filled p = true)).
Proof.
  destruct Hok as [Hl _]. destruct l; cbn [PANE_COUNT] in Hl.
  - destruct ps as [|p [|]]; try discriminate Hl. cbn. split_and!; try done; auto.
  - destruct ps as [|p0 [|p1 [|]]]; try discriminate Hl.
    assert (Hc : closeIdx = 0 \/ closeIdx = 1) by (cbn in Hin; lia).
    destruct p0 as [[] ? ? ?], p1 as [[] ? ? ?], Hc as [-> | ->]; cbn; split_and!; done.
  - destruct ps as [|p0 [|p1 [|]]]; try discriminate Hl.
    assert (Hc : closeIdx = 0 \/ closeIdx = 1) by (cbn in Hin; lia).
    destruct p0 as [[] ? ? ?], p1 as [[] ? ? ?], Hc as [-> | ->]; cbn; split_and!; done.
  - destruct ps as [|p0 [|p1 [|p2 [|p3 [|]]]]]; try discriminate Hl.
    destruct p0 as [s0 r0 d0 i0], p1 as [s1 r1 d1 i1], p2 as [s2 r2 d2 i2], p3 as [s3 r3 d3 i3].
    assert (Hc : closeIdx = 0 \/ closeIdx = 1 \/ closeIdx = 2 \/ closeIdx = 3) by (cbn in Hin; lia).
    destruct Hc as [-> | [-> | [-> | ->]]]; destruct s0, s1, s2, s3; vm_compute;
      (split; [done|]); (split; [done|]); (split; [done|]); (split; [by auto|]); intros _;
      (split; [split; intros; first [done|lia]|]); (split; [split; intros; done|]);
      intros; first [by eexists|lia].
Qed.

Lemma closePane_correct_witness :
  let p (s : string) := @mkPane unit (Some s) false None None in
  let ps := [p "a"%string; p "b"%string; empty; p "d"%string] in
  layout_ok grid2x2 ps 0 /\ 0 <= 0 < Z.of_nat (length ps) /\
  (let r := closePane grid2x2 ps 0 (1 # 2) (1 # 2) in
   layout_ok (cl_layout r) (cl_panes r) (cl_activePaneIdx r) /\
   cl_layout r = horizontal /\ sessions (cl_panes r) = ["b"; "d"]%string).
Proof.
  cbv zeta.
  set (ps := [@mkPane unit (Some "a"%string) false None None; mkPane (Some "b"%string) false None None;
              empty; mkPane (Some "d"%string) false None None]).
  assert (H : layout_ok grid2x2 ps 0) by (split; [reflexivity|cbn; lia]).
  assert (Hi : 0 <= 0 < Z.of_nat (length ps)) by (cbn; lia).
  split; [exact H|]. split; [exact Hi|].
  destruct (closePane_correct grid2x2 ps 0 0 (1 # 2) (1 # 2) H Hi) as (A & _).
  split; [exact A|]. split; reflexivity.
Defined.

(** Looking a session up: the answer is the first tab that shows it and
    the first of that tab's panes that holds it; there is none exactly when no
    tab shows the session. *)
Theorem findPaneLocation_correct {Info} (tabs : list (@Tab Info)) (sid : string) :
  match findPaneLocation tabs sid with
  | Some (tid, idx) =>
      exists before t after k p, tabs = before ++ t :: after /\ tab_id t = tid /\
        idx = Z.of_nat k /\ panes t !! k = Some p /\ sessionId p = Some sid /\
        (forall j q, (j < k)%nat -> panes t !! j = Some q -> sessionId q <> Some sid) /\
        Forall (fun t' => sid ∉ sessions (panes t')) before
  | None => Forall (fun t' => sid ∉ sessions (panes t')) tabs
  end.
Proof.
  assert (Hno : forall t : @Tab Info,
    (forall x : @Pane Info, x ∈ panes t -> bool_decide (sessionId x = Some sid) = false) ->
    sid ∉ sessions (panes t)).
  { intros t Hn [p [Hp Hs]]%list_elem_of_omap. apply Hn in Hp. guards. done. }
  induction tabs as [|t tabs IH]; cbn [findPaneLocation]; [constructor|].
  destruct (findIndex_spec (fun p => bool_decide (sessionId p = Some sid)) (panes t))
    as [[-> Hn]|(k & p & -> & Hk & Hp & Hmin)]; cbn [Z.leb Z.compare].
  - destruct (findPaneLocation tabs sid) as [[tid idx]|].
    + destruct IH as (before & t0 & after & k & p & -> & ? & ? & ? & ? & ? & Hb).
      exists (t :: before), t0, after, k, p. split_and!; try done. constructor; auto.
    + constructor; auto.
  - rewrite (proj2 (Z.leb_le 0 _)) by lia. guards. exists [], t, tabs, k, p.
    split_and!; try done. intros j q Hj Hq. specialize (Hmin j q Hj Hq). by guards.
Qed.

(** The focus moves between neighbours of the layout and back again. *)
Lemma focusNeighbor_opposite (l : LayoutKind) (i j : Z) (d : FocusDir) :
  focusNeighbor l i d = Some j ->
  0 <= j < Z.of_nat (PANE_COUNT l) /\ focusNeighbor l j (opposite d) = Some i.
Proof.
  unfold focusNeighbor. intros H. unfold NEIGHBORS in H.
  destruct l, d; repeat first [discriminate H|match type of H with context [match ?x with _ => _ end] => destruct x end];
    injection H as <-; (split; [cbn; lia|done]).
Qed.

(** The comment on [closeTab] announces a closed tab whenever the layout
    becomes single with no filled pane left; from a two-pane layout whose
    other pane is empty the code keeps the tab with one empty pane. *)
Lemma closePane_two_panes_keeps_empty_tab :
  let r := closePane vertical [@mkPane unit (Some "a"%string) false None None; empty] 0 (1 # 2) (1 # 2) in
  cl_layout r = single /\ sessions (cl_panes r) = [] /\ cl_closeTab r = false.
Proof. by vm_compute. Qed.

(** Ratios stay within the bounds whatever the number. *)
Lemma clampRatio_bounds (r : Number) : (RATIO_MIN <= clampRatio r <= RATIO_MAX)%Q.
Proof.
  destruct r as [q| | |]; cbn [clampRatio]; try (by split).
  unfold Qltb. destruct (Qle_bool RATIO_MIN q) eqn:E1; cbn [negb]; [|by split].
  destruct (Qle_bool q RATIO_MAX) eqn:E2; cbn [negb]; [|by split].
  split; by apply Qle_bool_iff.
Qed.
