(* ===== verification/SessionInfo.v ===== *)
(** * Session data ([src/desktop/frontend/src/lib/connection.ts])

    The session record the relay lists, and [decryptSessionFields], which
    overlays the fields an agent sealed. Optional fields are [option]s. *)

From S2P Require Import Prelude.

Inductive TaskState :=
  | idle | running | waiting_input | completed | failed | disconnected | closed.

#[export] Instance TaskState_eq_dec : EqDecision TaskState.
Proof. solve_decision. Defined.

Record SessionSummary := mkSummary {
  recent_output : option string;
  error_lines : option (list string);
  captured_at : option Z;
}.

Record SessionInfo := mkSession {
  si_id : string;
  command : string;
  cwd : string;
  title : string;
  cols : Z;
  rows : Z;
  started_at : Z;
  host_id : option string;
  host : option string;
  user : option string;
  ssh_host_id : option string;
  remote_permission : option string;
  task_state : option TaskState;
  current_command : option string;
  command_started_at : option Z;
  command_ended_at : option Z;
  command_duration_ms : option Z;
  command_exit_code : option Z;
  last_output_at : option Z;
  si_type : option string;
  summary : option SessionSummary;
  unread : option bool;
  sealed : option string;
  peer_direct : option bool;
}.

#[export] Instance eta_session : Eta SessionInfo :=
  fun s => mkSession (si_id s) (command s) (cwd s) (title s) (cols s) (rows s) (started_at s)
    (host_id s) (host s) (user s) (ssh_host_id s) (remote_permission s) (task_state s)
    (current_command s) (command_started_at s) (command_ended_at s) (command_duration_ms s)
    (command_exit_code s) (last_output_at s) (si_type s) (summary s) (unread s) (sealed s)
    (peer_direct s).

(** The fields an agent can seal. *)
Record SessionFields := mkFields {
  f_title : option string;
  f_cwd : option string;
  f_command : option string;
  f_current_command : option string;
}.

Section Decrypt.
(** [getCurrentAccountKey()] returned [Key]; [open_sealed] is
    [openSessionFields(b64ToBytes(sealed), key, id)] of [opaque.ts]: it can
    throw, and returns nothing when the cipher fails. *)
Context {Key : Type} (open_sealed : string -> Key -> string -> result (option SessionFields)).

(** [if (fields.f !== undefined) next.f = fields.f] *)
Definition overlay (fields : SessionFields) (s : SessionInfo) : SessionInfo :=
  let next := match f_title fields with Some v => s <| title := v |> | None => s end in
  let next := match f_cwd fields with Some v => next <| cwd := v |> | None => next end in
  let next := match f_command fields with Some v => next <| command := v |> | None => next end in
  match f_current_command fields with
  | Some v => next <| current_command := Some v |>
  | None => next
  end.

Definition decrypt_one (accountKey : Key) (s : SessionInfo) : SessionInfo :=
  match sealed s with
  | None => s
  | Some env =>
      if bool_decide (env = ""%string) then s
      else match open_sealed env accountKey (si_id s) with
           | Ok (Some fields) => overlay fields s
           | Ok None => s
           | Throw _ => s
           end
  end.

Definition decryptSessionFields (accountKey : option Key) (sessions : list SessionInfo)
    : list SessionInfo :=
  match accountKey with
  | None => sessions
  | Some k => map (decrypt_one k) sessions
  end.

(** Decryption changes nothing but the four fields the agent may seal. *)
Lemma decrypt_one_keeps k s :
  si_id (decrypt_one k s) = si_id s /\ sealed (decrypt_one k s) = sealed s /\
  task_state (decrypt_one k s) = task_state s /\ remote_permission (decrypt_one k s) = remote_permission s /\
  peer_direct (decrypt_one k s) = peer_direct s.
Proof.
  unfold decrypt_one, overlay. destruct (sealed s) as [env|] eqn:E; [|by rewrite E].
  repeat case_match; cbn; by rewrite ?E.
Qed.
End Decrypt.
