(* ===== verification/RouteCandidates.v ===== *)
(** * Route candidates ([src/desktop/frontend/src/lib/routeCandidates.ts])

    A terminal session can be reachable through several byte routes and two
    trust principals (the relay account, a peer credential). The selection
    keeps one route per principal and session; the sidebar then keeps one
    entry per session. [Map]s are the insertion-ordered maps of [JsMap]. *)

From Stdlib Require Import Sorted.
From S2P Require Import Prelude JsMap SessionInfo.

Inductive RoutePrincipal := principal_relay | principal_peer.
Inductive TerminalRoute := route_direct | route_quick_tunnel | route_relay.
Inductive RouteHealth := available | unavailable.
Inductive RoutePolicyMode := hybrid | peer_only | relay_only.

#[export] Instance RoutePrincipal_eq_dec : EqDecision RoutePrincipal.
Proof. solve_decision. Defined.
#[export] Instance TerminalRoute_eq_dec : EqDecision TerminalRoute.
Proof. solve_decision. Defined.
#[export] Instance RouteHealth_eq_dec : EqDecision RouteHealth.
Proof. solve_decision. Defined.

Record RoutePolicy := mkPolicy {
  mode : RoutePolicyMode;
  policy_direct : bool;
  policy_quickTunnel : bool;
  policy_relay : bool;
}.

Record RouteCandidate {T : Type} := mkCandidate {
  cand_sessionId : string;
  principal : RoutePrincipal;
  route : TerminalRoute;
  enabled : bool;
  health : RouteHealth;
  value : T;
}.
Arguments RouteCandidate : clear implicits.
Arguments mkCandidate {T}.

Definition HYBRID_ROUTE_POLICY : RoutePolicy := mkPolicy hybrid true true true.
Definition PEER_ONLY_ROUTE_POLICY : RoutePolicy := mkPolicy peer_only true true false.

Definition ROUTE_PRIORITY (r : TerminalRoute) : Z :=
  match r with route_direct => 0 | route_quick_tunnel => 1 | route_relay => 2 end.

Definition policyAllowsPrincipal (policy : RoutePolicy) (p : RoutePrincipal) : bool :=
  match mode policy with
  | peer_only => bool_decide (p = principal_peer)
  | relay_only => bool_decide (p = principal_relay)
  | hybrid => true
  end.

Definition policyAllowsRoute (policy : RoutePolicy) (r : TerminalRoute) : bool :=
  match r with
  | route_direct => policy_direct policy
  | route_quick_tunnel => policy_quickTunnel policy
  | route_relay => policy_relay policy
  end.

Definition principalAllowsRoute (p : RoutePrincipal) (r : TerminalRoute) : bool :=
  match r with
  | route_quick_tunnel => bool_decide (p = principal_peer)
  | route_relay => bool_decide (p = principal_relay)
  | route_direct => true
  end.

Definition principal_string (p : RoutePrincipal) : string :=
  match p with principal_relay => "relay" | principal_peer => "peer" end.

Section Candidates.
Context {T : Type}.
Implicit Types (c d : RouteCandidate T) (cs : list (RouteCandidate T)).

Definition candidateGroupKey c : string :=
  (principal_string (principal c) +:+ ":" +:+ cand_sessionId c)%string.

(** The guard of the loop of [selectRouteCandidates]. *)
Definition skipped (policy : RoutePolicy) c : bool :=
  bool_decide (cand_sessionId c = "") || negb (enabled c)
  || negb (bool_decide (health c = available))
  || negb (policyAllowsPrincipal policy (principal c))
  || negb (policyAllowsRoute policy (route c))
  || negb (principalAllowsRoute (principal c) (route c)).

Fixpoint select_loop (policy : RoutePolicy) cs (selected : jsmap string (RouteCandidate T))
    : jsmap string (RouteCandidate T) :=
  match cs with
  | [] => selected
  | c :: rest =>
      if skipped policy c then select_loop policy rest selected
      else
        let key := candidateGroupKey c in
        let better := match map_get selected key with
                      | None => true
                      | Some current => ROUTE_PRIORITY (route c) <? ROUTE_PRIORITY (route current)
                      end in
        select_loop policy rest (if better then map_set selected key c else selected)
  end.

Definition selectRouteCandidates cs (policy : RoutePolicy) : list (RouteCandidate T) :=
  map_values (select_loop policy cs []).

Fixpoint collapse_loop cs (visible : jsmap string (RouteCandidate T))
    : jsmap string (RouteCandidate T) :=
  match cs with
  | [] => visible
  | c :: rest =>
      let take := match map_get visible (cand_sessionId c) with
                  | None => true
                  | Some current => bool_decide (principal current = principal_peer)
                                    && bool_decide (principal c = principal_relay)
                  end in
      collapse_loop rest (if take then map_set visible (cand_sessionId c) c else visible)
  end.

Definition collapseSidebarCandidates cs : list (RouteCandidate T) :=
  map_values (collapse_loop cs []).

(** The trust principal and the session: the unit of selection. *)
Definition group c : RoutePrincipal * string := (principal c, cand_sessionId c).

(** ** Both loops keep the best candidate per key *)

Definition nearer c d : bool := ROUTE_PRIORITY (route c) <? ROUTE_PRIORITY (route d).

Definition more_trusted c d : bool :=
  bool_decide (principal d = principal_peer) && bool_decide (principal c = principal_relay).

Definition group_string (g : RoutePrincipal * string) : string :=
  (principal_string g.1 +:+ ":" +:+ g.2)%string.

#[export] Instance group_string_inj : Inj (=) (=) group_string.
Proof. intros [[] s1] [[] s2]; unfold group_string; cbn; intros H; by simplify_eq. Qed.

Lemma candidateGroupKey_group c d : candidateGroupKey c = candidateGroupKey d <-> group c = group d.
Proof.
  change (group_string (group c) = group_string (group d) <-> group c = group d).
  split; [apply (inj _)|by intros ->].
Qed.

Lemma nearer_trans c d e : nearer c d = true -> nearer d e = true -> nearer c e = true.
Proof. unfold nearer. intros. guards. apply Z.ltb_lt. lia. Qed.

Lemma nearer_neg c d e : nearer c d = true -> nearer e d = false -> nearer c e = true.
Proof. unfold nearer. intros. guards. apply Z.ltb_lt. lia. Qed.

Lemma more_trusted_trans c d e :
  more_trusted c d = true -> more_trusted d e = true -> more_trusted c e = true.
Proof. unfold more_trusted. by destruct (principal c), (principal d), (principal e). Qed.

Lemma more_trusted_neg c d e :
  more_trusted c d = true -> more_trusted e d = false -> more_trusted c e = true.
Proof. unfold more_trusted. by destruct (principal c), (principal d), (principal e). Qed.

Lemma select_loop_upsert policy cs m :
  select_loop policy cs m =
  upsert_loop candidateGroupKey nearer (filter (fun c => skipped policy c = false) cs) m.
Proof.
  revert m. induction cs as [|c cs IH]; intros m; [done|]. cbn [select_loop].
  destruct (skipped policy c) eqn:E.
  - by rewrite filter_cons, decide_False by congruence.
  - rewrite filter_cons, decide_True by done. apply IH.
Qed.

Lemma collapse_loop_upsert cs m :
  collapse_loop cs m = upsert_loop cand_sessionId more_trusted cs m.
Proof. revert m. induction cs as [|c cs IH]; intros m; [done|]. apply IH. Qed.
End Candidates.

(** [mergeVisibleRemoteSessions]: peer sessions enter first. *)
Definition peer_candidate (s : SessionInfo) : RouteCandidate SessionInfo :=
  mkCandidate (si_id s) principal_peer route_direct true available s.

Definition relay_candidate (s : SessionInfo) : RouteCandidate SessionInfo :=
  mkCandidate (si_id s) principal_relay route_relay true available s.

Definition mark_peer (c : RouteCandidate SessionInfo) : SessionInfo :=
  (value c) <| peer_direct := if bool_decide (principal c = principal_peer) then Some true else None |>.

Definition mergeVisibleRemoteSessions (relaySessions peerSessions : list SessionInfo) : list SessionInfo :=
  let candidates := map peer_candidate peerSessions ++ map relay_candidate relaySessions in
  map mark_peer (collapseSidebarCandidates (selectRouteCandidates candidates HYBRID_ROUTE_POLICY)).

Section Selection.
Context {T : Type} (policy : RoutePolicy) (cs : list (RouteCandidate T)).
Implicit Types (c d : RouteCandidate T).

(** The candidates the loop considers. *)
Definition considered : list (RouteCandidate T) := filter (fun c => skipped policy c = false) cs.

Lemma select_groups : map group (selectRouteCandidates cs policy) = firsts (map group considered).
Proof.
  unfold selectRouteCandidates. rewrite select_loop_upsert. fold considered.
  apply (list_fmap_eq_inj group_string _).
  transitivity (map candidateGroupKey (map_values (upsert_loop candidateGroupKey nearer considered [])));
    [apply (map_map group group_string)|].
  rewrite upsert_value_keys.
  change candidateGroupKey with (fun c : RouteCandidate T => group_string (group c)).
  rewrite <- map_map. apply firsts_map, _.
Qed.

Lemma select_winner c :
  c ∈ selectRouteCandidates cs policy <->
  winner nearer None (filter (fun d => group d = group c) considered) = Some c.
Proof.
  unfold selectRouteCandidates. rewrite select_loop_upsert, upsert_values, upsert_get. cbn [map_get].
  fold considered. by rewrite (list_filter_iff _ (fun d => group d = group c))
    by (intros; apply candidateGroupKey_group).
Qed.

Lemma select_best c :
  c ∈ selectRouteCandidates cs policy ->
  exists before after, filter (fun d => group d = group c) considered = before ++ c :: after /\
    (forall d, d ∈ before -> nearer c d = true) /\ (forall d, d ∈ after -> nearer d c = false).
Proof.
  intros H%select_winner.
  destruct (winner_split _ _ _ _ nearer_trans nearer_neg H) as [[? _]|(b & a & ? & _ & ? & ?)];
    [done|eauto].
Qed.

Lemma select_covers c :
  c ∈ considered -> exists d, d ∈ selectRouteCandidates cs policy /\ group d = group c.
Proof.
  intros Hc. assert (Hg : group c ∈ map group (selectRouteCandidates cs policy)).
  { rewrite select_groups. apply firsts_elem. by apply list_elem_of_fmap_2. }
  apply list_elem_of_fmap in Hg as [d [? ?]]. eauto.
Qed.

Lemma select_nearest c d :
  c ∈ considered -> d ∈ selectRouteCandidates cs policy -> group d = group c -> nearer c d = false.
Proof.
  intros Hc Hd Hg. destruct (select_best d Hd) as (b & a & E & Hb & Ha).
  assert (Hin : c ∈ b ++ d :: a) by (rewrite <- E; apply list_elem_of_filter; done).
  apply elem_of_app in Hin as [H|[->|H]%elem_of_cons]; [|by apply Z.ltb_irrefl|by apply Ha].
  apply Hb in H. unfold nearer in *. guards. apply Z.ltb_ge. lia.
Qed.
End Selection.

Section Collapse.
Context {T : Type} (cs : list (RouteCandidate T)) (Hgroups : NoDup (map group cs)).
Implicit Types (c d : RouteCandidate T).

Lemma same_group c d : c ∈ cs -> d ∈ cs -> group c = group d -> c = d.
Proof.
  intros [i Hi]%list_elem_of_lookup [j Hj]%list_elem_of_lookup Hg.
  assert (i = j) as ->; [|congruence].
  eapply (NoDup_lookup _ i j (group c) Hgroups); rewrite list_lookup_fmap, ?Hi, ?Hj; cbn; congruence.
Qed.

(** The collapse keeps a candidate unless it is a peer one and a relay
    candidate of the same session is there. *)
Lemma collapse_elem c :
  c ∈ collapseSidebarCandidates cs <->
  c ∈ cs /\ (principal c = principal_relay \/
             forall d, d ∈ cs -> cand_sessionId d = cand_sessionId c -> principal d = principal_peer).
Proof.
  unfold collapseSidebarCandidates. rewrite collapse_loop_upsert, upsert_values, upsert_get.
  cbn [map_get]. set (l := filter (fun d => cand_sessionId d = cand_sessionId c) cs).
  assert (Hl : forall d, d ∈ l <-> cand_sessionId d = cand_sessionId c /\ d ∈ cs)
    by (intros d; unfold l; by rewrite list_elem_of_filter).
  assert (Hsplit : forall w, winner more_trusted None l = Some w ->
    w ∈ l /\ (principal w = principal_relay \/ forall d, d ∈ l -> principal d = principal_peer)).
  { intros w Hw. destruct (winner_split _ _ _ _ more_trusted_trans more_trusted_neg Hw)
      as [[? _]|(b & a & E & _ & Hb & Ha)]; [done|]. rewrite E. split; [set_solver|].
    destruct (principal w) eqn:Ew; [by left|right]. intros d [H|[->|H]%elem_of_cons]%elem_of_app; [|done|].
    - apply Hb in H. unfold more_trusted in H. rewrite Ew in H. by rewrite andb_comm in H.
    - apply Ha in H. unfold more_trusted in H. rewrite Ew in H. by destruct (principal d). }
  split.
  - intros [Hc Hp]%Hsplit. apply Hl in Hc as [_ Hc]. split; [done|].
    destruct Hp as [?|Hp]; [by left|right]. intros d Hd He. apply Hp, Hl. done.
  - intros [Hc Hp]. destruct (winner more_trusted None l) as [w|] eqn:Ew.
    + destruct (Hsplit w eq_refl) as [[Hws Hw]%Hl Hwp]. f_equal. apply same_group; [done..|].
      unfold group. rewrite Hws. f_equal. destruct Hp as [Hp|Hp].
      * destruct Hwp as [->|Hwp]; [done|]. rewrite (Hwp c) in Hp by (by apply Hl). done.
      * rewrite (Hp w), (Hp c); done.
    + assert (Hin : c ∈ l) by (by apply Hl). exfalso. clear -Ew Hin.
      assert (Hs : forall k d, winner more_trusted (Some d) k <> None).
      { induction k as [|x k IH]; intros d; cbn; [done|]. destruct (more_trusted x d); apply IH. }
      destruct l as [|x l]; [by apply not_elem_of_nil in Hin|]. by apply (Hs l x).
Qed.

Lemma collapse_ids : map cand_sessionId (collapseSidebarCandidates cs) = firsts (map cand_sessionId cs).
Proof. unfold collapseSidebarCandidates. rewrite collapse_loop_upsert. apply upsert_value_keys. Qed.
End Collapse.

Section Merge.
Context (relaySessions peerSessions : list SessionInfo).

Let cands := map peer_candidate peerSessions ++ map relay_candidate relaySessions.
Let sel := selectRouteCandidates cands HYBRID_ROUTE_POLICY.

Lemma skipped_peer s : skipped HYBRID_ROUTE_POLICY (peer_candidate s) = bool_decide (si_id s = ""%string).
Proof. unfold skipped. cbn. by rewrite !orb_false_r. Qed.

Lemma skipped_relay s : skipped HYBRID_ROUTE_POLICY (relay_candidate s) = bool_decide (si_id s = ""%string).
Proof. unfold skipped. cbn. by rewrite !orb_false_r. Qed.

Lemma filter_map_cand (f : SessionInfo -> RouteCandidate SessionInfo) p l id :
  (forall s, skipped HYBRID_ROUTE_POLICY (f s) = bool_decide (si_id s = ""%string)) ->
  (forall s, group (f s) = (p, si_id s)) -> id <> ""%string ->
  filter (fun d => group d = (p, id)) (considered HYBRID_ROUTE_POLICY (map f l)) =
  map f (filter (fun s => si_id s = id) l).
Proof.
  intros Hs Hg Hid. unfold considered. induction l as [|s l IH]; [done|]. cbn [map].
  rewrite !filter_cons. rewrite Hs. destruct (decide (si_id s = id)) as [<-|Hne].
  - rewrite decide_True by (by rewrite bool_decide_false). by rewrite filter_cons, Hg, decide_True, IH.
  - destruct (decide _); [|done]. rewrite filter_cons, Hg, decide_False, IH; [done|congruence].
Qed.

Lemma filter_map_other (f : SessionInfo -> RouteCandidate SessionInfo) p q l id :
  (forall s, group (f s) = (p, si_id s)) -> p <> q ->
  filter (fun d => group d = (q, id)) (considered HYBRID_ROUTE_POLICY (map f l)) = [].
Proof.
  intros Hg Hpq. unfold considered. induction l as [|s l IH]; [done|]. cbn [map]. rewrite filter_cons.
  destruct (decide _); [|done]. by rewrite filter_cons, Hg, decide_False by congruence.
Qed.

Lemma considered_cands :
  considered HYBRID_ROUTE_POLICY cands =
  considered HYBRID_ROUTE_POLICY (map peer_candidate peerSessions) ++
  considered HYBRID_ROUTE_POLICY (map relay_candidate relaySessions).
Proof. apply filter_app. Qed.

Lemma winner_mapped (f : SessionInfo -> RouteCandidate SessionInfo) l s :
  (forall a b, nearer (f a) (f b) = false) -> (forall a b, f a = f b -> a = b) ->
  winner nearer None (map f l) = Some (f s) <-> head l = Some s.
Proof.
  intros Hn Hf. rewrite winner_head.
  - destruct l as [|x l]; cbn; [done|]. split; [intros [= H]; by rewrite (Hf _ _ H)|congruence].
  - intros c d [x [-> _]]%list_elem_of_fmap [y [-> _]]%list_elem_of_fmap. apply Hn.
Qed.

Lemma sel_form c :
  c ∈ sel -> si_id (value c) <> ""%string /\
  (c = peer_candidate (value c) \/ c = relay_candidate (value c)).
Proof.
  intros (b & a & E & _)%select_best.
  assert (Hc : c ∈ considered HYBRID_ROUTE_POLICY cands).
  { assert (Hin : c ∈ b ++ c :: a) by set_solver. rewrite <- E in Hin.
    by apply list_elem_of_filter in Hin as [_ ?]. }
  apply list_elem_of_filter in Hc as [Hs Hc]. unfold cands in Hc.
  apply elem_of_app in Hc as [[s [-> _]]%list_elem_of_fmap|[s [-> _]]%list_elem_of_fmap];
    rewrite ?skipped_peer, ?skipped_relay in Hs; guards; auto.
Qed.

Lemma sel_peer s :
  si_id s <> ""%string ->
  peer_candidate s ∈ sel <-> head (filter (fun p => si_id p = si_id s) peerSessions) = Some s.
Proof.
  intros Hid. unfold sel. rewrite select_winner, considered_cands, filter_app.
  change (group (peer_candidate s)) with (principal_peer, si_id s).
  rewrite (filter_map_cand peer_candidate _ _ _ skipped_peer) by done.
  rewrite (filter_map_other relay_candidate principal_relay) by done. rewrite app_nil_r.
  apply winner_mapped; [done|]. by intros a b [= _ ->].
Qed.

Lemma sel_relay s :
  si_id s <> ""%string ->
  relay_candidate s ∈ sel <-> head (filter (fun r => si_id r = si_id s) relaySessions) = Some s.
Proof.
  intros Hid. unfold sel. rewrite select_winner, considered_cands, filter_app.
  change (group (relay_candidate s)) with (principal_relay, si_id s).
  rewrite (filter_map_cand relay_candidate _ _ _ skipped_relay) by done.
  rewrite (filter_map_other peer_candidate principal_peer) by done.
  apply winner_mapped; [done|]. by intros a b [= _ ->].
Qed.

Lemma sel_groups : NoDup (map group sel).
Proof. unfold sel. rewrite select_groups. apply firsts_NoDup. Qed.

Lemma considered_ids :
  map cand_sessionId (considered HYBRID_ROUTE_POLICY cands) =
  filter (.≠ ""%string) (map si_id (peerSessions ++ relaySessions)).
Proof.
  assert (H : forall f : SessionInfo -> RouteCandidate SessionInfo,
    (forall s, skipped HYBRID_ROUTE_POLICY (f s) = bool_decide (si_id s = ""%string)) ->
    (forall s, cand_sessionId (f s) = si_id s) -> forall l,
    map cand_sessionId (considered HYBRID_ROUTE_POLICY (map f l)) = filter (.≠ ""%string) (map si_id l)).
  { intros f Hs Hi. unfold considered. induction l as [|s l IH]; [done|]. cbn [map].
    rewrite !filter_cons, Hs. destruct (decide (si_id s = ""%string)) as [E|E].
    - rewrite bool_decide_true, decide_False, decide_False by first [done|tauto]. apply IH.
    - rewrite bool_decide_false, !decide_True by done. cbn [map]. by rewrite Hi, IH. }
  rewrite considered_cands, !map_app, filter_app.
  by rewrite (H peer_candidate skipped_peer), (H relay_candidate skipped_relay).
Qed.

Lemma merged_ids :
  map si_id (mergeVisibleRemoteSessions relaySessions peerSessions) =
  firsts (filter (.≠ ""%string) (map si_id (peerSessions ++ relaySessions))).
Proof.
  unfold mergeVisibleRemoteSessions. fold cands. fold sel. rewrite map_map.
  transitivity (map cand_sessionId (collapseSidebarCandidates sel)).
  - apply map_ext_in. intros c Hc%list_elem_of_In.
    apply collapse_elem in Hc as [[_ H]%sel_form _]; [|apply sel_groups].
    by destruct H as [-> | ->].
  - rewrite collapse_ids. change (@cand_sessionId SessionInfo) with (fun c => snd (@group SessionInfo c)).
    rewrite <- map_map. unfold sel. rewrite select_groups, firsts_map_firsts, map_map.
    by rewrite <- considered_ids.
Qed.
End Merge.

(** ** Properties *)

(** The selection returns, for each trust principal and session, exactly
    one of its eligible candidates: one that is strictly nearer (direct, then
    quick tunnel, then relay) than the eligible ones listed before it and at
    least as near as those listed after. No group is lost, none appears twice,
    a peer candidate is never weighed against a relay one, and the groups come
    out in the order in which their first eligible candidate came in. *)
Theorem selectRouteCandidates_correct {T} (cs : list (RouteCandidate T)) (policy : RoutePolicy) :
  let out := selectRouteCandidates cs policy in
  let eligible := filter (fun c => skipped policy c = false) cs in
  map group out = firsts (map group eligible) /\
  (forall c, c ∈ out ->
     exists before after, filter (fun d => group d = group c) eligible = before ++ c :: after /\
       (forall d, d ∈ before -> nearer c d = true) /\ (forall d, d ∈ after -> nearer d c = false)) /\
  (forall c, c ∈ eligible -> exists d, d ∈ out /\ group d = group c /\ nearer c d = false).
Proof.
  split_and!; [apply select_groups|apply select_best|].
  intros c Hc. destruct (select_covers policy cs c Hc) as (d & Hd & Hg).
  exists d. split_and!; [done|done|]. by apply (select_nearest policy cs).
Qed.

(** The remote list the sidebar shows: a session is in it once, under the
    first record of its id in the relay list when the relay lists it (then it
    is not marked as a peer session), and otherwise under the first record in
    the peer list, marked; sessions without an id never appear, and ids come
    out in the order in which the peer list, then the relay list, name them. *)
Theorem mergeVisibleRemoteSessions_correct (relaySessions peerSessions : list SessionInfo) :
  let out := mergeVisibleRemoteSessions relaySessions peerSessions in
  map si_id out = firsts (filter (.≠ ""%string) (map si_id (peerSessions ++ relaySessions))) /\
  (forall s, s ∈ out <->
     si_id s <> ""%string /\
     match head (filter (fun r => si_id r = si_id s) relaySessions) with
     | Some r => s = r <| peer_direct := None |>
     | None => exists p, head (filter (fun p => si_id p = si_id s) peerSessions) = Some p /\
                         s = p <| peer_direct := Some true |>
     end).
Proof.
  split; [apply merged_ids|]. intros s. unfold mergeVisibleRemoteSessions.
  set (sel := selectRouteCandidates _ _).
  pose proof (sel_groups relaySessions peerSessions) as Hg. fold sel in Hg.
  rewrite list_elem_of_fmap. setoid_rewrite (collapse_elem sel Hg). split.
  - intros (c & -> & Hc & Hp). destruct (sel_form _ _ _ Hc) as [Hid Hform].
    destruct Hform as [E|E]; rewrite E in Hc |- *; cbn [mark_peer si_id].
    + split; [done|]. apply sel_peer in Hc; [|done].
      destruct (head (filter _ relaySessions)) as [r|] eqn:Hr; [exfalso|by eexists].
      pose proof (head_filter _ _ _ Hr) as Hrid. cbn in Hrid.
      destruct Hp as [Hp|Hp]; [by rewrite E in Hp|].
      enough (principal_relay = principal_peer) by done.
      apply (Hp (relay_candidate r)); [|by rewrite E].
      apply sel_relay; [by rewrite Hrid|]. by rewrite Hrid.
    + split; [done|]. apply sel_relay in Hc; [|done]. cbn [mark_peer value relay_candidate set_field]. by destruct (head _) as [r|]; simplify_eq.
  - intros [Hid H]. destruct (head (filter _ relaySessions)) as [r|] eqn:Hr.
    + exists (relay_candidate r). subst s. split; [done|]. split; [|by left].
      cbn in *. by apply sel_relay.
    + destruct H as (p & Hp & ->). exists (peer_candidate p). split; [done|]. cbn in *.
      split; [by apply sel_peer|right]. intros d Hd He.
      destruct (sel_form _ _ _ Hd) as [Hdi Hform]. destruct Hform as [E|E]; rewrite E; [done|].
      rewrite E in Hd, He. apply sel_relay in Hd; [|done]. cbn in Hd, He. rewrite He in Hd. congruence.
Qed.
