(* ===== verification/Opaque.v ===== *)
(** * End-to-end encryption of account keys and session content
      ([src/desktop/frontend/src/lib/opaque.ts])

    The account-key wrap under a password, the per-session key, and the AEAD
    envelopes [cipher_id(1) || nonce(24) || ciphertext] of the frames, whose
    associated data binds the session, the frame type and, for terminal
    output, the sequence number. Argon2id and the random bytes come from
    [@noble] packages: they are arguments. *)

From S2P Require Import Prelude Bytes JsString JsMap Json JsonText DirectCrypto.

Definition b64ToBytes (s : jsstr) : result bytes :=
  let norm := replace_char 95 47 (replace_char 45 43 s) in
  let pad := if zlen norm mod 4 =? 0 then [] else replicate (Z.to_nat (4 - zlen norm mod 4)) 61 in
  match atob (norm ++ pad) with
  | Some bin => Ok bin
  | None => Throw "InvalidCharacterError"
  end.

Definition SESSION_INFO_AAD_FRAME_TYPE : Z := 0x12.
Definition CIPHER_ID_XCHACHA20_POLY1305 : Z := 0x01.
Definition OUT_AAD_FRAME_TYPE : Z := 0x03.
Definition META_AAD_FRAME_TYPE : Z := 0x05.
Definition FS_REQUEST_AAD_FRAME_TYPE : Z := 0x38.
Definition FS_RESPONSE_AAD_FRAME_TYPE : Z := 0x39.
Definition FS_EVENT_AAD_FRAME_TYPE : Z := 0x3a.

Definition uuidStringToBytes (s : jsstr) : result bytes :=
  let hex := remove_char 45 s in
  throw_if (negb (zlen hex =? 32)) "invalid uuid" ;;;
  Ok (hex_fill 16 0 hex (zeros 16)).

Record ServiceKeys := mkServiceKeys { clientToHost : bytes; hostToClient : bytes }.

(** [wrapAccountKey]'s result and the parameters of the derivation; a wrap read
    from elsewhere can lack a parameter. *)
Record KDFParams := mkKDF {
  kdf_alg : option Json;
  kdf_m : option Json;
  kdf_t : option Json;
  kdf_p : option Json;
}.

Record AccountKeyWrap := mkWrap {
  wrap_method : jsstr;
  wrapped : jsstr;
  wrap_nonce : jsstr;
  wrap_salt : jsstr;
  wrap_kdf_params : jsstr;
}.

Definition defaultKDFParams : KDFParams :=
  mkKDF (Some (JStr (js "argon2id"))) (Some (jint (64 * 1024))) (Some (jint 3)) (Some (jint 1)).

(** [JSON.stringify(kp)] leaves out the undefined fields. *)
Definition kdf_json (kp : KDFParams) : Json :=
  JObj (omap (fun kv => match snd kv with Some v => Some (js (fst kv), v) | None => None end)
         [("alg"%string, kdf_alg kp); ("m"%string, kdf_m kp); ("t"%string, kdf_t kp);
          ("p"%string, kdf_p kp)]).

Section Opaque.
Context `{Crypto} `{JsText}.
(** password bytes, salt, the three cost parameters, output length *)
Context (argon2id : bytes -> bytes -> option Json * option Json * option Json -> Z -> result bytes).

Definition ACCOUNT_KEY_AAD : bytes := utf8ToBytes (js "atterm-account-key-v1").
Definition SESSION_KEY_INFO_PREFIX : bytes := utf8ToBytes (js "atterm-session-v1").
Definition PAIR_WRAP_AAD : bytes := utf8ToBytes (js "atterm-pair-wrap-v1").

Definition deriveWrapKey (password : jsstr) (salt : bytes) (kp : KDFParams) : result bytes :=
  argon2id (utf8ToBytes password) salt (kdf_m kp, kdf_t kp, kdf_p kp) 32.

(** [salt] and [nonce] are the two calls of [randomBytes]. *)
Definition wrapAccountKey (salt nonce : bytes) (password : jsstr) (accountKey : bytes)
    (kp : KDFParams) : result AccountKeyWrap :=
  throw_if (negb (zlen accountKey =? 32)) "accountKey must be 32 bytes" ;;;
  let* wrapKey := deriveWrapKey password salt kp in
  let ciphertext := xchacha_encrypt wrapKey nonce ACCOUNT_KEY_AAD accountKey in
  Ok (mkWrap (js "password") (btoa ciphertext) (btoa nonce) (btoa salt) (JSON_stringify (kdf_json kp))).

Definition unwrapWithPassword (password : jsstr) (wrap : AccountKeyWrap) : result bytes :=
  let* j := JSON_parse (wrap_kdf_params wrap) in
  let* alg := prop j "alg" in
  throw_if (negb (match alg with Some (JStr s) => bool_decide (s = js "argon2id") | _ => false end))
    "unsupported kdf alg" ;;;
  let* m := prop j "m" in
  let* t := prop j "t" in
  let* p := prop j "p" in
  let* salt := b64ToBytes (wrap_salt wrap) in
  let* wrapKey := deriveWrapKey password salt (mkKDF alg m t p) in
  let* nonce := b64ToBytes (wrap_nonce wrap) in
  let opened :=
    let* c := b64ToBytes (wrapped wrap) in
    xchacha_decrypt wrapKey nonce ACCOUNT_KEY_AAD c in
  match opened with
  | Ok k => Ok k
  | Throw _ => Throw "invalid password"
  end.

Definition deriveSessionKey (accountKey : bytes) (sessionUUID : jsstr) : result bytes :=
  let* uuid := uuidStringToBytes sessionUUID in
  let* info := set_range (zeros (zlen SESSION_KEY_INFO_PREFIX + zlen uuid)) SESSION_KEY_INFO_PREFIX 0 in
  let* info := set_range info uuid (zlen SESSION_KEY_INFO_PREFIX) in
  Ok (hkdf_sha256 accountKey [] info 32).

(** [const minEnvelopeLen = 1 + 24 + 16] and the two structural checks. *)
Definition envelope_ok (env : bytes) : bool :=
  negb (zlen env <? 1 + 24 + 16)
  && bool_decide (idx env 0 = Some CIPHER_ID_XCHACHA20_POLY1305).

Definition envelope_nonce (env : bytes) : bytes := slice env 1 (1 + 24).
Definition envelope_body (env : bytes) : bytes := slice_from env (1 + 24).

(** A [try { ... } catch { return null }]. *)
Definition or_null {A} (r : result A) : option A :=
  match r with Ok a => Some a | Throw _ => None end.

Definition openOutFrame (env : bytes) (accountKey : bytes) (sessionUUID : jsstr) (seq : Z)
    : option bytes :=
  if negb (envelope_ok env) then None
  else
    match deriveSessionKey accountKey sessionUUID, uuidStringToBytes sessionUUID with
    | Ok sk, Ok uuid =>
        let aad := zeros (zlen uuid + 1 + 8) in
        or_null (
          let* aad := set_range aad uuid 0 in
          let aad := set_idx aad (zlen uuid) OUT_AAD_FRAME_TYPE in
          let* aad := setUint 8 aad (zlen uuid + 1) seq in
          xchacha_decrypt sk (envelope_nonce env) aad (envelope_body env))
    | _, _ => None
    end.

Definition unsequencedAAD (sessionUUID : jsstr) (frameType : Z) : result bytes :=
  let* uuid := uuidStringToBytes sessionUUID in
  let* aad := set_range (zeros (zlen uuid + 1)) uuid 0 in
  Ok (set_idx aad (zlen uuid) frameType).

(** [openSealedFields]: the JSON value inside the envelope. *)
Definition openSealedFields (env : bytes) (accountKey : bytes) (sessionUUID : jsstr)
    (frameType : Z) : result (option Json) :=
  if negb (envelope_ok env) then Ok None
  else
    match deriveSessionKey accountKey sessionUUID with
    | Throw _ => Ok None
    | Ok sk =>
        let* aad := unsequencedAAD sessionUUID frameType in
        match xchacha_decrypt sk (envelope_nonce env) aad (envelope_body env) with
        | Throw _ => Ok None
        | Ok plaintext => Ok (or_null (JSON_parse (decodeText plaintext)))
        end
    end.

Definition openSessionFields (env accountKey : bytes) (sessionUUID : jsstr) : result (option Json) :=
  openSealedFields env accountKey sessionUUID SESSION_INFO_AAD_FRAME_TYPE.

Definition openMetaFields (env accountKey : bytes) (sessionUUID : jsstr) : result (option Json) :=
  openSealedFields env accountKey sessionUUID META_AAD_FRAME_TYPE.

Definition openAccountKeyWrap (env wrapKey : bytes) : option bytes :=
  if negb (envelope_ok env) then None
  else if negb (zlen wrapKey =? 32) then None
  else or_null (xchacha_decrypt wrapKey (envelope_nonce env) PAIR_WRAP_AAD (envelope_body env)).

(** [nonce] is the call of [randomBytes(24)]. *)
Definition sealUnsequenced (nonce accountKey : bytes) (sessionUUID : jsstr) (frameType : Z)
    (plaintext : bytes) : result bytes :=
  let* sk := deriveSessionKey accountKey sessionUUID in
  let* aad := unsequencedAAD sessionUUID frameType in
  let ciphertext := xchacha_encrypt sk nonce aad plaintext in
  let out := zeros (1 + zlen nonce + zlen ciphertext) in
  let out := set_idx out 0 CIPHER_ID_XCHACHA20_POLY1305 in
  let* out := set_range out nonce 1 in
  set_range out ciphertext (1 + zlen nonce).

Definition deriveServiceKeys (accountKey : bytes) (serviceUUID : jsstr) : result ServiceKeys :=
  throw_if (negb (zlen accountKey =? 32)) "account_key must be 32 bytes" ;;;
  let* serviceID := uuidStringToBytes serviceUUID in
  let prefix := utf8ToBytes (js "atterm-service-v1") in
  let* info := set_range (zeros (zlen prefix + zlen serviceID)) prefix 0 in
  let* info := set_range info serviceID (zlen prefix) in
  let out := hkdf_sha256 accountKey [] info 64 in
  Ok (mkServiceKeys (slice out 0 32) (slice out 32 64)).

Definition openUnsequencedFrame (accountKey : bytes) (sessionUUID : jsstr) (frameType : Z)
    (env : bytes) : option bytes :=
  if negb (envelope_ok env) then None
  else or_null (
    let* sk := deriveSessionKey accountKey sessionUUID in
    let* aad := unsequencedAAD sessionUUID frameType in
    xchacha_decrypt sk (slice env 1 25) aad (slice_from env 25)).
End Opaque.

(** ** Lemmas *)

Lemma b64ToBytes_btoa p : bytes_ok p -> b64ToBytes (btoa p) = Ok p.
Proof.
  intros Hp. unfold b64ToBytes. rewrite btoa_url_safe by done. cbv zeta.
  rewrite btoa_length. cbn [Z.eqb]. by rewrite app_nil_r, atob_btoa.
Qed.

Section OpaqueLemmas.
Context `{CryptoLaws}.

Lemma uuidStringToBytes_length s u : uuidStringToBytes s = Ok u -> zlen u = 16.
Proof. unfold uuidStringToBytes. intros E. inv_ok. by rewrite zlen_hex_fill. Qed.

Lemma deriveSessionKey_ok key s u :
  uuidStringToBytes s = Ok u ->
  deriveSessionKey key s = Ok (hkdf_sha256 key [] (SESSION_KEY_INFO_PREFIX ++ u) 32).
Proof.
  intros E. pose proof (uuidStringToBytes_length _ _ E) as Hu.
  pose proof (zlen_nonneg SESSION_KEY_INFO_PREFIX).
  unfold deriveSessionKey. rewrite E. cbn [rbind].
  rewrite <- (app_nil_l (zeros _)), set_range_zeros by (done || lia). cbn [rbind app].
  rewrite set_range_zeros by lia. cbn [rbind].
  replace (zlen SESSION_KEY_INFO_PREFIX + zlen u - zlen SESSION_KEY_INFO_PREFIX - zlen u) with 0 by lia.
  change (zeros 0) with (@nil Z). by rewrite app_nil_r.
Qed.

Lemma set_idx_end (a : bytes) v n : 0 <= n -> set_idx (a ++ zeros (1 + n)) (zlen a) v = a ++ (v mod 256) :: zeros n.
Proof.
  intros Hn. unfold set_idx. rewrite zlen_nat, zeros_cons by done.
  rewrite insert_app_r_alt by done. by rewrite Nat.sub_diag.
Qed.

Lemma unsequencedAAD_ok s u t :
  uuidStringToBytes s = Ok u -> unsequencedAAD s t = Ok (u ++ [t mod 256]).
Proof.
  intros E. unfold unsequencedAAD. rewrite E. cbn [rbind].
  pose proof (zlen_nonneg u).
  rewrite <- (app_nil_l (zeros _)), set_range_zeros by (done || lia). cbn [rbind app].
  replace (zlen u + 1 - zlen u) with (1 + 0) by lia. by rewrite set_idx_end.
Qed.

(** The bytes of an envelope. *)
Definition envelope (nonce body : bytes) : bytes := CIPHER_ID_XCHACHA20_POLY1305 :: nonce ++ body.

Lemma envelope_parse nonce body :
  zlen nonce = 24 -> 16 <= zlen body ->
  envelope_ok (envelope nonce body) = true /\
  envelope_nonce (envelope nonce body) = nonce /\ envelope_body (envelope nonce body) = body.
Proof.
  intros Hn Hb. unfold envelope_ok, envelope_nonce, envelope_body, envelope. split_and!.
  - apply andb_true_intro. split.
    + apply negb_true_iff, Z.ltb_ge. rewrite zlen_cons, zlen_app. lia.
    + by apply bool_decide_eq_true.
  - apply (slice_app [CIPHER_ID_XCHACHA20_POLY1305] nonce body); rewrite zlen_cons, zlen_nil; lia.
  - rewrite app_comm_cons. apply slice_from_app. rewrite zlen_cons. lia.
Qed.

Lemma sealUnsequenced_ok nonce key s u t pt :
  uuidStringToBytes s = Ok u -> zlen nonce = 24 ->
  sealUnsequenced nonce key s t pt =
    Ok (envelope nonce (xchacha_encrypt (hkdf_sha256 key [] (SESSION_KEY_INFO_PREFIX ++ u) 32) nonce
                          (u ++ [t mod 256]) pt)).
Proof.
  intros E Hn. unfold sealUnsequenced. rewrite (deriveSessionKey_ok _ _ _ E). cbn [rbind].
  rewrite (unsequencedAAD_ok _ _ _ E). cbn [rbind].
  set (c := xchacha_encrypt _ _ _ _). pose proof (zlen_nonneg c).
  replace (1 + zlen nonce + zlen c) with (1 + (zlen nonce + zlen c)) by lia.
  change (set_idx (zeros ?n) 0 ?v) with (set_idx ([] ++ zeros n) (zlen (@nil Z)) v).
  rewrite set_idx_end by lia. cbn [app].
  change (?x :: zeros ?n) with ([x] ++ zeros n).
  rewrite set_range_zeros by (rewrite ?zlen_cons, ?zlen_nil; lia). cbn [rbind].
  rewrite app_assoc, set_range_zeros by (rewrite ?zlen_app, ?zlen_cons, ?zlen_nil; lia).
  replace (zlen nonce + zlen c - zlen nonce - zlen c) with 0 by lia.
  change (zeros 0) with (@nil Z). rewrite app_nil_r. done.
Qed.
End OpaqueLemmas.

(** The associated data of an OUT frame. *)
Definition out_aad (u : bytes) (seq : Z) : bytes := u ++ OUT_AAD_FRAME_TYPE :: be_bytes 8 seq.

Lemma openOutFrame_eq `{CryptoLaws} env key s u seq :
  uuidStringToBytes s = Ok u ->
  openOutFrame env key s seq =
    if envelope_ok env
    then or_null (xchacha_decrypt (hkdf_sha256 key [] (SESSION_KEY_INFO_PREFIX ++ u) 32)
                    (envelope_nonce env) (out_aad u seq) (envelope_body env))
    else None.
Proof.
  intros E. unfold openOutFrame. destruct (envelope_ok env); [|done]. cbn [negb].
  rewrite (deriveSessionKey_ok _ _ _ E), E. cbv zeta.
  pose proof (uuidStringToBytes_length _ _ E) as Hu. rewrite Hu.
  rewrite <- (app_nil_l (zeros _)), set_range_zeros by (done || lia). cbn [rbind app]. rewrite Hu.
  replace (16 + 1 + 8 - 16) with (1 + 8) by lia. rewrite <- Hu, set_idx_end by lia.
  change (OUT_AAD_FRAME_TYPE mod 256) with OUT_AAD_FRAME_TYPE.
  replace (u ++ OUT_AAD_FRAME_TYPE :: zeros 8) with ((u ++ [OUT_AAD_FRAME_TYPE]) ++ zeros (8 + 0))
    by (rewrite <- app_assoc; done).
  rewrite (setUint_zeros 8) by (rewrite ?zlen_app, ?zlen_cons, ?zlen_nil; lia). cbn [rbind].
  f_equal. unfold out_aad. change (zeros (8 + 0 - Z.of_nat 8)) with (@nil Z).
  by rewrite app_nil_r, <- app_assoc.
Qed.

(** ** Properties *)

(** What a sealed frame is: terminal output with its sequence number, or
    another frame of a type. *)
Inductive SealedFrame := Output (seq : Z) | Unsequenced (frameType : Z).

Definition frame_ok (f : SealedFrame) : Prop :=
  match f with Output seq => 0 <= seq < 2 ^ 64 | Unsequenced t => is_byte t end.

Definition frame_aad (u : bytes) (f : SealedFrame) : bytes :=
  match f with Output seq => out_aad u seq | Unsequenced t => u ++ [t] end.

Lemma frame_aad_inj u u' f f' :
  zlen u = zlen u' -> frame_ok f -> frame_ok f' -> frame_aad u' f' = frame_aad u f <-> u' = u /\ f' = f.
Proof.
  intros Hu Hf Hf'. split; [|by intros [-> ->]]. unfold frame_aad, out_aad. intros E.
  assert (E' : u' = u /\ match f' with Output seq => OUT_AAD_FRAME_TYPE :: be_bytes 8 seq | Unsequenced t => [t] end
                        = match f with Output seq => OUT_AAD_FRAME_TYPE :: be_bytes 8 seq | Unsequenced t => [t] end)
    by (destruct f, f'; (apply app_inj_zlen in E; [exact E|lia])).
  destruct E' as [-> E']. split; [done|]. clear E. destruct f as [seq|t], f' as [seq'|t']; cbn [frame_ok] in *.
  - apply (f_equal (drop 1)) in E'. change (be_bytes 8 seq' = be_bytes 8 seq) in E'.
    apply (be_bytes_inj 8) in E'; [by subst|lia..].
  - by apply (f_equal length) in E'.
  - by apply (f_equal length) in E'.
  - by simplify_eq.
Qed.

Section Separation.
Context `{CryptoLaws} `{JsText}.

Definition session_key (key u : bytes) : bytes := hkdf_sha256 key [] (SESSION_KEY_INFO_PREFIX ++ u) 32.

(** The envelope of a frame: its cipher is keyed by the session and bound to
    the session and the frame. *)
Definition sealed_as (nonce key u : bytes) (f : SealedFrame) (pt : bytes) : bytes :=
  envelope nonce (xchacha_encrypt (session_key key u) nonce (frame_aad u f) pt).

(** What the reader of such a frame opens an envelope to. *)
Definition opened_as (f : SealedFrame) (key : bytes) (s : jsstr) (env : bytes) : option bytes :=
  match f with
  | Output seq => openOutFrame env key s seq
  | Unsequenced t => openUnsequencedFrame key s t env
  end.

(** The authenticity of the cipher, for one ciphertext: it opens under no
    other associated data, whatever the key. *)
Definition bound_to (aad nonce c : bytes) : Prop :=
  forall k a p, xchacha_decrypt k nonce a c = Ok p -> a = aad.

Lemma opened_as_eq f key s u env :
  uuidStringToBytes s = Ok u -> frame_ok f ->
  opened_as f key s env =
    if envelope_ok env
    then or_null (xchacha_decrypt (session_key key u) (envelope_nonce env) (frame_aad u f) (envelope_body env))
    else None.
Proof.
  intros E Hf. destruct f as [seq|t]; cbn [opened_as frame_ok frame_aad] in *; [by apply openOutFrame_eq|].
  unfold openUnsequencedFrame. rewrite (deriveSessionKey_ok _ _ _ E), (unsequencedAAD_ok _ _ _ E). unfold is_byte in Hf.
  rewrite Z.mod_small by lia. by destruct (envelope_ok env).
Qed.

Lemma openSealedFields_eq t key s u env :
  uuidStringToBytes s = Ok u -> is_byte t ->
  openSealedFields env key s t =
    if envelope_ok env
    then Ok (match xchacha_decrypt (session_key key u) (envelope_nonce env) (frame_aad u (Unsequenced t)) (envelope_body env) with
             | Ok plaintext => or_null (JSON_parse (decodeText plaintext))
             | Throw _ => None
             end)
    else Ok None.
Proof.
  intros E Ht. unfold openSealedFields. rewrite (deriveSessionKey_ok _ _ _ E), (unsequencedAAD_ok _ _ _ E). cbn [rbind].
  unfold is_byte in Ht. rewrite Z.mod_small by lia. destruct (envelope_ok env); [|done]. cbn [negb frame_aad].
  by destruct (xchacha_decrypt _ _ _ _).
Qed.

Lemma sealed_parse nonce key u f pt :
  zlen nonce = 24 ->
  let env := sealed_as nonce key u f pt in
  let c := xchacha_encrypt (session_key key u) nonce (frame_aad u f) pt in
  envelope_ok env = true /\ envelope_nonce env = nonce /\ envelope_body env = c /\ slice_from env 25 = c.
Proof.
  intros Hn. cbv zeta. unfold sealed_as. set (c := xchacha_encrypt _ _ _ _).
  assert (Hc : zlen c = zlen pt + 16) by apply xchacha_length. pose proof (zlen_nonneg pt).
  destruct (envelope_parse nonce c Hn ltac:(lia)) as (Hok & Hen & Heb). by split_and!.
Qed.

Lemma opened_sealed nonce key u f pt f' key' s' u' :
  zlen nonce = 24 -> uuidStringToBytes s' = Ok u' -> frame_ok f' ->
  opened_as f' key' s' (sealed_as nonce key u f pt) =
    or_null (xchacha_decrypt (session_key key' u') nonce (frame_aad u' f') (slice_from (sealed_as nonce key u f pt) 25)).
Proof.
  intros Hn Hu' Hf'. destruct (sealed_parse nonce key u f pt Hn) as (Hok & Hen & Heb & Hc).
  by rewrite (opened_as_eq f' key' s' u'), Hok, Hen, Heb, Hc.
Qed.

Lemma fields_sealed nonce key u f pt t key' s' u' :
  zlen nonce = 24 -> uuidStringToBytes s' = Ok u' -> is_byte t ->
  openSealedFields (sealed_as nonce key u f pt) key' s' t =
    Ok (opened_as (Unsequenced t) key' s' (sealed_as nonce key u f pt) ≫=
        fun plaintext => or_null (JSON_parse (decodeText plaintext))).
Proof.
  intros Hn Hu' Ht. destruct (sealed_parse nonce key u f pt Hn) as (Hok & Hen & Heb & Hc).
  rewrite (opened_sealed nonce key u f pt (Unsequenced t) key' s' u') by done.
  rewrite (openSealedFields_eq t key' s' u'), Hok, Hen, Heb, Hc by done.
  by destruct (xchacha_decrypt _ _ _ _).
Qed.

Lemma opened_own nonce key u f pt s :
  zlen nonce = 24 -> uuidStringToBytes s = Ok u -> frame_ok f ->
  opened_as f key s (sealed_as nonce key u f pt) = Some pt.
Proof.
  intros Hn Hu Hf. rewrite (opened_sealed nonce key u f pt f key s u) by done.
  destruct (sealed_parse nonce key u f pt Hn) as (_ & _ & _ & Hc). by rewrite Hc, xchacha_roundtrip.
Qed.

Lemma opened_bound nonce key s u f pt f' key' s' u' p :
  zlen nonce = 24 -> uuidStringToBytes s = Ok u -> frame_ok f -> uuidStringToBytes s' = Ok u' -> frame_ok f' ->
  bound_to (frame_aad u f) nonce (slice_from (sealed_as nonce key u f pt) 25) ->
  opened_as f' key' s' (sealed_as nonce key u f pt) = Some p -> u' = u /\ f' = f.
Proof.
  intros Hn Hu Hf Hu' Hf' Hb. rewrite (opened_sealed nonce key u f pt f' key' s' u') by done.
  destruct (xchacha_decrypt _ _ _ _) as [p'|] eqn:Ed; [|done]. intros _. apply Hb in Ed.
  apply frame_aad_inj in Ed; [done| |done..].
  by rewrite (uuidStringToBytes_length _ _ Hu), (uuidStringToBytes_length _ _ Hu').
Qed.

(** C37. Sealed frames: the envelope sealed for a session and a frame is 41
    bytes longer than its content and opens to it there, by the reader of the
    frame's type; the session fields and the metadata open to the JSON value of
    their content. Each reader asks the cipher for the key of its session, and
    for associated data that are the sealer's exactly for the same session, the
    same type and, for terminal output, the same sequence number. So, the
    cipher being authentic, no reader opens the envelope under another session,
    type or sequence number, not even with another account key. Envelopes too
    short or of another cipher open nowhere. *)
Theorem sealed_frames_separated (nonce key : bytes) (s : jsstr) (u : bytes) (f : SealedFrame) (pt : bytes)
    (Hn : zlen nonce = 24) (Hu : uuidStringToBytes s = Ok u) (Hf : frame_ok f) :
  let env := sealed_as nonce key u f pt in
  let fields := or_null (JSON_parse (decodeText pt)) in
  zlen env = zlen pt + 41 /\ opened_as f key s env = Some pt /\
  match f with
  | Output _ => True
  | Unsequenced t =>
      sealUnsequenced nonce key s t pt = Ok env /\ openSealedFields env key s t = Ok fields /\
      (t = SESSION_INFO_AAD_FRAME_TYPE -> openSessionFields env key s = Ok fields) /\
      (t = META_AAD_FRAME_TYPE -> openMetaFields env key s = Ok fields)
  end /\
  (forall key' s' u' f', uuidStringToBytes s' = Ok u' -> frame_ok f' ->
    opened_as f' key' s' env =
      or_null (xchacha_decrypt (session_key key' u') nonce (frame_aad u' f') (slice_from env 25)) /\
    (frame_aad u' f' = frame_aad u f <-> u' = u /\ f' = f)) /\
  (bound_to (frame_aad u f) nonce (slice_from env 25) ->
   forall key' s' u', uuidStringToBytes s' = Ok u' ->
    (forall f' p, frame_ok f' -> opened_as f' key' s' env = Some p -> u' = u /\ f' = f) /\
    (forall t j, is_byte t -> openSealedFields env key' s' t = Ok (Some j) -> u' = u /\ f = Unsequenced t) /\
    (forall j, openSessionFields env key' s' = Ok (Some j) -> u' = u /\ f = Unsequenced SESSION_INFO_AAD_FRAME_TYPE) /\
    (forall j, openMetaFields env key' s' = Ok (Some j) -> u' = u /\ f = Unsequenced META_AAD_FRAME_TYPE)) /\
  (forall e, envelope_ok e = false ->
    (forall f', opened_as f' key s e = None) /\ forall t, openSealedFields e key s t = Ok None).
Proof.
  cbv zeta. set (env := sealed_as nonce key u f pt).
  destruct (sealed_parse nonce key u f pt Hn) as (_ & _ & _ & Hc). pose proof (zlen_nonneg pt).
  pose proof (opened_own nonce key u f pt s Hn Hu Hf) as Hown. split_and!; [| | | | |].
  - unfold env, sealed_as, envelope. rewrite zlen_cons, zlen_app, xchacha_length. lia.
  - exact Hown.
  - destruct f as [|t]; [done|]. cbn [frame_ok] in Hf.
    assert (Ho : openSealedFields env key s t = Ok (or_null (JSON_parse (decodeText pt)))).
    { unfold env. by rewrite (fields_sealed nonce key u _ pt t key s u), Hown. }
    split_and!; [|exact Ho|by intros ->..].
    rewrite (sealUnsequenced_ok _ _ _ _ _ _ Hu Hn). unfold is_byte in Hf. by rewrite Z.mod_small by lia.
  - intros key' s' u' f' Hu' Hf'. split; [by apply opened_sealed|].
    apply frame_aad_inj; [|done..]. by rewrite (uuidStringToBytes_length _ _ Hu), (uuidStringToBytes_length _ _ Hu').
  - intros Hb key' s' u' Hu'.
    assert (Hf' : forall f' p, frame_ok f' -> opened_as f' key' s' env = Some p -> u' = u /\ f' = f)
      by (intros f' p Hf'; by apply (opened_bound nonce key s)).
    assert (Ht : forall t j, is_byte t -> openSealedFields env key' s' t = Ok (Some j) -> u' = u /\ f = Unsequenced t).
    { intros t j Hty. unfold env. rewrite (fields_sealed nonce key u f pt t key' s' u') by done. fold env.
      destruct (opened_as (Unsequenced t) key' s' env) as [p|] eqn:Ep; [|done]. intros _.
      by destruct (Hf' (Unsequenced t) p Hty Ep) as [-> <-]. }
    split_and!; [exact Hf'|exact Ht|intros j; by apply Ht..].
  - intros e He. split; [intros [seq|t]|intros t]; cbn [opened_as]; unfold openOutFrame, openUnsequencedFrame, openSealedFields;
      by rewrite He.
Qed.
End Separation.

(** A cipher whose tag tells whether the associated data are those of a
    response frame [0x39] of a session. *)
Module BoundToy.
Definition session : jsstr := js "00112233-4455-6677-8899-aabbccddeeff".
Definition other : jsstr := js "00112233-4455-6677-8899-aabbccddee00".
Definition uuid : bytes := match uuidStringToBytes session with Ok u => u | Throw _ => [] end.
Definition aad : bytes := frame_aad uuid (Unsequenced FS_RESPONSE_AAD_FRAME_TYPE).

Definition encrypt (key nonce a p : bytes) : bytes :=
  p ++ (if bool_decide (a = aad) then 1 else 0) :: drop 1 (Toy.tag key nonce a p).
Definition decrypt (key nonce a c : bytes) : result bytes :=
  let p := slice c 0 (zlen c - 16) in
  if bool_decide (c = encrypt key nonce a p) then Ok p else Throw "invalid tag".

Definition crypto : Crypto := {|
  utf8ToBytes := utf8_encode;
  sha256 := Toy.digest 32;
  hkdf_sha256 ikm salt info n := Toy.digest n (ikm ++ salt ++ info);
  hmac_sha256 key p := Toy.digest 32 (key ++ p);
  xchacha_encrypt := encrypt;
  xchacha_decrypt := decrypt;
|}.

Lemma zlen_encrypt key nonce a p : zlen (encrypt key nonce a p) = zlen p + 16.
Proof.
  unfold encrypt. rewrite zlen_app, zlen_cons. unfold zlen at 2. rewrite length_drop.
  change (length (Toy.tag key nonce a p)) with 16%nat. lia.
Qed.

Lemma laws : @CryptoLaws crypto.
Proof.
  destruct toy_laws. split; try assumption; cbn.
  - apply zlen_encrypt.
  - intros key nonce a p Hp. unfold encrypt. apply bytes_ok_app. split; [done|]. apply Forall_cons. split.
    + by case_bool_decide.
    + apply Forall_drop. apply be_bytes_ok.
  - intros key nonce a p. unfold decrypt. rewrite zlen_encrypt. replace (zlen p + 16 - 16) with (zlen p) by lia.
    assert (E : slice (encrypt key nonce a p) 0 (zlen p) = p) by (unfold encrypt; by apply slice_prefix).
    rewrite E. by rewrite bool_decide_eq_true_2.
Qed.

Lemma bound key nonce p c : c = encrypt key nonce aad p -> @bound_to crypto aad nonce c.
Proof.
  intros -> k a p'. change (decrypt k nonce a (encrypt key nonce aad p) = Ok p' -> a = aad).
  unfold decrypt. case_bool_decide as E; [intros _|done].
  rewrite zlen_encrypt in E. replace (zlen p + 16 - 16) with (zlen p) in E by lia.
  assert (Es : slice (encrypt key nonce aad p) 0 (zlen p) = p) by (unfold encrypt; by apply slice_prefix).
  rewrite Es in E. unfold encrypt in E. apply app_inv_head in E. rewrite bool_decide_eq_true_2 in E by done.
  by case_bool_decide.
Qed.
End BoundToy.

Lemma sealed_frames_separated_witness :
  exists env, @sealUnsequenced BoundToy.crypto (zeros 24) (zeros 32) BoundToy.session FS_RESPONSE_AAD_FRAME_TYPE [1; 2; 3]
              = Ok env /\
    @openUnsequencedFrame BoundToy.crypto (zeros 32) BoundToy.session FS_RESPONSE_AAD_FRAME_TYPE env = Some [1; 2; 3] /\
    (forall key p, @openUnsequencedFrame BoundToy.crypto key BoundToy.other FS_RESPONSE_AAD_FRAME_TYPE env <> Some p) /\
    (forall key seq p, 0 <= seq < 2 ^ 64 -> @openOutFrame BoundToy.crypto env key BoundToy.session seq <> Some p).
Proof.
  pose (u' := match uuidStringToBytes BoundToy.other with Ok u => u | Throw _ => [] end).
  destruct (@sealed_frames_separated BoundToy.crypto BoundToy.laws _ (zeros 24) (zeros 32) BoundToy.session BoundToy.uuid
    (Unsequenced FS_RESPONSE_AAD_FRAME_TYPE) [1; 2; 3] eq_refl eq_refl ltac:(by split))
    as (_ & O & (E & _) & _ & B & _).
  specialize (B ltac:(by eapply BoundToy.bound)).
  eexists. split; [exact E|]. split; [exact O|]. split.
  - intros key p Ho. destruct (B key BoundToy.other u' ltac:(reflexivity)) as [B' _].
    destruct (B' (Unsequenced FS_RESPONSE_AAD_FRAME_TYPE) p ltac:(by split) Ho) as [Hu _]. by vm_compute in Hu.
  - intros key seq p Hs Ho. destruct (B key BoundToy.session BoundToy.uuid ltac:(reflexivity)) as [B' _].
    destruct (B' (Output seq) p Hs Ho) as [_ Hf]. discriminate.
Defined.

(** The account-key wrap: a 32-byte key wrapped under a password is given
    back by the same password, whatever the salt, the nonce and the Argon2id
    parameters; a wrap that names another algorithm is refused, and a
    ciphertext the derived key does not open is an invalid password. *)
Theorem wrap_unwrap `{CryptoLaws} `{JsText} argon2id (salt nonce key : bytes) (password : jsstr)
    (kp : KDFParams) (wk : bytes)
    (Hs : bytes_ok salt) (Hn : bytes_ok nonce) (Hk : bytes_ok key) (Hlen : zlen key = 32)
    (Halg : kdf_alg kp = Some (JStr (js "argon2id")))
    (Hjson : JSON_parse (JSON_stringify (kdf_json kp)) = Ok (kdf_json kp))
    (Hwk : deriveWrapKey argon2id password salt kp = Ok wk) :
  exists w, wrapAccountKey argon2id salt nonce password key kp = Ok w /\
    unwrapWithPassword argon2id password w = Ok key /\
    (forall w' j a, JSON_parse (wrap_kdf_params w') = Ok j -> prop j "alg" = Ok a ->
       a <> Some (JStr (js "argon2id")) ->
       unwrapWithPassword argon2id password w' = Throw "unsupported kdf alg") /\
    (forall c, bytes_ok c ->
       is_ok (xchacha_decrypt wk nonce ACCOUNT_KEY_AAD c) = false ->
       unwrapWithPassword argon2id password (mkWrap (wrap_method w) (btoa c) (wrap_nonce w) (wrap_salt w)
         (wrap_kdf_params w)) = Throw "invalid password").
Proof.
  assert (Hct : bytes_ok (xchacha_encrypt wk nonce ACCOUNT_KEY_AAD key)) by (by apply xchacha_bytes).
  assert (Hm : forall c, bytes_ok c ->
    unwrapWithPassword argon2id password
      (mkWrap (js "password") (btoa c) (btoa nonce) (btoa salt) (JSON_stringify (kdf_json kp))) =
    match xchacha_decrypt wk nonce ACCOUNT_KEY_AAD c with Ok k => Ok k | Throw _ => Throw "invalid password" end).
  { intros c Hc. unfold unwrapWithPassword. cbn [wrap_kdf_params wrap_salt wrap_nonce wrapped].
    rewrite Hjson. cbn [rbind]. unfold kdf_json. rewrite Halg.
    assert (Hp : forall k v, (k, v) ∈ [("m"%string, kdf_m kp); ("t"%string, kdf_t kp); ("p"%string, kdf_p kp)] ->
      prop (kdf_json kp) k = Ok v).
    { intros k v. unfold kdf_json, prop. rewrite Halg. rewrite !elem_of_cons.
      destruct (kdf_m kp), (kdf_t kp), (kdf_p kp); intros [?|[?|[?|?%elem_of_nil]]]; simplify_eq; done. }
    unfold kdf_json in Hp. rewrite Halg in Hp.
    rewrite (Hp "m"%string (kdf_m kp)), (Hp "t"%string (kdf_t kp)), (Hp "p"%string (kdf_p kp)) by set_solver.
    cbn [omap list_omap snd fst prop map_get rbind]. rewrite bool_decide_true by done. cbn [rbind negb].
    rewrite bool_decide_true by done. cbn [negb].
    rewrite !b64ToBytes_btoa by done. cbn [rbind]. unfold deriveWrapKey in *. cbn [kdf_m kdf_t kdf_p].
    rewrite Hwk. cbn [rbind]. done. }
  eexists. unfold wrapAccountKey. rewrite Hlen. cbn [Z.eqb Pos.eqb negb]. rewrite Hwk. cbn [rbind].
  split_and!; [done| | |].
  - rewrite Hm by done. by rewrite xchacha_roundtrip.
  - intros w' j a Hj Ha Hne. unfold unwrapWithPassword. rewrite Hj. cbn [rbind]. rewrite Ha. cbn [rbind].
    replace (negb _) with true; [done|]. symmetry. apply negb_true_iff.
    destruct a as [[]|]; try done. apply bool_decide_false. by intros ->.
  - intros c Hc Hd. cbn [wrap_method wrap_nonce wrap_salt wrap_kdf_params]. rewrite Hm by done.
    by destruct (xchacha_decrypt _ _ _ _).
Qed.

Lemma wrap_unwrap_witness :
  let argon := fun p salt (_ : option Json * option Json * option Json) n => Ok (Toy.digest n (p ++ salt)) in
  JSON_parse (JSON_stringify (kdf_json defaultKDFParams)) = Ok (kdf_json defaultKDFParams) /\
  exists w, wrapAccountKey argon (zeros 16) (zeros 24) (js "pw") (zeros 32) defaultKDFParams = Ok w /\
    unwrapWithPassword argon (js "pw") w = Ok (zeros 32).
Proof.
  cbv zeta. split; [by vm_compute|].
  destruct (wrap_unwrap (fun p salt (_ : option Json * option Json * option Json) n => Ok (Toy.digest n (p ++ salt)))
    (zeros 16) (zeros 24) (zeros 32) (js "pw") defaultKDFParams _
    ltac:(by repeat constructor) ltac:(by repeat constructor) ltac:(by repeat constructor)
    eq_refl eq_refl ltac:(by vm_compute) eq_refl) as (w & E & U & _).
  exists w. split; [exact E|exact U].
Defined.
