(* ===== verification/ConnWire.v ===== *)
(** * Wire helpers of the session connection
      ([src/desktop/frontend/src/lib/connection.ts])

    The pure functions of [connection.ts]: authentication of a WebSocket,
    classification of direct-route failures, validation of file-system
    responses, and the payloads of file-system requests and pastes. *)

From Stdlib Require Import QArith.
From stdpp Require Import pretty.
From S2P Require Import Prelude Bytes JsString Base64Url JsMap Json Proto FsSegments DirectCrypto Opaque.
#[local] Open Scope Z_scope.

Inductive Status := connecting | attached | reconnecting | ended | error.

Inductive SessionRoute :=
  | R_relay | R_connecting_direct | R_direct
  | R_connecting_lan | R_lan | R_connecting_quick_tunnel | R_quick_tunnel.

Record Endpoint := mkEndpoint { url : jsstr; session_token : jsstr }.

(** ** [webSocketAuth] *)

(** [/^[!#$%&'*+\-.^_`|~0-9A-Za-z]+$/] *)
Definition subprotocol_char (c : Z) : bool :=
  bool_decide (c ∈ js "!#$%&'*+-.^_`|~") || ((48 <=? c) && (c <=? 57))
  || ((65 <=? c) && (c <=? 90)) || ((97 <=? c) && (c <=? 122)).

Definition SUBPROTOCOL_SAFE (s : jsstr) : bool :=
  negb (bool_decide (s = [])) && forallb subprotocol_char s.

Definition stringToBase64URL (value : jsstr) : jsstr :=
  strip_padding (replace_char 47 95 (replace_char 43 45 (btoa (utf8_encode value)))).

Definition tokenSubprotocol (token : jsstr) : option jsstr :=
  if bool_decide (token = []) then None
  else if SUBPROTOCOL_SAFE token then Some (js "atterm-token." ++ token)
  else Some (js "atterm-token-b64." ++ stringToBase64URL token).

(** [url.replace(/\/$/, "")] *)
Fixpoint strip_slash (s : jsstr) : jsstr :=
  match s with
  | [] => []
  | [c] => if c =? 47 then [] else [c]
  | c :: s' => c :: strip_slash s'
  end.

Definition webSocketAuth (endpoint : Endpoint) (path : jsstr) : jsstr * option jsstr :=
  (strip_slash (url endpoint) ++ path, tokenSubprotocol (session_token endpoint)).

(** ** [directFallbackReason] *)

Inductive DirectFallbackReason :=
  | account_key_unavailable | signal_endpoint_unavailable | webrtc_unavailable | timeout
  | signaling_rejected | host_unavailable | ice_failed | authentication_failed | backpressure
  | protocol_error | direct_disconnected | preference_disabled | transport_error.

#[export] Instance DirectFallbackReason_eq_dec : EqDecision DirectFallbackReason.
Proof. solve_decision. Defined.

(** [s.toLowerCase()], as far as an ASCII pattern can see: of the other
    letters only U+212A and U+0130 have an ASCII letter in their lower case. *)
Definition toLowerCase (s : jsstr) : jsstr :=
  concat (map (fun c =>
    if (65 <=? c) && (c <=? 90) then [c + 32]
    else if c =? 8490 then [107]
    else if c =? 304 then [105; 775]
    else [c]) s).

(** [errText(new Error(message))] of [log.ts]. *)
Definition errText (message : jsstr) : jsstr := js "Error: " ++ message.

Definition directFallbackReason (error : jsstr) (wasActive : bool) : DirectFallbackReason :=
  let message := toLowerCase (errText error) in
  let has (p : string) := includes message (js p) in
  if has "rtcpeerconnection" || has "webrtc is unavailable" then webrtc_unavailable
  else if has "timed out" || has "deadline exceeded" || has "ticket_expired" then timeout
  else if has "host_offline" || has "peer offline" || has "peer_disconnected" then host_unavailable
  else if has "rendezvous client: service unavailable" then signal_endpoint_unavailable
  else if has "signaling rejected" || has "signaling disconnected" then signaling_rejected
  else if has "peer connection failed" || has "ice" then ice_failed
  else if has "handshake" || has "proof" || has "auth" then authentication_failed
  else if has "backpressure" then backpressure
  else if has "unsupported" || has "invalid direct" || has "record" then protocol_error
  else if wasActive || has "disconnected" || has "channel closed" || has "peer closed"
       then direct_disconnected
  else transport_error.

(** ** Validation of file-system responses *)

Definition isOptionalString (value : option Json) : bool :=
  match value with None => true | Some _ => is_string value end.

Definition isOptionalNumber (value : option Json) : bool :=
  match value with None => true | Some _ => is_finite_number value end.

Definition isFSDirEntry (value : Json) : bool :=
  match as_record value with
  | None => false
  | Some r => is_string (field r "name") && is_boolean (field r "isDir")
              && isOptionalNumber (field r "size") && isOptionalNumber (field r "modTime")
  end.

Definition isFSFileMetaInfo (value : Json) : bool :=
  match as_record value with
  | None => false
  | Some r => is_string (field r "path") && is_finite_number (field r "size")
              && is_finite_number (field r "modTime") && is_boolean (field r "isBinary")
  end.

Definition isFSFileContent (value : Json) : bool :=
  match as_record value with
  | None => false
  | Some r => is_string (field r "path") && is_string (field r "data")
              && is_boolean (field r "isBinary") && isOptionalNumber (field r "truncatedAt")
  end.

Definition isFSChunkPayload (value : Json) : bool :=
  match as_record value with
  | None => false
  | Some r => is_string (field r "path") && is_string (field r "data")
              && is_finite_number (field r "offset") && is_finite_number (field r "length")
              && is_boolean (field r "eof") && isOptionalString (field r "contentType")
  end.

(** An optional field of a response is absent or passes its check. *)
Definition optional_ok (check : Json -> bool) (value : option Json) : bool :=
  match value with None => true | Some v => check v end.

Definition is_entries (value : Json) : bool :=
  match value with JArr l => forallb isFSDirEntry l | _ => false end.

Definition isFSResponse (value : Json) : bool :=
  match as_record value with
  | None => false
  | Some r =>
      is_string (field r "request_id") && is_boolean (field r "ok")
      && isOptionalString (field r "error") && isOptionalString (field r "watch_id")
      && optional_ok is_entries (field r "entries")
      && optional_ok isFSFileMetaInfo (field r "meta")
      && optional_ok isFSFileContent (field r "content")
      && optional_ok isFSChunkPayload (field r "chunk")
  end.

(** [Object.assign(response, j)] *)
Definition object_assign (response : list (jsstr * Json)) (j : Json) : list (jsstr * Json) :=
  match j with
  | JObj extra => assign_fields response extra
  | JArr l => assign_fields response (imap (fun i v => (js (pretty i), v)) l)
  | JStr s => assign_fields response (imap (fun i c => (js (pretty i), JStr [c])) s)
  | _ => response
  end.

(** [v.data = encoded] for a truthy [v]. *)
Definition set_data (v : Json) (encoded : jsstr) : result Json :=
  match v with
  | JObj fs => Ok (JObj (set_prop fs "data" (JStr encoded)))
  | JArr l => Ok (JArr l)
  | _ => Throw "TypeError: cannot create property on a primitive"
  end.

Section Payloads.
Context `{Crypto} `{JsText}.

(** A request is the list of its defined fields. *)
Definition FSRequest : Type := list (jsstr * Json).

(** The defined fields among [path] and [new_path]. *)
Definition path_fields (payload : FSRequest) : list (jsstr * Json) :=
  omap (fun k => option_map (fun v => (js k, v)) (field payload k)) ["path"%string; "new_path"%string].

Definition json_bytes (j : Json) : bytes := encodeText (JSON_stringify j).

(** [nonce] is the call of [randomBytes] inside [sealUnsequenced]. *)
Definition encodeFSRequestPayload (accountKey : option bytes) (nonce : bytes) (payload : FSRequest)
    (sessionId : jsstr) : result bytes :=
  match accountKey with
  | None => encodeSegments [json_bytes (JObj payload)]
  | Some accountKey =>
      let sealed := json_bytes (JObj (path_fields payload)) in
      let* env := sealUnsequenced nonce accountKey sessionId TYPE.FS_REQUEST sealed in
      let head := delete_prop (delete_prop payload "path") "new_path" in
      encodeSegments [json_bytes (JObj head); env]
  end.

Definition MAX_PASTE_BYTES : Z := 10 * 1024 * 1024.

(** [encodePastePayload] after its size check: [content] are the blob's bytes,
    [type] its content type. *)
Definition encodePastePayload (type content : jsstr) (filename fallbackContentType : jsstr) : bytes :=
  json_bytes (JObj [
    (js "filename", JStr filename);
    (js "content_type", JStr (if bool_decide (type = []) then fallbackContentType else type));
    (js "data", JStr (btoa content))]).

(** [openSealedFSResponse]: [None] when the frame must be dropped. *)
Definition openSealedFSResponse (accountKey : option bytes) (sessionId : jsstr)
    (response : list (jsstr * Json)) (segs : list bytes) : result (option (list (jsstr * Json))) :=
  match accountKey with
  | None => Ok None
  | Some accountKey =>
      match openUnsequencedFrame accountKey sessionId TYPE.FS_RESPONSE (default [] (segs !! 1%nat)) with
      | None => Ok None
      | Some meta =>
          match JSON_parse (decodeText meta) with
          | Throw _ => Ok None
          | Ok j =>
              let response := object_assign response j in
              match segs !! 2%nat with
              | None => Ok (Some response)
              | Some seg =>
                  match openUnsequencedFrame accountKey sessionId TYPE.FS_RESPONSE seg with
                  | None => Ok None
                  | Some raw =>
                      let encoded := btoa raw in
                      match field response "content", field response "chunk" with
                      | content, chunk =>
                          if truthy content then
                            let* v := set_data (default JNull content) encoded in
                            Ok (Some (set_prop response "content" v))
                          else if truthy chunk then
                            let* v := set_data (default JNull chunk) encoded in
                            Ok (Some (set_prop response "chunk" v))
                          else Ok (Some response)
                      end
                  end
              end
          end
      end
  end.
End Payloads.

Definition sameSessionID (other sid : bytes) : bool :=
  (zlen other =? zlen sid) && forallb (fun xy => fst xy =? snd xy) (zip other sid).

(** [Number.isInteger(port) && port >= 1 && port <= 65535] *)
Definition port_ok (port : Number) : bool :=
  match port with
  | Finite q => (Qnum q mod Zpos (Qden q) =? 0) && Qle_bool 1 q && Qle_bool q 65535
  | _ => false
  end.

Definition is_loopback (host : jsstr) : bool :=
  bool_decide (host ∈ [js "localhost"; js "127.0.0.1"; js "::1"]).

(** [Math.min(8000, 500 * Math.pow(2, attempts))] *)
Definition reconnectDelay (attempts : Z) : Z := Z.min 8000 (500 * 2 ^ attempts).

(** ** The bearer token as a subprotocol *)

Lemma b64url_subprotocol c : is_b64url c = true -> subprotocol_char c = true.
Proof.
  unfold is_b64url, subprotocol_char. rewrite !orb_true_iff, !andb_true_iff, !Z.leb_le, !Z.eqb_eq, bool_decide_eq_true.
  intros [[[[?|?]|?]|?]|?]; try tauto; subst c; left; left; left; apply list_elem_of_In; cbn; lia.
Qed.

Lemma base64url_safe p : bytes_ok p -> forallb subprotocol_char (base64url p) = true.
Proof.
  intros Hp. pose proof (base64url_chars p Hp) as Hc. rewrite forallb_forall in Hc |- *.
  intros c Hin. by apply b64url_subprotocol, Hc.
Qed.

(** A bearer token of any characters becomes a subprotocol that
    [new WebSocket] accepts, and it is not lost: a token that is not sent as it
    is is its UTF-8 bytes in URL-safe base 64, which the decoder reads back. *)
Theorem tokenSubprotocol_correct token :
  jsstr_ok token ->
  match tokenSubprotocol token with
  | None => token = []
  | Some p =>
      SUBPROTOCOL_SAFE p = true /\
      (p = js "atterm-token." ++ token \/
       exists s, p = js "atterm-token-b64." ++ s /\ b64ToBytes s = Ok (utf8_encode token))
  end.
Proof.
  intros Hok. pose proof (utf8_encode_ok _ Hok) as Hb. unfold tokenSubprotocol. case_bool_decide; [done|].
  unfold SUBPROTOCOL_SAFE at 1. destruct (negb _ && forallb _ token) eqn:Hs.
  - apply andb_true_iff in Hs as [_ Hs]. split; [|by left]. unfold SUBPROTOCOL_SAFE. by rewrite forallb_app, Hs.
  - change (stringToBase64URL token) with (base64url (utf8_encode token)). split.
    + unfold SUBPROTOCOL_SAFE. by rewrite forallb_app, base64url_safe.
    + right. eexists. split; [done|]. unfold b64ToBytes. fold (unpadded (utf8_encode token)).
      change (if zlen (unpadded (utf8_encode token)) mod 4 =? 0 then _ else _)
        with (b64_padding (zlen (unpadded (utf8_encode token)))).
      by rewrite unpadded_padding, atob_btoa.
Qed.

Lemma tokenSubprotocol_correct_witness :
  tokenSubprotocol (js "a b") = Some (js "atterm-token-b64.YSBi") /\
  b64ToBytes (js "YSBi") = Ok (utf8_encode (js "a b")).
Proof.
  assert (E : tokenSubprotocol (js "a b") = Some (js "atterm-token-b64.YSBi")) by by vm_compute.
  split; [exact E|].
  pose proof (tokenSubprotocol_correct (js "a b") ltac:(vm_compute; repeat constructor; discriminate)) as Hp.
  rewrite E in Hp. destruct Hp as [_ [Hp|(s & Hp & Hs)]]; [discriminate Hp|].
  vm_compute in Hp. injection Hp as <-. exact Hs.
Defined.
