(* ===== verification/EventLoop.v ===== *)
(** * Objects of the event loop

    A method of an object that lives in the event loop: it reads and writes
    the state around the object, and may throw an error whose message is
    computed. With the rules that carry an invariant through a method, and
    chains of promises ([chain = chain.then(job).catch(handler)]). *)

From S2P Require Import Prelude Bytes JsString.

Inductive outcome (A : Type) : Type :=
  | Done (a : A)
  | Raise (error : jsstr).
Arguments Done {A} a.
Arguments Raise {A} error.

Definition of_result {A} (r : result A) : outcome A :=
  match r with Ok a => Done a | Throw msg => Raise (js msg) end.

Definition Act (S A : Type) : Type := S -> S * outcome A.

Section Act.
Context {S : Type}.

Definition ret {A} (a : A) : Act S A := fun s => (s, Done a).
Definition raise {A} (error : jsstr) : Act S A := fun s => (s, Raise error).
Definition bind {A B} (m : Act S A) (k : A -> Act S B) : Act S B :=
  fun s => match m s with
           | (s', Done a) => k a s'
           | (s', Raise e) => (s', Raise e)
           end.
Definition gets {A} (f : S -> A) : Act S A := fun s => (s, Done (f s)).
Definition modify (f : S -> S) : Act S unit := fun s => (f s, Done tt).
Definition answer {A} (o : outcome A) : Act S A := fun s => (s, o).

(** [try { m } catch (error) { handler(error) }] *)
Definition catch {A} (m : Act S A) (handler : jsstr -> Act S A) : Act S A :=
  fun s => match m s with
           | (s', Done a) => (s', Done a)
           | (s', Raise e) => handler e s'
           end.

(** [try { m } catch { }] *)
Definition attempt (m : Act S unit) : Act S unit := catch m (fun _ => ret tt).

(** How an awaited method settles. *)
Definition settled {A} (m : Act S A) : Act S (outcome A) :=
  fun s => (fst (m s), Done (snd (m s))).

(** [if (b) { m }] *)
Definition when (b : bool) (m : Act S unit) : Act S unit := if b then m else ret tt.
End Act.

Notation "'let!' x := m 'in' k" := (bind m (fun x => k))
  (at level 10, x name, m at level 100, k at level 200) : js_scope.
Notation "'raise_if' b msg ';;;' k" := (if b then raise (js msg) else k)
  (at level 10, b at level 9, msg at level 9, k at level 200) : js_scope.

(** ** What a method does to a state: triples

    [triple P m Q]: from a state in [P] the method ends, with a value or an
    error, in a state and outcome in [Q]. *)

Definition triple {S A} (P : S -> Prop) (m : Act S A) (Q : outcome A -> S -> Prop) : Prop :=
  forall s, P s -> Q (snd (m s)) (fst (m s)).

(** The invariant [P] is kept whatever the outcome. *)
Definition keeps {S A} (P : S -> Prop) (m : Act S A) : Prop := triple P m (fun _ => P).

Section Triples.
Context {S : Type}.
Implicit Types (P : S -> Prop).

Lemma triple_bind {A B} P (m : Act S A) (k : A -> Act S B) (Q : outcome A -> S -> Prop)
    (R : outcome B -> S -> Prop) :
  triple P m Q -> (forall a, triple (Q (Done a)) (k a) R) ->
  (forall e s, Q (Raise e) s -> R (Raise e) s) -> triple P (bind m k) R.
Proof.
  intros Hm Hk He s Hs. specialize (Hm s Hs). unfold bind.
  destruct (m s) as [s' [a|e]]; cbn in *; [by apply Hk|by apply He].
Qed.

Lemma act_keeps_bind {A B} P (m : Act S A) (k : A -> Act S B) :
  keeps P m -> (forall a, keeps P (k a)) -> keeps P (bind m k).
Proof. intros Hm Hk. by eapply triple_bind. Qed.

(** A read gives the continuation what it read. *)
Lemma act_keeps_gets {A B} P (f : S -> A) (k : A -> Act S B) :
  (forall s, P s -> P (fst (k (f s) s))) -> keeps P (bind (gets f) k).
Proof. intros H s Hs. by apply H. Qed.

Lemma act_keeps_ret {A} P (a : A) : keeps P (ret a).
Proof. by intros s. Qed.

Lemma keeps_raise {A} P e : keeps P (@raise S A e).
Proof. by intros s. Qed.

Lemma keeps_answer {A} P (o : outcome A) : keeps P (answer o).
Proof. by intros s. Qed.

Lemma keeps_catch {A} P (m : Act S A) h :
  keeps P m -> (forall e, keeps P (h e)) -> keeps P (catch m h).
Proof.
  intros Hm Hh s Hs. specialize (Hm s Hs). unfold catch.
  destruct (m s) as [s' [a|e]]; [done|]. by apply Hh.
Qed.

Lemma keeps_settled {A} P (m : Act S A) : keeps P m -> keeps P (settled m).
Proof. intros Hm s Hs. by apply Hm. Qed.

Lemma keeps_attempt P m : keeps P m -> keeps P (attempt m).
Proof. intros Hm. apply keeps_catch; [done|]. intros e. apply act_keeps_ret. Qed.

Lemma keeps_when P b m : keeps P m -> keeps P (when b m).
Proof. intros Hm. destruct b; [done|]. apply act_keeps_ret. Qed.

Lemma keeps_if {A} P (b : bool) (m1 m2 : Act S A) :
  keeps P m1 -> keeps P m2 -> keeps P (if b then m1 else m2).
Proof. by destruct b. Qed.

Lemma act_keeps_modify P f : (forall s, P s -> P (f s)) -> keeps P (modify f).
Proof. intros H s Hs. by apply H. Qed.
End Triples.

Create HintDb act_keeps.
#[export] Hint Resolve act_keeps_ret keeps_raise keeps_answer keeps_attempt keeps_settled keeps_when : act_keeps.

(** ** What a method leaves alone

    [preserves f m]: whatever [m] does, the projection [f] of the state is the
    same after it. *)

Definition preserves {S V A} (f : S -> V) (m : Act S A) : Prop := forall s, f (fst (m s)) = f s.

Section Preserves.
Context {S V : Type} (f : S -> V).

Lemma preserves_bind {A B} (m : Act S A) (k : A -> Act S B) :
  preserves f m -> (forall a, preserves f (k a)) -> preserves f (bind m k).
Proof.
  intros Hm Hk s. specialize (Hm s). unfold bind. destruct (m s) as [s' [a|e]]; cbn in Hm |- *; [|exact Hm].
  rewrite (Hk a s'). exact Hm.
Qed.

Lemma preserves_gets {A} (g : S -> A) : preserves f (gets g).
Proof. done. Qed.

Lemma preserves_ret {A} (a : A) : preserves f (ret a).
Proof. done. Qed.

Lemma preserves_raise {A} e : preserves f (@raise S A e).
Proof. done. Qed.

Lemma preserves_answer {A} (o : outcome A) : preserves f (answer o).
Proof. done. Qed.

Lemma preserves_modify g : (forall s, f (g s) = f s) -> preserves f (modify g).
Proof. intros Hg s. apply Hg. Qed.

Lemma preserves_catch {A} (m : Act S A) h :
  preserves f m -> (forall e, preserves f (h e)) -> preserves f (catch m h).
Proof.
  intros Hm Hh s. specialize (Hm s). unfold catch. destruct (m s) as [s' [a|e]]; cbn in Hm |- *; [exact Hm|].
  rewrite (Hh e s'). exact Hm.
Qed.

Lemma preserves_settled {A} (m : Act S A) : preserves f m -> preserves f (settled m).
Proof. intros Hm s. apply Hm. Qed.

Lemma preserves_keeps {A} (P : S -> Prop) (m : Act S A) :
  preserves f m -> (forall s s', f s' = f s -> P s -> P s') -> keeps P m.
Proof. intros Hm HP s Hs. exact (HP _ _ (Hm s) Hs). Qed.
End Preserves.

Create HintDb preserves.
#[export] Hint Resolve preserves_gets preserves_ret preserves_raise preserves_answer
  preserves_settled : preserves.

(** Walks through a method that preserves a projection, statement by
    statement. *)
Ltac preserves_tac :=
  repeat first
    [ solve [auto with preserves]
    | apply preserves_modify; intros ?; reflexivity
    | match goal with
      | |- preserves _ (bind _ _) => apply preserves_bind; [|intros ?]
      | |- preserves _ (catch _ _) => apply preserves_catch; [|intros ?]
      | |- preserves _ (if ?b then _ else _) => destruct b
      | |- preserves _ (match ?x with _ => _ end) => destruct x
      | |- preserves _ (when ?b _) => unfold when
      | |- preserves _ (attempt _) => unfold attempt
      | |- preserves _ (let _ := _ in _) => cbv zeta
      end ].

(** ** Promise chains

    The jobs appended to a chain and not started, and the state of the job
    that is suspended at an [await], if any. A job starts when the one before
    it has settled. *)

Record Chain (J R : Type) := mkChain { jobs : list J; suspended_job : option R }.
Arguments mkChain {J R}.
Arguments jobs {J R}.
Arguments suspended_job {J R}.

Definition new_chain {J R} : Chain J R := mkChain [] None.

(** [chain.then(job)] *)
Definition chain_then {J R} (job : J) (c : Chain J R) : Chain J R :=
  mkChain (jobs c ++ [job]) (suspended_job c).

(** The job that may start now, and the chain without it. *)
Definition chain_next {J R} (c : Chain J R) : option (J * Chain J R) :=
  match suspended_job c, jobs c with
  | None, j :: rest => Some (j, mkChain rest None)
  | _, _ => None
  end.

Definition chain_suspend {J R} (r : option R) (c : Chain J R) : Chain J R := mkChain (jobs c) r.
