(* ===== verification/Transport.v ===== *)
(** * The transport interface of the session connection
      ([DirectTransport] and the callbacks of connection.ts and directClient.ts)

    What [SessionConnection] needs of a direct transport, and what the
    transports of [DirectClient] and [NativeDirect] implement. *)

From S2P Require Import Prelude Bytes JsString.

(** The state of a WebSocket, and of a data channel. *)
Inductive ReadyState := CONNECTING | OPEN | CLOSING | CLOSED.

#[export] Instance ReadyState_eq_dec : EqDecision ReadyState.
Proof. solve_decision. Defined.

(** ** The transport of the direct route

    [DirectTransport] of the source, as an object with a state. A callback the
    transport runs while a method of its is executing is part of the outcome;
    [transport_event] is one turn of its own event handlers. *)

Inductive SendOutcome := Sent | Refused | SendFailed (error : jsstr).

Record DirectTransportDiagnostics := mkDiagnostics {
  diagRoute : option jsstr;
  iceState : option jsstr;
  candidateType : option jsstr;
}.

Inductive Callback :=
  | CbAuthenticated
  | CbFrame (frame : bytes)
  | CbReady (replayedSeq : Z)
  | CbDiagnostics (diagnostics : DirectTransportDiagnostics)
  | CbFailure (error : jsstr).

Record DirectOptions := mkDirectOptions {
  signalURL : jsstr;
  signalProtocol : option jsstr;
  opt_sessionId : jsstr;
  sinceSeq : Z;
  opt_clientInstanceId : jsstr;
  opt_accountKey : bytes;
}.

Class DirectTransport := {
  Transport : Type;
  TransportEvent : Type;
  directTransportFactory : DirectOptions -> result Transport;
  transport_start : Transport -> Transport * option jsstr;  (* a failure reported at once *)
  transport_sendFrame : bytes -> Transport -> Transport * SendOutcome;
  transport_close : Transport -> Transport;
  transport_event : TransportEvent -> Transport -> Transport * list Callback;
  transport_threw : jsstr -> Transport -> Transport * list Callback;  (* a callback threw *)
}.

(** ** The order of the callbacks

    What a transport owes the connection: it authenticates at most once, no
    frame and no end of replay is reported before that, a failure is reported
    at most once, and nothing after it; diagnostics may come at any time. *)

Inductive Phase := Attempting | Live | Over.

Definition observe (p : Phase) (cb : Callback) : option Phase :=
  match p, cb with
  | _, CbDiagnostics _ => Some p
  | Attempting, CbAuthenticated => Some Live
  | Live, CbFrame _ | Live, CbReady _ => Some Live
  | Attempting, CbFailure _ | Live, CbFailure _ => Some Over
  | _, _ => None
  end.

Fixpoint observe_all (p : Phase) (cbs : list Callback) : option Phase :=
  match cbs with
  | [] => Some p
  | cb :: rest => observe p cb ≫= fun p' => observe_all p' rest
  end.

Lemma observe_all_app p l1 l2 :
  observe_all p (l1 ++ l2) = observe_all p l1 ≫= fun p' => observe_all p' l2.
Proof.
  revert p. induction l1 as [|cb l1 IH]; intros p; [done|]. cbn.
  destruct (observe p cb); cbn; [apply IH|done].
Qed.
