(* ===== verification/DirectClient.v ===== *)
(** * The direct client transport
      ([src/desktop/frontend/src/lib/directClient.ts])

    One attempt at a direct route, authorised over a signalling WebSocket: a
    peer connection with an ordered data channel, the handshake over it, and
    then sealed records. The object, the browser objects it creates and the
    methods suspended at an [await] are one state, [ClientWorld]; every method
    and every handler is a definition, and [step] is one turn of the event
    loop: a call, a browser event, or the continuation of a suspended method.

    Error values are their messages. Fields of a signalling message that the
    code only tests for truth ([attempt_id], [user_id], [host_id]) enter the
    authorization as text; a value of another type enters as the empty text,
    which the same later operations refuse, with another message. *)

From Stdlib Require Import QArith.
From S2P Require Import Prelude Bytes JsString Base64Url JsMap Json DirectCrypto DirectFraming.
From S2P Require Import DirectHandshake EventLoop Transport.
#[local] Open Scope Z_scope.

Definition DIRECT_SIGNAL_VERSION : Z := 1.
Definition DIRECT_SIGNAL_LIMIT : Z := 64 * 1024.
Definition DIRECT_ATTEMPT_TIMEOUT_MS : Z := 30000.
Definition DIRECT_BUFFERED_HIGH_WATER : Z := 1024 * 1024.

(** The fields of a message the code sends or has parsed. *)
Definition DirectSignalMessage : Type := list (jsstr * Json).

Record DirectClientOptions := mkClientOptions {
  directOptions : DirectOptions;
  iceServers : option Json;
  timeoutMs : option Z;
}.

(** What the browser supplies: [crypto.randomUUID()], the error of
    [new WebSocket(...)] if it throws, and whether a data channel whose buffer
    holds that many bytes refuses more. *)
Class Browser := {
  requestUUID : DirectOptions -> jsstr;
  signal_socket_error : DirectOptions -> option jsstr;
  send_buffer_full : Z -> bool;
}.

(** *** Reading a message *)

(** What a [MessageEvent] carries. *)
Inductive MessageData := TextData (s : jsstr) | BinaryData (p : bytes).

Section Messages.
Context `{JsText}.

Definition parseSignalMessage (data : MessageData) : result DirectSignalMessage :=
  match data with
  | BinaryData _ => Throw "invalid direct signaling message"
  | TextData text =>
      throw_if (DIRECT_SIGNAL_LIMIT <? zlen text) "invalid direct signaling message" ;;;
      let* value := JSON_parse text in
      match value with
      | JObj message =>
          throw_if (negb (is_number (field message "version") DIRECT_SIGNAL_VERSION)
                    || negb (is_string (field message "kind")))
            "unsupported direct signaling message" ;;;
          Ok message
      | _ => Throw "invalid direct signaling message"
      end
  end.

Definition signalJSON (message : DirectSignalMessage) : jsstr :=
  JSON_stringify (JObj (assign_fields [(js "version", jint DIRECT_SIGNAL_VERSION)] message)).

(** [decodeDirectTicket] on a parsed value: the pattern is tested on its text. *)
Definition decode_ticket (j : option Json) : result bytes :=
  match j with
  | Some (JStr s) => decodeDirectTicket s
  | Some j =>
      if negb (bool_decide (String_ j = [])) && forallb is_b64url (String_ j)
      then Throw "TypeError: value.replaceAll is not a function"
      else Throw "invalid direct ticket"
  | None => Throw "TypeError: value.replaceAll is not a function"
  end.

(** [directPermission] on a parsed value *)
Definition permission_of (j : option Json) : result Z :=
  match as_string j with Some s => directPermission s | None => Throw "invalid direct permission" end.

(** [`${j || fallback}`] *)
Definition text_or (j : option Json) (fallback : string) : jsstr :=
  match j with
  | Some v => if truthy j then String_ v else js fallback
  | None => js fallback
  end.
End Messages.

(** *** The objects of the browser *)

Record Peer := mkPeer { iceConnectionState : jsstr; connectionState : jsstr }.

Record Channel := mkChannel { channelState : ReadyState; bufferedAmount : Z }.

Inductive PeerOp :=
  | CreateOffer | SetLocalDescription | SetRemoteDescription (answer : Json)
  | AddIceCandidate (candidate : Json) | GetStats.

Inductive Effect :=
  | NewSignalSocket (id : nat) (url : jsstr) (protocols : option jsstr)
  | SignalSend (id : nat) (text : jsstr)
  | SignalClose (id : nat)
  | NewPeer (id : nat) (servers : Json)
  | PeerCall (id : nat) (op : PeerOp)
  | PeerClose (id : nat)
  | NewChannel (id : nat) (peer : nat)
  | DataSend (id : nat) (data : bytes)
  | ChannelClose (id : nat)
  | SetTimeout (id : nat) (delay : Z)
  | Calls (cb : Callback).

Section Client.
Context `{Crypto} `{WebCrypto} `{JsText} `{Browser}.

(** *** The object *)

Record DirectClient := mkDirectClient {
  options : DirectClientOptions;
  signalWS : option nat;
  pc : option nat;
  dc : option nat;
  handshake : option nat;
  codec : option DirectClientRecordCodec;
  reassembler : Reassembler;
  requestId : jsstr;
  attemptId : Json;
  started : bool;
  helloAccepted : bool;
  closed : bool;
  authenticated : bool;
  hostHelloHandled : bool;
  timeout : option nat;
  signalChain : nat;
  receiveChain : nat;
  accountKey : bytes;
}.

#[export] Instance eta_direct_client : Eta DirectClient :=
  fun c => mkDirectClient (options c) (signalWS c) (pc c) (dc c) (handshake c) (codec c)
    (reassembler c) (requestId c) (attemptId c) (started c) (helloAccepted c) (closed c)
    (authenticated c) (hostHelloHandled c) (timeout c) (signalChain c) (receiveChain c) (accountKey c).

(** Where a suspended [beginAttempt] stands. *)
Inductive AttemptStage :=
  | AtCreate (auth : DirectAuthorization) (called : Z)
  | AtCreated (o : outcome DirectClientHandshake)
  | AtOffer (peer : nat)
  | AtLocalDescription (peer : nat)
  | AtGathering (peer : nat)
  | AttemptOver.

(** Where a suspended [handleDataMessage] stands: inside [handleHostHello] of
    a handshake object, or with its outcome. *)
Inductive HelloStage :=
  | InHello (handshake : nat) (p : PendingHello)
  | HelloSettled (o : outcome bytes).

Record ClientWorld := mkClientWorld {
  this : DirectClient;
  sockets : list ReadyState;
  peers : list Peer;
  channels : list Channel;
  handshakes : list DirectClientHandshake;
  attempts : list AttemptStage;
  signalChains : list (Chain DirectSignalMessage unit);
  receiveChains : list (Chain bytes HelloStage);
  statsCalls : list nat;
  timers : list nat;
  nextTimer : nat;
  now : Z;
  trace : list Effect;
}.

#[export] Instance eta_client_world : Eta ClientWorld :=
  fun w => mkClientWorld (this w) (sockets w) (peers w) (channels w) (handshakes w) (attempts w)
    (signalChains w) (receiveChains w) (statsCalls w) (timers w) (nextTimer w) (now w) (trace w).

Definition M (A : Type) : Type := Act ClientWorld A.

Definition self {A} (f : DirectClient -> A) : M A := gets (fun w => f (this w)).
Definition assign (f : DirectClient -> DirectClient) : M unit :=
  modify (fun w => w <| this := f (this w) |>).
Definition emit (e : Effect) : M unit := modify (fun w => w <| trace := trace w ++ [e] |>).

(** A method of the object [handshakes w !! i]. *)
Definition on_handshake {A} (i : nat) (m : method DirectClientHandshake A) : M A :=
  fun w => match handshakes w !! i with
           | None => (w, Raise (js "TypeError"))
           | Some h =>
               let '(h', r) := m h in
               (w <| handshakes := <[i := h']> (handshakes w) |>, of_result r)
           end.

(** A method of [this.codec]. *)
Definition on_codec {A} (m : method DirectClientRecordCodec A) : M A :=
  fun w => match codec (this w) with
           | None => (w, Raise (js "TypeError"))
           | Some c =>
               let '(c', r) := m c in
               (w <| this := (this w) <| codec := Some c' |> |>, of_result r)
           end.

Definition on_reassembler {A} (m : method Reassembler A) : M A :=
  fun w => let '(r', o) := m (reassembler (this w)) in
           (w <| this := (this w) <| reassembler := r' |> |>, of_result o).

(** *** The run time *)

Definition socketState (id : nat) (w : ClientWorld) : ReadyState :=
  default CLOSED (sockets w !! id).

Definition socketReady (id : option nat) (w : ClientWorld) : bool :=
  match id with Some id => bool_decide (socketState id w = OPEN) | None => false end.

Definition ws_close (id : nat) : M unit :=
  let! st := gets (socketState id) in
  when (bool_decide (st = CONNECTING) || bool_decide (st = OPEN)) (
    let! _ := modify (fun w => w <| sockets := <[id := CLOSING]> (sockets w) |>) in
    emit (SignalClose id)).

Definition dc_state (id : nat) (w : ClientWorld) : ReadyState :=
  match channels w !! id with Some c => channelState c | None => CLOSED end.

Definition dc_buffered (id : nat) (w : ClientWorld) : Z :=
  match channels w !! id with Some c => bufferedAmount c | None => 0 end.

Definition set_channel_state (id : nat) (st : ReadyState) : M unit :=
  modify (fun w => w <| channels := alter (fun c => mkChannel st (bufferedAmount c)) id (channels w) |>).

Definition set_buffered (id : nat) (amount : Z) : M unit :=
  modify (fun w => w <| channels := alter (fun c => mkChannel (channelState c) amount) id (channels w) |>).

(** [dc.send(bytes)] *)
Definition dc_send (id : nat) (data : bytes) : M unit :=
  let! st := gets (dc_state id) in
  raise_if (negb (bool_decide (st = OPEN))) "InvalidStateError" ;;;
  let! buffered := gets (dc_buffered id) in
  raise_if (send_buffer_full (buffered + zlen data)) "OperationError" ;;;
  let! _ := set_buffered id (buffered + zlen data) in
  emit (DataSend id data).

Definition dc_close (id : nat) : M unit :=
  let! st := gets (dc_state id) in
  when (bool_decide (st = CONNECTING) || bool_decide (st = OPEN)) (
    let! _ := set_channel_state id CLOSING in
    emit (ChannelClose id)).

Definition pc_close (id : nat) : M unit := emit (PeerClose id).

Definition setTimeout (delay : Z) : M nat :=
  let! id := gets nextTimer in
  let! _ := modify (fun w => w <| timers := timers w ++ [id] |> <| nextTimer := S id |>) in
  let! _ := emit (SetTimeout id delay) in
  ret id.

Definition clearTimeout (id : nat) : M unit :=
  modify (fun w => w <| timers := filter (fun t => t <> id) (timers w) |>).

(** [if (this.timeout !== null) { clearTimeout(this.timeout); this.timeout = null }] *)
Definition clear_timeout : M unit :=
  let! t := self timeout in
  match t with
  | None => ret tt
  | Some t =>
      let! _ := clearTimeout t in
      assign (fun c => c <| timeout := None |>)
  end.

(** *** Signalling and failure *)

Definition sendSignal (message : DirectSignalMessage) : M unit :=
  let! id := self signalWS in
  let! open := gets (socketReady id) in
  raise_if (negb open) "direct signaling is not open" ;;;
  emit (SignalSend (default 0%nat id) (signalJSON message)).

Definition notifyDiagnostics (d : DirectTransportDiagnostics) : M unit :=
  emit (Calls (CbDiagnostics d)).

(** [try { x?.close() } catch {}] *)
Definition close_opt (close : nat -> M unit) (id : option nat) : M unit :=
  match id with Some id => attempt (close id) | None => ret tt end.

(** [this.handshake?.dispose()] *)
Definition dispose_handshake : M unit :=
  let! h := self handshake in
  match h with
  | None => ret tt
  | Some i => modify (fun w => w <| handshakes := alter (fun h => fst (dispose h)) i (handshakes w) |>)
  end.

(** [this.signalChain = Promise.resolve()], and the receive chain. *)
Definition fresh_chains : M unit :=
  let! s := gets (fun w => length (signalChains w)) in
  let! r := gets (fun w => length (receiveChains w)) in
  let! _ := modify (fun w => w <| signalChains := signalChains w ++ [new_chain] |>
                               <| receiveChains := receiveChains w ++ [new_chain] |>) in
  assign (fun c => c <| signalChain := s |> <| receiveChain := r |>).

Definition finish : M unit :=
  let! already := self closed in
  if already then ret tt else
  let! _ := assign (fun c => c <| closed := true |>) in
  let! _ := clear_timeout in
  let! _ := assign (fun c => c <| accountKey := fill0 (accountKey c) |>) in
  let! _ := dispose_handshake in
  let! _ := assign (fun c => c <| handshake := None |> <| codec := None |>) in
  let! _ := on_reassembler reset in
  let! ws := self signalWS in
  let! d := self dc in
  let! p := self pc in
  let! _ := assign (fun c => c <| signalWS := None |> <| dc := None |> <| pc := None |>) in
  let! _ := close_opt ws_close ws in
  let! _ := close_opt dc_close d in
  let! _ := close_opt pc_close p in
  fresh_chains.

Definition fail (error : jsstr) : M unit :=
  let! already := self closed in
  if already then ret tt else
  let! auth := self authenticated in
  let! _ := when auth (attempt (sendSignal
              [(js "kind", JStr (js "direct_result")); (js "code", JStr (js "route_lost"))])) in
  let! _ := finish in
  emit (Calls (CbFailure error)).

Definition close : M unit := finish.

Definition start : M unit :=
  let! c := self id in
  if started c || closed c then ret tt else
  let! _ := assign (fun c => c <| started := true |>) in
  let base := directOptions (options c) in
  match signal_socket_error base with
  | Some error => fail error
  | None =>
      let! s := gets (fun w => length (sockets w)) in
      let! _ := modify (fun w => w <| sockets := sockets w ++ [CONNECTING] |>) in
      let! _ := emit (NewSignalSocket s (signalURL base) (signalProtocol base)) in
      let! _ := assign (fun c => c <| signalWS := Some s |>) in
      let! t := setTimeout (default DIRECT_ATTEMPT_TIMEOUT_MS (timeoutMs (options c))) in
      assign (fun c => c <| timeout := Some t |>)
  end.

(** The timer of [start]. *)
Definition timer_fired : M unit := fail (js "direct attempt timed out").

Definition ws_onopen : M unit :=
  let! c := self id in
  sendSignal [(js "kind", JStr (js "hello")); (js "role", JStr (js "client"));
              (js "client_instance_id", JStr (opt_clientInstanceId (directOptions (options c))))].

Definition ws_onclose : M unit :=
  let! _ := assign (fun c => c <| signalWS := None |>) in
  let! auth := self authenticated in
  when (negb auth) (fail (js "direct signaling disconnected")).

(** The records of one frame, sent in order. *)
Fixpoint send_records (d : nat) (records : list bytes) : M unit :=
  match records with
  | [] => ret tt
  | record :: rest =>
      let! _ := dc_send d record in
      send_records d rest
  end.

Definition sendFrame (frame : bytes) : M bool :=
  let! c := self id in
  let! st := gets (fun w => match dc c with Some d => dc_state d w | None => CLOSED end) in
  match dc c with
  | Some d =>
      if closed c || negb (authenticated c) || bool_decide (codec c = None)
         || negb (bool_decide (st = OPEN)) then ret false
      else
        let! buffered := gets (dc_buffered d) in
        if DIRECT_BUFFERED_HIGH_WATER <? buffered then
          let! _ := fail (js "direct data channel backpressure limit") in
          ret false
        else
          catch (let! records := on_codec (sealFrame frame) in
                 let! _ := send_records d records in
                 ret true)
                (fun error => let! _ := fail error in ret false)
  | None => ret false
  end.

(** *** One attempt *)

(** [beginAttempt] up to [await DirectClientHandshake.create(...)]. *)
Definition beginAttempt (message : DirectSignalMessage) : M unit :=
  let! c := self id in
  raise_if (truthy (Some (attemptId c))) "duplicate direct attempt" ;;;
  let has k := truthy (field message k) in
  match safe_integer (field message "expires_at_unix_ms") with
  | Some expiresAt =>
      raise_if (negb (has "attempt_id" && has "ticket" && has "session_id" && has "user_id"
                      && has "host_id" && has "client_instance_id" && has "permission"))
        "incomplete direct authorization" ;;;
      let base := directOptions (options c) in
      raise_if (negb (is_text (field message "session_id") (opt_sessionId base))
                || negb (is_text (field message "client_instance_id") (opt_clientInstanceId base)))
        "direct authorization claims mismatch" ;;;
      let! ticket := answer (of_result (decode_ticket (field message "ticket"))) in
      let! permission := answer (of_result (permission_of (field message "permission"))) in
      let auth := mkAuthorization (text_of (field message "attempt_id")) ticket (opt_sessionId base)
                    (text_of (field message "user_id")) (text_of (field message "host_id"))
                    (opt_clientInstanceId base) permission expiresAt in
      let! _ := assign (fun c => c <| attemptId := default JNull (field message "attempt_id") |>) in
      let! called := gets now in
      modify (fun w => w <| attempts := attempts w ++ [AtCreate auth called] |>)
  | None => raise (js "incomplete direct authorization")
  end.

Definition set_attempt (a : nat) (st : AttemptStage) : M unit :=
  modify (fun w => w <| attempts := <[a := st]> (attempts w) |>).

(** [reportDiagnostics], the handler of [oniceconnectionstatechange]. *)
Definition reportDiagnostics (p : nat) : M unit :=
  let! peer := gets (fun w => peers w !! p) in
  let ice := default [] (option_map iceConnectionState peer) in
  let! _ := notifyDiagnostics (mkDiagnostics None (Some ice) None) in
  when (bool_decide (ice = js "connected") || bool_decide (ice = js "completed")) (
    let! _ := emit (PeerCall p GetStats) in
    modify (fun w => w <| statsCalls := statsCalls w ++ [p] |>)).

Definition default_ice_servers : Json :=
  JArr [JObj [(js "urls", JArr [JStr (js "stun:stun.cloudflare.com:3478")])]].

(** What the browser's factories give [beginAttempt]: the peer connection's
    states, and the channel's [ordered] and whether [maxPacketLifeTime] and
    [maxRetransmits] are [null]; or what they throw. *)
Record Factories := mkFactories {
  f_peer : outcome Peer;
  f_channel : outcome (bool * bool * bool);
}.

(** [beginAttempt] from there to [await pc.createOffer()]. *)
Definition beginAttempt_connect (a : nat) (f : Factories) : M unit :=
  let! c := self id in
  if closed c then set_attempt a AttemptOver else
  let! peer := answer (f_peer f) in
  let! p := gets (fun w => length (peers w)) in
  let! _ := modify (fun w => w <| peers := peers w ++ [peer] |>) in
  let! _ := emit (NewPeer p (default default_ice_servers (iceServers (options c)))) in
  let! _ := assign (fun c => c <| pc := Some p |>) in
  let! _ := reportDiagnostics p in
  let! ch := answer (f_channel f) in
  let! d := gets (fun w => length (channels w)) in
  let! _ := modify (fun w => w <| channels := channels w ++ [mkChannel CONNECTING 0] |>) in
  let! _ := emit (NewChannel d p) in
  let '(ordered, noLifeTime, noRetransmits) := ch in
  raise_if (negb ordered || negb noLifeTime || negb noRetransmits)
    "direct data channel is not ordered and reliable" ;;;
  let! _ := assign (fun c => c <| dc := Some d |>) in
  let! _ := emit (PeerCall p CreateOffer) in
  set_attempt a (AtOffer p).

(** [beginAttempt] once the candidates are gathered: the offer is sent. *)
Definition beginAttempt_offer (a : nat) (localDescription : option Json) : M unit :=
  match localDescription with
  | None => raise (js "direct local offer unavailable")
  | Some description =>
      let! attempt_id := self attemptId in
      let! _ := sendSignal [(js "kind", JStr (js "signal")); (js "attempt_id", attempt_id);
                            (js "signal_type", JStr (js "offer"));
                            (js "payload", JStr (JSON_stringify description))] in
      let! attempt_id := self attemptId in
      let! _ := sendSignal [(js "kind", JStr (js "signal")); (js "attempt_id", attempt_id);
                            (js "signal_type", JStr (js "ice_end")); (js "payload", JStr [])] in
      set_attempt a AttemptOver
  end.

(** What the awaited operation of a suspended [beginAttempt] answers. *)
Inductive AttemptAnswer :=
  | KeyPair (o : outcome (bytes * Jwk))
  | Connect (f : Factories)
  | Settled (o : outcome unit)
  | Gathered (localDescription : option Json).

Definition attempt_continue (a : nat) (stage : AttemptStage) (ans : AttemptAnswer) : M unit :=
  match stage, ans with
  | AtCreate auth called, KeyPair o =>
      let! key := self accountKey in
      let created := match o with
                     | Done (publicKey, jwk) => of_result (create auth key called publicKey jwk)
                     | Raise error => Raise error
                     end in
      set_attempt a (AtCreated created)
  | AtCreated o, Connect f =>
      let! h := answer o in
      let! i := gets (fun w => length (handshakes w)) in
      let! _ := modify (fun w => w <| handshakes := handshakes w ++ [h] |>) in
      let! _ := assign (fun c => c <| handshake := Some i |>) in
      beginAttempt_connect a f
  | AtOffer p, Settled o =>
      let! _ := answer o in
      let! _ := emit (PeerCall p SetLocalDescription) in
      set_attempt a (AtLocalDescription p)
  | AtLocalDescription p, Settled o =>
      let! _ := answer o in
      set_attempt a (AtGathering p)
  | AtGathering p, Gathered description => beginAttempt_offer a description
  | _, _ => ret tt
  end.

(** [void this.beginAttempt(message).catch((error) => this.fail(error))]: an
    attempt that throws is over. *)
Definition attempt_resume (a : nat) (ans : AttemptAnswer) : M unit :=
  let! stage := gets (fun w => attempts w !! a) in
  match stage with
  | None => ret tt
  | Some stage =>
      catch (attempt_continue a stage ans)
            (fun error => let! _ := set_attempt a AttemptOver in fail error)
  end.

(** *** Diagnostics *)

(** The rows of [pc.getStats()], as far as they are read. *)
Record StatsRow := mkStatsRow {
  row_id : jsstr;
  row_type : jsstr;
  selectedCandidatePairId : option jsstr;
  selected : bool;
  nominated : bool;
  row_state : option jsstr;
  localCandidateId : option jsstr;
  row_candidateType : option jsstr;
}.

Definition present (s : option jsstr) : bool := bool_decide (s <> None) && bool_decide (s <> Some []).

(** One row of the [forEach]: the selected pair so far and the rows by id. *)
Definition stats_row (acc : jsstr * jsmap jsstr StatsRow) (row : StatsRow)
    : jsstr * jsmap jsstr StatsRow :=
  let '(pairId, byId) := acc in
  let byId := map_set byId (row_id row) row in
  let pairId := if bool_decide (row_type row = js "transport") && present (selectedCandidatePairId row)
              then default [] (selectedCandidatePairId row) else pairId in
  let pairId := if bool_decide (pairId = []) && bool_decide (row_type row = js "candidate-pair")
                 && bool_decide (row_state row = Some (js "succeeded"))
                 && (selected row || nominated row)
              then row_id row else pairId in
  (pairId, byId).

(** The type of the local candidate of the selected pair. *)
Definition selected_candidate_type (rows : list StatsRow) : option jsstr :=
  let '(selectedPairId, byId) := fold_left stats_row rows ([], []) in
  if bool_decide (selectedPairId = []) then None else
  match map_get byId selectedPairId with
  | None => None
  | Some row =>
      if negb (present (localCandidateId row)) then None else
      match map_get byId (default [] (localCandidateId row)) with
      | None => None
      | Some local =>
          match row_candidateType local with
          | Some t => if bool_decide (t ∈ [js "host"; js "srflx"; js "prflx"; js "relay"])
                      then Some t else None
          | None => None
          end
      end
  end.

(** [reportSelectedCandidateType] after [await pc.getStats()]; [None] when it
    was rejected. *)
Definition reportSelectedCandidateType (p : nat) (stats : option (list StatsRow)) : M unit :=
  let! c := self id in
  match stats with
  | None => ret tt
  | Some rows =>
      if closed c || negb (bool_decide (pc c = Some p)) then ret tt else
      match selected_candidate_type rows with
      | None => ret tt
      | Some t =>
          let! peer := gets (fun w => peers w !! p) in
          notifyDiagnostics (mkDiagnostics None (option_map iceConnectionState peer) (Some t))
      end
  end.

Definition pc_onconnectionstatechange (p : nat) : M unit :=
  let! peer := gets (fun w => peers w !! p) in
  let st := default [] (option_map connectionState peer) in
  when (bool_decide (st ∈ [js "failed"; js "disconnected"; js "closed"]))
    (fail (js "direct peer connection " ++ st)).

(** *** Remote signals *)

Definition modify_signal_chain (k : nat) (f : Chain DirectSignalMessage unit -> Chain DirectSignalMessage unit)
    : M unit :=
  modify (fun w => w <| signalChains := alter f k (signalChains w) |>).

Definition handleSignal (message : DirectSignalMessage) : M unit :=
  let! c := self id in
  if closed c then ret tt else
  let kind := text_of (field message "kind") in
  let kind_is k := bool_decide (kind = js k) in
  if kind_is "hello_ok" then
    raise_if (helloAccepted c) "duplicate direct hello acknowledgement" ;;;
    let! _ := assign (fun c => c <| helloAccepted := true |>) in
    let base := directOptions (options c) in
    sendSignal [(js "kind", JStr (js "direct_request")); (js "request_id", JStr (requestId c));
                (js "session_id", JStr (opt_sessionId base));
                (js "client_instance_id", JStr (opt_clientInstanceId base));
                (js "since_seq", jint (sinceSeq base))]
  else if kind_is "direct_attempt" then
    raise_if (negb (is_text (field message "request_id") (requestId c)))
      "direct request id mismatch" ;;;
    catch (beginAttempt message) fail
  else if kind_is "signal" then
    raise_if (negb (truthy (Some (attemptId c)))
              || negb (strict_equal (field message "attempt_id") (Some (attemptId c))))
      "direct signal attempt mismatch" ;;;
    modify_signal_chain (signalChain c) (chain_then message)
  else if kind_is "consumed" then
    raise_if (negb (strict_equal (field message "attempt_id") (Some (attemptId c))))
      "direct consumed attempt mismatch" ;;;
    ret tt
  else if kind_is "cancel" then
    raise (js "direct attempt cancelled: " ++ text_or (field message "code") "peer_cancelled")
  else if kind_is "error" then
    raise (js "direct signaling rejected: " ++ text_or (field message "code") "unknown_error")
  else if kind_is "host_registered" then ret tt
  else raise (js "unexpected direct signaling message: " ++ kind).

Definition ws_onmessage (data : MessageData) : M unit :=
  catch (let! message := answer (of_result (parseSignalMessage data)) in
         handleSignal message) fail.

(** [if (!v || typeof v !== 'object')] of a parsed value *)
Definition is_object (j : Json) : bool :=
  match j with JObj _ | JArr _ => true | _ => false end.

(** [applyRemoteSignal]: whether it is left suspended at an [await]. *)
Definition applyRemoteSignal (message : DirectSignalMessage) : M bool :=
  let! c := self id in
  match pc c, field message "signal_type", field message "payload" with
  | Some p, Some (JStr signal_type), Some (JStr payload) =>
      if bool_decide (signal_type = js "answer") then
        let! answer := answer (of_result (JSON_parse payload)) in
        match as_record answer with
        | Some fields =>
            raise_if (negb (is_text (field fields "type") (js "answer"))) "invalid direct answer" ;;;
            let! _ := emit (PeerCall p (SetRemoteDescription answer)) in
            ret true
        | None => raise (js "invalid direct answer")
        end
      else if bool_decide (signal_type = js "ice_candidate") then
        let! candidate := answer (of_result (JSON_parse payload)) in
        raise_if (negb (is_object candidate)) "invalid direct ICE candidate" ;;;
        let! _ := emit (PeerCall p (AddIceCandidate candidate)) in
        ret true
      else if bool_decide (signal_type = js "ice_end") then ret false
      else raise (js "unsupported direct signal")
  | _, _, _ => raise (js "direct peer connection unavailable")
  end.

(** The next job of a signal chain, with its [catch]. *)
Definition signal_turn (k : nat) : M unit :=
  let! chain := gets (fun w => (signalChains w !! k) ≫= chain_next) in
  match chain with
  | None => ret tt
  | Some (message, rest) =>
      let! _ := modify_signal_chain k (fun _ => rest) in
      catch (let! waits := applyRemoteSignal message in
             when waits (modify_signal_chain k (chain_suspend (Some tt))))
            fail
  end.

(** The awaited operation of the suspended job settles. *)
Definition signal_settled (k : nat) (o : outcome unit) : M unit :=
  let! chain := gets (fun w => signalChains w !! k) in
  match chain ≫= suspended_job with
  | None => ret tt
  | Some _ =>
      let! _ := modify_signal_chain k (chain_suspend None) in
      catch (answer o) fail
  end.

(** *** The data channel *)

Definition dc_onopen (d : nat) : M unit :=
  catch (let! h := self handshake in
         match h with
         | None => raise (js "direct handshake unavailable")
         | Some i =>
             let! hello := on_handshake i clientHello in
             dc_send d hello
         end) fail.

Definition modify_receive_chain (k : nat) (f : Chain bytes HelloStage -> Chain bytes HelloStage)
    : M unit :=
  modify (fun w => w <| receiveChains := alter f k (receiveChains w) |>).

Definition dc_onmessage (data : MessageData) : M unit :=
  match data with
  | TextData _ => fail (js "direct data channel requires binary messages")
  | BinaryData p =>
      let! k := self receiveChain in
      modify_receive_chain k (chain_then p)
  end.

(** [this.dc.send(bytes)]; [this.dc] may be [null] by now. *)
Definition this_dc_send (data : bytes) : M unit :=
  let! d := self dc in
  match d with
  | None => raise (js "TypeError: this.dc is null")
  | Some d => dc_send d data
  end.

(** [view.getBigUint64(0)] of the eight bytes of DIRECT_READY *)
Definition directReadySeq (plaintext : bytes) : result Z :=
  throw_if (negb (zlen plaintext =? 8)) "invalid DIRECT_READY payload" ;;;
  let* replayedSeq := getUint 8 plaintext 0 in
  throw_if (MAX_SAFE_INTEGER <? replayedSeq) "DIRECT_READY sequence exceeds client range" ;;;
  Ok replayedSeq.

(** The [switch] on an opened record. *)
Definition handleRecord (kind : Z) (plaintext : bytes) : M unit :=
  if kind =? DirectRecordKind.Frame then emit (Calls (CbFrame plaintext))
  else if kind =? DirectRecordKind.Fragment then
    let! t := gets now in
    let! frame := on_reassembler (add plaintext t) in
    match frame with
    | Some frame => emit (Calls (CbFrame frame))
    | None => ret tt
    end
  else if kind =? DirectRecordKind.DirectReady then
    let! replayedSeq := answer (of_result (directReadySeq plaintext)) in
    emit (Calls (CbReady replayedSeq))
  else if kind =? DirectRecordKind.Ping then
    raise_if (negb (zlen plaintext =? 8)) "invalid direct PING payload" ;;;
    let! pong := on_codec (seal DirectRecordKind.Pong plaintext) in
    this_dc_send pong
  else if kind =? DirectRecordKind.Pong then
    raise_if (negb (zlen plaintext =? 8)) "invalid direct PONG payload" ;;;
    ret tt
  else if kind =? DirectRecordKind.Close then raise (js "direct peer closed route")
  else raise (js "unsupported direct record").

(** [handleDataMessage]: [Some] when it is left suspended. *)
Definition handleDataMessage (message : bytes) : M (option HelloStage) :=
  let! c := self id in
  match handshake c, dc c with
  | Some i, Some d =>
      if negb (hostHelloHandled c) then
        let! p := on_handshake i (handleHostHello message) in
        ret (Some (InHello i p))
      else if negb (authenticated c) then
        let! keys := on_handshake i (handleAuthOK message) in
        let! _ := assign (fun c => c <| codec := Some (new_codec keys) |> <| authenticated := true |>) in
        let! _ := clear_timeout in
        let! _ := assign (fun c => c <| accountKey := fill0 (accountKey c) |>) in
        let! _ := emit (Calls CbAuthenticated) in
        ret None
      else
        raise_if (bool_decide (codec c = None)) "direct record codec unavailable" ;;;
        let! opened := on_codec (DirectHandshake.open message) in
        let! _ := handleRecord (fst opened) (snd opened) in
        ret None
  | _, _ => raise (js "direct handshake unavailable")
  end.

(** The next job of a receive chain, with its [catch]. *)
Definition receive_turn (k : nat) : M unit :=
  let! chain := gets (fun w => (receiveChains w !! k) ≫= chain_next) in
  match chain with
  | None => ret tt
  | Some (message, rest) =>
      let! _ := modify_receive_chain k (fun _ => rest) in
      catch (let! stage := handleDataMessage message in
             modify_receive_chain k (chain_suspend stage)) fail
  end.

(** [handleHostHello] of the handshake object resumes, then the continuation
    of [handleDataMessage] with its outcome. *)
Definition receive_resume (k : nat) : M unit :=
  let! chain := gets (fun w => receiveChains w !! k) in
  match chain ≫= suspended_job with
  | None => ret tt
  | Some (InHello i p) =>
      let! o := settled (on_handshake i (handleHostHello_resume p)) in
      modify_receive_chain k (chain_suspend (Some (HelloSettled o)))
  | Some (HelloSettled o) =>
      let! _ := modify_receive_chain k (chain_suspend None) in
      catch (let! finish_message := answer o in
             let! _ := assign (fun c => c <| hostHelloHandled := true |>) in
             this_dc_send finish_message) fail
  end.

(** *** The event loop *)

Inductive Event :=
  | EvStart
  | EvSendFrame (frame : bytes)
  | EvClose
  | EvCallbackThrew (error : jsstr)
  | EvSocketOpen (s : nat)
  | EvSocketMessage (s : nat) (data : MessageData)
  | EvSocketClosing (s : nat)
  | EvSocketClose (s : nat)
  | EvTimer (t : nat)
  | EvAttempt (a : nat) (ans : AttemptAnswer)
  | EvIceState (p : nat) (state : jsstr)
  | EvPeerState (p : nat) (state : jsstr)
  | EvStats (p : nat) (stats : option (list StatsRow))
  | EvSignalTurn (k : nat)
  | EvSignalSettled (k : nat) (o : outcome unit)
  | EvChannelOpen (d : nat)
  | EvChannelMessage (d : nat) (data : MessageData)
  | EvChannelError (d : nat)
  | EvChannelClose (d : nat)
  | EvBuffered (d : nat) (amount : Z)
  | EvReceiveTurn (k : nat)
  | EvReceiveResume (k : nat)
  | EvNow (t : Z).

Definition set_socket (id : nat) (st : ReadyState) : M unit :=
  modify (fun w => w <| sockets := <[id := st]> (sockets w) |>).

Definition socket_is (id : nat) (states : list ReadyState) (w : ClientWorld) : bool :=
  match sockets w !! id with Some st => bool_decide (st ∈ states) | None => false end.

(** A channel that fails the checks of [beginAttempt] gets no handlers; the
    client is closed then, and they would do nothing. *)
Definition channel_is (id : nat) (states : list ReadyState) (w : ClientWorld) : bool :=
  match channels w !! id with Some c => bool_decide (channelState c ∈ states) | None => false end.

(** What the browser does, and the handler it then calls. *)
Definition dispatch (e : Event) : M unit :=
  match e with
  | EvStart => start
  | EvSendFrame frame => let! _ := sendFrame frame in ret tt
  | EvClose => close
  | EvCallbackThrew error => fail error
  | EvSocketOpen s =>
      let! go := gets (socket_is s [CONNECTING]) in
      when go (let! _ := set_socket s OPEN in ws_onopen)
  | EvSocketMessage s data =>
      let! go := gets (socket_is s [OPEN]) in
      when go (ws_onmessage data)
  | EvSocketClosing s =>
      let! go := gets (socket_is s [CONNECTING; OPEN]) in
      when go (set_socket s CLOSING)
  | EvSocketClose s =>
      let! go := gets (socket_is s [CONNECTING; OPEN; CLOSING]) in
      when go (let! _ := set_socket s CLOSED in ws_onclose)
  | EvTimer t =>
      let! go := gets (fun w => bool_decide (t ∈ timers w)) in
      when go (let! _ := clearTimeout t in timer_fired)
  | EvAttempt a ans => attempt_resume a ans
  | EvIceState p state =>
      let! peer := gets (fun w => peers w !! p) in
      match peer with
      | None => ret tt
      | Some peer =>
          let! _ := modify (fun w => w <| peers := <[p := mkPeer state (connectionState peer)]> (peers w) |>) in
          reportDiagnostics p
      end
  | EvPeerState p state =>
      let! peer := gets (fun w => peers w !! p) in
      match peer with
      | None => ret tt
      | Some peer =>
          let! _ := modify (fun w => w <| peers := <[p := mkPeer (iceConnectionState peer) state]> (peers w) |>) in
          pc_onconnectionstatechange p
      end
  | EvStats p stats =>
      let! go := gets (fun w => bool_decide (p ∈ statsCalls w)) in
      when go (
        let! _ := modify (fun w => w <| statsCalls := filter (fun q => q <> p) (statsCalls w) |>) in
        reportSelectedCandidateType p stats)
  | EvSignalTurn k => signal_turn k
  | EvSignalSettled k o => signal_settled k o
  | EvChannelOpen d =>
      let! go := gets (channel_is d [CONNECTING]) in
      when go (let! _ := set_channel_state d OPEN in dc_onopen d)
  | EvChannelMessage d data =>
      let! go := gets (channel_is d [OPEN]) in
      when go (dc_onmessage data)
  | EvChannelError d =>
      let! go := gets (channel_is d [CONNECTING; OPEN; CLOSING]) in
      when go (fail (js "direct data channel error"))
  | EvChannelClose d =>
      let! go := gets (channel_is d [CONNECTING; OPEN; CLOSING]) in
      when go (let! _ := set_channel_state d CLOSED in fail (js "direct data channel closed"))
  | EvBuffered d amount => set_buffered d amount
  | EvReceiveTurn k => receive_turn k
  | EvReceiveResume k => receive_resume k
  | EvNow t => modify (fun w => w <| now := t |>)
  end.

Definition step (e : Event) (w : ClientWorld) : ClientWorld := fst (dispatch e w).

Definition run (events : list Event) (w : ClientWorld) : ClientWorld :=
  fold_left (fun w e => step e w) events w.

(** The constructor, which copies the account key. *)
Definition new_client (o : DirectClientOptions) : result DirectClient :=
  let base := directOptions o in
  throw_if (negb (zlen (opt_accountKey base) =? 32)) "direct transport requires a 32-byte account_key" ;;;
  throw_if ((sinceSeq base <? 0) || (MAX_SAFE_INTEGER <? sinceSeq base)) "invalid direct replay cursor" ;;;
  throw_if (bool_decide (opt_clientInstanceId base = []) || (128 <? zlen (opt_clientInstanceId base)))
    "invalid direct client instance id" ;;;
  Ok (mkDirectClient o None None None None None new_reassembler (requestUUID base) (JStr []) false
        false false false false None 0 0 (opt_accountKey base)).

(** The run time around a new client at time [t]. *)
Definition init (c : DirectClient) (t : Z) : ClientWorld :=
  mkClientWorld c [] [] [] [] [] [new_chain] [new_chain] [] [] 0 t [].

(** The callbacks of a trace. *)
Definition calls (l : list Effect) : list Callback :=
  omap (fun e => match e with Calls cb => Some cb | _ => None end) l.
End Client.
