(* ===== verification/DirectClientInv.v ===== *)
(** * The invariant of the direct client

    The invariant speaks of a few fields, the [View] of the state. Most
    methods leave the view as it is ([preserves view]) and keep the invariant for that
    reason alone. The others are [finish], [fail], [start], the steps of
    [beginAttempt] and the authentication. *)

From S2P Require Import Prelude Bytes JsString JsMap Json DirectCrypto DirectFraming.
From S2P Require Import DirectHandshake EventLoop Transport DirectClient.

Record View := mkView {
  v_closed : bool;
  v_authenticated : bool;
  v_started : bool;
  v_signalWS : option nat;
  v_pc : option nat;
  v_dc : option nat;
  v_handshake : option nat;
  v_no_codec : bool;
  v_timeout : option nat;
  v_timers : list nat;
  v_accountKey : bytes;
  v_attempted : bool;
  v_early : list bool;            (* the attempts: has each created nothing yet? *)
  v_nothing_created : bool;       (* no channel and no handshake object *)
  v_no_channel : bool;
  v_no_socket : bool;
  v_phase : option Phase;
}.

#[export] Instance eta_view : Eta View :=
  fun v => mkView (v_closed v) (v_authenticated v) (v_started v) (v_signalWS v) (v_pc v) (v_dc v)
    (v_handshake v) (v_no_codec v) (v_timeout v) (v_timers v) (v_accountKey v) (v_attempted v)
    (v_early v) (v_nothing_created v) (v_no_channel v) (v_no_socket v)
    (v_phase v).

Definition is_nil {A} (l : list A) : bool := match l with [] => true | _ => false end.
Definition is_none {A} (o : option A) : bool := match o with None => true | _ => false end.

(** Nothing is held and no key is left. *)
Definition released (v : View) : Prop :=
  v_signalWS v = None /\ v_pc v = None /\ v_dc v = None /\ v_no_codec v = true /\
  v_timeout v = None /\ v_timers v = [] /\ Forall (eq 0) (v_accountKey v) /\
  (v_handshake v = None \/ v_no_channel v = true).

(** Whether the owner of the client may call [close]: if it never does, a
    closed client has reported its failure. *)
Class Owner := owner_closes : bool.

(** The invariant but for the attempt timer. *)
Record inv0 `{Owner} (v : View) : Prop := mkInv0 {
  inv_phase : exists p, v_phase v = Some p /\
    (v_closed v = false -> p = if v_authenticated v then Live else Attempting);
  inv_closed : v_closed v = true -> released v;
  inv_timers : Forall (fun t => v_timeout v = Some t) (v_timers v);
  inv_auth : v_authenticated v = true ->
    v_timers v = [] /\ Forall (eq 0) (v_accountKey v) /\ (v_closed v = false -> v_no_codec v = false);
  inv_codec : v_authenticated v = false -> v_no_codec v = true;
  inv_early : match v_early v with
              | [] => v_nothing_created v = true
              | [e] => v_attempted v = true /\ (e = true -> v_nothing_created v = true)
              | _ => False
              end;
  inv_created : v_nothing_created v = true -> v_no_channel v = true;
  inv_started : v_started v = false ->
    v_no_socket v = true /\ v_timers v = [] /\ v_authenticated v = false /\ v_handshake v = None /\
    v_early v = [];
  inv_over : owner_closes = false -> v_closed v = true -> v_phase v = Some Over;
}.

(** While an attempt is under way its timer runs. *)
Definition armed (v : View) : Prop :=
  v_started v = true -> v_closed v = false -> v_authenticated v = false ->
  exists t, v_timeout v = Some t /\ t ∈ v_timers v.

Definition inv `{Owner} (v : View) : Prop := inv0 v /\ armed v.

(** What [finish] does to the view. *)
Definition finished (v : View) : View :=
  v <| v_closed := true |> <| v_signalWS := None |> <| v_pc := None |> <| v_dc := None |>
    <| v_handshake := None |> <| v_no_codec := true |> <| v_timeout := None |>
    <| v_timers := match v_timeout v with
                   | Some t => filter (fun u => u <> t) (v_timers v)
                   | None => v_timers v
                   end |>
    <| v_accountKey := fill0 (v_accountKey v) |>.

Lemma filter_all_same (t : option nat) l :
  Forall (fun u => t = Some u) l ->
  match t with Some t => filter (fun u => u <> t) l | None => l end = [].
Proof.
  intros Hl. destruct t as [t|].
  - induction Hl as [|u l Hu _ IH]; [done|]. injection Hu as ->. rewrite filter_cons_False by naive_solver.
    done.
  - by destruct Hl.
Qed.

Lemma finished_phase v p : v_phase v = Some p -> (finished v) <| v_phase := Some p |> = finished v.
Proof. destruct v. cbn. by intros ->. Qed.

Lemma fill0_zero p : Forall (eq 0) (fill0 p).
Proof. unfold fill0, zeros. by apply Forall_replicate. Qed.

Ltac view_tac :=
  cbn [set_field v_closed v_authenticated v_started v_signalWS v_pc v_dc v_handshake v_no_codec
       v_timeout v_timers v_accountKey v_attempted v_early v_nothing_created v_no_channel v_no_socket v_phase] in *.

(** Releasing everything, with the failure reported or by the owner,
    establishes the invariant. *)
Lemma finished_inv `{Owner} v p : inv0 v ->
  (v_phase v = Some p /\ owner_closes = true) \/ p = Over ->
  inv ((finished v) <| v_phase := Some p |>).
Proof.
  intros [I1 I2 I3 I4 I5 I6 I7 I9 I10] Hp. unfold finished. rewrite (filter_all_same _ _ I3).
  split; [|by unfold armed; view_tac].
  split; view_tac; unfold released; view_tac.
  - exists p. by split.
  - intros _. split_and!; auto using fill0_zero.
  - done.
  - intros _. split_and!; auto using fill0_zero; done.
  - done.
  - exact I6.
  - exact I7.
  - intros Hs. destruct (I9 Hs) as (? & ? & ? & ? & ?). by split_and!.
  - intros Ho _. destruct Hp as [[_ ?]| ->]; [congruence|done].
Qed.

Section Invariant.
Context `{Crypto} `{WebCrypto} `{JsText} `{Browser}.
Implicit Types (w : ClientWorld).

(** A [beginAttempt] that has created nothing yet. *)
Definition early_stage (st : AttemptStage) : bool :=
  match st with AtCreate _ _ | AtCreated _ => true | _ => false end.

Definition view w : View :=
  let c := this w in
  mkView (closed c) (authenticated c) (started c) (signalWS c) (pc c) (dc c) (handshake c)
    (is_none (codec c)) (timeout c) (timers w) (accountKey c) (truthy (Some (attemptId c)))
    (map early_stage (attempts w))
    (is_nil (channels w) && is_nil (handshakes w)) (is_nil (channels w)) (is_nil (sockets w))
    (observe_all Attempting (calls (trace w))).

(** The state keeps a property of its view. *)
Definition kept {A} (P : View -> Prop) (m : M A) : Prop := keeps (fun w => P (view w)) m.

(** [m] acts on the view as [g], and returns. *)
Definition acts (m : M unit) (g : View -> View) : Prop :=
  forall w, view (fst (m w)) = g (view w) /\ snd (m w) = Done tt.

Lemma quiet_kept {A} P (m : M A) : preserves view m -> kept P m.
Proof. intros Hm. apply (preserves_keeps view _ _ Hm). by intros s s' ->. Qed.

Lemma calls_app l1 l2 : calls (l1 ++ l2) = calls l1 ++ calls l2.
Proof. apply omap_app. Qed.

(** An effect that is no callback, or a diagnostic. *)
Definition silent (e : Effect) : bool :=
  match e with Calls (CbDiagnostics _) => true | Calls _ => false | _ => true end.

Lemma phase_silent l e p : silent e = true ->
  observe_all p (calls (l ++ [e])) = observe_all p (calls l).
Proof.
  intros He. rewrite calls_app, observe_all_app. destruct (observe_all p (calls l)) as [q|]; [|done].
  destruct e as [| | | | | | | | | |[]]; try done; by destruct q.
Qed.

Lemma quiet_emit e : silent e = true -> preserves view (emit e).
Proof. intros He. apply preserves_modify. intros w. unfold view. cbn. by rewrite phase_silent. Qed.

Lemma is_nil_insert {A} i (x : A) l : is_nil (<[i := x]> l) = is_nil l.
Proof. destruct l; [done|]. by destruct i. Qed.

Lemma is_nil_alter {A} (f : A -> A) i l : is_nil (alter f i l) = is_nil l.
Proof. destruct l; [done|]. by destruct i. Qed.

Lemma quiet_on_handshake {A} i (m : method DirectClientHandshake A) : preserves view (on_handshake i m).
Proof.
  intros w. unfold on_handshake. destruct (handshakes w !! i) as [h|]; [|done].
  destruct (m h) as [h' r]. unfold view. cbn. by rewrite is_nil_insert.
Qed.

Lemma quiet_on_codec {A} (m : method DirectClientRecordCodec A) : preserves view (on_codec m).
Proof.
  intros w. unfold on_codec. destruct (codec (this w)) as [c|] eqn:E; [|done].
  destruct (m c) as [c' r]. unfold view. cbn. by rewrite E.
Qed.

Lemma quiet_on_reassembler {A} (m : method Reassembler A) : preserves view (on_reassembler m).
Proof. intros w. unfold on_reassembler. by destruct (m _). Qed.
End Invariant.

#[export] Hint Resolve quiet_on_handshake quiet_on_codec quiet_on_reassembler : preserves.
#[export] Hint Extern 3 (preserves view (emit _)) => apply quiet_emit; reflexivity : preserves.



(** ** The methods that leave the view alone *)

Section Quiet.
Context `{Crypto} `{WebCrypto} `{JsText} `{Browser}.

Lemma quiet_set_channels f i : preserves view (modify (fun w => w <| channels := alter f i (channels w) |>)).
Proof. apply preserves_modify. intros w. unfold view. cbn. by rewrite is_nil_alter. Qed.

Lemma quiet_set_handshakes f i :
  preserves view (modify (fun w => w <| handshakes := alter f i (handshakes w) |>)).
Proof. apply preserves_modify. intros w. unfold view. cbn. by rewrite is_nil_alter. Qed.
Hint Resolve quiet_set_channels quiet_set_handshakes : preserves.

Lemma quiet_set_sockets s st : preserves view (modify (fun w => w <| sockets := <[s := st]> (sockets w) |>)).
Proof. apply preserves_modify. intros w. unfold view. cbn. by rewrite is_nil_insert. Qed.
Hint Resolve quiet_set_sockets : preserves.

Lemma quiet_socket_close s : preserves view (ws_close s).
Proof. unfold ws_close. preserves_tac. Qed.

Lemma quiet_dc_send d data : preserves view (dc_send d data).
Proof. unfold dc_send, set_buffered. preserves_tac. Qed.

Lemma quiet_dc_close d : preserves view (dc_close d).
Proof. unfold dc_close, set_channel_state. preserves_tac. Qed.

Lemma quiet_pc_close p : preserves view (pc_close p).
Proof. unfold pc_close. preserves_tac. Qed.
Hint Resolve quiet_socket_close quiet_dc_send quiet_dc_close quiet_pc_close : preserves.

Lemma quiet_close_opt f o : (forall i, preserves view (f i)) -> preserves view (close_opt f o).
Proof. intros Hf. unfold close_opt. preserves_tac. Qed.

Lemma quiet_sendSignal m : preserves view (sendSignal m).
Proof. unfold sendSignal. preserves_tac. Qed.

Lemma quiet_notifyDiagnostics d : preserves view (notifyDiagnostics d).
Proof. unfold notifyDiagnostics. preserves_tac. Qed.

Lemma quiet_dispose_handshake : preserves view dispose_handshake.
Proof. unfold dispose_handshake. preserves_tac. Qed.

Lemma quiet_fresh_chains : preserves view fresh_chains.
Proof. unfold fresh_chains, assign. preserves_tac. Qed.

Lemma quiet_send_records d records : preserves view (send_records d records).
Proof. induction records as [|r rs IH]; cbn [send_records]; preserves_tac. Qed.
Hint Resolve quiet_sendSignal quiet_notifyDiagnostics quiet_dispose_handshake quiet_fresh_chains
  quiet_send_records : preserves.

Lemma quiet_ws_onopen : preserves view ws_onopen.
Proof. unfold ws_onopen. preserves_tac. Qed.

Lemma quiet_reportDiagnostics p : preserves view (reportDiagnostics p).
Proof. unfold reportDiagnostics. preserves_tac. Qed.

Lemma quiet_reportSelectedCandidateType p stats : preserves view (reportSelectedCandidateType p stats).
Proof. unfold reportSelectedCandidateType. preserves_tac. Qed.

Lemma quiet_modify_signal_chain k f : preserves view (modify_signal_chain k f).
Proof. unfold modify_signal_chain. preserves_tac. Qed.

Lemma quiet_modify_receive_chain k f : preserves view (modify_receive_chain k f).
Proof. unfold modify_receive_chain. preserves_tac. Qed.

Lemma quiet_this_dc_send data : preserves view (this_dc_send data).
Proof. unfold this_dc_send. preserves_tac. Qed.

Lemma quiet_set_socket s st : preserves view (set_socket s st).
Proof. unfold set_socket. preserves_tac. Qed.

Lemma quiet_applyRemoteSignal m : preserves view (applyRemoteSignal m).
Proof. unfold applyRemoteSignal. preserves_tac. Qed.

Lemma quiet_self {A} (f : DirectClient -> A) : preserves view (self f).
Proof. unfold self. preserves_tac. Qed.
End Quiet.

#[export] Hint Resolve quiet_set_channels quiet_socket_close quiet_dc_send quiet_dc_close quiet_pc_close
  quiet_sendSignal quiet_notifyDiagnostics quiet_dispose_handshake quiet_fresh_chains
  quiet_send_records quiet_ws_onopen quiet_reportDiagnostics quiet_reportSelectedCandidateType
  quiet_modify_signal_chain quiet_modify_receive_chain quiet_this_dc_send quiet_set_socket
  quiet_applyRemoteSignal quiet_self : preserves.

(** ** The methods that change it *)

Section Methods.
Context `{Crypto} `{WebCrypto} `{JsText} `{Browser} `{Owner}.
Implicit Types (w : ClientWorld) (P : View -> Prop).

(** From [w], [m] returns in a state whose view is [v]. *)
Definition goes (m : M unit) w (v : View) : Prop := view (fst (m w)) = v /\ snd (m w) = Done tt.

Lemma goes_bind (m : M unit) (k : unit -> M unit) w v v' :
  goes m w v -> (forall w', view w' = v -> goes (k tt) w' v') -> goes (bind m k) w v'.
Proof.
  intros [Ev Er] Hk. unfold goes, bind in *. destruct (m w) as [w' [[]|e]]; cbn in *; [|done].
  by apply Hk.
Qed.

Lemma goes_gets {A} (f : ClientWorld -> A) (k : A -> M unit) w v :
  goes (k (f w)) w v -> goes (bind (gets f) k) w v.
Proof. done. Qed.

Lemma goes_ret w v : view w = v -> goes (ret tt) w v.
Proof. by split. Qed.

Lemma goes_modify (f : ClientWorld -> ClientWorld) w v : view (f w) = v -> goes (modify f) w v.
Proof. by split. Qed.

Lemma attempt_returns (m : M unit) w : snd (attempt m w) = Done tt.
Proof. unfold attempt, catch. by destruct (m w) as [w' [[]|e]]. Qed.

Lemma goes_attempt (m : M unit) w v : preserves view m -> view w = v -> goes (attempt m) w v.
Proof.
  intros Hq <-. split; [|apply attempt_returns]. unfold attempt. apply preserves_catch; [done|].
    by intros e.
Qed.

Lemma goes_close_opt f o w v : (forall i, preserves view (f i)) -> view w = v -> goes (close_opt f o) w v.
Proof. intros Hf Hw. destruct o; cbn [close_opt]; [by apply goes_attempt|by apply goes_ret]. Qed.

Lemma goes_clear_timeout w v :
  view w = v ->
  goes clear_timeout w (v <| v_timeout := None |>
    <| v_timers := match v_timeout v with
                   | Some t => filter (fun u => u <> t) (v_timers v) | None => v_timers v end |>).
Proof.
  intros <-. unfold clear_timeout, self. apply goes_gets. cbn.
  destruct (timeout (this w)) as [t|] eqn:E; [|by apply goes_ret; unfold view; cbn; rewrite E].
  by split.
Qed.

Lemma goes_dispose w v : view w = v -> goes dispose_handshake w v.
Proof.
  intros <-. split; [apply quiet_dispose_handshake|].
  unfold dispose_handshake, self, bind, gets. by destruct (handshake (this w)).
Qed.

Lemma goes_assign f (g : View -> View) w v :
  (forall w, view (w <| this := f (this w) |>) = g (view w)) -> view w = v -> goes (assign f) w (g v).
Proof. intros Hf <-. by split; [apply Hf|]. Qed.

Ltac goes_step g := eapply goes_bind; [apply (goes_assign _ g); [done|eassumption]|intros ? ?].

(** [finish] on an open client. *)
Lemma goes_finish w : closed (this w) = false -> goes finish w (finished (view w)).
Proof.
  intros Hc. unfold finish, self. apply goes_gets. rewrite Hc.
  assert (E : view w = view w) by done.
  goes_step (fun v => v <| v_closed := true |>).
  eapply goes_bind; [by apply goes_clear_timeout|intros ? ?].
  goes_step (fun v => v <| v_accountKey := fill0 (v_accountKey v) |>).
  eapply goes_bind; [by apply goes_dispose|intros ? ?].
  goes_step (fun v => v <| v_handshake := None |> <| v_no_codec := true |>).
  eapply goes_bind; [apply goes_modify; eassumption|intros ? ?].
  do 3 apply goes_gets.
  goes_step (fun v => v <| v_signalWS := None |> <| v_dc := None |> <| v_pc := None |>).
  do 3 (eapply goes_bind; [apply goes_close_opt; [auto with preserves|eassumption]|intros ? ?]).
  match goal with E : view ?w' = _ |- goes _ ?w' _ => rename E into Ev end.
  split; [|done]. by rewrite quiet_fresh_chains.
Qed.

Lemma closed_view w : v_closed (view w) = closed (this w).
Proof. done. Qed.

Lemma closed_inv0 w : inv0 (view w) -> closed (this w) = true -> inv (view w).
Proof. intros Hi Hc. split; [done|]. intros _ E. rewrite closed_view in E. congruence. Qed.

(** [finish], called by the owner, releases everything. *)
Lemma kept_finish : owner_closes = true -> kept inv finish.
Proof.
  intros Ho w [Hi Ha]. destruct (closed (this w)) eqn:Hc.
  - unfold finish, self, bind, gets. by rewrite Hc.
  - destruct (goes_finish w Hc) as [Ev _]. rewrite Ev.
    destruct (inv_phase _ Hi) as (p & Hp & _).
    rewrite <- (finished_phase _ _ Hp). apply finished_inv; [done|]. by left.
Qed.

Lemma finish_closed w : closed (this w) = true -> finish w = (w, Done tt).
Proof. intros Hc. unfold finish, self, bind, gets. by rewrite Hc. Qed.

Lemma fail_closed e w : closed (this w) = true -> fail e w = (w, Done tt).
Proof. intros Hc. unfold fail, self, bind, gets. by rewrite Hc. Qed.

(** The one failure of an open client. *)
Lemma goes_fail e w p : closed (this w) = false -> v_phase (view w) = Some p -> p <> Over ->
  goes (fail e) w ((finished (view w)) <| v_phase := Some Over |>).
Proof.
  intros Hc Hp Ho. unfold fail, self. apply goes_gets. rewrite Hc. apply goes_gets.
  eapply goes_bind with (v := view w).
  { unfold when. destruct (authenticated (this w)); [by apply goes_attempt; auto with preserves|by apply goes_ret]. }
  intros w1 E1. eapply goes_bind.
  { apply goes_finish. by rewrite <- closed_view, E1. }
  intros w2 E2. rewrite E1 in E2. split; [|done].
  transitivity ((view w2) <| v_phase := Some Over |>); [|by rewrite E2]. unfold view at 1. cbn.
  rewrite calls_app, observe_all_app.
  assert (Hph : v_phase (view w2) = Some p) by (by rewrite E2). cbn in Hph. rewrite Hph.
  by destruct p.
Qed.

Lemma open_phase v : inv0 v -> v_closed v = false -> exists p, v_phase v = Some p /\ p <> Over.
Proof.
  intros [(p & Hp & Hp') _ _ _ _ _ _ _ _] Hc. exists p. split; [done|]. rewrite (Hp' Hc).
  by destruct (v_authenticated v).
Qed.

Lemma fail_inv0 e : triple (fun w => inv0 (view w)) (fail e)
  (fun _ w => inv (view w) /\ closed (this w) = true).
Proof.
  intros w Hi. destruct (closed (this w)) eqn:Hc.
  - rewrite (fail_closed _ _ Hc). cbn. split; [by apply closed_inv0|done].
  - destruct (open_phase _ Hi Hc) as (p & Hp & Ho). destruct (goes_fail e w p Hc Hp Ho) as [Ev _].
    rewrite <- closed_view, Ev. split; [|done]. apply finished_inv; [done|]. by right.
Qed.

Lemma kept_fail e : kept inv (fail e).
Proof. intros w [Hi _]. by apply (fail_inv0 e w). Qed.

Lemma quiet_keeps {A} (m : M A) : preserves view m -> kept inv m.
Proof. apply quiet_kept. Qed.

(** ** Rules for the invariant *)

(** The invariant, on an open client. *)
Definition open_inv (v : View) : Prop := inv v /\ v_closed v = false.

Lemma kept_bind {A B} P (m : M A) (k : A -> M B) :
  kept P m -> (forall a, kept P (k a)) -> kept P (bind m k).
Proof. apply act_keeps_bind. Qed.

Lemma kept_quiet_bind {A B} P (m : M A) (k : A -> M B) :
  preserves view m -> (forall a, kept P (k a)) -> kept P (bind m k).
Proof. intros Hm. by apply act_keeps_bind, quiet_kept. Qed.

Lemma kept_catch_fail (m : M unit) : kept inv m -> kept inv (catch m fail).
Proof. intros Hm. apply keeps_catch; [exact Hm|]. intros e. apply kept_fail. Qed.

Lemma kept_when P b (m : M unit) : kept P m -> kept P (when b m).
Proof. apply keeps_when. Qed.

Lemma kept_if {A} P (b : bool) (m1 m2 : M A) : kept P m1 -> kept P m2 -> kept P (if b then m1 else m2).
Proof. apply keeps_if. Qed.

(** An assignment, by its effect on the view. *)
Lemma kept_assign P f (g : View -> View) :
  (forall w, view (w <| this := f (this w) |>) = g (view w)) -> (forall v, P v -> P (g v)) ->
  kept P (assign f).
Proof. intros Hf Hg w Hw. unfold assign, modify. cbn [fst]. rewrite Hf. by apply Hg. Qed.

(** *** [start], [close], the socket *)

Lemma inv_start v s t : inv v -> v_started v = false -> v_closed v = false ->
  inv (v <| v_started := true |> <| v_no_socket := false |> <| v_signalWS := Some s |>
         <| v_timers := v_timers v ++ [t] |> <| v_timeout := Some t |>).
Proof.
  intros [[I1 I2 I3 I4 I5 I6 I7 I9 I10] I8] Hs Hc. destruct (I9 Hs) as (_ & Et & Ea & _ & _).
  split; [split|]; unfold armed in *; view_tac; rewrite ?Et in *; try done.
  - by rewrite Hc.
  - by constructor.
  - by rewrite Ea.
  - intros _ _ _. exists t. split; [done|]. by left.
Qed.

Lemma inv0_started v : inv0 v -> v_started v = false -> inv0 (v <| v_started := true |>).
Proof. intros [I1 I2 I3 I4 I5 I6 I7 I9 I10] Hs. by split. Qed.

Lemma kept_start : kept inv start.
Proof.
  intros w Hi. unfold start, self. unfold bind at 1, gets at 1. cbn beta iota.
  destruct (started (id (this w)) || closed (id (this w))) eqn:E; [done|]. cbn [id] in E.
  apply orb_false_elim in E as [Es Ec]. unfold bind at 1, assign at 1, modify at 1. cbn beta iota.
  destruct (signal_socket_error _).
  - apply fail_inv0. destruct Hi as [Hi _]. apply (inv0_started _ Hi Es).
  - unfold setTimeout, bind, gets, assign, modify, emit, ret. cbn [fst].
    pose proof (inv_start (view w) (length (sockets w)) (nextTimer w) Hi Es Ec) as Hi'.
    revert Hi'. unfold view. cbn. unfold modify. cbn.
    rewrite !phase_silent by done. by destruct (sockets w).
Qed.

Lemma kept_timer t : kept inv (let! _ := clearTimeout t in timer_fired).
Proof.
  eapply triple_bind with (Q := fun o w => o = Done tt /\ inv0 (view w)).
  - intros w [[I1 I2 I3 I4 I5 I6 I7 I9 I10] _]. unfold clearTimeout, modify. cbn [fst snd].
    split; [done|]. split; try done; cbn in *.
    + intros Hc. destruct (I2 Hc) as (? & ? & ? & ? & ? & Et & ? & ?). cbn in Et. unfold released. cbn.
      rewrite Et. by split_and!.
    + rewrite Forall_forall in *. intros u Hu. apply list_elem_of_filter in Hu as [_ Hu]. by apply I3.
    + intros Ha. destruct (I4 Ha) as (Et & ? & ?). rewrite Et. by split_and!.
    + intros Hs. destruct (I9 Hs) as (? & Et & ? & ? & ?). rewrite Et. by split_and!.
  - intros _ w [_ Hw]. by apply (fail_inv0 _ w).
  - by intros e w [? _].
Qed.

Lemma kept_ws_onclose : kept inv ws_onclose.
Proof.
  unfold ws_onclose. apply kept_bind.
  - apply (kept_assign _ _ (fun v => v <| v_signalWS := None |>)); [done|].
    intros v [[I1 I2 I3 I4 I5 I6 I7 I9 I10] I8]. split; [split|]; try done.
    intros Hc. destruct (I2 Hc) as (? & ? & ? & ? & ? & ? & ? & ?). by split_and!.
  - intros _. apply kept_quiet_bind; [auto with preserves|]. intros auth. apply kept_when, kept_fail.
Qed.

Lemma kept_sendFrame frame : kept inv (sendFrame frame).
Proof.
  unfold sendFrame. apply kept_quiet_bind; [auto with preserves|]. intros c.
  apply kept_quiet_bind; [auto with preserves|]. intros st. destruct (dc c) as [d|]; [|apply act_keeps_ret].
  apply kept_if; [apply act_keeps_ret|]. apply kept_quiet_bind; [auto with preserves|]. intros b.
  apply kept_if; [apply kept_bind; [apply kept_fail|intros; apply act_keeps_ret]|].
  apply keeps_catch.
  - apply quiet_keeps. preserves_tac.
  - intros e. apply act_keeps_bind; [apply kept_fail|intros; apply act_keeps_ret].
Qed.

(** *** [beginAttempt] *)

(** An attempt is suspended, or over; the invariant but for what it has
    created. *)
Definition mid (v : View) : Prop :=
  length (v_early v) = 1%nat /\ inv (v <| v_early := [false] |>).

Lemma mid_inv v : inv v -> v_early v <> [] -> mid v.
Proof.
  intros [[I1 I2 I3 I4 I5 I6 I7 I9 I10] I8] He. destruct (v_early v) as [|e [|]] eqn:Ee; try done.
  split; [by rewrite Ee|]. split; [split|]; unfold armed; view_tac; try done.
  - destruct I6. by split.
  - intros Hs. destruct (I9 Hs) as (_ & _ & _ & _ & ?). congruence.
Qed.

Lemma set_attempt_inv st : early_stage st = false ->
  triple (fun w => mid (view w)) (set_attempt 0 st) (fun _ w => inv (view w)).
Proof.
  intros Hst w [Hl Hi]. unfold set_attempt, modify. cbn [fst].
  unfold view in *. cbn in *. destruct (attempts w) as [|s0 [|]]; cbn in *; try done.
  destruct st; done.
Qed.

Lemma mid_started v : mid v -> v_started v = true.
Proof.
  intros [_ [[_ _ _ _ _ _ _ I9 _] _]]. destruct (v_started v) eqn:E; [done|].
  destruct (I9 E) as (_ & _ & _ & _ & ?). discriminate.
Qed.

Definition mid_bare (v : View) : Prop := mid v /\ v_no_channel v = true.
Definition mid_open (v : View) : Prop := mid v /\ v_closed v = false.

(** The objects an attempt adds. *)
Lemma mid_bare_handshake v i :
  mid_bare v -> mid_bare (v <| v_nothing_created := false |> <| v_handshake := Some i |>).
Proof.
  intros [Hm Hn]. pose proof (mid_started v Hm) as Hs.
  destruct Hm as [Hl [[I1 I2 I3 I4 I5 I6 I7 I9 I10] I8]]. split; [|done]. split; [done|].
  split; [split|]; unfold armed, released in *; view_tac; try done.
  - intros Hc. destruct (I2 Hc) as (? & ? & ? & ? & ? & ? & ? & ?). split_and!; auto.
  - destruct I6. by split.
  - by rewrite Hs.
Qed.

Lemma mid_open_change v p d (nc : bool) :
  mid_open v ->
  mid_open (v <| v_nothing_created := v_nothing_created v && nc |> <| v_no_channel := v_no_channel v && nc |>
              <| v_pc := p |> <| v_dc := d |>).
Proof.
  intros [[Hl [[I1 I2 I3 I4 I5 I6 I7 I9 I10] I8]] Hc]. split; [|done]. split; [done|].
  split; [split|]; unfold armed, released in *; view_tac; try done.
  - by rewrite Hc.
  - destruct I6. by split.
  - intros Hn. apply andb_prop in Hn as [Hn ->]. by rewrite (I7 Hn).
Qed.

Lemma mid_open_push ch : kept mid_open (modify (fun w => w <| channels := channels w ++ [ch] |>)).
Proof.
  intros w Hw. unfold modify. cbn [fst].
  pose proof (mid_open_change _ (v_pc (view w)) (v_dc (view w)) false Hw) as H'.
  unfold view in *. cbn in *. rewrite !andb_false_r in H'. by destruct (channels w).
Qed.

Lemma mid_open_assign f p d :
  (forall w, view (w <| this := f (this w) |>) = (view w) <| v_pc := p (view w) |> <| v_dc := d (view w) |>) ->
  kept mid_open (assign f).
Proof.
  intros Hf w Hw. unfold assign, modify. cbn [fst]. rewrite Hf.
  pose proof (mid_open_change _ (p (view w)) (d (view w)) true Hw) as H'.
  rewrite !andb_true_r in H'. exact H'.
Qed.

(** What an attempt that runs on leaves behind: the invariant, or, when it
    throws, the state in which it is marked over. *)
Definition attempt_post (o : outcome unit) w : Prop :=
  match o with Done _ => inv (view w) | Raise _ => mid (view w) end.

Lemma post_kept {A} (P : View -> Prop) (m : M A) (k : A -> M unit) :
  (forall v, P v -> mid v) -> kept P m ->
  (forall a, triple (fun w => P (view w)) (k a) attempt_post) ->
  triple (fun w => P (view w)) (bind m k) attempt_post.
Proof. intros HP Hm Hk. eapply triple_bind; [exact Hm|exact Hk|]. intros e w. apply HP. Qed.

Lemma post_raise P e : (forall v, P v -> mid v) ->
  triple (fun w => P (view w)) (raise e : M unit) attempt_post.
Proof. intros HP w Hw. by apply HP. Qed.

Lemma post_set st : early_stage st = false ->
  triple (fun w => mid (view w)) (set_attempt 0 st) attempt_post.
Proof.
  intros Hst w Hw. pose proof (set_attempt_inv st Hst w Hw) as Hi.
  unfold set_attempt, modify in *. exact Hi.
Qed.

Lemma post_weaken P Q (m : M unit) : (forall v, P v -> Q v) ->
  triple (fun w => Q (view w)) m attempt_post -> triple (fun w => P (view w)) m attempt_post.
Proof. intros HPQ Hm w Hw. by apply Hm, HPQ. Qed.

Lemma mid_open_mid v : mid_open v -> mid v.
Proof. by intros [? _]. Qed.

Lemma mid_bare_mid v : mid_bare v -> mid v.
Proof. by intros [? _]. Qed.
Hint Resolve mid_open_mid mid_bare_mid : core.

(** A read gives the rest of the method what was read. *)
Lemma triple_gets {A B} (f : ClientWorld -> A) (k : A -> M B) (P : ClientWorld -> Prop) Q :
  (forall a, triple (fun w => P w /\ f w = a) (k a) Q) -> triple P (bind (gets f) k) Q.
Proof. intros Hk w Hw. by apply (Hk (f w) w). Qed.

Lemma triple_weaken {A} (P P' : ClientWorld -> Prop) (m : M A) Q :
  (forall w, P w -> P' w) -> triple P' m Q -> triple P m Q.
Proof. intros HP Hm w Hw. by apply Hm, HP. Qed.

Ltac post_quiet := apply post_kept; [auto|apply quiet_kept; solve [preserves_tac]|].

Lemma connect_post f : triple (fun w => mid_bare (view w)) (beginAttempt_connect 0 f) attempt_post.
Proof.
  unfold beginAttempt_connect. apply triple_gets. intros c. destruct (closed c) eqn:Hc.
  { eapply triple_weaken; [|by apply post_set]. by intros w [[? _] _]. }
  eapply triple_weaken with (P' := fun w => mid_open (view w)).
  { intros w [[Hm _] <-]. by split. }
  post_quiet. intros peer. post_quiet. intros p. post_quiet. intros _. post_quiet. intros _.
  apply post_kept; [auto|by apply (mid_open_assign _ (fun _ => Some p) v_dc)|]. intros _.
  post_quiet. intros _. post_quiet. intros [[o n1] n2]. post_quiet. intros d.
  apply post_kept; [auto|apply mid_open_push|]. intros _. post_quiet. intros _.
  destruct (negb o || negb n1 || negb n2); [apply post_raise; auto|].
  apply post_kept; [auto|by apply (mid_open_assign _ v_pc (fun _ => Some d))|]. intros _.
  post_quiet. intros _. eapply triple_weaken; [|by apply post_set]. by intros w [? _].
Qed.

Lemma offer_post description :
  triple (fun w => mid (view w)) (beginAttempt_offer 0 description) attempt_post.
Proof.
  unfold beginAttempt_offer. destruct description as [d|]; [|apply post_raise; auto].
  do 4 (post_quiet; intros ?). by apply post_set.
Qed.

Lemma early_bare v : inv v -> v_early v = [true] -> mid_bare v.
Proof.
  intros Hi He. split; [by apply mid_inv; [|by rewrite He]|]. destruct Hi as [[_ _ _ _ _ I6 I7 _ _] _].
  rewrite He in I6. by apply I7, I6.
Qed.

Lemma view_early w st : attempts w = [st] -> v_early (view w) = [early_stage st].
Proof. unfold view. cbn. by intros ->. Qed.

Lemma continue_post stage ans :
  triple (fun w => inv (view w) /\ attempts w = [stage]) (attempt_continue 0 stage ans) attempt_post.
Proof.
  assert (Hmid : forall w, inv (view w) /\ attempts w = [stage] -> mid (view w)).
  { intros w [Hi Ha]. apply mid_inv; [done|]. by rewrite (view_early _ _ Ha). }
  assert (Hskip : triple (fun w => inv (view w) /\ attempts w = [stage]) (ret tt : M unit) attempt_post).
  { by intros w [Hi _]. }
  destruct stage as [auth called|o|p|p|p|]; destruct ans as [kp|f|o'|d]; cbn [attempt_continue]; try exact Hskip.
  - intros w [Hi Ha]. unfold self, set_attempt, bind, gets, modify, attempt_post. cbn.
    unfold view in *. cbn in *. rewrite Ha in *. exact Hi.
  - eapply triple_weaken with (P' := fun w => mid_bare (view w)).
    { intros w [Hi Ha]. apply early_bare; [done|]. by rewrite (view_early _ _ Ha). }
    post_quiet. intros h. intros w Hw. unfold bind at 1, gets at 1. cbn beta iota.
    set (i := length (handshakes w)).
    assert (Hw' : mid_bare (view (w <| handshakes := handshakes w ++ [h] |> <| this := (this w) <| handshake := Some i |> |>))).
    { pose proof (mid_bare_handshake _ i Hw) as H'. unfold view in *. cbn in *.
      rewrite andb_comm. cbn. by destruct (handshakes w), (channels w). }
    exact (connect_post f _ Hw').
  - eapply triple_weaken; [exact Hmid|]. post_quiet. intros []. post_quiet. intros []. by apply post_set.
  - eapply triple_weaken; [exact Hmid|]. post_quiet. intros []. by apply post_set.
  - eapply triple_weaken; [exact Hmid|]. apply offer_post.
Qed.

Lemma attempts_cases w a st : inv (view w) -> attempts w !! a = Some st -> a = 0%nat /\ attempts w = [st].
Proof.
  intros [[_ _ _ _ _ I6 _ _ _] _] Ha. unfold view in I6. cbn in I6.
  destruct (attempts w) as [|s0 [|]]; try done. destruct a; [|done]. by injection Ha as ->.
Qed.

Lemma kept_attempt_resume a ans : kept inv (attempt_resume a ans).
Proof.
  intros w Hi. unfold attempt_resume. unfold bind at 1, gets at 1. cbn beta iota.
  destruct (attempts w !! a) as [st|] eqn:E; [|done].
  destruct (attempts_cases _ _ _ Hi E) as [-> Ea]. unfold catch.
  pose proof (continue_post st ans w (conj Hi Ea)) as Hp.
  destruct (attempt_continue 0 st ans w) as [w' [[]|e]]; cbn in Hp; [done|].
  pose proof (set_attempt_inv AttemptOver eq_refl w' Hp) as Hs.
  unfold bind. destruct (set_attempt 0 AttemptOver w') as [w2 o] eqn:E2.
  unfold set_attempt, modify in E2. injection E2 as <- <-. cbn in Hs. by apply kept_fail.
Qed.

Definition started_inv (v : View) : Prop := inv v /\ v_started v = true.

Lemma started_weaken (m : M unit) : kept inv m -> triple (fun w => started_inv (view w)) m (fun _ w => inv (view w)).
Proof. intros Hm w [Hi _]. by apply Hm. Qed.

(** A statement whose first part is quiet. *)
Lemma quiet_then {A B} P (m : M A) (k : A -> M B) (Q : outcome B -> ClientWorld -> Prop) :
  preserves view m -> (forall e w, P (view w) -> Q (Raise e) w) ->
  (forall a, triple (fun w => P (view w)) (k a) Q) -> triple (fun w => P (view w)) (bind m k) Q.
Proof.
  intros Hm He Hk. eapply triple_bind; [by apply quiet_kept|exact Hk|]. intros e w Hw. by apply He.
Qed.

Lemma inv_begin v : started_inv v -> v_attempted v = false ->
  inv (v <| v_attempted := true |> <| v_early := v_early v ++ [true] |>).
Proof.
  intros [[[I1 I2 I3 I4 I5 I6 I7 I9 I10] I8] Hs] Ha.
  assert (He : v_early v = [] /\ v_nothing_created v = true).
  { destruct (v_early v) as [|e [|]]; [done| |done]. destruct I6. congruence. }
  destruct He as [He Hn]. split; [split|]; unfold armed, released in *; view_tac; rewrite ?He; try done.
  by rewrite Hs.
Qed.

Lemma beginAttempt_inv m : triple (fun w => started_inv (view w)) (beginAttempt m) (fun _ w => inv (view w)).
Proof.
  unfold beginAttempt. apply triple_gets. intros c.
  destruct (truthy (Some (attemptId c))) eqn:Ht; [by intros w [[? _] _]|].
  assert (Hd : triple (fun w => started_inv (view w) /\ this w = c) (raise (js "incomplete direct authorization") : M unit)
    (fun _ w => inv (view w))) by (by intros w [[? _] _]).
  destruct (safe_integer _) as [expiresAt|]; [|exact Hd].
  destruct (negb _) eqn:Hf; [exact Hd|]. cbv zeta.
  destruct (negb (is_text _ _) || negb (is_text _ _)); [by intros w [[? _] _]|].
  intros w [Hw <-]. unfold answer, bind. cbn beta iota.
  destruct (of_result (decode_ticket _)) as [ticket|e]; [|by destruct Hw].
  destruct (of_result (permission_of _)) as [perm|e]; [|by destruct Hw].
  unfold assign, modify, gets. cbn [fst snd].
  pose proof (inv_begin _ Hw Ht) as Hi. revert Hi. unfold view. cbn. rewrite map_app. cbn.
  assert (Ha : truthy (Some (default JNull (field m "attempt_id"))) = true).
  { apply negb_false_iff in Hf. repeat (apply andb_prop in Hf as [Hf ?]).
    by destruct (field m "attempt_id"). }
  cbn in Ha. by rewrite Ha.
Qed.

Lemma handleSignal_inv m : triple (fun w => started_inv (view w)) (handleSignal m) (fun _ w => inv (view w)).
Proof.
  assert (Hq : forall n : M unit, preserves view n -> triple (fun w => started_inv (view w)) n (fun _ w => inv (view w))).
  { intros n Hn. by apply started_weaken, quiet_kept. }
  unfold handleSignal. apply quiet_then; [auto with preserves|by intros e w [? _]|]. intros c.
  destruct (closed c); [apply Hq; auto with preserves|]. cbv zeta.
  destruct (bool_decide _); [apply Hq; unfold assign; preserves_tac|].
  destruct (bool_decide _).
  { destruct (negb _); [apply Hq; auto with preserves|].
    intros w Hw. pose proof (beginAttempt_inv m w Hw) as Hb. unfold catch.
    destruct (beginAttempt m w) as [w' [[]|e]]; [done|]. by apply kept_fail. }
  apply Hq. preserves_tac.
Qed.

Lemma ws_onmessage_inv data : triple (fun w => started_inv (view w)) (ws_onmessage data) (fun _ w => inv (view w)).
Proof.
  unfold ws_onmessage. intros w Hw. unfold catch, answer, bind. cbn beta iota.
  destruct (of_result _) as [m|e]; [|apply kept_fail; by destruct Hw].
  pose proof (handleSignal_inv m w Hw) as Hb. destruct (handleSignal m w) as [w' [[]|e]]; [done|].
  by apply kept_fail.
Qed.

Lemma kept_signal_turn k : kept inv (signal_turn k).
Proof.
  unfold signal_turn. apply kept_quiet_bind; [auto with preserves|]. intros [[m rest]|]; [|apply act_keeps_ret].
  apply kept_quiet_bind; [auto with preserves|]. intros _. apply kept_catch_fail, quiet_keeps. preserves_tac.
Qed.

Lemma kept_signal_settled k o : kept inv (signal_settled k o).
Proof.
  unfold signal_settled. apply kept_quiet_bind; [auto with preserves|]. intros c.
  destruct (c ≫= suspended_job); [|apply act_keeps_ret].
  apply kept_quiet_bind; [auto with preserves|]. intros _. apply kept_catch_fail, quiet_keeps. preserves_tac.
Qed.

Lemma kept_dc_onopen d : kept inv (dc_onopen d).
Proof. apply kept_catch_fail, quiet_keeps. preserves_tac. Qed.

Lemma kept_dc_onmessage data : kept inv (dc_onmessage data).
Proof.
  destruct data as [s|p]; cbn [dc_onmessage]; [apply kept_fail|]. apply quiet_keeps. preserves_tac.
Qed.

(** *** Data messages *)

(** The client is authenticated and open. *)
Definition live_inv (v : View) : Prop := inv v /\ v_closed v = false /\ v_authenticated v = true.

Lemma kept_live_call cb : (forall p, cb <> CbFailure p) -> cb <> CbAuthenticated ->
  kept live_inv (emit (Calls cb)).
Proof.
  intros Hf Ha w Hw. unfold emit, modify. cbn [fst].
  enough (Hv : view (w <| trace := trace w ++ [Calls cb] |>) = view w) by (by rewrite Hv).
  unfold view at 1. cbn. rewrite calls_app, observe_all_app.
  destruct Hw as [[[(p & Hp & Hp') _ _ _ _ _ _ _ _] _] [Hc Hau]].
  assert (Hph : v_phase (view w) = Some Live) by (rewrite Hp, (Hp' Hc), Hau; done).
  cbn in Hph. unfold view. f_equal. rewrite Hph. by destruct cb; try (exfalso; congruence).
Qed.

Lemma kept_handleRecord kind pt : kept live_inv (handleRecord kind pt).
Proof.
  assert (Hq : forall m : M unit, preserves view m -> kept live_inv m) by (intros m Hm; by apply quiet_kept).
  unfold handleRecord. repeat apply kept_if; try (apply Hq; solve [preserves_tac]).
  - by apply kept_live_call.
  - apply kept_quiet_bind; [auto with preserves|]. intros t.
    apply kept_quiet_bind; [auto with preserves|]. intros [frame|]; [by apply kept_live_call|apply act_keeps_ret].
  - apply kept_quiet_bind; [auto with preserves|]. intros seq. by apply kept_live_call.
Qed.

(** The step that authenticates the client. *)
Lemma inv_authenticate v :
  inv v -> v_closed v = false -> v_authenticated v = false -> v_handshake v <> None ->
  inv (v <| v_no_codec := false |> <| v_authenticated := true |> <| v_timeout := None |>
         <| v_timers := match v_timeout v with
                        | Some t => filter (fun u => u <> t) (v_timers v) | None => v_timers v end |>
         <| v_accountKey := fill0 (v_accountKey v) |> <| v_phase := Some Live |>).
Proof.
  intros [[I1 I2 I3 I4 I5 I6 I7 I9 I10] I8] Hc Ha Hh. rewrite (filter_all_same _ _ I3).
  assert (Hs : v_started v = true).
  { destruct (v_started v) eqn:E; [done|]. destruct (I9 eq_refl) as (_ & _ & _ & ? & _). done. }
  split; [split|]; unfold armed, released in *; view_tac; try done.
  - by exists Live.
  - by rewrite Hc.
  - intros _. split_and!; auto using fill0_zero.
  - by rewrite Hs.
  - by rewrite Hc.
Qed.

Lemma kept_handleDataMessage m : kept inv (handleDataMessage m).
Proof.
  unfold handleDataMessage. intros w Hi. unfold self. unfold bind at 1, gets at 1. cbn beta iota. cbn [id].
  destruct (handshake (this w)) as [i|] eqn:Eh; [|done].
  destruct (dc (this w)) as [d|] eqn:Ed; [|done].
  assert (Hc : closed (this w) = false).
  { destruct (closed (this w)) eqn:E; [|done]. destruct Hi as [[_ I2 _ _ _ _ _ _ _] _].
    destruct (I2 E) as (_ & _ & ? & _). cbn in *. congruence. }
  destruct (negb (hostHelloHandled (this w))).
  { revert w Hi Eh Ed Hc. intros w Hi _ _ _. revert w Hi. apply quiet_keeps. preserves_tac. }
  destruct (negb (authenticated (this w))) eqn:Ea.
  - apply negb_true_iff in Ea.
    pose proof (quiet_on_handshake i (handleAuthOK m) w) as Hv.
    unfold bind at 1. destruct (on_handshake i (handleAuthOK m) w) as [w1 [keys|e]]; cbn [fst] in Hv;
      [|cbn; by rewrite Hv].
    unfold bind at 1, assign at 1, modify at 1. cbn beta iota.
    set (w2 := w1 <| this := _ |>).
    destruct (goes_clear_timeout w2 (view w2) eq_refl) as [Ev Er].
    unfold bind. destruct (clear_timeout w2) as [w3 o]. cbn in Ev, Er. subst o.
    unfold assign, emit, modify, ret. cbn [fst].
    pose proof (inv_authenticate _ Hi Hc Ea ltac:(cbn; congruence)) as H'.
    assert (Hph : v_phase (view w3) = Some Attempting).
    { rewrite Ev. cbn. destruct Hi as [[(p & Hp & Hp') _ _ _ _ _ _ _ _] _].
      change (v_phase (view w1) = Some Attempting). rewrite Hv, Hp, (Hp' Hc). cbn. by rewrite Ea. }
    enough (E : view (w3 <| this := (this w3) <| accountKey := fill0 (accountKey (this w3)) |> |>
                 <| trace := trace w3 ++ [Calls CbAuthenticated] |>)
             = (view w3) <| v_accountKey := fill0 (v_accountKey (view w3)) |> <| v_phase := Some Live |>).
    { change (inv (view (w3 <| this := (this w3) <| accountKey := fill0 (accountKey (this w3)) |> |>
                 <| trace := trace w3 ++ [Calls CbAuthenticated] |>))). rewrite E, Ev.
      unfold w2. rewrite <- Hv in H'. exact H'. }
    unfold view. cbn. cbn in Hph. by rewrite calls_app, observe_all_app, Hph.
  - apply negb_false_iff in Ea.
    assert (Hl : kept live_inv (raise_if (bool_decide (codec (this w) = None)) "direct record codec unavailable" ;;;
      let! opened := on_codec (DirectHandshake.open m) in
      let! _ := handleRecord (fst opened) (snd opened) in ret (None : option HelloStage))).
    { apply kept_if; [apply keeps_raise|]. apply kept_quiet_bind; [auto with preserves|]. intros opened.
      apply kept_bind; [apply kept_handleRecord|]. intros _. apply act_keeps_ret. }
    apply (Hl w). by split.
Qed.

Lemma kept_receive_turn k : kept inv (receive_turn k).
Proof.
  unfold receive_turn. apply kept_quiet_bind; [auto with preserves|]. intros [[m rest]|]; [|apply act_keeps_ret].
  apply kept_quiet_bind; [auto with preserves|]. intros _. apply kept_catch_fail.
  apply kept_bind; [apply kept_handleDataMessage|]. intros st. apply quiet_keeps. auto with preserves.
Qed.

Lemma kept_receive_resume k : kept inv (receive_resume k).
Proof.
  unfold receive_resume. apply kept_quiet_bind; [auto with preserves|]. intros c.
  destruct (c ≫= suspended_job) as [[i p|o]|]; [| |apply act_keeps_ret].
  - apply kept_quiet_bind.
    + preserves_tac.
    + intros o. apply quiet_keeps. auto with preserves.
  - apply kept_quiet_bind; [auto with preserves|]. intros _. apply kept_catch_fail, quiet_keeps.
    unfold assign. preserves_tac.
Qed.

(** ** Every event keeps the invariant *)

Lemma inv_dispatch e : owner_closes = true \/ e <> EvClose -> kept inv (dispatch e).
Proof.
  intros Ho. destruct e; cbn [dispatch].
  - apply kept_start.
  - apply kept_bind; [apply kept_sendFrame|]. intros _. apply act_keeps_ret.
  - destruct Ho as [Ho|Ho]; [by apply kept_finish|done].
  - apply kept_fail.
  - apply quiet_keeps. unfold when. preserves_tac.
  - intros w Hi. unfold bind at 1, gets at 1. cbn beta iota.
    destruct (socket_is s [OPEN] w) eqn:E; [|done]. apply ws_onmessage_inv. split; [done|].
    destruct (v_started (view w)) eqn:Es; [done|]. destruct Hi as [[_ _ _ _ _ _ _ I9 _] _].
    destruct (I9 Es) as (En & _). cbn in En. unfold socket_is in E. by destruct (sockets w).
  - apply quiet_keeps. unfold when. preserves_tac.
  - apply kept_quiet_bind; [auto with preserves|]. intros go. apply kept_when.
    apply kept_quiet_bind; [auto with preserves|]. intros _. apply kept_ws_onclose.
  - apply kept_quiet_bind; [auto with preserves|]. intros go. apply kept_when, kept_timer.
  - apply kept_attempt_resume.
  - apply quiet_keeps. preserves_tac.
  - apply kept_quiet_bind; [auto with preserves|]. intros [peer|]; [|apply act_keeps_ret].
    apply kept_quiet_bind; [preserves_tac|]. intros _. unfold pc_onconnectionstatechange.
    apply kept_quiet_bind; [auto with preserves|]. intros st. apply kept_when, kept_fail.
  - apply quiet_keeps. unfold when. preserves_tac.
  - apply kept_signal_turn.
  - apply kept_signal_settled.
  - apply kept_quiet_bind; [auto with preserves|]. intros go. apply kept_when.
    apply kept_quiet_bind; [unfold set_channel_state; auto with preserves|]. intros _. apply kept_dc_onopen.
  - apply kept_quiet_bind; [auto with preserves|]. intros go. apply kept_when, kept_dc_onmessage.
  - apply kept_quiet_bind; [auto with preserves|]. intros go. apply kept_when, kept_fail.
  - apply kept_quiet_bind; [auto with preserves|]. intros go. apply kept_when.
    apply kept_quiet_bind; [unfold set_channel_state; auto with preserves|]. intros _. apply kept_fail.
  - apply quiet_keeps. unfold set_buffered. auto with preserves.
  - apply kept_receive_turn.
  - apply kept_receive_resume.
  - apply quiet_keeps. preserves_tac.
Qed.

Lemma inv_init o c t : new_client o = Ok c -> inv (view (init c t)).
Proof.
  unfold new_client. intros E. inv_ok. unfold init, view. cbn. split; [split|]; cbn; try done.
  - by exists Attempting.
Qed.

Lemma inv_run o c t events : owner_closes = true \/ EvClose ∉ events ->
  new_client o = Ok c -> inv (view (run events (init c t))).
Proof.
  intros Ho E. unfold run. assert (Hi : inv (view (init c t))) by (by eapply inv_init).
  revert Ho Hi. generalize (init c t). induction events as [|e events IH]; intros w Ho Hi; [done|].
  cbn [fold_left]. apply IH; [set_solver|]. apply inv_dispatch; [set_solver|done].
Qed.
End Methods.
