(* ===== verification/DirectClientAuth.v ===== *)
(** * The direct client authenticates its host

    The handshake object of an open client has run exactly the history of
    messages the data channel delivered, so the keys it hands to the codec are
    those of a host that proved the account key ([DirectHandshake.keys_ok]).
    The authorization it ran on is the one of the [direct_attempt] message the
    client took as its attempt ([offer]), and its key pair the one the browser
    drew for it. *)

From S2P Require Import Prelude Bytes JsString JsMap Json DirectCrypto DirectFraming.
From S2P Require Import DirectHandshake EventLoop Transport DirectClient DirectClientInv.

(** ** Key-preserving methods of the codec *)

Section CodecKeys.
Context `{Crypto}.

Definition same_keys {A} (m : method DirectClientRecordCodec A) : Prop :=
  forall c, codec_keys (fst (m c)) = codec_keys c.

Lemma seal_keys kind pt : same_keys (seal kind pt).
Proof. intros c. unfold seal. mrun. by destruct (sealDirectRecord _ _ _ _ _ _). Qed.

Lemma open_keys record : same_keys (DirectHandshake.open record).
Proof. intros c. unfold DirectHandshake.open. mrun. by destruct (openDirectRecord _ _ _ _ _). Qed.

Lemma mbind_keys {A B} (m : method DirectClientRecordCodec A) (k : A -> method DirectClientRecordCodec B) :
  same_keys m -> (forall a, same_keys (k a)) -> same_keys (mbind m k).
Proof.
  intros Hm Hk c. specialize (Hm c). unfold mbind. destruct (m c) as [c' [a|e]]; cbn in *; [|done].
  by rewrite Hk.
Qed.

Lemma seal_map_keys kind fragments : same_keys (seal_map kind fragments).
Proof.
  induction fragments as [|f rest IH]; cbn [seal_map]; [done|].
  apply mbind_keys; [apply seal_keys|]. intros r. by apply mbind_keys.
Qed.

Lemma sealFrame_keys frame : same_keys (sealFrame frame).
Proof.
  unfold sealFrame. destruct (_ <=? _).
  - apply mbind_keys; [apply seal_keys|]. done.
  - intros c. mrun. destruct (fragmentDirectFrame _ _); [|done].
    match goal with |- context [seal_map ?k ?f ?c'] => exact (seal_map_keys k f c') end.
Qed.
End CodecKeys.

Section Auth.
Context `{Crypto} `{WebCrypto} `{JsText} `{Browser}.
Context (O : DirectClientOptions).
Implicit Types (w : ClientWorld) (received : list Event).

(** The account key and the claims the client was made with. *)
Let K : bytes := opt_accountKey (directOptions O).

Let sid : jsstr := opt_sessionId (directOptions O).
Let cid : jsstr := opt_clientInstanceId (directOptions O).

(** A message [direct_attempt] that answers the client's request, for its
    session and its client instance, with the attempt id [aid]; and the
    authorization made of its fields. *)
Record offer (message : DirectSignalMessage) (aid : Json) (auth : DirectAuthorization) : Prop := mkOffer {
  of_kind : text_of (field message "kind") = js "direct_attempt";
  of_request : is_text (field message "request_id") (requestUUID (directOptions O)) = true;
  of_session : is_text (field message "session_id") sid = true;
  of_client : is_text (field message "client_instance_id") cid = true;
  of_attempt : field message "attempt_id" = Some aid /\ truthy (Some aid) = true;
  of_parties : truthy (field message "user_id") = true /\ truthy (field message "host_id") = true;
  of_auth : exists ticket permission expiresAt,
    decode_ticket (field message "ticket") = Ok ticket /\
    permission_of (field message "permission") = Ok permission /\
    safe_integer (field message "expires_at_unix_ms") = Some expiresAt /\
    auth = mkAuthorization (text_of (Some aid)) ticket sid (text_of (field message "user_id"))
             (text_of (field message "host_id")) cid permission expiresAt;
}.

(** Some signalling message was such an offer. *)
Definition offered received (aid : Json) (auth : DirectAuthorization) : Prop :=
  exists s data message, EvSocketMessage s data ∈ received /\
    parseSignalMessage data = Ok message /\ offer message aid auth.

(** The browser drew this key pair for the attempt. *)
Definition drawn received (publicKey : bytes) (jwk : Jwk) : Prop :=
  EvAttempt 0 (KeyPair (Done (publicKey, jwk))) ∈ received.

(** A message that a data channel delivered. *)
Definition heard received (m : bytes) : Prop :=
  exists d, EvChannelMessage d (BinaryData m) ∈ received.

(** Keys of a host that proved the account key in a message received, in the
    attempt [aid]. *)
Definition authentic received (aid : Json) (k : DirectHandshakeKeys) : Prop :=
  exists auth publicKey jwk hs, offered received aid auth /\ drawn received publicKey jwk /\
    (forall m, EvHostHello m ∈ hs -> heard received m) /\ keys_ok auth K publicKey jwk hs k.

(** A handshake object and its suspended call, after a history of received
    messages. *)
Definition made received (aid : Json) (h : DirectClientHandshake) (pend : option PendingHello) : Prop :=
  exists auth publicKey jwk called h0 hs, (offered received aid auth /\ drawn received publicKey jwk) /\
    create auth K called publicKey jwk = Ok h0 /\
    EvDispose ∉ hs /\ (forall m, EvHostHello m ∈ hs -> heard received m) /\ hs_run hs h0 = (h, pend).

Definition stage_ok received (aid : Json) (st : AttemptStage) : Prop :=
  match st with
  | AtCreate auth _ => offered received aid auth
  | AtCreated (Done h0) =>
      exists auth publicKey jwk called, (offered received aid auth /\ drawn received publicKey jwk) /\
        create auth K called publicKey jwk = Ok h0
  | _ => True
  end.

Definition pend_of (ch : Chain bytes HelloStage) : option PendingHello :=
  match suspended_job ch with Some (InHello _ p) => Some p | _ => None end.

(** The handshake object in use and the call suspended in it. *)
Definition handshake_ok received w (ch : Chain bytes HelloStage) : Prop :=
  match handshake (this w) with
  | None => handshakes w = [] /\ suspended_job ch = None /\ authenticated (this w) = false
  | Some i => i = 0%nat /\ (forall j p, suspended_job ch = Some (InHello j p) -> j = 0%nat) /\
              exists h, handshakes w = [h] /\ made received (attemptId (this w)) h (pend_of ch)
  end.

Record open_ok received w : Prop := mkOpenOk {
  ok_chain : exists ch, receiveChain (this w) = 0%nat /\ receiveChains w = [ch] /\
    Forall (heard received) (jobs ch) /\ handshake_ok received w ch;
  ok_key : authenticated (this w) = false -> accountKey (this w) = K;
  ok_attempts : Forall (stage_ok received (attemptId (this w))) (attempts w);
  ok_codec : authenticated (this w) = true ->
    exists k, option_map codec_keys (codec (this w)) = Some k /\ authentic received (attemptId (this w)) k;
}.

Definition authenticated_once (l : list Effect) : Prop := CbAuthenticated ∈ calls l.

Definition auth_inv received w : Prop :=
  (options (this w) = O /\ requestId (this w) = requestUUID (directOptions O)) /\
  (authenticated_once (trace w) -> exists k, authentic received (attemptId (this w)) k) /\
  (closed (this w) = false -> open_ok received w).

(** ** What the invariant depends on *)

Definition is_auth (e : Effect) : bool := match e with Calls CbAuthenticated => true | _ => false end.

Definition auth_view w :=
  (options (this w), closed (this w), receiveChain (this w), receiveChains w, handshake (this w),
   handshakes w, authenticated (this w), accountKey (this w), attempts w,
   option_map codec_keys (codec (this w)), attemptId (this w), requestId (this w), existsb is_auth (trace w)).

Lemma once_existsb l : authenticated_once l <-> existsb is_auth l = true.
Proof.
  unfold authenticated_once, calls. rewrite existsb_exists, list_elem_of_omap. split.
  - intros (e & He & Ee). exists e. split; [by apply list_elem_of_In|]. by destruct e; simplify_eq.
  - intros (e & He & Ee). exists e. split; [by apply list_elem_of_In|].
    destruct e as [| | | | | | | | | |[]]; done.
Qed.

Lemma auth_inv_view received w w' :
  auth_view w' = auth_view w -> auth_inv received w -> auth_inv received w'.
Proof.
  unfold auth_view. intros E. repeat (apply pair_equal_spec in E as [E ?]).
  intros (Ho & Ha & Hopen). unfold auth_inv. rewrite once_existsb in *.
  assert (Haid : attemptId (this w') = attemptId (this w)) by congruence. rewrite !Haid.
  split; [by destruct Ho; split; congruence|]. split; [intros ?; apply Ha; congruence|]. intros Hc.
  destruct (Hopen ltac:(congruence)) as [(ch & E1 & E2 & E3 & E4) I2 I3 I4].
  split; rewrite ?Haid.
  - exists ch. split_and!; [congruence|congruence|done|]. unfold handshake_ok in *.
    replace (handshake (this w')) with (handshake (this w)) by done.
    destruct (handshake (this w)); [|intuition congruence].
    destruct E4 as (? & ? & h & ? & ?). split_and!; [done|done|]. exists h. rewrite Haid. split; [congruence|done].
  - intros Hn. transitivity (accountKey (this w)); [congruence|]. apply I2. congruence.
  - by replace (attempts w') with (attempts w) by congruence.
  - intros Hau. destruct (I4 ltac:(congruence)) as (k & ? & ?). exists k. split; [congruence|done].
Qed.

Definition akept {A} received (m : M A) : Prop := keeps (auth_inv received) m.

Lemma akept_preserves {A} received (m : M A) : preserves auth_view m -> akept received m.
Proof. intros Hm. apply (preserves_keeps auth_view _ _ Hm). intros s s'. apply auth_inv_view. Qed.
End Auth.

Section AuthMethods.
Context `{Crypto} `{WebCrypto} `{JsText} `{Browser}.

(** ** Methods that leave the authentication alone *)

Lemma auth_emit e : is_auth e = false -> preserves auth_view (emit e).
Proof.
  intros He. apply preserves_modify. intros w. unfold auth_view. cbn. rewrite existsb_app. cbn.
  by rewrite He, !orb_false_r.
Qed.

Lemma auth_on_codec {A} (m : method DirectClientRecordCodec A) :
  same_keys m -> preserves auth_view (on_codec m).
Proof.
  intros Hm w. unfold on_codec. destruct (codec (this w)) as [c|] eqn:E; [|done].
  specialize (Hm c). destruct (m c) as [c' r]. cbn in Hm. unfold auth_view. cbn. by rewrite E, Hm.
Qed.

Lemma auth_on_reassembler {A} (m : method Reassembler A) : preserves auth_view (on_reassembler m).
Proof. intros w. unfold on_reassembler. by destruct (m _). Qed.
End AuthMethods.

#[export] Hint Resolve seal_keys open_keys sealFrame_keys auth_on_codec auth_on_reassembler : preserves.
#[export] Hint Extern 3 (preserves auth_view (emit _)) => apply auth_emit; reflexivity : preserves.

Section AuthQuiet.
Context `{Crypto} `{WebCrypto} `{JsText} `{Browser}.

Lemma auth_dc_send d data : preserves auth_view (dc_send d data).
Proof. unfold dc_send, set_buffered. preserves_tac. Qed.
Hint Resolve auth_dc_send : preserves.

Lemma auth_send_records d records : preserves auth_view (send_records d records).
Proof. induction records as [|r rs IH]; cbn [send_records]; preserves_tac. Qed.

Lemma auth_sendSignal m : preserves auth_view (sendSignal m).
Proof. unfold sendSignal, self. preserves_tac. Qed.

Lemma auth_this_dc_send data : preserves auth_view (this_dc_send data).
Proof. unfold this_dc_send, self. preserves_tac. Qed.

Lemma auth_reportDiagnostics p : preserves auth_view (reportDiagnostics p).
Proof. unfold reportDiagnostics, notifyDiagnostics. preserves_tac. Qed.

Lemma auth_modify_signal_chain k f : preserves auth_view (modify_signal_chain k f).
Proof. unfold modify_signal_chain. preserves_tac. Qed.

Lemma auth_applyRemoteSignal m : preserves auth_view (applyRemoteSignal m).
Proof. unfold applyRemoteSignal, self. preserves_tac. Qed.

Lemma auth_setTimeout delay : preserves auth_view (setTimeout delay).
Proof. unfold setTimeout. preserves_tac. Qed.

Lemma auth_clear_timeout : preserves auth_view clear_timeout.
Proof. unfold clear_timeout, self. preserves_tac. Qed.

Lemma auth_handleRecord kind pt : preserves auth_view (handleRecord kind pt).
Proof.
  assert (Hs : same_keys (seal DirectRecordKind.Pong pt)) by apply seal_keys.
  unfold handleRecord. pose proof (auth_this_dc_send). preserves_tac.
Qed.

(** ** Failing closes the client and authenticates nobody *)

Definition ghost_view (w : ClientWorld) :=
  (options (this w), requestId (this w), attemptId (this w), existsb is_auth (trace w)).

Lemma ghost_emit e : is_auth e = false -> preserves ghost_view (emit e).
Proof.
  intros He. apply preserves_modify. intros w. unfold ghost_view. cbn. rewrite existsb_app. cbn.
  by rewrite He, !orb_false_r.
Qed.
Hint Extern 3 (preserves ghost_view (emit _)) => apply ghost_emit; reflexivity : preserves.

Lemma ghost_close_opt f o : (forall i, preserves ghost_view (f i)) -> preserves ghost_view (close_opt f o).
Proof. intros Hf. unfold close_opt. preserves_tac. Qed.

Lemma ghost_on_reassembler {A} (m : method Reassembler A) : preserves ghost_view (on_reassembler m).
Proof. intros w. unfold on_reassembler. by destruct (m _). Qed.
Hint Resolve ghost_close_opt ghost_on_reassembler : preserves.

Lemma ghost_finish : preserves ghost_view finish.
Proof.
  assert (H1' : forall s, preserves ghost_view (ws_close s)) by (intros; unfold ws_close; preserves_tac).
  assert (H2' : forall s, preserves ghost_view (dc_close s))
    by (intros; unfold dc_close, set_channel_state; preserves_tac).
  assert (H3' : forall s, preserves ghost_view (pc_close s)) by (intros; unfold pc_close; preserves_tac).
  assert (H4' : preserves ghost_view clear_timeout) by (unfold clear_timeout, self; preserves_tac).
  assert (H5' : preserves ghost_view dispose_handshake) by (unfold dispose_handshake, self; preserves_tac).
  assert (H6' : preserves ghost_view fresh_chains) by (unfold fresh_chains; preserves_tac).
  unfold finish, self. preserves_tac.
Qed.

Lemma ghost_fail e : preserves ghost_view (fail e).
Proof.
  pose proof ghost_finish.
  assert (Hs : forall m, preserves ghost_view (sendSignal m)) by (intros; unfold sendSignal, self; preserves_tac).
  unfold fail, self. preserves_tac.
Qed.

Lemma finish_closes w : closed (this (fst (finish w))) = true.
Proof.
  destruct (closed (this w)) eqn:Hc; [by rewrite finish_closed|].
  destruct (goes_finish w Hc) as [Ev _]. rewrite <- closed_view, Ev. done.
Qed.

Lemma fail_closes e w : closed (this (fst (fail e w))) = true.
Proof.
  destruct (closed (this w)) eqn:Hc; [by rewrite fail_closed|].
  unfold fail, self, bind at 1, gets at 1. rewrite Hc. unfold bind at 1, gets at 1.
  assert (Hq : forall m : M unit, snd (m w) = Done tt -> forall k : unit -> M unit,
    bind m k w = k tt (fst (m w))).
  { intros m Hm k. unfold bind. destruct (m w) as [w' o]. cbn in Hm. by subst. }
  rewrite Hq by (unfold when; destruct (authenticated _); [apply attempt_returns|done]).
  match goal with |- context [bind finish _ ?w0] => generalize w0 as w1 end. intros w1.
  unfold bind. pose proof (finish_closes w1) as Hf. destruct (finish w1) as [w2 [a|e']]; exact Hf.
Qed.

Lemma akept_fail O received e : akept O received (fail e).
Proof.
  intros w (Ho & Ha & _). pose proof (ghost_fail e w) as Hg. unfold ghost_view in Hg.
  repeat (apply pair_equal_spec in Hg as [Hg ?E]). unfold auth_inv. rewrite once_existsb, Hg, E, E0, E1.
  rewrite once_existsb in Ha. split; [done|]. split; [done|]. intros Hc. by rewrite fail_closes in Hc.
Qed.

Lemma akept_finish O received : akept O received finish.
Proof.
  intros w (Ho & Ha & _). pose proof (ghost_finish w) as Hg. unfold ghost_view in Hg.
  repeat (apply pair_equal_spec in Hg as [Hg ?E]). unfold auth_inv. rewrite once_existsb, Hg, E, E0, E1.
  rewrite once_existsb in Ha. split; [done|]. split; [done|]. intros Hc. by rewrite finish_closes in Hc.
Qed.
End AuthQuiet.

#[export] Hint Resolve auth_dc_send auth_send_records auth_sendSignal auth_this_dc_send
  auth_reportDiagnostics auth_modify_signal_chain auth_applyRemoteSignal auth_setTimeout
  auth_clear_timeout auth_handleRecord : preserves.

(** ** The handshake object runs a history *)

Section History.
Context `{Crypto} `{WebCrypto} `{JsText} `{Browser}.
Context (O : DirectClientOptions).
Implicit Types (w : ClientWorld) (received : list Event).

Lemma hs_run_snoc hs ev h0 : hs_run (hs ++ [ev]) h0 = hs_step ev (hs_run hs h0).
Proof. unfold hs_run. by rewrite fold_left_app. Qed.

(** One more event of the history. *)
Lemma made_step received aid h pend ev h' pend' :
  made O received aid h pend -> ev <> EvDispose -> (forall m, ev = EvHostHello m -> heard received m) ->
  hs_step ev (h, pend) = (h', pend') -> made O received aid h' pend'.
Proof.
  intros (auth & pk & jwk & t & h0 & hs & Hc & Hcr & Hd & Hm & Hr) Hev Hrec Hs.
  exists auth, pk, jwk, t, h0, (hs ++ [ev]). split; [done|]. split_and!; [done|set_solver| |].
  - intros m Hin. apply elem_of_app in Hin as [Hin|Hin]; [by apply Hm|].
    apply list_elem_of_singleton in Hin. by apply Hrec.
  - by rewrite hs_run_snoc, Hr.
Qed.

Lemma made_hello received aid h pend :
  made O received aid h pend -> made O received aid (fst (clientHello h)) pend.
Proof. intros Hm. by apply (made_step _ _ _ _ EvHello _ _ Hm). Qed.

Lemma made_host_hello received aid h m :
  made O received aid h None -> heard received m ->
  made O received aid (fst (handleHostHello m h))
    match snd (handleHostHello m h) with Ok p => Some p | Throw _ => None end.
Proof.
  intros Hm Hin. apply (made_step _ _ _ _ (EvHostHello m) _ _ Hm); [done|by intros m' [= <-]|].
  cbn [hs_step]. by destruct (handleHostHello m h) as [h' [p|e]].
Qed.

Lemma made_resume received aid h p :
  made O received aid h (Some p) -> made O received aid (fst (handleHostHello_resume p h)) None.
Proof. intros Hm. by apply (made_step _ _ _ _ EvResume _ _ Hm). Qed.

Lemma made_auth_ok received aid h m :
  made O received aid h None -> made O received aid (fst (handleAuthOK m h)) None /\
    (forall k, snd (handleAuthOK m h) = Ok k -> authentic O received aid k).
Proof.
  intros Hm. split; [by apply (made_step _ _ _ _ (EvAuthOK m) _ _ Hm)|].
  destruct Hm as (auth & pk & jwk & t & h0 & hs & Hc & Hcr & Hd & Hm & Hr). intros k Hk.
  pose proof (hs_run_inv auth _ pk jwk h0 t hs Hcr) as Hi. rewrite Hr in Hi.
  destruct (handleAuthOK m h) as [h' r] eqn:E. cbn in Hk. subst r.
  destruct (handleAuthOK_keys auth _ pk jwk hs m h None h' k Hi Hd E) as (Hkeys & _).
  exists auth, pk, jwk, hs. destruct Hc. by split_and!.
Qed.

Lemma offered_mono received received' aid auth :
  received ⊆ received' -> offered O received aid auth -> offered O received' aid auth.
Proof. intros Hs (s & d & m & Hin & Hm). exists s, d, m. split; [by apply Hs|done]. Qed.

Lemma heard_mono received received' m : received ⊆ received' -> heard received m -> heard received' m.
Proof. intros Hs [d Hd]. exists d. by apply Hs. Qed.
#[local] Hint Resolve offered_mono heard_mono : core.

Lemma stage_mono received received' aid st :
  received ⊆ received' -> stage_ok O received aid st -> stage_ok O received' aid st.
Proof.
  intros Hs. destruct st as [auth t|[h0|e]| | | |]; cbn; eauto.
  intros (auth & pk & jwk & t & [Ho Hd] & Hc). exists auth, pk, jwk, t. split; [split; [eauto|by apply Hs]|done].
Qed.

Lemma made_mono received received' aid h pend :
  received ⊆ received' -> made O received aid h pend -> made O received' aid h pend.
Proof.
  intros Hs (auth & pk & jwk & t & h0 & hs & Hc & Hcr & Hd & Hm & Hr).
  destruct Hc as [Hoff Hdr]. exists auth, pk, jwk, t, h0, hs. split; [split; [by eauto|by apply Hs]|]. split_and!; try done; eauto.
Qed.

Lemma authentic_mono received received' aid k :
  received ⊆ received' -> authentic O received aid k -> authentic O received' aid k.
Proof.
  intros Hs (auth & pk & jwk & hs & Hc & Hd & Hm & Hk). exists auth, pk, jwk, hs.
  split; [by eauto|]. split; [by apply Hs|]. split; [by eauto|done].
Qed.

Lemma auth_inv_mono received received' w :
  received ⊆ received' -> auth_inv O received w -> auth_inv O received' w.
Proof.
  intros Hs (Ho & Ha & Hopen). split; [done|]. split.
  - intros Hc. destruct (Ha Hc) as [k Hk]. exists k. by eapply authentic_mono.
  - intros Hc. destruct (Hopen Hc) as [(ch & E1 & E2 & E3 & E4) I2 I3 I4]. split; [|done| |].
    + exists ch. split_and!; [done|done|eapply Forall_impl; [exact E3|]; cbn; eauto|].
      unfold handshake_ok in *. destruct (handshake (this w)); [|done].
      destruct E4 as (? & ? & h & ? & ?). split_and!; [done|done|]. exists h. split; [done|].
      by eapply made_mono.
    + eapply Forall_impl; [exact I3|]. intros st. by apply stage_mono.
    + intros Hau. destruct (I4 Hau) as (k & ? & ?). exists k. split; [done|]. by eapply authentic_mono.
Qed.

(** ** The methods that advance it *)

Lemma akept_bind {A B} received (m : M A) (k : A -> M B) :
  akept O received m -> (forall a, akept O received (k a)) -> akept O received (bind m k).
Proof. apply act_keeps_bind. Qed.

Lemma akept_catch_fail received (m : M unit) : akept O received m -> akept O received (catch m fail).
Proof. intros Hm. apply keeps_catch; [exact Hm|]. intros e. apply akept_fail. Qed.

(** A change of an open client, by its handshake part; a closed one only
    keeps what it is. *)
Lemma auth_inv_change received w w' :
  auth_inv O received w ->
  (options (this w') = options (this w) /\ requestId (this w') = requestId (this w) /\
   attemptId (this w') = attemptId (this w)) -> closed (this w') = closed (this w) ->
  existsb is_auth (trace w') = existsb is_auth (trace w) ->
  (closed (this w) = false -> open_ok O received w -> open_ok O received w') ->
  auth_inv O received w'.
Proof.
  intros (Ho & Ha & Hopen) (E1 & E1' & E1'') E2 E3 Hch. unfold auth_inv. rewrite once_existsb in *.
  rewrite E1, E1', E1'', E2, E3. split; [done|]. split; [done|]. intros Hc. by apply Hch, Hopen.
Qed.

Lemma on_handshake_one {A} w i h (m : method DirectClientHandshake A) :
  handshakes w = [h] -> i = 0%nat ->
  on_handshake i m w = (w <| handshakes := [fst (m h)] |>, of_result (snd (m h))).
Proof. intros E ->. unfold on_handshake. rewrite E. cbn. by destruct (m h). Qed.

(** A method of the object in use that keeps its history going. *)
Lemma akept_clientHello received i w :
  auth_inv O received w -> handshake (this w) = Some i ->
  auth_inv O received (fst (on_handshake i clientHello w)).
Proof.
  intros Hi Eh. apply (auth_inv_change _ w); try done;
    try (unfold on_handshake; destruct (handshakes w !! i); [by destruct (clientHello _)|done]).
  intros Hc [(ch & E1 & E2 & E3 & E4) I2 I3 I4].
  pose proof E4 as E4'. unfold handshake_ok in E4'. rewrite Eh in E4'.
  destruct E4' as (-> & Hj & h & Eh' & Hm). rewrite (on_handshake_one _ _ h) by done. cbn [fst].
  split; [|done|done|done]. exists ch. split_and!; [done|done|done|].
  unfold handshake_ok. cbn. rewrite Eh. split_and!; [done|done|]. eexists. split; [done|].
  by apply made_hello.
Qed.

Lemma akept_dc_onopen received d : akept O received (dc_onopen d).
Proof.
  apply akept_catch_fail. intros w Hi. unfold self, bind at 1, gets. cbn beta iota.
  destruct (handshake (this w)) as [i|] eqn:Eh; [|done].
  pose proof (akept_clientHello received i w Hi Eh) as H'. unfold bind.
  destruct (on_handshake i clientHello w) as [w' [hello|e]]; [|exact H'].
  by apply (akept_preserves _ _ _ (auth_dc_send d hello)).
Qed.

Lemma akept_dc_onmessage received data :
  (forall p, data = BinaryData p -> heard received p) -> akept O received (dc_onmessage data).
Proof.
  intros Hd. destruct data as [s|p]; cbn [dc_onmessage]; [apply akept_fail|].
  intros w Hi. unfold self, bind, gets, modify_receive_chain, modify. cbn beta iota. cbn [fst].
  apply (auth_inv_change _ w); try done.
  intros Hc [(ch & E1 & E2 & E3 & E4) I2 I3 I4]. split; [|done|done|done].
  exists (chain_then p ch). cbn. rewrite E1, E2. split_and!; [done|done| |exact E4].
  apply Forall_app. split; [done|]. constructor; [by apply Hd|done].
Qed.
End History.

Section Receive.
Context `{Crypto} `{WebCrypto} `{JsText} `{Browser}.
Context (O : DirectClientOptions).
Implicit Types (w : ClientWorld) (received : list Event).

(** An open client whose receive chain is idle. *)
Definition idle_at rest w : Prop := receiveChains w = [mkChain rest None].

Lemma suspend_idle rest w :
  idle_at rest w ->
  auth_view (w <| receiveChains := alter (chain_suspend None) 0%nat (receiveChains w) |>) = auth_view w.
Proof. unfold idle_at, auth_view. intros E. cbn. by rewrite E. Qed.

Definition suspend0 (st : option HelloStage) w : ClientWorld :=
  w <| receiveChains := alter (chain_suspend st) 0%nat (receiveChains w) |>.

(** A message for the handshake: HOST_HELLO. *)
Lemma host_hello_auth received rest i m w :
  auth_inv O received w -> closed (this w) = false -> idle_at rest w -> heard received m ->
  handshake (this w) = Some i ->
  match on_handshake i (handleHostHello m) w with
  | (w', Done p) => auth_inv O received (suspend0 (Some (InHello i p)) w')
  | (w', Raise e) => auth_inv O received w'
  end.
Proof.
  intros Hi Hc Hidle Hm Eh. pose proof Hi as (_ & _ & Hopen).
  destruct (Hopen Hc) as [(ch & E1 & E2 & E3 & E4) I2 I3 I4].
  unfold handshake_ok in E4. rewrite Eh in E4. destruct E4 as (-> & Hj & h & Eh' & Hmade).
  unfold idle_at in Hidle. rewrite Hidle in E2. injection E2 as <-.
  pose proof (made_host_hello O received _ h m Hmade Hm) as Hm'.
  rewrite (on_handshake_one _ _ h) by done.
  destruct (handleHostHello m h) as [h' [p|e]]; cbn [fst snd of_result] in *.
  - apply (auth_inv_change O received w); try done. intros _ _. split; [|done|done|done].
    exists (mkChain rest (Some (InHello 0%nat p))). unfold suspend0. cbn. rewrite Hidle.
    split_and!; [done|done|exact E3|]. unfold handshake_ok. cbn. rewrite Eh.
    split_and!; [done|by intros j p' [= <- <-]|]. by exists h'.
  - apply (auth_inv_change O received w); try done. intros _ _. split; [|done|done|done].
    exists (mkChain rest None). cbn. rewrite Hidle. split_and!; [done|done|exact E3|].
    unfold handshake_ok. cbn. rewrite Eh. split_and!; [done|done|]. by exists h'.
Qed.

(** AUTH_OK: the keys the codec gets are authentic. *)
Lemma auth_ok_auth received rest i m w :
  auth_inv O received w -> closed (this w) = false -> idle_at rest w ->
  handshake (this w) = Some i ->
  match on_handshake i (handleAuthOK m) w with
  | (w', Done keys) => authentic O received (attemptId (this w')) keys /\ idle_at rest w' /\
      auth_inv O received (w' <| this := (this w') <| codec := Some (new_codec keys) |>
                                                  <| authenticated := true |> |>)
  | (w', Raise e) => auth_inv O received w'
  end.
Proof.
  intros Hi Hc Hidle Eh. pose proof Hi as (_ & _ & Hopen).
  destruct (Hopen Hc) as [(ch & E1 & E2 & E3 & E4) I2 I3 I4].
  unfold handshake_ok in E4. rewrite Eh in E4. destruct E4 as (-> & Hj & h & Eh' & Hmade).
  unfold idle_at in *. rewrite Hidle in E2. injection E2 as <-.
  destruct (made_auth_ok O received _ h m Hmade) as [Hm' Hk].
  rewrite (on_handshake_one _ _ h) by done.
  destruct (handleAuthOK m h) as [h' [keys|e]]; cbn [fst snd of_result] in *.
  - split; [by apply Hk|]. split; [exact Hidle|].
    apply (auth_inv_change O received w); try done. intros _ _. split; [|done|done|].
    + exists (mkChain rest None). cbn. split_and!; [done|exact Hidle|exact E3|].
      unfold handshake_ok. cbn. rewrite Eh. split_and!; [done|done|]. by exists h'.
    + intros _. exists keys. split; [done|]. by apply Hk.
  - apply (auth_inv_change O received w); try done. intros _ _. split; [|done|done|done].
    exists (mkChain rest None). cbn. split_and!; [done|exact Hidle|exact E3|].
    unfold handshake_ok. cbn. rewrite Eh. split_and!; [done|done|]. by exists h'.
Qed.

(** The callback, once the keys are authentic and the flag set. *)
Lemma authenticated_auth received keys w :
  auth_inv O received w -> authentic O received (attemptId (this w)) keys -> authenticated (this w) = true ->
  auth_inv O received (w <| this := (this w) <| accountKey := fill0 (accountKey (this w)) |> |>
                         <| trace := trace w ++ [Calls CbAuthenticated] |>).
Proof.
  intros (Ho & _ & Hopen) Hk Ha. split; [done|]. split; [by exists keys|]. intros Hc.
  destruct (Hopen Hc) as [Hch I2 I3 I4]. split; [exact Hch|cbn; congruence|done|done].
Qed.

Lemma auth_view_idle rest w w' : auth_view w' = auth_view w -> idle_at rest w -> idle_at rest w'.
Proof.
  unfold auth_view, idle_at. intros E. repeat (apply pair_equal_spec in E as [E ?]). congruence.
Qed.

(** One data message on an open client with an idle chain, and the chain
    afterwards. *)
Lemma handleDataMessage_auth received rest m w :
  auth_inv O received w -> closed (this w) = false -> idle_at rest w -> heard received m ->
  match handleDataMessage m w with
  | (w', Done st) => auth_inv O received (suspend0 st w')
  | (w', Raise e) => auth_inv O received w'
  end.
Proof.
  intros Hi Hc Hidle Hm. unfold handleDataMessage, self. unfold bind at 1, gets. cbn beta iota. cbn [id].
  destruct (handshake (this w)) as [i|] eqn:Eh; [|done]. destruct (dc (this w)) as [d|]; [|done].
  destruct (negb (hostHelloHandled (this w))).
  { pose proof (host_hello_auth received rest i m w Hi Hc Hidle Hm Eh) as H'. unfold bind.
    by destruct (on_handshake i (handleHostHello m) w) as [w' [p|e]]. }
  destruct (negb (authenticated (this w))).
  { pose proof (auth_ok_auth received rest i m w Hi Hc Hidle Eh) as H'. unfold bind at 1.
    destruct (on_handshake i (handleAuthOK m) w) as [w1 [keys|e]]; [|exact H'].
    destruct H' as (Hk & Hidle1 & H1'). unfold bind at 1, assign at 1, modify at 1. cbn beta iota.
    set (w2 := w1 <| this := _ |>) in *. assert (Hidle2 : idle_at rest w2) by exact Hidle1.
    assert (Ha2 : authenticated (this w2) = true) by reflexivity.
    change (authentic O received (attemptId (this w2)) keys) in Hk. clearbody w2.
    pose proof (auth_clear_timeout w2) as Ev. destruct (goes_clear_timeout w2 _ eq_refl) as [_ Er].
    unfold bind. destruct (clear_timeout w2) as [w3 o]. cbn in Ev, Er. subst o.
    unfold assign, emit, modify, ret.
    assert (Ha3 : authenticated (this w3) = true).
    { unfold auth_view in Ev. repeat (apply pair_equal_spec in Ev as [Ev ?]). congruence. }
    assert (Haid : attemptId (this w3) = attemptId (this w2)).
    { unfold auth_view in Ev. repeat (apply pair_equal_spec in Ev as [Ev ?]). congruence. }
    rewrite <- Haid in Hk. pose proof (auth_inv_view O received _ _ Ev H1') as H3'.
    pose proof (auth_view_idle rest _ _ Ev Hidle2) as Hidle3.
    pose proof (authenticated_auth received keys w3 H3' Hk Ha3) as H4'.
    eapply auth_inv_view; [|exact H4']. by apply (suspend_idle rest). }
  match goal with |- context [match ?m w with _ => _ end] =>
    assert (Hp : preserves auth_view m) end.
  { pose proof (open_keys m). preserves_tac. }
  match goal with |- context [match ?mm w with _ => _ end] => specialize (Hp w);
    assert (Hn : forall st, snd (mm w) = Done st -> st = None) end.
  { destruct (bool_decide _); [done|]. intros st. unfold bind.
    destruct (on_codec _ w) as [w1 [o|e]]; [|done]. by destruct (handleRecord _ _ w1) as [w2 [[]|e]]; cbn; intros [= <-]. }
  match goal with |- context [match ?mm w with _ => _ end] => destruct (mm w) as [w' [st|e]] end; cbn in Hp.
  - rewrite (Hn st eq_refl). eapply auth_inv_view; [|exact Hi]. rewrite <- Hp.
    apply (suspend_idle rest). by eapply auth_view_idle.
  - by eapply auth_inv_view.
Qed.
End Receive.

Section AuthRun.
Context `{Crypto} `{WebCrypto} `{JsText} `{Browser} `{Owner}.
Context (O : DirectClientOptions).
Implicit Types (w : ClientWorld) (received : list Event).

Lemma closed_no_dc w : inv (view w) -> closed (this w) = true -> dc (this w) = None.
Proof.
  intros [[_ I2 _ _ _ _ _ _ _] _] Hc. by destruct (I2 Hc) as (_ & _ & ? & _).
Qed.

(** A closed client may change as it likes but for what it has done. *)
Lemma auth_inv_closed received w w' :
  auth_inv O received w -> closed (this w') = true ->
  (options (this w') = options (this w) /\ requestId (this w') = requestId (this w) /\
   attemptId (this w') = attemptId (this w)) ->
  existsb is_auth (trace w') = existsb is_auth (trace w) -> auth_inv O received w'.
Proof.
  intros (Ho & Ha & _) Hc (E1 & E1' & E1'') E2. unfold auth_inv. rewrite once_existsb in *.
  rewrite E1, E1', E1'', E2. split; [done|]. split; [done|congruence].
Qed.

Lemma receive_turn_auth received k w :
  inv (view w) -> auth_inv O received w -> auth_inv O received (fst (receive_turn k w)).
Proof.
  intros Hinv Hi. unfold receive_turn. unfold bind at 1, gets. cbn beta iota.
  destruct ((receiveChains w !! k) ≫= chain_next) as [[m rest]|] eqn:Eq; [|done].
  unfold bind at 1, modify_receive_chain at 1, modify at 1. cbn beta iota.
  set (w1 := w <| receiveChains := alter _ k _ |>). unfold catch.
  destruct (closed (this w)) eqn:Hc.
  { assert (E : handleDataMessage m w1 = (w1, Raise (js "direct handshake unavailable"))).
    { unfold handleDataMessage, self, bind, gets, id. cbn beta iota. change (this w1) with (this w).
      rewrite (closed_no_dc w Hinv Hc). by destruct (handshake _). }
    unfold bind. rewrite E. apply akept_fail. by eapply auth_inv_closed. }
  destruct Hi as (Ho & Ha & Hopen). pose proof (Hopen Hc) as [(ch & E1 & E2 & E3 & E4) I2 I3 I4].
  rewrite E2 in Eq. destruct k as [|k]; [|done]. cbn in Eq. unfold chain_next in Eq.
  destruct ch as [[|m0 rest'] [s|]]; try done. injection Eq as -> <-.
  apply Forall_cons in E3 as [Em Erest].
  assert (Hidle : idle_at rest' w1) by (unfold idle_at, w1; cbn; by rewrite E2).
  assert (Hi1 : auth_inv O received w1).
  { split; [done|]. split; [done|]. intros _. split; [|done|done|done]. exists (mkChain rest' None).
    split_and!; [done|exact Hidle|exact Erest|]. exact E4. }
  pose proof (handleDataMessage_auth O received rest' m w1 Hi1 Hc Hidle Em) as H'. unfold bind.
  destruct (handleDataMessage m w1) as [w2 [st|e]]; [exact H'|]. by apply akept_fail.
Qed.

Lemma receive_resume_auth received k w :
  inv (view w) -> auth_inv O received w -> auth_inv O received (fst (receive_resume k w)).
Proof.
  intros Hinv Hi. unfold receive_resume. unfold bind at 1, gets. cbn beta iota.
  destruct ((receiveChains w !! k) ≫= suspended_job) as [[i p|o]|] eqn:Eq; [| |done].
  - unfold bind, settled. set (w1 := fst (on_handshake i (handleHostHello_resume p) w)).
    unfold modify_receive_chain, modify. cbn [fst].
    assert (Hsame : (options (this w1) = options (this w) /\ requestId (this w1) = requestId (this w) /\
      attemptId (this w1) = attemptId (this w)) /\ closed (this w1) = closed (this w) /\
      trace w1 = trace w).
    { unfold w1, on_handshake. destruct (handshakes w !! i) as [h|]; [|done].
      by destruct (handleHostHello_resume p h). }
    destruct Hsame as (S1 & S2 & S3).
    apply (auth_inv_change O received w); [done|done|done|by rewrite <- S3|].
    intros Hc [(ch & E1 & E2 & E3 & E4) I2 I3 I4].
    rewrite E2 in Eq. destruct k as [|k]; [|done]. cbn in Eq.
    unfold handshake_ok in E4. destruct (handshake (this w)) as [i'|] eqn:Eh.
    2: { destruct E4 as (_ & E4 & _). congruence. }
    destruct E4 as (-> & Hj & h & Eh' & Hm). pose proof (Hj _ _ Eq) as ->.
    unfold pend_of in Hm. rewrite Eq in Hm. pose proof (made_resume O received _ h p Hm) as Hm'.
    unfold w1. rewrite (on_handshake_one _ _ h) by done. split; [|done|done|done].
    eexists. cbn. rewrite E2. split_and!; [done|done|exact E3|].
    unfold handshake_ok. cbn. rewrite Eh. split_and!; [done|done|]. by eexists.
  - unfold bind at 1, modify_receive_chain at 1, modify at 1. cbn beta iota.
    set (w1 := w <| receiveChains := alter _ k _ |>).
    assert (Hi1 : auth_inv O received w1).
    { apply (auth_inv_change O received w); try done.
      intros Hc [(ch & E1 & E2 & E3 & E4) I2 I3 I4]. rewrite E2 in Eq. destruct k as [|k]; [|done].
      cbn in Eq. split; [|done|done|done]. eexists. unfold w1. cbn. rewrite E2.
      split_and!; [done|done|exact E3|]. unfold handshake_ok in *. cbn.
      destruct (handshake (this w)); [|by destruct E4 as (? & ? & ?)].
      destruct E4 as (? & ? & h & ? & Hm). split_and!; [done|done|]. exists h. split; [done|].
      unfold pend_of in Hm. rewrite Eq in Hm. exact Hm. }
    revert Hi1. generalize w1. clear. intros w1 Hi1. revert w1 Hi1.
    apply akept_catch_fail, akept_preserves. unfold assign. preserves_tac.
Qed.

(** *** The attempt *)

Lemma answer_inv {A} (o : outcome A) w :
  (exists a, o = Done a /\ answer o w = (w, Done a)) \/ (exists e, answer o w = (w, Raise e)).
Proof. destruct o as [a|e]; [left; by exists a|right; by exists e]. Qed.

(** An offer has an attempt id, so nothing is claimed before the attempt. *)
Lemma no_offer received aid auth : truthy (Some aid) = false -> ~ offered O received aid auth.
Proof. intros Hf (s & d & m & _ & _ & Hm). destruct Hm as [_ _ _ _ [_ Ht] _ _]. congruence. Qed.

Lemma stage_no_attempt received aid aid' st :
  truthy (Some aid) = false -> stage_ok O received aid st -> stage_ok O received aid' st.
Proof.
  intros Hf. destruct st as [auth t|[h0|e]| | | |]; cbn; try done.
  - intros Ho. by apply no_offer in Ho.
  - intros (auth & pk & jwk & t & [Ho _] & _). by apply no_offer in Ho.
Qed.

(** The attempt begins. *)
Lemma auth_inv_begin received w aid auth called :
  truthy (Some (attemptId (this w))) = false -> offered O received aid auth -> auth_inv O received w ->
  auth_inv O received (w <| this := (this w) <| attemptId := aid |> |>
                         <| attempts := attempts w ++ [AtCreate auth called] |>).
Proof.
  intros Hf Hoff (Ho & Ha & Hopen).
  assert (Hno : forall k, ~ authentic O received (attemptId (this w)) k).
  { intros k (auth' & pk & jwk & hs & Hoff' & _). by apply no_offer in Hoff'. }
  split; [exact Ho|]. split; [intros Hc; destruct (Ha Hc) as [k Hk]; by apply Hno in Hk|].
  intros Hc. destruct (Hopen Hc) as [(ch & E1 & E2 & E3 & E4) I2 I3 I4]. split; [|exact I2| |].
  - exists ch. split_and!; [done|done|done|]. unfold handshake_ok in *. cbn in *.
    destruct (handshake (this w)); [|done].
    destruct E4 as (_ & _ & h & _ & (auth' & pk & jwk & t & h0 & hs & [Hoff' _] & _)). by apply no_offer in Hoff'.
  - cbn. apply Forall_app. split; [|by constructor]. eapply Forall_impl; [exact I3|]. intros st.
    by apply stage_no_attempt.
  - intros Hau. destruct (I4 Hau) as (k & _ & Hk). by apply Hno in Hk.
Qed.

Lemma beginAttempt_auth received s data m w :
  EvSocketMessage s data ∈ received -> parseSignalMessage data = Ok m ->
  text_of (field m "kind") = js "direct_attempt" ->
  is_text (field m "request_id") (requestId (this w)) = true ->
  auth_inv O received w -> auth_inv O received (fst (beginAttempt m w)).
Proof.
  intros Hin Hparse Hkind Hreq Hi. unfold beginAttempt. unfold self, bind at 1, gets. cbn beta iota.
  destruct (truthy (Some (attemptId _))) eqn:Hno; [exact Hi|].
  destruct (safe_integer _) as [expiresAt|] eqn:Hexp; [|exact Hi].
  destruct (negb _) eqn:Hhas; [exact Hi|]. cbv zeta.
  destruct (negb (is_text _ _) || negb (is_text _ _)) eqn:Hcl; [exact Hi|].
  unfold answer, bind. cbn beta iota.
  destruct (decode_ticket _) as [ticket|e] eqn:Hticket; [|exact Hi]. cbn [of_result].
  destruct (permission_of _) as [perm|e] eqn:Hperm; [|exact Hi]. cbn [of_result].
  apply negb_false_iff in Hhas. rewrite !andb_true_iff in Hhas.
  destruct Hhas as [[[[[[Haid _] _] Huser] Hhost] _] _].
  apply orb_false_iff in Hcl as [Hsid Hcid]. apply negb_false_iff in Hsid, Hcid.
  unfold id in *. pose proof Hi as ((Ho & Hr) & _).
  unfold assign, modify, gets. cbn [fst snd]. apply (auth_inv_begin received w _ _ (now w)); [done| |exact Hi].
  exists s, data, m. split; [done|]. split; [done|]. rewrite Ho in *. rewrite Hr in Hreq.
  destruct (field m "attempt_id") as [aid|] eqn:Efield; [|done].
  split; [done..| |done|].
  - done.
  - exists ticket, perm, expiresAt. by split_and!.
Qed.

Lemma set_attempt_auth received a st :
  (forall aid, stage_ok O received aid st) -> akept O received (set_attempt a st).
Proof.
  intros Hst w Hi. unfold set_attempt, modify. cbn [fst]. apply (auth_inv_change O received w); try done.
  intros Hc [Hch I2 I3 I4]. split; [exact Hch|done| |done]. cbn. by apply Forall_insert.
Qed.

Lemma offer_auth received a d : akept O received (beginAttempt_offer a d).
Proof.
  unfold beginAttempt_offer. destruct d as [d|]; [|apply keeps_raise].
  repeat (apply akept_bind; [apply akept_preserves; unfold self; preserves_tac|intros ?]).
  by apply set_attempt_auth.
Qed.

Lemma connect_auth received a f : akept O received (beginAttempt_connect a f).
Proof.
  unfold beginAttempt_connect, self. apply akept_bind; [apply akept_preserves; preserves_tac|].
  intros c. destruct (closed c); [by apply set_attempt_auth|].
  do 6 (apply akept_bind; [apply akept_preserves; unfold assign; preserves_tac|intros ?]).
  apply akept_bind; [apply akept_preserves; preserves_tac|intros [[o n1] n2]].
  do 3 (apply akept_bind; [apply akept_preserves; unfold assign; preserves_tac|intros ?]).
  destruct (negb o || negb n1 || negb n2); [apply keeps_raise|].
  do 2 (apply akept_bind; [apply akept_preserves; unfold assign; preserves_tac|intros ?]).
  by apply set_attempt_auth.
Qed.

Lemma attempt_continue_auth received stage ans w :
  EvAttempt 0 ans ∈ received -> inv (view w) -> attempts w = [stage] -> auth_inv O received w ->
  match attempt_continue 0 stage ans w with (w', _) => auth_inv O received w' end.
Proof.
  intros Hans Hinv Hat Hi.
  assert (Hk : forall m : M unit, akept O received m -> match m w with (w', _) => auth_inv O received w' end).
  { intros m Hm. specialize (Hm w Hi). by destruct (m w). }
  destruct stage as [auth called|o|p|p|p|], ans as [kp|f|o'|d]; cbn [attempt_continue];
    try (apply Hk, act_keeps_ret).
  - unfold self, bind at 1, gets. cbn beta iota.
    set (created := match kp with Done _ => _ | Raise _ => _ end).
    unfold set_attempt, modify. apply (auth_inv_change O received w); try done.
    intros Hc [Hch I2 I3 I4]. split; [exact Hch|done| |done]. cbn. rewrite Hat. cbn.
    rewrite Hat in I3. inversion I3 as [|? ? Hst _]; subst. constructor; [|done].
    unfold created. destruct kp as [[pk jwk]|e]; [|done].
    destruct (create auth (accountKey (this w)) called pk jwk) as [h0|e] eqn:Ecr; cbn; [|done].
    exists auth, pk, jwk, called. split; [by split|]. rewrite <- I2; [done|].
    destruct Hch as (ch & _ & _ & _ & E4). unfold handshake_ok in E4.
    destruct (handshake (this w)) as [i|]; [|by destruct E4 as (_ & _ & ?)].
    destruct E4 as (_ & _ & h & Eh & _). destruct Hinv as [[_ _ _ _ _ I6 _ _ _] _].
    rewrite (view_early _ _ Hat) in I6. destruct I6 as [_ I6]. specialize (I6 eq_refl). cbn in I6.
    rewrite Eh in I6. by rewrite andb_false_r in I6.
  - destruct o as [h|e]; [|exact Hi]. unfold answer, bind at 1. cbn beta iota.
    unfold bind at 1, gets at 1. cbn beta iota. unfold bind at 1, modify at 1. cbn beta iota.
    unfold bind at 1, assign at 1, modify at 1. cbn beta iota.
    match goal with |- match beginAttempt_connect 0 f ?w0 with _ => _ end => set (w1 := w0) end.
    assert (Hi1 : auth_inv O received w1).
    { apply (auth_inv_change O received w); try done. intros Hc [Hch I2 I3 I4].
      assert (Hnone : handshakes w = []).
      { destruct Hinv as [[_ _ _ _ _ I6 _ _ _] _]. rewrite (view_early _ _ Hat) in I6.
        destruct I6 as [_ I6]. specialize (I6 eq_refl). cbn in I6. apply andb_prop in I6 as [_ I6].
        by destruct (handshakes w). }
      destruct Hch as (ch & E1 & E2 & E3 & E4). split; [|done|done| ].
      - exists ch. split_and!; [done|done|done|]. unfold handshake_ok, w1 in *. cbn. rewrite Hnone.
        destruct (handshake (this w)) as [i|]; [by destruct E4 as (_ & _ & h' & ? & _); congruence|].
        destruct E4 as (_ & Es & _). split_and!; [done|by rewrite Es|].
        exists h. split; [done|]. rewrite Hat in I3. inversion I3 as [|? ? Hst _]; subst.
        destruct Hst as (auth & pk & jwk & called & Hcl & Hcr). unfold pend_of. rewrite Es.
        exists auth, pk, jwk, called, h, []. split; [done|]. split_and!; [done|set_solver|set_solver|done].
      - intros Ha. exfalso. cbn in Ha. unfold handshake_ok in E4.
        destruct (handshake (this w)) as [i|]; [by destruct E4 as (_ & _ & h' & ? & _); congruence|].
        destruct E4 as (_ & _ & Ef). congruence. }
    pose proof (connect_auth received 0 f w1 Hi1) as H'. by destruct (beginAttempt_connect 0 f w1).
  - apply Hk. do 2 (apply akept_bind; [apply akept_preserves; preserves_tac|intros ?]).
    by apply set_attempt_auth.
  - apply Hk. apply akept_bind; [apply akept_preserves; preserves_tac|intros ?]. by apply set_attempt_auth.
  - apply Hk, offer_auth.
Qed.

Lemma attempt_resume_auth received a ans w :
  EvAttempt a ans ∈ received -> inv (view w) -> auth_inv O received w -> auth_inv O received (fst (attempt_resume a ans w)).
Proof.
  intros Hans Hinv Hi. unfold attempt_resume. unfold bind at 1, gets. cbn beta iota.
  destruct (attempts w !! a) as [st|] eqn:Ea; [|done].
  destruct (attempts_cases _ _ _ Hinv Ea) as [-> Eat]. unfold catch.
  pose proof (attempt_continue_auth received st ans w Hans Hinv Eat Hi) as H'.
  destruct (attempt_continue 0 st ans w) as [w1 [[]|e]]; [exact H'|].
  revert w1 H'. apply act_keeps_bind; [by apply set_attempt_auth|]. intros _. apply akept_fail.
Qed.

(** *** Every event *)

(** A choice of the model's [if], for a method run on a given state. *)
Lemma auth_if {A} received (b : bool) (m1 m2 : M A) w :
  (b = true -> auth_inv O received (fst (m1 w))) -> (b = false -> auth_inv O received (fst (m2 w))) ->
  auth_inv O received (fst ((if b then m1 else m2) w)).
Proof. by destruct b; auto. Qed.

Lemma handleSignal_auth received s data m w :
  EvSocketMessage s data ∈ received -> parseSignalMessage data = Ok m ->
  auth_inv O received w -> auth_inv O received (fst (handleSignal m w)).
Proof.
  intros Hin Hparse Hi. unfold handleSignal, self. unfold bind at 1, gets at 1. cbn beta iota. cbn [Datatypes.id].
  apply auth_if; [done|intros _]. cbv zeta. apply auth_if; intros _.
  { match goal with |- auth_inv O received (fst (?mm w)) =>
      assert (Hk : akept O received mm) by (apply akept_preserves; unfold assign; preserves_tac) end.
    by apply Hk. }
  apply auth_if; intros Hkind.
  - apply bool_decide_eq_true in Hkind.
    destruct (is_text _ _) eqn:Hreq; [|exact Hi]. cbn [negb].
    pose proof (beginAttempt_auth received s data m w Hin Hparse Hkind Hreq Hi) as H'. unfold catch.
    destruct (beginAttempt m w) as [w1 [[]|e]]; [exact H'|]. by apply akept_fail.
  - match goal with |- auth_inv O received (fst (?mm w)) =>
      assert (Hk : akept O received mm) by (apply akept_preserves; preserves_tac) end.
    by apply Hk.
Qed.

Lemma ws_onmessage_auth received s data :
  EvSocketMessage s data ∈ received -> akept O received (ws_onmessage data).
Proof.
  intros Hin. apply akept_catch_fail. intros w Hi. unfold answer, bind.
  destruct (parseSignalMessage data) as [m|e] eqn:Hparse; [|exact Hi]. cbn [of_result].
  by apply (handleSignal_auth received s data).
Qed.

Lemma sendFrame_auth received frame : akept O received (sendFrame frame).
Proof.
  unfold sendFrame, self. apply akept_bind; [apply akept_preserves; preserves_tac|]. intros c.
  apply akept_bind; [apply akept_preserves; preserves_tac|]. intros st.
  destruct (dc c) as [d|]; [|apply act_keeps_ret]. apply keeps_if; [apply act_keeps_ret|].
  apply akept_bind; [apply akept_preserves; preserves_tac|]. intros b.
  apply keeps_if; [apply akept_bind; [apply akept_fail|intros _; apply act_keeps_ret]|].
  apply keeps_catch; [|intros e; apply akept_bind; [apply akept_fail|intros _; apply act_keeps_ret]].
  apply akept_preserves. pose proof (sealFrame_keys frame). preserves_tac.
Qed.

(** A read of the run time before a handler. *)
Lemma akept_read {A} received (f : ClientWorld -> A) (k : A -> M unit) :
  (forall a, akept O received (k a)) -> akept O received (bind (gets f) k).
Proof. intros Hk. apply akept_bind; [apply akept_preserves; preserves_tac|exact Hk]. Qed.

Lemma akept_when received b (m : M unit) : akept O received m -> akept O received (when b m).
Proof. apply keeps_when. Qed.

(** The events but those that need the invariant of the view. *)
Lemma dispatch_auth received e :
  e ∈ received ->
  match e with EvReceiveTurn _ | EvReceiveResume _ | EvAttempt _ _ => False | _ => True end ->
  akept O received (dispatch e).
Proof.
  intros Hrec He. pose proof (akept_fail O received) as Hfail.
  destruct e; cbn [dispatch]; try done.
  - unfold start, self. apply akept_read. intros c. apply keeps_if; [apply act_keeps_ret|].
    apply akept_bind; [apply akept_preserves; unfold assign; preserves_tac|]. intros _.
    destruct (signal_socket_error _); [apply Hfail|]. apply akept_preserves. unfold assign. preserves_tac.
  - apply akept_bind; [apply sendFrame_auth|intros _; apply act_keeps_ret].
  - apply akept_finish.
  - apply akept_preserves. unfold set_socket, ws_onopen, self. preserves_tac.
  - apply akept_read. intros go. by eapply akept_when, ws_onmessage_auth.
  - apply akept_preserves. unfold set_socket. preserves_tac.
  - apply akept_read. intros go. apply akept_when.
    apply akept_bind; [apply akept_preserves; unfold set_socket; preserves_tac|]. intros _. unfold ws_onclose, self.
    apply akept_bind; [apply akept_preserves; unfold assign; preserves_tac|]. intros _.
    apply akept_read. intros au. apply akept_when, Hfail.
  - apply akept_read. intros go. apply akept_when.
    apply akept_bind; [apply akept_preserves; unfold clearTimeout; preserves_tac|]. intros _. apply Hfail.
  - apply akept_preserves. preserves_tac.
  - apply akept_read. intros [p'|]; [|apply act_keeps_ret].
    apply akept_bind; [apply akept_preserves; preserves_tac|]. intros _. unfold pc_onconnectionstatechange.
    apply akept_read. intros st. apply akept_when, Hfail.
  - apply akept_preserves. unfold reportSelectedCandidateType, notifyDiagnostics, self. preserves_tac.
  - unfold signal_turn. apply akept_read. intros [[m rest]|]; [|apply act_keeps_ret].
    apply akept_bind; [apply akept_preserves; preserves_tac|]. intros _.
    apply akept_catch_fail, akept_preserves. preserves_tac.
  - unfold signal_settled. apply akept_read. intros ch. destruct (ch ≫= suspended_job); [|apply act_keeps_ret].
    apply akept_bind; [apply akept_preserves; preserves_tac|]. intros _.
    apply akept_catch_fail, akept_preserves. preserves_tac.
  - apply akept_read. intros go. apply akept_when.
    apply akept_bind; [apply akept_preserves; unfold set_channel_state; preserves_tac|]. intros _.
    apply akept_dc_onopen.
  - apply akept_read. intros go. apply akept_when, akept_dc_onmessage. intros p ->. by eexists.
  - apply akept_read. intros go. apply akept_when, Hfail.
  - apply akept_read. intros go. apply akept_when.
    apply akept_bind; [apply akept_preserves; unfold set_channel_state; preserves_tac|]. intros _. apply Hfail.
  - apply akept_preserves. unfold set_buffered. preserves_tac.
  - apply akept_preserves. preserves_tac.
Qed.

Lemma auth_step received e w :
  e ∈ received -> inv (view w) -> auth_inv O received w -> auth_inv O received (step e w).
Proof.
  intros Hrec Hinv Hi. unfold step.
  destruct e; try (by apply dispatch_auth);
    [by apply attempt_resume_auth | by apply receive_turn_auth | by apply receive_resume_auth].
Qed.

Lemma auth_init c t : new_client O = Ok c -> auth_inv O [] (init c t).
Proof.
  unfold new_client. intros E. inv_ok. split; [done|split]; [intros Ha; by apply not_elem_of_nil in Ha|].
  intros _. split; [|done|done|done]. exists new_chain. by split_and!.
Qed.

Lemma auth_run c t events :
  (owner_closes = true \/ EvClose ∉ events) -> new_client O = Ok c ->
  auth_inv O events (run events (init c t)).
Proof.
  intros Ho Hnew. induction events as [|e events IH] using rev_ind; [by apply auth_init|].
  unfold run. rewrite fold_left_app. cbn [fold_left].
  assert (Ho' : owner_closes = true \/ EvClose ∉ events) by set_solver.
  apply auth_step.
  - set_solver.
  - by apply (inv_run O c t events).
  - eapply auth_inv_mono; [|by apply IH]. set_solver.
Qed.
End AuthRun.
