(* ===== verification/DirectClientDelivery.v ===== *)
(** * Frames across the data channel

    [sendFrame] of one client, the records on the channel, [handleDataMessage]
    of its peer: sealing, fragmentation, opening and reassembly composed. The
    peer is a client too, whose codec holds the same keys with the directions
    exchanged, as the host's does. *)

From S2P Require Import Prelude Bytes JsString JsMap Json DirectCrypto DirectFraming.
From S2P Require Import DirectHandshake EventLoop Transport DirectClient DirectClientInv DirectClientAuth.

Section Delivery.
Context `{Crypto} `{WebCrypto} `{JsText} `{Browser}.
Implicit Types (w : ClientWorld).

(** An authenticated client that can send, with its codec. *)
Definition sender w (d : nat) (c : DirectClientRecordCodec) : Prop :=
  closed (this w) = false /\ authenticated (this w) = true /\ dc (this w) = Some d /\
  codec (this w) = Some c /\ dc_state d w = OPEN.

(** One that can receive, with its codec and reassembler; its chain is idle. *)
Definition receiver w (d k : nat) (c : DirectClientRecordCodec) (st : Reassembler) : Prop :=
  sender w d c /\ hostHelloHandled (this w) = true /\ handshake (this w) <> None /\
  reassembler (this w) = st /\ receiveChain (this w) = k /\ receiveChains w !! k = Some new_chain.

(** The data sent on a channel. *)
Definition sent_on (d : nat) (l : list Effect) : list bytes :=
  omap (fun e => match e with DataSend d' p => if bool_decide (d' = d) then Some p else None | _ => None end) l.

(** A data message arrives and its job runs. *)
Definition arrival (d k : nat) (record : bytes) : list Event :=
  [EvChannelMessage d (BinaryData record); EvReceiveTurn k].

Definition arrivals (d k : nat) (records : list bytes) : list Event := flat_map (arrival d k) records.

(** ** Sending *)

Lemma sent_on_app d l1 l2 : sent_on d (l1 ++ l2) = sent_on d l1 ++ sent_on d l2.
Proof. apply omap_app. Qed.

Lemma dc_state_set d b w :
  dc_state d (w <| channels := alter (fun c => mkChannel (channelState c) b) d (channels w) |>) = dc_state d w.
Proof.
  unfold dc_state. cbn. rewrite list_lookup_alter. destruct (decide _); [|done]. by destruct (channels w !! d).
Qed.

Lemma dc_send_done d data w w' :
  dc_send d data w = (w', Done tt) ->
  this w' = this w /\ dc_state d w' = dc_state d w /\ sent_on d (trace w') = sent_on d (trace w) ++ [data].
Proof.
  unfold dc_send, set_buffered, emit, modify, bind, gets. destruct (negb _); [done|].
  destruct (send_buffer_full _); [done|]. intros [= <-]. split; [done|].
  split; [exact (dc_state_set d _ w)|].
  change (sent_on d (trace w ++ [DataSend d data]) = sent_on d (trace w) ++ [data]).
  rewrite sent_on_app. f_equal. unfold sent_on. cbn. by rewrite bool_decide_eq_true_2.
Qed.

Lemma send_records_done d records w w' :
  send_records d records w = (w', Done tt) ->
  this w' = this w /\ dc_state d w' = dc_state d w /\ sent_on d (trace w') = sent_on d (trace w) ++ records.
Proof.
  revert w. induction records as [|r rs IH]; intros w E; cbn [send_records] in E.
  - unfold ret in E. injection E as <-. by rewrite app_nil_r.
  - unfold bind in E. destruct (dc_send d r w) as [w1 [[]|e]] eqn:E1; [|done].
    destruct (dc_send_done _ _ _ _ E1) as (T1 & S1 & R1). destruct (IH _ E) as (T2 & S2 & R2).
    split_and!; [congruence|congruence|]. by rewrite R2, R1, <- app_assoc.
Qed.

Definition set_codec (c : DirectClientRecordCodec) w : ClientWorld :=
  w <| this := (this w) <| codec := Some c |> |>.

Definition send_failed (e : jsstr) : M bool := let! _ := fail e in ret false.

(** [sendFrame] of a client that can send. *)
Lemma sendFrame_eq frame w d c :
  sender w d c ->
  sendFrame frame w =
  if DIRECT_BUFFERED_HIGH_WATER <? dc_buffered d w
  then send_failed (js "direct data channel backpressure limit") w
  else match sealFrame frame c with
       | (c', Ok records) =>
           match send_records d records (set_codec c' w) with
           | (w', Done _) => (w', Done true)
           | (w', Raise e) => send_failed e w'
           end
       | (c', Throw m) => send_failed (js m) (set_codec c' w)
       end.
Proof.
  intros (Hc & Ha & Hd & Hk & Hs). unfold sendFrame, self. unfold bind at 1 2, gets at 1 2, id.
  cbn beta iota. rewrite Hd, Hc, Ha, Hk, Hs. rewrite bool_decide_eq_false_2 by done.
  rewrite bool_decide_eq_true_2 by done. cbn [orb negb].
  unfold bind at 1, gets. cbn beta iota. destruct (_ <? _); [done|].
  unfold catch, bind at 1, on_codec. rewrite Hk.
  destruct (sealFrame frame c) as [c' [records|m]]; cbn [of_result]; [|done].
  fold (set_codec c' w). unfold bind at 1. by destruct (send_records d records _) as [w' [[]|e]].
Qed.

Lemma send_failed_closes e w : closed (this (fst (send_failed e w))) = true.
Proof.
  unfold send_failed, bind. pose proof (fail_closes e w). by destruct (fail e w) as [w2 [[]|e']].
Qed.

Lemma step_sendFrame frame w : step (EvSendFrame frame) w = fst (sendFrame frame w).
Proof. unfold step. cbn [dispatch]. unfold bind. by destruct (sendFrame frame w) as [w2 [b|e]]. Qed.

(** A client that is still open after [sendFrame] has sent the records of the
    frame. *)
Lemma sendFrame_sends frame w d c :
  sender w d c -> let w' := step (EvSendFrame frame) w in
  closed (this w') = false ->
  exists c' records, sealFrame frame c = (c', Ok records) /\ sender w' d c' /\
    sent_on d (trace w') = sent_on d (trace w) ++ records.
Proof.
  intros Hs. cbv zeta. rewrite step_sendFrame, (sendFrame_eq frame w d c Hs).
  assert (Hno : forall e w0, closed (this (fst (send_failed e w0))) = false -> False).
  { intros e w0 E. by rewrite send_failed_closes in E. }
  destruct (_ <? _); [by intros ?%Hno|].
  destruct (sealFrame frame c) as [c' [records|m]]; [|by intros ?%Hno].
  destruct (send_records d records _) as [w2 [[]|e]] eqn:E2; [|by intros ?%Hno].
  cbn [fst]. intros _. destruct (send_records_done _ _ _ _ E2) as (T & S & R).
  destruct Hs as (Hc & Ha & Hd & Hk & Hst). exists c', records. split; [done|].
  unfold sender. rewrite T, S, R. by split_and!.
Qed.

(** ** Receiving *)

Lemma alter_same {A} (f : A -> A) k (l : list A) x : l !! k = Some x -> f x = x -> alter f k l = l.
Proof.
  intros Hl Hf. rewrite (list_alter_ext f id l l k); [by apply list_alter_id| |done].
  intros y Hy. simplify_eq. by rewrite Hf.
Qed.

Lemma set_chains_same w : w <| receiveChains := receiveChains w |> = w.
Proof. by destruct w. Qed.

(** An arrival is the handling of its record: the chain is idle before and
    after. *)
Lemma arrival_step record w d k c st :
  receiver w d k c st ->
  (forall w' s, handleDataMessage record w = (w', Done s) ->
     s = None /\ receiveChains w' !! k = Some new_chain) ->
  run (arrival d k record) w
  = match handleDataMessage record w with
    | (w', Done _) => w'
    | (w', Raise e) => fst (fail e w')
    end.
Proof.
  intros ((Hc & Ha & Hd & Hk & Hst) & Hh & Hhs & Hre & Hch & Hl) Hafter.
  unfold run, arrival. cbn [fold_left].
  set (w1 := w <| receiveChains := alter (chain_then record) k (receiveChains w) |>).
  assert (E1 : step (EvChannelMessage d (BinaryData record)) w = w1).
  { unfold step. cbn [dispatch]. unfold bind at 1, gets at 1. cbn beta iota.
    assert (E : channel_is d [OPEN] w = true).
    { unfold channel_is, dc_state in *. destruct (channels w !! d); [|done].
      by rewrite bool_decide_eq_true_2 by (rewrite Hst; set_solver). }
    rewrite E. unfold when, dc_onmessage, self, bind, gets. cbn beta iota. by rewrite Hch. }
  rewrite E1. unfold step. cbn [dispatch]. unfold receive_turn. unfold bind at 1, gets. cbn beta iota.
  assert (E2 : (receiveChains w1 !! k) ≫= chain_next = Some (record, new_chain)).
  { unfold w1. cbn. rewrite list_lookup_alter, decide_True by done. by rewrite Hl. }
  rewrite E2. unfold bind at 1, modify_receive_chain at 1, modify at 1. cbn beta iota.
  assert (E3 : w1 <| receiveChains := alter (fun _ => new_chain) k (receiveChains w1) |> = w).
  { transitivity (w <| receiveChains :=
      alter (fun _ => new_chain) k (alter (chain_then record) k (receiveChains w)) |>); [done|].
    rewrite list_alter_alter_eq, (alter_same _ _ _ new_chain) by done. apply set_chains_same. }
  rewrite E3. unfold catch, bind. destruct (handleDataMessage record w) as [w' [s|e]] eqn:E; [|done].
  destruct (Hafter _ _ eq_refl) as [-> Hl']. unfold modify_receive_chain, modify. cbn [fst].
  rewrite (alter_same _ _ _ new_chain) by done. apply set_chains_same.
Qed.

(** The callbacks an opened frame record, or fragment, makes. *)
Lemma handle_opened record w d k c st c' kind pt :
  receiver w d k c st -> DirectHandshake.open record c = (c', Ok (kind, pt)) ->
  handleDataMessage record w
  = match handleRecord kind pt (set_codec c' w) with
    | (w', Done _) => (w', Done None)
    | (w', Raise e) => (w', Raise e)
    end.
Proof.
  intros ((Hc & Ha & Hd & Hk & Hst) & Hh & Hhs & _) Ho. unfold handleDataMessage, self.
  unfold bind at 1, gets, id. cbn beta iota. destruct (handshake (this w)) as [i|]; [|done].
  rewrite Hd, Hh, Ha, Hk. cbn [negb]. rewrite bool_decide_eq_false_2 by done.
  unfold bind at 1, on_codec. rewrite Hk, Ho. cbn [of_result fst snd]. fold (set_codec c' w).
  unfold bind. by destruct (handleRecord kind pt _) as [w' [[]|e]].
Qed.

Lemma arrival_frame record w d k c st c' pt :
  receiver w d k c st -> DirectHandshake.open record c = (c', Ok (DirectRecordKind.Frame, pt)) ->
  let w' := run (arrival d k record) w in
  receiver w' d k c' st /\ now w' = now w /\ calls (trace w') = calls (trace w) ++ [CbFrame pt].
Proof.
  intros Hr Ho. cbv zeta. pose proof (handle_opened _ _ _ _ _ _ _ _ _ Hr Ho) as E.
  unfold handleRecord in E. rewrite Z.eqb_refl in E. unfold emit, modify in E.
  destruct Hr as ((Hc & Ha & Hd & Hk & Hst) & Hh & Hhs & Hre & Hch & Hl).
  assert (Hafter : forall w' s, handleDataMessage record w = (w', Done s) ->
    s = None /\ receiveChains w' !! k = Some new_chain).
  { intros w' s E'. rewrite E in E'. by injection E' as <- <-. }
  rewrite (arrival_step record w d k c st) by (done || by split_and!).
  rewrite E. cbn. split; [by split_and!|]. split; [done|]. by rewrite calls_app.
Qed.

Lemma arrival_fragment record w d k c st c' pt st' o :
  receiver w d k c st -> DirectHandshake.open record c = (c', Ok (DirectRecordKind.Fragment, pt)) ->
  add pt (now w) st = (st', Ok o) ->
  let w' := run (arrival d k record) w in
  receiver w' d k c' st' /\ now w' = now w /\
  calls (trace w') = calls (trace w) ++ match o with Some f => [CbFrame f] | None => [] end.
Proof.
  intros Hr Ho Hadd. cbv zeta. pose proof (handle_opened _ _ _ _ _ _ _ _ _ Hr Ho) as E.
  unfold handleRecord in E. change (DirectRecordKind.Fragment =? DirectRecordKind.Frame) with false in E.
  rewrite Z.eqb_refl in E. unfold bind, gets, on_reassembler in E. cbn beta iota in E.
  destruct Hr as ((Hc & Ha & Hd & Hk & Hst) & Hh & Hhs & Hre & Hch & Hl).
  change (now (set_codec c' w)) with (now w) in E.
  change (reassembler (this (set_codec c' w))) with (reassembler (this w)) in E. rewrite Hre, Hadd in E.
  cbn [of_result] in E.
  assert (Hafter : forall w' s, handleDataMessage record w = (w', Done s) ->
    s = None /\ receiveChains w' !! k = Some new_chain).
  { intros w' s E'. rewrite E in E'. by destruct o; injection E' as <- <-. }
  rewrite (arrival_step record w d k c st) by (done || by split_and!).
  rewrite E. destruct o as [f|]; cbn; (split; [by split_and!|]); (split; [done|]).
  - by rewrite calls_app.
  - by rewrite app_nil_r.
Qed.

(** ** A frame arrives *)

Lemma run_events_app l1 l2 w : run (l1 ++ l2) w = run l2 (run l1 w).
Proof. apply fold_left_app. Qed.

(** Sealed fragments, opened and reassembled. *)
Lemma fragments_arrive `{!CryptoLaws} frags c c' records p w d k st st' outs :
  seal_map DirectRecordKind.Fragment frags c = (c', Ok records) -> in_sync c p ->
  receiver w d k p st ->
  add_all (combine frags (replicate (length frags) (now w))) st = (st', Ok outs) ->
  exists p', let w' := run (arrivals d k records) w in
    receiver w' d k p' st' /\ in_sync c' p' /\ now w' = now w /\
    calls (trace w') = calls (trace w) ++ map CbFrame (omap id outs).
Proof.
  revert c records p w st outs. induction frags as [|f frags IH]; intros c records p w st outs Hs Hy Hr Ha;
    cbn [seal_map] in Hs; cbn [length replicate combine add_all] in Ha.
  - unfold mret in Hs, Ha. injection Hs as <- <-. injection Ha as <- <-. exists p. cbn.
    split_and!; [done|done|done|by rewrite app_nil_r].
  - unfold mbind in Hs. destruct (seal _ f c) as [c1 [r|m]] eqn:E1; [|done].
    destruct (seal_map _ frags c1) as [c2 [rs|m]] eqn:E2; [|done].
    unfold mret in Hs. injection Hs as <- <-.
    unfold mbind in Ha. destruct (add f (now w) st) as [st1 [o|m]] eqn:E3; [|done].
    destruct (add_all _ st1) as [st2 [os|m]] eqn:E4; [|done].
    unfold mret in Ha. injection Ha as <- <-.
    destruct (open_next _ _ _ _ _ _ E1 Hy) as [Ho Hy'].
    destruct (arrival_fragment r w d k p st _ f st1 o Hr Ho E3) as (Hr1 & Hn1 & Hc1).
    rewrite <- Hn1 in E4. destruct (IH _ _ _ _ _ _ E2 Hy' Hr1 E4) as (p' & Hr2 & Hy2 & Hn2 & Hc2).
    exists p'. unfold arrivals. cbn [flat_map]. fold (arrivals d k rs). rewrite run_events_app.
    split_and!; [done|done|congruence|]. rewrite Hc2, Hc1, <- app_assoc. f_equal. by destruct o.
Qed.

Lemma omap_replicate_none {A} n (l : list (option A)) : omap id (replicate n None ++ l) = omap id l.
Proof. by induction n. Qed.

(** A sealed frame, whatever its size. *)
Lemma frame_arrives `{!CryptoLaws} frame c c' records p w d k :
  bytes_ok frame -> sealFrame frame c = (c', Ok records) -> in_sync c p ->
  receiver w d k p new_reassembler ->
  exists p', let w' := run (arrivals d k records) w in
    receiver w' d k p' new_reassembler /\ in_sync c' p' /\
    calls (trace w') = calls (trace w) ++ [CbFrame frame].
Proof.
  intros Hb Hs Hy Hr. unfold sealFrame in Hs. destruct (_ <=? _).
  - unfold mbind in Hs. destruct (seal _ frame c) as [c1 [r|m]] eqn:E1; [|done].
    unfold mret in Hs. injection Hs as <- <-. destruct (open_next _ _ _ _ _ _ E1 Hy) as [Ho Hy'].
    destruct (arrival_frame r w d k p _ _ frame Hr Ho) as (Hr1 & _ & Hc1).
    unfold arrivals. cbn [flat_map]. rewrite app_nil_r. by eexists.
  - revert Hs. mrun. destruct (fragmentDirectFrame _ _) as [frags|m] eqn:Ef; [|done]. intros Hs.
    match type of Hs with seal_map _ _ ?c1 = _ => assert (Hy1 : in_sync c1 p) by exact Hy end.
    assert (Hlen : (0 < length frags)%nat).
    { pose proof (fragmentDirectFrame_ok _ _ _ Ef) as (_ & Hz & Hfr). inversion Hfr; subst; cbn; [|lia].
      unfold MAX_DIRECT_RECORD_PLAINTEXT in *. lia. }
    assert (Hadd : add_all (combine frags (replicate (length frags) (now w))) new_reassembler
      = (new_reassembler, Ok (replicate (length frags - 1) None ++ [Some frame]))).
    { destruct (length frags) as [|n] eqn:En; [lia|]. cbn [replicate]. rewrite <- En.
      apply (fragments_add_all (nextMessageId c)); [done|done|cbn; by rewrite length_replicate|].
      apply Forall_replicate. unfold DIRECT_REASSEMBLY_TIMEOUT_MS. lia. }
    destruct (fragments_arrive _ _ _ _ _ _ _ _ _ _ _ Hs Hy1 Hr Hadd) as (p' & Hr' & Hy' & _ & Hc').
    exists p'. split; [done|]. split; [done|]. cbv zeta. by rewrite Hc', omap_replicate_none.
Qed.

(** A closed client refuses the frame and is left as it is. *)
Lemma sendFrame_closed frame w : closed (this w) = true -> step (EvSendFrame frame) w = w.
Proof.
  intros Hc. rewrite step_sendFrame. unfold sendFrame, self. unfold bind at 1 2, gets, id. cbn beta iota.
  destruct (dc (this w)) as [d|]; [|done]. by rewrite Hc.
Qed.

Lemma run_sends_closed frames w :
  closed (this w) = true -> closed (this (run (map EvSendFrame frames) w)) = true.
Proof.
  intros Hc. induction frames as [|f fs IH]; [done|]. unfold run. cbn [map fold_left].
  by rewrite sendFrame_closed.
Qed.
End Delivery.
