(* ===== verification/DirectClientToy.v ===== *)
(** * A concrete attempt of the direct client, for the witnesses

    A browser in which nothing fails, a host that knows the account key, and
    the events of an attempt from the first signalling message to the
    authenticated route. *)

From S2P Require Import Prelude Bytes JsString JsMap Json JsonText DirectCrypto DirectFraming.
From S2P Require Import DirectHandshake EventLoop Transport DirectClient.

#[export] Instance toy_browser : Browser := {
  requestUUID _ := js "request-1";
  signal_socket_error _ := None;
  send_buffer_full _ := false;
}.

Module Attempt.
Definition session : jsstr := js "00112233-4455-6677-8899-aabbccddeeff".
Definition attempt_text : jsstr := js "0123abcd-4455-6677-8899-aabbccddeeff".
Definition account : bytes := repeat 9 32.
Definition options : DirectClientOptions :=
  mkClientOptions (mkDirectOptions (js "wss://relay.example/direct-signal") None session 0 (js "client-1") account)
    None None.

Definition start_world : ClientWorld := Eval vm_compute in
  match new_client options with
  | Ok c => init c 10
  | Throw _ => init (mkDirectClient options None None None None None new_reassembler [] JNull false
                       false false false false None 0 0 []) 10
  end.

Definition client : DirectClient := this start_world.

Definition text (fields : list (jsstr * Json)) : MessageData :=
  TextData (JSON_stringify (JObj ((js "version", jint 1) :: fields))).

Definition ticket_text : jsstr := js "AAAAAAAAAAAAAAAAAAAAAAAAAAAAAAAAAAAAAAAAAAA".

Definition attempt_message : MessageData :=
  text [(js "kind", JStr (js "direct_attempt")); (js "request_id", JStr (js "request-1"));
        (js "attempt_id", JStr attempt_text); (js "ticket", JStr ticket_text);
        (js "session_id", JStr session); (js "user_id", JStr (js "u")); (js "host_id", JStr (js "h"));
        (js "client_instance_id", JStr (js "client-1")); (js "permission", JStr (js "full"));
        (js "expires_at_unix_ms", jint 1000)].

Definition peer : Peer := mkPeer (js "new") (js "new").
Definition factories : Factories := mkFactories (Done peer) (Done (true, true, true)).

(** Up to the offer that is sent to the host. *)
Definition offer_events : list Event :=
  [EvStart; EvSocketOpen 0; EvSocketMessage 0 (text [(js "kind", JStr (js "hello_ok"))]);
   EvSocketMessage 0 attempt_message; EvAttempt 0 (KeyPair (Done (repeat 2 65, toy_jwk)));
   EvAttempt 0 (Connect factories); EvAttempt 0 (Settled (Done tt)); EvAttempt 0 (Settled (Done tt));
   EvAttempt 0 (Gathered (Some (JObj [(js "type", JStr (js "offer"))])))].

Definition authorization : DirectAuthorization :=
  mkAuthorization attempt_text (zeros 32) session (js "u") (js "h") (js "client-1") 3 1000.

(** The HOST_HELLO of a host that holds the account key. *)
Definition host_hello : bytes :=
  match marshalDirectTranscript (transcript_of authorization (repeat 2 65) (repeat 4 65)) with
  | Ok t => match buildDirectProof account t DirectRole.Host with
            | Ok proof => [1; 2] ++ repeat 4 65 ++ proof
            | Throw _ => []
            end
  | Throw _ => []
  end.

Definition receive (data : bytes) : list Event :=
  [EvChannelMessage 0 (BinaryData data); EvReceiveTurn 0].

(** And on to the authenticated route. *)
Definition authenticated_events : list Event :=
  offer_events ++ [EvChannelOpen 0] ++ receive host_hello ++ [EvReceiveResume 0; EvReceiveResume 0]
  ++ receive [1; 4].

(** The world of the authenticated client, and of a peer in step with it. *)
Definition live_world : ClientWorld := Eval vm_compute in run authenticated_events start_world.

Definition live_keys : DirectHandshakeKeys := Eval vm_compute in
  match codec (this live_world) with
  | Some c => codec_keys c
  | None => mkHandshakeKeys (mkTrafficKeys [] [] [] []) []
  end.

Definition peer_codec : DirectClientRecordCodec := new_codec (mirror live_keys).
Definition peer_world : ClientWorld :=
  live_world <| this := (this live_world) <| codec := Some peer_codec |> |>.

(** A frame that fits a record, and one that does not. *)
Definition frames : list bytes := [[1; 2; 3]; replicate (Z.to_nat 16390) 7].
End Attempt.
