(* ===== verification/DirectClientProps.v ===== *)
(** * What the direct client guarantees

    The order of its callbacks, that it is inert once closed, that an attempt
    under way always has its timer, and the properties of the authenticated
    route. *)

From S2P Require Import Prelude Bytes JsString JsMap Json JsonText DirectCrypto DirectFraming.
From S2P Require Import DirectHandshake EventLoop Transport DirectClient DirectClientInv DirectClientAuth.
From S2P Require Import DirectClientDelivery DirectClientToy.

(** ** A closed client *)

(** Effects that a closed client does not have: everything but diagnostics
    and calls on a peer connection it has closed. *)
Definition active (e : Effect) : Prop :=
  match e with Calls (CbDiagnostics _) | PeerCall _ _ => False | _ => True end.

#[export] Instance active_dec e : Decision (active e).
Proof. destruct e as [| | | | | | | | | |[]]; apply _. Defined.

Section Closed.
Context `{Crypto} `{WebCrypto} `{JsText} `{Browser}.

Definition at_rest (c : DirectClient) : Prop :=
  closed c = true /\ signalWS c = None /\ dc c = None /\ pc c = None.

Definition resting (T : list Effect) (w : ClientWorld) : Prop :=
  at_rest (this w) /\ filter active (trace w) = T.

Lemma rest_self {A B} T (f : DirectClient -> A) (k : A -> M B) :
  (forall c, at_rest c -> keeps (resting T) (k (f c))) -> keeps (resting T) (bind (self f) k).
Proof. intros Hk w Hw. apply (Hk (this w)); [by destruct Hw|done]. Qed.

Lemma rest_gets {A B} T (f : ClientWorld -> A) (k : A -> M B) :
  (forall a, keeps (resting T) (k a)) -> keeps (resting T) (bind (gets f) k).
Proof. intros Hk w Hw. by apply Hk. Qed.

Lemma rest_modify T (f : ClientWorld -> ClientWorld) :
  (forall w, this (f w) = this w /\ trace (f w) = trace w) -> keeps (resting T) (modify f).
Proof. intros Hf w Hw. unfold modify, resting. cbn. destruct (Hf w) as [-> ->]. exact Hw. Qed.

Lemma rest_assign T f : (forall c, at_rest c -> at_rest (f c)) -> keeps (resting T) (assign f).
Proof. intros Hf w [Hr Ht]. split; [by apply Hf|done]. Qed.

Lemma rest_emit T e : ~ active e -> keeps (resting T) (emit e).
Proof.
  intros He w [Hr Ht]. split; [done|]. unfold emit, modify. cbn. rewrite filter_app, Ht.
  rewrite filter_cons_False by done. by rewrite app_nil_r.
Qed.

Lemma rest_fail T e : keeps (resting T) (fail e).
Proof. intros w Hw. destruct Hw as [Hr Ht]. rewrite fail_closed by apply Hr. by split. Qed.

Lemma rest_finish T : keeps (resting T) finish.
Proof. intros w [Hr Ht]. rewrite finish_closed by apply Hr. by split. Qed.

Lemma rest_sendSignal T m : keeps (resting T) (sendSignal m).
Proof.
  apply rest_self. intros c (_ & Hs & _). rewrite Hs. intros w Hw. exact Hw.
Qed.

Lemma rest_on_handshake {A} T i (m : method DirectClientHandshake A) :
  keeps (resting T) (on_handshake i m).
Proof.
  intros w Hw. unfold on_handshake. destruct (handshakes w !! i); [|done]. by destruct (m _).
Qed.

Lemma rest_catch {A} T (m : M A) h :
  keeps (resting T) m -> (forall e, keeps (resting T) (h e)) -> keeps (resting T) (catch m h).
Proof. apply keeps_catch. Qed.

Lemma rest_bind {A B} T (m : M A) (k : A -> M B) :
  keeps (resting T) m -> (forall a, keeps (resting T) (k a)) -> keeps (resting T) (bind m k).
Proof. apply act_keeps_bind. Qed.
End Closed.

#[export] Hint Resolve rest_fail rest_finish rest_sendSignal rest_on_handshake act_keeps_ret keeps_raise
  keeps_answer : rest.
#[export] Hint Extern 3 (keeps (resting _) (emit _)) => apply rest_emit; cbn; tauto : rest.
#[export] Hint Extern 3 (keeps (resting _) (assign _)) =>
  apply rest_assign; unfold at_rest; intros ? (? & ? & ? & ?); by split_and! : rest.
#[export] Hint Extern 3 (keeps (resting _) (modify _)) => apply rest_modify; intros ?; by split : rest.

(** Walks through a method of a client at rest; what it reads from the object
    is known. *)
Ltac rest_tac :=
  repeat first
    [ solve [auto with rest]
    | match goal with
      | |- keeps (resting _) (bind (self _) _) =>
          apply rest_self;
          let c := fresh "c" in let E1 := fresh "E" in let E2 := fresh "E" in
          let E3 := fresh "E" in let E4 := fresh "E" in
          intros c (E1 & E2 & E3 & E4); cbv beta; cbn [id]; rewrite ?E1, ?E2, ?E3, ?E4, ?orb_true_r
      | |- keeps (resting _) (bind (gets _) _) => apply rest_gets; intros ?
      | |- keeps (resting _) (bind _ _) => apply rest_bind; [|intros ?]
      | |- keeps (resting _) (catch _ _) => apply rest_catch; [|intros ?]
      | |- keeps (resting _) (if ?b then _ else _) => destruct b
      | |- keeps (resting _) (match ?x with _ => _ end) => destruct x
      | |- keeps (resting _) (when ?b _) => unfold when
      end
    | progress cbn [orb andb negb] ].

Section Rest.
Context `{Crypto} `{WebCrypto} `{JsText} `{Browser} `{Owner}.

Lemma rest_attempt_resume T a ans : keeps (resting T) (attempt_resume a ans).
Proof.
  unfold attempt_resume, attempt_continue, beginAttempt_connect, beginAttempt_offer, set_attempt. rest_tac.
Qed.

Lemma rest_ws_onmessage T data : keeps (resting T) (ws_onmessage data).
Proof. unfold ws_onmessage, handleSignal. rest_tac. Qed.

Lemma rest_signal_turn T k : keeps (resting T) (signal_turn k).
Proof. unfold signal_turn, modify_signal_chain, applyRemoteSignal. rest_tac. Qed.

Lemma rest_receive_turn T k : keeps (resting T) (receive_turn k).
Proof. unfold receive_turn, modify_receive_chain, handleDataMessage. rest_tac. Qed.

Lemma rest_settled {A} T (m : M A) : keeps (resting T) m -> keeps (resting T) (settled m).
Proof. apply keeps_settled. Qed.
Hint Resolve rest_settled : rest.

Lemma rest_receive_resume T k : keeps (resting T) (receive_resume k).
Proof. unfold receive_resume, modify_receive_chain, this_dc_send. rest_tac. Qed.
Hint Resolve rest_attempt_resume rest_ws_onmessage rest_signal_turn rest_receive_turn
  rest_receive_resume : rest.

Lemma rest_dispatch_most T e :
  (forall d, e <> EvChannelOpen d) -> (forall t, e <> EvTimer t) -> keeps (resting T) (dispatch e).
Proof.
  intros Hd Ht. destruct e; cbn [dispatch];
    unfold start, sendFrame, close, ws_onopen, ws_onclose, set_socket, reportDiagnostics,
      pc_onconnectionstatechange, reportSelectedCandidateType, notifyDiagnostics, signal_settled,
      modify_signal_chain, dc_onmessage, modify_receive_chain, set_channel_state, set_buffered;
    try (by exfalso; eapply Hd); try (by exfalso; eapply Ht); rest_tac.
Qed.

(** A closed client at any event. *)
Lemma rest_dispatch T e w :
  inv (view w) -> closed (this w) = true -> resting T w -> resting T (fst (dispatch e w)).
Proof.
  intros Hi Hc Hw. destruct Hi as [[_ Hr _ _ _ _ _ _ _] _].
  destruct (Hr Hc) as (_ & _ & _ & _ & _ & Et & _ & Hh). cbn in Et, Hh.
  destruct e; try (by apply rest_dispatch_most).
  - cbn [dispatch]. unfold bind, gets. cbn beta iota. rewrite Et. exact Hw.
  - cbn [dispatch]. unfold bind at 1, gets. cbn beta iota.
    destruct (channel_is d [CONNECTING] w) eqn:Ed; [|exact Hw]. cbn [when].
    destruct Hh as [Hh|Hh]; [|unfold channel_is in Ed; by destruct (channels w)].
    unfold set_channel_state, modify, bind at 1. cbn beta iota. set (w1 := w <| channels := _ |>).
    assert (Eo : dc_onopen d w1 = fail (js "direct handshake unavailable") w1).
    { unfold dc_onopen, self, catch, bind, gets. change (handshake (this w1)) with (handshake (this w)).
      by rewrite Hh. }
    rewrite Eo. by apply rest_fail.
Qed.
End Rest.

(** ** The timer *)

Section Timer.
Context `{Crypto} `{WebCrypto} `{JsText} `{Browser}.

(** [finish] calls nobody back. *)
Definition uncalled {A} (m : M A) : Prop := forall C, keeps (fun w => calls (trace w) = C) m.

Lemma uncalled_modify f : (forall w, trace (f w) = trace w) -> uncalled (modify f).
Proof. intros Hf C w Hw. unfold modify. cbn. by rewrite Hf. Qed.

Lemma uncalled_emit e : calls [e] = [] -> uncalled (emit e).
Proof. intros He C w Hw. unfold emit, modify. cbn. by rewrite calls_app, He, app_nil_r. Qed.

Lemma uncalled_bind {A B} (m : M A) (k : A -> M B) :
  uncalled m -> (forall a, uncalled (k a)) -> uncalled (bind m k).
Proof. intros Hm Hk C. apply act_keeps_bind; [apply Hm|]. intros a. apply Hk. Qed.

Lemma uncalled_gets {A} (f : ClientWorld -> A) : uncalled (gets f).
Proof. by intros C w Hw. Qed.

Lemma uncalled_close_opt f o : (forall i, uncalled (f i)) -> uncalled (close_opt f o).
Proof.
  intros Hf C. destruct o as [i|]; cbn [close_opt]; [|apply act_keeps_ret]. apply keeps_attempt, Hf.
Qed.

Lemma uncalled_when b m : uncalled m -> uncalled (when b m).
Proof. intros Hm C. apply keeps_when, Hm. Qed.

Lemma uncalled_finish : uncalled finish.
Proof.
  assert (Hret : uncalled (ret tt)) by (intros C; apply act_keeps_ret).
  unfold finish, self. apply uncalled_bind; [apply uncalled_gets|]. intros [|]; [exact Hret|].
  repeat match goal with |- uncalled (bind _ _) => apply uncalled_bind; [|intros ?] end;
    try first [apply uncalled_gets | by apply uncalled_modify | apply uncalled_close_opt; intros ?].
  - unfold clear_timeout, self. apply uncalled_bind; [apply uncalled_gets|]. intros [x|]; [|exact Hret].
    apply uncalled_bind; [by apply uncalled_modify|]. intros _. by apply uncalled_modify.
  - unfold dispose_handshake, self. apply uncalled_bind; [apply uncalled_gets|].
    intros [x|]; [|exact Hret]. by apply uncalled_modify.
  - unfold ws_close. apply uncalled_bind; [apply uncalled_gets|]. intros st. apply uncalled_when.
    apply uncalled_bind; [by apply uncalled_modify|]. intros _. by apply uncalled_emit.
  - unfold dc_close. apply uncalled_bind; [apply uncalled_gets|]. intros st. apply uncalled_when.
    apply uncalled_bind; [by apply uncalled_modify|]. intros _. by apply uncalled_emit.
  - by apply uncalled_emit.
Qed.

(** A failure before the authentication is the only callback. *)
Lemma fail_calls e w : closed (this w) = false -> authenticated (this w) = false ->
  calls (trace (fst (fail e w))) = calls (trace w) ++ [CbFailure e].
Proof.
  intros Hc Ha. unfold fail, self, when, bind, gets. rewrite Hc, Ha. cbn [ret].
  pose proof (goes_finish w Hc) as [_ Hr]. pose proof (uncalled_finish _ w eq_refl) as Hk.
  destruct (finish w) as [w1 o]. cbn in Hr, Hk. subst o. unfold emit, modify. cbn. by rewrite calls_app, Hk.
Qed.

Lemma view_closed_timers w v : view w = v -> closed (this w) = v_closed v /\ timers w = v_timers v.
Proof. by intros <-. Qed.

Lemma timer_step tm w : tm ∈ timers w ->
  step (EvTimer tm) w
  = fst (timer_fired (w <| timers := filter (fun t => t <> tm) (timers w) |>)).
Proof.
  intros Hin. unfold step. cbn [dispatch]. unfold bind at 1, gets at 1. cbn beta iota.
  rewrite bool_decide_eq_true_2 by done. reflexivity.
Qed.

Lemma open_fails e w p :
  closed (this w) = false -> authenticated (this w) = false -> v_phase (view w) = Some p -> p <> Over ->
  Forall (fun t => timeout (this w) = Some t) (timers w) ->
  let w' := fst (fail e w) in
  closed (this w') = true /\ timers w' = [] /\ calls (trace w') = calls (trace w) ++ [CbFailure e].
Proof.
  intros Hc Ha Hp Ho Ht. cbv zeta. rewrite (fail_calls e w Hc Ha).
  destruct (goes_fail e w p Hc Hp Ho) as [Ev _].
  destruct (view_closed_timers _ _ Ev) as [E1 E2]. rewrite E1, E2. split_and!; [done| |done].
  exact (filter_all_same _ _ Ht).
Qed.

(** The timeout of an attempt that is not authenticated. *)
Lemma timer_fails `{Owner} tm w :
  inv0 (view w) -> closed (this w) = false -> authenticated (this w) = false -> tm ∈ timers w ->
  let w' := step (EvTimer tm) w in
  closed (this w') = true /\ timers w' = [] /\
  calls (trace w') = calls (trace w) ++ [CbFailure (js "direct attempt timed out")].
Proof.
  intros Hi Hc Ha Hin. cbv zeta. destruct (open_phase _ Hi Hc) as (p & Hp & Ho).
  rewrite (timer_step tm w Hin). unfold timer_fired. generalize (js "direct attempt timed out"). intros e.
  change (calls (trace w)) with (calls (trace (w <| timers := filter (fun t => t <> tm) (timers w) |>))).
  set (w1 := w <| timers := _ |>). pose proof (open_fails e w1 p Hc Ha Hp Ho) as Hf.
  cbv zeta in Hf. apply Hf.
  pose proof (inv_timers _ Hi) as Hall. rewrite Forall_forall in *. intros u Hu.
  apply list_elem_of_filter in Hu as [_ Hu]. by apply Hall.
Qed.
End Timer.

(** ** Properties of every run *)

Section Runs.
Context `{Crypto} `{WebCrypto} `{JsText} `{Browser}.

(** C9. The callbacks come in the order the connection relies on: at most one
    [onAuthenticated], frames and the end of replay only after it, at most one
    [onFailure] and nothing but diagnostics after it. An open client has
    reported no failure; a closed one whose owner did not close it has: a
    direct route never ends in silence. *)
Theorem callbacks_in_order (o : DirectClientOptions) (c : DirectClient) (t : Z) (events : list Event)
    (Hnew : new_client o = Ok c) :
  let w := run events (init c t) in
  exists p, observe_all Attempting (calls (trace w)) = Some p /\
    (closed (this w) = false -> p = if authenticated (this w) then Live else Attempting) /\
    (EvClose ∉ events -> closed (this w) = true -> p = Over).
Proof.
  intros w. destruct (@inv_run _ _ _ _ true o c t events (or_introl eq_refl) Hnew)
    as [[(p & Hp & Hp') _ _ _ _ _ _ _ _] _].
  exists p. split; [exact Hp|]. split; [exact Hp'|]. intros He Hc.
  destruct (@inv_run _ _ _ _ false o c t events (or_intror He) Hnew) as [[_ _ _ _ _ _ _ _ I10] _].
  specialize (I10 eq_refl Hc). change (v_phase (view w) = Some Over) in I10.
  change (v_phase (view w) = Some p) in Hp. congruence.
Qed.

(** A closed client is inert: whatever happens next, nothing is sent,
    opened, scheduled or reported (diagnostics aside), it holds no socket,
    channel, codec or timer, and its copy of the account key is erased. *)
Theorem closed_client_inert (o : DirectClientOptions) (c : DirectClient) (t : Z)
    (before after : list Event) (Hnew : new_client o = Ok c)
    (Hclosed : closed (this (run before (init c t))) = true) :
  let w := run before (init c t) in
  let w' := run after w in
  closed (this w') = true /\ released (view w') /\ filter active (trace w') = filter active (trace w).
Proof.
  intros w w'. assert (Hi : @inv true (view w)) by exact (@inv_run _ _ _ _ true o c t _ (or_introl eq_refl) Hnew).
  assert (Hr : resting (filter active (trace w)) w).
  { destruct Hi as [[_ I2 _ _ _ _ _ _ _] _]. destruct (I2 Hclosed) as (? & ? & ? & _). by split. }
  unfold w'. fold w in Hclosed. clearbody w. revert Hi Hr Hclosed. generalize (filter active (trace w)) as T.
  clear w'. revert w. induction after as [|e after IH]; intros w T Hi Hr Hc.
  - destruct Hr as [_ Ht]. unfold run. cbn [fold_left]. split; [done|]. split; [|done].
    destruct Hi as [[_ I2 _ _ _ _ _ _ _] _]. by apply I2.
  - assert (Hr' : resting T (step e w)) by (by apply (@rest_dispatch _ _ _ _ true)).
    unfold run. cbn [fold_left]. apply IH; [|done|apply Hr'].
    apply (@inv_dispatch _ _ _ _ true); [by left|done].
Qed.

(** C11. An attempt cannot hang: until it is authenticated or closed, a
    started client has its timeout pending, and when that fires it reports the
    failure and is closed. *)
Theorem attempt_ends (o : DirectClientOptions) (c : DirectClient) (t : Z) (events : list Event)
    (Hnew : new_client o = Ok c)
    (Hopen : let c := this (run events (init c t)) in
             started c = true /\ closed c = false /\ authenticated c = false) :
  let w := run events (init c t) in
  exists timer, timeout (this w) = Some timer /\ timer ∈ timers w /\
    let w' := step (EvTimer timer) w in
    closed (this w') = true /\ timers w' = [] /\
    calls (trace w') = calls (trace w) ++ [CbFailure (js "direct attempt timed out")].
Proof.
  intros w. assert (Hi : @inv true (view w)) by exact (@inv_run _ _ _ _ true o c t _ (or_introl eq_refl) Hnew).
  destruct Hopen as (Hs & Hc & Ha). destruct Hi as [Hi0 Harm].
  destruct (Harm Hs Hc Ha) as (tm & Et & Hin). exists tm. split; [done|]. split; [done|].
  pose proof (timer_fails tm w Hi0 Hc Ha Hin) as (E1 & E2 & E3). by split_and!.
Qed.

(** C8. The direct route is authenticated: when the client reports
    [onAuthenticated], some message received on the data channel proved the
    account key over the transcript of the client's attempt, and the keys in
    use while the client is open and authenticated are those derived from that
    key and the host it proved. The attempt is the one of the client's
    [attemptId]: its authorization is made of the fields of a [direct_attempt]
    message received that answers the client's request, for its session and
    its client instance, and its key pair is the one the browser drew for it
    ([authentic], [offer]). *)
Theorem host_authenticated (o : DirectClientOptions) (c : DirectClient) (t : Z) (events : list Event)
    (Hnew : new_client o = Ok c) :
  let w := run events (init c t) in
  let aid := attemptId (this w) in
  (CbAuthenticated ∈ calls (trace w) -> exists k, authentic o events aid k) /\
  (closed (this w) = false -> authenticated (this w) = true ->
   exists cd, codec (this w) = Some cd /\ authentic o events aid (codec_keys cd)).
Proof.
  intros w aid. destruct (@auth_run _ _ _ _ true o c t events (or_introl eq_refl) Hnew) as (_ & Ha & Hopen).
  split; [exact Ha|]. intros Hc Hau. destruct (Hopen Hc) as [_ _ _ I4].
  destruct (I4 Hau) as (k & E & Hk). fold w in E. destruct (codec (this w)) as [cd|]; [|done].
  injection E as <-. by exists cd.
Qed.
End Runs.

(** C10. Frames cross the direct route once and in order: if a client is still
    open after sending frames of any size, what it put on the channel makes a
    peer that is in step report exactly these frames, in this order. *)
Theorem frames_delivered `{CryptoLaws} `{WebCrypto} `{JsText} `{Browser} (frames : list bytes)
    (ws wr : ClientWorld) (d d' k : nat) (c p : DirectClientRecordCodec)
    (Hbytes : Forall bytes_ok frames) (Hsender : sender ws d c)
    (Hreceiver : receiver wr d' k p new_reassembler) (Hsync : in_sync c p)
    (Hopen : closed (this (run (map EvSendFrame frames) ws)) = false) :
  exists records,
    sent_on d (trace (run (map EvSendFrame frames) ws)) = sent_on d (trace ws) ++ records /\
    calls (trace (run (arrivals d' k records) wr)) = calls (trace wr) ++ map CbFrame frames.
Proof.
  revert ws wr c p Hsender Hreceiver Hsync Hopen.
  induction Hbytes as [|f fs Hf Hfs IH]; intros ws wr c p Hs Hr Hy Ho.
  - exists []. cbn. by rewrite !app_nil_r.
  - unfold run in Ho |- *. cbn [map fold_left] in Ho |- *.
    fold (run (map EvSendFrame fs) (step (EvSendFrame f) ws)) in *.
    destruct (closed (this (step (EvSendFrame f) ws))) eqn:Hc.
    { by rewrite run_sends_closed in Ho. }
    destruct (sendFrame_sends f ws d c Hs Hc) as (c1 & rs & E & Hs1 & R1).
    destruct (frame_arrives f c c1 rs p wr d' k Hf E Hy Hr) as (p1 & Hr1 & Hy1 & C1).
    destruct (IH _ _ _ _ Hs1 Hr1 Hy1 Ho) as (rest & R2 & C2).
    exists (rs ++ rest). split; [by rewrite R2, R1, app_assoc|].
    unfold arrivals in *. rewrite flat_map_app.
    change (calls (trace (run (flat_map (arrival d' k) rs ++ flat_map (arrival d' k) rest) wr))
      = calls (trace wr) ++ CbFrame f :: map CbFrame fs).
    rewrite run_events_app, C2, C1, <- app_assoc. done.
Qed.

(** ** Witnesses *)

Lemma toy_client_new : new_client Attempt.options = Ok Attempt.client.
Proof. vm_compute. reflexivity. Qed.

Lemma callbacks_in_order_witness :
  let events := Attempt.authenticated_events ++ [EvChannelError 0] in
  let w := run events (init Attempt.client 10) in
  new_client Attempt.options = Ok Attempt.client /\
  calls (trace w) = [CbDiagnostics (mkDiagnostics None (Some (js "new")) None); CbAuthenticated;
                     CbFailure (js "direct data channel error")] /\
  exists p, observe_all Attempting (calls (trace w)) = Some p /\
    (EvClose ∉ events -> closed (this w) = true -> p = Over).
Proof.
  cbv zeta. split; [exact toy_client_new|]. split; [vm_compute; reflexivity|].
  destruct (callbacks_in_order Attempt.options Attempt.client 10
    (Attempt.authenticated_events ++ [EvChannelError 0]) toy_client_new) as (p & Hp & _ & Ho).
  exists p. split; [exact Hp|exact Ho].
Defined.

Lemma closed_client_inert_witness :
  let before := Attempt.authenticated_events ++ [EvClose] in
  let after := [EvSendFrame [1]; EvChannelMessage 0 (BinaryData [2]); EvReceiveTurn 0] in
  let w := run before (init Attempt.client 10) in
  let w' := run after w in
  closed (this w) = true /\
  closed (this w') = true /\ released (view w') /\ filter active (trace w') = filter active (trace w).
Proof.
  cbv zeta.
  assert (Hc : closed (this (run (Attempt.authenticated_events ++ [EvClose]) (init Attempt.client 10))) = true)
    by (vm_compute; reflexivity).
  split; [exact Hc|].
  exact (closed_client_inert Attempt.options Attempt.client 10 (Attempt.authenticated_events ++ [EvClose])
    [EvSendFrame [1]; EvChannelMessage 0 (BinaryData [2]); EvReceiveTurn 0] toy_client_new Hc).
Defined.

Lemma attempt_ends_witness :
  let w := run Attempt.offer_events (init Attempt.client 10) in
  (started (this w) = true /\ closed (this w) = false /\ authenticated (this w) = false) /\
  exists timer, timeout (this w) = Some timer /\ timer ∈ timers w /\
    let w' := step (EvTimer timer) w in
    closed (this w') = true /\ timers w' = [] /\
    calls (trace w') = calls (trace w) ++ [CbFailure (js "direct attempt timed out")].
Proof.
  cbv zeta.
  assert (Ho : let c := this (run Attempt.offer_events (init Attempt.client 10)) in
    started c = true /\ closed c = false /\ authenticated c = false) by (vm_compute; auto).
  split; [exact Ho|].
  exact (attempt_ends Attempt.options Attempt.client 10 Attempt.offer_events toy_client_new Ho).
Defined.

Lemma host_authenticated_witness :
  let w := run Attempt.authenticated_events (init Attempt.client 10) in
  CbAuthenticated ∈ calls (trace w) /\
  exists k, authentic Attempt.options Attempt.authenticated_events (attemptId (this w)) k.
Proof.
  cbv zeta.
  destruct (host_authenticated Attempt.options Attempt.client 10 Attempt.authenticated_events
    toy_client_new) as [Ha _].
  assert (Hin : CbAuthenticated ∈ calls (trace (run Attempt.authenticated_events (init Attempt.client 10)))).
  { vm_compute. right. left. }
  split; [exact Hin|exact (Ha Hin)].
Defined.

Lemma frames_delivered_witness :
  let ws := Attempt.live_world in
  let wr := Attempt.peer_world in
  exists records,
    closed (this (run (map EvSendFrame Attempt.frames) ws)) = false /\
    sent_on 0 (trace (run (map EvSendFrame Attempt.frames) ws)) = sent_on 0 (trace ws) ++ records /\
    calls (trace (run (arrivals 0 0 records) wr)) = calls (trace wr) ++ map CbFrame Attempt.frames.
Proof.
  cbv zeta.
  assert (Hb : Forall bytes_ok Attempt.frames)
    by (apply (bool_decide_eq_true_1 (Forall bytes_ok Attempt.frames)); vm_compute; reflexivity).
  assert (Hs : sender Attempt.live_world 0 (new_codec Attempt.live_keys))
    by (unfold sender; split_and!; vm_compute; reflexivity).
  assert (Hr : receiver Attempt.peer_world 0 0 Attempt.peer_codec new_reassembler)
    by (unfold receiver, sender; split_and!; first [discriminate | vm_compute; reflexivity]).
  assert (Hy : in_sync (new_codec Attempt.live_keys) Attempt.peer_codec) by (split; reflexivity).
  assert (Ho : closed (this (run (map EvSendFrame Attempt.frames) Attempt.live_world)) = false)
    by (vm_compute; reflexivity).
  destruct (frames_delivered Attempt.frames Attempt.live_world Attempt.peer_world 0 0 0
    (new_codec Attempt.live_keys) Attempt.peer_codec Hb Hs Hr Hy Ho) as (records & E1 & E2).
  exists records. split; [exact Ho|]. split; [exact E1|exact E2].
Defined.
