(* ===== verification/NativeDirect.v ===== *)
(** * The native direct client transport
      ([src/desktop/frontend/src/lib/nativeDirectClient.ts])

    The adapter that the desktop uses instead of [DirectClient]: the native
    host runs the attempt and authenticates it; the adapter subscribes to the
    events of its attempt, turns them into the callbacks of a transport, and
    hands the frames it is given to the host one at a time. The bridge is the
    environment: what it reports are the events of [Event]. *)

From S2P Require Import Prelude Bytes JsString JsMap Json EventLoop Transport.

(** *** Data *)

Inductive NativePeerRoute := RouteDirect | RouteLan | RouteQuickTunnel.

(** [DirectClientOptions] without the account key, and a route. *)
Record NativeDirectClientOptions := mkNativeOptions {
  native_sessionId : jsstr;
  native_sinceSeq : Z;
  native_clientInstanceId : jsstr;
  native_route : option NativePeerRoute;
}.

(** The argument of [bridge.start]. *)
Record StartRequest := mkStartRequest {
  req_id : jsstr;
  req_session_id : jsstr;
  req_since_seq : Z;
  req_client_instance_id : jsstr;
  req_route : option NativePeerRoute;
}.

Inductive Effect :=
  | Subscribe (event : jsstr)
  | Unsubscribe (event : jsstr)
  | BridgeStart (req : StartRequest)
  | BridgeSend (id : jsstr) (frame : bytes)
  | BridgeStop (id : jsstr)
  | Calls (cb : Callback).

(** The object. [off] is the name it is subscribed to, if any; [sendChain] the
    frames queued and whether a [bridge.send] is awaited. *)
Record NativeClient := mkNativeClient {
  options : NativeDirectClientOptions;
  id : jsstr;
  eventPrefix : jsstr;
  off : option jsstr;
  sendChain : Chain bytes unit;
  started : bool;
  authenticated : bool;
  closed : bool;
}.
#[export] Instance eta_native_client : Eta NativeClient :=
  fun r => mkNativeClient (options r) (id r) (eventPrefix r) (off r) (sendChain r) (started r)
    (authenticated r) (closed r).

(** With the promise of [bridge.start] not settled yet, and what was done. *)
Record NativeWorld := mkNativeWorld {
  this : NativeClient;
  startPending : bool;
  trace : list Effect;
}.
#[export] Instance eta_native_world : Eta NativeWorld :=
  fun r => mkNativeWorld (this r) (startPending r) (trace r).

Definition M (A : Type) : Type := Act NativeWorld A.
Definition self {A} (f : NativeClient -> A) : M A := gets (fun w => f (this w)).
Definition assign (f : NativeClient -> NativeClient) : M unit :=
  modify (fun w => w <| this := f (this w) |>).
Definition emit (e : Effect) : M unit := modify (fun w => w <| trace := trace w ++ [e] |>).

Definition new_native (uuid prefix : jsstr) (o : NativeDirectClientOptions) : NativeClient :=
  mkNativeClient o uuid prefix None new_chain false false false.

Definition nativeAttemptId : M jsstr := self id.

(** *** Ending *)

Definition finish : M unit :=
  let! already := self closed in
  if already then ret tt else
  let! _ := assign (fun c => c <| closed := true |> <| authenticated := false |>) in
  let! c := self (fun c => c) in
  let! _ := match off c with Some event => emit (Unsubscribe event) | None => ret tt end in
  let! _ := assign (fun c => c <| off := None |>) in
  emit (BridgeStop (id c)).

Definition fail (error : jsstr) : M unit :=
  let! already := self closed in
  if already then ret tt else
  let! _ := finish in
  emit (Calls (CbFailure error)).

Definition close : M unit := finish.

(** *** Starting and sending *)

Definition start : M unit :=
  let! c := self (fun c => c) in
  if started c || closed c then ret tt else
  let! _ := assign (fun c => c <| started := true |>) in
  let event := eventPrefix c ++ id c in
  let! _ := emit (Subscribe event) in
  let! _ := assign (fun c => c <| off := Some event |>) in
  let o := options c in
  let! _ := emit (BridgeStart (mkStartRequest (id c) (native_sessionId o) (native_sinceSeq o)
                                 (native_clientInstanceId o) (native_route o))) in
  modify (fun w => w <| startPending := true |>).

Definition sendFrame (frame : bytes) : M bool :=
  let! c := self (fun c => c) in
  if closed c || negb (authenticated c) then ret false else
  let! _ := assign (fun c => c <| sendChain := chain_then frame (sendChain c) |>) in
  ret true.

(** The next job of the chain: [this.bridge.send(this.id, copy)], awaited. *)
Definition send_turn : M unit :=
  let! c := self (fun c => c) in
  match chain_next (sendChain c) with
  | None => ret tt
  | Some (frame, rest) =>
      let! _ := assign (fun c => c <| sendChain := chain_suspend (Some tt) rest |>) in
      emit (BridgeSend (id c) frame)
  end.

(** Its promise settles: [.catch((error) => this.fail(error))]. *)
Definition send_settled (o : outcome unit) : M unit :=
  let! chain := self sendChain in
  match suspended_job chain with
  | None => ret tt
  | Some _ =>
      let! _ := assign (fun c => c <| sendChain := chain_suspend None chain |>) in
      catch (answer o) fail
  end.

(** *** Events of the host *)

Definition decodeBase64 (value : jsstr) : outcome bytes :=
  match atob_text value with
  | Some out => Done out
  | None => Raise (js "InvalidCharacterError")
  end.

(** [value === a || value === b || ... ? value : undefined] *)
Definition one_of (allowed : list string) (value : option Json) : option jsstr :=
  match as_string value with
  | Some s => if existsb (fun a => bool_decide (js a = s)) allowed then Some s else None
  | None => None
  end.

Definition diagnostics (event : list (jsstr * Json)) : option DirectTransportDiagnostics :=
  let route := one_of ["direct"; "lan"; "quick_tunnel"] (field event "route") in
  let iceState := one_of ["new"; "checking"; "connected"; "completed"; "failed"; "disconnected"; "closed"]
                    (field event "ice_state") in
  match route, iceState with
  | None, None => None
  | _, _ => Some (mkDiagnostics route iceState
                    (one_of ["host"; "srflx"; "prflx"; "relay"] (field event "candidate_type")))
  end.

(** The object tested by [!data || typeof data !== "object"], as the fields
    that are read from it: an array has none of them. *)
Definition event_fields (data : option Json) : option (list (jsstr * Json)) :=
  match data with
  | Some (JObj fields) => Some fields
  | Some (JArr _) => Some []
  | _ => None
  end.

Section Native.
Context `{JsText}.

Definition handleEvent (data : option Json) : M unit :=
  let! isClosed := self closed in
  match event_fields data with
  | None => ret tt
  | Some event =>
      if isClosed then ret tt else
      let kind := field event "kind" in
      catch (
        if is_text kind (js "authenticated") then
          let! _ := assign (fun c => c <| authenticated := true |>) in
          emit (Calls CbAuthenticated)
        else if is_text kind (js "frame") then
          match as_string (field event "frame_base64") with
          | None => raise (js "native direct frame is missing")
          | Some text =>
              let! frame := answer (decodeBase64 text) in
              emit (Calls (CbFrame frame))
          end
        else if is_text kind (js "ready") then
          match safe_integer (field event "last_replayed_seq") with
          | None => raise (js "invalid native direct replay cursor")
          | Some seq =>
              raise_if (seq <? 0) "invalid native direct replay cursor" ;;;
              emit (Calls (CbReady seq))
          end
        else if is_text kind (js "diagnostics") then
          match diagnostics event with
          | Some value => emit (Calls (CbDiagnostics value))
          | None => ret tt
          end
        else if is_text kind (js "failure") then
          let error := field event "error" in
          fail (if truthy error then template error else js "native direct connection failed")
        else raise (js "unexpected native direct event: " ++ template kind)) fail
  end.

(** *** The event loop

    [EvCallbackThrew]: a callback is the last statement of its branch of
    [handleEvent], so an error it throws reaches the [catch] there.
    [EvBridgeEvent] reaches the handler while it is subscribed. *)

Inductive Event :=
  | EvStart
  | EvSendFrame (frame : bytes)
  | EvClose
  | EvCallbackThrew (error : jsstr)
  | EvBridgeEvent (data : option Json)
  | EvStartSettled (o : outcome unit)
  | EvSendTurn
  | EvSendSettled (o : outcome unit).

Definition dispatch (e : Event) : M unit :=
  match e with
  | EvStart => start
  | EvSendFrame frame => let! _ := sendFrame frame in ret tt
  | EvClose => close
  | EvCallbackThrew error => fail error
  | EvBridgeEvent data =>
      let! subscribed := self off in
      when (bool_decide (subscribed <> None)) (handleEvent data)
  | EvStartSettled o =>
      let! pending := gets startPending in
      when pending (
        let! _ := modify (fun w => w <| startPending := false |>) in
        catch (answer o) fail)
  | EvSendTurn => send_turn
  | EvSendSettled o => send_settled o
  end.

Definition step (e : Event) (w : NativeWorld) : NativeWorld := fst (dispatch e w).

Definition run (events : list Event) (w : NativeWorld) : NativeWorld :=
  fold_left (fun w e => step e w) events w.
End Native.

Definition init (c : NativeClient) : NativeWorld := mkNativeWorld c false [].

Definition calls (l : list Effect) : list Callback :=
  omap (fun e => match e with Calls cb => Some cb | _ => None end) l.

(** The frames given to the host, in order. *)
Definition handed_over (l : list Effect) : list bytes :=
  omap (fun e => match e with BridgeSend _ frame => Some frame | _ => None end) l.
