(* ===== verification/NativeDirectProps.v ===== *)
(** * The native direct client transport: what holds on every run

    The callbacks of [NativeDirect] relative to what the host announces, the
    end of the transport, and the queue of frames on the way to the host. *)

From S2P Require Import Prelude Bytes JsString JsMap Json JsonText EventLoop Transport NativeDirect.

(** ** What an event of the host makes an open transport do *)

Inductive Announcement := Silent | Reports (cb : Callback) | Breaks (error : jsstr).

Section Announce.
Context `{JsText}.

Definition announce_frame (event : list (jsstr * Json)) : Announcement :=
  match as_string (field event "frame_base64") with
  | None => Breaks (js "native direct frame is missing")
  | Some text => match decodeBase64 text with
                 | Done frame => Reports (CbFrame frame)
                 | Raise error => Breaks error
                 end
  end.

Definition announce_ready (event : list (jsstr * Json)) : Announcement :=
  match safe_integer (field event "last_replayed_seq") with
  | Some seq => if seq <? 0 then Breaks (js "invalid native direct replay cursor") else Reports (CbReady seq)
  | None => Breaks (js "invalid native direct replay cursor")
  end.

Definition announce (data : option Json) : Announcement :=
  match event_fields data with
  | None => Silent
  | Some event =>
      let kind := field event "kind" in
      if is_text kind (js "authenticated") then Reports CbAuthenticated
      else if is_text kind (js "frame") then announce_frame event
      else if is_text kind (js "ready") then announce_ready event
      else if is_text kind (js "diagnostics") then
        match diagnostics event with Some value => Reports (CbDiagnostics value) | None => Silent end
      else if is_text kind (js "failure") then
        let error := field event "error" in
        Breaks (if truthy error then template error else js "native direct connection failed")
      else Breaks (js "unexpected native direct event: " ++ template kind)
  end.

(** The state after [finish] of an open transport. *)
Definition ended (w : NativeWorld) : NativeWorld :=
  w <| this := (this w) <| closed := true |> <| authenticated := false |> <| off := None |> |>
    <| trace := trace w ++ match off (this w) with Some event => [Unsubscribe event] | None => [] end
                        ++ [BridgeStop (id (this w))] |>.

(** ... and after [fail]. *)
Definition failed (error : jsstr) (w : NativeWorld) : NativeWorld :=
  (ended w) <| trace := trace (ended w) ++ [Calls (CbFailure error)] |>.

(** [callbacks.onX()], after [authenticated = true] where the event says so. *)
Definition reported (cb : Callback) (w : NativeWorld) : NativeWorld :=
  w <| this := match cb with
               | CbAuthenticated => (this w) <| authenticated := true |>
               | _ => this w
               end |>
    <| trace := trace w ++ [Calls cb] |>.

Lemma finish_open w : closed (this w) = false -> finish w = (ended w, Done tt).
Proof.
  destruct w as [[o i p [ev|] ch s a c] sp tr]; cbn; intros ->; unfold ended, finish, bind, gets, assign, emit, modify, ret;
    cbn; rewrite <- ?app_assoc; reflexivity.
Qed.

Lemma fail_open e w : closed (this w) = false -> fail e w = (failed e w, Done tt).
Proof. intros Hc. unfold fail, bind, self, gets. rewrite Hc, (finish_open w Hc). reflexivity. Qed.

Lemma fail_shut e w : closed (this w) = true -> fail e w = (w, Done tt).
Proof. intros Hc. unfold fail, bind, self, gets. by rewrite Hc. Qed.

Lemma finish_shut w : closed (this w) = true -> finish w = (w, Done tt).
Proof. intros Hc. unfold finish, bind, self, gets. by rewrite Hc. Qed.

Definition react (a : Announcement) (w : NativeWorld) : NativeWorld :=
  match a with Silent => w | Reports cb => reported cb w | Breaks error => failed error w end.

Lemma emit_reported cb w : cb <> CbAuthenticated -> emit (Calls cb) w = (reported cb w, Done tt).
Proof. by destruct w, cb. Qed.

(** The handler of an open transport does what the event announces. *)
Lemma handleEvent_open data w :
  closed (this w) = false -> handleEvent data w = (react (announce data) w, Done tt).
Proof.
  intros Hc. unfold handleEvent, announce, bind at 1, self at 1, gets. rewrite Hc.
  destruct (event_fields data) as [event|]; [|done]. unfold catch, announce_frame, announce_ready.
  repeat match goal with |- context [if is_text ?k ?s then _ else _] => destruct (is_text k s) end;
    cbv beta iota zeta delta [raise bind answer].
  - by destruct w.
  - destruct (as_string _) as [text|]; [|exact (fail_open _ w Hc)].
    destruct (decodeBase64 text) as [frame|e]; [by rewrite emit_reported|exact (fail_open _ w Hc)].
  - destruct (safe_integer _) as [seq|]; [|exact (fail_open _ w Hc)].
    destruct (seq <? 0); [exact (fail_open _ w Hc)|]. by rewrite emit_reported.
  - destruct (diagnostics event); [by rewrite emit_reported|done].
  - by rewrite (fail_open _ w Hc).
  - exact (fail_open _ w Hc).
Qed.

Lemma handleEvent_shut data w : closed (this w) = true -> handleEvent data w = (w, Done tt).
Proof. intros Hc. unfold handleEvent, bind at 1, self at 1, gets. rewrite Hc. by destruct (event_fields data). Qed.
End Announce.

(** ** One event

    What the callbacks depend on, and the four things an event can do to it. *)

Definition status (w : NativeWorld) : bool * bool * list Callback :=
  (authenticated (this w), closed (this w), calls (trace w)).

Definition subscribed (w : NativeWorld) : bool := bool_decide (off (this w) <> None).

Section Step.
Context `{JsText}.

Definition effect_of (e : Event) (w w' : NativeWorld) : Prop :=
  let '(auth, shut, cbs) := status w in
  status w' = status w \/
  shut = false /\
   ((exists error, status w' = (false, true, cbs ++ [CbFailure error])) \/
    (e = EvClose /\ status w' = (false, true, cbs)) \/
    (exists data cb, e = EvBridgeEvent data /\ subscribed w = true /\ announce data = Reports cb /\
       status w' = (match cb with CbAuthenticated => true | _ => auth end, false, cbs ++ [cb]))).

Lemma native_calls_app l1 l2 : calls (l1 ++ l2) = calls l1 ++ calls l2.
Proof. apply omap_app. Qed.

Lemma status_failed error w : status (failed error w) = (false, true, calls (trace w) ++ [CbFailure error]).
Proof.
  unfold failed, ended, status. cbn -[calls]. rewrite !native_calls_app. by destruct (off (this w)); cbn; rewrite app_nil_r.
Qed.

Lemma status_ended w : status (ended w) = (false, true, calls (trace w)).
Proof. unfold ended, status. cbn -[calls]. rewrite !native_calls_app. by destruct (off (this w)); cbn; rewrite app_nil_r. Qed.

Lemma status_reported cb w :
  closed (this w) = false ->
  status (reported cb w) =
    (match cb with CbAuthenticated => true | _ => authenticated (this w) end, false, calls (trace w) ++ [cb]).
Proof. intros Hc. unfold reported, status. cbn -[calls]. rewrite native_calls_app. destruct cb; cbn; by rewrite Hc. Qed.

(** [fail] on a state that differs from [w] only in what [status] ignores. *)
Lemma effect_fail e error w w1 :
  status w1 = status w -> effect_of e w (fst (fail error w1)).
Proof.
  intros E. unfold effect_of. injection E as E1 E2 E3. cbn [status]. destruct (closed (this w)) eqn:Hc.
  - left. rewrite fail_shut by congruence. cbn. unfold status. congruence.
  - right. split; [done|]. left. exists error. rewrite fail_open by congruence.
    cbn [fst]. rewrite status_failed. congruence.
Qed.

Lemma effect_quiet e w w' : status w' = status w -> effect_of e w w'.
Proof. intros E. by left. Qed.

Lemma effect_answer e o w w1 : status w1 = status w -> effect_of e w (fst (catch (answer o) fail w1)).
Proof. intros E. destruct o as [u|error]; [by apply effect_quiet|]. by apply effect_fail. Qed.

Lemma step_effect e w : effect_of e w (step e w).
Proof.
  unfold step. destruct e as [|frame| |error|data|o| |o]; cbn [dispatch].
  - apply effect_quiet. unfold start, bind, self, gets. destruct (started (this w) || closed (this w)); [done|].
    destruct w as [c p t]. unfold status. cbn. by rewrite !native_calls_app, !app_nil_r.
  - apply effect_quiet. unfold sendFrame, bind, self, gets.
    by destruct (closed (this w) || negb (authenticated (this w))).
  - unfold close, effect_of. cbn [status]. destruct (closed (this w)) eqn:Hc.
    + left. by rewrite finish_shut.
    + right. split; [done|]. right; left. rewrite finish_open by done. split; [done|]. apply status_ended.
  - by apply effect_fail.
  - unfold bind, self, gets, when. destruct (bool_decide (off (this w) <> None)) eqn:Ho; [|by apply effect_quiet].
    destruct (closed (this w)) eqn:Hc; [by rewrite handleEvent_shut; [apply effect_quiet|]|].
    rewrite handleEvent_open by done. destruct (announce data) as [|cb|error] eqn:Ea; cbn [react fst].
    + by apply effect_quiet.
    + unfold effect_of. cbn [status]. rewrite Hc. right. split; [done|]. right; right. exists data, cb.
      split_and!; [done..|]. by apply status_reported.
    + replace (failed error w) with (fst (fail error w)) by (by rewrite fail_open). by apply effect_fail.
  - unfold bind, gets, when. destruct (startPending w); [|by apply effect_quiet]. by apply effect_answer.
  - apply effect_quiet. unfold send_turn, bind, self, gets. destruct (chain_next _) as [[f r]|]; [|done].
    destruct w as [c p t]. unfold status. cbn. by rewrite native_calls_app, app_nil_r.
  - unfold send_settled, bind, self, gets. destruct (suspended_job _); [|by apply effect_quiet].
    by apply effect_answer.
Qed.
End Step.

(** ** Whole runs *)

Section Runs.
Context `{JsText}.

(** The host authenticates once, before it reports a frame or the end of the
    replay. [auth]: whether it has. *)
Fixpoint orderly (auth : bool) (announced : list (option Json)) : bool :=
  match announced with
  | [] => true
  | data :: rest =>
      match announce data with
      | Reports CbAuthenticated => negb auth && orderly true rest
      | Reports (CbFrame _) | Reports (CbReady _) => auth && orderly auth rest
      | _ => orderly auth rest
      end
  end.

Definition bridge_events (events : list Event) : list (option Json) :=
  omap (fun e => match e with EvBridgeEvent data => Some data | _ => None end) events.

(** While it is open, a started transport hears the host; and the phase of
    its callbacks is the one the host has announced. *)
Record in_order (owner : bool) (w : NativeWorld) : Prop := {
  io_hears : closed (this w) = false -> subscribed w = true;
  io_open : closed (this w) = false ->
    observe_all Attempting (calls (trace w)) = Some (if authenticated (this w) then Live else Attempting);
  io_shut : closed (this w) = true ->
    exists p, observe_all Attempting (calls (trace w)) = Some p /\ (owner = false -> p = Over);
}.

Lemma announce_no_failure data error : announce data <> Reports (CbFailure error).
Proof.
  unfold announce, announce_frame, announce_ready. destruct (event_fields data) as [ev|]; [|done].
  repeat match goal with |- context [if ?b then _ else _] => destruct b end; try done.
  - destruct (as_string _) as [t|]; [|done]. by destruct (decodeBase64 t).
  - destruct (safe_integer _) as [z|]; [|done]. by destruct (z <? 0).
  - by destruct (diagnostics ev).
Qed.

Lemma subscribed_step e w :
  subscribed w = true -> closed (this (step e w)) = false -> subscribed (step e w) = true.
Proof.
  assert (Hf : forall err w1, subscribed w1 = true -> closed (this (fst (fail err w1))) = false ->
                 subscribed (fst (fail err w1)) = true).
  { intros err w1 H1. destruct (closed (this w1)) eqn:Hc1; [by rewrite fail_shut|]. by rewrite fail_open. }
  assert (Ha : forall o w1, subscribed w1 = true -> closed (this (fst (catch (answer o) fail w1))) = false ->
                 subscribed (fst (catch (answer o) fail w1)) = true).
  { intros [u|err] w1 H1; [done|]. by apply Hf. }
  intros Hs. unfold step. destruct e as [|frame| |error|data|o| |o]; cbn [dispatch].
  - unfold start, bind, self, gets. by destruct (started (this w) || closed (this w)).
  - unfold sendFrame, bind, self, gets. by destruct (closed (this w) || negb (authenticated (this w))).
  - unfold close. destruct (closed (this w)) eqn:Hc; [by rewrite finish_shut|]. by rewrite finish_open.
  - by apply Hf.
  - unfold bind, self, gets, when. unfold subscribed in Hs. rewrite Hs.
    destruct (closed (this w)) eqn:Hc; [by rewrite handleEvent_shut|]. rewrite handleEvent_open by done.
    destruct (announce data) as [|cb|err]; cbn [react fst]; [done| |done]. intros _. unfold subscribed, reported. by destruct cb.
  - unfold bind, gets, when. destruct (startPending w); [|done]. by apply Ha.
  - unfold send_turn, bind, self, gets. by destruct (chain_next _) as [[f r]|].
  - unfold send_settled, bind, self, gets. destruct (suspended_job _); [|done]. by apply Ha.
Qed.

Lemma step_bridge data w :
  closed (this w) = false -> subscribed w = true -> step (EvBridgeEvent data) w = react (announce data) w.
Proof.
  intros Hc Hs. unfold step. cbn [dispatch]. unfold bind, self, gets, when. unfold subscribed in Hs.
  by rewrite Hs, handleEvent_open.
Qed.

Definition announces (e : Event) : list (option Json) := bridge_events [e].

Lemma order_step owner e rest w :
  (e = EvClose -> owner = true) ->
  in_order owner w -> (closed (this w) = false -> orderly (authenticated (this w)) (announces e ++ rest) = true) ->
  in_order owner (step e w) /\
  (closed (this (step e w)) = false -> orderly (authenticated (this (step e w))) rest = true).
Proof.
  intros Hown [I1 I2 I3] Hord. pose proof (step_effect e w) as He. pose proof (subscribed_step e w) as Hsub.
  unfold effect_of in He. cbn [status] in He. unfold status in He.
  destruct (closed (this w)) eqn:Hc.
  { destruct He as [E|[? _]]; [|done]. injection E as E1 E2 E3. rewrite E2.
    split; [|done]. constructor; rewrite ?E2, ?E3; [done|done|]. intros _. by apply I3. }
  specialize (I1 eq_refl). specialize (I2 eq_refl). specialize (Hord eq_refl).
  assert (Hrest : announces e = [] -> orderly (authenticated (this w)) rest = true).
  { intros E. by rewrite E in Hord. }
  destruct He as [E|[_ [[err E]|[[-> E]|(data & cb & -> & _ & Ea & E)]]]]; injection E as E1 E2 E3.
  - rewrite E1, E2. split.
    + constructor; rewrite ?E1, ?E2, ?E3; try done. intros _. by apply Hsub.
    + intros _. destruct e; try (by apply Hrest). cbn [announces bridge_events omap list_omap app orderly] in Hord.
      rewrite step_bridge in E2, E3 by done. destruct (announce data) as [|cb|err]; [done| |].
      * pose proof (f_equal snd (status_reported cb w Hc) : calls (trace (reported cb w)) = _) as Es.
        change (calls (trace (reported cb w)) = calls (trace w)) in E3.
        rewrite Es in E3. cbn [snd] in E3. apply (f_equal length) in E3. rewrite length_app in E3. cbn in E3. lia.
      * cbn in E2. congruence.
  - rewrite E2. split; [|done]. constructor; rewrite ?E2, ?E3; [done..|]. intros _. exists Over. split; [|done].
    rewrite observe_all_app, I2. by destruct (authenticated (this w)).
  - rewrite E2. split; [|done]. constructor; rewrite ?E2, ?E3; [done..|]. intros _. eexists. split; [done|].
    by rewrite Hown.
  - rewrite E1, E2. cbn in Hord. rewrite Ea in Hord. split.
    + constructor; rewrite ?E1, ?E2, ?E3; [by intros _; apply Hsub| |done]. intros _.
      rewrite observe_all_app, I2. destruct cb; cbn; try (by apply announce_no_failure in Ea);
        destruct (authenticated (this w)); done.
    + intros _. destruct cb; try (by apply announce_no_failure in Ea); try exact Hord;
        apply andb_prop in Hord; by destruct Hord.
Qed.

Lemma in_order_start owner uuid prefix o : in_order owner (step EvStart (init (new_native uuid prefix o))).
Proof. by constructor. Qed.

Lemma in_order_run owner events w :
  (EvClose ∈ events -> owner = true) -> in_order owner w ->
  (closed (this w) = false -> orderly (authenticated (this w)) (bridge_events events) = true) ->
  in_order owner (run events w).
Proof.
  revert w. induction events as [|e events IH]; intros w Hown Hi Hord; [done|].
  destruct (order_step owner e (bridge_events events) w) as [Hi' Hord'].
  - intros ->. apply Hown. left.
  - done.
  - intros Hc. specialize (Hord Hc). by destruct e.
  - apply IH; [|done..]. intros Hin. apply Hown. by right.
Qed.

(** *** The end of a transport *)

(** The calls to the host that open and close an attempt. *)
Definition is_lifecycle (e : Effect) : bool :=
  match e with Subscribe _ | Unsubscribe _ | BridgeStart _ | BridgeStop _ => true | _ => false end.

Definition lifecycle (l : list Effect) : list Effect := filter is_lifecycle l.

Definition attempt_name (c : NativeClient) : jsstr := eventPrefix c ++ id c.

Definition start_request (c : NativeClient) : StartRequest :=
  mkStartRequest (id c) (native_sessionId (options c)) (native_sinceSeq (options c))
    (native_clientInstanceId (options c)) (native_route (options c)).

(** What a transport in this state has told the host. *)
Definition told (c : NativeClient) : list Effect :=
  (if started c then [Subscribe (attempt_name c); BridgeStart (start_request c)] else [])
  ++ (if closed c then (if started c then [Unsubscribe (attempt_name c)] else []) ++ [BridgeStop (id c)] else []).

Definition listening (c : NativeClient) : option jsstr :=
  if started c && negb (closed c) then Some (attempt_name c) else None.

Definition told_ok (w : NativeWorld) : Prop :=
  lifecycle (trace w) = told (this w) /\ off (this w) = listening (this w).

Lemma told_silent w e :
  told_ok w -> lifecycle [e] = [] -> told_ok (w <| trace := trace w ++ [e] |>).
Proof. intros [H1 H2] He. split; [|done]. cbn -[lifecycle]. unfold lifecycle in *. by rewrite filter_app, He, app_nil_r. Qed.

Lemma told_ended w : told_ok w -> closed (this w) = false -> told_ok (ended w).
Proof.
  destruct w as [[o i p off ch st au cl] sp tr]. unfold told_ok, ended, listening, told, lifecycle. cbn.
  intros [H1 H2] ->. cbn in *. rewrite andb_true_r in H2. subst off. rewrite andb_false_r, !filter_app, H1.
  destruct st; by cbn.
Qed.

Lemma told_fail err w : told_ok w -> told_ok (fst (fail err w)).
Proof.
  intros Hw. destruct (closed (this w)) eqn:Hc; [by rewrite fail_shut|]. rewrite fail_open by done.
  apply (told_silent (ended w)); [by apply told_ended|done].
Qed.

Lemma told_reported cb w : told_ok w -> told_ok (reported cb w).
Proof.
  intros Hw. assert (H1 : told_ok (w <| trace := trace w ++ [Calls cb] |>)) by by apply told_silent.
  destruct w as [[o i p off ch st au cl] sp tr]. by destruct cb.
Qed.

Lemma told_step e w : told_ok w -> told_ok (step e w).
Proof.
  assert (Ha : forall o w1, told_ok w1 -> told_ok (fst (catch (answer o) fail w1))).
  { intros [u|err] w1 H1; [done|]. by apply told_fail. }
  intros Hw. unfold step. destruct e as [|frame| |error|data|o| |o]; cbn [dispatch].
  - destruct w as [[o i p off ch st au cl] sp tr]. unfold start, bind, self, gets. cbn.
    destruct st, cl; cbn; try exact Hw. revert Hw. unfold told_ok, listening, told, lifecycle. cbn.
    intros [H1 _]. rewrite !filter_app, H1. by cbn.
  - unfold sendFrame, bind, self, gets. by destruct (closed (this w) || negb (authenticated (this w))).
  - unfold close. destruct (closed (this w)) eqn:Hc; [by rewrite finish_shut|]. rewrite finish_open by done. by apply told_ended.
  - by apply told_fail.
  - unfold bind, self, gets, when. destruct (bool_decide _); [|done].
    destruct (closed (this w)) eqn:Hc; [by rewrite handleEvent_shut|]. rewrite handleEvent_open by done.
    destruct (announce data) as [|cb|err]; cbn [react fst]; [done|by apply told_reported|].
    replace (failed err w) with (fst (fail err w)) by (by rewrite fail_open). by apply told_fail.
  - unfold bind, gets, when. destruct (startPending w); [|done]. by apply Ha.
  - unfold send_turn, bind, self, gets. destruct (chain_next _) as [[f r]|]; [|done].
    by apply (told_silent (w <| this := (this w) <| sendChain := chain_suspend (Some tt) r |> |>)).
  - unfold send_settled, bind, self, gets. destruct (suspended_job _); [|done]. by apply Ha.
Qed.

(** [calls] of a run: no failure while open, and a failure is the last one. *)
Definition is_failure (cb : Callback) : Prop := match cb with CbFailure _ => True | _ => False end.
#[export] Instance is_failure_dec cb : Decision (is_failure cb).
Proof. destruct cb; apply _. Defined.

Definition ends_once (shut : bool) (cbs : list Callback) : Prop :=
  exists body, Forall (fun cb => ~ is_failure cb) body /\
    (cbs = body \/ (shut = true /\ exists error, cbs = body ++ [CbFailure error])).

Lemma ends_once_open cbs : ends_once false cbs -> Forall (fun cb => ~ is_failure cb) cbs.
Proof. intros (body & Hb & [->|[? _]]); done. Qed.

Lemma ends_once_step e w :
  ends_once (closed (this w)) (calls (trace w)) -> ends_once (closed (this (step e w))) (calls (trace (step e w))).
Proof.
  intros Hw. pose proof (step_effect e w) as He. unfold effect_of in He. cbn [status] in He. unfold status in He.
  destruct He as [E|[Hc [[err E]|[[-> E]|(data & cb & -> & _ & Ea & E)]]]]; injection E as E1 E2 E3; rewrite E2, E3.
  - done.
  - rewrite Hc in Hw. apply ends_once_open in Hw. exists (calls (trace w)). split; [done|]. right. by eauto.
  - rewrite Hc in Hw. apply ends_once_open in Hw. exists (calls (trace w)). by auto.
  - rewrite Hc in Hw. apply ends_once_open in Hw. exists (calls (trace w) ++ [cb]). split; [|by left].
    apply Forall_app. split; [done|]. constructor; [|done]. destruct cb; cbn; try tauto.
    by apply announce_no_failure in Ea.
Qed.

Lemma closed_step e w :
  closed (this w) = true -> closed (this (step e w)) = true /\ calls (trace (step e w)) = calls (trace w).
Proof.
  intros Hc. pose proof (step_effect e w) as He. unfold effect_of in He. cbn [status] in He. unfold status in He.
  destruct He as [E|[? _]]; [|congruence]. injection E as E1 E2 E3. by rewrite E2.
Qed.

Lemma closed_run events w :
  closed (this w) = true -> closed (this (run events w)) = true /\ calls (trace (run events w)) = calls (trace w).
Proof.
  revert w. induction events as [|e events IH]; intros w Hc; [done|].
  destruct (closed_step e w Hc) as [Hc' E]. cbn. destruct (IH _ Hc') as [? E']. split; [done|]. by rewrite <- E.
Qed.

Lemma run_ind (P : NativeWorld -> Prop) events w :
  P w -> (forall e w, P w -> P (step e w)) -> P (run events w).
Proof. revert w. induction events as [|e events IH]; intros w Hw Hs; [done|]. apply IH; auto. Qed.
End Runs.

(** ** The frames on their way *)

Section Frames.
Context `{JsText}.

(** Whether [sendFrame] takes the frame, and the frames taken in a run. *)
Definition takes (frame : bytes) (w : NativeWorld) : bool :=
  match snd (sendFrame frame w) with Done b => b | Raise _ => false end.

Fixpoint accepted (events : list Event) (w : NativeWorld) : list bytes :=
  match events with
  | [] => []
  | e :: rest =>
      match e with
      | EvSendFrame frame => if takes frame w then [frame] else []
      | _ => []
      end ++ accepted rest (step e w)
  end.

Definition queued (w : NativeWorld) : list bytes := jobs (sendChain (this w)).
Definition sending (w : NativeWorld) : bool := bool_decide (suspended_job (sendChain (this w)) <> None).

Definition outgoing (w : NativeWorld) : list bytes * list bytes * bool :=
  (handed_over (trace w), queued w, sending w).

Lemma handed_over_app l1 l2 : handed_over (l1 ++ l2) = handed_over l1 ++ handed_over l2.
Proof. apply omap_app. Qed.

Lemma outgoing_emit e w :
  handed_over [e] = [] -> outgoing (w <| trace := trace w ++ [e] |>) = outgoing w.
Proof. intros He. unfold outgoing. cbn -[handed_over]. by rewrite handed_over_app, He, app_nil_r. Qed.

Lemma outgoing_fail err w : outgoing (fst (fail err w)) = outgoing w.
Proof.
  destruct (closed (this w)) eqn:Hc; [by rewrite fail_shut|]. rewrite fail_open by done.
  unfold outgoing, failed, ended. cbn -[handed_over]. rewrite !handed_over_app.
  destruct (off (this w)); cbn; by rewrite ?app_nil_r.
Qed.

Lemma outgoing_reported cb w : outgoing (reported cb w) = outgoing w.
Proof. unfold outgoing. destruct cb; cbn -[handed_over]; by rewrite handed_over_app, app_nil_r. Qed.

Lemma outgoing_catch o w : outgoing (fst (catch (answer o) fail w)) = outgoing w.
Proof. destruct o as [u|err]; [done|]. apply outgoing_fail. Qed.

(** The queue as it should be: a frame taken goes to its end, a turn with
    nothing under way hands its head to the host, a settled promise ends the
    transfer, and nothing else touches it. *)
Definition queue_step (e : Event) (takes : bool) (q : list bytes * list bytes * bool) : list bytes * list bytes * bool :=
  let '(sent, waiting, busy) := q in
  match e with
  | EvSendFrame frame => (sent, if takes then waiting ++ [frame] else waiting, busy)
  | EvSendTurn =>
      match busy, waiting with
      | false, frame :: rest => (sent ++ [frame], rest, true)
      | _, _ => q
      end
  | EvSendSettled _ => (sent, waiting, false)
  | _ => q
  end.

Definition takes_of (e : Event) (w : NativeWorld) : bool :=
  match e with EvSendFrame frame => takes frame w | _ => false end.

Lemma outgoing_step e w : outgoing (step e w) = queue_step e (takes_of e w) (outgoing w).
Proof.
  unfold step. destruct e as [|frame| |error|data|o| |o]; cbn [dispatch queue_step takes_of].
  - unfold start, bind, self, gets. destruct (started (this w) || closed (this w)); [done|].
    unfold outgoing. cbn -[handed_over]. by rewrite !handed_over_app, !app_nil_r.
  - unfold takes, sendFrame, bind, self, gets. by destruct (closed (this w) || negb (authenticated (this w))).
  - unfold close. destruct (closed (this w)) eqn:Hc; [by rewrite finish_shut|]. rewrite finish_open by done.
    unfold outgoing, ended. cbn -[handed_over]. rewrite !handed_over_app. destruct (off (this w)); cbn; by rewrite ?app_nil_r.
  - apply outgoing_fail.
  - unfold bind, self, gets, when. destruct (bool_decide _); [|done].
    destruct (closed (this w)) eqn:Hc; [by rewrite handleEvent_shut|]. rewrite handleEvent_open by done.
    destruct (announce data) as [|cb|err]; cbn [react fst]; [done|apply outgoing_reported|].
    replace (failed err w) with (fst (fail err w)) by (by rewrite fail_open). apply outgoing_fail.
  - unfold bind, gets, when. destruct (startPending w); [|done]. apply outgoing_catch.
  - unfold send_turn, bind, self, gets, outgoing, queued, sending, chain_next.
    destruct (sendChain (this w)) as [[|f r] [[]|]] eqn:Hs; cbn -[handed_over]; try by rewrite Hs.
    by rewrite handed_over_app.
  - unfold send_settled, bind, self, gets. destruct (suspended_job _) as [u|] eqn:Hs.
    + exact (outgoing_catch o _).
    + unfold outgoing, sending. cbn. by rewrite Hs.
Qed.

Definition frames_of (q : list bytes * list bytes * bool) : list bytes := fst (fst q) ++ snd (fst q).

Lemma frames_step e w :
  frames_of (outgoing (step e w)) =
  frames_of (outgoing w) ++ match e with EvSendFrame frame => if takes frame w then [frame] else [] | _ => [] end.
Proof.
  rewrite outgoing_step. destruct (outgoing w) as [[sent waiting] busy].
  destruct e; cbn; rewrite ?app_nil_r; try done.
  - destruct (takes frame w); by rewrite ?app_nil_r, <- ?app_assoc.
  - destruct busy, waiting; try done. cbn. by rewrite <- app_assoc.
Qed.

Lemma frames_run events w :
  frames_of (outgoing (run events w)) = frames_of (outgoing w) ++ accepted events w.
Proof.
  revert w. induction events as [|e events IH]; intros w; cbn [run fold_left accepted]; [by rewrite app_nil_r|].
  fold (run events (step e w)). by rewrite IH, frames_step, <- app_assoc.
Qed.

(** The host settles each transfer as it comes. *)
Definition drain (w : NativeWorld) : list Event :=
  EvSendSettled (Done tt) :: flat_map (fun _ => [EvSendTurn; EvSendSettled (Done tt)]) (queued w).

Lemma drain_turns l sent w :
  outgoing w = (sent, l, false) ->
  outgoing (run (flat_map (fun _ => [EvSendTurn; EvSendSettled (Done tt)]) l) w) = (sent ++ l, [], false).
Proof.
  revert sent w. induction l as [|f l IH]; intros sent w Hw; [by rewrite app_nil_r|].
  cbn [flat_map app run fold_left]. fold (run (flat_map (fun _ : bytes => [EvSendTurn; EvSendSettled (Done tt)]) l)
    (step (EvSendSettled (Done tt)) (step EvSendTurn w))).
  rewrite (IH (sent ++ [f])); [by rewrite <- app_assoc|]. by rewrite !outgoing_step, Hw.
Qed.

Lemma drain_all w : outgoing (run (drain w) w) = (handed_over (trace w) ++ queued w, [], false).
Proof.
  unfold drain. cbn [run fold_left]. fold (run (flat_map (fun _ : bytes => [EvSendTurn; EvSendSettled (Done tt)]) (queued w))
    (step (EvSendSettled (Done tt)) w)).
  apply drain_turns. by rewrite outgoing_step.
Qed.

(** ** Theorems *)

(** A host that authenticates once and before it reports frames gives the
    connection the callbacks in the order it relies on, ending in a failure
    unless the owner closed the transport. *)
Theorem native_callbacks_in_order (o : NativeDirectClientOptions) (uuid prefix : jsstr) (events : list Event)
    (Hhost : orderly false (bridge_events events) = true) :
  let w := run (EvStart :: events) (init (new_native uuid prefix o)) in
  exists p, observe_all Attempting (calls (trace w)) = Some p /\
    (closed (this w) = false -> p = if authenticated (this w) then Live else Attempting) /\
    (EvClose ∉ events -> closed (this w) = true -> p = Over).
Proof.
  intros w. set (w0 := step EvStart (init (new_native uuid prefix o))).
  destruct (in_order_run true events w0) as [_ I2 I3]; [done|apply in_order_start|done|].
  change (run events w0) with w in I2, I3. destruct (closed (this w)) eqn:Hc.
  - destruct (I3 eq_refl) as (p & Hp & _). exists p. split; [done|]. split; [done|]. intros He _.
    destruct (in_order_run false events w0) as [_ _ J3]; [done|apply in_order_start|done|].
    change (run events w0) with w in J3. destruct (J3 Hc) as (p' & Hp' & Ho). rewrite (Ho eq_refl) in Hp'. congruence.
  - eexists. split; [by apply I2|]. done.
Qed.

(** Whatever the host reports: it is told to start an attempt once, and
    to stop it exactly when the transport is closed; a failure is the last
    callback, none comes from an open transport, and a closed one is silent. *)
Theorem native_ends_once (o : NativeDirectClientOptions) (uuid prefix : jsstr) (before after : list Event) :
  let w := run before (init (new_native uuid prefix o)) in
  lifecycle (trace w) = told (this w) /\
  ends_once (closed (this w)) (calls (trace w)) /\
  (closed (this w) = true -> closed (this (run after w)) = true /\ calls (trace (run after w)) = calls (trace w)).
Proof.
  intros w. split; [|split].
  - apply (run_ind told_ok before); [done|]. intros. by apply told_step.
  - apply (run_ind (fun w => ends_once (closed (this w)) (calls (trace w)))).
    + exists []. split; [constructor|by left].
    + intros. by apply ends_once_step.
  - apply closed_run.
Qed.

(** The frames the transport has taken are those the host was given and
    those that wait, in the order they were taken: it implements a queue with
    one transfer at a time, and a host that settles its transfers gets them
    all, even those that wait when the transport is closed. *)
Theorem native_sends_in_order (o : NativeDirectClientOptions) (uuid prefix : jsstr) (events : list Event) :
  let w0 := init (new_native uuid prefix o) in
  let w := run events w0 in
  handed_over (trace w) ++ queued w = accepted events w0 /\
  (forall e, outgoing (step e w) = queue_step e (takes_of e w) (outgoing w)) /\
  handed_over (trace (run (drain w) w)) = accepted events w0.
Proof.
  intros w0 w. pose proof (frames_run events w0) as E.
  change (frames_of (outgoing w0)) with (@nil bytes) in E. cbn [app] in E.
  change (frames_of (outgoing w)) with (handed_over (trace w) ++ queued w) in E.
  split; [exact E|]. split; [intros e; apply outgoing_step|].
  pose proof (drain_all w) as D. rewrite <- E. by injection D.
Qed.
End Frames.

(** ** Witnesses *)

Module Native.
Definition options : NativeDirectClientOptions := mkNativeOptions (js "s1") 7 (js "client") (Some RouteLan).
Definition event (l : list (jsstr * Json)) : Event := EvBridgeEvent (Some (JObj l)).
Definition events : list Event :=
  [event [(js "kind", JStr (js "diagnostics")); (js "route", JStr (js "lan"))];
   event [(js "kind", JStr (js "authenticated"))];
   EvSendFrame [1; 2];
   event [(js "kind", JStr (js "frame")); (js "frame_base64", JStr (js "AQI="))];
   event [(js "kind", JStr (js "ready")); (js "last_replayed_seq", jint 7)];
   event [(js "kind", JStr (js "failure")); (js "error", JStr (js "lost"))]].
End Native.

Lemma native_callbacks_in_order_witness :
  orderly false (bridge_events Native.events) = true /\
  let w := run (EvStart :: Native.events) (init (new_native (js "u") (js "native-direct:event:") Native.options)) in
  calls (trace w) = [CbDiagnostics (mkDiagnostics (Some (js "lan")) None None); CbAuthenticated;
                     CbFrame [1; 2]; CbReady 7; CbFailure (js "lost")] /\
  exists p, observe_all Attempting (calls (trace w)) = Some p.
Proof.
  split; [vm_compute; reflexivity|]. cbv zeta. split; [vm_compute; reflexivity|].
  destruct (native_callbacks_in_order Native.options (js "u") (js "native-direct:event:") Native.events)
    as (p & Hp & _); [vm_compute; reflexivity|]. exists p. exact Hp.
Defined.
