(* ===== verification/Connection.v ===== *)
(** * The session connection ([class SessionConnection] of
      [src/desktop/frontend/src/lib/connection.ts])

    One attach to a terminal session: the relay WebSocket with its reconnect
    timer, the opportunistic direct transport, the output cursor, the pending
    requests and the queued writes. The object and the part of the run time it
    touches (sockets, transports, timers, promises) are one state, [World];
    every method is a function of it that records what it does to the outside
    as [Effect]s. [step] is the event loop: a call of a public method, a
    socket or transport callback, or a timer.

    The handlers passed by the user interface are effects: they neither throw
    nor call back into the connection. *)

From Stdlib Require Import QArith.
From S2P Require Import Prelude Bytes JsString JsMap Json Proto FsSegments DirectCrypto.
From S2P Require Import DirectRoute Opaque ConnWire Transport.
#[local] Open Scope Z_scope.

(** What the run time supplies: the [n]-th random value, and whether the
    [n]-th [new WebSocket] throws. *)
Class Host := {
  randomUUID : nat -> jsstr;
  randomBytes24 : nat -> bytes;
  fallbackFSRequestID : nat -> jsstr;
  newWebSocket_throws : nat -> bool;
  navigatorPlatform : jsstr;
  translate : string -> jsstr;  (* the i18n lookup [t] *)
}.

(** A WebSocket and the generation its handlers captured. *)
Record Socket := mkSocket { readyState : ReadyState; sock_generation : Z }.

Inductive TimerKind :=
  | ReconnectTimer
  | FSRequestTimer (requestID : jsstr) (promise : nat)
  | ServiceOpenTimer (requestId : jsstr) (promise : nat).

(** What a promise is settled with. *)
Inductive Settlement :=
  | ResolveFS (response : list (jsstr * Json))
  | ResolveService (serviceId : jsstr) (clientTicket : Json) (clientToHostKey hostToClientKey : bytes)
  | ResolvePaste
  | RejectWith (err : jsstr).

Inductive Effect :=
  | NewSocket (id : nat) (url : jsstr) (protocol : option jsstr)
  | SocketSend (id : nat) (frame : bytes)
  | SocketClose (id : nat)
  | NewTransport (id : nat) (options : DirectOptions)
  | DirectSend (id : nat) (frame : bytes)
  | DirectClose (id : nat)
  | SetTimeout (id : nat) (delay : Z)
  | Settle (promise : nat) (s : Settlement)
  | OnOutput (seq : Z) (data : bytes)
  | OnClose (info : Json)
  | OnMeta (meta : list (jsstr * Json))
  | OnStatus (s : Status)
  | OnReplayProgress (progress : Json)
  | OnRouteChange (r : SessionRoute) (diagnostics : option DirectTransportDiagnostics)
      (setupTimeMs : option Z) (reason : option DirectFallbackReason)
  | OnDriverChange (driver : jsstr) (isMe : bool) (name : jsstr)
  | OnFSEvent (handler : nat) (event : list (jsstr * Json)).

Record PendingFS := mkPendingFS { fs_promise : nat; fs_timer : nat }.

Record PendingService := mkPendingService {
  so_promise : nat;
  so_timer : nat;
  so_serviceId : jsstr;
  so_clientToHostKey : bytes;
  so_hostToClientKey : bytes;
}.

(** The fields of [SessionConnection]. *)
Record Conn := mkConn {
  endpoint : Endpoint;
  sessionId : jsstr;
  sidBytes : bytes;
  clientID : jsstr;
  clientName : jsstr;
  remote : bool;
  directEndpoint : option Endpoint;
  directTransportSupported : bool;
  preferDirect : bool;
  ws : option nat;
  lastSeq : Z;
  route : DirectRouteTracker;
  direct : option nat;
  directAttempted : bool;
  reconnectAttempts : Z;
  reconnectTimer : option nat;
  detached : bool;
  suspended : bool;
  pendingResize : option (Z * Z);
  pendingInputs : list jsstr;
  pendingDriverClaim : bool;
  relayReplayComplete : bool;
  directStartedAt : Z;
  directDiagnostics : option DirectTransportDiagnostics;
  lastFallbackReason : option DirectFallbackReason;
  currentDriverClientID : jsstr;
  isDriverRole : bool;
  recoverDriverIfVacant : bool;
  recoverDriverVacant : bool;
  pendingFSRequests : jsmap jsstr PendingFS;
  retiredFSRequestIDs : list jsstr;
  fsEventHandlers : list nat;
  pendingServiceOpens : jsmap jsstr PendingService;
}.

#[export] Instance eta_conn : Eta Conn :=
  fun c => mkConn (endpoint c) (sessionId c) (sidBytes c) (clientID c) (clientName c) (remote c)
    (directEndpoint c) (directTransportSupported c) (preferDirect c) (ws c) (lastSeq c) (route c)
    (direct c) (directAttempted c) (reconnectAttempts c) (reconnectTimer c) (detached c) (suspended c)
    (pendingResize c) (pendingInputs c) (pendingDriverClaim c) (relayReplayComplete c)
    (directStartedAt c) (directDiagnostics c) (lastFallbackReason c) (currentDriverClientID c)
    (isDriverRole c) (recoverDriverIfVacant c) (recoverDriverVacant c) (pendingFSRequests c)
    (retiredFSRequestIDs c) (fsEventHandlers c) (pendingServiceOpens c).

(** The options of the constructor. *)
Record Options := mkOptions {
  o_clientName : jsstr;
  o_remote : bool;
  o_preferDirect : bool;
  o_directEndpoint : option Endpoint;
  o_directTransportSupported : bool;
}.

Section Connection.
Context `{Crypto} `{JsText} `{Host} `{DirectTransport}.

(** The run time around the object. [ticks] counts the random values and
    sockets already asked for. *)
Record World := mkWorld {
  this : Conn;
  sockets : list Socket;
  transports : list (Transport * Z);
  timers : list (nat * TimerKind);
  nextTimer : nat;
  nextPromise : nat;
  pendingPastes : list (nat * (nat * Z * bytes));  (* promise; socket, type, payload *)
  ticks : nat;
  now : Z;
  accountKey : option bytes;
  trace : list Effect;
}.

#[export] Instance eta_world : Eta World :=
  fun w => mkWorld (this w) (sockets w) (transports w) (timers w) (nextTimer w) (nextPromise w)
    (pendingPastes w) (ticks w) (now w) (accountKey w) (trace w).

Definition M (A : Type) : Type := method World A.

(** ** The run time *)

Definition gets {A} (f : World -> A) : M A := fun w => (w, Ok (f w)).
Definition modify (f : World -> World) : M unit := fun w => (f w, Ok tt).

(** A read and a write of the object's fields. *)
Definition self {A} (f : Conn -> A) : M A := gets (fun w => f (this w)).
Definition assign (f : Conn -> Conn) : M unit := modify (fun w => w <| this := f (this w) |>).

Definition emit (e : Effect) : M unit := modify (fun w => w <| trace := trace w ++ [e] |>).

(** [try { m } catch { }] *)
Definition mtry (m : M unit) : M unit := fun w => (fst (m w), Ok tt).

(** [if (b) { m }] *)
Definition mwhen (b : bool) (m : M unit) : M unit := if b then m else mret tt.

(** The next value of the run time's supply. *)
Definition tick {A} (supply : nat -> A) : M A :=
  fun w => (w <| ticks := S (ticks w) |>, Ok (supply (ticks w))).

Definition socketState (id : nat) (w : World) : ReadyState :=
  match sockets w !! id with Some s => readyState s | None => CLOSED end.

Definition set_socket (id : nat) (st : ReadyState) : M unit :=
  modify (fun w => w <| sockets := alter (fun s => mkSocket st (sock_generation s)) id (sockets w) |>).

(** [ws.send(frame)]: throws while connecting, is ignored once closing. *)
Definition ws_send (id : nat) (frame : bytes) : M unit :=
  do* st := gets (socketState id) in
  match st with
  | CONNECTING => mthrow "InvalidStateError"
  | OPEN => emit (SocketSend id frame)
  | CLOSING | CLOSED => mret tt
  end.

(** [ws.close()]: the close event comes later. *)
Definition ws_close (id : nat) : M unit :=
  do* st := gets (socketState id) in
  match st with
  | CONNECTING | OPEN =>
      do* _ := set_socket id CLOSING in
      emit (SocketClose id)
  | CLOSING | CLOSED => mret tt
  end.

(** [this.ws?.readyState === WebSocket.OPEN] *)
Definition ws_open (w : World) : option nat :=
  match ws (this w) with
  | Some id => if bool_decide (socketState id w = OPEN) then Some id else None
  | None => None
  end.

Definition setTimeout (kind : TimerKind) (delay : Z) : M nat :=
  do* id := gets nextTimer in
  do* _ := modify (fun w => w <| timers := timers w ++ [(id, kind)] |> <| nextTimer := S id |>) in
  do* _ := emit (SetTimeout id delay) in
  mret id.

Definition clearTimeout (id : nat) : M unit :=
  modify (fun w => w <| timers := filter (fun t => fst t <> id) (timers w) |>).

Definition newPromise : M nat :=
  fun w => (w <| nextPromise := S (nextPromise w) |>, Ok (nextPromise w)).

Definition settle (promise : nat) (s : Settlement) : M unit := emit (Settle promise s).

(** [Promise.reject(new Error(message))] *)
Definition rejected (message : jsstr) : M nat :=
  do* p := newPromise in
  do* _ := settle p (RejectWith message) in
  mret p.

(** A call of a method of the route tracker. *)
Definition on_route {A} (m : method DirectRouteTracker A) : M A :=
  fun w =>
    let '(r, a) := m (route (this w)) in
    (w <| this := (this w) <| route := r |> |>, a).

Definition set_transport (id : nat) (t : Transport) : M unit :=
  modify (fun w => w <| transports := alter (fun tg => (t, snd tg)) id (transports w) |>).

(** ** Notifications *)

Definition SessionRoute_is_relay (r : SessionRoute) : bool :=
  match r with R_relay => true | _ => false end.

Definition emitRoute (r : SessionRoute) (fallbackReason : option DirectFallbackReason) : M unit :=
  do* w := mget in
  let started := directStartedAt (this w) in
  let elapsed := if (0 <? started) && negb (SessionRoute_is_relay r)
                 then Some (Z.max 0 (now w - started)) else None in
  emit (OnRouteChange r (directDiagnostics (this w)) elapsed fallbackReason).

Definition onStatus (s : Status) : M unit := emit (OnStatus s).

(** ** Opening the relay socket *)

(** [this.reconnectTimer = window.setTimeout(..., delay)] with the next delay. *)
Definition scheduleReconnect : M unit :=
  do* attempts := self reconnectAttempts in
  do* _ := assign (fun c => c <| reconnectAttempts := attempts + 1 |>) in
  do* t := setTimeout ReconnectTimer (reconnectDelay attempts) in
  assign (fun c => c <| reconnectTimer := Some t |>).

(** [if (this.reconnectTimer !== null) { clearTimeout(...); ... = null }] *)
Definition clear_reconnect : M unit :=
  do* timer := self reconnectTimer in
  match timer with
  | None => mret tt
  | Some t =>
      do* _ := clearTimeout t in
      assign (fun c => c <| reconnectTimer := None |>)
  end.

Definition handleOpenFailure (generation : Z) : M unit :=
  do* _ := assign (fun c => c <| ws := None |>) in
  do* _ := onStatus error in
  do* c := self id in
  if detached c || suspended c || negb (acceptsRoute generation Route_Relay (route c)) then mret tt
  else scheduleReconnect.

Definition openWS (generation : Z) : M unit :=
  do* c := self id in
  if detached c || suspended c || negb (acceptsRoute generation Route_Relay (route c)) then mret tt
  else
    let auth := webSocketAuth (endpoint c) (js "/client") in
    do* throws := tick newWebSocket_throws in
    if throws then handleOpenFailure generation
    else
      do* id := gets (fun w => length (sockets w)) in
      do* _ := modify (fun w => w <| sockets := sockets w ++ [mkSocket CONNECTING generation] |>) in
      do* _ := emit (NewSocket id (fst auth) (snd auth)) in
      do* _ := assign (fun c => c <| ws := Some id |>) in
      onStatus (if reconnectAttempts c =? 0 then connecting else reconnecting).

(** ** Requests that the connection gives up *)

Fixpoint reject_all_fs (pending : list PendingFS) (err : jsstr) : M unit :=
  match pending with
  | [] => mret tt
  | item :: rest =>
      do* _ := clearTimeout (fs_timer item) in
      do* _ := settle (fs_promise item) (RejectWith err) in
      reject_all_fs rest err
  end.

Definition rejectPendingFSRequests (err : jsstr) : M unit :=
  do* pending := self (fun c => map_values (pendingFSRequests c)) in
  do* _ := assign (fun c => c <| pendingFSRequests := [] |>) in
  reject_all_fs pending err.

Fixpoint reject_all_services (pending : list PendingService) (err : jsstr) : M unit :=
  match pending with
  | [] => mret tt
  | item :: rest =>
      do* _ := clearTimeout (so_timer item) in
      do* _ := settle (so_promise item) (RejectWith err) in
      reject_all_services rest err
  end.

Definition rejectPendingServiceOpens (err : jsstr) : M unit :=
  do* pending := self (fun c => map_values (pendingServiceOpens c)) in
  do* _ := reject_all_services pending err in
  assign (fun c => c <| pendingServiceOpens := [] |>).

(** The two rejections and the clearing of the retired ids, which go together. *)
Definition failPendingRequests (fs service : string) : M unit :=
  do* _ := rejectPendingFSRequests (js fs) in
  do* _ := rejectPendingServiceOpens (js service) in
  assign (fun c => c <| retiredFSRequestIDs := [] |>).

(** ** The direct transport *)

Definition direct_close (d : nat) : M unit :=
  do* t := gets (fun w => transports w !! d) in
  match t with
  | None => mret tt
  | Some (t, _) =>
      do* _ := set_transport d (transport_close t) in
      emit (DirectClose d)
  end.

(** [this.direct?.close(); this.direct = null] *)
Definition drop_direct : M unit :=
  do* d := self direct in
  do* _ := match d with Some d => direct_close d | None => mret tt end in
  assign (fun c => c <| direct := None |>).

Definition handleDirectFailure (generation : Z) (d : nat) (err : jsstr) : M unit :=
  do* c := self id in
  if negb (bool_decide (direct c = Some d)) || negb (generation =? routeGeneration (route c)) then mret tt
  else
    do* _ := assign (fun c => c <| direct := None |>) in
    let wasActive := state_is (route c) DirectActive in
    let reason := directFallbackReason err wasActive in
    do* _ := assign (fun c => c <| lastFallbackReason := Some reason |>) in
    if state_is (route c) DirectConnecting || state_is (route c) DirectReplay then
      do* _ := on_route (abortDirect generation) in
      emitRoute R_relay (Some reason)
    else if negb wasActive || detached c || suspended c then mret tt
    else
      do* fallbackGeneration := on_route (directLost generation) in
      do* _ := emitRoute R_relay (Some reason) in
      do* _ := onStatus reconnecting in
      openWS fallbackGeneration.

(** [transport.sendFrame(frame)]: a failure the transport reports while it
    sends runs [onFailure] before the call returns [false]; what [onFailure]
    throws is swallowed there. *)
Definition direct_send (d : nat) (frame : bytes) : M bool :=
  do* t := gets (fun w => transports w !! d) in
  match t with
  | None => mret false
  | Some (t, generation) =>
      let '(t', outcome) := transport_sendFrame frame t in
      do* _ := set_transport d t' in
      match outcome with
      | Sent =>
          do* _ := emit (DirectSend d frame) in
          mret true
      | Refused => mret false
      | SendFailed err =>
          do* _ := mtry (handleDirectFailure generation d err) in
          mret false
      end
  end.

(** [this.direct?.sendFrame(frame)]: [undefined] counts as [false]. *)
Definition this_direct_send (frame : bytes) : M bool :=
  do* d := self direct in
  match d with Some d => direct_send d frame | None => mret false end.

(** ** Queued writes *)

Definition frame_of (type : Z) (payload : bytes) : M bytes :=
  do* sid := self sidBytes in
  mlift (encodeFrame type sid (Some payload)).

Definition resize_frame (cols rows : Z) : M bytes :=
  do* size := mlift (encodeResize cols rows) in
  frame_of TYPE.RESIZE size.

Definition claimPayload : M bytes :=
  do* c := self id in
  mret (json_bytes (JObj [(js "client_id", JStr (clientID c)); (js "client_name", JStr (clientName c))])).

Fixpoint send_inputs (id : nat) (queued : list jsstr) : M unit :=
  match queued with
  | [] => mret tt
  | s :: rest =>
      do* frame := frame_of TYPE.IN (encodeText s) in
      do* _ := ws_send id frame in
      send_inputs id rest
  end.

Definition flushPendingRelayWrites (id : nat) : M unit :=
  do* claim := self pendingDriverClaim in
  do* _ := mwhen claim (
    do* payload := claimPayload in
    do* frame := frame_of TYPE.CLAIM_DRIVER payload in
    do* _ := ws_send id frame in
    assign (fun c => c <| pendingDriverClaim := false |>)) in
  do* resize := self pendingResize in
  do* _ := match resize with
    | None => mret tt
    | Some (cols, rows) =>
        do* frame := resize_frame cols rows in
        do* _ := ws_send id frame in
        assign (fun c => c <| pendingResize := None |>)
    end in
  do* queued := self pendingInputs in
  do* _ := assign (fun c => c <| pendingInputs := [] |>) in
  send_inputs id queued.

(** The [while] loop of [flushPendingDirectWrites]; each turn removes an input
    or leaves the loop, so their number is enough fuel. *)
Fixpoint flush_direct_inputs (fuel : nat) (d : nat) : M unit :=
  match fuel with
  | O => mret tt
  | S fuel =>
      do* inputs := self pendingInputs in
      match inputs with
      | [] => mret tt
      | value :: _ =>
          do* frame := frame_of TYPE.IN (encodeText value) in
          do* ok := direct_send d frame in
          if ok then
            do* _ := assign (fun c => c <| pendingInputs := tail (pendingInputs c) |>) in
            flush_direct_inputs fuel d
          else mret tt
      end
  end.

Definition flushPendingDirectWrites (d : nat) : M unit :=
  do* claim := self pendingDriverClaim in
  do* ok :=
    if claim then
      do* payload := claimPayload in
      do* frame := frame_of TYPE.CLAIM_DRIVER payload in
      do* ok := direct_send d frame in
      do* _ := mwhen ok (assign (fun c => c <| pendingDriverClaim := false |>)) in
      mret ok
    else mret true in
  if negb ok then mret tt
  else
    do* resize := self pendingResize in
    do* ok :=
      match resize with
      | None => mret true
      | Some (cols, rows) =>
          do* frame := resize_frame cols rows in
          do* ok := direct_send d frame in
          do* _ := mwhen ok (assign (fun c => c <| pendingResize := None |>)) in
          mret ok
      end in
    if negb ok then mret tt
    else
      do* n := self (fun c => length (pendingInputs c)) in
      flush_direct_inputs n d.

(** ** The direct route *)

Definition maybeActivateDirect (generation : Z) : M unit :=
  do* c := self id in
  match direct c with
  | None => mret tt
  | Some d =>
      if negb (canActivateDirect generation (route c)) then mret tt
      else
        do* ok :=
          if isDriverRole c then
            do* claim := claimPayload in
            do* frame := frame_of TYPE.CLAIM_DRIVER claim in
            direct_send d frame
          else mret true in
        if negb ok then mret tt
        else
          do* _ := on_route (activateDirect generation) in
          do* _ := emitRoute R_direct None in
          do* _ := clear_reconnect in
          do* relay := self ws in
          do* _ := assign (fun c => c <| ws := None |>) in
          do* _ := failPendingRequests "filesystem request failed: direct terminal route activated"
                     "service preview failed: direct terminal route activated" in
          do* _ := match relay with Some id => ws_close id | None => mret tt end in
          flushPendingDirectWrites d
  end.

Definition is_32 (key : option bytes) : option bytes :=
  match key with Some k => if zlen k =? 32 then Some k else None | None => None end.

(** The attempt is over before it began. *)
Definition no_direct (reason : DirectFallbackReason) : M unit :=
  do* _ := assign (fun c => c <| directAttempted := true |>) in
  emitRoute R_relay (Some reason).

Definition maybeStartDirect : M unit :=
  do* c := self id in
  if negb (preferDirect c) || negb (remote c) || directAttempted c
     || negb (state_is (route c) RelayAttached) || detached c || suspended c then mret tt
  else
    match directEndpoint c with
    | None => no_direct signal_endpoint_unavailable
    | Some ep =>
        if negb (directTransportSupported c) then no_direct webrtc_unavailable
        else
          do* key := gets (fun w => is_32 (accountKey w)) in
          match key with
          | None => no_direct account_key_unavailable
          | Some key =>
              do* started := gets now in
              do* _ := assign (fun c => c <| directAttempted := true |> <| directStartedAt := started |>
                                          <| directDiagnostics := None |> <| lastFallbackReason := None |>) in
              do* generation := on_route beginDirect in
              do* _ := emitRoute R_connecting_direct None in
              let auth := webSocketAuth ep (js "/direct-signal") in
              do* since := self (fun c => lastCommittedSeq (route c)) in
              let options := mkDirectOptions (fst auth) (snd auth) (sessionId c) since (clientID c) key in
              match directTransportFactory options with
              | Ok t =>
                  do* d := gets (fun w => length (transports w)) in
                  do* _ := modify (fun w => w <| transports := transports w ++ [(t, generation)] |>) in
                  do* _ := emit (NewTransport d options) in
                  do* _ := assign (fun c => c <| direct := Some d |>) in
                  let '(t', failure) := transport_start t in
                  do* _ := set_transport d t' in
                  match failure with
                  | None => mret tt
                  | Some err => mtry (handleDirectFailure generation d err)
                  end
              | Throw msg =>
                  do* current := self (fun c => routeGeneration (route c)) in
                  do* _ := mwhen (current =? generation) (mtry (on_route (abortDirect generation))) in
                  let reason := directFallbackReason (js msg) false in
                  do* _ := assign (fun c => c <| direct := None |> <| lastFallbackReason := Some reason |>) in
                  emitRoute R_relay (Some reason)
              end
          end
    end.

(** ** Driver role *)

Definition claimDriver : M bool :=
  do* c := self id in
  if detached c || suspended c then mret false
  else
    do* payload := claimPayload in
    do* frame := frame_of TYPE.CLAIM_DRIVER payload in
    match inputRoute (route c) with
    | Route_Direct =>
        do* ok := this_direct_send frame in
        do* _ := assign (fun c => c <| pendingDriverClaim := negb ok |>) in
        mret ok
    | r =>
        do* open := gets ws_open in
        match r, open with
        | Route_Relay, Some id =>
            do* _ := ws_send id frame in
            do* _ := assign (fun c => c <| pendingDriverClaim := false |>) in
            mret true
        | _, _ =>
            do* _ := assign (fun c => c <| pendingDriverClaim := true |>) in
            mret false
        end
    end.

(** The fields of a META payload with the sealed ones overlaid. *)
Definition overlay_meta (meta fields : list (jsstr * Json)) (k : string) : list (jsstr * Json) :=
  match field fields k with Some v => set_prop meta k v | None => meta end.

Definition parse_meta (accountKey : option bytes) (sessionId : jsstr) (payload : bytes)
    : result (list (jsstr * Json)) :=
  let* parsed := JSON_parse (decodeText payload) in
  match as_record parsed with
  | None => Throw "META is not an object"
  | Some meta =>
      match accountKey, as_string (field meta "sealed") with
      | Some key, Some ((_ :: _) as sealed) =>
          let* env := b64ToBytes sealed in
          let* fields := openMetaFields env key sessionId in
          if truthy fields then
            let fs := match fields with Some (JObj fs) => fs | _ => [] end in
            Ok (overlay_meta (overlay_meta (overlay_meta meta fs "cwd") fs "title") fs "current_command")
          else Ok meta
      | _, _ => Ok meta
      end
  end.

(** The role transition that an authoritative META announces. *)
Definition noteDriver (newDriver newDriverName : jsstr) : M unit :=
  do* c := self id in
  if bool_decide (newDriver = currentDriverClientID c) then mret tt
  else
    let isMe := negb (bool_decide (newDriver = [])) && bool_decide (newDriver = clientID c) in
    do* _ := assign (fun c => c <| currentDriverClientID := newDriver |> <| isDriverRole := isMe |>) in
    emit (OnDriverChange newDriver isMe newDriverName).

Definition handleMeta (payload : bytes) (r : DirectRoute) : M unit :=
  do* key := gets accountKey in
  do* c := self id in
  match parse_meta key (sessionId c) payload with
  | Throw msg =>
      guard_throw (bool_decide (r = Route_Direct)) ("invalid direct META: Error: " +:+ msg) ;;;
      mret tt
  | Ok meta =>
      mtry (
        do* _ := emit (OnMeta meta) in
        let newDriver := string_or_empty (field meta "driver_client_id") in
        let newDriverName := string_or_empty (field meta "driver_client_name") in
        if bool_decide (r = Route_Relay) && recoverDriverIfVacant c then
          if bool_decide (newDriver = []) then
            do* _ := assign (fun c => c <| recoverDriverVacant := true |>) in
            if negb (state_is (route c) RelayReattaching) then
              do* _ := assign (fun c => c <| recoverDriverIfVacant := false |>
                                          <| recoverDriverVacant := false |>) in
              do* _ := claimDriver in
              mret tt
            else mret tt
          else
            do* _ := assign (fun c => c <| recoverDriverIfVacant := false |>
                                        <| recoverDriverVacant := false |>) in
            noteDriver newDriver newDriverName
        else noteDriver newDriver newDriverName)
  end.

(** ** Responses to pending requests *)

Definition handleFSResponse (payload : bytes) : M unit :=
  do* segs := mlift (decodeSegments payload) in
  match segs with
  | None => mret tt
  | Some segs =>
      match JSON_parse (decodeText (default [] (segs !! 0%nat))) with
      | Throw _ => mret tt
      | Ok parsed =>
          match as_record parsed with
          | Some response =>
              if negb (isFSResponse parsed) then mret tt
              else
                do* key := gets accountKey in
                do* sid := self sessionId in
                do* opened :=
                  if 1 <? zlen segs then mlift (openSealedFSResponse key sid response segs)
                  else mret (Some response) in
                match opened with
                | None => mret tt
                | Some response =>
                    do* pending := self (fun c =>
                      match as_string (field response "request_id") with
                      | Some rid => option_map (pair rid) (map_get (pendingFSRequests c) rid)
                      | None => None
                      end) in
                    match pending with
                    | None => mret tt
                    | Some (rid, pending) =>
                        do* _ := clearTimeout (fs_timer pending) in
                        do* _ := assign (fun c => c <| pendingFSRequests := map_delete (pendingFSRequests c) rid |>) in
                        settle (fs_promise pending) (ResolveFS response)
                    end
                end
          | None => mret tt
          end
      end
  end.

(** The parsed event, or nothing when the frame must be dropped. *)
Definition parse_fs_event (accountKey : option bytes) (sessionId : jsstr) (segs : list bytes)
    : result (option (list (jsstr * Json))) :=
  let* parsed := JSON_parse (decodeText (default [] (segs !! 0%nat))) in
  match as_record parsed with
  | None => Ok None
  | Some event =>
      if negb (is_string (field event "watch_id")) || negb (is_string (field event "event")) then Ok None
      else
        let* event :=
          if 1 <? zlen segs then
            match accountKey with
            | None => Ok None
            | Some key =>
                match openUnsequencedFrame key sessionId TYPE.FS_EVENT (default [] (segs !! 1%nat)) with
                | None => Ok None
                | Some opened =>
                    let* fields := JSON_parse (decodeText opened) in
                    let* path := prop fields "path" in
                    Ok (Some (set_prop event "path"
                      match path with None | Some JNull => JStr [] | Some p => p end))
                end
            end
          else Ok (Some event) in
        match event with
        | Some event => if is_string (field event "path") then Ok (Some event) else Ok None
        | None => Ok None
        end
  end.

Fixpoint notify_fs_handlers (handlers : list nat) (event : list (jsstr * Json)) : M unit :=
  match handlers with
  | [] => mret tt
  | h :: rest =>
      do* _ := emit (OnFSEvent h event) in
      notify_fs_handlers rest event
  end.

Definition handleFSEvent (payload : bytes) : M unit :=
  do* segs := mlift (decodeSegments payload) in
  match segs with
  | None => mret tt
  | Some segs =>
      do* key := gets accountKey in
      do* c := self id in
      match parse_fs_event key (sessionId c) segs with
      | Ok (Some event) => notify_fs_handlers (fsEventHandlers c) event
      | _ => mret tt
      end
  end.

Definition handleServiceOpened (payload : bytes) : M unit :=
  match JSON_parse (decodeText payload) with
  | Throw _ => mret tt
  | Ok response =>
      do* request_id := mlift (prop response "request_id") in
      if negb (truthy request_id) then mret tt
      else
        do* pending := self (fun c =>
          match as_string request_id with
          | Some rid => option_map (pair rid) (map_get (pendingServiceOpens c) rid)
          | None => None
          end) in
        match pending with
        | None => mret tt
        | Some (rid, pending) =>
            do* _ := clearTimeout (so_timer pending) in
            do* _ := assign (fun c => c <| pendingServiceOpens := map_delete (pendingServiceOpens c) rid |>) in
            do* ok := mlift (prop response "ok") in
            do* ticket := mlift (prop response "client_ticket") in
            do* service_id := mlift (prop response "service_id") in
            do* err := mlift (prop response "error") in
            if negb (truthy ok) || negb (truthy ticket)
               || negb (bool_decide (as_string service_id = Some (so_serviceId pending))) then
              settle (so_promise pending) (RejectWith
                (if truthy err then String_ (default JNull err) else js "service preview rejected"))
            else
              settle (so_promise pending) (ResolveService (so_serviceId pending) (default JNull ticket)
                (so_clientToHostKey pending) (so_hostToClientKey pending))
        end
  end.

(** ** Protocol frames *)

Definition decryptOut (key : option bytes) (sessionId : jsstr) (data : bytes) (seq : Z) : option bytes :=
  if (zlen data <? 1 + 24 + 16) || negb (bool_decide (idx data 0 = Some 0x01)) then Some data
  else
    match key with
    | None => None
    | Some k => openOutFrame data k sessionId seq
    end.

(** [const out = this.remote ? this.decryptOut(data, seq) : data;
     if (out) this.handlers.onOutput?.(out)] *)
Definition deliver (data : bytes) (seq : Z) : M unit :=
  do* w := mget in
  match (if remote (this w) then decryptOut (accountKey w) (sessionId (this w)) data seq
         else Some data) with
  | Some out => emit (OnOutput seq out)
  | None => mret tt
  end.

Definition handleOut (payload : bytes) (r : DirectRoute) (generation : Z) : M unit :=
  do* p := mlift (decodeOutPayload payload) in
  let '(seq, data) := p in
  let isDirect := bool_decide (r = Route_Direct) in
  if seq =? 0 then
    guard_throw isDirect "direct OUT is missing sequence" ;;;
    deliver data seq
  else
    do* fresh := on_route (acceptOutput generation r seq) in
    if negb fresh then mwhen isDirect (maybeActivateDirect generation)
    else
      do* _ := deliver data seq in
      do* _ := assign (fun c => c <| lastSeq := lastCommittedSeq (route c) |>) in
      mwhen isDirect (maybeActivateDirect generation).

Definition handleClose (payload : bytes) : M unit :=
  do* _ := emit (OnClose match JSON_parse (decodeText payload) with
                         | Ok info => info
                         | Throw _ => JObj [(js "exit_code", jint 0)]
                         end) in
  do* _ := onStatus ended in
  drop_direct.

(** The replay of the relay has ended. *)
Definition relayReplayEnd (generation : Z) : M unit :=
  do* _ := assign (fun c => c <| relayReplayComplete := true |>) in
  do* c := self id in
  if state_is (route c) RelayReattaching then
    do* _ := on_route (relayAttached generation) in
    do* _ := onStatus attached in
    do* _ := emitRoute R_relay (lastFallbackReason c) in
    do* _ := mwhen (recoverDriverIfVacant c && recoverDriverVacant c) (
      do* _ := assign (fun c => c <| recoverDriverIfVacant := false |> <| recoverDriverVacant := false |>) in
      do* _ := claimDriver in
      mret tt) in
    do* open := gets ws_open in
    match open with Some id => flushPendingRelayWrites id | None => mret tt end
  else maybeStartDirect.

Definition handleReplayProgress (payload : bytes) (r : DirectRoute) (generation : Z) : M unit :=
  match JSON_parse (decodeText payload) with
  | Throw _ => mret tt
  | Ok progress =>
      do* _ := emit (OnReplayProgress progress) in
      if bool_decide (r = Route_Relay) then
        do* phase := mlift (prop progress "phase") in
        mwhen (bool_decide (as_string phase = Some (js "end"))) (relayReplayEnd generation)
      else mret tt
  end.

Definition handleProtocolFrame (f : Frame) (r : DirectRoute) (generation : Z) : M unit :=
  do* c := self id in
  if negb (acceptsRoute generation r (route c)) then mret tt
  else if negb (sameSessionID (f_sid f) (sidBytes c)) then
    guard_throw (bool_decide (r = Route_Direct)) "direct frame session mismatch" ;;;
    mret tt
  else if f_type f =? TYPE.OUT then handleOut (f_payload f) r generation
  else if f_type f =? TYPE.CLOSE then handleClose (f_payload f)
  else if f_type f =? TYPE.META then handleMeta (f_payload f) r
  else if f_type f =? TYPE.REPLAY_PROGRESS then handleReplayProgress (f_payload f) r generation
  else
    guard_throw (bool_decide (r = Route_Direct)) "unsupported direct frame type" ;;;
    if f_type f =? TYPE.FS_RESPONSE then handleFSResponse (f_payload f)
    else if f_type f =? TYPE.FS_EVENT then handleFSEvent (f_payload f)
    else if f_type f =? TYPE.SERVICE_OPENED then handleServiceOpened (f_payload f)
    else mret tt.

(** ** Public methods *)

Definition attach : M unit :=
  do* c := self id in
  if detached c then mret tt
  else
    do* _ := mwhen (suspended c)
      (assign (fun c => c <| route := new_tracker (lastSeq c) |> <| directAttempted := false |>
                          <| relayReplayComplete := false |>)) in
    do* _ := assign (fun c => c <| suspended := false |>) in
    do* c := self id in
    match ws c, reconnectTimer c with
    | None, None => openWS (routeGeneration (route c))
    | _, _ => mret tt
    end.

Definition setPreferDirect (enabled : bool) : M unit :=
  do* c := self id in
  if Bool.eqb (preferDirect c) enabled then mret tt
  else
    do* _ := assign (fun c => c <| preferDirect := enabled |>) in
    if enabled then
      do* _ := assign (fun c => c <| directAttempted := false |>) in
      mwhen (relayReplayComplete c) maybeStartDirect
    else
      do* _ := assign (fun c => c <| direct := None |>) in
      do* _ := match direct c with Some d => direct_close d | None => mret tt end in
      if state_is (route c) DirectConnecting || state_is (route c) DirectReplay then
        do* _ := mtry (on_route (abortDirect (routeGeneration (route c)))) in
        emitRoute R_relay (Some preference_disabled)
      else if state_is (route c) DirectActive then
        do* generation := on_route (directLost (routeGeneration (route c))) in
        do* _ := emitRoute R_relay (Some preference_disabled) in
        do* _ := onStatus reconnecting in
        openWS generation
      else mret tt.

(** What [suspend] and [detach] share: everything in flight is given up. *)
Definition dropTransports : M unit :=
  do* _ := drop_direct in
  do* _ := assign (fun c => c <| pendingDriverClaim := false |>) in
  do* _ := clear_reconnect in
  do* socket := self ws in
  match socket with
  | None => mret tt
  | Some id =>
      do* _ := ws_close id in
      assign (fun c => c <| ws := None |>)
  end.

Definition suspend : M unit :=
  do* c := self id in
  if detached c then mret tt
  else
    do* _ := assign (fun c => c <| suspended := true |>) in
    do* _ := failPendingRequests "filesystem request failed: connection suspended"
               "service preview failed: connection suspended" in
    dropTransports.

Definition detach : M unit :=
  do* _ := assign (fun c => c <| detached := true |> <| suspended := false |>) in
  do* _ := failPendingRequests "filesystem request failed: connection detached"
             "service preview failed: connection detached" in
  dropTransports.

Fixpoint newUniqueFSRequestID (attempts : nat) : M jsstr :=
  match attempts with
  | O => tick fallbackFSRequestID
  | S attempts =>
      do* uuid := tick randomUUID in
      let requestID := js "fs-" ++ uuid in
      do* taken := self (fun c => map_has (pendingFSRequests c) requestID) in
      if taken then newUniqueFSRequestID attempts else mret requestID
  end.

(** [ws.send(encodeFrame(...))] and the exception it ended with, if any. *)
Definition try_send (id : nat) (type : Z) (payload : bytes) : M (option string) :=
  fun w =>
    match (do* frame := frame_of type payload in ws_send id frame) w with
    | (w', Ok _) => (w', Ok None)
    | (w', Throw msg) => (w', Ok (Some msg))
    end.

(** [try { ws.send(frame) } catch (e) { on_error }] *)
Definition send_or (id : nat) (type : Z) (payload : bytes) (on_error : string -> M unit) : M unit :=
  do* failure := try_send id type payload in
  match failure with None => mret tt | Some msg => on_error msg end.

Definition sendFSRequest (req : FSRequest) (timeoutMs : Z) : M nat :=
  do* open := gets ws_open in
  match open with
  | None => rejected (js "filesystem request failed: websocket is not open")
  | Some id =>
      do* requestID := match field req "request_id" with
        | Some (JStr ((_ :: _) as s)) => mret s
        | _ => newUniqueFSRequestID 5
        end in
      do* c := self Datatypes.id in
      if map_has (pendingFSRequests c) requestID then
        rejected (js "duplicate filesystem request_id: " ++ requestID)
      else if bool_decide (requestID ∈ retiredFSRequestIDs c) then
        rejected (js "retired filesystem request_id after timeout: " ++ requestID)
      else
        let payload := set_prop req "request_id" (JStr requestID) in
        do* key := gets accountKey in
        do* nonce := match key with Some _ => tick randomBytes24 | None => mret [] end in
        do* encoded := mlift (encodeFSRequestPayload key nonce payload (sessionId c)) in
        do* p := newPromise in
        do* timer := setTimeout (FSRequestTimer requestID p) timeoutMs in
        do* _ := assign (fun c => c <| pendingFSRequests :=
                   map_set (pendingFSRequests c) requestID (mkPendingFS p timer) |>) in
        do* _ := send_or id TYPE.FS_REQUEST encoded (fun msg =>
          do* _ := clearTimeout timer in
          do* _ := assign (fun c => c <| pendingFSRequests := map_delete (pendingFSRequests c) requestID |>) in
          settle p (RejectWith (js msg))) in
        mret p
  end.

Definition openService (port : Number) (host : jsstr) (timeoutMs : Z) : M nat :=
  do* open := gets ws_open in
  match open with
  | None => rejected (js "service preview failed: websocket is not open")
  | Some id =>
      if negb (port_ok port) then rejected (js "service preview failed: invalid port")
      else if negb (is_loopback host) then rejected (js "service preview failed: target must be loopback")
      else
        do* key := gets (fun w => is_32 (accountKey w)) in
        match key with
        | None => rejected (js "service preview requires unlocked E2EE")
        | Some key =>
            do* requestId := tick randomUUID in
            do* serviceId := tick randomUUID in
            do* keys := mlift (deriveServiceKeys key serviceId) in
            do* sid := self sessionId in
            do* nonce := tick randomBytes24 in
            do* sealed := mlift (sealUnsequenced nonce key sid TYPE.SERVICE_OPEN
              (json_bytes (JObj [(js "port", JNum port); (js "scheme", JStr (js "http")); (js "host", JStr host)]))) in
            let payload := json_bytes (JObj [(js "request_id", JStr requestId);
              (js "service_id", JStr serviceId); (js "sealed", JStr (btoa sealed))]) in
            do* p := newPromise in
            do* timer := setTimeout (ServiceOpenTimer requestId p) timeoutMs in
            do* _ := assign (fun c => c <| pendingServiceOpens := map_set (pendingServiceOpens c) requestId
                       (mkPendingService p timer serviceId (clientToHost keys) (hostToClient keys)) |>) in
            do* _ := send_or id TYPE.SERVICE_OPEN payload (fun msg =>
              do* _ := clearTimeout timer in
              do* _ := assign (fun c => c <| pendingServiceOpens := map_delete (pendingServiceOpens c) requestId |>) in
              settle p (RejectWith (js msg))) in
            mret p
        end
  end.

Definition closeService (serviceId : jsstr) : M unit :=
  do* open := gets ws_open in
  match open with
  | None => mret tt
  | Some id =>
      send_or id TYPE.SERVICE_CLOSE (json_bytes (JObj [(js "service_id", JStr serviceId)])) (fun _ => mret tt)
  end.

(** [fsEventHandlers] is a [Set]: an entry is added once. *)
Definition onFSEvent (h : nat) : M unit :=
  assign (fun c => c <| fsEventHandlers :=
    if bool_decide (h ∈ fsEventHandlers c) then fsEventHandlers c else fsEventHandlers c ++ [h] |>).

Definition offFSEvent (h : nat) : M unit :=
  assign (fun c => c <| fsEventHandlers := filter (fun h' => h' <> h) (fsEventHandlers c) |>).

Definition push_input (s : jsstr) : M unit :=
  assign (fun c => c <| pendingInputs := pendingInputs c ++ [s] |>).

Definition sendInput (s : jsstr) : M unit :=
  do* c := self id in
  match inputRoute (route c) with
  | Route_Direct =>
      do* frame := frame_of TYPE.IN (encodeText s) in
      do* ok := this_direct_send frame in
      mwhen (negb ok) (push_input s)
  | Route_None => push_input s
  | Route_Relay =>
      match ws c with
      | None => push_input s
      | Some id =>
          do* st := gets (socketState id) in
          match st with
          | CONNECTING => push_input s
          | OPEN =>
              do* frame := frame_of TYPE.IN (encodeText s) in
              ws_send id frame
          | CLOSING | CLOSED => mret tt
          end
      end
  end.

Definition sendResize (cols rows : Z) : M unit :=
  do* c := self id in
  match inputRoute (route c) with
  | Route_Direct =>
      do* frame := resize_frame cols rows in
      do* ok := this_direct_send frame in
      assign (fun c => c <| pendingResize := if ok then None else Some (cols, rows) |>)
  | _ =>
      do* open := gets ws_open in
      match open with
      | Some id =>
          do* frame := resize_frame cols rows in
          do* _ := ws_send id frame in
          assign (fun c => c <| pendingResize := None |>)
      | None => assign (fun c => c <| pendingResize := Some (cols, rows) |>)
      end
  end.

Definition pasteImageBlockReason (open : bool) (blobSize : Z) : option jsstr :=
  if negb open then Some (translate "terminal.websocketNotOpen")
  else if MAX_PASTE_BYTES <? blobSize then Some (translate "terminal.imageTooLarge")
  else None.

(** [sendPasteImage] and [sendPasteFile] up to the read of the blob; the
    socket is the one seen before it. *)
Definition sendPaste (type : Z) (fallbackContentType blobType content filename : jsstr) : M nat :=
  do* open := gets ws_open in
  match open, pasteImageBlockReason (if open then true else false) (zlen content) with
  | Some id, None =>
      do* p := newPromise in
      let payload := encodePastePayload blobType content filename fallbackContentType in
      do* _ := modify (fun w => w <| pendingPastes := pendingPastes w ++ [(p, (id, type, payload))] |>) in
      mret p
  | _, blocked =>
      do* _ := onStatus error in
      rejected (default (js "websocket is not open") blocked)
  end.

Definition sendPasteImage (blobType content filename : jsstr) : M nat :=
  sendPaste TYPE.PASTE_IMAGE (js "image/png") blobType content filename.

Definition sendPasteFile (blobType content filename : jsstr) : M nat :=
  sendPaste TYPE.PASTE_FILE (js "application/octet-stream") blobType content filename.

(** The rest of a paste, once reading the blob has ended, with an error if it
    failed; what it throws rejects the promise. *)
Definition pasteResume (p : nat) (read_error : option jsstr) : M unit :=
  do* pending := gets (fun w => map_get (pendingPastes w) p) in
  match pending with
  | None => mret tt
  | Some (id, type, payload) =>
      do* _ := modify (fun w => w <| pendingPastes := map_delete (pendingPastes w) p |>) in
      match read_error with
      | Some err => settle p (RejectWith err)
      | None =>
          do* failure := try_send id type payload in
          settle p match failure with None => ResolvePaste | Some msg => RejectWith (js msg) end
      end
  end.

(** ** Callbacks *)

Definition socket_onopen (id : nat) (generation : Z) : M unit :=
  do* c := self Datatypes.id in
  if negb (bool_decide (ws c = Some id)) || negb (acceptsRoute generation Route_Relay (route c))
  then ws_close id
  else
    do* _ := assign (fun c => c <| retiredFSRequestIDs := [] |> <| recoverDriverIfVacant := isDriverRole c |>
                                <| recoverDriverVacant := false |>) in
    do* _ := mwhen (negb (state_is (route c) RelayReattaching)) (onStatus attached) in
    let attachPayload := json_bytes (JObj [(js "session_id", JStr (sessionId c));
      (js "since_seq", jint (lastCommittedSeq (route c))); (js "client_id", JStr (clientID c));
      (js "client_name", JStr (clientName c))]) in
    do* frame := frame_of TYPE.ATTACH attachPayload in
    do* _ := ws_send id frame in
    mwhen (bool_decide (inputRoute (route c) = Route_Relay)) (flushPendingRelayWrites id).

Definition socket_onmessage (id : nat) (generation : Z) (data : bytes) : M unit :=
  do* c := self Datatypes.id in
  if negb (bool_decide (ws c = Some id)) || negb (acceptsRoute generation Route_Relay (route c))
  then mret tt
  else
    match decodeFrame data with
    | Throw _ => mret tt
    | Ok f =>
        do* _ := assign (fun c => c <| reconnectAttempts := 0 |>) in
        handleProtocolFrame f Route_Relay generation
    end.

Definition socket_onclose (id : nat) : M unit :=
  do* c := self Datatypes.id in
  if negb (bool_decide (ws c = Some id)) then mret tt
  else
    do* _ := assign (fun c => c <| ws := None |>) in
    do* _ := failPendingRequests "filesystem request failed: websocket closed"
               "service preview failed: websocket closed" in
    if detached c || suspended c then mret tt
    else
      do* _ := onStatus reconnecting in
      scheduleReconnect.

Definition timer_fired (kind : TimerKind) : M unit :=
  match kind with
  | ReconnectTimer =>
      do* _ := assign (fun c => c <| reconnectTimer := None |>) in
      do* generation := self (fun c => routeGeneration (route c)) in
      openWS generation
  | FSRequestTimer requestID p =>
      do* _ := assign (fun c => c <| pendingFSRequests := map_delete (pendingFSRequests c) requestID |>
        <| retiredFSRequestIDs := if bool_decide (requestID ∈ retiredFSRequestIDs c)
             then retiredFSRequestIDs c else retiredFSRequestIDs c ++ [requestID] |>) in
      settle p (RejectWith (js "filesystem request timed out: " ++ requestID))
  | ServiceOpenTimer requestId p =>
      do* _ := assign (fun c => c <| pendingServiceOpens := map_delete (pendingServiceOpens c) requestId |>) in
      settle p (RejectWith (js "service preview timed out"))
  end.

(** The callbacks given to the transport: each first checks that the transport
    and its generation are still the current ones. *)
Definition direct_callback (d : nat) (generation : Z) (cb : Callback) : M unit :=
  do* c := self id in
  let current := bool_decide (direct c = Some d) && (generation =? routeGeneration (route c)) in
  match cb with
  | CbFailure err => handleDirectFailure generation d err
  | CbAuthenticated =>
      mwhen current (on_route (beginDirectReplay generation))
  | CbFrame frame =>
      mwhen current (
        do* f := mlift (decodeFrame frame) in
        handleProtocolFrame f Route_Direct generation)
  | CbReady replayedSeq =>
      mwhen current (
        do* _ := on_route (noteDirectReady generation replayedSeq) in
        maybeActivateDirect generation)
  | CbDiagnostics diagnostics =>
      mwhen current (
        do* _ := assign (fun c => c <| directDiagnostics := Some diagnostics |>) in
        emitRoute (if state_is (route c) DirectActive then R_direct else R_connecting_direct) None)
  end.

(** The transport runs [onFailure] and [onDiagnostics] inside a [try]; it
    turns an exception of another callback into its own failure. *)
Fixpoint swallow_callbacks (d : nat) (generation : Z) (cbs : list Callback) : M unit :=
  match cbs with
  | [] => mret tt
  | cb :: rest =>
      do* _ := mtry (direct_callback d generation cb) in
      swallow_callbacks d generation rest
  end.

Definition callback_threw (d : nat) (generation : Z) (msg : string) : M unit :=
  do* t := gets (fun w => transports w !! d) in
  match t with
  | None => mret tt
  | Some (t, _) =>
      let '(t', cbs) := transport_threw (js msg) t in
      do* _ := set_transport d t' in
      swallow_callbacks d generation cbs
  end.

Definition run_callback (d : nat) (generation : Z) (cb : Callback) : M unit :=
  match cb with
  | CbFailure _ | CbDiagnostics _ => mtry (direct_callback d generation cb)
  | _ =>
      fun w =>
        match direct_callback d generation cb w with
        | (w', Ok _) => (w', Ok tt)
        | (w', Throw msg) => callback_threw d generation msg w'
        end
  end.

Fixpoint run_callbacks (d : nat) (generation : Z) (cbs : list Callback) : M unit :=
  match cbs with
  | [] => mret tt
  | cb :: rest =>
      do* _ := run_callback d generation cb in
      run_callbacks d generation rest
  end.

(** ** The event loop *)

Inductive Event :=
  | EvAttach | EvSuspend | EvDetach
  | EvSetPreferDirect (enabled : bool)
  | EvSendInput (s : jsstr)
  | EvSendResize (cols rows : Z)
  | EvClaimDriver
  | EvSendFSRequest (req : FSRequest) (timeoutMs : Z)
  | EvOpenService (port : Number) (host : jsstr) (timeoutMs : Z)
  | EvCloseService (serviceId : jsstr)
  | EvOnFSEvent (h : nat) | EvOffFSEvent (h : nat)
  | EvPasteImage (blobType content filename : jsstr)
  | EvPasteFile (blobType content filename : jsstr)
  | EvPasteResume (p : nat) (read_error : option jsstr)
  | EvSocketOpen (id : nat)
  | EvSocketMessage (id : nat) (data : bytes)
  | EvSocketClosing (id : nat)
  | EvSocketClose (id : nat)
  | EvTimer (id : nat)
  | EvTransport (d : nat) (e : TransportEvent)
  | EvAccountKey (key : option bytes)
  | EvNow (t : Z).

(** A method called for its effects. *)
Definition void {A} (m : M A) : M unit := do* _ := m in mret tt.

Definition socketGeneration (id : nat) (w : World) : Z :=
  match sockets w !! id with Some s => sock_generation s | None => 0 end.

Definition dispatch (e : Event) : M unit :=
  match e with
  | EvAttach => attach
  | EvSuspend => suspend
  | EvDetach => detach
  | EvSetPreferDirect enabled => setPreferDirect enabled
  | EvSendInput s => sendInput s
  | EvSendResize cols rows => sendResize cols rows
  | EvClaimDriver => void claimDriver
  | EvSendFSRequest req timeoutMs => void (sendFSRequest req timeoutMs)
  | EvOpenService port host timeoutMs => void (openService port host timeoutMs)
  | EvCloseService serviceId => closeService serviceId
  | EvOnFSEvent h => onFSEvent h
  | EvOffFSEvent h => offFSEvent h
  | EvPasteImage blobType content filename => void (sendPasteImage blobType content filename)
  | EvPasteFile blobType content filename => void (sendPasteFile blobType content filename)
  | EvPasteResume p read_error => pasteResume p read_error
  | EvSocketOpen id =>
      do* st := gets (socketState id) in
      do* generation := gets (socketGeneration id) in
      mwhen (bool_decide (st = CONNECTING)) (
        do* _ := set_socket id OPEN in
        socket_onopen id generation)
  | EvSocketMessage id data =>
      do* st := gets (socketState id) in
      do* generation := gets (socketGeneration id) in
      mwhen (bool_decide (st = OPEN)) (socket_onmessage id generation data)
  | EvSocketClosing id =>
      do* st := gets (socketState id) in
      mwhen (bool_decide (st = CONNECTING) || bool_decide (st = OPEN)) (set_socket id CLOSING)
  | EvSocketClose id =>
      do* st := gets (socketState id) in
      mwhen (negb (bool_decide (st = CLOSED))) (
        do* _ := set_socket id CLOSED in
        socket_onclose id)
  | EvTimer t =>
      do* kind := gets (fun w => map_get (timers w) t) in
      match kind with
      | None => mret tt
      | Some kind =>
          do* _ := clearTimeout t in
          timer_fired kind
      end
  | EvTransport d e =>
      do* t := gets (fun w => transports w !! d) in
      match t with
      | None => mret tt
      | Some (t, generation) =>
          let '(t', cbs) := transport_event e t in
          do* _ := set_transport d t' in
          run_callbacks d generation cbs
      end
  | EvAccountKey key => modify (fun w => w <| accountKey := key |>)
  | EvNow t => modify (fun w => w <| now := t |>)
  end.

(** One turn of the event loop; an exception that nothing catches is reported
    by the run time and the state stays as it is. *)
Definition step (e : Event) (w : World) : World := fst (dispatch e w).

Definition run (events : list Event) (w : World) : World := fold_left (fun w e => step e w) events w.

(** ** The constructor *)

(** [s.trim()] *)
Definition trim (s : jsstr) : jsstr := rev (trim_start (rev (trim_start s))).

Definition defaultClientName : jsstr :=
  if bool_decide (navigatorPlatform = []) then js "browser"
  else js "browser (" ++ navigatorPlatform ++ js ")".

Definition new_connection (ep : Endpoint) (sid : jsstr) (clientId : jsstr) (o : Options) : result Conn :=
  let* sidBytes := uuidParse sid in
  let name := trim (o_clientName o) in
  Ok (mkConn ep sid sidBytes clientId (if bool_decide (name = []) then defaultClientName else name)
        (o_remote o) (o_directEndpoint o) (o_directTransportSupported o) (o_preferDirect o)
        None 0 (new_tracker 0) None false 0 None false false None [] false false 0 None None [] false
        false false [] [] [] []).

Definition init (c : Conn) : World := mkWorld c [] [] [] 0 0 [] 1 0 None [].
End Connection.
