(* ===== verification/ConnFrame.v ===== *)
(** * Reasoning about the session connection

    Frame reasoning for the methods of [Connection]: [same v m] says that [m]
    leaves the view [v] of the world unchanged, [keeps I m] that it keeps the
    invariant [I], on every outcome. Both follow the structure of a method. *)

From S2P Require Import Prelude Bytes JsString JsMap Json Proto FsSegments DirectCrypto.
From S2P Require Import DirectRoute Opaque ConnWire Transport Connection.

Section Frames.
Context {S A B : Type}.

Definition same {V} (v : S -> V) (m : method S A) : Prop := forall s, v (fst (m s)) = v s.

Definition keeps (I : S -> Prop) (m : method S A) : Prop := forall s, I s -> I (fst (m s)).

Lemma same_ret {V} (v : S -> V) (a : A) : same v (mret a).
Proof. by intros s. Qed.

Lemma same_throw {V} (v : S -> V) msg : same v (mthrow msg : method S A).
Proof. by intros s. Qed.

Lemma same_lift {V} (v : S -> V) (r : result A) : same v (mlift r).
Proof. by intros s. Qed.

Lemma keeps_ret (I : S -> Prop) (a : A) : keeps I (mret a).
Proof. by intros s. Qed.

Lemma keeps_throw (I : S -> Prop) msg : keeps I (mthrow msg : method S A).
Proof. by intros s. Qed.

Lemma keeps_lift (I : S -> Prop) (r : result A) : keeps I (mlift r).
Proof. by intros s. Qed.

(** A method that leaves a view alone keeps every property of the view. *)
Lemma same_keeps {V} (v : S -> V) (m : method S A) (P : V -> Prop) :
  same v m -> keeps (fun s => P (v s)) m.
Proof. intros H s Hs. by rewrite H. Qed.
End Frames.

Lemma same_bind {S A B V} (v : S -> V) (m : method S A) (k : A -> method S B) :
  same v m -> (forall a, same v (k a)) -> same v (mbind m k).
Proof.
  intros Hm Hk s. unfold mbind. specialize (Hm s). destruct (m s) as [s' [a|msg]]; [|done].
  cbn in *. by rewrite Hk.
Qed.

Lemma keeps_bind {S A B} (I : S -> Prop) (m : method S A) (k : A -> method S B) :
  keeps I m -> (forall a, keeps I (k a)) -> keeps I (mbind m k).
Proof.
  intros Hm Hk s Hs. unfold mbind. specialize (Hm s Hs). destruct (m s) as [s' [a|msg]]; [|done].
  by apply Hk.
Qed.

(** What follows a step keeps what the step established. *)
Lemma bind_keeps {S A B} (I : S -> Prop) (m : method S A) (k : A -> method S B) s :
  I (fst (m s)) -> (forall a, keeps I (k a)) -> I (fst (mbind m k s)).
Proof.
  intros Hm Hk. unfold mbind. destruct (m s) as [s' [a|msg]]; [|done]. by apply Hk.
Qed.

(** A step that succeeds. *)
Lemma bind_ok {S A B} (m : method S A) (k : A -> method S B) s a :
  snd (m s) = Ok a -> mbind m k s = k a (fst (m s)).
Proof. unfold mbind. destruct (m s) as [s' r]. cbn. by intros ->. Qed.

Section World.
Context `{Crypto} `{JsText} `{Host} `{DirectTransport}.
Implicit Types (w : World).

Lemma same_gets {V A} (v : World -> V) (f : World -> A) : same v (gets f).
Proof. by intros w. Qed.

Lemma same_modify {V} (v : World -> V) f : (forall w, v (f w) = v w) -> same v (modify f).
Proof. intros Hf w. apply Hf. Qed.

Lemma same_tick {V A} (v : World -> V) (supply : nat -> A) :
  (forall w n, v (w <| ticks := n |>) = v w) -> same v (tick supply).
Proof. intros Hv w. apply Hv. Qed.

Lemma same_mtry {V} (v : World -> V) m : same v m -> same v (mtry m).
Proof. intros Hm w. apply Hm. Qed.

Lemma same_newPromise {V} (v : World -> V) :
  (forall w n, v (w <| nextPromise := n |>) = v w) -> same v newPromise.
Proof. intros Hv w. apply Hv. Qed.

Lemma keeps_gets {A} (I : World -> Prop) (f : World -> A) : keeps I (gets f).
Proof. by intros w. Qed.

(** A read at the head of a method: what was read is known. *)
Lemma keeps_gets_bind {A B} (I : World -> Prop) (f : World -> A) (k : A -> M B) :
  (forall w, I w -> I (fst (k (f w) w))) -> keeps I (mbind (gets f) k).
Proof. intros Hk w Hw. apply (Hk w Hw). Qed.

Lemma keeps_modify (I : World -> Prop) f : (forall w, I w -> I (f w)) -> keeps I (modify f).
Proof. intros Hf w Hw. by apply Hf. Qed.

Lemma keeps_mtry (I : World -> Prop) m : keeps I m -> keeps I (mtry m).
Proof. intros Hm w Hw. by apply Hm. Qed.

Lemma keeps_tick {A} (I : World -> Prop) (supply : nat -> A) :
  (forall w n, I w -> I (w <| ticks := n |>)) -> keeps I (tick supply).
Proof. intros Hv w Hw. by apply Hv. Qed.
End World.

(** ** What a method can change

    [touches F m]: every field of the world outside [F] is the same after [m].
    The effects of the trace are split by kind, each kind counting as a field. *)

Inductive EffectKind := K_socket | K_send | K_transport | K_timeout | K_settle | K_output | K_ui.

Definition effect_kind (e : Effect) : EffectKind :=
  match e with
  | NewSocket _ _ _ | SocketClose _ => K_socket
  | SocketSend _ _ | DirectSend _ _ => K_send
  | NewTransport _ _ | DirectClose _ => K_transport
  | SetTimeout _ _ => K_timeout
  | Settle _ _ => K_settle
  | OnOutput _ _ => K_output
  | _ => K_ui
  end.

#[export] Instance EffectKind_eq_dec : EqDecision EffectKind.
Proof. solve_decision. Defined.

Definition of_kind (k : EffectKind) (t : list Effect) : list Effect :=
  filter (fun e => effect_kind e = k) t.

Inductive Field :=
  | F_preferDirect | F_ws | F_lastSeq | F_route | F_direct | F_directAttempted | F_reconnectAttempts | F_reconnectTimer
  | F_detached | F_suspended | F_pendingResize | F_pendingInputs | F_pendingDriverClaim | F_relayReplayComplete | F_directStartedAt
  | F_directDiagnostics | F_lastFallbackReason | F_currentDriverClientID | F_isDriverRole | F_recoverDriverIfVacant | F_recoverDriverVacant
  | F_pendingFSRequests | F_retiredFSRequestIDs | F_fsEventHandlers | F_pendingServiceOpens
  | F_sockets | F_transports | F_timers | F_nextTimer | F_nextPromise | F_pendingPastes | F_ticks | F_now | F_accountKey
  | F_constants
  | F_effects (k : EffectKind).

#[export] Instance Field_eq_dec : EqDecision Field.
Proof. solve_decision. Defined.

Definition has (F : list Field) (f : Field) : bool := bool_decide (f ∈ F).

Definition subset (F G : list Field) : bool := forallb (has G) F.
Definition disjoint_fields (F G : list Field) : bool := forallb (fun f => negb (has G f)) F.

Section Touches.
Context `{Crypto} `{JsText} `{Host} `{DirectTransport}.
Implicit Types (w : World).

Definition keeps_field (f : Field) (w w' : World) : Prop :=
  match f with
  | F_preferDirect => preferDirect (this w') = preferDirect (this w)
  | F_ws => ws (this w') = ws (this w)
  | F_lastSeq => lastSeq (this w') = lastSeq (this w)
  | F_route => route (this w') = route (this w)
  | F_direct => direct (this w') = direct (this w)
  | F_directAttempted => directAttempted (this w') = directAttempted (this w)
  | F_reconnectAttempts => reconnectAttempts (this w') = reconnectAttempts (this w)
  | F_reconnectTimer => reconnectTimer (this w') = reconnectTimer (this w)
  | F_detached => detached (this w') = detached (this w)
  | F_suspended => suspended (this w') = suspended (this w)
  | F_pendingResize => pendingResize (this w') = pendingResize (this w)
  | F_pendingInputs => pendingInputs (this w') = pendingInputs (this w)
  | F_pendingDriverClaim => pendingDriverClaim (this w') = pendingDriverClaim (this w)
  | F_relayReplayComplete => relayReplayComplete (this w') = relayReplayComplete (this w)
  | F_directStartedAt => directStartedAt (this w') = directStartedAt (this w)
  | F_directDiagnostics => directDiagnostics (this w') = directDiagnostics (this w)
  | F_lastFallbackReason => lastFallbackReason (this w') = lastFallbackReason (this w)
  | F_currentDriverClientID => currentDriverClientID (this w') = currentDriverClientID (this w)
  | F_isDriverRole => isDriverRole (this w') = isDriverRole (this w)
  | F_recoverDriverIfVacant => recoverDriverIfVacant (this w') = recoverDriverIfVacant (this w)
  | F_recoverDriverVacant => recoverDriverVacant (this w') = recoverDriverVacant (this w)
  | F_pendingFSRequests => pendingFSRequests (this w') = pendingFSRequests (this w)
  | F_retiredFSRequestIDs => retiredFSRequestIDs (this w') = retiredFSRequestIDs (this w)
  | F_fsEventHandlers => fsEventHandlers (this w') = fsEventHandlers (this w)
  | F_pendingServiceOpens => pendingServiceOpens (this w') = pendingServiceOpens (this w)
  | F_sockets => sockets w' = sockets w
  | F_transports => transports w' = transports w
  | F_timers => timers w' = timers w
  | F_nextTimer => nextTimer w' = nextTimer w
  | F_nextPromise => nextPromise w' = nextPromise w
  | F_pendingPastes => pendingPastes w' = pendingPastes w
  | F_ticks => ticks w' = ticks w
  | F_now => now w' = now w
  | F_accountKey => accountKey w' = accountKey w
  | F_constants =>
      endpoint (this w') = endpoint (this w) /\ sessionId (this w') = sessionId (this w) /\
      sidBytes (this w') = sidBytes (this w) /\ clientID (this w') = clientID (this w) /\
      clientName (this w') = clientName (this w) /\ remote (this w') = remote (this w) /\
      directEndpoint (this w') = directEndpoint (this w) /\
      directTransportSupported (this w') = directTransportSupported (this w)
  | F_effects k => of_kind k (trace w') = of_kind k (trace w)
  end.

Record touches {A} (F : list Field) (m : M A) : Prop := mkTouches {
  touches_field w f : has F f = false -> keeps_field f w (fst (m w));
}.

Lemma keeps_field_refl f w : keeps_field f w w.
Proof. destruct f; cbn; by split_and?. Qed.

Lemma keeps_field_trans f w1 w2 w3 :
  keeps_field f w1 w2 -> keeps_field f w2 w3 -> keeps_field f w1 w3.
Proof.
  destruct f; cbn; try congruence.
  intros (?&?&?&?&?&?&?&?) (?&?&?&?&?&?&?&?). split_and!; congruence.
Qed.

Lemma touches_bind {A B} F (m : M A) (k : A -> M B) :
  touches F m -> (forall a, touches F (k a)) -> touches F (mbind m k).
Proof.
  intros [Hm] Hk. split. intros w f Hf. unfold mbind. specialize (Hm w f Hf). destruct (m w) as [w' [a|msg]]; [|done].
  eapply keeps_field_trans; [exact Hm|]. by apply (Hk a).
Qed.

Lemma touches_weaken {A} F G (m : M A) : touches F m -> subset F G = true -> touches G m.
Proof.
  intros [Hm] Hs. split. intros w f Hf. apply Hm. unfold subset in Hs. rewrite forallb_forall in Hs.
  destruct (has F f) eqn:E; [|done]. apply bool_decide_eq_true in E.
  rewrite Hs in Hf; [done|]. by apply list_elem_of_In.
Qed.

Lemma touches_ret {A} F (a : A) : touches F (mret a).
Proof. split. intros w f _. apply keeps_field_refl. Qed.

Lemma touches_throw {A} F msg : touches F (mthrow msg : M A).
Proof. split. intros w f _. apply keeps_field_refl. Qed.

Lemma touches_lift {A} F (r : result A) : touches F (mlift r).
Proof. split. intros w f _. apply keeps_field_refl. Qed.

Lemma touches_gets {A} F (g : World -> A) : touches F (gets g).
Proof. split. intros w f _. apply keeps_field_refl. Qed.

Lemma touches_mget F : touches F mget.
Proof. split. intros w f _. apply keeps_field_refl. Qed.

Lemma touches_mtry F m : touches F m -> touches F (mtry m).
Proof. intros [Hm]. split. intros w f Hf. by apply Hm. Qed.

Lemma touches_mwhen F b m : touches F m -> touches F (mwhen b m).
Proof. intros Hm. destruct b; [done|apply touches_ret]. Qed.

Lemma touches_modify F g :
  (forall w f, has F f = false -> keeps_field f w (g w)) -> touches F (modify g).
Proof. intros Hg. split. intros w f Hf. by apply Hg. Qed.

Lemma touches_assign F g :
  (forall w f, has F f = false -> keeps_field f w (w <| this := g (this w) |>)) -> touches F (assign g).
Proof. intros Hg. split. intros w f Hf. by apply Hg. Qed.

Lemma touches_emit e : touches [F_effects (effect_kind e)] (emit e).
Proof.
  split. intros w f Hf. destruct f; cbn; try done. unfold of_kind. rewrite filter_app, filter_cons.
  destruct (decide (effect_kind e = k)) as [<-|Hk]; [|by rewrite app_nil_r].
  unfold has in Hf. apply bool_decide_eq_false in Hf. destruct Hf. by left.
Qed.

Lemma touches_on_route {A} (m : method DirectRouteTracker A) : touches [F_route] (on_route m).
Proof.
  split. intros w f Hf. unfold on_route. destruct (m (route (this w))) as [r a].
  destruct f; cbn; try done; by split_and?.
Qed.

Lemma touches_tick {A} (supply : nat -> A) : touches [F_ticks] (tick supply).
Proof. split. intros w f Hf. destruct f; cbn; try done; by split_and?. Qed.

Lemma touches_newPromise : touches [F_nextPromise] newPromise.
Proof. split. intros w f Hf. destruct f; cbn; try done; by split_and?. Qed.

(** An invariant that depends on some fields only. *)
Definition depends (D : list Field) (I : World -> Prop) : Prop :=
  forall w w', (forall f, has D f = true -> keeps_field f w w') -> I w -> I w'.

Lemma keeps_frame {A} D F (I : World -> Prop) (m : M A) :
  depends D I -> touches F m -> disjoint_fields D F = true -> keeps I m.
Proof.
  intros HD [Hm] Hdis w Hw. apply (HD w); [|done]. intros f Hf. apply Hm.
  unfold disjoint_fields in Hdis. rewrite forallb_forall in Hdis.
  apply bool_decide_eq_true in Hf. apply list_elem_of_In in Hf. apply Hdis in Hf. by apply negb_true_iff.
Qed.
End Touches.

Lemma of_kind_other k e tr : effect_kind e <> k -> of_kind k (tr ++ [e]) = of_kind k tr.
Proof.
  intros Hk. unfold of_kind. rewrite filter_app, filter_cons, decide_False by done. apply app_nil_r.
Qed.

(** Evaluates reads of written fields. *)
Ltac wcbn :=
  cbn [fst snd Datatypes.id set_field this sockets transports timers nextTimer nextPromise pendingPastes ticks now accountKey trace
    endpoint sessionId sidBytes clientID clientName remote directEndpoint directTransportSupported preferDirect ws lastSeq route direct directAttempted reconnectAttempts reconnectTimer detached suspended pendingResize pendingInputs pendingDriverClaim relayReplayComplete directStartedAt directDiagnostics lastFallbackReason currentDriverClientID isDriverRole recoverDriverIfVacant recoverDriverVacant pendingFSRequests retiredFSRequestIDs fsEventHandlers pendingServiceOpens].
Ltac wcbn_in H :=
  cbn [fst snd Datatypes.id set_field this sockets transports timers nextTimer nextPromise pendingPastes ticks now accountKey trace
    endpoint sessionId sidBytes clientID clientName remote directEndpoint directTransportSupported preferDirect ws lastSeq route direct directAttempted reconnectAttempts reconnectTimer detached suspended pendingResize pendingInputs pendingDriverClaim relayReplayComplete directStartedAt directDiagnostics lastFallbackReason currentDriverClientID isDriverRole recoverDriverIfVacant recoverDriverVacant pendingFSRequests retiredFSRequestIDs fsEventHandlers pendingServiceOpens] in H.

(** One evaluation of a method's primitives. *)
Ltac wrun :=
  cbv beta iota zeta delta [mbind mget mret mthrow mlift gets self assign modify emit settle onStatus mwhen mtry];
  wcbn.

(** A fact about every field of a list, or outside it. *)
Ltac each_field :=
  let f := fresh "f" in let Hf := fresh "Hf" in
  intros f Hf; destruct f as [| | | | | | | | | | | | | | | | | | | | | | | | | | | | | | | | | | |[]];
  first [discriminate Hf | reflexivity | (repeat split; reflexivity)
    | solve [cbn [keeps_field]; cbv beta delta [assign emit modify gets self]; wcbn; by rewrite !of_kind_other] | idtac].

Create HintDb touches discriminated.
#[export] Hint Constants Opaque : touches.
#[export] Hint Resolve touches_ret touches_throw touches_lift touches_gets touches_mget
  touches_emit touches_on_route touches_tick touches_newPromise : touches.

(** A write of given fields. *)
Ltac touch_leaf :=
  intros w f Hf; destruct f; first [reflexivity | discriminate Hf | (repeat split; reflexivity)].

(** Walks through a method; the named methods inside it come from the hints. *)
Ltac touch :=
  intros;
  lazymatch goal with
  | |- touches _ (mret _) => simple apply touches_ret
  | |- touches _ (mthrow _) => simple apply touches_throw
  | |- touches _ (mlift _) => simple apply touches_lift
  | |- touches _ (gets _) => simple apply touches_gets
  | |- touches _ (self _) => apply touches_gets
  | |- touches _ mget => simple apply touches_mget
  | |- touches _ (mbind _ _) => simple apply touches_bind; touch
  | |- touches _ (mtry _) => simple apply touches_mtry; touch
  | |- touches _ (mwhen _ _) => simple apply touches_mwhen; touch
  | |- touches _ (if ?b then _ else _) => destruct b; touch
  | |- touches _ (match ?x with _ => _ end) => destruct x; touch
  | |- touches _ (modify _) => simple apply touches_modify; touch_leaf
  | |- touches _ (assign _) => simple apply touches_assign; touch_leaf
  | |- _ => eapply touches_weaken; [solve [eauto with touches nocore]|vm_compute; reflexivity]
  end.

(** The same walk for an invariant. [dep] is its dependency lemma; the methods
    that touch its fields come from the hints of [keeps]. *)
Create HintDb keeps discriminated.
#[export] Hint Constants Opaque : keeps.

Ltac keep_leaf dep :=
  let w := fresh "w" in let Hw := fresh "Hw" in
  intros w Hw; apply (dep w); [|exact Hw];
  let f := fresh "f" in let Hf := fresh "Hf" in
  intros f Hf; destruct f; first [reflexivity | discriminate Hf | (repeat split; reflexivity)].

Ltac keep dep :=
  intros;
  lazymatch goal with
  | |- keeps _ (mret _) => simple apply keeps_ret
  | |- keeps _ (mthrow _) => simple apply keeps_throw
  | |- keeps _ (mlift _) => simple apply keeps_lift
  | |- keeps _ (gets _) => simple apply keeps_gets
  | |- keeps _ (self _) => apply keeps_gets
  | |- keeps _ mget => apply keeps_gets
  | |- keeps _ (mbind _ _) => simple apply keeps_bind; keep dep
  | |- keeps _ (mtry _) => simple apply keeps_mtry; keep dep
  | |- keeps _ (mwhen ?b _) => destruct b; cbn [mwhen]; keep dep
  | |- keeps _ (if ?b then _ else _) => destruct b; keep dep
  | |- keeps _ (match ?x with _ => _ end) => destruct x; keep dep
  | |- keeps _ (modify _) =>
      first [solve [eauto with keeps nocore] | simple apply keeps_modify; keep_leaf dep]
  | |- keeps _ (assign _) =>
      first [solve [eauto with keeps nocore] | apply keeps_modify; keep_leaf dep]
  | |- _ =>
      first [ solve [eauto with keeps nocore]
            | eapply keeps_frame; [exact dep|solve [eauto with touches nocore]|vm_compute; reflexivity]
            | idtac ]
  end.

(** Callbacks of the transport, for an invariant that its state is not part of. *)
Section Callbacks.
Context `{Crypto} `{JsText} `{Host} `{DirectTransport}.
Context (I : World -> Prop).
Context (Hcb : forall d g cb, keeps I (direct_callback d g cb)).
Context (Hst : forall d t, keeps I (set_transport d t)).

Lemma keeps_swallow_callbacks d g cbs : keeps I (swallow_callbacks d g cbs).
Proof.
  induction cbs as [|cb cbs IH]; cbn [swallow_callbacks]; [apply keeps_ret|].
  apply keeps_bind; [apply keeps_mtry, Hcb|]. by intros.
Qed.

Lemma keeps_callback_threw d g msg : keeps I (callback_threw d g msg).
Proof.
  unfold callback_threw. apply keeps_bind; [apply keeps_gets|]. intros [[t ?]|]; [|apply keeps_ret].
  destruct (transport_threw _ t) as [t' cbs]. apply keeps_bind; [apply Hst|].
  intros _. apply keeps_swallow_callbacks.
Qed.

Lemma keeps_run_callback d g cb : keeps I (run_callback d g cb).
Proof.
  destruct cb; cbn [run_callback]; try (apply keeps_mtry, Hcb);
    intros w Hw; match goal with |- context [direct_callback d g ?cb w] =>
      pose proof (Hcb d g cb w Hw) as Hc; destruct (direct_callback d g cb w) as [w' [[]|msg]] end;
    cbn in *; try done; by apply keeps_callback_threw.
Qed.

Lemma keeps_run_callbacks d g cbs : keeps I (run_callbacks d g cbs).
Proof.
  induction cbs as [|cb cbs IH]; cbn [run_callbacks]; [apply keeps_ret|].
  apply keeps_bind; [apply keeps_run_callback|]. by intros.
Qed.
End Callbacks.
