(* ===== verification/ConnTouches.v ===== *)
(** * What each method of the session connection changes

    One [touches] lemma per method of [Connection], in the order of that file:
    the fields and the kinds of effect it can write, whatever the outcome. *)

From S2P Require Import Prelude Bytes JsString JsMap Json Proto FsSegments DirectCrypto.
From S2P Require Import DirectRoute Opaque ConnWire Transport Connection ConnFrame.

Abbreviation E_socket := (F_effects K_socket).
Abbreviation E_send := (F_effects K_send).
Abbreviation E_transport := (F_effects K_transport).
Abbreviation E_timeout := (F_effects K_timeout).
Abbreviation E_settle := (F_effects K_settle).
Abbreviation E_output := (F_effects K_output).
Abbreviation E_ui := (F_effects K_ui).

Section Methods.
Context `{Crypto} `{JsText} `{Host} `{DirectTransport}.

Lemma touches_set_socket id st : touches [F_sockets] (set_socket id st).
Proof. unfold set_socket. touch. Qed.
#[local] Hint Resolve touches_set_socket : touches.

Lemma touches_ws_send id frame : touches [E_send] (ws_send id frame).
Proof. unfold ws_send. touch. Qed.
#[local] Hint Resolve touches_ws_send : touches.

Lemma touches_ws_close id : touches [F_sockets; E_socket] (ws_close id).
Proof. unfold ws_close. touch. Qed.
#[local] Hint Resolve touches_ws_close : touches.

Lemma touches_setTimeout kind delay : touches [F_timers; F_nextTimer; E_timeout] (setTimeout kind delay).
Proof. unfold setTimeout. touch. Qed.
#[local] Hint Resolve touches_setTimeout : touches.

Lemma touches_clearTimeout id : touches [F_timers] (clearTimeout id).
Proof. unfold clearTimeout. touch. Qed.
#[local] Hint Resolve touches_clearTimeout : touches.

Lemma touches_settle p s : touches [E_settle] (settle p s).
Proof. unfold settle. touch. Qed.
#[local] Hint Resolve touches_settle : touches.

Lemma touches_rejected m : touches [F_nextPromise; E_settle] (rejected m).
Proof. unfold rejected. touch. Qed.
#[local] Hint Resolve touches_rejected : touches.

Lemma touches_set_transport id t : touches [F_transports] (set_transport id t).
Proof. unfold set_transport. touch. Qed.
#[local] Hint Resolve touches_set_transport : touches.

Lemma touches_emitRoute r reason : touches [E_ui] (emitRoute r reason).
Proof. unfold emitRoute. touch. Qed.
#[local] Hint Resolve touches_emitRoute : touches.

Lemma touches_onStatus s : touches [E_ui] (onStatus s).
Proof. unfold onStatus. touch. Qed.
#[local] Hint Resolve touches_onStatus : touches.

Lemma touches_scheduleReconnect : touches [F_reconnectAttempts; F_reconnectTimer; F_timers; F_nextTimer; E_timeout] (scheduleReconnect).
Proof. unfold scheduleReconnect. touch. Qed.
#[local] Hint Resolve touches_scheduleReconnect : touches.

Lemma touches_clear_reconnect : touches [F_timers; F_reconnectTimer] clear_reconnect.
Proof. unfold clear_reconnect. touch. Qed.
#[local] Hint Resolve touches_clear_reconnect : touches.

Lemma touches_handleOpenFailure g : touches [F_ws; F_reconnectAttempts; F_reconnectTimer; F_timers; F_nextTimer; E_timeout; E_ui] (handleOpenFailure g).
Proof. unfold handleOpenFailure. touch. Qed.
#[local] Hint Resolve touches_handleOpenFailure : touches.

Lemma touches_openWS g : touches [F_ws; F_sockets; F_ticks; F_reconnectAttempts; F_reconnectTimer; F_timers; F_nextTimer; E_socket; E_timeout; E_ui] (openWS g).
Proof. unfold openWS. touch. Qed.
#[local] Hint Resolve touches_openWS : touches.

Lemma touches_reject_all_fs l err : touches [F_timers; E_settle] (reject_all_fs l err).
Proof. induction l as [|p l IH]; cbn [reject_all_fs]; touch. Qed.
#[local] Hint Resolve touches_reject_all_fs : touches.

Lemma touches_rejectPendingFSRequests err : touches [F_pendingFSRequests; F_timers; E_settle] (rejectPendingFSRequests err).
Proof. unfold rejectPendingFSRequests. touch. Qed.
#[local] Hint Resolve touches_rejectPendingFSRequests : touches.

Lemma touches_reject_all_services l err : touches [F_timers; E_settle] (reject_all_services l err).
Proof. induction l as [|p l IH]; cbn [reject_all_services]; touch. Qed.
#[local] Hint Resolve touches_reject_all_services : touches.

Lemma touches_rejectPendingServiceOpens err : touches [F_pendingServiceOpens; F_timers; E_settle] (rejectPendingServiceOpens err).
Proof. unfold rejectPendingServiceOpens. touch. Qed.
#[local] Hint Resolve touches_rejectPendingServiceOpens : touches.

Lemma touches_failPendingRequests a b : touches [F_pendingFSRequests; F_pendingServiceOpens; F_retiredFSRequestIDs; F_timers; E_settle] (failPendingRequests a b).
Proof. unfold failPendingRequests. touch. Qed.
#[local] Hint Resolve touches_failPendingRequests : touches.

Lemma touches_direct_close d : touches [F_transports; E_transport] (direct_close d).
Proof. unfold direct_close. touch. Qed.
#[local] Hint Resolve touches_direct_close : touches.

Lemma touches_drop_direct : touches [F_direct; F_transports; E_transport] (drop_direct).
Proof. unfold drop_direct. touch. Qed.
#[local] Hint Resolve touches_drop_direct : touches.

Lemma touches_handleDirectFailure g d err : touches [F_direct; F_lastFallbackReason; F_route; F_ws; F_sockets; F_ticks; F_reconnectAttempts; F_reconnectTimer; F_timers; F_nextTimer; E_socket; E_timeout; E_ui] (handleDirectFailure g d err).
Proof. unfold handleDirectFailure. touch. Qed.
#[local] Hint Resolve touches_handleDirectFailure : touches.

Lemma touches_direct_send d frame : touches [F_transports; E_send; F_direct; F_lastFallbackReason; F_route; F_ws; F_sockets; F_ticks; F_reconnectAttempts; F_reconnectTimer; F_timers; F_nextTimer; E_socket; E_timeout; E_ui] (direct_send d frame).
Proof. unfold direct_send. touch. Qed.
#[local] Hint Resolve touches_direct_send : touches.

Lemma touches_this_direct_send frame : touches [F_transports; E_send; F_direct; F_lastFallbackReason; F_route; F_ws; F_sockets; F_ticks; F_reconnectAttempts; F_reconnectTimer; F_timers; F_nextTimer; E_socket; E_timeout; E_ui] (this_direct_send frame).
Proof. unfold this_direct_send. touch. Qed.
#[local] Hint Resolve touches_this_direct_send : touches.

Lemma touches_frame_of ty p : touches [] (frame_of ty p).
Proof. unfold frame_of. touch. Qed.
#[local] Hint Resolve touches_frame_of : touches.

Lemma touches_resize_frame c r : touches [] (resize_frame c r).
Proof. unfold resize_frame. touch. Qed.
#[local] Hint Resolve touches_resize_frame : touches.

Lemma touches_claimPayload : touches [] (claimPayload).
Proof. unfold claimPayload. touch. Qed.
#[local] Hint Resolve touches_claimPayload : touches.

Lemma touches_send_inputs id l : touches [E_send] (send_inputs id l).
Proof. induction l as [|s l IH]; cbn [send_inputs]; touch. Qed.
#[local] Hint Resolve touches_send_inputs : touches.

Lemma touches_flushPendingRelayWrites id : touches [F_pendingDriverClaim; F_pendingResize; F_pendingInputs; E_send] (flushPendingRelayWrites id).
Proof. unfold flushPendingRelayWrites. touch. Qed.
#[local] Hint Resolve touches_flushPendingRelayWrites : touches.

Lemma touches_flush_direct_inputs n d : touches [F_pendingInputs; F_transports; E_send; F_direct; F_lastFallbackReason; F_route; F_ws; F_sockets; F_ticks; F_reconnectAttempts; F_reconnectTimer; F_timers; F_nextTimer; E_socket; E_timeout; E_ui] (flush_direct_inputs n d).
Proof. induction n as [|n IH]; cbn [flush_direct_inputs]; touch. Qed.
#[local] Hint Resolve touches_flush_direct_inputs : touches.

Lemma touches_flushPendingDirectWrites d : touches [F_pendingDriverClaim; F_pendingResize; F_pendingInputs; F_transports; E_send; F_direct; F_lastFallbackReason; F_route; F_ws; F_sockets; F_ticks; F_reconnectAttempts; F_reconnectTimer; F_timers; F_nextTimer; E_socket; E_timeout; E_ui] (flushPendingDirectWrites d).
Proof. unfold flushPendingDirectWrites. touch. Qed.
#[local] Hint Resolve touches_flushPendingDirectWrites : touches.

Lemma touches_maybeActivateDirect g : touches [F_pendingDriverClaim; F_pendingResize; F_pendingInputs; F_transports; E_send; F_direct; F_lastFallbackReason; F_route; F_ws; F_sockets; F_ticks; F_reconnectAttempts; F_reconnectTimer; F_timers; F_nextTimer; E_socket; E_timeout; E_ui; F_pendingFSRequests; F_pendingServiceOpens; F_retiredFSRequestIDs; E_settle] (maybeActivateDirect g).
Proof. unfold maybeActivateDirect. touch. Qed.
#[local] Hint Resolve touches_maybeActivateDirect : touches.

Lemma touches_no_direct r : touches [F_directAttempted; E_ui] (no_direct r).
Proof. unfold no_direct. touch. Qed.
#[local] Hint Resolve touches_no_direct : touches.

Lemma touches_maybeStartDirect : touches [F_directAttempted; F_directStartedAt; F_directDiagnostics; F_transports; E_transport; F_direct; F_lastFallbackReason; F_route; F_ws; F_sockets; F_ticks; F_reconnectAttempts; F_reconnectTimer; F_timers; F_nextTimer; E_socket; E_timeout; E_ui] (maybeStartDirect).
Proof. unfold maybeStartDirect. touch. Qed.
#[local] Hint Resolve touches_maybeStartDirect : touches.

Lemma touches_claimDriver : touches [F_pendingDriverClaim; F_transports; E_send; F_direct; F_lastFallbackReason; F_route; F_ws; F_sockets; F_ticks; F_reconnectAttempts; F_reconnectTimer; F_timers; F_nextTimer; E_socket; E_timeout; E_ui] (claimDriver).
Proof. unfold claimDriver. touch. Qed.
#[local] Hint Resolve touches_claimDriver : touches.

Lemma touches_noteDriver a b : touches [F_currentDriverClientID; F_isDriverRole; E_ui] (noteDriver a b).
Proof. unfold noteDriver. touch. Qed.
#[local] Hint Resolve touches_noteDriver : touches.

Lemma touches_handleMeta p r : touches [F_recoverDriverIfVacant; F_recoverDriverVacant; F_currentDriverClientID; F_isDriverRole; F_pendingDriverClaim; F_transports; E_send; F_direct; F_lastFallbackReason; F_route; F_ws; F_sockets; F_ticks; F_reconnectAttempts; F_reconnectTimer; F_timers; F_nextTimer; E_socket; E_timeout; E_ui] (handleMeta p r).
Proof. unfold handleMeta. touch. Qed.
#[local] Hint Resolve touches_handleMeta : touches.

Lemma touches_handleFSResponse p : touches [F_timers; F_pendingFSRequests; E_settle] (handleFSResponse p).
Proof. unfold handleFSResponse. touch. Qed.
#[local] Hint Resolve touches_handleFSResponse : touches.

Lemma touches_notify_fs_handlers l e : touches [E_ui] (notify_fs_handlers l e).
Proof. induction l as [|h l IH]; cbn [notify_fs_handlers]; touch. Qed.
#[local] Hint Resolve touches_notify_fs_handlers : touches.

Lemma touches_handleFSEvent p : touches [E_ui] (handleFSEvent p).
Proof. unfold handleFSEvent. touch. Qed.
#[local] Hint Resolve touches_handleFSEvent : touches.

Lemma touches_handleServiceOpened p : touches [F_timers; F_pendingServiceOpens; E_settle] (handleServiceOpened p).
Proof. unfold handleServiceOpened. touch. Qed.
#[local] Hint Resolve touches_handleServiceOpened : touches.

Lemma touches_deliver d s : touches [E_output] (deliver d s).
Proof. unfold deliver. touch. Qed.
#[local] Hint Resolve touches_deliver : touches.

Lemma touches_handleOut p r g : touches [F_lastSeq; E_output; F_pendingDriverClaim; F_pendingResize; F_pendingInputs; F_transports; E_send; F_direct; F_lastFallbackReason; F_route; F_ws; F_sockets; F_ticks; F_reconnectAttempts; F_reconnectTimer; F_timers; F_nextTimer; E_socket; E_timeout; E_ui; F_pendingFSRequests; F_pendingServiceOpens; F_retiredFSRequestIDs; E_settle] (handleOut p r g).
Proof. unfold handleOut. touch. Qed.
#[local] Hint Resolve touches_handleOut : touches.

Lemma touches_handleClose p : touches [F_direct; F_transports; E_transport; E_ui] (handleClose p).
Proof. unfold handleClose. touch. Qed.
#[local] Hint Resolve touches_handleClose : touches.

Lemma touches_relayReplayEnd g : touches [F_relayReplayComplete; F_recoverDriverIfVacant; F_recoverDriverVacant; F_pendingDriverClaim; F_pendingResize; F_pendingInputs; F_transports; E_send; F_direct; F_lastFallbackReason; F_route; F_ws; F_sockets; F_ticks; F_reconnectAttempts; F_reconnectTimer; F_timers; F_nextTimer; E_socket; E_timeout; E_ui; F_directAttempted; F_directStartedAt; F_directDiagnostics; E_transport] (relayReplayEnd g).
Proof. unfold relayReplayEnd. touch. Qed.
#[local] Hint Resolve touches_relayReplayEnd : touches.

Lemma touches_handleReplayProgress p r g : touches [F_relayReplayComplete; F_recoverDriverIfVacant; F_recoverDriverVacant; F_pendingDriverClaim; F_pendingResize; F_pendingInputs; F_transports; E_send; F_direct; F_lastFallbackReason; F_route; F_ws; F_sockets; F_ticks; F_reconnectAttempts; F_reconnectTimer; F_timers; F_nextTimer; E_socket; E_timeout; E_ui; F_directAttempted; F_directStartedAt; F_directDiagnostics; E_transport] (handleReplayProgress p r g).
Proof. unfold handleReplayProgress. touch. Qed.
#[local] Hint Resolve touches_handleReplayProgress : touches.

Lemma touches_handleProtocolFrame f r g : touches [F_lastSeq; E_output; F_pendingDriverClaim; F_pendingResize; F_pendingInputs; F_transports; E_send; F_direct; F_lastFallbackReason; F_route; F_ws; F_sockets; F_ticks; F_reconnectAttempts; F_reconnectTimer; F_timers; F_nextTimer; E_socket; E_timeout; E_ui; F_pendingFSRequests; F_pendingServiceOpens; F_retiredFSRequestIDs; E_settle; F_recoverDriverIfVacant; F_recoverDriverVacant; F_currentDriverClientID; F_isDriverRole; F_relayReplayComplete; F_directAttempted; F_directStartedAt; F_directDiagnostics; E_transport] (handleProtocolFrame f r g).
Proof. unfold handleProtocolFrame. touch. Qed.
#[local] Hint Resolve touches_handleProtocolFrame : touches.

Lemma touches_attach : touches [F_route; F_directAttempted; F_relayReplayComplete; F_suspended; F_ws; F_sockets; F_ticks; F_reconnectAttempts; F_reconnectTimer; F_timers; F_nextTimer; E_socket; E_timeout; E_ui] (attach).
Proof. unfold attach. touch. Qed.
#[local] Hint Resolve touches_attach : touches.

Lemma touches_setPreferDirect b : touches [F_preferDirect; F_directAttempted; F_directStartedAt; F_directDiagnostics; F_transports; E_transport; F_direct; F_lastFallbackReason; F_route; F_ws; F_sockets; F_ticks; F_reconnectAttempts; F_reconnectTimer; F_timers; F_nextTimer; E_socket; E_timeout; E_ui] (setPreferDirect b).
Proof. unfold setPreferDirect. touch. Qed.
#[local] Hint Resolve touches_setPreferDirect : touches.

Lemma touches_dropTransports : touches [F_direct; F_transports; E_transport; F_pendingDriverClaim; F_timers; F_reconnectTimer; F_sockets; E_socket; F_ws] (dropTransports).
Proof. unfold dropTransports. touch. Qed.
#[local] Hint Resolve touches_dropTransports : touches.

Lemma touches_suspend : touches [F_suspended; F_pendingFSRequests; F_pendingServiceOpens; F_retiredFSRequestIDs; F_timers; E_settle; F_direct; F_transports; E_transport; F_pendingDriverClaim; F_reconnectTimer; F_sockets; E_socket; F_ws] (suspend).
Proof. unfold suspend. touch. Qed.
#[local] Hint Resolve touches_suspend : touches.

Lemma touches_detach : touches [F_suspended; F_detached; F_pendingFSRequests; F_pendingServiceOpens; F_retiredFSRequestIDs; F_timers; E_settle; F_direct; F_transports; E_transport; F_pendingDriverClaim; F_reconnectTimer; F_sockets; E_socket; F_ws] (detach).
Proof. unfold detach. touch. Qed.
#[local] Hint Resolve touches_detach : touches.

Lemma touches_newUniqueFSRequestID n : touches [F_ticks] (newUniqueFSRequestID n).
Proof. induction n as [|n IH]; cbn [newUniqueFSRequestID]; touch. Qed.
#[local] Hint Resolve touches_newUniqueFSRequestID : touches.

Lemma touches_try_send id ty p : touches [E_send] (try_send id ty p).
Proof.
  split. intros w f Hf. unfold try_send.
  assert (Hm : touches [E_send] (do* frame := frame_of ty p in ws_send id frame)) by touch.
  destruct Hm as [Hm]. specialize (Hm w f Hf).
  by destruct ((do* frame := frame_of ty p in ws_send id frame) w) as [w' [a|msg]].
Qed.
#[local] Hint Resolve touches_try_send : touches.

Lemma touches_sendFSRequest req t : touches [F_ticks; F_nextPromise; F_timers; F_nextTimer; E_timeout; E_settle; E_send; F_pendingFSRequests] (sendFSRequest req t).
Proof. unfold sendFSRequest. unfold send_or. touch. Qed.
#[local] Hint Resolve touches_sendFSRequest : touches.

Lemma touches_openService port host t : touches [F_ticks; F_nextPromise; F_timers; F_nextTimer; E_timeout; E_settle; E_send; F_pendingServiceOpens] (openService port host t).
Proof. unfold openService. unfold send_or. touch. Qed.
#[local] Hint Resolve touches_openService : touches.

Lemma touches_closeService sid : touches [E_send] (closeService sid).
Proof. unfold closeService. unfold send_or. touch. Qed.
#[local] Hint Resolve touches_closeService : touches.

Lemma touches_onFSEvent h : touches [F_fsEventHandlers] (onFSEvent h).
Proof. unfold onFSEvent. touch. Qed.
#[local] Hint Resolve touches_onFSEvent : touches.

Lemma touches_offFSEvent h : touches [F_fsEventHandlers] (offFSEvent h).
Proof. unfold offFSEvent. touch. Qed.
#[local] Hint Resolve touches_offFSEvent : touches.

Lemma touches_push_input x : touches [F_pendingInputs] (push_input x).
Proof. unfold push_input. touch. Qed.
#[local] Hint Resolve touches_push_input : touches.

Lemma touches_sendInput x : touches [F_pendingInputs; F_transports; E_send; F_direct; F_lastFallbackReason; F_route; F_ws; F_sockets; F_ticks; F_reconnectAttempts; F_reconnectTimer; F_timers; F_nextTimer; E_socket; E_timeout; E_ui] (sendInput x).
Proof. unfold sendInput. touch. Qed.
#[local] Hint Resolve touches_sendInput : touches.

Lemma touches_sendResize c r : touches [F_pendingResize; F_transports; E_send; F_direct; F_lastFallbackReason; F_route; F_ws; F_sockets; F_ticks; F_reconnectAttempts; F_reconnectTimer; F_timers; F_nextTimer; E_socket; E_timeout; E_ui] (sendResize c r).
Proof. unfold sendResize. touch. Qed.
#[local] Hint Resolve touches_sendResize : touches.

Lemma touches_sendPaste ty a b c d : touches [F_nextPromise; F_pendingPastes; E_ui; E_settle] (sendPaste ty a b c d).
Proof. unfold sendPaste. touch. Qed.
#[local] Hint Resolve touches_sendPaste : touches.

Lemma touches_sendPasteImage a b c : touches [F_nextPromise; F_pendingPastes; E_ui; E_settle] (sendPasteImage a b c).
Proof. unfold sendPasteImage. touch. Qed.
#[local] Hint Resolve touches_sendPasteImage : touches.

Lemma touches_sendPasteFile a b c : touches [F_nextPromise; F_pendingPastes; E_ui; E_settle] (sendPasteFile a b c).
Proof. unfold sendPasteFile. touch. Qed.
#[local] Hint Resolve touches_sendPasteFile : touches.

Lemma touches_pasteResume p read_error : touches [F_pendingPastes; E_send; E_settle] (pasteResume p read_error).
Proof. unfold pasteResume. touch. Qed.
#[local] Hint Resolve touches_pasteResume : touches.

Lemma touches_socket_onopen id g : touches [F_retiredFSRequestIDs; F_recoverDriverIfVacant; F_recoverDriverVacant; F_pendingDriverClaim; F_pendingResize; F_pendingInputs; F_sockets; E_socket; E_ui; E_send] (socket_onopen id g).
Proof. unfold socket_onopen. touch. Qed.
#[local] Hint Resolve touches_socket_onopen : touches.

Lemma touches_socket_onmessage id g data : touches [F_reconnectAttempts; F_lastSeq; E_output; F_pendingDriverClaim; F_pendingResize; F_pendingInputs; F_transports; E_send; F_direct; F_lastFallbackReason; F_route; F_ws; F_sockets; F_ticks; F_reconnectTimer; F_timers; F_nextTimer; E_socket; E_timeout; E_ui; F_pendingFSRequests; F_pendingServiceOpens; F_retiredFSRequestIDs; E_settle; F_recoverDriverIfVacant; F_recoverDriverVacant; F_currentDriverClientID; F_isDriverRole; F_relayReplayComplete; F_directAttempted; F_directStartedAt; F_directDiagnostics; E_transport] (socket_onmessage id g data).
Proof. unfold socket_onmessage. touch. Qed.
#[local] Hint Resolve touches_socket_onmessage : touches.

Lemma touches_socket_onclose id : touches [F_ws; F_pendingFSRequests; F_pendingServiceOpens; F_retiredFSRequestIDs; F_timers; E_settle; E_ui; F_reconnectAttempts; F_reconnectTimer; F_nextTimer; E_timeout] (socket_onclose id).
Proof. unfold socket_onclose. touch. Qed.
#[local] Hint Resolve touches_socket_onclose : touches.

Lemma touches_timer_fired k : touches [F_pendingFSRequests; F_retiredFSRequestIDs; F_pendingServiceOpens; E_settle; F_ws; F_sockets; F_ticks; F_reconnectAttempts; F_reconnectTimer; F_timers; F_nextTimer; E_socket; E_timeout; E_ui] (timer_fired k).
Proof. unfold timer_fired. touch. Qed.
#[local] Hint Resolve touches_timer_fired : touches.
End Methods.

#[export] Hint Resolve touches_set_socket touches_ws_send touches_ws_close touches_setTimeout touches_clearTimeout touches_settle touches_rejected touches_set_transport touches_emitRoute touches_onStatus touches_scheduleReconnect touches_clear_reconnect touches_handleOpenFailure touches_openWS touches_reject_all_fs touches_rejectPendingFSRequests touches_reject_all_services touches_rejectPendingServiceOpens touches_failPendingRequests touches_direct_close touches_drop_direct touches_handleDirectFailure touches_direct_send touches_this_direct_send touches_frame_of touches_resize_frame touches_claimPayload touches_send_inputs touches_flushPendingRelayWrites touches_flush_direct_inputs touches_flushPendingDirectWrites touches_maybeActivateDirect touches_no_direct touches_maybeStartDirect touches_claimDriver touches_noteDriver touches_handleMeta touches_handleFSResponse touches_notify_fs_handlers touches_handleFSEvent touches_handleServiceOpened touches_deliver touches_handleOut touches_handleClose touches_relayReplayEnd touches_handleReplayProgress touches_handleProtocolFrame touches_attach touches_setPreferDirect touches_dropTransports touches_suspend touches_detach touches_newUniqueFSRequestID touches_try_send touches_sendFSRequest touches_openService touches_closeService touches_onFSEvent touches_offFSEvent touches_push_input touches_sendInput touches_sendResize touches_sendPaste touches_sendPasteImage touches_sendPasteFile touches_pasteResume touches_socket_onopen touches_socket_onmessage touches_socket_onclose touches_timer_fired : touches.
