(* ===== verification/ConnOutput.v ===== *)
(** * Terminal output of the session connection

    Whatever the relay, the direct transport and the user do, the sequenced
    output a connection shows is in strictly increasing order: nothing is shown
    twice and nothing late is shown at all. *)

From Stdlib Require Import Sorted.
From S2P Require Import Prelude Bytes JsString JsMap Json Proto FsSegments DirectCrypto.
From S2P Require Import DirectRoute Opaque ConnWire Transport Connection ConnFrame ConnTouches.

(** The sequence number of a sequenced output. *)
Definition out_seq (e : Effect) : option Z :=
  match e with OnOutput seq _ => if 0 <? seq then Some seq else None | _ => None end.

Definition outs (t : list Effect) : list Z := omap out_seq (of_kind K_output t).

Section Output.
Context `{Crypto} `{JsText} `{Host} `{DirectTransport}.
Implicit Types (w : World).

Definition committed w : Z := lastCommittedSeq (route (this w)).

Definition output_inv w : Prop :=
  StronglySorted Z.lt (outs (trace w)) /\ Forall (fun s => s <= committed w) (outs (trace w)) /\
  lastSeq (this w) = committed w.

Lemma output_dep : depends [F_route; F_lastSeq; E_output] output_inv.
Proof.
  intros w w' Hk. unfold output_inv, committed, outs.
  rewrite (Hk F_route eq_refl : route (this w') = _), (Hk F_lastSeq eq_refl : lastSeq (this w') = _),
    (Hk E_output eq_refl : of_kind K_output (trace w') = _). done.
Qed.

(** Calls of the tracker that leave the cursor alone. *)
Lemma output_on_route {A} (m : method DirectRouteTracker A) :
  (forall t, lastCommittedSeq (fst (m t)) = lastCommittedSeq t) -> keeps output_inv (on_route m).
Proof.
  intros Hm w (Hs & Hf & Hl). unfold on_route, output_inv, committed. specialize (Hm (route (this w))).
  destruct (m (route (this w))) as [r a]. cbn in *. by rewrite Hm.
Qed.

Ltac tracker_same :=
  intros t; cbv beta iota zeta delta [beginDirect beginDirectReplay noteDirectReady activateDirect
    abortDirect directLost relayAttached requireGeneration mbind mget mput mret mthrow set_field];
  repeat (split_guard; cbn [fst lastCommittedSeq]); done.

#[local] Hint Extern 2 (keeps output_inv (on_route _)) => apply output_on_route; tracker_same : keeps.

Lemma output_handleDirectFailure g d err : keeps output_inv (handleDirectFailure g d err).
Proof. unfold handleDirectFailure. keep output_dep. Qed.
#[local] Hint Resolve output_handleDirectFailure : keeps.

Lemma output_direct_send d frame : keeps output_inv (direct_send d frame).
Proof. unfold direct_send. keep output_dep. Qed.
#[local] Hint Resolve output_direct_send : keeps.

Lemma output_this_direct_send frame : keeps output_inv (this_direct_send frame).
Proof. unfold this_direct_send. keep output_dep. Qed.
#[local] Hint Resolve output_this_direct_send : keeps.

Lemma output_flush_direct_inputs n d : keeps output_inv (flush_direct_inputs n d).
Proof. induction n as [|n IH]; cbn [flush_direct_inputs]; keep output_dep. Qed.
#[local] Hint Resolve output_flush_direct_inputs : keeps.

Lemma output_flushPendingDirectWrites d : keeps output_inv (flushPendingDirectWrites d).
Proof. unfold flushPendingDirectWrites. keep output_dep. Qed.
#[local] Hint Resolve output_flushPendingDirectWrites : keeps.

Lemma output_maybeActivateDirect g : keeps output_inv (maybeActivateDirect g).
Proof. unfold maybeActivateDirect. keep output_dep. Qed.
#[local] Hint Resolve output_maybeActivateDirect : keeps.

Lemma output_maybeStartDirect : keeps output_inv (maybeStartDirect).
Proof. unfold maybeStartDirect. keep output_dep. Qed.
#[local] Hint Resolve output_maybeStartDirect : keeps.

Lemma output_claimDriver : keeps output_inv (claimDriver).
Proof. unfold claimDriver. keep output_dep. Qed.
#[local] Hint Resolve output_claimDriver : keeps.

Lemma output_handleMeta p r : keeps output_inv (handleMeta p r).
Proof. unfold handleMeta. keep output_dep. Qed.
#[local] Hint Resolve output_handleMeta : keeps.


(** What the tracker answers, and what it does to the cursor. *)
Lemma acceptOutput_cases g r seq t :
  (exists t', acceptOutput g r seq t = (t', Ok false) /\ lastCommittedSeq t' = lastCommittedSeq t) \/
  (exists t', acceptOutput g r seq t = (t', Ok true) /\ lastCommittedSeq t' = seq /\
     lastCommittedSeq t < seq /\ 0 < seq).
Proof.
  unfold acceptOutput. mrun. split_guard; [left; by eexists|]. split_guard; [left; by eexists|].
  destruct (bool_decide (r = Route_Direct) && state_is t DirectReplay); cbn [lastCommittedSeq];
    (split_guard; [left; by eexists|right; eexists; split_and!; [done|done|lia|lia]]).
Qed.

Lemma outs_app t u : outs (t ++ u) = outs t ++ outs u.
Proof. unfold outs, of_kind. by rewrite filter_app, omap_app. Qed.

(** Showing an accepted output and noting the cursor. *)
Lemma output_deliver seq data w :
  StronglySorted Z.lt (outs (trace w)) -> Forall (fun s => s < seq) (outs (trace w)) ->
  committed w = seq -> 0 < seq ->
  output_inv (fst ((do* _ := deliver data seq in
                    assign (fun c => c <| lastSeq := lastCommittedSeq (route c) |>)) w)).
Proof.
  intros Hs Hf Hc Hseq. unfold output_inv, committed in *.
  assert (Hle : Forall (fun s => s <= seq) (outs (trace w))) by (eapply Forall_impl; [exact Hf|cbn; lia]).
  unfold deliver. wrun. destruct (if remote (this w) then _ else _) as [out|]; wrun; [|by rewrite Hc].
  assert (E : outs [OnOutput seq out] = [seq]).
  { unfold outs, of_kind. rewrite filter_cons, decide_True by done. cbn [filter list_filter omap list_omap out_seq].
    by rewrite (proj2 (Z.ltb_lt 0 seq)). }
  rewrite outs_app, E, Hc. split_and!; [| |done].
  - by apply sorted_snoc.
  - apply Forall_app. split; [done|]. by repeat constructor.
Qed.

(** An unsequenced output is not counted. *)
Lemma output_deliver_unsequenced data : keeps output_inv (deliver data 0).
Proof.
  intros w (Hs & Hf & Hl). unfold deliver, output_inv, committed in *. wrun.
  destruct (if remote (this w) then _ else _) as [out|]; wrun; [|done].
  rewrite outs_app. change (outs [OnOutput 0 out]) with (@nil Z). by rewrite app_nil_r.
Qed.

Lemma output_handleOut p r g : keeps output_inv (handleOut p r g).
Proof.
  unfold handleOut. apply keeps_bind; [apply keeps_lift|]. intros [seq data].
  destruct (Z.eqb_spec seq 0) as [->|Hseq].
  - destruct (bool_decide _); [apply keeps_throw|apply output_deliver_unsequenced].
  - intros w (Hs & Hf & Hl). unfold on_route, mbind at 1.
    destruct (acceptOutput_cases g r seq (route (this w))) as [(t' & E & Hc)|(t' & E & Hc & Hlt & Hpos)]; rewrite E.
    + cbn [negb]. destruct (bool_decide _); cbn [mwhen fst mret]; [apply output_maybeActivateDirect|];
        unfold output_inv, committed; wcbn; by rewrite Hc.
    + cbn [negb]. match goal with |- output_inv (fst (_ ?w1)) => set (w' := w1) end.
      assert (Hd : output_inv (fst ((do* _ := deliver data seq in
                assign (fun c => c <| lastSeq := lastCommittedSeq (route c) |>)) w'))).
      { apply output_deliver; unfold w', committed in *; wcbn; [done| |done|done].
        eapply Forall_impl; [exact Hf|cbn; lia]. }
      revert Hd. unfold mbind. destruct (deliver data seq w') as [w1 [[]|msg]] eqn:Ed; [|done].
      destruct (assign _ w1) as [w2 [[]|msg]]; [|done]. cbn. intros Hd.
      destruct (bool_decide _); [by apply output_maybeActivateDirect|done].
Qed.
#[local] Hint Resolve output_handleOut : keeps.

Lemma output_relayReplayEnd g : keeps output_inv (relayReplayEnd g).
Proof. unfold relayReplayEnd. keep output_dep. Qed.
#[local] Hint Resolve output_relayReplayEnd : keeps.

Lemma output_handleReplayProgress p r g : keeps output_inv (handleReplayProgress p r g).
Proof. unfold handleReplayProgress. keep output_dep. Qed.
#[local] Hint Resolve output_handleReplayProgress : keeps.

Lemma output_handleProtocolFrame f r g : keeps output_inv (handleProtocolFrame f r g).
Proof. unfold handleProtocolFrame. keep output_dep. Qed.
#[local] Hint Resolve output_handleProtocolFrame : keeps.

Lemma output_setPreferDirect b : keeps output_inv (setPreferDirect b).
Proof. unfold setPreferDirect. keep output_dep. Qed.
#[local] Hint Resolve output_setPreferDirect : keeps.

Lemma output_sendInput x : keeps output_inv (sendInput x).
Proof. unfold sendInput. keep output_dep. Qed.
#[local] Hint Resolve output_sendInput : keeps.

Lemma output_sendResize c r : keeps output_inv (sendResize c r).
Proof. unfold sendResize. keep output_dep. Qed.
#[local] Hint Resolve output_sendResize : keeps.

Lemma output_socket_onmessage id g d : keeps output_inv (socket_onmessage id g d).
Proof. unfold socket_onmessage. keep output_dep. Qed.
#[local] Hint Resolve output_socket_onmessage : keeps.

Lemma output_direct_callback d g cb : keeps output_inv (direct_callback d g cb).
Proof. unfold direct_callback. keep output_dep. Qed.
#[local] Hint Resolve output_direct_callback : keeps.

Lemma output_set_transport d t : keeps output_inv (set_transport d t).
Proof. keep output_dep. Qed.

(** A resumed connection starts from the last output it showed. *)
Lemma output_attach : keeps output_inv attach.
Proof.
  unfold attach. apply keeps_bind; [apply keeps_gets|]. intros c. destruct (detached c); [apply keeps_ret|].
  apply keeps_bind; [|intros; keep output_dep].
  destruct (suspended c); [|apply keeps_ret]. intros w (Hs & Hf & Hl).
  unfold output_inv, committed in *. wrun. by rewrite Hl.
Qed.

Lemma output_step e w : output_inv w -> output_inv (step e w).
Proof.
  revert w. change (keeps output_inv (dispatch e)).
  destruct e; cbn [dispatch]; unfold void; try (keep output_dep; fail).
  - apply output_attach.
  - keep output_dep. all: eapply keeps_run_callbacks; auto using output_direct_callback, output_set_transport.
Qed.

Lemma output_run events w : output_inv w -> output_inv (run events w).
Proof.
  revert w. induction events as [|e events IH]; intros w Hw; [done|]. cbn. by apply IH, output_step.
Qed.
End Output.
