(* ===== verification/ConnRequests.v ===== *)
(** * Timers and promises of the session connection

    The timers of every reachable state belong to what they were set for, and
    every promise handed out is either settled, once, or still waiting for a
    timer or for the bytes of a paste. *)

From S2P Require Import Prelude Bytes JsString JsMap Json Proto FsSegments DirectCrypto.
From S2P Require Import DirectRoute Opaque ConnWire Transport Connection ConnFrame ConnTouches.

(** ** Timer lists *)

Definition timer_ids (l : list (nat * TimerKind)) : list nat := map fst l.

(** [clearTimeout] on the list. *)
Definition clear_timer (t : nat) (l : list (nat * TimerKind)) : list (nat * TimerKind) :=
  filter (fun x => fst x <> t) l.

Lemma timer_id_in l t k : (t, k) ∈ l -> t ∈ timer_ids l.
Proof. intros Hin. change t with (fst (t, k)). by apply list_elem_of_fmap_2. Qed.

Lemma clear_timer_in l t x : x ∈ clear_timer t l <-> fst x <> t /\ x ∈ l.
Proof. unfold clear_timer. by rewrite list_elem_of_filter. Qed.

Lemma clear_timer_cons x l t :
  clear_timer t (x :: l) = if decide (fst x = t) then clear_timer t l else x :: clear_timer t l.
Proof.
  unfold clear_timer. rewrite filter_cons.
  destruct (decide (fst x = t)); [by rewrite decide_False by tauto|by rewrite decide_True].
Qed.

Lemma clear_timer_ids l t x : x ∈ timer_ids (clear_timer t l) -> x ∈ timer_ids l.
Proof. intros [[x' k] [-> [_ Hin]%clear_timer_in]]%list_elem_of_fmap. by eapply timer_id_in. Qed.

Lemma clear_timer_NoDup l t : NoDup (timer_ids l) -> NoDup (timer_ids (clear_timer t l)).
Proof.
  induction l as [|[t' k] l IH]; [done|]. rewrite clear_timer_cons.
  intros [Hn Hl]%NoDup_cons. destruct (decide _); [by apply IH|]. apply NoDup_cons.
  split; [|by apply IH]. intros Hin. by apply Hn, (clear_timer_ids _ t).
Qed.

Lemma clear_timer_absent l t : t ∉ timer_ids l -> clear_timer t l = l.
Proof.
  induction l as [|[t' k] l IH]; [done|]. rewrite clear_timer_cons. intros Hn.
  rewrite decide_False by (intros <-; apply Hn; by left). f_equal. apply IH.
  intros Hin. apply Hn. by right.
Qed.

(** A timer in use is taken out once. *)
Lemma clear_timer_perm l t k : NoDup (timer_ids l) -> (t, k) ∈ l -> l ≡ₚ (t, k) :: clear_timer t l.
Proof.
  induction l as [|[t' k'] l IH]; [by intros _ ?%elem_of_nil|]. rewrite clear_timer_cons.
  intros [Hn Hl]%NoDup_cons [E|Hin]%elem_of_cons; cbn in *.
  - simplify_eq. by rewrite decide_True, clear_timer_absent.
  - rewrite decide_False by (intros ->; by apply Hn, (timer_id_in l t k)).
    rewrite (IH Hl Hin) at 1. constructor.
Qed.

Lemma timer_kind_unique l t k k' : NoDup (timer_ids l) -> (t, k) ∈ l -> (t, k') ∈ l -> k = k'.
Proof.
  intros Hnd Hk Hk'. rewrite (clear_timer_perm _ _ _ Hnd Hk) in Hk'.
  apply elem_of_cons in Hk' as [E|[Hne _]%clear_timer_in]; [congruence|done].
Qed.

(** ** Timers and what they were set for *)

Record timers_ok (ts : list (nat * TimerKind)) (n : nat) (rt : option nat)
    (fs : jsmap jsstr PendingFS) (so : jsmap jsstr PendingService) : Prop := mkTimersOk {
  tm_ids : NoDup (timer_ids ts);
  tm_fresh t : t ∈ timer_ids ts -> (t < n)%nat;
  tm_reconnect t : (t, ReconnectTimer) ∈ ts <-> rt = Some t;
  tm_fs t rid p : (t, FSRequestTimer rid p) ∈ ts <-> map_get fs rid = Some (mkPendingFS p t);
  tm_so rid e : map_get so rid = Some e -> (so_timer e, ServiceOpenTimer rid (so_promise e)) ∈ ts;
  tm_fs_map : map_ok fs;
  tm_so_map : map_ok so;
}.

Section TimersOk.
Context {ts : list (nat * TimerKind)} {n : nat} {rt : option nat}.
Context {fs : jsmap jsstr PendingFS} {so : jsmap jsstr PendingService}.

(** The next id is not in use. *)
Lemma timer_next_unused k : timers_ok ts n rt fs so -> (n, k) ∉ ts.
Proof. intros Hok Hin%timer_id_in. apply (tm_fresh _ _ _ _ _ Hok) in Hin. lia. Qed.

Lemma timer_app_ids k : timers_ok ts n rt fs so -> NoDup (timer_ids (ts ++ [(n, k)])).
Proof.
  intros Hok. unfold timer_ids. rewrite map_app. apply NoDup_app. split_and!; [apply Hok| |apply NoDup_singleton].
  intros t Ht ->%list_elem_of_singleton. apply (tm_fresh _ _ _ _ _ Hok) in Ht. cbn in Ht. lia.
Qed.

Lemma timer_app_fresh k t : timers_ok ts n rt fs so -> t ∈ timer_ids (ts ++ [(n, k)]) -> (t < S n)%nat.
Proof.
  intros Hok. unfold timer_ids. rewrite map_app. intros [Ht|Ht%list_elem_of_singleton]%elem_of_app.
  - apply (tm_fresh _ _ _ _ _ Hok) in Ht. lia.
  - cbn in Ht. lia.
Qed.

Lemma timer_snoc k x : x ∈ ts ++ [(n, k)] <-> x ∈ ts \/ x = (n, k).
Proof. by rewrite elem_of_app, list_elem_of_singleton. Qed.
End TimersOk.

Section TimerSteps.
Context (ts : list (nat * TimerKind)) (n : nat) (rt : option nat).
Context (fs : jsmap jsstr PendingFS) (so : jsmap jsstr PendingService).

Lemma timers_add_reconnect :
  timers_ok ts n None fs so -> timers_ok (ts ++ [(n, ReconnectTimer)]) (S n) (Some n) fs so.
Proof.
  intros Hok. split; try apply Hok; intros *; rewrite ?timer_snoc.
  - by eapply timer_app_ids.
  - by eapply timer_app_fresh.
  - rewrite (tm_reconnect _ _ _ _ _ Hok). naive_solver.
  - rewrite (tm_fs _ _ _ _ _ Hok). naive_solver.
  - intros ?%(tm_so _ _ _ _ _ Hok). by left.
Qed.

Lemma timers_clear_reconnect t :
  timers_ok ts n (Some t) fs so -> timers_ok (clear_timer t ts) n None fs so.
Proof.
  intros Hok. assert (Ht : (t, ReconnectTimer) ∈ ts) by by apply (tm_reconnect _ _ _ _ _ Hok).
  assert (Hne : forall t' k, (t', k) ∈ ts -> k <> ReconnectTimer -> t' <> t).
  { intros t' k Hin Hk ->. by apply Hk, (timer_kind_unique ts t); [apply Hok| |]. }
  split; try apply Hok; intros *; rewrite ?clear_timer_in; cbn.
  - apply clear_timer_NoDup, Hok.
  - intros Hx%clear_timer_ids. by apply Hok.
  - rewrite (tm_reconnect _ _ _ _ _ Hok). naive_solver.
  - rewrite <- (tm_fs _ _ _ _ _ Hok). naive_solver.
  - intros Hx%(tm_so _ _ _ _ _ Hok). split; [by eapply Hne|done].
Qed.

Lemma timers_add_fs rid p :
  map_get fs rid = None -> timers_ok ts n rt fs so ->
  timers_ok (ts ++ [(n, FSRequestTimer rid p)]) (S n) rt (map_set fs rid (mkPendingFS p n)) so.
Proof.
  intros Hnone Hok. split; try apply Hok; intros *; rewrite ?timer_snoc.
  - by eapply timer_app_ids.
  - by eapply timer_app_fresh.
  - rewrite (tm_reconnect _ _ _ _ _ Hok). naive_solver.
  - rewrite map_get_set, (tm_fs _ _ _ _ _ Hok). case_bool_decide; subst; naive_solver.
  - intros ?%(tm_so _ _ _ _ _ Hok). by left.
  - apply map_ok_set, Hok.
Qed.

Lemma timers_clear_fs rid e :
  map_get fs rid = Some e -> timers_ok ts n rt fs so ->
  timers_ok (clear_timer (fs_timer e) ts) n rt (map_delete fs rid) so.
Proof.
  destruct e as [p t]. intros Hget Hok. cbn.
  assert (Ht : (t, FSRequestTimer rid p) ∈ ts) by by apply (tm_fs _ _ _ _ _ Hok).
  assert (Hne : forall t' k, (t', k) ∈ ts -> k <> FSRequestTimer rid p -> t' <> t).
  { intros t' k Hin Hk ->. by apply Hk, (timer_kind_unique ts t); [apply Hok| |]. }
  split; try apply Hok; intros *; rewrite ?clear_timer_in; cbn.
  - apply clear_timer_NoDup, Hok.
  - intros Hx%clear_timer_ids. by apply Hok.
  - rewrite <- (tm_reconnect _ _ _ _ _ Hok). naive_solver.
  - rewrite map_get_delete by apply Hok. case_bool_decide as Hr; [subst|].
    + rewrite (tm_fs _ _ _ _ _ Hok). naive_solver.
    + rewrite <- (tm_fs _ _ _ _ _ Hok). naive_solver.
  - intros Hx%(tm_so _ _ _ _ _ Hok). split; [by eapply Hne|done].
  - apply map_ok_delete, Hok.
Qed.

Lemma timers_add_so rid e :
  so_timer e = n -> timers_ok ts n rt fs so ->
  timers_ok (ts ++ [(n, ServiceOpenTimer rid (so_promise e))]) (S n) rt fs (map_set so rid e).
Proof.
  intros He Hok. split; try apply Hok; intros *; rewrite ?timer_snoc.
  - by eapply timer_app_ids.
  - by eapply timer_app_fresh.
  - rewrite (tm_reconnect _ _ _ _ _ Hok). naive_solver.
  - rewrite (tm_fs _ _ _ _ _ Hok). naive_solver.
  - rewrite map_get_set. case_bool_decide; [subst rid0|].
    + intros [= <-]. right. by rewrite He.
    + intros ?%(tm_so _ _ _ _ _ Hok). by left.
  - apply map_ok_set, Hok.
Qed.

(** A service timer goes, and with it the entry of its request. *)
Lemma timers_clear_so rid t p :
  (t, ServiceOpenTimer rid p) ∈ ts -> timers_ok ts n rt fs so ->
  timers_ok (clear_timer t ts) n rt fs (map_delete so rid).
Proof.
  intros Ht Hok.
  assert (Hne : forall t' k, (t', k) ∈ ts -> k <> ServiceOpenTimer rid p -> t' <> t).
  { intros t' k Hin Hk ->. by apply Hk, (timer_kind_unique ts t); [apply Hok| |]. }
  split; try apply Hok; intros *; rewrite ?clear_timer_in; cbn.
  - apply clear_timer_NoDup, Hok.
  - intros Hx%clear_timer_ids. by apply Hok.
  - rewrite <- (tm_reconnect _ _ _ _ _ Hok). naive_solver.
  - rewrite <- (tm_fs _ _ _ _ _ Hok). naive_solver.
  - rewrite map_get_delete by apply Hok. case_bool_decide as Hr; [done|].
    intros Hx%(tm_so _ _ _ _ _ Hok). split; [|done]. eapply Hne; [done|congruence].
  - apply map_ok_delete, Hok.
Qed.
End TimerSteps.

(** ** Promises *)

Definition kind_promise (k : TimerKind) : option nat :=
  match k with
  | ReconnectTimer => None
  | FSRequestTimer _ p | ServiceOpenTimer _ p => Some p
  end.

Definition timer_promises (ts : list (nat * TimerKind)) : list nat := omap (fun x => kind_promise (snd x)) ts.

Definition settled_by (e : Effect) : option nat := match e with Settle p _ => Some p | _ => None end.

(** The promises settled so far, in order. *)
Definition settled (t : list Effect) : list nat := omap settled_by (of_kind K_settle t).

(** Every promise handed out so far is settled or waits, exactly one of the
    two and once. *)
Definition promises_ok {V} (ts : list (nat * TimerKind)) (pastes : list (nat * V)) (t : list Effect) (n : nat) : Prop :=
  settled t ++ timer_promises ts ++ map fst pastes ≡ₚ seq 0 n.

Lemma settled_snoc t p s : settled (t ++ [Settle p s]) = settled t ++ [p].
Proof. unfold settled, of_kind. by rewrite filter_app, omap_app. Qed.

Lemma timer_promises_snoc ts x :
  timer_promises (ts ++ [x]) = timer_promises ts ++ match kind_promise (snd x) with Some p => [p] | None => [] end.
Proof. unfold timer_promises. rewrite omap_app. cbn. by destruct (kind_promise (snd x)). Qed.

Lemma timer_promises_clear ts t k : NoDup (timer_ids ts) -> (t, k) ∈ ts ->
  timer_promises ts ≡ₚ match kind_promise k with Some p => [p] | None => [] end ++ timer_promises (clear_timer t ts).
Proof.
  intros Hnd Hin. unfold timer_promises at 1. rewrite (clear_timer_perm _ _ _ Hnd Hin) at 1. cbn.
  by destruct (kind_promise k).
Qed.

Section PromiseSteps.
Context {V : Type} (ts : list (nat * TimerKind)) (pastes : list (nat * V)) (tr : list Effect) (n : nat).

(** A waiting timer goes and its promise is settled. *)
Lemma promises_settle t k p s :
  NoDup (timer_ids ts) -> (t, k) ∈ ts -> kind_promise k = Some p ->
  promises_ok ts pastes tr n -> promises_ok (clear_timer t ts) pastes (tr ++ [Settle p s]) n.
Proof.
  intros Hnd Hin Hk. unfold promises_ok. rewrite (timer_promises_clear _ _ _ Hnd Hin), Hk, settled_snoc.
  by rewrite <- !app_assoc.
Qed.

(** A timer that no promise waits for. *)
Lemma promises_clear t k :
  NoDup (timer_ids ts) -> (t, k) ∈ ts -> kind_promise k = None ->
  promises_ok ts pastes tr n -> promises_ok (clear_timer t ts) pastes tr n.
Proof. intros Hnd Hin Hk. unfold promises_ok. by rewrite (timer_promises_clear _ _ _ Hnd Hin), Hk. Qed.

Lemma promises_add_plain t k :
  kind_promise k = None -> promises_ok ts pastes tr n -> promises_ok (ts ++ [(t, k)]) pastes tr n.
Proof. intros Hk. unfold promises_ok. rewrite timer_promises_snoc. cbn. by rewrite Hk, app_nil_r. Qed.

Lemma promises_new (l : list nat) :
  promises_ok ts pastes tr n -> l ≡ₚ settled tr ++ timer_promises ts ++ map fst pastes ++ [n] ->
  l ≡ₚ seq 0 (S n).
Proof. intros Hok ->. rewrite seq_S. unfold promises_ok in Hok. rewrite <- Hok. by rewrite <- !app_assoc. Qed.

(** A promise handed out with its timer, settled at once, or with a paste. *)
Lemma promises_add t k :
  kind_promise k = Some n -> promises_ok ts pastes tr n -> promises_ok (ts ++ [(t, k)]) pastes tr (S n).
Proof.
  intros Hk Hok. eapply promises_new; [done|]. rewrite timer_promises_snoc. cbn. rewrite Hk.
  apply Permutation_app_head. rewrite <- app_assoc. apply Permutation_app_head. apply Permutation_app_comm.
Qed.

Lemma promises_rejected s : promises_ok ts pastes tr n -> promises_ok ts pastes (tr ++ [Settle n s]) (S n).
Proof.
  intros Hok. eapply promises_new; [done|]. rewrite settled_snoc, <- app_assoc.
  apply Permutation_app_head. cbn. rewrite (app_assoc (timer_promises ts)). apply Permutation_cons_append.
Qed.

Lemma promises_paste v : promises_ok ts pastes tr n -> promises_ok ts (pastes ++ [(n, v)]) tr (S n).
Proof. intros Hok. eapply promises_new; [done|]. by rewrite map_app. Qed.

Lemma map_delete_keys (p : nat) (v : V) (m : list (nat * V)) :
  map_get m p = Some v -> map fst m ≡ₚ p :: map fst (map_delete m p).
Proof.
  induction m as [|[k x] m IH]; [done|]. cbn. case_bool_decide as E; [by intros _; rewrite E|].
  intros Hm. cbn. rewrite (IH Hm). constructor.
Qed.

Lemma promises_resume p v s :
  map_get pastes p = Some v ->
  promises_ok ts pastes tr n -> promises_ok ts (map_delete pastes p) (tr ++ [Settle p s]) n.
Proof.
  intros Hget. unfold promises_ok. rewrite (map_delete_keys _ _ _ Hget), settled_snoc, <- app_assoc.
  intros <-. apply Permutation_app_head. cbn. by rewrite <- Permutation_middle.
Qed.
End PromiseSteps.

(** ** The methods *)

Section Requests.
Context `{Crypto} `{JsText} `{Host} `{DirectTransport}.
Implicit Types (w : World).

Definition requests_inv w : Prop :=
  timers_ok (timers w) (nextTimer w) (reconnectTimer (this w)) (pendingFSRequests (this w))
    (pendingServiceOpens (this w)) /\
  promises_ok (timers w) (pendingPastes w) (trace w) (nextPromise w).

Lemma promises_ok_trace {V} ts (pastes : list (nat * V)) tr tr' n :
  of_kind K_settle tr' = of_kind K_settle tr -> promises_ok ts pastes tr n -> promises_ok ts pastes tr' n.
Proof. unfold promises_ok, settled. by intros ->. Qed.

Lemma requests_dep :
  depends [F_timers; F_nextTimer; F_reconnectTimer; F_pendingFSRequests; F_pendingServiceOpens;
           F_pendingPastes; F_nextPromise; E_settle] requests_inv.
Proof.
  intros w w' Hk [Ht Hp]. unfold requests_inv.
  rewrite (Hk F_timers eq_refl : timers w' = _), (Hk F_nextTimer eq_refl : nextTimer w' = _),
    (Hk F_reconnectTimer eq_refl : reconnectTimer (this w') = _),
    (Hk F_pendingFSRequests eq_refl : pendingFSRequests (this w') = _),
    (Hk F_pendingServiceOpens eq_refl : pendingServiceOpens (this w') = _),
    (Hk F_pendingPastes eq_refl : pendingPastes w' = _), (Hk F_nextPromise eq_refl : nextPromise w' = _).
  split; [done|]. eapply promises_ok_trace; [|exact Hp]. apply (Hk E_settle eq_refl).
Qed.

Lemma requests_scheduleReconnect w :
  requests_inv w -> reconnectTimer (this w) = None -> requests_inv (fst (scheduleReconnect w)).
Proof.
  intros [Ht Hp] Hnone. unfold scheduleReconnect, setTimeout, requests_inv. wrun. rewrite Hnone in Ht. split.
  - by apply timers_add_reconnect.
  - apply promises_add_plain; [done|]. eapply promises_ok_trace; [|exact Hp]. by apply of_kind_other.
Qed.

(** The reconnect timer goes. *)
Lemma requests_clear_reconnect t w :
  requests_inv w -> reconnectTimer (this w) = Some t ->
  requests_inv (w <| timers := clear_timer t (timers w) |> <| this := (this w) <| reconnectTimer := None |> |>).
Proof.
  intros [Ht Hp] Hsome. unfold requests_inv. wcbn. rewrite Hsome in Ht. split.
  - by apply timers_clear_reconnect.
  - eapply promises_clear; [apply Ht|by apply (tm_reconnect _ _ _ _ _ Ht)|done|done].
Qed.

(** *** Requests that are given up *)

Lemma requests_reject_all_fs so rt err fs : forall w,
  timers_ok (timers w) (nextTimer w) rt fs so ->
  promises_ok (timers w) (pendingPastes w) (trace w) (nextPromise w) ->
  let w' := fst (reject_all_fs (map_values fs) err w) in
  timers_ok (timers w') (nextTimer w') rt [] so /\
  promises_ok (timers w') (pendingPastes w') (trace w') (nextPromise w').
Proof.
  induction fs as [|[rid e] fs IH]; intros w Ht Hp; [done|]. cbn [map_values map snd reject_all_fs].
  unfold clearTimeout. wrun.
  assert (Hget : map_get ((rid, e) :: fs) rid = Some e) by (cbn; by rewrite bool_decide_true).
  apply IH; wcbn.
  - apply (timers_clear_fs _ _ _ _ _ rid e Hget) in Ht. cbn in Ht. by rewrite bool_decide_true in Ht.
  - eapply (promises_settle _ _ _ _ _ (FSRequestTimer rid (fs_promise e))); [apply Ht| |done|done].
    apply (tm_fs _ _ _ _ _ Ht). rewrite Hget. by destruct e.
Qed.

Lemma requests_reject_all_services fs rt err so : forall w,
  timers_ok (timers w) (nextTimer w) rt fs so ->
  promises_ok (timers w) (pendingPastes w) (trace w) (nextPromise w) ->
  let w' := fst (reject_all_services (map_values so) err w) in
  timers_ok (timers w') (nextTimer w') rt fs [] /\
  promises_ok (timers w') (pendingPastes w') (trace w') (nextPromise w').
Proof.
  induction so as [|[rid e] so IH]; intros w Ht Hp; [done|]. cbn [map_values map snd reject_all_services].
  unfold clearTimeout. wrun.
  assert (Hin : (so_timer e, ServiceOpenTimer rid (so_promise e)) ∈ timers w).
  { apply (tm_so _ _ _ _ _ Ht). cbn. by rewrite bool_decide_true. }
  apply IH; wcbn.
  - apply (timers_clear_so _ _ _ _ _ _ _ _ Hin) in Ht. cbn in Ht. by rewrite bool_decide_true in Ht.
  - by eapply promises_settle; [apply Ht|exact Hin| |].
Qed.

(** Giving up does not throw. *)
Lemma reject_all_services_ok l err : forall w, snd (reject_all_services l err w) = Ok tt.
Proof. induction l as [|e l IH]; intros w; [done|]. cbn [reject_all_services]. unfold clearTimeout. wrun. apply IH. Qed.

Lemma requests_rejectPendingFSRequests err : keeps requests_inv (rejectPendingFSRequests err).
Proof.
  intros w [Ht Hp]. unfold rejectPendingFSRequests. wrun.
  match goal with |- context [reject_all_fs _ _ ?w1] => set (w' := w1) end.
  destruct (touches_reject_all_fs (map_values (pendingFSRequests (this w))) err) as [Hf]. specialize (Hf w').
  unfold requests_inv. rewrite (Hf F_reconnectTimer eq_refl : _ = _), (Hf F_pendingFSRequests eq_refl : _ = _),
    (Hf F_pendingServiceOpens eq_refl : _ = _).
  by apply (requests_reject_all_fs _ _ err _ w').
Qed.

Lemma requests_rejectPendingServiceOpens err : keeps requests_inv (rejectPendingServiceOpens err).
Proof.
  intros w [Ht Hp]. unfold rejectPendingServiceOpens, self, gets. cbn [mbind].
  destruct (requests_reject_all_services _ _ err _ w Ht Hp) as [Ht' Hp'].
  pose proof (reject_all_services_ok (map_values (pendingServiceOpens (this w))) err w) as Hok.
  destruct (touches_reject_all_services (map_values (pendingServiceOpens (this w))) err) as [Hf]. specialize (Hf w).
  pose proof (Hf F_reconnectTimer eq_refl : _ = _) as Hr.
  pose proof (Hf F_pendingFSRequests eq_refl : _ = _) as Hq. clear Hf.
  unfold mbind. destruct (reject_all_services _ err w) as [w' ?]. cbn in Hok, Hr, Hq, Ht', Hp' |- *. subst.
  unfold requests_inv, assign, modify. wcbn. by rewrite Hr, Hq.
Qed.
#[local] Hint Resolve requests_rejectPendingFSRequests requests_rejectPendingServiceOpens : keeps.

Lemma requests_failPendingRequests a b : keeps requests_inv (failPendingRequests a b).
Proof. unfold failPendingRequests. keep requests_dep. Qed.

(** *** Responses *)

Lemma requests_finish_fs rid e r w :
  requests_inv w -> map_get (pendingFSRequests (this w)) rid = Some e ->
  requests_inv (fst ((do* _ := clearTimeout (fs_timer e) in
    do* _ := assign (fun c => c <| pendingFSRequests := map_delete (pendingFSRequests c) rid |>) in
    settle (fs_promise e) r) w)).
Proof.
  intros [Ht Hp] Hget. unfold clearTimeout, requests_inv. wrun. split.
  - by apply timers_clear_fs.
  - eapply (promises_settle _ _ _ _ _ (FSRequestTimer rid (fs_promise e))); [apply Ht| |done|done].
    apply (tm_fs _ _ _ _ _ Ht). rewrite Hget. by destruct e.
Qed.

Lemma requests_finish_so rid t p r w :
  requests_inv w -> (t, ServiceOpenTimer rid p) ∈ timers w ->
  requests_inv (fst ((do* _ := clearTimeout t in
    do* _ := assign (fun c => c <| pendingServiceOpens := map_delete (pendingServiceOpens c) rid |>) in
    settle p r) w)).
Proof.
  intros [Ht Hp] Hin. unfold clearTimeout, requests_inv. wrun. split.
  - by eapply timers_clear_so.
  - by eapply promises_settle; [apply Ht|exact Hin| |].
Qed.

Lemma requests_handleFSResponse p : keeps requests_inv (handleFSResponse p).
Proof.
  unfold handleFSResponse. apply keeps_bind; [apply keeps_lift|]. intros [segs|]; [|apply keeps_ret].
  destruct (JSON_parse _) as [parsed|]; [|apply keeps_ret].
  destruct (as_record parsed) as [response|]; [|apply keeps_ret].
  destruct (negb _); [apply keeps_ret|]. do 2 (apply keeps_bind; [apply keeps_gets|intros]).
  apply keeps_bind; [keep requests_dep|]. intros [response'|]; [|apply keeps_ret].
  apply keeps_gets_bind. intros w Hw. destruct (as_string _) as [rid|]; [|done].
  destruct (map_get (pendingFSRequests (this w)) rid) as [e|] eqn:Hget; [|done].
  by apply requests_finish_fs.
Qed.

(** A value with one property has them all. *)
Lemma prop_ok j k k' v : prop j k = Ok v -> exists v', prop j k' = Ok v'.
Proof. destruct j; cbn; try done; eauto. Qed.

Lemma requests_handleServiceOpened p : keeps requests_inv (handleServiceOpened p).
Proof.
  unfold handleServiceOpened. destruct (JSON_parse _) as [response|]; [|apply keeps_ret].
  destruct (prop response "request_id") as [request_id|] eqn:Eq; [|apply keeps_throw].
  destruct (prop_ok _ _ "ok" _ Eq) as [ok Eok], (prop_ok _ _ "client_ticket" _ Eq) as [ticket Et],
    (prop_ok _ _ "service_id" _ Eq) as [service_id Es], (prop_ok _ _ "error" _ Eq) as [err Ee].
  rewrite Eok, Et, Es, Ee. intros w Hw. wrun. destruct (negb (truthy request_id)); [done|].
  destruct (as_string request_id) as [rid|]; [|done]. wrun.
  destruct (map_get (pendingServiceOpens (this w)) rid) as [e|] eqn:Hget; [|done]. cbn [option_map].
  pose proof (tm_so _ _ _ _ _ (proj1 Hw) _ _ Hget) as Hin.
  destruct (negb (truthy ok) || _ || _); exact (requests_finish_so rid _ _ _ w Hw Hin).
Qed.

(** *** New requests *)

Lemma requests_rejected msg : keeps requests_inv (rejected msg).
Proof.
  intros w [Ht Hp]. unfold rejected, newPromise, requests_inv. wrun. split; [done|]. by apply promises_rejected.
Qed.
#[local] Hint Resolve requests_rejected : keeps.

Lemma requests_add_fs rid ms w :
  requests_inv w -> map_get (pendingFSRequests (this w)) rid = None ->
  requests_inv (fst ((do* p := newPromise in
    do* timer := setTimeout (FSRequestTimer rid p) ms in
    assign (fun c => c <| pendingFSRequests := map_set (pendingFSRequests c) rid (mkPendingFS p timer) |>)) w)).
Proof.
  intros [Ht Hp] Hnone. unfold newPromise, setTimeout, requests_inv. wrun. split.
  - by apply timers_add_fs.
  - apply promises_add; [done|]. eapply promises_ok_trace; [|exact Hp]. by apply of_kind_other.
Qed.

Lemma map_get_set_same (m : jsmap jsstr PendingFS) rid e : map_get (map_set m rid e) rid = Some e.
Proof. by rewrite map_get_set, bool_decide_true. Qed.

Lemma try_send_ok id ty p w : exists w' r, try_send id ty p w = (w', Ok r).
Proof.
  unfold try_send. destruct ((do* frame := frame_of ty p in ws_send id frame) w) as [w' [[]|msg]]; by do 2 eexists.
Qed.

Lemma try_send_keeps id ty p w w' r f :
  try_send id ty p w = (w', r) -> has [E_send] f = false -> keeps_field f w w'.
Proof.
  intros E Hf. destruct (touches_try_send id ty p) as [Ht]. specialize (Ht w f Hf). by rewrite E in Ht.
Qed.

Lemma requests_try_send id ty p : keeps requests_inv (try_send id ty p).
Proof. keep requests_dep. Qed.

Lemma requests_post_fs id rid ms encoded w :
  requests_inv w -> map_get (pendingFSRequests (this w)) rid = None ->
  requests_inv (fst ((do* p := newPromise in
    do* timer := setTimeout (FSRequestTimer rid p) ms in
    do* _ := assign (fun c => c <| pendingFSRequests := map_set (pendingFSRequests c) rid (mkPendingFS p timer) |>) in
    do* _ := send_or id TYPE.FS_REQUEST encoded (fun msg =>
      do* _ := clearTimeout timer in
      do* _ := assign (fun c => c <| pendingFSRequests := map_delete (pendingFSRequests c) rid |>) in
      settle p (RejectWith (js msg))) in
    mret p) w)).
Proof.
  intros Hw Hnone. pose proof (requests_add_fs rid ms w Hw Hnone) as Hadd. revert Hadd.
  unfold newPromise, setTimeout, send_or. wrun. intros Hadd.
  match type of Hadd with requests_inv ?w1 => set (w' := w1) in * end.
  pose proof (requests_try_send id TYPE.FS_REQUEST encoded w' Hadd) as Hs.
  destruct (try_send_ok id TYPE.FS_REQUEST encoded w') as (w2 & r & E). rewrite E in *. cbn in Hs.
  destruct r as [msg|]; [|done].
  apply (requests_finish_fs rid (mkPendingFS (nextPromise w) (nextTimer w)) (RejectWith (js msg)) w2 Hs).
  rewrite (try_send_keeps _ _ _ _ _ _ F_pendingFSRequests E eq_refl : _ = _). apply map_get_set_same.
Qed.

Lemma requests_sendFSRequest req ms : keeps requests_inv (sendFSRequest req ms).
Proof.
  unfold sendFSRequest. apply keeps_bind; [apply keeps_gets|]. intros [id|]; [|apply requests_rejected].
  apply keeps_bind; [keep requests_dep|]. intros rid. apply keeps_gets_bind. intros w Hw.
  destruct (map_has _ rid) eqn:Hhas; [by apply requests_rejected|].
  case_bool_decide; [by apply requests_rejected|].
  assert (Hnone : map_get (pendingFSRequests (this w)) rid = None).
  { unfold map_has in Hhas. cbn in Hhas. by destruct (map_get _ _). }
  unfold tick. wrun. destruct (accountKey w); wrun;
    (match goal with |- context [encodeFSRequestPayload ?a ?b ?c ?d] =>
       destruct (encodeFSRequestPayload a b c d) as [encoded|] end; [|done]).
  - set (w1 := w <| ticks := S (ticks w) |>). exact (requests_post_fs id rid ms encoded w1 Hw Hnone).
  - exact (requests_post_fs id rid ms encoded w Hw Hnone).
Qed.

Lemma requests_post_so id rid sid c2h h2c ms payload w :
  requests_inv w ->
  requests_inv (fst ((do* p := newPromise in
    do* timer := setTimeout (ServiceOpenTimer rid p) ms in
    do* _ := assign (fun c => c <| pendingServiceOpens :=
      map_set (pendingServiceOpens c) rid (mkPendingService p timer sid c2h h2c) |>) in
    do* _ := send_or id TYPE.SERVICE_OPEN payload (fun msg =>
      do* _ := clearTimeout timer in
      do* _ := assign (fun c => c <| pendingServiceOpens := map_delete (pendingServiceOpens c) rid |>) in
      settle p (RejectWith (js msg))) in
    mret p) w)).
Proof.
  intros [Ht Hp]. unfold newPromise, setTimeout, send_or. wrun.
  match goal with |- context [try_send _ _ _ ?w1] => set (w' := w1) in * end.
  assert (Hadd : requests_inv w').
  { unfold requests_inv, w'. wcbn. split.
    - by apply (timers_add_so _ _ _ _ _ rid (mkPendingService (nextPromise w) (nextTimer w) sid c2h h2c)).
    - apply promises_add; [done|]. eapply promises_ok_trace; [|exact Hp]. by apply of_kind_other. }
  pose proof (requests_try_send id TYPE.SERVICE_OPEN payload w' Hadd) as Hs.
  destruct (try_send_ok id TYPE.SERVICE_OPEN payload w') as (w2 & r & E). rewrite E in *. cbn in Hs.
  destruct r as [msg|]; [|done].
  apply (requests_finish_so rid _ _ (RejectWith (js msg)) w2 Hs).
  rewrite (try_send_keeps _ _ _ _ _ _ F_timers E eq_refl : _ = _). unfold w'. wcbn.
  apply elem_of_app. right. by apply list_elem_of_singleton.
Qed.

Lemma requests_openService port host ms : keeps requests_inv (openService port host ms).
Proof.
  unfold openService. apply keeps_bind; [apply keeps_gets|]. intros [id|]; [|apply requests_rejected].
  do 2 (destruct (negb _); [apply requests_rejected|]).
  apply keeps_bind; [apply keeps_gets|]. intros [key|]; [|apply requests_rejected].
  do 6 (apply keeps_bind; [keep requests_dep|intros]). intros w Hw. by apply requests_post_so.
Qed.

Lemma requests_sendPaste ty a b c d : keeps requests_inv (sendPaste ty a b c d).
Proof.
  unfold sendPaste. apply keeps_bind; [apply keeps_gets|]. intros open.
  destruct open as [id|]; [destruct (pasteImageBlockReason _ _)|].
  - keep requests_dep.
  - intros w [Ht Hp]. unfold newPromise, requests_inv. wrun. split; [done|]. by apply promises_paste.
  - keep requests_dep.
Qed.

Lemma requests_pasteResume p read_error : keeps requests_inv (pasteResume p read_error).
Proof.
  unfold pasteResume. apply keeps_gets_bind. intros w [Ht Hp].
  destruct (map_get (pendingPastes w) p) as [[[id ty] payload]|] eqn:Hget; [|done].
  destruct read_error as [err|]; [split; [done|by eapply promises_resume]|]. wrun.
  match goal with |- context [try_send _ _ _ ?w1] => set (w' := w1) in * end.
  destruct (try_send_ok id ty payload w') as (w2 & r & E). rewrite E.
  assert (Hk := try_send_keeps _ _ _ _ _ _ F_timers E eq_refl : timers w2 = timers w).
  unfold requests_inv. wcbn.
  rewrite Hk, (try_send_keeps _ _ _ _ _ _ F_nextTimer E eq_refl : _ = nextTimer w),
    (try_send_keeps _ _ _ _ _ _ F_reconnectTimer E eq_refl : _ = reconnectTimer (this w)),
    (try_send_keeps _ _ _ _ _ _ F_pendingFSRequests E eq_refl : _ = pendingFSRequests (this w)),
    (try_send_keeps _ _ _ _ _ _ F_pendingServiceOpens E eq_refl : _ = pendingServiceOpens (this w)),
    (try_send_keeps _ _ _ _ _ _ F_pendingPastes E eq_refl : _ = map_delete (pendingPastes w) p),
    (try_send_keeps _ _ _ _ _ _ F_nextPromise E eq_refl : _ = nextPromise w).
  split; [done|]. eapply promises_resume; [exact Hget|]. eapply promises_ok_trace; [|exact Hp].
  apply (try_send_keeps _ _ _ _ _ _ E_settle E eq_refl).
Qed.

(** A timer of a request fires. *)
Lemma requests_fired t k w :
  requests_inv w -> (t, k) ∈ timers w -> k <> ReconnectTimer ->
  requests_inv (fst ((do* _ := clearTimeout t in timer_fired k) w)).
Proof.
  intros [Ht Hp] Hin Hk. destruct k as [|rid p|rid p]; [done| |]; cbn [timer_fired];
    unfold clearTimeout, requests_inv; wrun.
  - split; [|by eapply promises_settle; [apply Ht|exact Hin| |]].
    apply (tm_fs _ _ _ _ _ Ht) in Hin. by apply (timers_clear_fs _ _ _ _ _ rid _ Hin) in Ht.
  - split; [|by eapply promises_settle; [apply Ht|exact Hin| |]]. by eapply timers_clear_so.
Qed.
End Requests.

#[export] Hint Resolve requests_failPendingRequests requests_handleFSResponse requests_handleServiceOpened
  requests_rejected requests_sendFSRequest requests_openService requests_sendPaste requests_pasteResume : keeps.
