(* ===== verification/ConnRelay.v ===== *)
(** * The relay socket, the reconnect timer and the direct route

    The invariant of every reachable state of a session connection: at most
    one live relay socket, never beside a reconnect timer and never while the
    direct route is active; a connection that is detached or suspended holds
    nothing; one that was attached always has a way to the session. *)

From S2P Require Import Prelude Bytes JsString JsMap Json Proto FsSegments DirectCrypto.
From S2P Require Import DirectRoute Opaque ConnWire Transport Connection ConnFrame ConnTouches ConnRequests.

Section Relay.
Context `{Crypto} `{JsText} `{Host} `{DirectTransport}.
Implicit Types (w : World).

Definition closing (st : ReadyState) : Prop := st = CLOSING \/ st = CLOSED.

Definition direct_state (s : DirectRouteState) : Prop :=
  s = DirectConnecting \/ s = DirectReplay \/ s = DirectActive.

(** [leak] is a socket that is about to be closed; [None] between events. *)
Record relay_inv (leak : option nat) w : Prop := mkRelayInv {
  ri_ws id : ws (this w) = Some id -> (id < length (sockets w))%nat /\ socketState id w <> CLOSED;
  ri_closed id : (id < length (sockets w))%nat -> ws (this w) <> Some id -> leak <> Some id ->
    closing (socketState id w);
  ri_one : ws (this w) <> None -> reconnectTimer (this w) = None;
  ri_active : routeState (route (this w)) = DirectActive ->
    ws (this w) = None /\ reconnectTimer (this w) = None;
  ri_direct d : direct (this w) = Some d ->
    (exists t, transports w !! d = Some (t, routeGeneration (route (this w)))) /\
    direct_state (routeState (route (this w)));
}.

(** Detached or suspended: nothing is held. *)
Definition idle_inv w : Prop :=
  detached (this w) = true \/ suspended (this w) = true ->
  ws (this w) = None /\ reconnectTimer (this w) = None /\ direct (this w) = None.

Definition has_relay w : Prop := ws (this w) <> None \/ reconnectTimer (this w) <> None.

(** There is a way to the session, unless it was given up. *)
Definition live w : Prop :=
  detached (this w) = true \/ suspended (this w) = true \/ has_relay w \/
  routeState (route (this w)) = DirectActive.

(** [started]: [attach] has been called. *)
Record connected (started : bool) (leak : option nat) w : Prop := mkConnected {
  cn_requests : requests_inv w;
  cn_relay : relay_inv leak w;
  cn_idle : idle_inv w;
  cn_live : started = true -> live w;
}.

Definition relay_fields : list Field :=
  [F_ws; F_sockets; F_reconnectTimer; F_route; F_direct; F_detached; F_suspended; F_transports].

Definition request_fields : list Field :=
  [F_timers; F_nextTimer; F_pendingFSRequests; F_pendingServiceOpens; F_pendingPastes; F_nextPromise; E_settle].

Lemma relay_dep st leak :
  depends relay_fields (fun w => relay_inv leak w /\ idle_inv w /\ (st = true -> live w)).
Proof.
  intros w w' Hk ([] & Hidle & Hlive).
  assert (Hst : forall id, socketState id w' = socketState id w).
  { intros id. unfold socketState. by rewrite (Hk F_sockets eq_refl : sockets w' = _). }
  split_and!; [split; intros *|unfold idle_inv|unfold live, has_relay];
    rewrite ?Hst, ?(Hk F_sockets eq_refl : sockets w' = _), ?(Hk F_ws eq_refl : ws (this w') = _),
    ?(Hk F_reconnectTimer eq_refl : reconnectTimer (this w') = _),
    ?(Hk F_route eq_refl : route (this w') = _), ?(Hk F_direct eq_refl : direct (this w') = _),
    ?(Hk F_detached eq_refl : detached (this w') = _), ?(Hk F_suspended eq_refl : suspended (this w') = _),
    ?(Hk F_transports eq_refl : transports w' = _); auto.
Qed.

Lemma connected_split st leak w :
  connected st leak w <-> requests_inv w /\ (relay_inv leak w /\ idle_inv w /\ (st = true -> live w)).
Proof. split; [by intros []|by intros (? & ? & ? & ?)]. Qed.

Lemma connected_dep st leak : depends (relay_fields ++ request_fields) (connected st leak).
Proof.
  intros w w' Hk. rewrite !connected_split. intros [Hr Hl]. split.
  - apply (requests_dep w); [|done]. each_field; by apply Hk.
  - apply (relay_dep st leak w); [|done]. each_field; by apply Hk.
Qed.

(** A method on requests only. *)
Lemma connected_requests {A} st leak F (m : M A) :
  keeps requests_inv m -> touches F m -> disjoint_fields relay_fields F = true -> keeps (connected st leak) m.
Proof.
  intros Hr Ht Hd w. rewrite !connected_split. intros [Hw Hl]. split; [by apply Hr|].
  by apply (keeps_frame _ _ _ _ (relay_dep st leak) Ht Hd).
Qed.

(** *** Opening the relay socket *)

Lemma accepts_relay g t : acceptsRoute g Route_Relay t = true <->
  g = routeGeneration t /\ routeState t <> DirectActive.
Proof.
  unfold acceptsRoute, route_allowed. destruct (Z.eqb_spec g (routeGeneration t)) as [->|Hg]; cbn [negb].
  - destruct (routeState t); cbn; naive_solver.
  - naive_solver.
Qed.

(** What [openWS] leaves: a socket or a timer, if the relay is wanted. *)
Definition opened g w w' : Prop :=
  requests_inv w' /\ relay_inv None w' /\
  (detached (this w) = false -> suspended (this w) = false -> g = routeGeneration (route (this w)) ->
   routeState (route (this w)) <> DirectActive -> has_relay w').

Lemma relay_scheduleReconnect w :
  requests_inv w -> relay_inv None w -> ws (this w) = None -> reconnectTimer (this w) = None ->
  routeState (route (this w)) <> DirectActive ->
  requests_inv (fst (scheduleReconnect w)) /\ relay_inv None (fst (scheduleReconnect w)) /\
  has_relay (fst (scheduleReconnect w)).
Proof.
  intros Hr Hl Hws Ht Ha. split_and!; [by apply requests_scheduleReconnect| |by right].
  unfold scheduleReconnect, setTimeout. wrun. destruct Hl. split; wcbn; auto; congruence.
Qed.

Lemma socketState_snoc w s w' :
  sockets w' = sockets w ++ [s] ->
  (forall id, (id < length (sockets w))%nat -> socketState id w' = socketState id w) /\
  socketState (length (sockets w)) w' = readyState s.
Proof.
  unfold socketState. intros ->. split.
  - intros id Hid. by rewrite lookup_app_l.
  - by rewrite list_lookup_middle.
Qed.

Lemma relay_openWS g w :
  requests_inv w -> relay_inv None w -> ws (this w) = None -> reconnectTimer (this w) = None ->
  opened g w (fst (openWS g w)).
Proof.
  intros Hr Hl Hws Ht. unfold openWS, opened. wrun.
  destruct (detached (this w)) eqn:Hd; [by split_and!|].
  destruct (suspended (this w)) eqn:Hs; [by split_and!|]. cbn [orb].
  destruct (acceptsRoute g Route_Relay (route (this w))) eqn:Ha; cbn [negb].
  2:{ split_and!; [done|done|]. intros _ _ Hg Hact. by rewrite (proj2 (accepts_relay _ _)) in Ha. }
  apply accepts_relay in Ha as Hact. unfold tick. wrun. destruct (newWebSocket_throws (ticks w)).
  - unfold handleOpenFailure. wrun. rewrite Hd, Hs, Ha. cbn [orb negb].
    match goal with |- context [scheduleReconnect ?w1] => set (w' := w1) end.
    assert (Hr' : requests_inv w').
    { apply (requests_dep w); [|done]. unfold w'. each_field. }
    assert (Hl' : relay_inv None w').
    { destruct Hl. split; unfold w', socketState; wcbn; auto; try congruence.
      intros id Hid _ _. by apply ri_closed0; [|congruence|]. }
    destruct (relay_scheduleReconnect w' Hr' Hl') as (H1' & H2' & H3'); try done. by apply Hact.
  - match goal with |- requests_inv ?w1 /\ _ => set (w' := w1) end.
    destruct (socketState_snoc w (mkSocket CONNECTING g) w' eq_refl) as [Hold Hnew].
    split_and!; [| |intros; by left].
    + apply (requests_dep w); [|done]. unfold w'. each_field.
    + assert (Elen : length (sockets w') = S (length (sockets w))).
      { unfold w'. wcbn. rewrite length_app. cbn. lia. }
      assert (Ews : ws (this w') = Some (length (sockets w))) by done.
      split; rewrite ?Ews, ?Elen.
      * intros id [= <-]. rewrite Hnew. split; [lia|done].
      * intros id Hlt Hne _. assert (Hlt' : (id < length (sockets w))%nat).
        { destruct (decide (id = length (sockets w))) as [->|]; [done|lia]. }
        rewrite Hold by done. apply Hl; congruence.
      * done.
      * intros Ha'. by destruct (proj2 Hact).
      * apply Hl.
Qed.

(** *** Calls of the route tracker *)

(** A transition between states other than the active one. *)
Definition tame (t t' : DirectRouteTracker) : Prop :=
  routeGeneration t' = routeGeneration t /\
  (routeState t' = DirectActive <-> routeState t = DirectActive) /\
  (direct_state (routeState t) -> direct_state (routeState t')).

Lemma connected_on_route {A} st leak (m : method DirectRouteTracker A) :
  (forall t, tame t (fst (m t))) -> keeps (connected st leak) (on_route m).
Proof.
  intros Hm w Hw. apply connected_split in Hw as [Hr (Hl & Hi & Hlive)].
  specialize (Hm (route (this w))) as (Hg & Ha & Hd).
  apply connected_split. split.
  { apply (keeps_frame _ _ _ _ requests_dep (touches_on_route m) eq_refl w Hr). }
  unfold on_route. destruct (m (route (this w))) as [r a]. cbn in Hg, Ha, Hd.
  destruct Hl. split_and!; [split|done|]; wcbn; auto.
  - intros Ht. by apply ri_active0, Ha.
  - intros d Hdir. rewrite Hg. destruct (ri_direct0 d Hdir) as [Ht Hs]. split; [done|by apply Hd].
  - intros Hst. unfold live, has_relay. wcbn. rewrite Ha. by apply Hlive.
Qed.

Lemma tame_refl t : tame t t.
Proof. done. Qed.

Lemma state_is_spec t s : state_is t s = true <-> routeState t = s.
Proof. unfold state_is. by rewrite bool_decide_eq_true. Qed.

Lemma tame_beginDirect t : tame t (fst (beginDirect t)).
Proof.
  unfold beginDirect. mrun. split_guard; [done|]. apply state_is_spec in Hg.
  unfold tame, direct_state. cbn. rewrite Hg. naive_solver.
Qed.

Lemma tame_beginDirectReplay g t : tame t (fst (beginDirectReplay g t)).
Proof.
  unfold beginDirectReplay, requireGeneration. mrun. split_guard; [done|]. split_guard; [done|].
  apply state_is_spec in Hg0. unfold tame, direct_state. cbn. rewrite Hg0. naive_solver.
Qed.

Lemma tame_noteDirectReady g r t : tame t (fst (noteDirectReady g r t)).
Proof. unfold noteDirectReady, requireGeneration. mrun. by repeat (split_guard; [done|]). Qed.

Lemma tame_relayAttached g t : tame t (fst (relayAttached g t)).
Proof.
  unfold relayAttached, requireGeneration. mrun. split_guard; [done|]. split_guard; [done|].
  apply state_is_spec in Hg0. unfold tame, direct_state. cbn. rewrite Hg0. naive_solver.
Qed.

Lemma tame_acceptOutput g r seq t : tame t (fst (acceptOutput g r seq t)).
Proof.
  unfold acceptOutput. mrun. split_guard; [done|]. split_guard; [done|].
  by destruct (_ && _); cbn [lastCommittedSeq]; split_guard.
Qed.

#[local] Hint Resolve connected_on_route tame_beginDirect tame_beginDirectReplay tame_noteDirectReady
  tame_relayAttached tame_acceptOutput : keeps.

(** The direct attempt is over: the route is the relay's again. *)
Definition aborted (t t' : DirectRouteTracker) : Prop :=
  routeGeneration t' = routeGeneration t + 1 /\
  (routeState t <> DirectActive /\ routeState t' = RelayAttached \/
   routeState t = DirectActive /\ routeState t' = RelayReattaching).

Lemma abortDirect_current t :
  state_is t DirectConnecting = true \/ state_is t DirectReplay = true ->
  exists t', abortDirect (routeGeneration t) t = (t', Ok tt) /\ aborted t t' /\ routeState t' = RelayAttached.
Proof.
  intros Hs. unfold abortDirect, requireGeneration. mrun. rewrite Z.eqb_refl. cbn.
  assert (Hn : negb (state_is t DirectConnecting) && negb (state_is t DirectReplay) = false)
    by (destruct Hs as [-> | ->]; [done|by rewrite andb_false_r]).
  rewrite Hn. cbn. eexists. split_and!; [done| |done]. split; [done|]. left. split; [|done].
  rewrite !state_is_spec in Hs. destruct Hs as [-> | ->]; done.
Qed.

Lemma directLost_current t :
  state_is t DirectActive = true ->
  exists t', directLost (routeGeneration t) t = (t', Ok (routeGeneration t')) /\ aborted t t' /\
    routeState t' = RelayReattaching.
Proof.
  intros Hs. unfold directLost, requireGeneration. mrun. rewrite Z.eqb_refl. cbn. rewrite Hs. cbn.
  eexists (mkTracker _ _ _ _ _ _). split_and!; [reflexivity| |done]. split; [done|]. right. by apply state_is_spec in Hs.
Qed.

Lemma relay_aborted leak t' w :
  relay_inv leak w -> direct (this w) = None -> aborted (route (this w)) t' ->
  relay_inv leak (w <| this := (this w) <| route := t' |> |>).
Proof.
  intros [] Hd (Hg & Ha). split; wcbn; auto; try (intros; congruence).
  intros Hact. destruct Ha as [[_ Ha]|[_ Ha]]; congruence.
Qed.

(** Without the direct transport the invariants hold as well. *)
Lemma relay_no_direct leak w :
  relay_inv leak w -> relay_inv leak (w <| this := (this w) <| direct := None |> |>).
Proof. intros []. by split. Qed.

Lemma connected_no_direct st leak : keeps (connected st leak) (assign (fun c => c <| direct := None |>)).
Proof.
  intros w [Hr Hl Hi Hlive]. split.
  - apply (requests_dep w); [each_field|done].
  - by apply relay_no_direct.
  - intros Hd. unfold assign, modify. wcbn. by apply Hi in Hd as (? & ? & _).
  - exact Hlive.
Qed.
#[local] Hint Resolve connected_no_direct : keeps.

Lemma relay_set_transport leak d t w : relay_inv leak w -> relay_inv leak (fst (set_transport d t w)).
Proof.
  unfold set_transport, modify. wcbn. intros []. split; wcbn; auto.
  intros d' Hd. destruct (ri_direct0 d' Hd) as [[t' Ht] Hs]. split; [|done].
  destruct (decide (d = d')) as [->|]; [|by rewrite list_lookup_alter_ne; eauto].
  rewrite list_lookup_alter_eq, Ht. cbn. by eexists.
Qed.

Lemma connected_set_transport st leak d t : keeps (connected st leak) (set_transport d t).
Proof.
  intros w Hw. apply connected_split in Hw as [Hr (Hl & Hi & Hlive)]. apply connected_split. split.
  { apply (keeps_frame _ _ _ _ requests_dep (touches_set_transport d t) eq_refl w Hr). }
  split_and!; [by apply relay_set_transport|done|done].
Qed.
#[local] Hint Resolve connected_set_transport : keeps.

Lemma connected_drop_direct st leak : keeps (connected st leak) drop_direct.
Proof. unfold drop_direct, direct_close. keep (connected_dep st leak). Qed.
#[local] Hint Resolve connected_drop_direct : keeps.

(** Opening the relay from a state that holds nothing of it. *)
Lemma connected_openWS st w :
  requests_inv w -> relay_inv None w -> ws (this w) = None -> reconnectTimer (this w) = None ->
  (detached (this w) = true \/ suspended (this w) = true -> direct (this w) = None) ->
  connected st None (fst (openWS (routeGeneration (route (this w))) w)).
Proof.
  intros Hr Hl Hws Ht Hd. destruct (relay_openWS (routeGeneration (route (this w))) w Hr Hl Hws Ht) as (Hr' & Hl' & Ho).
  destruct (touches_openWS (routeGeneration (route (this w)))) as [Hf]. specialize (Hf w).
  pose proof (Hf F_detached eq_refl : _ = _) as Ed. pose proof (Hf F_suspended eq_refl : _ = _) as Es.
  pose proof (Hf F_route eq_refl : _ = _) as Er.
  assert (Hsame : detached (this w) = true \/ suspended (this w) = true ->
    fst (openWS (routeGeneration (route (this w))) w) = w).
  { intros Hds. unfold openWS. wrun. destruct Hds as [-> | ->]; [done|]. by destruct (detached (this w)). }
  split; [done|done| |intros _].
  - unfold idle_inv. rewrite Ed, Es. intros Hds. rewrite (Hsame Hds). by split_and!; [| |apply Hd].
  - unfold live. rewrite Ed, Es, Er.
    destruct (detached (this w)) eqn:Edd; [by left|]. destruct (suspended (this w)) eqn:Ess; [by right; left|].
    destruct (decide (routeState (route (this w)) = DirectActive)); [by right; right; right|].
    right; right; left. by apply Ho.
Qed.

(** The direct attempt ends before it was active. *)
Lemma connected_abort st t' w :
  connected st None w -> direct (this w) = None -> aborted (route (this w)) t' -> routeState t' = RelayAttached ->
  connected st None (w <| this := (this w) <| route := t' |> |>).
Proof.
  intros [Hr Hl Hi Hlive] Hd Ha Hs. split; [|by apply relay_aborted|exact Hi|].
  - apply (requests_dep w); [each_field|done].
  - intros Hst. unfold live, has_relay. wcbn. destruct (Hlive Hst) as [?|[?|[?|Hact]]]; [tauto..|].
    destruct Ha as (_ & [[? _]|[_ ?]]); congruence.
Qed.

(** The direct route is lost, or given up, while it was active. *)
Lemma connected_lost st reason w :
  connected st None w -> direct (this w) = None -> state_is (route (this w)) DirectActive = true ->
  connected st None (fst ((do* g := on_route (directLost (routeGeneration (route (this w)))) in
    do* _ := emitRoute R_relay reason in
    do* _ := onStatus reconnecting in
    openWS g) w)).
Proof.
  intros [Hr Hl Hi Hlive] Hd Hs. destruct (directLost_current _ Hs) as (t' & E & Ha & Hs').
  unfold on_route, emitRoute. wrun. rewrite E.
  apply state_is_spec in Hs. destruct (ri_active _ _ Hl Hs) as [Hws Ht].
  match goal with |- context [openWS _ ?w1] => set (w' := w1) end.
  change (routeGeneration t') with (routeGeneration (route (this w'))).
  apply connected_openWS; [| |done|done|done].
  - apply (requests_dep w); [|done]. unfold w'. each_field.
  - apply (relay_aborted _ t') in Hl; [|done|done]. destruct Hl. by split.
Qed.

Lemma connected_handleDirectFailure st g d err : keeps (connected st None) (handleDirectFailure g d err).
Proof.
  intros w Hw. unfold handleDirectFailure. unfold self, gets. cbn [mbind].
  unfold mbind at 1. cbn [id].
  destruct (bool_decide (direct (this w) = Some d)) eqn:Ed; [|done]. apply bool_decide_eq_true in Ed.
  destruct (Z.eqb_spec g (routeGeneration (route (this w)))) as [->|]; [|done]. cbn [negb orb].
  assert (Hds : ~ (detached (this w) = true \/ suspended (this w) = true)).
  { intros Hds. apply (cn_idle _ _ _ Hw) in Hds as (_ & _ & ?). congruence. }
  destruct (ri_direct _ _ (cn_relay _ _ _ Hw) d Ed) as [_ Hs].
  set (reason := directFallbackReason _ _).
  set (w1 := fst (assign (fun c => c <| direct := None |>) w)).
  set (w2 := fst (assign (fun c => c <| lastFallbackReason := Some reason |>) w1)).
  assert (Hw2 : connected st None w2).
  { apply (connected_dep st None w1); [each_field|]. by apply connected_no_direct. }
  destruct (_ || _) eqn:Hc.
  - apply orb_true_iff in Hc. destruct (abortDirect_current _ Hc) as (t' & E & Ha & Hs').
    change (connected st None (fst ((do* _ := on_route (abortDirect (routeGeneration (route (this w)))) in
      emitRoute R_relay (Some reason)) w2))).
    unfold on_route, emitRoute. wrun. change (route (this w2)) with (route (this w)). rewrite E.
    eapply (connected_dep st None (w2 <| this := (this w2) <| route := t' |> |>)); [each_field|by apply connected_abort].
  - apply orb_false_iff in Hc as [H1' H2']. unfold state_is in H1', H2'. apply bool_decide_eq_false in H1', H2'.
    destruct (state_is (route (this w)) DirectActive) eqn:Hact.
    2:{ unfold state_is in Hact. apply bool_decide_eq_false in Hact. by destruct Hs as [?|[?|?]]. }
    destruct (detached (this w)); [tauto|]. destruct (suspended (this w)); [tauto|]. cbn [negb orb].
    exact (connected_lost st (Some reason) w2 Hw2 eq_refl Hact).
Qed.
#[local] Hint Resolve connected_handleDirectFailure : keeps.

Lemma connected_direct_send st d frame : keeps (connected st None) (direct_send d frame).
Proof. unfold direct_send. keep (connected_dep st None). Qed.
#[local] Hint Resolve connected_direct_send : keeps.

Lemma connected_this_direct_send st frame : keeps (connected st None) (this_direct_send frame).
Proof. unfold this_direct_send. keep (connected_dep st None). Qed.
#[local] Hint Resolve connected_this_direct_send : keeps.

Lemma connected_flush_direct_inputs st n d : keeps (connected st None) (flush_direct_inputs n d).
Proof. induction n as [|n IH]; cbn [flush_direct_inputs]; keep (connected_dep st None). Qed.
#[local] Hint Resolve connected_flush_direct_inputs : keeps.

Lemma connected_flushPendingDirectWrites st d : keeps (connected st None) (flushPendingDirectWrites d).
Proof. unfold flushPendingDirectWrites. keep (connected_dep st None). Qed.
#[local] Hint Resolve connected_flushPendingDirectWrites : keeps.

(** *** Requests *)

Lemma connected_failPendingRequests st leak a b : keeps (connected st leak) (failPendingRequests a b).
Proof. eapply connected_requests; [apply requests_failPendingRequests|apply touches_failPendingRequests|done]. Qed.

Lemma connected_handleFSResponse st leak p : keeps (connected st leak) (handleFSResponse p).
Proof. eapply connected_requests; [apply requests_handleFSResponse|apply touches_handleFSResponse|done]. Qed.

Lemma connected_handleServiceOpened st leak p : keeps (connected st leak) (handleServiceOpened p).
Proof. eapply connected_requests; [apply requests_handleServiceOpened|apply touches_handleServiceOpened|done]. Qed.

Lemma connected_sendFSRequest st leak req ms : keeps (connected st leak) (sendFSRequest req ms).
Proof. eapply connected_requests; [apply requests_sendFSRequest|apply touches_sendFSRequest|done]. Qed.

Lemma connected_openService st leak port host ms : keeps (connected st leak) (openService port host ms).
Proof. eapply connected_requests; [apply requests_openService|apply touches_openService|done]. Qed.

Lemma connected_sendPaste st leak ty a b c d : keeps (connected st leak) (sendPaste ty a b c d).
Proof. eapply connected_requests; [apply requests_sendPaste|apply touches_sendPaste|done]. Qed.

Lemma connected_pasteResume st leak p read_error : keeps (connected st leak) (pasteResume p read_error).
Proof. eapply connected_requests; [apply requests_pasteResume|apply touches_pasteResume|done]. Qed.
#[local] Hint Resolve connected_failPendingRequests connected_handleFSResponse connected_handleServiceOpened
  connected_sendFSRequest connected_openService connected_sendPaste connected_pasteResume : keeps.

(** *** Closing a socket *)

Lemma socketState_set id id' st w :
  socketState id' (fst (set_socket id st w)) =
  if decide (id = id') then (if decide (id' < length (sockets w))%nat then st else CLOSED) else socketState id' w.
Proof.
  unfold set_socket, socketState, modify. wcbn. destruct (decide (id = id')) as [->|Hne].
  - rewrite list_lookup_alter_eq. destruct (decide _) as [Hlt|Hge].
    + by apply lookup_lt_is_Some in Hlt as [s ->].
    + rewrite lookup_ge_None_2 by lia. done.
  - by rewrite list_lookup_alter_ne.
Qed.

(** A socket moves on to a closing state. *)
Lemma relay_set_closing leak id w :
  relay_inv leak w -> relay_inv (if decide (leak = Some id) then None else leak) (fst (set_socket id CLOSING w)).
Proof.
  intros [].
  assert (Hlen : length (sockets (fst (set_socket id CLOSING w))) = length (sockets w)) by apply length_alter.
  split; auto.
  - intros id' Hws. rewrite Hlen, socketState_set. destruct (ri_ws0 id' Hws) as [? ?]. split; [done|].
    destruct (decide (id = id')); [|done]. by destruct (decide _).
  - intros id' Hlt Hne Hleak. rewrite Hlen in Hlt. rewrite socketState_set.
    destruct (decide (id = id')) as [->|Hid]; [rewrite decide_True by done; by left|].
    apply ri_closed0; [done|done|]. destruct (decide (leak = Some id)) as [->|]; [congruence|done].
Qed.

Lemma connected_set_closing st leak id w :
  connected st leak w -> connected st (if decide (leak = Some id) then None else leak) (fst (set_socket id CLOSING w)).
Proof.
  intros Hw. apply connected_split in Hw as [Hr (Hl & Hi & Hlive)]. apply connected_split. split.
  { apply (keeps_frame _ _ _ _ requests_dep (touches_set_socket id CLOSING) eq_refl w Hr). }
  split_and!; [by apply relay_set_closing|done|done].
Qed.

Lemma connected_ws_close_leak st id w :
  connected st (Some id) w -> ws (this w) <> Some id -> connected st None (fst (ws_close id w)).
Proof.
  intros Hw Hne. unfold ws_close. wrun. destruct (socketState id w) eqn:Es; wcbn.
  1,2: unfold mbind; cbn [fst]; pose proof (connected_set_closing st (Some id) id w Hw) as Hc;
    rewrite decide_True in Hc by done; destruct (set_socket id CLOSING w) as [w' r] eqn:E; cbn in Hc;
    unfold set_socket, modify in E; simplify_eq; (eapply (connected_dep st None); [|exact Hc]; each_field).
  all: destruct Hw as [Hr [] Hi Hlive]; split; [done| |done|done]; split; auto; intros id' Hlt Hws' _;
    (destruct (decide (id = id')) as [->|]; [rewrite Es; unfold closing; auto|apply ri_closed0; congruence]).
Qed.

Lemma connected_ws_close st id : keeps (connected st None) (ws_close id).
Proof.
  assert (Hc : keeps (connected st None) (set_socket id CLOSING)) by (intros w Hw; pose proof (connected_set_closing st None id w Hw) as Hc; by rewrite decide_False in Hc).
  unfold ws_close. keep (connected_dep st None).
Qed.
#[local] Hint Resolve connected_ws_close : keeps.

(** *** Activating the direct route *)

Lemma reject_all_fs_ok l err : forall w, snd (reject_all_fs l err w) = Ok tt.
Proof. induction l as [|e l IH]; intros w; [done|]. cbn [reject_all_fs]. unfold clearTimeout. wrun. apply IH. Qed.

Lemma failPendingRequests_ok a b w : snd (failPendingRequests a b w) = Ok tt.
Proof.
  unfold failPendingRequests, rejectPendingFSRequests, rejectPendingServiceOpens. wrun.
  match goal with |- context [reject_all_fs ?l ?e ?w1] =>
    pose proof (reject_all_fs_ok l e w1) as E1; destruct (reject_all_fs l e w1) as [w' r]; cbn in E1; subst end.
  match goal with |- context [reject_all_services ?l ?e ?w1] =>
    pose proof (reject_all_services_ok l e w1) as E2; destruct (reject_all_services l e w1) as [w2 r]; cbn in E2; by subst end.
Qed.

Lemma requests_clear_reconnectTimer : keeps requests_inv clear_reconnect.
Proof.
  intros w Hw. unfold clear_reconnect, clearTimeout. wrun.
  destruct (reconnectTimer (this w)) as [t|] eqn:Et; [|done]. by apply requests_clear_reconnect.
Qed.

Lemma clear_reconnect_none w : reconnectTimer (this (fst (clear_reconnect w))) = None.
Proof. unfold clear_reconnect, clearTimeout. wrun. by destruct (reconnectTimer (this w)) eqn:Et. Qed.

Lemma clear_reconnect_ok w : snd (clear_reconnect w) = Ok tt.
Proof. unfold clear_reconnect, clearTimeout. wrun. by destruct (reconnectTimer (this w)). Qed.

Lemma canActivate_state g t : canActivateDirect g t = true -> g = routeGeneration t /\ routeState t = DirectReplay.
Proof.
  unfold canActivateDirect. rewrite !andb_true_iff. intros [[[Hg%Z.eqb_eq Hs] _] _].
  split; [done|]. by apply state_is_spec.
Qed.

Lemma activateDirect_cases g t :
  (exists msg, activateDirect g t = (t, Throw msg)) \/
  (routeState t = DirectReplay /\ activateDirect g t = (t <| routeState := DirectActive |>, Ok tt)).
Proof.
  unfold activateDirect, requireGeneration. mrun. split_guard; [left; by eexists|].
  split_guard; [left; by eexists|]. right. apply canActivate_state in Hg0 as [_ Hs]. by split.
Qed.

(** The route is the direct one, and nothing of the relay is left but its
    socket, which is closed next. *)
Lemma connected_activated st w :
  requests_inv w -> relay_inv None w -> idle_inv w ->
  routeState (route (this w)) = DirectReplay ->
  let w1 := fst (on_route (fun t => (t <| routeState := DirectActive |>, Ok tt)) w) in
  forall w2, (forall f, has [E_ui] f = false -> keeps_field f w1 w2) ->
  connected st (ws (this w)) (fst ((do* _ := clear_reconnect in assign (fun c => c <| ws := None |>)) w2)).
Proof.
  intros Hr Hl Hi Hs w1 w2 Hk.
  assert (Hr2 : requests_inv w2).
  { apply (requests_dep w); [|done]. intros f Hf. eapply keeps_field_trans; [|apply Hk; by destruct f as [| | | | | | | | | | | | | | | | | | | | | | | | | | | | | | | | | | |[]]].
    unfold w1, on_route. revert f Hf. each_field. }
  pose proof (requests_clear_reconnectTimer w2 Hr2) as Hr3.
  pose proof (clear_reconnect_none w2) as Ht. pose proof (clear_reconnect_ok w2) as Hok.
  destruct touches_clear_reconnect as [Hf]. specialize (Hf w2).
  pose proof (Hf F_sockets eq_refl : _ = _) as Esock. pose proof (Hf F_route eq_refl : _ = _) as Er.
  pose proof (Hf F_direct eq_refl : _ = _) as Ed. pose proof (Hf F_transports eq_refl : _ = _) as Etr.
  pose proof (Hf F_detached eq_refl : _ = _) as Edd. pose proof (Hf F_suspended eq_refl : _ = _) as Ess.
  rewrite (Hk F_detached eq_refl : detached (this w2) = detached (this w)) in Edd.
  rewrite (Hk F_suspended eq_refl : suspended (this w2) = suspended (this w)) in Ess.
  rewrite (Hk F_sockets eq_refl : sockets w2 = sockets w) in Esock.
  rewrite (Hk F_route eq_refl : route (this w2) = (route (this w)) <| routeState := DirectActive |>) in Er.
  rewrite (Hk F_direct eq_refl : direct (this w2) = direct (this w)) in Ed.
  rewrite (Hk F_transports eq_refl : transports w2 = transports w) in Etr.
  clear Hf. unfold mbind. destruct (clear_reconnect w2) as [w3 r]. cbn in *. subst r. 
  unfold assign, modify. cbn [fst].
  split.
  - apply (requests_dep w3); [each_field|done].
  - destruct Hl. split; wcbn; rewrite ?Esock, ?Er, ?Ed, ?Etr; auto; try done.
    + intros id Hlt _ Hne. unfold socketState. wcbn. rewrite Esock. by apply ri_closed0.
    + intros d Hd. destruct (ri_direct0 d Hd) as [Ht' _]. split; [exact Ht'|by right; right].
  - intros Hds. wcbn. split_and!; [done|done|]. rewrite Ed. apply Hi. wcbn_in Hds. by rewrite Edd, Ess in Hds.
  - intros _. right; right; right. wcbn. by rewrite Er.
Qed.

Lemma connected_activation_tail st d w :
  requests_inv w -> relay_inv None w -> idle_inv w -> routeState (route (this w)) = DirectReplay ->
  let w1 := fst (on_route (fun t => (t <| routeState := DirectActive |>, Ok tt)) w) in
  forall w2, (forall f, has [E_ui] f = false -> keeps_field f w1 w2) ->
  connected st None (fst ((
    do* _ := clear_reconnect in
    do* relay := self ws in
    do* _ := assign (fun c => c <| ws := None |>) in
    do* _ := failPendingRequests "filesystem request failed: direct terminal route activated"
               "service preview failed: direct terminal route activated" in
    do* _ := match relay with Some id => ws_close id | None => mret tt end in
    flushPendingDirectWrites d) w2)).
Proof.
  intros Hr Hl Hi Hs w1 w2 Hk. pose proof (connected_activated st w Hr Hl Hi Hs w2 Hk) as Hc.
  assert (Ews : ws (this (fst (clear_reconnect w2))) = ws (this w)).
  { destruct touches_clear_reconnect as [Hf]. rewrite (Hf w2 F_ws eq_refl : _ = _). apply (Hk F_ws eq_refl). }
  rewrite (bind_ok _ _ _ _ (clear_reconnect_ok w2)) in Hc.
  rewrite (bind_ok _ _ _ _ (clear_reconnect_ok w2)). set (w3 := fst (clear_reconnect w2)) in *.
  rewrite (bind_ok (self ws) _ w3 _ eq_refl), (bind_ok (assign _) _ (fst (self ws w3)) tt eq_refl).
  change (fst (self ws w3)) with w3. rewrite Ews. set (w4 := fst (assign (fun c => c <| ws := None |>) w3)) in *.
  rewrite (bind_ok _ _ _ _ (failPendingRequests_ok _ _ w4)).
  match goal with |- context [failPendingRequests ?a ?b w4] =>
    pose proof (connected_failPendingRequests st _ a b w4 Hc) as Hc5; destruct (touches_failPendingRequests a b) as [Hf];
    pose proof (Hf w4 F_ws eq_refl : _ = _) as Ews5; clear Hf; set (w5 := fst (failPendingRequests a b w4)) in * end.
  apply bind_keeps; [|intros; apply connected_flushPendingDirectWrites].
  destruct (ws (this w)) as [id|]; [|done]. apply connected_ws_close_leak; [done|]. by rewrite Ews5.
Qed.

Lemma connected_maybeActivateDirect st g : keeps (connected st None) (maybeActivateDirect g).
Proof.
  unfold maybeActivateDirect. apply keeps_bind; [apply keeps_gets|]. intros c.
  destruct (direct c) as [d|]; [|apply keeps_ret]. destruct (negb _); [apply keeps_ret|].
  apply keeps_bind; [keep (connected_dep st None)|]. intros [|]; [|apply keeps_ret]. cbn [negb].
  intros w Hw. unfold mbind at 1, on_route at 1.
  destruct (activateDirect_cases g (route (this w))) as [[msg E]|[Hs E]]; rewrite E.
  { eapply (connected_dep st None w); [each_field|done]. }
  rewrite (bind_ok (emitRoute _ _) _ _ tt eq_refl).
  apply (connected_activation_tail st d w); [apply Hw..|done|].
  intros f Hf. destruct (touches_emitRoute R_direct None) as [Ht]. by apply Ht.
Qed.
#[local] Hint Resolve connected_maybeActivateDirect : keeps.

(** *** Starting a direct attempt *)

Lemma beginDirect_attached t : state_is t RelayAttached = true ->
  exists t', beginDirect t = (t', Ok (routeGeneration t)) /\
    routeGeneration t' = routeGeneration t /\ routeState t' = DirectConnecting /\ lastCommittedSeq t' = lastCommittedSeq t.
Proof. intros Hs. unfold beginDirect. mrun. rewrite Hs. cbn. by eexists (mkTracker _ _ _ _ _ _). Qed.

Lemma connected_abort_any st g w :
  connected st None w -> direct (this w) = None -> connected st None (fst (on_route (abortDirect g) w)).
Proof.
  intros Hw Hd. unfold on_route. unfold abortDirect, requireGeneration. mrun.
  split_guard; [by destruct w as [[]]|]. subst g. split_guard; [by destruct w as [[]]|].
  cbn [fst]. apply connected_abort; [done|done| |done].
  split; [done|]. left. split; [|done]. intros Ha.
  unfold state_is in Hg. rewrite Ha in Hg. by apply andb_false_iff in Hg as [?|?].
Qed.

(** A new transport becomes the current one. *)
Lemma connected_new_transport st t w :
  connected st None w -> routeState (route (this w)) = DirectConnecting ->
  detached (this w) = false -> suspended (this w) = false ->
  connected st None (w <| transports := transports w ++ [(t, routeGeneration (route (this w)))] |>
                       <| this := (this w) <| direct := Some (length (transports w)) |> |>).
Proof.
  intros [Hr Hl Hi Hlive] Hs Hd Hsus. split.
  - apply (requests_dep w); [each_field|done].
  - destruct Hl. split; wcbn; auto. intros d [= <-]. rewrite list_lookup_middle by done.
    split; [by eexists|]. by left.
  - intros [Hx|Hx]; wcbn_in Hx; congruence.
  - exact Hlive.
Qed.

(** The attempt itself, from the call of the factory on. *)
Lemma connected_try_direct st options generation w :
  connected st None w -> routeState (route (this w)) = DirectConnecting -> direct (this w) = None ->
  detached (this w) = false -> suspended (this w) = false -> generation = routeGeneration (route (this w)) ->
  connected st None (fst ((
    match directTransportFactory options with
    | Ok t =>
        do* d := gets (fun w => length (transports w)) in
        do* _ := modify (fun w => w <| transports := transports w ++ [(t, generation)] |>) in
        do* _ := emit (NewTransport d options) in
        do* _ := assign (fun c => c <| direct := Some d |>) in
        let '(t', failure) := transport_start t in
        do* _ := set_transport d t' in
        match failure with
        | None => mret tt
        | Some err => mtry (handleDirectFailure generation d err)
        end
    | Throw msg =>
        do* current := self (fun c => routeGeneration (route c)) in
        do* _ := mwhen (current =? generation) (mtry (on_route (abortDirect generation))) in
        let reason := directFallbackReason (js msg) false in
        do* _ := assign (fun c => c <| direct := None |> <| lastFallbackReason := Some reason |>) in
        emitRoute R_relay (Some reason)
    end) w)).
Proof.
  intros Hc Hs Hd Hdet Hsu ->. destruct (directTransportFactory options) as [tr|msg].
  - assert (Hc4 := connected_new_transport st tr w Hc Hs Hdet Hsu). wrun.
    match goal with |- connected st None (fst (_ ?w1)) => set (w4 := w1) end.
    assert (Hc4' : connected st None w4).
    { eapply (connected_dep st None); [|exact Hc4]. unfold w4. each_field. }
    clearbody w4. destruct (transport_start tr) as [t' failure].
    pose proof (connected_set_transport st None (length (transports w)) t' w4 Hc4') as Hc5.
    destruct (set_transport (length (transports w)) t' w4) as [w5 [u|m]]; [|done].
    destruct failure as [err|]; [|done]. by apply connected_handleDirectFailure.
  - pose proof (connected_abort_any st (routeGeneration (route (this w))) w Hc Hd) as Hc4.
    rewrite (bind_ok (self _) _ w (routeGeneration (route (this w))) eq_refl). rewrite Z.eqb_refl. cbn [mwhen].
    rewrite (bind_ok (mtry _) _ _ tt eq_refl). change (fst (self _ w)) with w.
    change (fst (mtry ?m w)) with (fst (m w)). set (w4 := fst (on_route _ w)) in *. clearbody w4.
    apply bind_keeps; [|intros; keep (connected_dep st None)].
    apply (connected_dep st None (fst (assign (fun c => c <| direct := None |>) w4))); [each_field|].
    by apply connected_no_direct.
Qed.

(** Nothing is held when an attempt may start. *)
Lemma relay_attached_no_direct st w :
  connected st None w -> routeState (route (this w)) = RelayAttached -> direct (this w) = None.
Proof.
  intros Hw Hs. destruct (direct (this w)) as [d|] eqn:Ed; [|done].
  destruct (ri_direct _ _ (cn_relay _ _ _ Hw) d Ed) as [_ [?|[?|?]]]; congruence.
Qed.

Lemma connected_no_direct_attempt st reason : keeps (connected st None) (no_direct reason).
Proof. unfold no_direct. keep (connected_dep st None). Qed.

Lemma connected_maybeStartDirect st : keeps (connected st None) maybeStartDirect.
Proof.
  intros w Hw. unfold maybeStartDirect. rewrite (bind_ok (self id) _ w (this w) eq_refl).
  change (fst (self id w)) with w.
  destruct (negb _ || _ || _ || _ || _ || _) eqn:Hc; [done|].
  rewrite !orb_false_iff in Hc. destruct Hc as [[[[[_ _] _] Hs] Hd] Hsus]. apply negb_false_iff in Hs.
  destruct (directEndpoint (this w)) as [ep|]; [|by apply connected_no_direct_attempt].
  destruct (negb _); [by apply connected_no_direct_attempt|].
  rewrite (bind_ok (gets (fun w => is_32 (accountKey w))) _ w _ eq_refl). change (fst (gets _ w)) with w.
  destruct (is_32 (accountKey w)) as [key|]; [|by apply connected_no_direct_attempt].
  destruct (beginDirect_attached _ Hs) as (t' & E & Hg' & Hs' & _).
  apply state_is_spec in Hs. pose proof (relay_attached_no_direct st w Hw Hs) as Hdir.
  rewrite (bind_ok (gets now) _ w (now w) eq_refl). change (fst (gets now w)) with w.
  match goal with |- context [mbind (assign ?f) _ _] => set (w1 := fst (assign f w)) end.
  rewrite (bind_ok (assign _) _ _ tt eq_refl). fold w1.
  assert (Hw1 : connected st None w1) by (apply (connected_dep st None w); [unfold w1; each_field|done]).
  pose proof (connected_on_route st None _ tame_beginDirect w1 Hw1) as Hc2.
  assert (E1 : on_route beginDirect w1 = (w1 <| this := (this w1) <| route := t' |> |>, Ok (routeGeneration t'))).
  { unfold on_route. change (route (this w1)) with (route (this w)). by rewrite E, Hg'. }
  rewrite (bind_ok (on_route beginDirect) _ w1 (routeGeneration t') (f_equal snd E1)).
  rewrite E1 in *. cbn [fst] in Hc2 |- *. set (w2 := w1 <| this := _ |>) in *.
  assert (Hw2 : routeState (route (this w2)) = DirectConnecting /\ direct (this w2) = None /\
    detached (this w2) = false /\ suspended (this w2) = false /\ routeGeneration t' = routeGeneration (route (this w2)))
    by by split_and!.
  clearbody w2. destruct Hw2 as (Hs2 & Hd2 & Hdet2 & Hsu2 & Hg2). clear E1 Hw1 E w1.
  rewrite (bind_ok (emitRoute _ _) _ _ tt eq_refl).
  pose proof (keeps_frame _ _ _ _ (connected_dep st None) (touches_emitRoute R_connecting_direct None) eq_refl _ Hc2) as Hc3.
  set (w3 := fst (emitRoute _ _ w2)) in *.
  rewrite (bind_ok (self (fun c => lastCommittedSeq (route c))) _ w3 (lastCommittedSeq (route (this w3))) eq_refl).
  change (fst (self _ w3)) with w3. apply connected_try_direct; [exact Hc3|exact Hs2|exact Hd2|exact Hdet2|exact Hsu2|exact Hg2].
Qed.
#[local] Hint Resolve connected_maybeStartDirect : keeps.

(** *** Frames *)

Lemma connected_claimDriver st : keeps (connected st None) claimDriver.
Proof. unfold claimDriver. keep (connected_dep st None). Qed.
#[local] Hint Resolve connected_claimDriver : keeps.

Lemma connected_handleMeta st p r : keeps (connected st None) (handleMeta p r).
Proof. unfold handleMeta. keep (connected_dep st None). Qed.
#[local] Hint Resolve connected_handleMeta : keeps.

Lemma connected_handleOut st p r g : keeps (connected st None) (handleOut p r g).
Proof. unfold handleOut. keep (connected_dep st None). Qed.
#[local] Hint Resolve connected_handleOut : keeps.

Lemma connected_handleClose st p : keeps (connected st None) (handleClose p).
Proof. unfold handleClose. keep (connected_dep st None). Qed.
#[local] Hint Resolve connected_handleClose : keeps.

Lemma connected_relayReplayEnd st g : keeps (connected st None) (relayReplayEnd g).
Proof. unfold relayReplayEnd. keep (connected_dep st None). Qed.
#[local] Hint Resolve connected_relayReplayEnd : keeps.

Lemma connected_handleReplayProgress st p r g : keeps (connected st None) (handleReplayProgress p r g).
Proof. unfold handleReplayProgress. keep (connected_dep st None). Qed.
#[local] Hint Resolve connected_handleReplayProgress : keeps.

Lemma connected_handleProtocolFrame st f r g : keeps (connected st None) (handleProtocolFrame f r g).
Proof. unfold handleProtocolFrame. keep (connected_dep st None). Qed.
#[local] Hint Resolve connected_handleProtocolFrame : keeps.

Lemma connected_sendInput st x : keeps (connected st None) (sendInput x).
Proof. unfold sendInput. keep (connected_dep st None). Qed.

Lemma connected_sendResize st c r : keeps (connected st None) (sendResize c r).
Proof. unfold sendResize. keep (connected_dep st None). Qed.

Lemma connected_socket_onopen st id g : keeps (connected st None) (socket_onopen id g).
Proof. unfold socket_onopen. keep (connected_dep st None). Qed.

Lemma connected_socket_onmessage st id g data : keeps (connected st None) (socket_onmessage id g data).
Proof. unfold socket_onmessage. keep (connected_dep st None). Qed.

Lemma connected_direct_callback st d g cb : keeps (connected st None) (direct_callback d g cb).
Proof. unfold direct_callback. keep (connected_dep st None). Qed.
#[local] Hint Resolve connected_sendInput connected_sendResize connected_socket_onopen connected_socket_onmessage : keeps.

(** *** The public methods that change the route *)

Lemma connected_attach st w : connected st None w -> connected true None (fst (attach w)).
Proof.
  intros Hw. unfold attach. rewrite (bind_ok (self id) _ w (this w) eq_refl).
  change (fst (self id w)) with w. destruct (detached (this w)) eqn:Hdet.
  { destruct Hw. split; [done..|]. intros _. by left. }
  set (w1 := if suspended (this w)
    then fst (assign (fun c => c <| route := new_tracker (lastSeq c) |> <| directAttempted := false |>
                                 <| relayReplayComplete := false |>) w) else w).
  set (w2 := fst (assign (fun c => c <| suspended := false |>) w1)).
  match goal with |- context [mbind (mwhen (suspended (this w)) ?m) ?k] =>
    assert (E : mbind (mwhen (suspended (this w)) m) k w = k tt w1) by (unfold w1; by destruct (suspended (this w)));
    rewrite E; clear E end.
  rewrite (bind_ok (assign _) _ w1 tt eq_refl). fold w2.
  rewrite (bind_ok (self id) _ w2 (this w2) eq_refl). change (fst (self id w2)) with w2.
  assert (Hbase : requests_inv w2 /\ relay_inv None w2 /\ detached (this w2) = false /\ suspended (this w2) = false).
  { destruct Hw as [Hr Hl Hi _]. unfold w2, w1. destruct (suspended (this w)) eqn:Hs.
    - destruct (Hi (or_intror Hs)) as (Hws & Ht & Hd).
      split_and!; [apply (requests_dep w); [each_field|done]| |done|done].
      destruct Hl. split; unfold assign, modify; wcbn; auto; intros; congruence.
    - split_and!; [apply (requests_dep w); [each_field|done]| |done|done]. destruct Hl. by split. }
  clearbody w2. destruct Hbase as (Hr & Hl & Hd & Hs).
  assert (Hheld : has_relay w2 -> connected true None w2).
  { intros Hh. split; [done|done|intros [?|?]; congruence|]. intros _. by right; right; left. }
  destruct (ws (this w2)) as [id|] eqn:Hws; [apply Hheld; left; by rewrite Hws|].
  destruct (reconnectTimer (this w2)) as [t|] eqn:Ht; [apply Hheld; right; by rewrite Ht|].
  apply connected_openWS; [done..|]. intros [?|?]; congruence.
Qed.

Lemma connected_direct_close st leak d : keeps (connected st leak) (direct_close d).
Proof. unfold direct_close. keep (connected_dep st leak). Qed.
#[local] Hint Resolve connected_direct_close : keeps.

Lemma connected_setPreferDirect st b : keeps (connected st None) (setPreferDirect b).
Proof.
  intros w Hw. unfold setPreferDirect. rewrite (bind_ok (self id) _ w (this w) eq_refl).
  change (fst (self id w)) with w. destruct (Bool.eqb _ _); [done|].
  rewrite (bind_ok (assign _) _ w tt eq_refl). set (w1 := fst (assign _ w)).
  assert (Hw1 : connected st None w1) by (apply (connected_dep st None w); [unfold w1; each_field|done]).
  destruct b.
  - revert Hw1. generalize (relayReplayComplete (this w)). clearbody w1. intros complete Hw1.
    apply bind_keeps; [by apply (connected_dep st None w1); [each_field|]|]. intros _.
    destruct complete; cbn [mwhen]; [apply connected_maybeStartDirect|apply keeps_ret].
  - rewrite (bind_ok (assign _) _ w1 tt eq_refl). set (w2 := fst (assign _ w1)).
    assert (Hw2 : connected st None w2) by by apply connected_no_direct.
    assert (Hclose : exists w3, (forall k : unit -> M unit, mbind (match direct (this w) with Some d => direct_close d | None => mret tt end) k w2 = k tt w3)
      /\ connected st None w3 /\ route (this w3) = route (this w) /\ direct (this w3) = None).
    { destruct (direct (this w)) as [d|]; [|by exists w2].
      exists (fst (direct_close d w2)). split; [|split; [by apply connected_direct_close|]].
      - intros k. apply bind_ok. unfold direct_close. wrun. by destruct (transports w2 !! d) as [[t ?]|].
      - destruct (touches_direct_close d) as [Hf].
        rewrite (Hf w2 F_route eq_refl : _ = _), (Hf w2 F_direct eq_refl : _ = _). done. }
    destruct Hclose as (w3 & -> & Hw3 & <- & Hd3). clearbody w2.
    destruct (_ || _) eqn:Hc.
    + apply orb_true_iff in Hc. destruct (abortDirect_current _ Hc) as (t' & E & Ha & Hs').
      rewrite (bind_ok (mtry _) _ w3 tt eq_refl). change (fst (mtry ?m w3)) with (fst (m w3)).
      apply (keeps_frame _ _ _ _ (connected_dep st None) (touches_emitRoute _ _) eq_refl).
      unfold on_route. rewrite E. by apply connected_abort.
    + destruct (state_is (route (this w3)) DirectActive) eqn:Hs; [|done]. by apply connected_lost.
Qed.

(** *** Giving the connection up

    [suspend] and [detach] first set their flag, so the invariant on idle
    connections holds again only at their end. *)

Definition base_inv w : Prop := requests_inv w /\ relay_inv None w.

Definition base_fields : list Field :=
  [F_ws; F_sockets; F_reconnectTimer; F_route; F_direct; F_transports] ++ request_fields.

Lemma base_dep : depends base_fields base_inv.
Proof.
  intros w w' Hk [Hr Hl]. split; [apply (requests_dep w); [each_field; by apply Hk|done]|].
  assert (Hst : forall id, socketState id w' = socketState id w).
  { intros id. unfold socketState. by rewrite (Hk F_sockets eq_refl : sockets w' = _). }
  destruct Hl. split; intros *;
    rewrite ?Hst, ?(Hk F_sockets eq_refl : sockets w' = _), ?(Hk F_ws eq_refl : ws (this w') = _),
    ?(Hk F_reconnectTimer eq_refl : reconnectTimer (this w') = _),
    ?(Hk F_route eq_refl : route (this w') = _), ?(Hk F_direct eq_refl : direct (this w') = _),
    ?(Hk F_transports eq_refl : transports w' = _); auto.
Qed.

Lemma base_failPendingRequests a b : keeps base_inv (failPendingRequests a b).
Proof.
  intros w [Hr Hl]. split; [by apply requests_failPendingRequests|].
  destruct (touches_failPendingRequests a b) as [Hf]. specialize (Hf w).
  assert (Hst : forall id, socketState id (fst (failPendingRequests a b w)) = socketState id w).
  { intros id. unfold socketState. by rewrite (Hf F_sockets eq_refl : _ = sockets w). }
  destruct Hl. split; intros *;
    rewrite ?Hst, ?(Hf F_sockets eq_refl : _ = sockets w), ?(Hf F_ws eq_refl : _ = ws (this w)),
    ?(Hf F_reconnectTimer eq_refl : _ = reconnectTimer (this w)),
    ?(Hf F_route eq_refl : _ = route (this w)), ?(Hf F_direct eq_refl : _ = direct (this w)),
    ?(Hf F_transports eq_refl : _ = transports w); auto.
Qed.

Lemma base_drop_direct w :
  base_inv w -> base_inv (fst (drop_direct w)) /\ direct (this (fst (drop_direct w))) = None /\ snd (drop_direct w) = Ok tt.
Proof.
  intros [Hr Hl]. unfold drop_direct, direct_close. wrun. destruct (direct (this w)) as [d|]; wrun.
  - destruct (transports w !! d) as [[t g]|]; wrun.
    + split_and!; [split|done|done].
      * apply (requests_dep w); [unfold set_transport, modify; wcbn; each_field|done].
      * apply (relay_no_direct None), (relay_set_transport None d (transport_close t)) in Hl.
        destruct Hl. by split.
    + split_and!; [split|done|done]; [apply (requests_dep w); [each_field|done]|by apply relay_no_direct].
  - split_and!; [split|done|done]; [apply (requests_dep w); [each_field|done]|by apply relay_no_direct].
Qed.

Lemma base_clear_reconnect : keeps base_inv clear_reconnect.
Proof.
  intros w [Hr Hl]. split; [by apply requests_clear_reconnectTimer|].
  unfold clear_reconnect, clearTimeout. wrun. destruct (reconnectTimer (this w)) as [t|] eqn:Et; [|done].
  wcbn. destruct Hl. split; wcbn; auto. intros Ha. by destruct (ri_active0 Ha).
Qed.

Lemma ws_close_ok id w : snd (ws_close id w) = Ok tt.
Proof. unfold ws_close. wrun. by destruct (socketState id w). Qed.

Lemma base_close_ws id w :
  base_inv w -> ws (this w) = Some id ->
  base_inv (fst ((do* _ := ws_close id in assign (fun c => c <| ws := None |>)) w)).
Proof.
  intros [Hr Hl] Hws. rewrite (bind_ok _ _ _ _ (ws_close_ok id w)). split.
  - apply (requests_dep (fst (ws_close id w))); [each_field|].
    apply (keeps_frame _ _ _ _ requests_dep (touches_ws_close id) eq_refl w Hr).
  - assert (Hc : relay_inv None (fst (ws_close id w)) /\ closing (socketState id (fst (ws_close id w)))).
    { pose proof (relay_set_closing None id w Hl) as Hs. rewrite decide_False in Hs by done.
      unfold ws_close. wrun. destruct (ri_ws _ _ Hl id Hws) as [Hlt _].
      destruct (socketState id w) eqn:Es; wrun;
        try (split; [done|unfold closing; rewrite Es; auto]).
      all: pose proof (socketState_set id id CLOSING w) as Hx; rewrite decide_True, decide_True in Hx by done;
        unfold set_socket, modify in *; cbn [fst] in *; wcbn; (split; [destruct Hs; by split|]); left; exact Hx. }
    destruct (touches_ws_close id) as [Hf]. pose proof (Hf w F_ws eq_refl : _ = _) as Ews. clear Hf.
    destruct Hc as [[] Hcl]. split; unfold assign, modify; wcbn; auto; try (intros; congruence).
    + intros id' Hlt _ _. change (closing (socketState id' (fst (ws_close id w)))).
      destruct (decide (id' = id)) as [->|]; [done|]. apply ri_closed0; congruence.
    + intros Ha. by destruct (ri_active0 Ha).
Qed.

(** The flag is set: give everything up. *)
Lemma connected_dropTransports st w :
  base_inv w -> detached (this w) = true \/ suspended (this w) = true ->
  connected st None (fst (dropTransports w)).
Proof.
  intros Hb Hflag. unfold dropTransports.
  destruct (base_drop_direct w Hb) as (Hb1 & Hd1 & Hok1).
  destruct touches_dropTransports as [Hf]. specialize (Hf w).
  rewrite <- (Hf F_detached eq_refl : _ = _), <- (Hf F_suspended eq_refl : _ = _) in Hflag. clear Hf.
  revert Hflag. unfold dropTransports.
  rewrite (bind_ok _ _ _ _ Hok1). set (w1 := fst (drop_direct w)) in *. clearbody w1.
  rewrite (bind_ok (assign _) _ w1 tt eq_refl). set (w2 := fst (assign _ w1)).
  assert (Hb2 : base_inv w2 /\ direct (this w2) = None) by (split; [apply (base_dep w1); [unfold w2; each_field|done]|done]).
  clearbody w2. destruct Hb2 as [Hb2 Hd2].
  rewrite (bind_ok _ _ _ _ (clear_reconnect_ok w2)).
  pose proof (base_clear_reconnect w2 Hb2) as Hb3. pose proof (clear_reconnect_none w2) as Ht3.
  assert (Hd3 : direct (this (fst (clear_reconnect w2))) = None).
  { destruct touches_clear_reconnect as [Hf]. by rewrite (Hf w2 F_direct eq_refl : _ = _). }
  set (w3 := fst (clear_reconnect w2)) in *. clearbody w3.
  rewrite (bind_ok (self ws) _ w3 (ws (this w3)) eq_refl). change (fst (self ws w3)) with w3.
  destruct (ws (this w3)) as [id|] eqn:Hws; intros Hflag.
  - destruct (base_close_ws id w3 Hb3 Hws) as [Hr Hl].
    assert (Hend : ws (this (fst ((do* _ := ws_close id in assign (fun c => c <| ws := None |>)) w3))) = None
      /\ reconnectTimer (this (fst ((do* _ := ws_close id in assign (fun c => c <| ws := None |>)) w3))) = None
      /\ direct (this (fst ((do* _ := ws_close id in assign (fun c => c <| ws := None |>)) w3))) = None).
    { rewrite (bind_ok _ _ _ _ (ws_close_ok id w3)). unfold assign, modify. wcbn.
      destruct (touches_ws_close id) as [Hf].
      by rewrite (Hf w3 F_reconnectTimer eq_refl : _ = _), (Hf w3 F_direct eq_refl : _ = _). }
    split; [done|done|by intros _|]. intros _. unfold live. tauto.
  - destruct Hb3 as [Hr Hl]. cbn [mret fst] in *. split; [done|done|by intros _|]. intros _. unfold live. tauto.
Qed.

Lemma connected_base st w : connected st None w -> base_inv w.
Proof. by intros []. Qed.

Lemma connected_give_up st a b (f : Conn -> Conn) w :
  base_inv (fst (assign f w)) ->
  detached (this (fst (assign f w))) = true \/ suspended (this (fst (assign f w))) = true ->
  connected st None (fst ((do* _ := assign f in do* _ := failPendingRequests a b in dropTransports) w)).
Proof.
  intros Hb Hflag. rewrite (bind_ok (assign f) _ w tt eq_refl). set (w1 := fst (assign f w)) in *.
  rewrite (bind_ok _ _ _ _ (failPendingRequests_ok a b w1)).
  apply connected_dropTransports; [by apply base_failPendingRequests|].
  destruct (touches_failPendingRequests a b) as [Hf].
  by rewrite (Hf w1 F_detached eq_refl : _ = _), (Hf w1 F_suspended eq_refl : _ = _).
Qed.

Lemma connected_suspend st : keeps (connected st None) suspend.
Proof.
  intros w Hw. unfold suspend. rewrite (bind_ok (self id) _ w (this w) eq_refl).
  change (fst (self id w)) with w. destruct (detached (this w)); [done|].
  apply connected_give_up; [|by right]. apply (base_dep w); [each_field|by apply (connected_base st)].
Qed.

Lemma connected_detach st : keeps (connected st None) detach.
Proof.
  intros w Hw. apply connected_give_up; [|by left]. apply (base_dep w); [each_field|by apply (connected_base st)].
Qed.

(** *** Events *)

Lemma connected_socket_open st id g w :
  connected st None w -> socketState id w = CONNECTING ->
  connected st None (fst ((do* _ := set_socket id OPEN in socket_onopen id g) w)).
Proof.
  intros Hw Hs. apply bind_keeps; [|intros; apply connected_socket_onopen].
  apply connected_split in Hw as [Hr (Hl & Hi & Hlive)]. apply connected_split. split.
  { apply (keeps_frame _ _ _ _ requests_dep (touches_set_socket id OPEN) eq_refl w Hr). }
  split_and!; [|done|done].
  assert (Hlt : (id < length (sockets w))%nat).
  { unfold socketState in Hs. destruct (sockets w !! id) eqn:E; [by eapply lookup_lt_Some|done]. }
  assert (Hws : ws (this w) = Some id).
  { destruct (decide (ws (this w) = Some id)) as [|Hne]; [done|].
    destruct (ri_closed _ _ Hl id Hlt Hne) as [?|?]; congruence. }
  destruct Hl.
  assert (Hlen : length (sockets (fst (set_socket id OPEN w))) = length (sockets w)) by apply length_alter.
  split; auto.
  - intros id' Hws'. rewrite Hlen, socketState_set. destruct (ri_ws0 id' Hws') as [? ?]. split; [done|].
    destruct (decide (id = id')); [|done]. by destruct (decide _).
  - intros id' Hlt' Hne Hleak. rewrite Hlen in Hlt'. rewrite socketState_set.
    change (ws (this w) <> Some id') in Hne. rewrite decide_False by congruence. by apply ri_closed0.
Qed.

(** What follows the loss of the socket. *)
Lemma connected_reconnect st w :
  base_inv w -> ws (this w) = None -> reconnectTimer (this w) = None ->
  routeState (route (this w)) <> DirectActive ->
  (detached (this w) = true \/ suspended (this w) = true -> direct (this w) = None) ->
  connected st None (fst ((if detached (this w) || suspended (this w) then mret tt
    else do* _ := onStatus reconnecting in scheduleReconnect) w)).
Proof.
  intros [Hr Hl] Hws Ht Hact Hidle. destruct (detached (this w)) eqn:Hd, (suspended (this w)) eqn:Hs; cbn [orb mret fst].
  1-3: split; [done|done|intros Hds; split_and!; [done|done|apply Hidle; auto]|unfold live; rewrite Hd, Hs; tauto].
  rewrite (bind_ok (onStatus _) _ w tt eq_refl). set (w1 := fst (onStatus reconnecting w)).
  destruct (relay_scheduleReconnect w1) as (Hr' & Hl' & Hh); [| |done|done|done|].
  - apply (requests_dep w); [unfold w1, onStatus; each_field|done].
  - destruct Hl. by split.
  - destruct touches_scheduleReconnect as [Hf]. specialize (Hf w1). split; [done|done| |intros _; by right; right; left].
    unfold idle_inv. rewrite (Hf F_detached eq_refl : _ = _), (Hf F_suspended eq_refl : _ = _).
    intros [Hx|Hx]; [change (detached (this w) = true) in Hx|change (suspended (this w) = true) in Hx]; congruence.
Qed.

Lemma connected_socket_close st id w :
  connected st None w -> connected st None (fst ((do* _ := set_socket id CLOSED in socket_onclose id) w)).
Proof.
  intros Hw. rewrite (bind_ok (set_socket id CLOSED) _ w tt eq_refl). set (w1 := fst (set_socket id CLOSED w)).
  assert (Hr1 : requests_inv w1).
  { apply (keeps_frame _ _ _ _ requests_dep (touches_set_socket id CLOSED) eq_refl w (cn_requests _ _ _ Hw)). }
  assert (Hlen : length (sockets w1) = length (sockets w)) by apply length_alter.
  assert (Hst : forall id', id <> id' -> socketState id' w1 = socketState id' w).
  { intros id' Hne. unfold w1. rewrite socketState_set. by rewrite decide_False. }
  assert (Hid : closing (socketState id w1)).
  { right. unfold w1. rewrite socketState_set, decide_True by done. by destruct (decide _). }
  destruct Hw as [_ Hl Hi Hlive].
  unfold socket_onclose. rewrite (bind_ok (self Datatypes.id) _ w1 (this w1) eq_refl).
  change (fst (self Datatypes.id w1)) with w1. change (ws (this w1)) with (ws (this w)).
  destruct (decide (ws (this w) = Some id)) as [Hws|Hws].
  2:{ rewrite bool_decide_false by done. cbn [negb mret fst]. split; [done| |done|done]. destruct Hl. split; auto.
      - intros id' Hws'. rewrite Hlen, Hst; [by apply ri_ws0|]. intros ->. by apply Hws.
      - intros id' Hlt Hne _. rewrite Hlen in Hlt. destruct (decide (id = id')) as [->|Hne']; [done|].
        rewrite Hst by done. by apply ri_closed0. }
  rewrite bool_decide_true by done. cbn [negb].
  rewrite (bind_ok (assign _) _ w1 tt eq_refl). set (w2 := fst (assign _ w1)).
  assert (Hnone : reconnectTimer (this w2) = None) by (apply (ri_one _ _ Hl); by rewrite Hws).
  assert (Hact : routeState (route (this w2)) <> DirectActive).
  { intros Ha. by destruct (ri_active _ _ Hl Ha); congruence. }
  assert (Hws2 : ws (this w2) = None) by done.
  assert (Hb2 : base_inv w2).
  { split; [apply (requests_dep w1); [unfold w2; each_field|done]|]. destruct Hl.
    split; rewrite ?Hws2; auto; try (intros; congruence).
    - intros id' Hlt _ _. change (closing (socketState id' w1)). change (length (sockets w2)) with (length (sockets w1)) in Hlt.
      rewrite Hlen in Hlt. destruct (decide (id = id')) as [->|Hne']; [done|].
      rewrite Hst by done. apply ri_closed0; congruence. }
  assert (Hidle : idle_inv w2).
  { intros Hds. apply Hi in Hds as (? & _). congruence. }
  assert (Ed : detached (this w2) = detached (this w)) by done.
  assert (Es : suspended (this w2) = suspended (this w)) by done.
  change (this w1) with (this w). clearbody w2. clear w1 Hr1 Hlen Hst Hid Hl Hi Hlive Hws.
  rewrite (bind_ok _ _ _ _ (failPendingRequests_ok _ _ w2)).
  match goal with |- context [failPendingRequests ?a ?b w2] =>
    pose proof (base_failPendingRequests a b w2 Hb2) as Hb3; destruct (touches_failPendingRequests a b) as [Hf];
    specialize (Hf w2); set (w3 := fst (failPendingRequests a b w2)) in * end.
  rewrite <- Ed, <- Es. clear Ed Es.
  rewrite <- (Hf F_detached eq_refl : _ = _), <- (Hf F_suspended eq_refl : _ = _).
  rewrite <- (Hf F_reconnectTimer eq_refl : _ = _) in Hnone.
  rewrite <- (Hf F_route eq_refl : _ = _) in Hact. rewrite <- (Hf F_ws eq_refl : _ = _) in Hws2.
  assert (Hidle3 : detached (this w3) = true \/ suspended (this w3) = true -> direct (this w3) = None).
  { rewrite (Hf F_detached eq_refl : _ = _), (Hf F_suspended eq_refl : _ = _), (Hf F_direct eq_refl : _ = _).
    intros Hds. by apply Hidle in Hds as (_ & _ & ?). }
  clear Hf Hidle Hb2. clearbody w3. clear w w2. by apply connected_reconnect.
Qed.

Lemma connected_reconnect_fired st t w :
  connected st None w -> (t, ReconnectTimer) ∈ timers w ->
  connected st None (fst ((do* _ := clearTimeout t in timer_fired ReconnectTimer) w)).
Proof.
  intros Hw Hin. pose proof (proj1 (tm_reconnect _ _ _ _ _ (proj1 (cn_requests _ _ _ Hw)) t) Hin) as Ht.
  assert (Hb := base_clear_reconnect w (connected_base _ _ Hw)).
  assert (E : fst (clear_reconnect w) = fst ((do* _ := clearTimeout t in assign (fun c => c <| reconnectTimer := None |>)) w))
    by (unfold clear_reconnect; wrun; by rewrite Ht).
  rewrite E in Hb. clear E. destruct Hw as [_ Hl Hi _].
  assert (Hws : ws (this w) = None).
  { destruct (ws (this w)) as [id|] eqn:Hws; [|done]. rewrite (ri_one _ _ Hl) in Ht; [done|by rewrite Hws]. }
  cbn [timer_fired]. rewrite (bind_ok (clearTimeout t) _ w tt eq_refl).
  rewrite (bind_ok (clearTimeout t) _ w tt eq_refl) in Hb.
  set (w1 := fst (clearTimeout t w)) in *. rewrite (bind_ok (assign _) _ w1 tt eq_refl).
  set (w2 := fst (assign _ w1)) in *.
  rewrite (bind_ok (self _) _ w2 (routeGeneration (route (this w2))) eq_refl).
  change (fst (self _ w2)) with w2. destruct Hb as [Hr2 Hl2].
  apply connected_openWS; [done|done|exact Hws|done|]. intros Hds. by apply Hi in Hds as (_ & _ & ?).
Qed.

Lemma connected_fired st t k w :
  connected st None w -> (t, k) ∈ timers w -> k <> ReconnectTimer ->
  connected st None (fst ((do* _ := clearTimeout t in timer_fired k) w)).
Proof.
  intros Hw Hin Hk. apply connected_split in Hw as [Hr Hl]. apply connected_split.
  split; [by apply requests_fired|]. apply (relay_dep st None w); [|done].
  destruct k; [done| |]; cbn [timer_fired]; unfold clearTimeout, settle; wrun; each_field.
Qed.

Lemma connected_step st e w : connected st None w -> connected st None (step e w).
Proof.
  revert w. change (keeps (connected st None) (dispatch e)).
  destruct e; cbn [dispatch]; unfold void, sendPasteImage, sendPasteFile; try (keep (connected_dep st None); fail).
  - intros w Hw. apply connected_attach in Hw as [? ? ? Hl]. by split; [| | |intros _; apply Hl].
  - apply connected_suspend.
  - apply connected_detach.
  - apply connected_setPreferDirect.
  - apply keeps_gets_bind. intros w Hw. rewrite (bind_ok (gets _) _ w (socketGeneration id w) eq_refl).
    change (fst (gets _ w)) with w. case_bool_decide as Hs; [|done]. by apply connected_socket_open.
  - apply keeps_bind; [apply keeps_gets|]. intros rs.
    assert (Hc : keeps (connected st None) (set_socket id CLOSING))
      by (intros w Hw; pose proof (connected_set_closing st None id w Hw) as Hc; by rewrite decide_False in Hc).
    destruct (_ || _); [apply Hc|apply keeps_ret].
  - apply keeps_bind; [apply keeps_gets|]. intros rs. destruct (negb _); [|apply keeps_ret].
    intros w. apply connected_socket_close.
  - apply keeps_gets_bind. intros w Hw. destruct (map_get (timers w) id) as [k|] eqn:Hk; [|done].
    apply map_get_in in Hk. destruct k as [|rid p|rid p]; [by apply connected_reconnect_fired|by apply connected_fired..].
  - apply keeps_bind; [apply keeps_gets|]. intros [[t g]|]; [|apply keeps_ret].
    destruct (transport_event _ _) as [t' cbs]. apply keeps_bind; [apply connected_set_transport|]. intros _.
    apply keeps_run_callbacks; [apply connected_direct_callback|apply connected_set_transport].
Qed.
End Relay.
