(* ===== verification/ConnFinal.v ===== *)
(** * After [detach]

    A detached connection is over: whatever happens next, it opens no socket
    and no transport, sends nothing, sets no timer and shows no output. The one
    thing it still reports to its owner is the answer to two of its own calls:
    [setPreferDirect false] announces the relay route, and a paste announces
    that it failed. *)

From S2P Require Import Prelude Bytes JsString JsMap Json Proto FsSegments DirectCrypto.
From S2P Require Import DirectRoute Opaque ConnWire Transport Connection ConnFrame ConnTouches ConnRequests.
From S2P Require Import ConnRelay.

Section Final.
Context `{Crypto} `{JsText} `{Host} `{DirectTransport}.
Implicit Types (w : World).

(** The kinds of effect that reach the network, the clock or the terminal. *)
Definition outer_kinds : list EffectKind := [K_socket; K_send; K_transport; K_timeout; K_output].

Definition given_up w : Prop :=
  detached (this w) = true /\ ws (this w) = None /\ direct (this w) = None /\
  reconnectTimer (this w) = None /\
  forall id, (id < length (sockets w))%nat -> closing (socketState id w).

(** What a detached connection may report during an event: each case is a call
    of its owner. *)
Definition answer_of (e : Event) (eff : Effect) : Prop :=
  match e, eff with
  | EvSetPreferDirect false, OnRouteChange R_relay _ _ (Some preference_disabled) => True
  | EvSetPreferDirect false, OnStatus reconnecting => True
  | EvPasteImage _ _ _, OnStatus error => True
  | EvPasteFile _ _ _, OnStatus error => True
  | _, _ => False
  end.

(** [T] holds what was there at the [detach]; [P] is what may be reported
    since. *)
Context (T : EffectKind -> list Effect) (P : Effect -> Prop).

Definition quiet w : Prop :=
  given_up w /\ (forall k, k ∈ outer_kinds -> of_kind k (trace w) = T k) /\
  exists shown, Forall P shown /\ of_kind K_ui (trace w) = T K_ui ++ shown.

Lemma quiet_dep :
  depends [F_detached; F_ws; F_direct; F_reconnectTimer; F_sockets; E_socket; E_send; E_transport; E_timeout; E_output; E_ui] quiet.
Proof.
  intros w w' Hk [(Hd & Hw & Hdir & Ht & Hs) [Hq (shown & HP & Hui)]]. split; [split_and!|split].
  - by rewrite (Hk F_detached eq_refl : detached (this w') = _).
  - by rewrite (Hk F_ws eq_refl : ws (this w') = _).
  - by rewrite (Hk F_direct eq_refl : direct (this w') = _).
  - by rewrite (Hk F_reconnectTimer eq_refl : reconnectTimer (this w') = _).
  - unfold socketState. by rewrite (Hk F_sockets eq_refl : sockets w' = _).
  - intros k Hin. rewrite <- (Hq k Hin). unfold outer_kinds in Hin.
    destruct k; try (by apply bool_decide_unpack in Hin);
      [apply (Hk E_socket eq_refl)|apply (Hk E_send eq_refl)|apply (Hk E_transport eq_refl)
      |apply (Hk E_timeout eq_refl)|exfalso|apply (Hk E_output eq_refl)|exfalso];
      by repeat (apply elem_of_cons in Hin as [?|Hin]; [done|]); apply elem_of_nil in Hin.
  - exists shown. split; [done|]. by rewrite <- Hui, (Hk E_ui eq_refl : of_kind K_ui (trace w') = _).
Qed.

Lemma quiet_closing id w : quiet w -> closing (socketState id w).
Proof.
  intros [(_ & _ & _ & _ & Hs) _]. destruct (decide (id < length (sockets w))%nat) as [Hlt|Hge]; [by apply Hs|].
  right. unfold socketState. by rewrite lookup_ge_None_2 by lia.
Qed.

Lemma quiet_ws_open w : quiet w -> ws_open w = None.
Proof. intros [(_ & Hw & _) _]. unfold ws_open. by rewrite Hw. Qed.

Lemma quiet_ws_send id frame : keeps quiet (ws_send id frame).
Proof.
  unfold ws_send. apply keeps_gets_bind. intros w Hw. by destruct (quiet_closing id w Hw) as [-> | ->].
Qed.

Lemma quiet_ws_close id : keeps quiet (ws_close id).
Proof.
  unfold ws_close. apply keeps_gets_bind. intros w Hw. by destruct (quiet_closing id w Hw) as [-> | ->].
Qed.

Lemma quiet_openWS g : keeps quiet (openWS g).
Proof.
  unfold openWS. apply keeps_gets_bind. intros w Hw. pose proof Hw as [(Hd & _) _].
  unfold id. by rewrite Hd.
Qed.

Lemma quiet_handleDirectFailure g d err : keeps quiet (handleDirectFailure g d err).
Proof.
  unfold handleDirectFailure. apply keeps_gets_bind. intros w Hw. pose proof Hw as [(_ & _ & Hd & _) _].
  unfold id. rewrite Hd. by rewrite bool_decide_false.
Qed.

Lemma quiet_this_direct_send frame : keeps quiet (this_direct_send frame).
Proof.
  unfold this_direct_send. apply keeps_gets_bind. intros w Hw. pose proof Hw as [(_ & _ & Hd & _) _]. by rewrite Hd.
Qed.

Lemma quiet_maybeStartDirect : keeps quiet maybeStartDirect.
Proof.
  unfold maybeStartDirect. apply keeps_gets_bind. intros w Hw. pose proof Hw as [(Hd & _) _].
  unfold id. rewrite Hd. by rewrite !orb_true_r.
Qed.

Lemma quiet_clear_reconnect : keeps quiet clear_reconnect.
Proof.
  unfold clear_reconnect. apply keeps_gets_bind. intros w Hw. pose proof Hw as [(_ & _ & _ & Ht & _) _]. by rewrite Ht.
Qed.

Lemma quiet_no_direct : keeps quiet (assign (fun c => c <| direct := None |>)).
Proof.
  intros w [(? & ? & ? & ? & ?) Hq]. split; [by split_and!|exact Hq].
Qed.

Lemma quiet_drop_direct : keeps quiet drop_direct.
Proof.
  unfold drop_direct. apply keeps_gets_bind. intros w Hw. pose proof Hw as [(_ & _ & Hd & _) _]. rewrite Hd.
  by apply quiet_no_direct.
Qed.
#[local] Hint Resolve quiet_ws_send quiet_ws_close quiet_openWS quiet_handleDirectFailure quiet_this_direct_send
  quiet_maybeStartDirect quiet_clear_reconnect quiet_no_direct quiet_drop_direct : keeps.

Lemma quiet_try_send id ty p : keeps quiet (try_send id ty p).
Proof.
  intros w Hw. unfold try_send. assert (Hk : keeps quiet (do* frame := frame_of ty p in ws_send id frame)).
  { keep quiet_dep. }
  specialize (Hk w Hw). by destruct ((do* frame := frame_of ty p in ws_send id frame) w) as [w' [a|msg]].
Qed.
#[local] Hint Resolve quiet_try_send : keeps.

Lemma quiet_dropTransports : keeps quiet dropTransports.
Proof.
  unfold dropTransports. apply keeps_bind; [keep quiet_dep|intros]. apply keeps_bind; [keep quiet_dep|intros].
  apply keeps_bind; [keep quiet_dep|intros]. apply keeps_gets_bind. intros w Hw.
  pose proof Hw as [(_ & Hws & _) _]. by rewrite Hws.
Qed.
#[local] Hint Resolve quiet_dropTransports : keeps.

(** A method that needs an open socket. *)
Lemma quiet_needs_socket {A} (k : option nat -> M A) :
  keeps quiet (k None) -> keeps quiet (mbind (gets ws_open) k).
Proof. intros Hk. apply keeps_gets_bind. intros w Hw. rewrite (quiet_ws_open w Hw). by apply Hk. Qed.

(** A report that is allowed. *)
Lemma silenced_emit eff : effect_kind eff = K_ui -> P eff -> keeps quiet (emit eff).
Proof.
  intros Hk HP w [Hg [Hq (shown & Hs & Hui)]]. split; [exact Hg|split].
  - intros k Hin. etrans; [|exact (Hq k Hin)]. apply of_kind_other. rewrite Hk. intros <-.
    unfold outer_kinds in Hin. by repeat (apply elem_of_cons in Hin as [?|Hin]; [done|]); apply elem_of_nil in Hin.
  - exists (shown ++ [eff]). split; [apply Forall_app; by split; [|constructor]|].
    unfold emit, modify. wcbn. unfold of_kind in *. by rewrite filter_app, Hui, filter_cons, decide_True, app_assoc by done.
Qed.

Lemma silenced_emitRoute :
  (forall d t, P (OnRouteChange R_relay d t (Some preference_disabled))) ->
  keeps quiet (emitRoute R_relay (Some preference_disabled)).
Proof.
  intros HP. unfold emitRoute. apply (keeps_bind _ mget); [by intros w|intros w].
  by apply silenced_emit.
Qed.

Lemma quiet_setPreferDirect b :
  (forall eff, answer_of (EvSetPreferDirect b) eff -> P eff) -> keeps quiet (setPreferDirect b).
Proof.
  intros HP.
  unfold setPreferDirect. apply keeps_gets_bind. intros w Hw. pose proof Hw as [(_ & _ & Hd & _) _].
  unfold id. destruct (Bool.eqb _ _); [done|]. rewrite Hd.
  match goal with |- quiet (fst (?m _)) => assert (Hk : keeps quiet m); [|by apply Hk] end.
  destruct b; [keep quiet_dep|].
  assert (HR : keeps quiet (emitRoute R_relay (Some preference_disabled))) by (apply silenced_emitRoute; intros; by apply HP).
  assert (HS : keeps quiet (onStatus reconnecting)) by (apply silenced_emit; [done|by apply HP]).
  keep quiet_dep.
Qed.

Lemma quiet_sendPaste type fallback blobType content filename :
  P (OnStatus error) -> keeps quiet (sendPaste type fallback blobType content filename).
Proof.
  intros HP. unfold sendPaste. apply quiet_needs_socket.
  assert (HS : keeps quiet (onStatus error)) by by apply silenced_emit.
  keep quiet_dep.
Qed.

Lemma quiet_timer_fired k : keeps quiet (timer_fired k).
Proof.
  destruct k; cbn [timer_fired]; [|keep quiet_dep..].
  apply keeps_bind; [|intros; keep quiet_dep].
  intros w [(? & ? & ? & ? & ?) Hq]. split; [by split_and!|exact Hq].
Qed.

Lemma quiet_direct_callback d g cb : keeps quiet (direct_callback d g cb).
Proof.
  unfold direct_callback. apply keeps_gets_bind. intros w Hw. pose proof Hw as [(_ & _ & Hd & _) _].
  unfold id. rewrite Hd. rewrite bool_decide_false by done. cbn [andb mwhen].
  destruct cb; try done. by apply quiet_handleDirectFailure.
Qed.

Lemma quiet_set_closing id st : closing st -> keeps quiet (set_socket id st).
Proof.
  intros Hst w [(Hd & Hws & Hdir & Ht & Hs) Hq]. split; [|exact Hq]. split_and!; [done..|].
  intros id' Hlt. rewrite socketState_set. unfold set_socket, modify in Hlt. wcbn_in Hlt. rewrite length_alter in Hlt.
  destruct (decide _); [by rewrite decide_True|by apply Hs].
Qed.

Lemma quiet_step e : (forall eff, answer_of e eff -> P eff) -> keeps quiet (dispatch e).
Proof.
  intros HP. destruct e; cbn [dispatch]; unfold void, sendPasteImage, sendPasteFile; try (keep quiet_dep; fail).
  - unfold attach. apply keeps_gets_bind. intros w Hw. pose proof Hw as [(Hd & _) _]. unfold id. by rewrite Hd.
  - unfold suspend. apply keeps_gets_bind. intros w Hw. pose proof Hw as [(Hd & _) _]. unfold id. by rewrite Hd.
  - unfold detach. apply keeps_bind; [|intros; keep quiet_dep].
    intros w [(? & ? & ? & ? & ?) Hq]. split; [by split_and!|exact Hq].
  - by apply quiet_setPreferDirect.
  - unfold sendInput. keep quiet_dep.
  - unfold sendResize. keep quiet_dep.
  - unfold claimDriver. keep quiet_dep.
  - apply keeps_bind; [|intros; apply keeps_ret]. unfold sendFSRequest. apply quiet_needs_socket. keep quiet_dep.
  - apply keeps_bind; [|intros; apply keeps_ret]. unfold openService. apply quiet_needs_socket. keep quiet_dep.
  - unfold closeService. apply quiet_needs_socket. keep quiet_dep.
  - apply keeps_bind; [|intros; apply keeps_ret]. apply quiet_sendPaste. by apply HP.
  - apply keeps_bind; [|intros; apply keeps_ret]. apply quiet_sendPaste. by apply HP.
  - unfold pasteResume. keep quiet_dep.
  - apply keeps_gets_bind. intros w Hw. rewrite (bind_ok (gets _) _ w _ eq_refl). change (fst (gets _ w)) with w.
    destruct (quiet_closing id w Hw) as [-> | ->]; done.
  - apply keeps_gets_bind. intros w Hw. rewrite (bind_ok (gets _) _ w _ eq_refl). change (fst (gets _ w)) with w.
    destruct (quiet_closing id w Hw) as [-> | ->]; done.
  - apply keeps_gets_bind. intros w Hw. destruct (quiet_closing id w Hw) as [-> | ->]; done.
  - apply keeps_bind; [apply keeps_gets|intros]. destruct (negb _); [|apply keeps_ret].
    apply keeps_bind; [apply quiet_set_closing; by right|intros]. unfold socket_onclose.
    apply keeps_gets_bind. intros w Hw. pose proof Hw as [(_ & Hws & _) _]. unfold Datatypes.id. rewrite Hws.
    by rewrite bool_decide_false.
  - apply keeps_bind; [apply keeps_gets|intros]. destruct a; [|apply keeps_ret].
    apply keeps_bind; [keep quiet_dep|intros]. apply quiet_timer_fired.
  - apply keeps_bind; [apply keeps_gets|]. intros [[t g]|]; [|apply keeps_ret].
    destruct (transport_event _ _) as [t' cbs]. apply keeps_bind; [keep quiet_dep|]. intros _.
    apply keeps_run_callbacks; [apply quiet_direct_callback|intros; keep quiet_dep].
Qed.
End Final.
