(* ===== verification/ConnBackoff.v ===== *)
(** * The reconnect back-off

    The number of attempts since the last frame is never negative, so every
    delay lies between half a second and eight seconds. *)

From S2P Require Import Prelude Bytes JsString JsMap Json Proto FsSegments DirectCrypto.
From S2P Require Import DirectRoute Opaque ConnWire Transport Connection ConnFrame ConnTouches.

Section Backoff.
Context `{Crypto} `{JsText} `{Host} `{DirectTransport}.
Implicit Types (w : World).

Definition attempts_ok w : Prop := 0 <= reconnectAttempts (this w).

Lemma attempts_dep : depends [F_reconnectAttempts] attempts_ok.
Proof.
  intros w w' Hk. unfold attempts_ok.
  by rewrite (Hk F_reconnectAttempts eq_refl : reconnectAttempts (this w') = _).
Qed.

Lemma attempts_scheduleReconnect : keeps attempts_ok scheduleReconnect.
Proof. intros w. unfold attempts_ok, scheduleReconnect, setTimeout. wrun. lia. Qed.
#[local] Hint Resolve attempts_scheduleReconnect : keeps.

(** A valid frame resets the count. *)
Lemma attempts_reset : keeps attempts_ok (assign (fun c => c <| reconnectAttempts := 0 |>)).
Proof. intros w _. unfold attempts_ok, assign, modify. wcbn. lia. Qed.
#[local] Hint Resolve attempts_reset : keeps.

Lemma attempts_handleOpenFailure g : keeps attempts_ok (handleOpenFailure g).
Proof. unfold handleOpenFailure. keep attempts_dep. Qed.
#[local] Hint Resolve attempts_handleOpenFailure : keeps.

Lemma attempts_openWS g : keeps attempts_ok (openWS g).
Proof. unfold openWS. keep attempts_dep. Qed.
#[local] Hint Resolve attempts_openWS : keeps.

Lemma attempts_handleDirectFailure g d err : keeps attempts_ok (handleDirectFailure g d err).
Proof. unfold handleDirectFailure. keep attempts_dep. Qed.
#[local] Hint Resolve attempts_handleDirectFailure : keeps.

Lemma attempts_direct_send d frame : keeps attempts_ok (direct_send d frame).
Proof. unfold direct_send. keep attempts_dep. Qed.
#[local] Hint Resolve attempts_direct_send : keeps.

Lemma attempts_this_direct_send frame : keeps attempts_ok (this_direct_send frame).
Proof. unfold this_direct_send. keep attempts_dep. Qed.
#[local] Hint Resolve attempts_this_direct_send : keeps.

Lemma attempts_flush_direct_inputs n d : keeps attempts_ok (flush_direct_inputs n d).
Proof. induction n as [|n IH]; cbn [flush_direct_inputs]; keep attempts_dep. Qed.
#[local] Hint Resolve attempts_flush_direct_inputs : keeps.

Lemma attempts_flushPendingDirectWrites d : keeps attempts_ok (flushPendingDirectWrites d).
Proof. unfold flushPendingDirectWrites. keep attempts_dep. Qed.
#[local] Hint Resolve attempts_flushPendingDirectWrites : keeps.

Lemma attempts_maybeActivateDirect g : keeps attempts_ok (maybeActivateDirect g).
Proof. unfold maybeActivateDirect. keep attempts_dep. Qed.
#[local] Hint Resolve attempts_maybeActivateDirect : keeps.

Lemma attempts_maybeStartDirect : keeps attempts_ok maybeStartDirect.
Proof. unfold maybeStartDirect. keep attempts_dep. Qed.
#[local] Hint Resolve attempts_maybeStartDirect : keeps.

Lemma attempts_claimDriver : keeps attempts_ok claimDriver.
Proof. unfold claimDriver. keep attempts_dep. Qed.
#[local] Hint Resolve attempts_claimDriver : keeps.

Lemma attempts_handleMeta p r : keeps attempts_ok (handleMeta p r).
Proof. unfold handleMeta. keep attempts_dep. Qed.
#[local] Hint Resolve attempts_handleMeta : keeps.

Lemma attempts_handleOut p r g : keeps attempts_ok (handleOut p r g).
Proof. unfold handleOut. keep attempts_dep. Qed.
#[local] Hint Resolve attempts_handleOut : keeps.

Lemma attempts_relayReplayEnd g : keeps attempts_ok (relayReplayEnd g).
Proof. unfold relayReplayEnd. keep attempts_dep. Qed.
#[local] Hint Resolve attempts_relayReplayEnd : keeps.

Lemma attempts_handleReplayProgress p r g : keeps attempts_ok (handleReplayProgress p r g).
Proof. unfold handleReplayProgress. keep attempts_dep. Qed.
#[local] Hint Resolve attempts_handleReplayProgress : keeps.

Lemma attempts_handleProtocolFrame f r g : keeps attempts_ok (handleProtocolFrame f r g).
Proof. unfold handleProtocolFrame. keep attempts_dep. Qed.
#[local] Hint Resolve attempts_handleProtocolFrame : keeps.

Lemma attempts_attach : keeps attempts_ok attach.
Proof. unfold attach. keep attempts_dep. Qed.
#[local] Hint Resolve attempts_attach : keeps.

Lemma attempts_setPreferDirect b : keeps attempts_ok (setPreferDirect b).
Proof. unfold setPreferDirect. keep attempts_dep. Qed.
#[local] Hint Resolve attempts_setPreferDirect : keeps.

Lemma attempts_sendInput x : keeps attempts_ok (sendInput x).
Proof. unfold sendInput. keep attempts_dep. Qed.
#[local] Hint Resolve attempts_sendInput : keeps.

Lemma attempts_sendResize c r : keeps attempts_ok (sendResize c r).
Proof. unfold sendResize. keep attempts_dep. Qed.
#[local] Hint Resolve attempts_sendResize : keeps.

Lemma attempts_socket_onmessage id g d : keeps attempts_ok (socket_onmessage id g d).
Proof. unfold socket_onmessage. keep attempts_dep. Qed.
#[local] Hint Resolve attempts_socket_onmessage : keeps.

Lemma attempts_socket_onclose id : keeps attempts_ok (socket_onclose id).
Proof. unfold socket_onclose. keep attempts_dep. Qed.
#[local] Hint Resolve attempts_socket_onclose : keeps.

Lemma attempts_timer_fired k : keeps attempts_ok (timer_fired k).
Proof. unfold timer_fired. keep attempts_dep. Qed.
#[local] Hint Resolve attempts_timer_fired : keeps.

Lemma attempts_direct_callback d g cb : keeps attempts_ok (direct_callback d g cb).
Proof. unfold direct_callback. keep attempts_dep. Qed.
#[local] Hint Resolve attempts_direct_callback : keeps.

Lemma attempts_step e w : attempts_ok w -> attempts_ok (step e w).
Proof.
  revert w. change (keeps attempts_ok (dispatch e)).
  destruct e; cbn [dispatch]; unfold void; try (keep attempts_dep; fail).
  keep attempts_dep. all: eapply keeps_run_callbacks; [apply attempts_direct_callback|intros; keep attempts_dep].
Qed.

Lemma attempts_run events w : attempts_ok w -> attempts_ok (run events w).
Proof.
  revert w. induction events as [|e events IH]; intros w Hw; [done|]. cbn. by apply IH, attempts_step.
Qed.

(** The delay doubles up to its limit. *)
Lemma reconnectDelay_bounds n : 0 <= n -> 500 <= reconnectDelay n <= 8000.
Proof.
  intros Hn. unfold reconnectDelay. pose proof (Z.pow_pos_nonneg 2 n ltac:(lia) Hn). lia.
Qed.

Lemma reconnectDelay_small n : 0 <= n -> n <= 4 -> reconnectDelay n = 500 * 2 ^ n.
Proof.
  intros Hn Hle. unfold reconnectDelay. pose proof (Z.pow_le_mono_r 2 n 4 ltac:(lia) Hle). lia.
Qed.

Lemma reconnectDelay_large n : 4 <= n -> reconnectDelay n = 8000.
Proof.
  intros Hn. unfold reconnectDelay. pose proof (Z.pow_le_mono_r 2 4 n ltac:(lia) Hn). lia.
Qed.
End Backoff.
