(* ===== verification/ConnToy.v ===== *)
(** * A concrete environment for the session connection

    A run time and a direct transport with which the theorems on the
    connection are evaluated: sockets open, the transport sends everything and
    its events are the callbacks it makes. *)

From stdpp Require Import pretty.
From S2P Require Import Prelude Bytes JsString JsMap Json JsonText Proto FsSegments DirectCrypto.
From S2P Require Import DirectRoute Opaque ConnWire Transport Connection.

#[export] Instance toy_host : Host := {
  randomUUID n := js ("uuid-" +:+ pretty n);
  randomBytes24 _ := zeros 24;
  fallbackFSRequestID n := js ("fallback-" +:+ pretty n);
  newWebSocket_throws _ := false;
  navigatorPlatform := [];
  translate s := js s;
}.

#[export] Instance toy_transport : DirectTransport := {
  Transport := unit;
  TransportEvent := list Callback;
  directTransportFactory _ := Ok tt;
  transport_start t := (t, None);
  transport_sendFrame _ t := (t, Sent);
  transport_close t := t;
  transport_event cbs t := (t, cbs);
  transport_threw _ t := (t, []);
}.

Module Scene.
Definition sid_text : jsstr := js "00000000-0000-0000-0000-000000000001".
Definition sid : bytes := zeros 15 ++ [1].
Definition endpoint : Endpoint := mkEndpoint (js "wss://relay.example/") (js "token").
Definition options : Options := mkOptions (js "me") true true (Some endpoint) true.

(** The connection the constructor builds. *)
Definition conn : Conn := Eval vm_compute in
  match new_connection endpoint sid_text (js "client-1") options with
  | Ok c => c
  | Throw _ => mkConn endpoint [] [] [] [] false None false false None 0 (new_tracker 0) None false 0 None
      false false None [] false false 0 None None [] false false false [] [] [] []
  end.

Definition frame (type : Z) (payload : bytes) : bytes :=
  match encodeFrame type sid (Some payload) with Ok f => f | Throw _ => [] end.

(** Output [data] with sequence number [seq], in the clear. *)
Definition out (seq : Z) (data : bytes) : bytes := frame TYPE.OUT (be_bytes 8 seq ++ data).

Definition replay_end : bytes :=
  frame TYPE.REPLAY_PROGRESS (json_bytes (JObj [(js "phase", JStr (js "end"))])).

(** Attached over the relay, with output received twice. *)
Definition attached_events : list Event :=
  [EvAttach; EvSocketOpen 0; EvSocketMessage 0 (out 5 [104]); EvSocketMessage 0 (out 5 [104]);
   EvSocketMessage 0 (out 7 [105])].

(** And a direct attempt under way. *)
Definition direct_events : list Event :=
  [EvAccountKey (Some (zeros 32)); EvAttach; EvSocketOpen 0; EvSocketMessage 0 replay_end].

(** One turn of the transport: it makes these callbacks. *)
Definition transport_calls (d : nat) (cbs : list Callback) : Event := EvTransport d (cbs : TransportEvent).

(** The direct route is authenticated and caught up. *)
Definition activate_events : list Event :=
  direct_events ++ [transport_calls 0 [CbAuthenticated; CbReady 0]].

(** Two requests, one of which times out. *)
Definition request_events : list Event :=
  [EvAttach; EvSocketOpen 0; EvSendFSRequest [(js "op", JStr (js "stat"))] 1000;
   EvSendFSRequest [(js "op", JStr (js "list"))] 1000; EvTimer 0].

(** The socket is lost three times in a row. *)
Definition loss_events : list Event := [EvAttach; EvSocketClose 0; EvTimer 0; EvSocketClose 1; EvTimer 1].
End Scene.
