(* ===== verification/ConnProps.v ===== *)
(** * What the session connection guarantees

    The theorems about every run of [class SessionConnection]: any sequence of
    calls, socket and transport callbacks and timers after the constructor. *)

From Stdlib Require Import Sorted.
From S2P Require Import Prelude Bytes JsString JsMap Json JsonText Proto FsSegments DirectCrypto.
From S2P Require Import DirectRoute Opaque ConnWire Transport Connection ConnFrame ConnTouches ConnOutput.
From S2P Require Import ConnRequests ConnRelay ConnFinal ConnBackoff ConnToy.

Section Props.
Context `{Crypto} `{JsText} `{Host} `{DirectTransport}.
Implicit Types (w : World) (c : Conn).

Lemma run_app events events' w : run (events ++ events') w = run events' (run events w).
Proof. apply fold_left_app. Qed.

Lemma run_event_cons e events w : run (e :: events) w = run events (step e w).
Proof. done. Qed.

Lemma connected_run st events w : connected st None w -> connected st None (run events w).
Proof.
  revert w. induction events as [|e events IH]; intros w Hw; [done|]. by apply IH, connected_step.
Qed.

Lemma new_connection_inv ep sid cid o c :
  new_connection ep sid cid o = Ok c ->
  ws c = None /\ reconnectTimer c = None /\ direct c = None /\ pendingFSRequests c = [] /\
  pendingServiceOpens c = [] /\ lastSeq c = 0 /\ route c = new_tracker 0.
Proof. unfold new_connection. destruct (uuidParse sid) as [b|]; [|done]. by intros [= <-]. Qed.

Lemma connected_init ep sid cid o c :
  new_connection ep sid cid o = Ok c -> connected false None (init c).
Proof.
  intros (Hw & Ht & Hd & Hf & Hs & _ & Hr)%new_connection_inv. split; [split| |done|done].
  - split; cbn; rewrite ?Hw, ?Ht, ?Hd, ?Hf, ?Hs; try (intros *; rewrite ?elem_of_nil; done); apply NoDup_nil_2.
  - by apply Permutation_refl'.
  - split; cbn; rewrite ?Hw, ?Ht, ?Hd, ?Hr; try done. intros id Hid. lia.
Qed.


(** C1. Output is shown exactly once and in order: whatever the relay, the
    direct transport and the user do, the sequence numbers of the sequenced
    output handed to the terminal are strictly increasing, and the cursor that
    the next [ATTACH] asks to resume from covers all of them. *)
Theorem session_output_exactly_once ep sid cid o c events :
  new_connection ep sid cid o = Ok c ->
  let w := run events (init c) in
  StronglySorted Z.lt (outs (trace w)) /\
  Forall (fun s => s <= lastSeq (this w)) (outs (trace w)) /\
  lastSeq (this w) = lastCommittedSeq (route (this w)).
Proof.
  intros (_ & _ & _ & _ & _ & Hl & Hr)%new_connection_inv w.
  destruct (output_run events (init c)) as (Hs & Hf & E).
  - unfold output_inv, committed. cbn. rewrite Hl, Hr. by repeat constructor.
  - split_and!; [done| |done]. unfold w. by rewrite E.
Qed.

(** C2. The relay is used by one party at a time: every socket the connection
    ever opened is closing, except the one in [ws]; a reconnect timer is the
    one in [reconnectTimer], and there is none while there is a socket; while
    the direct route is active there is neither; detached or suspended, the
    connection holds no socket, no timer and no transport. *)
Theorem relay_exclusive ep sid cid o c events :
  new_connection ep sid cid o = Ok c ->
  let w := run events (init c) in
  (forall id, (id < length (sockets w))%nat -> ws (this w) = Some id \/ closing (socketState id w)) /\
  (forall t, (t, ReconnectTimer) ∈ timers w <-> reconnectTimer (this w) = Some t) /\
  (ws (this w) <> None -> reconnectTimer (this w) = None) /\
  (routeState (route (this w)) = DirectActive -> ws (this w) = None /\ reconnectTimer (this w) = None) /\
  (detached (this w) = true \/ suspended (this w) = true ->
     ws (this w) = None /\ reconnectTimer (this w) = None /\ direct (this w) = None).
Proof.
  intros Hc w. destruct (connected_run false events _ (connected_init _ _ _ _ _ Hc)) as [[Ht _] Hl Hi _].
  fold w in Ht, Hl, Hi. split_and!; [|apply Ht|apply Hl|apply Hl|done].
  intros id Hid. destruct (decide (ws (this w) = Some id)); [by left|right]. by apply (ri_closed _ _ Hl).
Qed.


(** C4. Every promise is settled exactly once or still waits: the promises
    settled so far, those a timer will reject and those a paste will settle
    are together the promises handed out, each once; and a pending
    file-system request is one whose timeout is running. *)
Theorem promises_settled_once ep sid cid o c events :
  new_connection ep sid cid o = Ok c ->
  let w := run events (init c) in
  settled (trace w) ++ timer_promises (timers w) ++ map fst (pendingPastes w) ≡ₚ seq 0 (nextPromise w) /\
  (forall rid p t, map_get (pendingFSRequests (this w)) rid = Some (mkPendingFS p t) <->
     (t, FSRequestTimer rid p) ∈ timers w) /\
  (forall rid e, map_get (pendingServiceOpens (this w)) rid = Some e ->
     (so_timer e, ServiceOpenTimer rid (so_promise e)) ∈ timers w).
Proof.
  intros Hc w. destruct (connected_run false events _ (connected_init _ _ _ _ _ Hc)) as [[Ht Hp] _ _ _].
  fold w in Ht, Hp. split_and!; [done| |apply Ht]. intros *. symmetry. apply Ht.
Qed.

Lemma given_up_detach st w : connected st None w -> given_up (step EvDetach w).
Proof.
  intros Hw. apply (connected_step st EvDetach) in Hw.
  assert (Hd : detached (this (step EvDetach w)) = true).
  { unfold step. cbn [dispatch]. unfold detach. rewrite (bind_ok (assign _) _ w tt eq_refl).
    set (w1 := fst (assign _ w)). rewrite (bind_ok _ _ _ _ (failPendingRequests_ok _ _ w1)).
    set (w2 := fst (failPendingRequests _ _ w1)).
    destruct touches_dropTransports as [Hf]. rewrite (Hf w2 F_detached eq_refl : _ = detached (this w2)).
    destruct (touches_failPendingRequests "filesystem request failed: connection detached"
      "service preview failed: connection detached") as [Hg]. unfold w2. by rewrite (Hg w1 F_detached eq_refl : _ = _). }
  destruct Hw as [_ Hl Hi _]. destruct (Hi (or_introl Hd)) as (Hws & Ht & Hdir).
  split_and!; [done..|]. intros id Hid. apply (ri_closed _ _ Hl); [done| |done]. by rewrite Hws.
Qed.

(** C7. [detach] is final: whatever follows it, the connection opens or
    closes no socket and no transport, sends nothing, sets no timer and shows
    no output, and its sockets stay closed. What it still reports ([shown]) are
    answers to two calls of its owner, after the [detach]: the relay route and
    the status [reconnecting] for a [setPreferDirect false], and the status
    [error] for a paste. *)
Theorem detach_final ep sid cid o c events events' :
  new_connection ep sid cid o = Ok c ->
  let w := run (events ++ [EvDetach]) (init c) in
  let w' := run events' w in
  given_up w' /\
  (forall k, k ∈ outer_kinds -> of_kind k (trace w') = of_kind k (trace w)) /\
  exists shown, of_kind K_ui (trace w') = of_kind K_ui (trace w) ++ shown /\
    Forall (fun eff => exists e, e ∈ events' /\ answer_of e eff) shown.
Proof.
  intros Hc w w'. set (T := fun k => of_kind k (trace w)). set (P := fun eff => exists e, e ∈ events' /\ answer_of e eff).
  assert (Hq : quiet T P w).
  { split; [|split; [done|exists []; by rewrite app_nil_r]]. unfold w. rewrite run_app. cbn [run fold_left].
    apply (given_up_detach false). by apply connected_run, (connected_init ep sid cid o). }
  assert (Hrun : quiet T P w').
  { unfold w'. clearbody T. clearbody w. clear Hc w'. assert (HP : forall e eff, e ∈ events' -> answer_of e eff -> P eff) by (by intros e eff; exists e).
    clearbody P. revert w Hq HP. induction events' as [|e es IH]; intros w Hq HP; [done|].
    apply IH; [|intros e' eff He; apply (HP e'); by right]. apply (quiet_step T P e); [|done].
    intros eff. apply (HP e). by left. }
  destruct Hrun as [Hg [Hk (shown & HP & Hui)]]. split; [exact Hg|]. split; [exact Hk|]. by exists shown.
Qed.

(** *** The failure of a direct transport *)

(** What [handleDirectFailure] does to the route. *)
Lemma handleDirectFailure_effect d err w :
  direct (this w) = Some d -> direct_state (routeState (route (this w))) ->
  detached (this w) = false -> suspended (this w) = false ->
  let w' := fst (handleDirectFailure (routeGeneration (route (this w))) d err w) in
  direct (this w') = None /\
  routeGeneration (route (this w')) = routeGeneration (route (this w)) + 1 /\
  (routeState (route (this w)) = DirectActive -> routeState (route (this w')) = RelayReattaching) /\
  (routeState (route (this w)) <> DirectActive ->
     routeState (route (this w')) = RelayAttached /\ ws (this w') = ws (this w) /\ sockets w' = sockets w).
Proof.
  intros Hd Hs Hdet Hsus w'. unfold w', handleDirectFailure.
  rewrite (bind_ok (self id) _ w (this w) eq_refl). change (fst (self id w)) with w.
  rewrite bool_decide_true, Z.eqb_refl by done. cbn [negb orb].
  rewrite (bind_ok (assign _) _ w tt eq_refl), (bind_ok (assign _) _ _ tt eq_refl). set (w2 := fst (assign _ _)).
  rewrite Hdet, Hsus, !orb_false_r. destruct (_ || _) eqn:Hc.
  - apply orb_true_iff in Hc. destruct (abortDirect_current _ Hc) as (t' & E & (Hg & _) & Hs').
    assert (Hn : routeState (route (this w)) <> DirectActive).
    { rewrite !state_is_spec in Hc. destruct Hc as [-> | ->]; done. }
    rewrite (bind_ok (on_route _) _ w2 tt); unfold on_route; change (route (this w2)) with (route (this w)); rewrite E; [|done].
    split_and!; [done|exact Hg|intros; congruence|]. by intros _.
  - apply orb_false_iff in Hc as [H1' H2']. unfold state_is in H1', H2'. apply bool_decide_eq_false in H1', H2'.
    assert (Ha : state_is (route (this w)) DirectActive = true).
    { apply state_is_spec. destruct Hs as [?|[?|?]]; done. }
    rewrite Ha. cbn [negb]. destruct (directLost_current _ Ha) as (t' & E & (Hg & _) & Hs').
    rewrite (bind_ok (on_route _) _ w2 (routeGeneration t')) by (unfold on_route; change (route (this w2)) with (route (this w)); by rewrite E).
    rewrite (bind_ok (emitRoute _ _) _ _ tt eq_refl), (bind_ok (onStatus _) _ _ tt eq_refl).
    match goal with |- context [openWS ?g ?w1] => set (w3 := w1); destruct (touches_openWS g) as [Hf]; specialize (Hf w3) end.
    rewrite (Hf F_direct eq_refl : _ = direct (this w3)), (Hf F_route eq_refl : _ = route (this w3)).
    assert (Hr3 : route (this w3) = t').
    { unfold w3, on_route. change (route (this w2)) with (route (this w)). by rewrite E. }
    rewrite Hr3. split_and!; [|exact Hg|done|].
    + unfold w3, on_route. change (route (this w2)) with (route (this w)). by rewrite E.
    + intros Hn. by apply state_is_spec in Ha.
Qed.

Lemma direct_not_idle st d w :
  connected st None w -> direct (this w) = Some d -> detached (this w) = false /\ suspended (this w) = false.
Proof.
  intros Hw Hd. destruct (detached (this w)) eqn:Hdet.
  { destruct (cn_idle _ _ _ Hw (or_introl Hdet)) as (_ & _ & ?). congruence. }
  destruct (suspended (this w)) eqn:Hsus; [|done].
  destruct (cn_idle _ _ _ Hw (or_intror Hsus)) as (_ & _ & ?). congruence.
Qed.

(** No failure of the direct transport is lost: in every reachable state
    the transport in use carries the current generation, so when it reports a
    failure the transport is dropped, input no longer goes to it, and if the
    direct route was active the connection has a relay socket or a reconnect
    timer again and queues its input until the relay has replayed. *)
Theorem direct_failure_recovers ep sid cid o c events d err :
  new_connection ep sid cid o = Ok c ->
  let w := run events (init c) in
  direct (this w) = Some d ->
  exists t g, transports w !! d = Some (t, g) /\
    let w' := fst (run_callbacks d g [CbFailure err] w) in
    direct (this w') = None /\ inputRoute (route (this w')) <> Route_Direct /\
    (routeState (route (this w)) = DirectActive ->
       inputRoute (route (this w')) = Route_None /\ has_relay w').
Proof.
  intros Hc w Hd. pose proof (connected_run false events _ (connected_init _ _ _ _ _ Hc)) as Hw. fold w in Hw.
  clearbody w. destruct (ri_direct _ _ (cn_relay _ _ _ Hw) d Hd) as [[t Ht] Hs].
  exists t, (routeGeneration (route (this w))). split; [done|].
  destruct (direct_not_idle _ d w Hw Hd) as [Hdet Hsus].
  destruct (handleDirectFailure_effect d err w Hd Hs Hdet Hsus) as (Hd' & _ & Ha & Hn).
  change (fst (run_callbacks d (routeGeneration (route (this w))) [CbFailure err] w))
    with (fst (handleDirectFailure (routeGeneration (route (this w))) d err w)).
  cbv zeta. split_and!; [done| |].
  - unfold inputRoute. destruct (decide (routeState (route (this w)) = DirectActive)) as [E|E].
    + by rewrite (Ha E).
    + destruct (Hn E) as (-> & _). done.
  - intros E. split; [unfold inputRoute; by rewrite (Ha E)|].
    assert (Hw1 : connected true None w) by (destruct Hw; split; [done..|]; intros _; right; right; right; done).
    apply (connected_handleDirectFailure true (routeGeneration (route (this w))) d err) in Hw1.
    pose proof (cn_live _ _ _ Hw1 eq_refl) as Hl.
    destruct (touches_handleDirectFailure (routeGeneration (route (this w))) d err) as [Hf].
    pose proof (Hf w F_detached eq_refl : _ = _) as Ed. pose proof (Hf w F_suspended eq_refl : _ = _) as Es.
    unfold live in Hl. rewrite Ed, Es, Hdet, Hsus, (Ha E) in Hl. destruct Hl as [?|[?|[?|?]]]; done.
Qed.

(** After a direct attempt fails before it was active, the connection
    keeps the relay socket it has and sends its input there, but every frame
    that arrives on that socket is ignored: the handlers of the socket carry
    the generation of the route before the failure. *)
Theorem relay_deaf_after_abort ep sid cid o c events d err id messages :
  new_connection ep sid cid o = Ok c ->
  let w := run events (init c) in
  direct (this w) = Some d -> routeState (route (this w)) <> DirectActive ->
  ws (this w) = Some id -> socketGeneration id w = routeGeneration (route (this w)) ->
  exists t g, transports w !! d = Some (t, g) /\
    let w' := fst (run_callbacks d g [CbFailure err] w) in
    ws (this w') = Some id /\ socketState id w' = socketState id w /\
    inputRoute (route (this w')) = Route_Relay /\
    run (map (EvSocketMessage id) messages) w' = w'.
Proof.
  intros Hc w Hd Hact Hws Hgen. pose proof (connected_run false events _ (connected_init _ _ _ _ _ Hc)) as Hw. fold w in Hw.
  clearbody w. destruct (ri_direct _ _ (cn_relay _ _ _ Hw) d Hd) as [[t Ht] Hs].
  exists t, (routeGeneration (route (this w))). split; [done|].
  destruct (direct_not_idle _ d w Hw Hd) as [Hdet Hsus].
  destruct (handleDirectFailure_effect d err w Hd Hs Hdet Hsus) as (_ & Hg & _ & Hn).
  destruct (Hn Hact) as (Hs' & Hws' & Hsock).
  change (fst (run_callbacks d (routeGeneration (route (this w))) [CbFailure err] w))
    with (fst (handleDirectFailure (routeGeneration (route (this w))) d err w)).
  set (w' := fst (handleDirectFailure _ d err w)) in *. clearbody w'. cbv zeta. split_and!.
  - by rewrite Hws'.
  - unfold socketState. by rewrite Hsock.
  - unfold inputRoute. by rewrite Hs'.
  - assert (Hgen' : socketGeneration id w' = routeGeneration (route (this w))).
    { rewrite <- Hgen. unfold socketGeneration. by rewrite Hsock. }
    induction messages as [|m messages IH]; [done|]. cbn [map]. rewrite run_event_cons.
    replace (step (EvSocketMessage id m) w') with w'; [exact IH|]. symmetry.
    unfold step. cbn [dispatch]. rewrite (bind_ok (gets _) _ w' (socketState id w') eq_refl).
    change (fst (gets _ w')) with w'. rewrite (bind_ok (gets _) _ w' (socketGeneration id w') eq_refl).
    change (fst (gets _ w')) with w'. rewrite Hgen'. destruct (bool_decide _); [|done]. cbn [mwhen].
    unfold socket_onmessage. rewrite (bind_ok (self Datatypes.id) _ w' (this w') eq_refl).
    change (fst (self Datatypes.id w')) with w'.
    assert (Hacc : acceptsRoute (routeGeneration (route (this w))) Route_Relay (route (this w')) = false).
    { unfold acceptsRoute. rewrite Hg. by rewrite (proj2 (Z.eqb_neq _ _)) by lia. }
    by rewrite Hacc, orb_true_r.
Qed.

Lemma failPendingRequests_empty a b w :
  pendingFSRequests (this (fst (failPendingRequests a b w))) = [] /\
  pendingServiceOpens (this (fst (failPendingRequests a b w))) = [].
Proof.
  unfold failPendingRequests, rejectPendingFSRequests, rejectPendingServiceOpens. wrun.
  match goal with |- context [reject_all_fs ?l ?e ?w1] =>
    pose proof (reject_all_fs_ok l e w1) as E1; destruct (touches_reject_all_fs l e) as [Hf1]; specialize (Hf1 w1);
    pose proof (Hf1 F_pendingFSRequests eq_refl : _ = _) as Hq; clear Hf1;
    destruct (reject_all_fs l e w1) as [w' r]; cbn in E1, Hq; subst r end.
  match goal with |- context [reject_all_services ?l ?e ?w1] =>
    pose proof (reject_all_services_ok l e w1) as E2; destruct (touches_reject_all_services l e) as [Hf2]; specialize (Hf2 w1);
    pose proof (Hf2 F_pendingFSRequests eq_refl : _ = _) as Hq2; clear Hf2;
    destruct (reject_all_services l e w1) as [w2 r]; cbn in E2, Hq2; subst r end.
  wcbn. split; [congruence|done].
Qed.

(** When the relay socket is lost the connection gives up its pending
    requests and tries again after a delay that doubles with every attempt
    since the last frame, from half a second up to eight seconds. *)
Theorem reconnect_backoff ep sid cid o c events id :
  new_connection ep sid cid o = Ok c ->
  let w := run events (init c) in
  ws (this w) = Some id ->
  let n := reconnectAttempts (this w) in
  let w' := step (EvSocketClose id) w in
  ws (this w') = None /\ pendingFSRequests (this w') = [] /\ pendingServiceOpens (this w') = [] /\
  reconnectAttempts (this w') = n + 1 /\
  exists t delay, reconnectTimer (this w') = Some t /\ (t, ReconnectTimer) ∈ timers w' /\
    of_kind K_timeout (trace w') = of_kind K_timeout (trace w) ++ [SetTimeout t delay] /\
    delay = Z.min 8000 (500 * 2 ^ n) /\ 500 <= delay <= 8000.
Proof.
  intros Hc w Hws n w'. pose proof (connected_run false events _ (connected_init _ _ _ _ _ Hc)) as Hw.
  assert (Hn : 0 <= n).
  { apply (attempts_run events (init c)). unfold attempts_ok. cbn. revert Hc. unfold new_connection.
    destruct (uuidParse sid) as [b|]; [|done]. by intros [= <-]. }
  fold w in Hw. pose proof (connected_step false (EvSocketClose id) w Hw) as Hw'. fold w' in Hw'. clearbody w.
  assert (Hds : detached (this w) = false /\ suspended (this w) = false).
  { destruct (detached (this w)) eqn:Hd; [by destruct (cn_idle _ _ _ Hw (or_introl Hd)); congruence|].
    destruct (suspended (this w)) eqn:Hs; [by destruct (cn_idle _ _ _ Hw (or_intror Hs)); congruence|done]. }
  assert (E : w' = fst ((do* _ := onStatus reconnecting in scheduleReconnect) (fst (failPendingRequests
    "filesystem request failed: websocket closed" "service preview failed: websocket closed"
    (fst (assign (fun c => c <| ws := None |>) (fst (set_socket id CLOSED w)))))))).
  { unfold w', step. cbn [dispatch]. rewrite (bind_ok (gets _) _ w (socketState id w) eq_refl).
    change (fst (gets _ w)) with w. rewrite bool_decide_false by apply (ri_ws _ _ (cn_relay _ _ _ Hw) id Hws).
    cbn [negb mwhen]. rewrite (bind_ok (set_socket _ _) _ w tt eq_refl). set (w1 := fst (set_socket id CLOSED w)).
    unfold socket_onclose. rewrite (bind_ok (self Datatypes.id) _ w1 (this w1) eq_refl).
    change (fst (self Datatypes.id w1)) with w1. change (this w1) with (this w).
    rewrite bool_decide_true by done. cbn [negb].
    rewrite (bind_ok (assign _) _ w1 tt eq_refl), (bind_ok _ _ _ _ (failPendingRequests_ok _ _ _)).
    destruct Hds as [-> ->]. done. }
  clearbody w'. subst w'. set (w1 := fst (assign _ _)) in *.
  destruct (touches_failPendingRequests "filesystem request failed: websocket closed"
    "service preview failed: websocket closed") as [Hf]. specialize (Hf w1).
  assert (Hempty := failPendingRequests_empty "filesystem request failed: websocket closed"
    "service preview failed: websocket closed" w1).
  set (w2 := fst (failPendingRequests _ _ w1)) in *.
  pose proof (Hf F_ws eq_refl : _ = _) as Ews. pose proof (Hf F_reconnectAttempts eq_refl : _ = _) as En.
  pose proof (Hf E_timeout eq_refl : _ = _) as Et. change (reconnectAttempts (this w1)) with n in En.
  change (ws (this w1)) with (@None nat) in Ews.
  change (of_kind K_timeout (trace w1)) with (of_kind K_timeout (trace w)) in Et.
  clearbody w2. clear Hf. revert Hw'. unfold scheduleReconnect, setTimeout. wrun. intros Hw'.
  split_and!; [done|apply Hempty|apply Hempty|by rewrite En|].
  exists (nextTimer w2), (reconnectDelay n). rewrite En. split_and!; [done| | |done|apply reconnectDelay_bounds, Hn..].
  - apply elem_of_app. right. by apply list_elem_of_singleton.
  - rewrite <- Et. unfold of_kind. rewrite !filter_app. by rewrite app_nil_r.
Qed.

(** Callbacks of a socket or a transport that the connection has left
    behind do nothing: neither the state changes nor is anything sent or
    shown. *)
Theorem stale_callbacks_ignored w :
  (forall id data, ws (this w) <> Some id -> step (EvSocketMessage id data) w = w) /\
  (forall d g cbs, direct (this w) <> Some d \/ g <> routeGeneration (route (this w)) ->
     run_callbacks d g cbs w = (w, Ok tt)).
Proof.
  split.
  - intros id data Hws. unfold step. cbn [dispatch]. rewrite (bind_ok (gets _) _ w (socketState id w) eq_refl).
    change (fst (gets _ w)) with w. rewrite (bind_ok (gets _) _ w (socketGeneration id w) eq_refl).
    change (fst (gets _ w)) with w. destruct (bool_decide _); [|done]. cbn [mwhen].
    unfold socket_onmessage. rewrite (bind_ok (self Datatypes.id) _ w (this w) eq_refl).
    by rewrite bool_decide_false.
  - intros d g cbs Hstale.
    assert (Hcur : bool_decide (direct (this w) = Some d) && (g =? routeGeneration (route (this w))) = false).
    { destruct Hstale as [Hd|Hg]; [by rewrite bool_decide_false|]. by rewrite (proj2 (Z.eqb_neq _ _) Hg), andb_false_r. }
    assert (Hcb : forall cb, direct_callback d g cb w = (w, Ok tt)).
    { intros cb. unfold direct_callback. unfold self, gets. cbn [mbind]. unfold mbind at 1. cbn [id]. rewrite Hcur.
      destruct cb; try done. unfold handleDirectFailure, self, gets, mbind at 1. cbn [id].
      by rewrite <- negb_andb, Hcur. }
    induction cbs as [|cb cbs IH]; [done|]. cbn [run_callbacks]. unfold mbind.
    assert (Hrun : run_callback d g cb w = (w, Ok tt)).
    { destruct cb; cbn [run_callback]; unfold mtry; by rewrite Hcb. }
    by rewrite Hrun.
Qed.
End Props.

(** ** Witnesses *)

Lemma session_output_exactly_once_witness :
  let w := run Scene.attached_events (init Scene.conn) in
  outs (trace w) = [5; 7] /\ StronglySorted Z.lt (outs (trace w)).
Proof.
  cbv zeta. split; [by vm_compute|].
  apply (session_output_exactly_once Scene.endpoint Scene.sid_text (js "client-1") Scene.options Scene.conn
    Scene.attached_events). by vm_compute.
Defined.

Lemma relay_exclusive_witness :
  let w := run Scene.activate_events (init Scene.conn) in
  routeState (route (this w)) = DirectActive /\ length (sockets w) = 1%nat /\
  ws (this w) = None /\ reconnectTimer (this w) = None /\ closing (socketState 0 w).
Proof.
  cbv zeta. assert (Hc : new_connection Scene.endpoint Scene.sid_text (js "client-1") Scene.options = Ok Scene.conn)
    by by vm_compute.
  assert (Ha : routeState (route (this (run Scene.activate_events (init Scene.conn)))) = DirectActive) by by vm_compute.
  assert (Hl : length (sockets (run Scene.activate_events (init Scene.conn))) = 1%nat) by by vm_compute.
  destruct (relay_exclusive _ _ _ _ _ Scene.activate_events Hc) as (Hclosed & _ & _ & Hact & _).
  destruct (Hact Ha) as [Hws Ht]. split; [exact Ha|]. split; [exact Hl|]. split; [exact Hws|]. split; [exact Ht|].
  destruct (Hclosed 0%nat) as [Hw|Hcl]; [rewrite Hl; lia|congruence|exact Hcl].
Defined.


Lemma promises_settled_once_witness :
  let w := run Scene.request_events (init Scene.conn) in
  settled (trace w) = [0%nat] /\ timer_promises (timers w) = [1%nat] /\
  settled (trace w) ++ timer_promises (timers w) ++ map fst (pendingPastes w) ≡ₚ seq 0 (nextPromise w).
Proof.
  cbv zeta. split; [by vm_compute|]. split; [by vm_compute|].
  apply (promises_settled_once Scene.endpoint Scene.sid_text (js "client-1") Scene.options Scene.conn Scene.request_events).
  by vm_compute.
Defined.

Lemma detach_final_witness :
  let after := [EvSendInput (js "ls"); EvAttach; EvSetPreferDirect false; Scene.transport_calls 0 [CbFrame (Scene.out 9 [1])]] in
  let w := run (Scene.activate_events ++ [EvDetach]) (init Scene.conn) in
  let w' := run after w in
  (length (of_kind K_ui (trace w)) < length (of_kind K_ui (trace w')))%nat /\
  given_up w' /\ of_kind K_output (trace w') = of_kind K_output (trace w) /\
  exists shown, of_kind K_ui (trace w') = of_kind K_ui (trace w) ++ shown /\
    Forall (fun eff => exists e, e ∈ after /\ answer_of e eff) shown.
Proof.
  cbv zeta. split; [apply Nat.ltb_lt; vm_compute; reflexivity|].
  destruct (detach_final Scene.endpoint Scene.sid_text (js "client-1") Scene.options Scene.conn Scene.activate_events
    [EvSendInput (js "ls"); EvAttach; EvSetPreferDirect false; Scene.transport_calls 0 [CbFrame (Scene.out 9 [1])]])
    as [Hg [Hk Hui]]; [by vm_compute|].
  split; [exact Hg|]. split; [apply Hk; apply list_elem_of_In; cbn; tauto|exact Hui].
Defined.

Lemma direct_failure_recovers_witness :
  let w := run Scene.activate_events (init Scene.conn) in
  exists t g, transports w !! 0%nat = Some (t, g) /\
    has_relay (fst (run_callbacks 0 g [CbFailure (js "peer closed")] w)).
Proof.
  cbv zeta.
  assert (Hc : new_connection Scene.endpoint Scene.sid_text (js "client-1") Scene.options = Ok Scene.conn)
    by by vm_compute.
  assert (Hd : direct (this (run Scene.activate_events (init Scene.conn))) = Some 0%nat) by by vm_compute.
  assert (Ha : routeState (route (this (run Scene.activate_events (init Scene.conn)))) = DirectActive) by by vm_compute.
  destruct (direct_failure_recovers _ _ _ _ _ Scene.activate_events 0%nat (js "peer closed") Hc Hd) as (t & g & Ht & _ & _ & Hr).
  exists t, g. split; [exact Ht|]. apply Hr, Ha.
Defined.

(** The direct attempt fails while the relay is attached; the output that the
    relay sends afterwards is not shown. *)
Lemma relay_deaf_after_abort_witness :
  let w := run Scene.direct_events (init Scene.conn) in
  exists t g, transports w !! 0%nat = Some (t, g) /\
    let w' := fst (run_callbacks 0 g [CbFailure (js "ice failed")] w) in
    socketState 0 w' = OPEN /\ inputRoute (route (this w')) = Route_Relay /\
    run [EvSocketMessage 0 (Scene.out 5 [104])] w' = w' /\
    outs (trace (run [EvSocketMessage 0 (Scene.out 5 [104])] w)) = [5].
Proof.
  cbv zeta.
  assert (Hc : new_connection Scene.endpoint Scene.sid_text (js "client-1") Scene.options = Ok Scene.conn)
    by by vm_compute.
  destruct (relay_deaf_after_abort _ _ _ _ _ Scene.direct_events 0%nat (js "ice failed") 0%nat [Scene.out 5 [104]] Hc)
    as (t & g & Ht & _ & Hs & Hi & Hr); [by vm_compute|by vm_compute|by vm_compute|by vm_compute|].
  exists t, g. split; [exact Ht|]. split; [rewrite Hs; by vm_compute|]. split; [exact Hi|].
  split; [exact Hr|]. by vm_compute.
Defined.

Lemma reconnect_backoff_witness :
  let w := run Scene.loss_events (init Scene.conn) in
  let w' := step (EvSocketClose 2) w in
  reconnectAttempts (this w') = 3 /\
  exists t delay, of_kind K_timeout (trace w') = of_kind K_timeout (trace w) ++ [SetTimeout t delay] /\ delay = 2000.
Proof.
  cbv zeta.
  assert (Hc : new_connection Scene.endpoint Scene.sid_text (js "client-1") Scene.options = Ok Scene.conn)
    by by vm_compute.
  destruct (reconnect_backoff _ _ _ _ _ Scene.loss_events 2%nat Hc)
    as (_ & _ & _ & Hn & t & delay & _ & _ & Ht & Hd & _); [by vm_compute|].
  split; [rewrite Hn; by vm_compute|]. exists t, delay. split; [exact Ht|]. rewrite Hd. by vm_compute.
Defined.
