(* ===== verification/ListConnection.v ===== *)
(** * The session list connection
      ([SessionListConnection] of [src/desktop/frontend/src/lib/connection.ts])

    The socket over which the relay lists the sessions: it reconnects with
    backoff until it is detached, opens the sealed fields of each session, and
    reports frames that it cannot use at a limited rate. The list is kept as
    the JSON value it is; [decryptSessionFields] is the same function as in
    [SessionInfo], on values whose shape is not known. *)

From S2P Require Import Prelude Bytes JsString JsMap Json Proto DirectCrypto Opaque ConnWire EventLoop Transport.

(** *** State *)

Record ListConn := mkListConn {
  endpoint : Endpoint;
  ws : option nat;
  reconnectAttempts : Z;
  reconnectTimer : option nat;
  detached : bool;
  listParseFailures : Z;
}.
#[export] Instance eta_list_conn : Eta ListConn :=
  fun r => mkListConn (endpoint r) (ws r) (reconnectAttempts r) (reconnectTimer r) (detached r)
    (listParseFailures r).

Inductive Effect :=
  | NewSocket (id : nat) (address : jsstr) (protocol : option jsstr)
  | CloseSocket (id : nat)
  | SetTimeout (id : nat) (delay : Z)
  | ClearTimeout (id : nat)
  | OnStatus (status : Status)
  | OnPrefsChanged
  | OnSessions (sessions : Json)
  | LogUnusable (consecutive : Z) (payload_len : Z) (payload_head : jsstr) (error : jsstr)
  | LogHandlerThrew (error : jsstr)
  | LogOpenFailed (address : jsstr) (protocol : option jsstr) (error : jsstr).

(** With the sockets it opened, the timers that are set, the number of times
    [new WebSocket] was called, and the account key in use. *)
Record ListWorld := mkListWorld {
  this : ListConn;
  sockets : list ReadyState;
  timers : list nat;
  nextTimer : nat;
  opened : nat;
  accountKey : option bytes;
  trace : list Effect;
}.
#[export] Instance eta_list_world : Eta ListWorld :=
  fun r => mkListWorld (this r) (sockets r) (timers r) (nextTimer r) (opened r) (accountKey r) (trace r).

(** The error of the n-th [new WebSocket], if it throws. *)
Class ListHost := { socket_error : nat -> option jsstr }.

Definition M (A : Type) : Type := Act ListWorld A.
Definition self {A} (f : ListConn -> A) : M A := gets (fun w => f (this w)).
Definition assign (f : ListConn -> ListConn) : M unit :=
  modify (fun w => w <| this := f (this w) |>).
Definition emit (e : Effect) : M unit := modify (fun w => w <| trace := trace w ++ [e] |>).

Definition new_list_connection (ep : Endpoint) : ListConn := mkListConn ep None 0 None false 0.

(** *** The run time *)

Definition set_socket (id : nat) (st : ReadyState) : M unit :=
  modify (fun w => w <| sockets := <[id := st]> (sockets w) |>).

Definition socket_is (id : nat) (states : list ReadyState) (w : ListWorld) : bool :=
  match sockets w !! id with Some st => bool_decide (st ∈ states) | None => false end.

(** [ws.close()] *)
Definition ws_close (id : nat) : M unit :=
  let! live := gets (socket_is id [CONNECTING; OPEN]) in
  when live (let! _ := set_socket id CLOSING in emit (CloseSocket id)).

Definition setTimeout (delay : Z) : M nat :=
  let! t := gets nextTimer in
  let! _ := modify (fun w => w <| nextTimer := S t |> <| timers := timers w ++ [t] |>) in
  let! _ := emit (SetTimeout t delay) in
  ret t.

Definition clearTimeout (id : nat) : M unit :=
  let! _ := modify (fun w => w <| timers := filter (fun t => t <> id) (timers w) |>) in
  emit (ClearTimeout id).

(** *** Methods *)

(** [const delay = Math.min(8000, 500 * Math.pow(2, this.reconnectAttempts++));
     this.reconnectTimer = window.setTimeout(() => this.openWS(), delay)] *)
Definition scheduleReconnect : M unit :=
  let! attempts := self reconnectAttempts in
  let! _ := assign (fun c => c <| reconnectAttempts := attempts + 1 |>) in
  let! t := setTimeout (reconnectDelay attempts) in
  assign (fun c => c <| reconnectTimer := Some t |>).

Definition handleOpenFailure (err : jsstr) (auth : jsstr * option jsstr) : M unit :=
  let! _ := emit (LogOpenFailed (fst auth) (snd auth) err) in
  let! _ := assign (fun c => c <| ws := None |>) in
  let! _ := emit (OnStatus error) in
  let! d := self detached in
  if d then ret tt else scheduleReconnect.

Section Handlers.
Context `{Crypto} `{JsText} `{ListHost}.

Definition openWS : M unit :=
  let! c := self (fun c => c) in
  if detached c then ret tt else
  let auth := webSocketAuth (endpoint c) (js "/client-sessions") in
  let! n := gets opened in
  let! _ := modify (fun w => w <| opened := S n |>) in
  match socket_error n with
  | Some err => handleOpenFailure err auth
  | None =>
      let! id := gets (fun w => length (sockets w)) in
      let! _ := modify (fun w => w <| sockets := sockets w ++ [CONNECTING] |>) in
      let! _ := emit (NewSocket id (fst auth) (snd auth)) in
      let! _ := assign (fun c => c <| ws := Some id |>) in
      emit (OnStatus (if 0 <? reconnectAttempts c then reconnecting else connecting))
  end.

Definition attach : M unit :=
  let! d := self detached in
  if d then ret tt else openWS.

Definition detach : M unit :=
  let! _ := assign (fun c => c <| detached := true |>) in
  let! t := self reconnectTimer in
  let! _ := match t with
            | Some t => let! _ := clearTimeout t in assign (fun c => c <| reconnectTimer := None |>)
            | None => ret tt
            end in
  let! s := self ws in
  match s with
  | Some s => let! _ := attempt (ws_close s) in assign (fun c => c <| ws := None |>)
  | None => ret tt
  end.

Definition hexHead (b : bytes) (max : Z) : jsstr :=
  let n := Z.min (zlen b) max in
  let s := flat_map hex_byte (slice b 0 n) in
  if max <? zlen b then s ++ [8230] else s.

Definition noteUnusableListFrame (payload : bytes) (err : string) : M unit :=
  let! _ := assign (fun c => c <| listParseFailures := listParseFailures c + 1 |>) in
  let! n := self listParseFailures in
  if negb (n =? 1) && negb (n mod 100 =? 0) then ret tt
  else emit (LogUnusable n (zlen payload) (hexHead payload 64) (js err)).

(** [if (fields.k !== undefined) next.k = fields.k] *)
Definition overlay_field (fields : Json) (k : string) (next : list (jsstr * Json)) : list (jsstr * Json) :=
  match fields with
  | JObj fs => match field fs k with Some v => set_prop next k v | None => next end
  | _ => next
  end.

(** The callback of [sessions.map] in [decryptSessionFields]. *)
Definition decrypt_session (key : bytes) (s : Json) : result Json :=
  let* envelope := prop s "sealed" in
  match s with
  | JObj session =>
      if negb (truthy envelope) then Ok s else
      let opened :=
        match as_string envelope, as_string (field session "id") with
        | Some text, Some sid =>
            let* env := b64ToBytes text in
            openSessionFields env key sid
        | _, _ => Ok None  (* not text: the helpers throw, or find no envelope *)
        end in
      match opened with
      | Ok (Some fields) =>
          if negb (truthy (Some fields)) then Ok s
          else Ok (JObj (overlay_field fields "current_command" (overlay_field fields "command"
                          (overlay_field fields "cwd" (overlay_field fields "title" session)))))
      | Ok None | Throw _ => Ok s
      end
  | _ => Ok s
  end.

Fixpoint decrypt_each (key : bytes) (l : list Json) : result (list Json) :=
  match l with
  | [] => Ok []
  | s :: rest =>
      let* s' := decrypt_session key s in
      let* rest' := decrypt_each key rest in
      Ok (s' :: rest')
  end.

Definition decryptSessionFields (key : option bytes) (sessions : Json) : result Json :=
  match key with
  | None => Ok sessions
  | Some key =>
      match sessions with
      | JArr l => let* l' := decrypt_each key l in Ok (JArr l')
      | JNull => Throw null_access
      | _ => Throw "TypeError: sessions.map is not a function"
      end
  end.

(** [threw]: what [onSessions] throws, if the list reaches it. *)
Definition ws_onmessage (data : bytes) (threw : option jsstr) : M unit :=
  match decodeFrame data with
  | Throw _ => ret tt
  | Ok f =>
      let! _ := assign (fun c => c <| reconnectAttempts := 0 |>) in
      if f_type f =? TYPE.PREFS_CHANGED then emit OnPrefsChanged
      else if negb (f_type f =? TYPE.LIST_RESP) then ret tt
      else
        let! key := gets accountKey in
        match let* value := JSON_parse (decodeText (f_payload f)) in decryptSessionFields key value with
        | Throw err => noteUnusableListFrame (f_payload f) err
        | Ok sessions =>
            let! _ := assign (fun c => c <| listParseFailures := 0 |>) in
            let! _ := emit (OnSessions sessions) in
            match threw with
            | Some err => emit (LogHandlerThrew (errText err))
            | None => ret tt
            end
        end
  end.

Definition ws_onopen : M unit := emit (OnStatus attached).

Definition ws_onclose : M unit :=
  let! _ := assign (fun c => c <| ws := None |>) in
  let! d := self detached in
  if d then ret tt else
  let! _ := emit (OnStatus reconnecting) in
  scheduleReconnect.

(** *** The event loop *)

Inductive Event :=
  | EvAttach
  | EvDetach
  | EvAccountKey (key : option bytes)
  | EvSocketOpen (s : nat)
  | EvSocketMessage (s : nat) (data : bytes) (threw : option jsstr)
  | EvSocketClose (s : nat)
  | EvTimer (t : nat).

(** A socket that is not open gets no message, and each closes once. *)
Definition dispatch (e : Event) : M unit :=
  match e with
  | EvAttach => attach
  | EvDetach => detach
  | EvAccountKey key => modify (fun w => w <| accountKey := key |>)
  | EvSocketOpen s =>
      let! go := gets (socket_is s [CONNECTING]) in
      when go (let! _ := set_socket s OPEN in ws_onopen)
  | EvSocketMessage s data threw =>
      let! go := gets (socket_is s [OPEN]) in
      when go (ws_onmessage data threw)
  | EvSocketClose s =>
      let! go := gets (socket_is s [CONNECTING; OPEN; CLOSING]) in
      when go (let! _ := set_socket s CLOSED in ws_onclose)
  | EvTimer t =>
      let! go := gets (fun w => bool_decide (t ∈ timers w)) in
      when go (
        let! _ := modify (fun w => w <| timers := filter (fun u => u <> t) (timers w) |>) in
        openWS)
  end.

Definition step (e : Event) (w : ListWorld) : ListWorld := fst (dispatch e w).

Definition run (events : list Event) (w : ListWorld) : ListWorld :=
  fold_left (fun w e => step e w) events w.
End Handlers.

Definition init (ep : Endpoint) (key : option bytes) : ListWorld :=
  mkListWorld (new_list_connection ep) [] [] 0 0 key [].
