(* ===== verification/ListConnectionProps.v ===== *)
(** * The session list connection: what holds on every run

    One way to the list at a time and none after [detach]; unusable frames
    change a counter and the reconnect backoff, nothing else, and are reported
    at a limited rate. *)

From S2P Require Import Prelude Bytes JsString JsMap Json JsonText Proto DirectCrypto Opaque ConnWire.
From S2P Require Import EventLoop Transport ListConnection.

(** ** One way to the list *)

(** No socket but [s] can still report anything. *)
Definition only (w : ListWorld) (ok : nat -> Prop) : Prop :=
  forall s st, sockets w !! s = Some st -> st <> CLOSED -> ok s.

Inductive alive (w : ListWorld) : Prop :=
  | On_socket s st (Hd : detached (this w) = false) (Ht : timers w = []) (Hw : ws (this w) = Some s)
      (Hs : sockets w !! s = Some st) (Hst : st = CONNECTING \/ st = OPEN) (Ho : only w (fun s' => s' = s))
  | On_timer t (Hd : detached (this w) = false) (Ht : timers w = [t]) (Hr : reconnectTimer (this w) = Some t)
      (Hw : ws (this w) = None) (Ho : only w (fun _ => False)).

(** Given up: nothing is pending and every socket is closed or closing. *)
Record over (w : ListWorld) : Prop := {
  ov_detached : detached (this w) = true;
  ov_timers : timers w = [];
  ov_ws : ws (this w) = None;
  ov_timer : reconnectTimer (this w) = None;
  ov_sockets : forall s st, sockets w !! s = Some st -> st = CLOSING \/ st = CLOSED;
}.

Section Alive.
Context `{Crypto} `{JsText} `{ListHost}.

Lemma socket_is_inv s l w : socket_is s l w = true -> exists st, sockets w !! s = Some st /\ st ∈ l.
Proof. unfold socket_is. destruct (sockets w !! s) as [st|]; [|done]. intros E%bool_decide_eq_true. eauto. Qed.

Lemma scheduleReconnect_eq w :
  scheduleReconnect w =
  (w <| this := (this w) <| reconnectAttempts := reconnectAttempts (this w) + 1 |>
                         <| reconnectTimer := Some (nextTimer w) |> |>
     <| nextTimer := S (nextTimer w) |> <| timers := timers w ++ [nextTimer w] |>
     <| trace := trace w ++ [SetTimeout (nextTimer w) (reconnectDelay (reconnectAttempts (this w)))] |>, Done tt).
Proof. by destruct w as [[]]. Qed.

(** Retrying after the last socket is gone. *)
Lemma alive_schedule w :
  detached (this w) = false -> timers w = [] -> ws (this w) = None -> only w (fun _ => False) ->
  alive (fst (scheduleReconnect w)).
Proof.
  intros Hd Ht Hw Ho. rewrite scheduleReconnect_eq. cbn [fst]. eapply On_timer; cbn; [done| |done|done|exact Ho].
  by rewrite Ht.
Qed.

Lemma alive_openWS w :
  detached (this w) = false -> timers w = [] -> only w (fun _ => False) -> alive (fst (openWS w)).
Proof.
  intros Hd Ht Ho. unfold openWS, bind, self, gets. rewrite Hd. cbn.
  destruct (socket_error (opened w)) as [err|].
  - unfold handleOpenFailure, bind, self, gets. cbn. rewrite Hd. by apply alive_schedule.
  - eapply (On_socket _ (length (sockets w)) CONNECTING); cbn; [done..| | |].
    + by rewrite lookup_app_r, Nat.sub_diag by lia.
    + by left.
    + intros s st E Hst. cbn in E. apply lookup_app_Some in E as [E|[Hl E]]; [by destruct (Ho _ _ E Hst)|].
      apply list_lookup_singleton_Some in E as [E _]. lia.
Qed.

Lemma only_insert w s st (ok ok' : nat -> Prop) :
  only w ok -> (st <> CLOSED -> ok' s) -> (forall s', s' <> s -> ok s' -> ok' s') ->
  only (w <| sockets := <[s := st]> (sockets w) |>) ok'.
Proof.
  intros Ho Hs Hok s' st' E Hst. cbn in E. apply list_lookup_insert_Some in E as [(<- & <- & _)|[Hne E]].
  - by apply Hs.
  - apply Hok; [done|]. by eapply Ho.
Qed.

Lemma ws_onclose_eq w :
  detached (this w) = false ->
  ws_onclose w = scheduleReconnect (w <| this := (this w) <| ws := None |> |> <| trace := trace w ++ [OnStatus reconnecting] |>).
Proof. destruct w as [[ep s at' rt d lf] ss ts nt op key tr]. cbn. by intros ->. Qed.

(** A socket that can still report is the one in use. *)
Lemma alive_event w s l :
  alive w -> socket_is s l w = true -> CLOSED ∉ l ->
  detached (this w) = false /\ timers w = [] /\ ws (this w) = Some s /\ only w (fun s' => s' = s) /\
  exists st, sockets w !! s = Some st /\ st ∈ l /\ (st = CONNECTING \/ st = OPEN).
Proof.
  intros Ha (st' & Es & Hin)%socket_is_inv Hl. assert (st' <> CLOSED) by (by intros ->).
  destruct Ha as [s0 st Hd Ht Hw Hs Hst Ho|t Hd Ht Hr Hw Ho]; [|by destruct (Ho _ _ Es)].
  assert (s = s0) as -> by (by eapply Ho). split_and!; [done..|]. exists st'. split_and!; [done..|]. congruence.
Qed.

Lemma over_event w s l : over w -> CLOSED ∉ l -> CLOSING ∉ l -> socket_is s l w = false.
Proof.
  intros [_ _ _ _ Ho] Hl1 Hl2. destruct (socket_is s l w) eqn:E; [|done].
  apply socket_is_inv in E as (st & Es & Hin). by destruct (Ho _ _ Es) as [-> | ->].
Qed.

Lemma alive_change w w' :
  this w' = this w -> sockets w' = sockets w -> timers w' = timers w -> alive w -> alive w'.
Proof.
  intros E1 E2 E3 [s st Hd Ht Hw Hs Hst Ho|t Hd Ht Hr Hw Ho].
  - eapply On_socket; rewrite ?E1, ?E2, ?E3; [done..|]. unfold only. by rewrite E2.
  - eapply On_timer; rewrite ?E1, ?E3; [done..|]. unfold only. by rewrite E2.
Qed.

(** The handlers of a message touch neither sockets nor timers. *)
Definition way (w : ListWorld) := (detached (this w), ws (this w), reconnectTimer (this w), sockets w, timers w).

Lemma way_onmessage data threw : preserves way (ws_onmessage data threw).
Proof. unfold ws_onmessage, noteUnusableListFrame, assign, emit, self. preserves_tac. Qed.

Lemma alive_way w w' : way w' = way w -> alive w -> alive w'.
Proof.
  intros E. injection E as E1 E2 E3 E4 E5. intros [s st Hd Ht Hw Hs Hst Ho|t Hd Ht Hr Hw Ho].
  - eapply On_socket; rewrite ?E1, ?E2, ?E4, ?E5; [done..|]. unfold only. by rewrite E4.
  - eapply On_timer; rewrite ?E1, ?E2, ?E3, ?E5; [done..|]. unfold only. by rewrite E4.
Qed.

Lemma over_way w w' : way w' = way w -> over w -> over w'.
Proof. intros E. injection E as E1 E2 E3 E4 E5. intros [O1 O2 O3 O4 O5]. constructor; by rewrite ?E1, ?E2, ?E3, ?E4, ?E5. Qed.

Lemma way_set_open w s st st' :
  sockets w !! s = Some st -> only w (fun s' => s' = s) -> st' = CONNECTING \/ st' = OPEN ->
  detached (this w) = false -> timers w = [] -> ws (this w) = Some s ->
  alive (w <| sockets := <[s := st']> (sockets w) |>).
Proof.
  intros Es Ho Hst Hd Ht Hw. eapply (On_socket _ s st'); cbn; [done..| |done|].
  - apply list_lookup_insert_eq. by eapply lookup_lt_Some.
  - apply only_insert with (fun s' => s' = s); by auto.
Qed.

Lemma detach_over w : alive w -> over (fst (detach w)).
Proof.
  intros [s st Hd Ht Hw Hs Hst Ho|t Hd Ht Hr Hw Ho].
  - destruct w as [[ep s' at' rt d lf] ss ts nt op key tr]. cbn in *. subst.
    assert (Hr : over (mkListWorld (mkListConn ep None at' None true lf)
      (<[s := CLOSING]> ss) [] nt op key tr)).
    { constructor; cbn; [done..|]. intros s' st' E.
      apply list_lookup_insert_Some in E as [(_ & <- & _)|[Hne E]]; [by left|]. right.
      destruct (decide (st' = CLOSED)); [done|]. by destruct Hne; symmetry; eapply Ho. }
    assert (Hb : bool_decide (st ∈ [CONNECTING; OPEN]) = true) by (apply bool_decide_true; set_solver).
    eapply over_way; [|exact Hr]. destruct rt as [r|];
      unfold detach, ws_close, attempt, catch, bind, self, assign, gets, modify, socket_is, when; cbn; rewrite Hs, Hb; done.
  - destruct w as [[ep s' at' rt d lf] ss ts nt op key tr]. cbn in *. subst.
    assert (Hr : over (mkListWorld (mkListConn ep None at' None true lf) ss [] nt op key tr)).
    { constructor; cbn; [done..|]. intros s st E. right. destruct (decide (st = CLOSED)); [done|]. by destruct (Ho _ _ E). }
    eapply over_way; [|exact Hr]. unfold detach, bind, self, assign, gets, modify. cbn.
    unfold way; cbn. by rewrite decide_False by auto.
Qed.

Lemma alive_step e w : e <> EvAttach -> alive w -> alive (step e w) \/ over (step e w).
Proof.
  intros Hne Ha. unfold step. destruct e as [| |key|s|s data threw|s|t]; cbn [dispatch]; [done|..].
  - right. by apply detach_over.
  - left. by apply (alive_way w).
  - left. unfold bind, gets, when. destruct (socket_is s [CONNECTING] w) eqn:E; [|done].
    destruct (alive_event w s _ Ha E ltac:(set_solver)) as (Hd & Ht & Hw & Ho & st & Es & _ & _).
    apply (alive_way (w <| sockets := <[s := OPEN]> (sockets w) |>)); [done|]. eapply way_set_open; eauto.
  - left. unfold bind at 1, gets, when. destruct (socket_is s [OPEN] w); [|done].
    eapply alive_way; [apply way_onmessage|done].
  - left. unfold bind at 1, gets, when. destruct (socket_is s _ w) eqn:E; [|done].
    destruct (alive_event w s _ Ha E ltac:(set_solver)) as (Hd & Ht & Hw & Ho & st & Es & _ & _).
    unfold set_socket, bind at 1, modify. rewrite ws_onclose_eq by done.
    apply alive_schedule; cbn; [done..|].
    apply only_insert with (fun s' => s' = s); [done| |]; by intros.
  - left. unfold bind at 1, gets, when. destruct (bool_decide (t ∈ timers w)) eqn:E; [|done].
    apply bool_decide_eq_true in E. destruct Ha as [s st Hd Ht Hw Hs Hst Ho|t' Hd Ht Hr Hw Ho].
    { rewrite Ht in E. set_solver. }
    unfold bind at 1, modify. apply alive_openWS; cbn; [done| |done].
    rewrite Ht in *. apply list_elem_of_singleton in E as ->. cbn. by rewrite decide_False by auto.
Qed.

Lemma over_step e w : over w -> over (step e w) /\ trace (step e w) = trace w.
Proof.
  intros Hov. pose proof Hov as [Hd Ht Hw Hr Ho]. unfold step. destruct e as [| |key|s|s data threw|s|t]; cbn [dispatch].
  - unfold attach, bind, self, gets. by rewrite Hd.
  - destruct w as [[]]. cbn in *. subst. by unfold detach, bind, self, assign, gets, modify; cbn.
  - split; [|done]. by apply (over_way w).
  - unfold bind, gets. by rewrite over_event by (done || set_solver).
  - unfold bind, gets. by rewrite over_event by (done || set_solver).
  - unfold bind, gets, when. destruct (socket_is s _ w) eqn:E; [|done]. cbn. rewrite Hd. split; [|done].
    constructor; cbn; [done..|]. intros s' st Es. apply list_lookup_insert_Some in Es as [(_ & <- & _)|[_ Es]]; [by right|by eapply Ho].
  - unfold bind, gets. rewrite Ht. done.
Qed.

Definition is_detach (e : Event) : bool := match e with EvDetach => true | _ => false end.

Lemma detached_step e w : detached (this (step e w)) = detached (this w) || is_detach e.
Proof.
  assert (Ho : forall u, detached (this (fst (openWS u))) = detached (this u)).
  { intros u. unfold openWS, bind, self, gets. destruct (detached (this u)) eqn:Hd; [done|]. cbn.
    destruct (socket_error _) as [err|]; cbn; [|done]. unfold handleOpenFailure, bind, self, gets. cbn. by rewrite Hd. }
  unfold step. destruct e as [| |key|s|s data threw|s|t]; cbn [dispatch is_detach]; rewrite ?orb_false_r, ?orb_true_r.
  - unfold attach, bind, self, gets. destruct (detached (this w)) eqn:Hd; [done|]. by rewrite Ho.
  - unfold detach, bind at 1, assign at 1, modify.
    match goal with |- detached (this (fst (?m ?u))) = _ => assert (Hp : preserves (fun v => detached (this v)) m) end.
    { unfold self, assign, ws_close, set_socket, clearTimeout, emit. preserves_tac. }
    by rewrite Hp.
  - done.
  - unfold bind, gets, when. by destruct (socket_is s _ w).
  - unfold bind at 1, gets, when. destruct (socket_is s _ w); [|done].
    by injection (way_onmessage data threw w).
  - unfold bind at 1, gets, when. destruct (socket_is s _ w); [|done]. cbn.
    unfold bind, set_socket, modify, ws_onclose, assign, self, gets. cbn. by destruct (detached (this w)) eqn:Hd.
  - unfold bind at 1, gets, when. destruct (bool_decide _); [|done]. unfold bind at 1, modify. by rewrite Ho.
Qed.

Lemma detached_run events w :
  detached (this (run events w)) = detached (this w) || existsb is_detach events.
Proof.
  revert w. induction events as [|e events IH]; intros w; [by rewrite orb_false_r|].
  change (run (e :: events) w) with (run events (step e w)). by rewrite IH, detached_step, <- orb_assoc.
Qed.

Lemma over_run events w : over w -> over (run events w) /\ trace (run events w) = trace w.
Proof.
  revert w. induction events as [|e events IH]; intros w Hw; [done|].
  destruct (over_step e w Hw) as [H1' E]. cbn. destruct (IH _ H1') as [? E']. split; [done|]. by rewrite <- E.
Qed.

Lemma alive_run events w : EvAttach ∉ events -> alive w -> alive (run events w) \/ over (run events w).
Proof.
  revert w. induction events as [|e events IH]; intros w Hn Hw; [by left|].
  apply not_elem_of_cons in Hn as [He Hn]. cbn.
  destruct (alive_step e w) as [Ha|Ho]; [by intros ->|done|by apply IH|]. right. by apply over_run.
Qed.

Lemma alive_init ep key : alive (step EvAttach (init ep key)).
Proof. unfold step. cbn [dispatch]. unfold attach, bind, self, gets. apply alive_openWS; [done..|]. by intros s st E. Qed.
End Alive.

(** ** Counting *)

Definition is_live (st : ReadyState) : bool := match st with CONNECTING | OPEN => true | _ => false end.
Definition live_sockets (w : ListWorld) : nat := length (filter is_live (sockets w)).

Lemma no_live l : (forall i st, l !! i = Some st -> is_live st = false) -> filter is_live l = [].
Proof.
  induction l as [|st l IH]; intros Hl; [done|]. rewrite filter_cons.
  specialize (Hl 0%nat st eq_refl) as E. rewrite E. apply IH. intros i. apply (Hl (S i)).
Qed.

Lemma over_count w : over w -> timers w = [] /\ live_sockets w = 0%nat.
Proof.
  intros [_ Ht _ _ Ho]. split; [done|]. unfold live_sockets. rewrite no_live; [done|].
  intros i st E. by destruct (Ho _ _ E) as [-> | ->].
Qed.

Lemma alive_count w : alive w -> (length (timers w) + live_sockets w = 1)%nat /\ detached (this w) = false.
Proof.
  intros [s st Hd Ht Hw Hs Hst Ho|t Hd Ht Hr Hw Ho]; (split; [|done]); rewrite Ht; unfold live_sockets; cbn.
  - rewrite <- (take_drop_middle _ _ _ Hs), filter_app, filter_cons.
    assert (Hn : forall i st', sockets w !! i = Some st' -> i <> s -> is_live st' = false).
    { intros i st' E Hne. destruct st'; try done; by destruct Hne; eapply Ho. }
    rewrite (no_live (take s _)), (no_live (drop (S s) _)).
    + by destruct Hst as [-> | ->].
    + intros i st' E. rewrite lookup_drop in E. apply (Hn _ _ E). lia.
    + intros i st' E. apply lookup_take_Some in E as [E Hi]. apply (Hn _ _ E). lia.
  - rewrite no_live; [done|]. intros i st E. destruct st; try done; by destruct (Ho _ _ E).
Qed.

(** ** Frames that cannot be used *)

Section Frames.
Context `{Crypto} `{JsText} `{ListHost}.

(** The payload of a message that is a list, and the list in it. *)
Definition list_of (key : option bytes) (data : bytes) : option (bytes * result Json) :=
  match decodeFrame data with
  | Ok f => if f_type f =? TYPE.LIST_RESP
            then Some (f_payload f, let* value := JSON_parse (decodeText (f_payload f)) in decryptSessionFields key value)
            else None
  | Throw _ => None
  end.

Definition unusable (key : option bytes) (data : bytes) : bool :=
  match list_of key data with Some (_, Throw _) => true | _ => false end.

(** The counts at which a run of failures is reported. *)
Definition reported (n : Z) : bool := (n =? 1) || (n mod 100 =? 0).

Definition report_of (e : Effect) : option Z :=
  match e with LogUnusable consecutive _ _ _ => Some consecutive | _ => None end.

Definition messages (s : nat) (frames : list (bytes * option jsstr)) : list Event :=
  map (fun m => EvSocketMessage s (fst m) (snd m)) frames.

Definition is_open (s : nat) (w : ListWorld) : Prop := sockets w !! s = Some OPEN.

(** The world after [k] such frames, with what was logged: the counter and the
    backoff of the reconnect have changed, and nothing else. *)
Definition noted (k : Z) (logs : list Effect) (w : ListWorld) : ListWorld :=
  w <| this := (this w) <| reconnectAttempts := if k =? 0 then reconnectAttempts (this w) else 0 |>
                        <| listParseFailures := listParseFailures (this w) + k |> |>
    <| trace := trace w ++ logs |>.

Lemma noted_zero w : noted 0 [] w = w.
Proof. destruct w as [[] ? ? ? ? ? ?]. unfold noted. cbn. by rewrite app_nil_r, Z.add_0_r. Qed.

Lemma noted_noted k k' l l' w : 0 <= k -> 0 < k' -> noted k l (noted k' l' w) = noted (k' + k) (l' ++ l) w.
Proof.
  intros Hk Hk'. destruct w as [[] ? ? ? ? ? ?]. unfold noted. cbn.
  rewrite (proj2 (Z.eqb_neq k' 0)), (proj2 (Z.eqb_neq (k' + k) 0)) by lia.
  rewrite Z.add_assoc, app_assoc. by destruct (k =? 0).
Qed.

Lemma step_open s data threw w :
  is_open s w -> step (EvSocketMessage s data threw) w = fst (ws_onmessage data threw w).
Proof.
  intros Hs. assert (E : socket_is s [OPEN] w = true) by (unfold socket_is; by rewrite Hs).
  unfold step. cbn [dispatch]. unfold bind at 1, gets, when. by rewrite E.
Qed.

Lemma note_eq payload err w :
  noteUnusableListFrame payload err w =
  (w <| this := (this w) <| listParseFailures := listParseFailures (this w) + 1 |> |>
     <| trace := trace w ++ if reported (listParseFailures (this w) + 1)
                            then [LogUnusable (listParseFailures (this w) + 1) (zlen payload) (hexHead payload 64) (js err)]
                            else [] |>, Done tt).
Proof.
  destruct w as [[ep s at' rt d lf] ss ts nt op key tr].
  unfold noteUnusableListFrame, reported, bind, self, assign, gets, modify, emit. cbn.
  destruct (lf + 1 =? 1), ((lf + 1) mod 100 =? 0); cbn; by rewrite ?app_nil_r.
Qed.

Lemma onmessage_unusable data threw w :
  unusable (accountKey w) data = true ->
  exists payload err, ws_onmessage data threw w =
    noteUnusableListFrame payload err (w <| this := (this w) <| reconnectAttempts := 0 |> |>).
Proof.
  unfold unusable, list_of, ws_onmessage. destruct (decodeFrame data) as [f|]; [|done].
  destruct (f_type f =? TYPE.LIST_RESP) eqn:Et; [|done].
  assert (Ep : (f_type f =? TYPE.PREFS_CHANGED) = false) by (apply Z.eqb_eq in Et; by rewrite Et).
  rewrite Ep. unfold assign, bind at 2, modify at 1, bind at 2, gets at 1. cbn [accountKey set_field].
  destruct (let* value := _ in _) as [l|e] eqn:E; [done|]. intros _. exists (f_payload f), e.
  unfold bind, modify, gets. cbn. by rewrite E.
Qed.

Lemma unusable_step s data threw w :
  is_open s w -> unusable (accountKey w) data = true ->
  exists logs, step (EvSocketMessage s data threw) w = noted 1 logs w /\
    map report_of logs = map Some (filter reported [listParseFailures (this w) + 1]).
Proof.
  intros Hs Hu. rewrite step_open by done. destruct (onmessage_unusable data threw w Hu) as (p & e & ->).
  rewrite note_eq. cbn [fst]. eexists. split; [reflexivity|]. cbn [this listParseFailures set_field].
  unfold filter, list_filter. cbn. by destruct (reported _).
Qed.

Lemma unusable_run s frames w :
  is_open s w -> Forall (fun m => unusable (accountKey w) (fst m) = true) frames ->
  exists logs, run (messages s frames) w = noted (zlen frames) logs w /\
    map report_of logs = map Some (filter reported (seqZ (listParseFailures (this w) + 1) (zlen frames))).
Proof.
  revert w. induction frames as [|[data threw] frames IH]; intros w Hs Hf.
  { exists []. split; [|done]. change (zlen []) with 0. by rewrite noted_zero. }
  apply Forall_cons in Hf as [Hu Hf]. cbn [fst] in Hu.
  destruct (unusable_step s data threw w Hs Hu) as (l1 & C1 & C2).
  change (run (messages s ((data, threw) :: frames)) w) with (run (messages s frames) (step (EvSocketMessage s data threw) w)).
  rewrite C1. destruct (IH (noted 1 l1 w) Hs Hf) as (l2 & R1 & R2).
  pose proof (zlen_nonneg frames) as Hz. exists (l1 ++ l2). rewrite R1, noted_noted, zlen_cons by lia.
  split; [f_equal; lia|]. rewrite map_app, C2, R2. cbn [noted this listParseFailures set_field].
  rewrite (seqZ_cons (listParseFailures (this w) + 1)) by lia. rewrite <- map_app, <- filter_app.
  replace (Z.pred _) with (zlen frames) by lia. by replace (Z.succ _) with (listParseFailures (this w) + 1 + 1) by lia.
Qed.

Lemma filter_reported_one m : Z.of_nat (length (filter reported [m])) = if reported m then 1 else 0.
Proof. unfold filter, list_filter. by destruct (reported m). Qed.

(** At most one report in a hundred, and the first. *)
Lemma reported_count n k :
  0 <= n -> 0 <= k ->
  Z.of_nat (length (filter reported (seqZ (n + 1) k))) = (n + k) / 100 - n / 100 + (if (n =? 0) && (0 <? k) then 1 else 0).
Proof.
  intros Hn Hk. revert k Hk. apply natlike_ind.
  - change (0 <? 0) with false. change (seqZ (n + 1) 0) with (@nil Z).
    rewrite andb_false_r, !Z.add_0_r. cbn. lia.
  - intros k Hk IH. rewrite <- Z.add_1_r, seqZ_app, filter_app, length_app, Nat2Z.inj_add, IH by lia.
    change (seqZ (n + 1 + k) 1) with [n + 1 + k]. rewrite filter_reported_one. unfold reported. pose proof (Z.div_mod (n + k) 100). pose proof (Z.mod_pos_bound (n + k) 100).
    pose proof (Z.div_mod (n + 1 + k) 100). pose proof (Z.mod_pos_bound (n + 1 + k) 100).
    replace (n + (k + 1)) with (n + 1 + k) by lia.
    destruct (Z.eqb_spec n 0), (Z.ltb_spec 0 k), (Z.ltb_spec 0 (k + 1)), (Z.eqb_spec (n + 1 + k) 1),
      (Z.eqb_spec ((n + 1 + k) mod 100) 0); cbn; lia.
Qed.

(** A list that can be used. *)
Lemma usable_step s data threw payload sessions w :
  is_open s w -> list_of (accountKey w) data = Some (payload, Ok sessions) ->
  let w' := step (EvSocketMessage s data threw) w in
  listParseFailures (this w') = 0 /\
  trace w' = trace w ++ OnSessions sessions :: match threw with Some err => [LogHandlerThrew (errText err)] | None => [] end.
Proof.
  intros Hs Hl. cbv zeta. rewrite step_open by done. unfold ws_onmessage. unfold list_of in Hl.
  destruct (decodeFrame data) as [f|]; [|done]. destruct (f_type f =? TYPE.LIST_RESP) eqn:Et; [|done].
  assert (Ep : (f_type f =? TYPE.PREFS_CHANGED) = false) by (apply Z.eqb_eq in Et; by rewrite Et).
  rewrite Ep. injection Hl as _ Hl. destruct w as [[ep s' at' rt d lf] ss ts nt op key tr].
  unfold bind, assign, gets, modify, emit. cbn in *. rewrite Hl. cbn.
  destruct threw; cbn; by rewrite <- ?app_assoc.
Qed.

(** ** Theorems *)

(** C17. There is one way to the list at a time and always one: from [attach]
    on, either one socket is alive or one timer is set, until [detach]; after
    [detach] there is none, and nothing is opened, set or reported. *)
Theorem list_connection_single (ep : Endpoint) (key : option bytes) (events after : list Event)
    (Honce : EvAttach ∉ events) :
  let w := run (EvAttach :: events) (init ep key) in
  (length (timers w) + live_sockets w = if existsb is_detach events then 0 else 1)%nat /\
  (existsb is_detach events = true ->
   let w' := run after w in trace w' = trace w /\ timers w' = [] /\ live_sockets w' = 0%nat).
Proof.
  intros w. pose proof (alive_init ep key) as H0'. pose proof (proj2 (alive_count _ H0')) as Hd0.
  assert (Hd : detached (this w) = existsb is_detach events).
  { unfold w. change (run (EvAttach :: events) (init ep key)) with (run events (step EvAttach (init ep key))).
    by rewrite detached_run, Hd0. }
  rewrite <- Hd. destruct (alive_run events _ Honce H0') as [Ha|Ho];
    change (run events (step EvAttach (init ep key))) with w in *.
  - apply alive_count in Ha as [Hc Hd']. rewrite Hd'. by split.
  - pose proof (over_count w Ho) as [Ht Hl]. rewrite (ov_detached w Ho), Ht, Hl. split; [done|]. intros _.
    destruct (over_run after w Ho) as [Ho' E]. by split; [|apply over_count].
Qed.

(** C18. Frames that hold no usable list change two things and nothing else
    ([noted]): the counter of such frames goes up, and the backoff of the next
    reconnect starts again from zero, as after any frame. No list is shown, and
    of [k] such frames in a row at most the first and every hundredth are
    reported. The next list that can be used is shown and ends the run,
    whatever its handler throws. *)
Theorem unusable_frames_reported (w : ListWorld) (s : nat) (frames : list (bytes * option jsstr))
    (data payload : bytes) (threw : option jsstr) (sessions : Json)
    (Hopen : is_open s w) (Hcount : 0 <= listParseFailures (this w))
    (Hframes : Forall (fun m => unusable (accountKey w) (fst m) = true) frames)
    (Husable : list_of (accountKey w) data = Some (payload, Ok sessions)) :
  let w1 := run (messages s frames) w in
  let w2 := step (EvSocketMessage s data threw) w1 in
  let n := listParseFailures (this w) in
  let k := zlen frames in
  (exists logs, w1 = noted k logs w /\
     map report_of logs = map Some (filter reported (seqZ (n + 1) k)) /\
     zlen logs = (n + k) / 100 - n / 100 + (if (n =? 0) && (0 <? k) then 1 else 0)) /\
  listParseFailures (this w2) = 0 /\
  exists rest, trace w2 = trace w1 ++ OnSessions sessions :: rest /\ zlen rest <= 1.
Proof.
  intros w1 w2 n k. destruct (unusable_run s frames w Hopen Hframes) as (logs & R1 & R2). fold w1 in R1.
  assert (Hs1 : is_open s w1) by (rewrite R1; exact Hopen).
  assert (Hk : accountKey w1 = accountKey w) by (by rewrite R1). rewrite <- Hk in Husable.
  destruct (usable_step s data threw payload sessions w1 Hs1 Husable) as [U1 U2]. split.
  - exists logs. split; [done|]. split; [done|].
    rewrite <- (reported_count n k) by (done || apply zlen_nonneg).
    unfold zlen. f_equal. rewrite <- (length_map report_of logs), R2, length_map. done.
  - split; [done|]. eexists. split; [exact U2|]. by destruct threw.
Qed.
End Frames.

(** ** Witnesses *)

#[export] Instance toy_list_host : ListHost := {
  socket_error n := if bool_decide (n = 1%nat) then Some (js "SyntaxError") else None;
}.

Module Listing.
Definition endpoint : Endpoint := mkEndpoint (js "wss://relay.example/") (js "token").

Definition frame (text : string) : bytes :=
  match encodeFrame TYPE.LIST_RESP (zeros 16) (Some (utf8_encode (js text))) with Ok f => f | Throw _ => [] end.

(** The socket is lost, the retry throws, and the next one works. *)
Definition events : list Event := [EvSocketClose 0; EvTimer 0; EvTimer 1; EvSocketOpen 1].
End Listing.

Lemma list_connection_single_witness :
  let w := run (EvAttach :: Listing.events) (init Listing.endpoint None) in
  EvAttach ∉ Listing.events /\ live_sockets w = 1%nat /\ (length (timers w) + live_sockets w = 1)%nat.
Proof.
  assert (Hn : EvAttach ∉ Listing.events) by (unfold Listing.events; rewrite !not_elem_of_cons; split_and!; [done..|apply not_elem_of_nil]).
  split; [exact Hn|]. split; [vm_compute; reflexivity|].
  exact (proj1 (list_connection_single Listing.endpoint None Listing.events [] Hn)).
Defined.

Lemma unusable_frames_reported_witness :
  let w := run [EvAttach; EvSocketOpen 0] (init Listing.endpoint None) in
  let frames := [(Listing.frame "{", None); (Listing.frame "[1,", None)] in
  is_open 0 w /\ 0 <= listParseFailures (this w) /\
  Forall (fun m => unusable (accountKey w) (fst m) = true) frames /\
  list_of (accountKey w) (Listing.frame "[]") = Some (utf8_encode (js "[]"), Ok (JArr [])) /\
  exists logs, run (messages 0 frames) w = noted 2 logs w.
Proof.
  cbv zeta. set (w := run [EvAttach; EvSocketOpen 0] (init Listing.endpoint None)).
  set (frames := [(Listing.frame "{", None); (Listing.frame "[1,", None)]).
  assert (H1 : is_open 0 w) by (vm_compute; reflexivity).
  assert (H2 : 0 <= listParseFailures (this w)) by (vm_compute; discriminate).
  assert (H3 : Forall (fun m => unusable (accountKey w) (fst m) = true) frames)
    by (unfold frames; do 2 (apply Forall_cons; split; [vm_compute; reflexivity|]); apply Forall_nil_2).
  assert (H4 : list_of (accountKey w) (Listing.frame "[]") = Some (utf8_encode (js "[]"), Ok (JArr [])))
    by (vm_compute; reflexivity).
  split; [exact H1|]. split; [exact H2|]. split; [exact H3|]. split; [exact H4|].
  destruct (proj1 (unusable_frames_reported w 0 frames (Listing.frame "[]") (utf8_encode (js "[]")) None (JArr []) H1 H2 H3 H4))
    as (logs & E & _). exists logs. exact E.
Defined.
