(* ===== verification/PeerIdentity.v ===== *)
(** * Peer identities ([src/desktop/frontend/src/lib/peer/identity.ts])

    Peer ids, the canonical text form of keys and signatures, and the
    normalisation of ECDSA signatures to their low-S form. WebCrypto is the
    class [PeerCrypto]; an identity is its keys and what signs with them. *)

From S2P Require Import Prelude Bytes JsString Base64Url DirectCrypto.

Definition P256_ORDER : Z := 0xffffffff00000000ffffffffffffffffbce6faada7179e84f3b9cac2fc632551.
Definition P256_HALF_ORDER : Z := Z.shiftr P256_ORDER 1.

(** WebCrypto: whether a raw P-256 point can be imported, signing with a
    private key, and the verification of a P1363 signature. *)
Class PeerCrypto := {
  SigningKey : Type;
  p256_importable : bytes -> bool;
  ecdsa_sign : SigningKey -> bytes -> bytes;             (* key, message *)
  ecdsa_verify : bytes -> bytes -> bytes -> bool;        (* public key, signature, message *)
}.

(** *** Scalars *)

Definition bytesToBigInt (p : bytes) : Z :=
  fold_left (fun value byte => Z.lor (Z.shiftl value 8) byte) p 0.

(** The loop of [bigIntTo32Bytes] from index [n - 1] down to 0. *)
Fixpoint low_bytes (n : nat) (value : Z) (rest : bytes) : bytes :=
  match n with
  | O => rest
  | S n' => low_bytes n' (Z.shiftr value 8) (Z.land value 0xff :: rest)
  end.

Definition bigIntTo32Bytes (value : Z) : bytes := low_bytes 32 value [].

Definition normalizeP1363LowS (signature : bytes) : result bytes :=
  throw_if (negb (zlen signature =? 64)) "peer identity: ECDSA signature must be 64-byte P1363" ;;;
  let r := bytesToBigInt (slice signature 0 32) in
  let s := bytesToBigInt (slice_from signature 32) in
  throw_if ((r <=? 0) || (P256_ORDER <=? r) || (s <=? 0) || (P256_ORDER <=? s))
    "peer identity: ECDSA signature scalar out of range" ;;;
  let s := if P256_HALF_ORDER <? s then P256_ORDER - s else s in
  let* out := set_range (zeros 64) (slice signature 0 32) 0 in
  set_range out (bigIntTo32Bytes s) 32.

Definition isP1363LowS (signature : bytes) : bool :=
  if negb (zlen signature =? 64) then false else
  let r := bytesToBigInt (slice signature 0 32) in
  let s := bytesToBigInt (slice_from signature 32) in
  (0 <? r) && (r <? P256_ORDER) && (0 <? s) && (s <=? P256_HALF_ORDER).

(** *** Text *)

Definition bytesToBase64URL (p : bytes) : jsstr :=
  strip_padding (replace_char 47 95 (replace_char 43 45 (btoa p))).

Definition base64URLToBytes (value : jsstr) : result bytes :=
  throw_if ((zlen value =? 0) || negb (forallb is_b64url value)) "peer identity: invalid base64url" ;;;
  let padded := replace_char 95 47 (replace_char 45 43 value)
                ++ replicate (Z.to_nat ((4 - zlen value mod 4) mod 4)) 61 in
  match atob padded with
  | None => Throw "peer identity: invalid base64url"
  | Some out =>
      throw_if (negb (bool_decide (bytesToBase64URL out = value))) "peer identity: non-canonical base64url" ;;;
      Ok out
  end.

Section Identity.
Context `{Crypto} `{PeerCrypto}.

Definition peerIDFromPublicKey (publicKey : bytes) : result jsstr :=
  throw_if (negb (zlen publicKey =? 65) || negb (bool_decide (publicKey !! 0%nat = Some 4)))
    "peer identity: invalid P-256 public key" ;;;
  Ok (bytesToBase64URL (sha256 publicKey)).

(** What the rest of the program sees of an identity; the wrapping secret is
    not used by it. *)
Record PeerIdentity := mkPeerIdentity {
  peerId : jsstr;
  publicKey : bytes;
  wrappingPublicKey : bytes;
  signingKey : SigningKey;
}.

(** The method [sign]. *)
Definition identity_sign (identity : PeerIdentity) (message : bytes) : result bytes :=
  normalizeP1363LowS (ecdsa_sign (signingKey identity) message).

(** The signature check of the files of [peer/]: [None] when the key cannot
    be imported. *)
Definition verify_with (key signature message : bytes) : option bool :=
  if p256_importable key then Some (ecdsa_verify key signature message) else None.
End Identity.

(** ** Lemmas *)

Lemma bytesToBigInt_from p acc :
  bytes_ok p -> 0 <= acc ->
  fold_left (fun value byte => Z.lor (Z.shiftl value 8) byte) p acc = acc * 256 ^ zlen p + be_val p.
Proof.
  unfold bytes_ok, is_byte. revert acc. induction p as [|b p IH]; intros acc Hp Hacc.
  { change (acc = acc * 1 + 0). lia. }
  apply Forall_cons in Hp as [Hb Hp]. cbn [fold_left be_val]. rewrite zlen_cons.
  assert (E : Z.lor (Z.shiftl acc 8) b = acc * 256 + b).
  { rewrite Z.shiftl_mul_pow2 by lia.
    assert (L : Z.land (acc * 2 ^ 8) b = 0).
    2: { pose proof (Z.add_lor_land (acc * 2 ^ 8) b) as Hl. rewrite L in Hl. change (2 ^ 8) with 256 in *. lia. }
    apply Z.bits_inj'. intros n Hn. rewrite Z.land_spec, Z.bits_0.
    destruct (Z.ltb_spec n 8); [by rewrite Z.mul_pow2_bits_low by lia|].
    rewrite (Z.bits_above_log2 b n); [by rewrite andb_false_r|lia|].
    destruct (decide (b = 0)) as [->|]; [cbn; lia|].
    apply Z.lt_le_trans with 8; [|lia]. apply Z.log2_lt_pow2; lia. }
  rewrite E, IH by (done || lia). rewrite Z.pow_add_r by (pose proof (zlen_nonneg p); lia). change (256 ^ 1) with 256. ring.
Qed.

Lemma bytesToBigInt_val p : bytes_ok p -> bytesToBigInt p = be_val p.
Proof. intros Hp. unfold bytesToBigInt. rewrite bytesToBigInt_from by (done || lia). lia. Qed.

Lemma low_bytes_val n value rest :
  0 <= value -> low_bytes n value rest = be_bytes n value ++ rest.
Proof.
  revert value rest. induction n as [|n IH]; intros value rest Hv; [done|]. cbn [low_bytes].
  rewrite IH by (apply Z.shiftr_nonneg; lia).
  assert (E : be_bytes (S n) value = be_bytes n (Z.shiftr value 8) ++ [Z.land value 0xff]).
  { clear IH. rewrite Z.shiftr_div_pow2 by lia. change (2 ^ 8) with 256.
    change 0xff with (Z.ones 8). rewrite Z.land_ones by lia. change (2 ^ 8) with 256.
    revert value Hv. induction n as [|n IH]; intros value Hv.
    - cbn. by rewrite Z.div_1_r.
    - cbn [be_bytes app]. f_equal.
      + f_equal. rewrite Z.div_div by lia. f_equal. rewrite <- Z.pow_succ_r by lia. f_equal. lia.
      + by apply IH. }
  by rewrite E, <- app_assoc.
Qed.

Lemma bigIntTo32Bytes_val value : 0 <= value -> bigIntTo32Bytes value = be_bytes 32 value.
Proof. intros Hv. unfold bigIntTo32Bytes. by rewrite low_bytes_val, app_nil_r by done. Qed.

Lemma bytesToBase64URL_eq p : bytesToBase64URL p = base64url p.
Proof. done. Qed.

Lemma base64_pad (value : jsstr) :
  replicate (Z.to_nat ((4 - zlen value mod 4) mod 4)) 61 = b64_padding (zlen value).
Proof.
  unfold b64_padding. pose proof (Z.mod_pos_bound (zlen value) 4 ltac:(lia)) as Hm.
  destruct (Z.eqb_spec (zlen value mod 4) 0) as [->|Hne]; [done|]. by rewrite Z.mod_small by lia.
Qed.

Lemma replace_char_length a b (s : jsstr) : zlen (replace_char a b s) = zlen s.
Proof. unfold replace_char, zlen. by rewrite length_map. Qed.

(** The text of some bytes is read back. *)
Lemma base64URL_roundtrip p : bytes_ok p -> p <> [] -> base64URLToBytes (bytesToBase64URL p) = Ok p.
Proof.
  intros Hp Hne. unfold base64URLToBytes. rewrite bytesToBase64URL_eq, (base64url_chars p Hp).
  assert (Hl : (zlen (base64url p) =? 0) = false).
  { apply Z.eqb_neq. intros E%zlen_zero_inv. assert (Hb : btoa p = []).
    { rewrite <- unpadded_padding by done. unfold unpadded. by rewrite E. }
    pose proof (atob_btoa p Hp) as Ha. rewrite Hb in Ha. by injection Ha as <-. }
  rewrite Hl. cbn [orb negb]. rewrite base64_pad. fold (unpadded p).
  replace (zlen (base64url p)) with (zlen (unpadded p)) by (unfold unpadded; by rewrite !replace_char_length).
  rewrite unpadded_padding, atob_btoa by done. by rewrite bytesToBase64URL_eq, bool_decide_true.
Qed.

(** ... and each value has one text only. *)
Lemma base64URL_canonical s p : base64URLToBytes s = Ok p -> bytesToBase64URL p = s.
Proof.
  unfold base64URLToBytes. intros E. destruct (_ || _); [done|]. destruct (atob _) as [out|]; [|done].
  destruct (bool_decide (bytesToBase64URL out = s)) eqn:Hb; [|done]. apply bool_decide_eq_true in Hb. by injection E as <-.
Qed.

Lemma base64URL_inj s1 s2 p : base64URLToBytes s1 = Ok p -> base64URLToBytes s2 = Ok p -> s1 = s2.
Proof. intros E1%base64URL_canonical E2%base64URL_canonical. congruence. Qed.

(** ** Low-S signatures *)

Definition sig_r (signature : bytes) : Z := be_val (slice signature 0 32).
Definition sig_s (signature : bytes) : Z := be_val (slice_from signature 32).

Definition in_order (v : Z) : Prop := 0 < v < P256_ORDER.

Lemma P256_bound v : v < P256_ORDER -> v < 256 ^ Z.of_nat 32.
Proof. intros Hv. apply Z.lt_trans with P256_ORDER; [done|]. reflexivity. Qed.

Lemma isP1363LowS_spec sg :
  bytes_ok sg ->
  isP1363LowS sg = true <-> zlen sg = 64 /\ in_order (sig_r sg) /\ 0 < sig_s sg <= P256_HALF_ORDER.
Proof.
  intros Hb. unfold isP1363LowS, in_order, sig_r, sig_s.
  rewrite !bytesToBigInt_val by (by apply Forall_slice || by apply Forall_slice_from).
  destruct (Z.eqb_spec (zlen sg) 64) as [E|E]; cbn [negb]; [|split; [done|tauto]].
  rewrite !andb_true_iff, !Z.ltb_lt, Z.leb_le. tauto.
Qed.

Lemma sig_r_length (sg : bytes) : zlen sg = 64 -> zlen (slice sg 0 32) = 32.
Proof. intros Hl. rewrite zlen_slice; lia. Qed.

(** The signature made of [r] and [s]. *)
Lemma sig_parts r s :
  zlen r = 32 -> 0 <= s < 256 ^ Z.of_nat 32 ->
  zlen (r ++ be_bytes 32 s) = 64 /\ sig_r (r ++ be_bytes 32 s) = be_val r /\ sig_s (r ++ be_bytes 32 s) = s.
Proof.
  intros Hr Hs. unfold sig_r, sig_s. rewrite zlen_app, zlen_be_bytes, slice_prefix, slice_from_app by lia.
  rewrite be_val_be_bytes_small by done. split_and!; [lia|done|done].
Qed.

Lemma normalize_layout sg :
  bytes_ok sg -> zlen sg = 64 -> in_order (sig_r sg) -> in_order (sig_s sg) ->
  normalizeP1363LowS sg = Ok (slice sg 0 32 ++
    be_bytes 32 (if P256_HALF_ORDER <? sig_s sg then P256_ORDER - sig_s sg else sig_s sg)).
Proof.
  intros Hb Hl Hr Hs. unfold in_order, sig_r, sig_s in *. unfold normalizeP1363LowS.
  rewrite Hl. cbn [Z.eqb negb Pos.eqb].
  rewrite !bytesToBigInt_val by (by apply Forall_slice || by apply Forall_slice_from).
  set (s := be_val (slice_from sg 32)) in *.
  rewrite (proj2 (Z.leb_gt _ _)), (proj2 (Z.leb_gt P256_ORDER _)), (proj2 (Z.leb_gt s _)), (proj2 (Z.leb_gt _ s)) by lia.
  cbn [orb]. cbv zeta. set (s' := if P256_HALF_ORDER <? s then P256_ORDER - s else s).
  assert (H0 : 0 <= s') by (unfold s'; destruct (_ <? _); lia).
  assert (H32 : zlen (slice sg 0 32) = 32) by (rewrite zlen_slice; lia).
  rewrite set_range_start by lia. cbn [rbind]. rewrite H32, bigIntTo32Bytes_val by done.
  rewrite set_range_zeros by (rewrite ?zlen_be_bytes; lia). rewrite zlen_be_bytes.
  by rewrite app_nil_r.
Qed.

Lemma half_order_bounds s :
  in_order s ->
  0 < (if P256_HALF_ORDER <? s then P256_ORDER - s else s) <= P256_HALF_ORDER.
Proof.
  unfold in_order. assert (E : P256_HALF_ORDER * 2 + 1 = P256_ORDER) by reflexivity.
  destruct (Z.ltb_spec P256_HALF_ORDER s); lia.
Qed.

(** A signature that is refused has the wrong length or a scalar out of range. *)
Lemma normalize_refused sg e :
  bytes_ok sg -> normalizeP1363LowS sg = Throw e ->
  zlen sg <> 64 \/ ~ in_order (sig_r sg) \/ ~ in_order (sig_s sg).
Proof.
  intros Hb E. destruct (decide (zlen sg = 64)) as [Hl|]; [|by left]. right.
  unfold in_order. destruct (decide (0 < sig_r sg < P256_ORDER)) as [Hr|]; [|by left]. right. intros Hs.
  by rewrite normalize_layout in E.
Qed.

Lemma normalize_accepts sg out :
  bytes_ok sg -> normalizeP1363LowS sg = Ok out -> zlen sg = 64 /\ in_order (sig_r sg) /\ in_order (sig_s sg).
Proof.
  intros Hb. unfold normalizeP1363LowS, in_order, sig_r, sig_s.
  rewrite !bytesToBigInt_val by (by apply Forall_slice || by apply Forall_slice_from).
  destruct (Z.eqb_spec (zlen sg) 64) as [Hl|]; cbn [negb]; [|done].
  destruct (_ || _) eqn:Ho; [done|]. intros _. rewrite !orb_false_iff, !Z.leb_gt in Ho. lia.
Qed.

Lemma normalize_fixed sg : bytes_ok sg -> isP1363LowS sg = true -> normalizeP1363LowS sg = Ok sg.
Proof.
  intros Hb Hl. apply isP1363LowS_spec in Hl as (Hl & Hr & Hs); [|done].
  assert (Ho : P256_HALF_ORDER < P256_ORDER) by reflexivity.
  rewrite normalize_layout by (unfold in_order in *; done || lia).
  rewrite (proj2 (Z.ltb_ge _ _)) by lia. f_equal. rewrite <- (slice_split sg 32) at 3 by lia. f_equal.
  apply be_bytes_be_val_len; [by apply Forall_slice_from|].
  pose proof (slice_split sg 32 ltac:(lia)) as Hsp. apply (f_equal zlen) in Hsp. rewrite zlen_app, zlen_slice in Hsp by lia.
  unfold zlen in *. lia.
Qed.

(** The two outcomes of a normalisation. *)
Lemma normalize_result (sg : bytes) (Hb : bytes_ok sg) :
  match normalizeP1363LowS sg with
  | Throw _ => zlen sg <> 64 \/ ~ in_order (sig_r sg) \/ ~ in_order (sig_s sg)
  | Ok out =>
      zlen sg = 64 /\ in_order (sig_r sg) /\ in_order (sig_s sg) /\
      bytes_ok out /\ isP1363LowS out = true /\ sig_r out = sig_r sg /\
      (sig_s out = sig_s sg \/ sig_s out = P256_ORDER - sig_s sg) /\
      normalizeP1363LowS out = Ok out /\ (isP1363LowS sg = true -> out = sg)
  end.
Proof.
  destruct (normalizeP1363LowS sg) as [out|e] eqn:E; [|by eapply normalize_refused].
  destruct (normalize_accepts sg out Hb E) as (Hl & Hr & Hs). do 3 (split; [done|]).
  pose proof (half_order_bounds _ Hs) as Hh.
  assert (Eo : Ok out = normalizeP1363LowS sg) by done. rewrite normalize_layout in Eo by done. apply Ok_inj in Eo.
  pose proof (sig_r_length sg Hl) as H32. assert (Ho : P256_HALF_ORDER < P256_ORDER) by reflexivity.
  set (s' := if P256_HALF_ORDER <? sig_s sg then P256_ORDER - sig_s sg else sig_s sg) in *.
  assert (Hcase : s' = sig_s sg \/ s' = P256_ORDER - sig_s sg).
  { unfold s'. destruct (_ <? _); [by right|by left]. }
  clearbody s'. assert (Hs32 : 0 <= s' < 256 ^ Z.of_nat 32) by (split; [apply Z.lt_le_incl, Hh|apply P256_bound; eapply Z.le_lt_trans; [apply Hh|exact Ho]]).
  destruct (sig_parts (slice sg 0 32) s' H32 Hs32) as (P1 & P2 & P3).
  rewrite <- Eo in P1, P2, P3.
  assert (Hbo : bytes_ok out).
  { rewrite Eo. apply bytes_ok_app. split; [by apply Forall_slice|apply be_bytes_ok]. }
  assert (Hlow : isP1363LowS out = true).
  { apply isP1363LowS_spec; [done|]. rewrite P1, P2, P3. split; [done|]. split; [exact Hr|exact Hh]. }
  split; [done|]. split; [done|]. split; [done|]. split; [|split].
  - by rewrite P3.
  - by apply normalize_fixed.
  - intros Hlsg. pose proof (normalize_fixed sg Hb Hlsg). congruence.
Qed.

(** C21. Normalising a signature either refuses it, exactly when its length or
    a scalar is out of range, or gives a 64-byte signature with the same [r]
    and with [s] or its negation modulo the order, whichever is low; a low
    signature is left as it is, so normalising twice changes nothing. *)
Theorem normalizeP1363LowS_correct (sg : bytes) (Hb : bytes_ok sg) :
  match normalizeP1363LowS sg with
  | Throw _ => zlen sg <> 64 \/ ~ in_order (sig_r sg) \/ ~ in_order (sig_s sg)
  | Ok out =>
      zlen sg = 64 /\ in_order (sig_r sg) /\ in_order (sig_s sg) /\
      bytes_ok out /\ isP1363LowS out = true /\ sig_r out = sig_r sg /\
      (sig_s out = sig_s sg \/ sig_s out = P256_ORDER - sig_s sg) /\
      normalizeP1363LowS out = Ok out /\ (isP1363LowS sg = true -> out = sg)
  end.
Proof. exact (normalize_result sg Hb). Qed.

Lemma normalizeP1363LowS_correct_witness :
  let sg := be_bytes 32 7 ++ be_bytes 32 (P256_ORDER - 5) in
  bytes_ok sg /\ isP1363LowS sg = false /\
  match normalizeP1363LowS sg with Ok out => isP1363LowS out = true | Throw _ => False end.
Proof.
  cbv zeta. set (sg := be_bytes 32 7 ++ be_bytes 32 (P256_ORDER - 5)).
  assert (Hb : bytes_ok sg) by (apply bytes_ok_app; split; apply be_bytes_ok).
  split; [exact Hb|]. split; [vm_compute; reflexivity|].
  pose proof (normalizeP1363LowS_correct sg Hb) as Hn.
  assert (E : is_ok (normalizeP1363LowS sg) = true) by (vm_compute; reflexivity).
  destruct (normalizeP1363LowS sg) as [out|e]; [|discriminate E]. apply Hn.
Defined.
