(* ===== verification/PeerDocuments.v ===== *)
(** * Peer trust documents
      ([src/desktop/frontend/src/lib/peer/documents.ts])

    A space is anchored in the genesis its creator signs. Members hold grants,
    each signed by the creator or by a member whose own grant comes with it;
    invitations, connection bundles and revocations are signed by members. The
    verification functions below accept a token only with all of this in
    order. Dates are milliseconds, [None] for the invalid date. WebCrypto is
    [PeerCrypto]; the URL parser, the fatal UTF-8 decoder and the locale's
    order of strings are [Platform]. *)

From S2P Require Import Prelude Bytes JsString Base64Url JsMap Json DirectCrypto PeerIdentity.

(** [new URL(text)] *)
Record URLParts := mkURL {
  url_protocol : jsstr; url_hostname : jsstr; url_port : jsstr; url_pathname : jsstr;
  url_username : jsstr; url_password : jsstr; url_search : jsstr; url_hash : jsstr;
}.

Class Platform := {
  decodeFatal : bytes -> option jsstr;
  new_URL : jsstr -> option URLParts;
  localeCompare : jsstr -> jsstr -> Z;
}.

Definition MAX_TOKEN_BYTES : Z := Z.shiftl 64 10.
Definition CLOCK_SKEW_SECONDS : Z := 5 * 60.

(** ** The documents *)

Inductive PeerPermission := P_view | P_control | P_full.
#[export] Instance PeerPermission_eq_dec : EqDecision PeerPermission.
Proof. solve_decision. Defined.

Record SpaceGenesisDocument := mkGenesisDoc {
  space_id : jsstr; creator_peer_id : jsstr; creator_public_key : jsstr; created_at : Z;
}.

Record VerifiedGenesis := mkVerifiedGenesis {
  gen_token : jsstr; gen_document : SpaceGenesisDocument; gen_publicKey : bytes; gen_hash : jsstr;
}.

Record DeviceGrantDocument := mkGrantDoc {
  serial : jsstr;
  subject_peer_id : jsstr;
  issuer_peer_id : jsstr;
  issuer_membership : option Json;  (* not read when the creator is the issuer *)
  issued_at : Z;
  expires_at : option Z;
  permission : PeerPermission;
  allowed_session_ids : list jsstr;
  can_invite : bool;
  can_sync_secrets : bool;
  delegation_depth : Z;
  subject_public_key : jsstr;
  subject_wrapping_public_key : jsstr;
}.

Record VerifiedGrant := mkVerifiedGrant {
  vg_token : jsstr; vg_document : DeviceGrantDocument; vg_publicKey : bytes; vg_wrappingPublicKey : bytes;
}.

Record CapabilityTicketDocument := mkTicketDoc {
  t_redemption_peer_id : jsstr;
  t_issuer_peer_id : jsstr;
  t_pairing_secret : jsstr;
  t_invite_id : jsstr;
  t_issued_at : Z;
  t_expires_at : Z;
  t_permission : PeerPermission;
  t_allowed_session_ids : list jsstr;
  t_can_invite : option Json;
  t_can_sync_secrets : option Json;
}.

Inductive RouteKind := K_quick_tunnel | K_rendezvous | K_manual_lan.
#[export] Instance RouteKind_eq_dec : EqDecision RouteKind.
Proof. solve_decision. Defined.

Record ConnectionRouteDocument := mkRoute { route_kind : RouteKind; route_url : jsstr; topic : option jsstr }.

Record VerifiedConnectionBundle := mkVerifiedBundle {
  vb_token : jsstr;
  vb_issuer_peer_id : jsstr;
  vb_issuer_membership : option Json;
  vb_ticket_token : option Json;           (* document.ticket *)
  vb_expires_at : Z;
  vb_genesis : VerifiedGenesis;
  vb_issuer : VerifiedGrant;
  vb_ticket : option CapabilityTicketDocument;
  vb_route : ConnectionRouteDocument;
}.

Inductive RevocationKind := R_member | R_grant | R_invitation_batch.
#[export] Instance RevocationKind_eq_dec : EqDecision RevocationKind.
Proof. solve_decision. Defined.

Record RevocationDocument := mkRevocationDoc {
  revocation_id : jsstr; r_kind : RevocationKind; target_id : jsstr; actor_peer_id : jsstr; r_created_at : Z;
}.

Record VerifiedRevocation := mkVerifiedRevocation {
  vr_token : jsstr; vr_document : RevocationDocument; vr_hash : jsstr;
}.

(** ** Checks of fields *)

Fixpoint matches (pattern : list (Z -> bool)) (s : jsstr) : bool :=
  match pattern, s with
  | [], [] => true
  | p :: pattern, c :: s => p c && matches pattern s
  | _, _ => false
  end.

(** [/^[0-9a-f]{8}-[0-9a-f]{4}-[1-5][0-9a-f]{3}-[89ab][0-9a-f]{3}-[0-9a-f]{12}$/i] *)
Definition uuid_text (s : jsstr) : bool :=
  let hex n := replicate n is_hex in
  let hyphen := [fun c => c =? 45] in
  matches (hex 8%nat ++ hyphen ++ hex 4%nat ++ hyphen
           ++ [fun c => (49 <=? c) && (c <=? 53)] ++ hex 3%nat ++ hyphen
           ++ [fun c => bool_decide (c ∈ js "89abAB")] ++ hex 3%nat ++ hyphen ++ hex 12%nat) s.

Definition isUUID (value : option Json) : bool :=
  match as_string value with Some s => uuid_text s | None => false end.

Definition isPermission (value : option Json) : option PeerPermission :=
  if is_text value (js "view") then Some P_view
  else if is_text value (js "control") then Some P_control
  else if is_text value (js "full") then Some P_full
  else None.

Definition isDigest (value : option Json) : bool :=
  match as_string value with
  | Some s => match base64URLToBytes s with Ok p => zlen p =? 32 | Throw _ => false end
  | None => false
  end.

Definition permissionRank (p : PeerPermission) : Z :=
  match p with P_view => 1 | P_control => 2 | P_full => 3 end.

(** The value of a field that was checked to be an integer, or a permission. *)
Definition int_of (j : option Json) : Z := default 0 (safe_integer j).
Definition permission_field (j : option Json) : PeerPermission := default P_view (isPermission j).
Definition is_safe_integer (j : option Json) : bool := bool_decide (safe_integer j <> None).

(** [Math.floor(now.getTime() / 1000)], and comparisons with it: those with
    [NaN] are false. *)
Definition now_seconds (now : option Z) : option Z := option_map (fun ms => ms / 1000) now.
Definition gt_number (a : Z) (b : option Z) : bool := match b with Some b => b <? a | None => false end.
Definition number_ge (a : option Z) (b : Z) : bool := match a with Some a => b <=? a | None => false end.
Definition plus_skew (seconds : option Z) : option Z := option_map (fun s => s + CLOCK_SKEW_SECONDS) seconds.

(** [new Date(seconds * 1000)] *)
Definition date_of_seconds (seconds : Z) : option Z :=
  if Z.abs (seconds * 1000) <=? 8640000000000000 then Some (seconds * 1000) else None.

Definition exactKeys (value : list (jsstr * Json)) (required optional : list string) : result unit :=
  throw_if (existsb (fun k => negb (map_has value (js k))) required
            || existsb (fun k => negb (existsb (fun a => bool_decide (js a = k)) (required ++ optional))) (map_keys value))
    "peer document: unknown or missing field" ;;;
  Ok tt.

(** A parsed value where the code calls a function of strings on it. *)
Definition text_arg (j : option Json) : result jsstr :=
  match as_string j with Some s => Ok s | None => Throw "TypeError: not a string" end.

Definition bytes_arg (j : option Json) : result bytes := let* s := text_arg j in base64URLToBytes s.

Section Documents.
Context `{Crypto} `{PeerCrypto} `{JsText} `{Platform}.

Definition parseSigned (prefix : string) (token : jsstr) : result (bytes * bytes * list (jsstr * Json)) :=
  let size := zlen (utf8_encode token) in
  throw_if ((size =? 0) || (MAX_TOKEN_BYTES <? size)) "peer document: token size" ;;;
  match split_on 46 token with
  | [p; payload; sig] =>
      throw_if (negb (bool_decide (p = js prefix))) "peer document: token prefix" ;;;
      let* raw := base64URLToBytes payload in
      let* signature := base64URLToBytes sig in
      throw_if (negb (isP1363LowS signature)) "peer document: invalid signature encoding" ;;;
      match decodeFatal raw with
      | None => Throw "peer document: invalid JSON"
      | Some text =>
          match JSON_parse text with
          | Throw _ => Throw "peer document: invalid JSON"
          | Ok (JObj document) => Ok (raw, signature, document)
          | Ok _ => Throw "peer document: invalid payload"
          end
      end
  | _ => Throw "peer document: token prefix"
  end.

Definition verifySignature (key raw signature : bytes) : result unit :=
  match verify_with key signature raw with
  | None => Throw "peer document: invalid public key"
  | Some false => Throw "peer document: invalid signature"
  | Some true => Ok tt
  end.

(** [new Set(child).size !== child.length] *)
Definition has_duplicates (l : list jsstr) : bool := negb (bool_decide (NoDup l)).

Definition validateScope (child : option Json) (parent : list jsstr) : result (list jsstr) :=
  match child with
  | Some (JArr l) =>
      let ids := map (fun id => text_of (Some id)) l in
      throw_if (existsb (fun id => negb (isUUID (Some id))) l || has_duplicates ids)
        "peer document: invalid session scope" ;;;
      throw_if (negb (bool_decide (parent = [])) && existsb (fun id => negb (bool_decide (id ∈ parent))) ids)
        "peer document: session scope broadened" ;;;
      Ok ids
  | _ => Throw "peer document: invalid session scope"
  end.

Definition token_hash (token : jsstr) : jsstr := bytesToBase64URL (sha256 (utf8_encode token)).

Definition verifyGenesis (token : jsstr) : result VerifiedGenesis :=
  let* parsed := parseSigned "apg1" token in
  let '(raw, signature, doc) := parsed in
  let* _ := exactKeys doc ["v"; "space_id"; "creator_peer_id"; "creator_public_key"; "created_at"] [] in
  let f k := field doc k in
  throw_if (negb (is_number (f "v") 1) || negb (isUUID (f "space_id")) || negb (is_string (f "creator_peer_id"))
            || negb (is_string (f "creator_public_key")) || negb (is_safe_integer (f "created_at"))
            || (int_of (f "created_at") <=? 0)) "peer document: invalid genesis" ;;;
  let* publicKey := bytes_arg (f "creator_public_key") in
  let* id := peerIDFromPublicKey publicKey in
  throw_if (negb (is_text (f "creator_peer_id") id)) "peer document: genesis peer mismatch" ;;;
  let* _ := verifySignature publicKey raw signature in
  Ok (mkVerifiedGenesis token
        (mkGenesisDoc (text_of (f "space_id")) (text_of (f "creator_peer_id"))
           (text_of (f "creator_public_key")) (int_of (f "created_at")))
        publicKey (token_hash token)).

(** What the issuer of a grant may hand on. [au_depth] is -1 for the creator. *)
Record Authority := mkAuthority {
  au_key : bytes;
  au_permission : PeerPermission;
  au_invite : bool;
  au_secrets : bool;
  au_scope : list jsstr;
  au_depth : Z;
}.

Definition creator_authority (genesis : VerifiedGenesis) : Authority :=
  mkAuthority (gen_publicKey genesis) P_full true true [] (-1).

Definition member_authority (issuer : VerifiedGrant) : Authority :=
  let d := vg_document issuer in
  mkAuthority (vg_publicKey issuer) (permission d) (can_invite d) (can_sync_secrets d)
    (allowed_session_ids d) (delegation_depth d).

(** The checks on a grant that do not depend on its issuer, and its keys. *)
Definition read_grant (doc : list (jsstr * Json)) (genesis : VerifiedGenesis) (now : option Z)
    : result (DeviceGrantDocument * bytes * bytes) :=
  let* _ := exactKeys doc
    ["v"; "serial"; "space_id"; "space_genesis_hash"; "subject_peer_id"; "subject_public_key";
     "subject_wrapping_public_key"; "issuer_peer_id"; "issued_at"; "permission"; "allowed_session_ids";
     "can_invite"; "can_sync_secrets"; "delegation_depth"] ["issuer_membership"; "expires_at"] in
  let f k := field doc k in
  let issued := int_of (f "issued_at") in
  let expires := int_of (f "expires_at") in
  throw_if (negb (is_number (f "v") 1) || negb (isUUID (f "serial"))
            || negb (is_text (f "space_id") (space_id (gen_document genesis)))
            || negb (is_text (f "space_genesis_hash") (gen_hash genesis))
            || negb (is_string (f "subject_peer_id")) || negb (is_string (f "issuer_peer_id"))
            || bool_decide (isPermission (f "permission") = None)
            || negb (is_safe_integer (f "issued_at")) || (issued <=? 0)
            || gt_number issued (plus_skew (now_seconds now))
            || negb (is_safe_integer (f "delegation_depth")) || (int_of (f "delegation_depth") <? 0)
            || (8 <? int_of (f "delegation_depth"))
            || negb (is_boolean (f "can_invite")) || negb (is_boolean (f "can_sync_secrets")))
    "peer document: invalid membership" ;;;
  throw_if (bool_decide (f "expires_at" <> None)
            && (negb (is_safe_integer (f "expires_at")) || (expires <=? issued)
                || number_ge (now_seconds now) expires))
    "peer document: membership expired" ;;;
  let* publicKey := bytes_arg (f "subject_public_key") in
  let* wrappingPublicKey := bytes_arg (f "subject_wrapping_public_key") in
  throw_if (negb (zlen wrappingPublicKey =? 65)) "peer document: membership key mismatch" ;;;
  let* id := peerIDFromPublicKey publicKey in
  throw_if (negb (is_text (f "subject_peer_id") id)) "peer document: membership key mismatch" ;;;
  let* scope := validateScope (f "allowed_session_ids") [] in
  Ok (mkGrantDoc (text_of (f "serial")) id (text_of (f "issuer_peer_id")) (f "issuer_membership") issued
        (safe_integer (f "expires_at")) (permission_field (f "permission")) scope
        (truthy (f "can_invite")) (truthy (f "can_sync_secrets")) (int_of (f "delegation_depth"))
        (text_of (f "subject_public_key")) (text_of (f "subject_wrapping_public_key")),
      publicKey, wrappingPublicKey).

(** The checks of a grant against its issuer. *)
Definition check_authority (grant : DeviceGrantDocument) (issuer : Authority) : result unit :=
  throw_if (negb (au_invite issuer) || (permissionRank (au_permission issuer) <? permissionRank (permission grant))
            || (can_sync_secrets grant && negb (au_secrets issuer)))
    "peer document: membership broadens capabilities" ;;;
  throw_if (if 0 <=? au_depth issuer then negb (delegation_depth grant =? au_depth issuer + 1)
            else negb (bool_decide (issuer_peer_id grant = subject_peer_id grant))
                 && negb (delegation_depth grant =? 1))
    "peer document: invalid delegation depth" ;;;
  let* _ := validateScope (Some (JArr (map JStr (allowed_session_ids grant)))) (au_scope issuer) in
  Ok tt.

(** [verifyGrant(token, genesis, now, depth)] with [levels = 9 - depth]: the
    check [depth > 8] is the case without a level left. *)
Fixpoint verifyGrant_at (levels : nat) (genesis : VerifiedGenesis) (now : option Z) (token : jsstr)
    : result VerifiedGrant :=
  match levels with
  | O => Throw "peer document: membership chain too deep"
  | S levels =>
      let* parsed := parseSigned "apm1" token in
      let '(raw, signature, doc) := parsed in
      let* read := read_grant doc genesis now in
      let '(grant, publicKey, wrappingPublicKey) := read in
      let* authority :=
        if bool_decide (issuer_peer_id grant = creator_peer_id (gen_document genesis))
        then Ok (creator_authority genesis)
        else
          throw_if (negb (truthy (issuer_membership grant))) "peer document: missing issuer membership" ;;;
          let* membership := text_arg (issuer_membership grant) in
          let* issuer := verifyGrant_at levels genesis now membership in
          throw_if (negb (bool_decide (subject_peer_id (vg_document issuer) = issuer_peer_id grant)))
            "peer document: issuer mismatch" ;;;
          Ok (member_authority issuer) in
      let* _ := check_authority grant authority in
      let* _ := verifySignature (au_key authority) raw signature in
      Ok (mkVerifiedGrant token grant publicKey wrappingPublicKey)
  end.

Definition verifyGrant (token : jsstr) (genesis : VerifiedGenesis) (now : option Z) : result VerifiedGrant :=
  verifyGrant_at 9 genesis now token.

Definition verifyMembershipForPeer (token : jsstr) (genesis : VerifiedGenesis) (peerId : jsstr) (now : option Z)
    : result VerifiedGrant :=
  let* membership := verifyGrant token genesis now in
  throw_if (negb (bool_decide (subject_peer_id (vg_document membership) = peerId)))
    "peer document: membership subject mismatch" ;;;
  Ok membership.

Definition verifyInvitation (token : jsstr) (genesis : VerifiedGenesis) (now : option Z)
    : result (CapabilityTicketDocument * VerifiedGrant) :=
  let* parsed := parseSigned "atp1" token in
  let '(raw, signature, doc) := parsed in
  let* _ := exactKeys doc
    ["v"; "invite_id"; "batch_id"; "space_id"; "redemption_peer_id"; "space_genesis_hash"; "issuer_peer_id";
     "issuer_membership"; "pairing_secret"; "issued_at"; "expires_at"; "max_uses"; "permission";
     "allowed_session_ids"; "can_invite"; "can_sync_secrets"] [] in
  let f k := field doc k in
  let* membership := text_arg (f "issuer_membership") in
  let* issuer := verifyGrant membership genesis now in
  let granted := vg_document issuer in
  let issued := int_of (f "issued_at") in
  let expires := int_of (f "expires_at") in
  throw_if (negb (is_number (f "v") 1) || negb (isUUID (f "invite_id")) || negb (isUUID (f "batch_id"))
            || negb (is_text (f "space_id") (space_id (gen_document genesis)))
            || negb (is_text (f "space_genesis_hash") (gen_hash genesis))
            || negb (strict_equal (f "redemption_peer_id") (f "issuer_peer_id"))
            || negb (is_text (f "issuer_peer_id") (subject_peer_id granted))
            || negb (is_number (f "max_uses") 1) || bool_decide (isPermission (f "permission") = None)
            || negb (is_safe_integer (f "issued_at")) || negb (is_safe_integer (f "expires_at"))
            || (issued <=? 0) || gt_number issued (plus_skew (now_seconds now))
            || (expires <=? issued) || number_ge (now_seconds now) expires)
    "peer document: invalid invitation" ;;;
  let* secret := bytes_arg (f "pairing_secret") in
  throw_if (negb (zlen secret =? 32)
            || (permissionRank (permission granted) <? permissionRank (permission_field (f "permission")))
            || (truthy (f "can_sync_secrets") && negb (can_sync_secrets granted)))
    "peer document: invalid invitation" ;;;
  let* scope := validateScope (f "allowed_session_ids") (allowed_session_ids granted) in
  let* _ := verifySignature (vg_publicKey issuer) raw signature in
  Ok (mkTicketDoc (text_of (f "redemption_peer_id")) (text_of (f "issuer_peer_id")) (text_of (f "pairing_secret")) (text_of (f "invite_id"))
        issued expires (permission_field (f "permission")) scope (f "can_invite") (f "can_sync_secrets"), issuer).

(** [/^[a-z0-9-]+\.trycloudflare\.com$/i] *)
Fixpoint skip_label (s : jsstr) : jsstr :=
  match s with
  | c :: s' =>
      if ((97 <=? c) && (c <=? 122)) || ((65 <=? c) && (c <=? 90)) || ((48 <=? c) && (c <=? 57)) || (c =? 45)
      then skip_label s' else s
  | [] => []
  end.

Definition lower_ascii (s : jsstr) : jsstr :=
  map (fun c => if (65 <=? c) && (c <=? 90) then c + 32 else c) s.

Definition is_tunnel_host (host : jsstr) : bool :=
  let rest := skip_label host in
  (zlen rest <? zlen host) && bool_decide (lower_ascii rest = js ".trycloudflare.com").

Definition route_kind_of (value : option Json) : option RouteKind :=
  if is_text value (js "quick_tunnel") then Some K_quick_tunnel
  else if is_text value (js "rendezvous") then Some K_rendezvous
  else if is_text value (js "manual_lan") then Some K_manual_lan
  else None.

Definition non_empty (s : jsstr) : bool := negb (bool_decide (s = [])).

Definition validateRoute (route : Json) : result ConnectionRouteDocument :=
  match route with
  | JObj fields =>
      let* _ := exactKeys fields ["kind"; "url"] ["topic"] in
      match route_kind_of (field fields "kind"), as_string (field fields "url") with
      | Some kind, Some url =>
          throw_if ((2048 <? zlen url) || (bool_decide (field fields "topic" <> None) && negb (is_string (field fields "topic"))))
            "peer document: invalid route" ;;;
          match new_URL url with
          | None => Throw "TypeError: Invalid URL"
          | Some parsed =>
              throw_if (non_empty (url_username parsed) || non_empty (url_password parsed)
                        || non_empty (url_search parsed) || non_empty (url_hash parsed))
                "peer document: invalid route URL" ;;;
              throw_if (bool_decide (kind = K_quick_tunnel)
                        && (negb (bool_decide (url_protocol parsed = js "https:"))
                            || negb (is_tunnel_host (url_hostname parsed))
                            || non_empty (url_port parsed) || negb (bool_decide (url_pathname parsed = js "/"))))
                "peer document: invalid Quick Tunnel route" ;;;
              throw_if (bool_decide (kind = K_manual_lan)
                        && negb (bool_decide (url_protocol parsed = js "http:") || bool_decide (url_protocol parsed = js "https:")))
                "peer document: invalid LAN route" ;;;
              Ok (mkRoute kind url (as_string (field fields "topic")))
          end
      | _, _ => Throw "peer document: invalid route"
      end
  | _ => Throw "peer document: invalid route"
  end.

Fixpoint validate_routes (routes : list Json) : result (list ConnectionRouteDocument) :=
  match routes with
  | [] => Ok []
  | route :: rest =>
      let* r := validateRoute route in
      let* rs := validate_routes rest in
      Ok (r :: rs)
  end.

(** The token of a link, or the text itself. *)
Definition bundle_token (raw : jsstr) : result jsstr :=
  let token := trim raw in
  if starts_with (js "atc1.") token then Ok token
  else
    match new_URL token with
    | None => Throw "TypeError: Invalid URL"
    | Some parsed =>
        throw_if (non_empty (url_search parsed) || negb (starts_with (js "#atc1.") (url_hash parsed)))
          "peer document: invalid connection link" ;;;
        Ok (trim (drop 1 (url_hash parsed)))
    end.

(** [routes.find(quick tunnel) ?? routes.find(manual LAN)] *)
Definition client_route (routes : list ConnectionRouteDocument) : option ConnectionRouteDocument :=
  match List.find (fun r => bool_decide (route_kind r = K_quick_tunnel)) routes with
  | Some r => Some r
  | None => List.find (fun r => bool_decide (route_kind r = K_manual_lan)) routes
  end.

Definition verifyConnectionBundle (raw_text : jsstr) (now : option Z) : result VerifiedConnectionBundle :=
  let* token := bundle_token raw_text in
  let* parsed := parseSigned "atc1" token in
  let '(raw, signature, doc) := parsed in
  let* _ := exactKeys doc
    ["v"; "bundle_id"; "genesis"; "issuer_peer_id"; "issuer_membership"; "routes"; "created_at"; "expires_at"] ["ticket"] in
  let f k := field doc k in
  let* genesis_token := text_arg (f "genesis") in
  let* genesis := verifyGenesis genesis_token in
  let* membership := text_arg (f "issuer_membership") in
  let* issuer := verifyGrant membership genesis now in
  let granted := vg_document issuer in
  let* ticket :=
    if truthy (f "ticket") then
      let* ticket_token := text_arg (f "ticket") in
      let* verified := verifyInvitation ticket_token genesis now in
      throw_if (negb (bool_decide (vg_token (snd verified) = vg_token issuer))
                || negb (is_text (f "issuer_peer_id") (t_redemption_peer_id (fst verified))))
        "peer document: ticket issuer mismatch" ;;;
      Ok (Some (fst verified))
    else Ok None in
  let maxExpiry := match ticket with
                   | Some t => t_expires_at t
                   | None => default MAX_SAFE_INTEGER (expires_at granted)
                   end in
  let minCreated := match ticket with
                    | Some t => Z.max (issued_at granted) (t_issued_at t)
                    | None => issued_at granted
                    end in
  let created := int_of (f "created_at") in
  let expires := int_of (f "expires_at") in
  throw_if (negb (is_number (f "v") 1) || negb (isUUID (f "bundle_id"))
            || negb (is_text (f "issuer_peer_id") (subject_peer_id granted))
            || negb (is_safe_integer (f "created_at")) || negb (is_safe_integer (f "expires_at"))
            || (created <? minCreated) || gt_number created (plus_skew (now_seconds now))
            || (expires <=? created) || (maxExpiry <? expires) || number_ge (now_seconds now) expires)
    "peer document: invalid connection bundle" ;;;
  match f "routes" with
  | Some (JArr l) =>
      throw_if ((zlen l =? 0) || (8 <? zlen l)) "peer document: invalid connection bundle" ;;;
      let* routes := validate_routes l in
      let* _ := verifySignature (vg_publicKey issuer) raw signature in
      match client_route routes with
      | None => Throw "peer document: no client route"
      | Some route =>
          Ok (mkVerifiedBundle token (text_of (f "issuer_peer_id")) (f "issuer_membership") (f "ticket") expires genesis issuer ticket route)
      end
  | _ => Throw "peer document: invalid connection bundle"
  end.

Definition revocation_kind_of (value : option Json) : option RevocationKind :=
  if is_text value (js "member") then Some R_member
  else if is_text value (js "grant") then Some R_grant
  else if is_text value (js "invitation_batch") then Some R_invitation_batch
  else None.

(** Who may revoke what. *)
Definition may_revoke (actor : DeviceGrantDocument) (kind : RevocationKind) : bool :=
  if bool_decide (kind = R_invitation_batch) then can_invite actor
  else bool_decide (permission actor = P_full) && can_invite actor.

Definition verifyRevocation (token : jsstr) (genesis : VerifiedGenesis) : result VerifiedRevocation :=
  let* parsed := parseSigned "arv1" token in
  let '(raw, signature, doc) := parsed in
  let* _ := exactKeys doc
    ["v"; "revocation_id"; "space_id"; "space_genesis_hash"; "kind"; "target_id"; "actor_peer_id";
     "actor_membership"; "created_at"] [] in
  let f k := field doc k in
  let created := int_of (f "created_at") in
  match revocation_kind_of (f "kind") with
  | None => Throw "peer document: invalid revocation"
  | Some kind =>
      throw_if (negb (is_number (f "v") 1) || negb (isUUID (f "revocation_id"))
                || negb (is_text (f "space_id") (space_id (gen_document genesis)))
                || negb (is_text (f "space_genesis_hash") (gen_hash genesis))
                || negb (isDigest (f "actor_peer_id")) || negb (is_string (f "actor_membership"))
                || negb (is_safe_integer (f "created_at")) || (created <=? 0)
                || (if bool_decide (kind = R_member) then negb (isDigest (f "target_id")) else negb (isUUID (f "target_id"))))
        "peer document: invalid revocation" ;;;
      let* actor := verifyGrant (text_of (f "actor_membership")) genesis (date_of_seconds created) in
      let d := vg_document actor in
      throw_if (negb (may_revoke d kind) || negb (is_text (f "actor_peer_id") (subject_peer_id d)) || (created <? issued_at d))
        "peer document: revocation denied" ;;;
      let* _ := verifySignature (vg_publicKey actor) raw signature in
      Ok (mkVerifiedRevocation token
            (mkRevocationDoc (text_of (f "revocation_id")) kind (text_of (f "target_id")) (text_of (f "actor_peer_id")) created)
            (token_hash token))
  end.

(** *** The members of a space *)

(** [left] wins over [current] for the same peer. *)
Definition supersedes (left current : VerifiedGrant) : bool :=
  let l := vg_document left in
  let c := vg_document current in
  (issued_at c <? issued_at l)
  || ((issued_at l =? issued_at c)
      && (string_lt (serial l) (serial c)
          || (bool_decide (serial l = serial c) && string_lt (vg_token left) (vg_token current)))).

(** [if (current && current !== value) throw]: texts are never empty here. *)
Definition forks (current : option jsstr) (value : jsstr) : bool :=
  match current with
  | Some c => negb (bool_decide (c = [])) && negb (bool_decide (c = value))
  | None => false
  end.

Definition add_member (byPeer : list (jsstr * VerifiedGrant)) (grant : VerifiedGrant) : list (jsstr * VerifiedGrant) :=
  let peer := subject_peer_id (vg_document grant) in
  match map_get byPeer peer with
  | Some current => if supersedes grant current then map_set byPeer peer grant else byPeer
  | None => map_set byPeer peer grant
  end.

Fixpoint memberships_loop (tokens : list jsstr) (genesis : VerifiedGenesis) (now : option Z)
    (byPeer : list (jsstr * VerifiedGrant)) (bySerial : list (jsstr * jsstr)) : result (list (jsstr * VerifiedGrant)) :=
  match tokens with
  | [] => Ok byPeer
  | token :: rest =>
      let* grant := verifyGrant token genesis now in
      let s := serial (vg_document grant) in
      throw_if (forks (map_get bySerial s) token) "peer document: membership serial fork" ;;;
      memberships_loop rest genesis now (add_member byPeer grant) (map_set bySerial s token)
  end.

(** The revocations in force: members and grants. *)
Fixpoint revocations_loop (tokens : list jsstr) (genesis : VerifiedGenesis) (now : option Z)
    (ids : list (jsstr * jsstr)) (members grants : list jsstr) : result (list jsstr * list jsstr) :=
  match tokens with
  | [] => Ok (members, grants)
  | token :: rest =>
      let* revocation := verifyRevocation token genesis in
      let d := vr_document revocation in
      throw_if (forks (map_get ids (revocation_id d)) (vr_hash revocation)) "peer document: revocation fork" ;;;
      let ids := map_set ids (revocation_id d) (vr_hash revocation) in
      if gt_number (r_created_at d) (now_seconds now) then revocations_loop rest genesis now ids members grants
      else
        match r_kind d with
        | R_member => revocations_loop rest genesis now ids (members ++ [target_id d]) grants
        | R_grant => revocations_loop rest genesis now ids members (grants ++ [target_id d])
        | R_invitation_batch => revocations_loop rest genesis now ids members grants
        end
  end.

(** [sort((left, right) => left.localeCompare(right))], which is stable. *)
Fixpoint insert_member (g : VerifiedGrant) (l : list VerifiedGrant) : list VerifiedGrant :=
  match l with
  | [] => [g]
  | h :: rest =>
      if 0 <? localeCompare (subject_peer_id (vg_document g)) (subject_peer_id (vg_document h))
      then h :: insert_member g rest else g :: l
  end.

Definition sort_members (l : list VerifiedGrant) : list VerifiedGrant := foldr insert_member [] l.

(** [firsts] is [new Set(tokens)] in its order of insertion. *)
Definition activeMemberships (tokens revocationTokens : list jsstr) (genesis : VerifiedGenesis) (now : option Z)
    : result (list VerifiedGrant) :=
  let* byPeer := memberships_loop (firsts tokens) genesis now [] [] in
  let* revoked := revocations_loop (firsts revocationTokens) genesis now [] [] [] in
  let '(revokedMembers, revokedGrants) := revoked in
  Ok (sort_members (filter (fun g => subject_peer_id (vg_document g) ∉ revokedMembers
                                      /\ serial (vg_document g) ∉ revokedGrants) (map_values byPeer))).
End Documents.
