(* ===== verification/PeerTrust.v ===== *)
(** * Peer trust: what an accepted membership means

    A grant that [verifyGrant] accepts is well typed and ends in the space's
    creator through a chain of signatures in which nobody hands on more
    permission or rights than he has. A session scope is handed on too, but it
    can be dropped: an empty one is accepted under any issuer. *)

From S2P Require Import Prelude Bytes JsString JsMap Json JsonText DirectCrypto PeerIdentity PeerDocuments.

(** ** The document and the record it is read as *)

(** The keys of [DeviceGrantDocument]. *)
Definition grant_keys : list string :=
  ["v"; "serial"; "space_id"; "space_genesis_hash"; "subject_peer_id"; "subject_public_key";
   "subject_wrapping_public_key"; "issuer_peer_id"; "issued_at"; "permission"; "allowed_session_ids";
   "can_invite"; "can_sync_secrets"; "delegation_depth"; "issuer_membership"; "expires_at"].

Definition field_is (doc : list (jsstr * Json)) (k : string) (j : Json) : Prop := field doc k = Some j.

Definition field_int (doc : list (jsstr * Json)) (k : string) (z : Z) : Prop := safe_integer (field doc k) = Some z.

(** The JSON object is a value of the declared interface, for the space of [g],
    and [d], [key] and [wrapping] are what it says. [issuer_membership] is
    whatever the field holds, if anything: only a grant whose issuer is not the
    creator has it read. *)
Record grant_says (g : VerifiedGenesis) (doc : list (jsstr * Json)) (d : DeviceGrantDocument) (key wrapping : bytes) : Prop := {
  gs_only : forall k, k ∈ map_keys doc -> k ∈ map js grant_keys;
  gs_version : is_number (field doc "v") 1 = true;
  gs_serial : field_is doc "serial" (JStr (serial d)) /\ uuid_text (serial d) = true;
  gs_subject : field_is doc "subject_peer_id" (JStr (subject_peer_id d));
  gs_issuer : field_is doc "issuer_peer_id" (JStr (issuer_peer_id d));
  gs_space : field_is doc "space_id" (JStr (space_id (gen_document g))) /\
             field_is doc "space_genesis_hash" (JStr (gen_hash g));
  gs_membership : field doc "issuer_membership" = issuer_membership d;
  gs_issued : field_int doc "issued_at" (issued_at d) /\ 0 < issued_at d;
  gs_expires : match field doc "expires_at" with
               | None => expires_at d = None
               | Some _ => exists z, expires_at d = Some z /\ field_int doc "expires_at" z /\ issued_at d < z
               end;
  gs_permission : isPermission (field doc "permission") = Some (permission d);
  gs_scope : field_is doc "allowed_session_ids" (JArr (map JStr (allowed_session_ids d))) /\
             Forall (fun id => uuid_text id = true) (allowed_session_ids d) /\ NoDup (allowed_session_ids d);
  gs_invite : field_is doc "can_invite" (JBool (can_invite d));
  gs_secrets : field_is doc "can_sync_secrets" (JBool (can_sync_secrets d));
  gs_depth : field_int doc "delegation_depth" (delegation_depth d) /\ 0 <= delegation_depth d <= 8;
  gs_key : field_is doc "subject_public_key" (JStr (subject_public_key d)) /\
           base64URLToBytes (subject_public_key d) = Ok key;
  gs_wrapping : field_is doc "subject_wrapping_public_key" (JStr (subject_wrapping_public_key d)) /\
                base64URLToBytes (subject_wrapping_public_key d) = Ok wrapping /\ zlen wrapping = 65;
}.

(** ** Reading fields *)

Lemma is_text_inv j s : is_text j s = true -> j = Some (JStr s).
Proof. unfold is_text. rewrite bool_decide_eq_true. unfold as_string. destruct j as [[]|]; naive_solver. Qed.

Lemma is_string_inv j : is_string j = true -> j = Some (JStr (text_of j)).
Proof. by destruct j as [[]|]. Qed.

Lemma isUUID_inv j : isUUID j = true -> j = Some (JStr (text_of j)) /\ uuid_text (text_of j) = true.
Proof. unfold isUUID. by destruct j as [[]|]. Qed.

Lemma is_boolean_inv j : is_boolean j = true -> j = Some (JBool (truthy j)).
Proof. by destruct j as [[]|]. Qed.

Lemma is_safe_integer_inv j : is_safe_integer j = true -> safe_integer j = Some (int_of j).
Proof. unfold is_safe_integer, int_of. rewrite bool_decide_eq_true. by destruct (safe_integer j). Qed.

Lemma permission_inv j : bool_decide (isPermission j = None) = false -> isPermission j = Some (permission_field j).
Proof. unfold permission_field. rewrite bool_decide_eq_false. by destruct (isPermission j). Qed.

Lemma bytes_arg_inv j p : bytes_arg j = Ok p -> exists s, j = Some (JStr s) /\ base64URLToBytes s = Ok p.
Proof. unfold bytes_arg, text_arg. destruct j as [[]|]; cbn; try done. eauto. Qed.

Lemma text_arg_inv j s : text_arg j = Ok s -> j = Some (JStr s).
Proof. unfold text_arg. destruct j as [[]|]; cbn; try done. by intros [= ->]. Qed.

Lemma exactKeys_inv doc required optional u :
  exactKeys doc required optional = Ok u -> forall k, k ∈ map_keys doc -> k ∈ map js (required ++ optional).
Proof.
  unfold exactKeys. intros E k Hk. destruct (_ || _) eqn:Ho; [done|]. apply orb_false_iff in Ho as [_ Ho].
  rewrite <- not_true_iff_false, existsb_exists in Ho.
  destruct (existsb (fun a => bool_decide (js a = k)) (required ++ optional)) eqn:Hx.
  - apply existsb_exists in Hx as (a & Ha & Hx). apply bool_decide_eq_true in Hx as <-.
    apply list_elem_of_In, in_map, Ha.
  - destruct Ho. exists k. split; [by apply list_elem_of_In|]. by rewrite Hx.
Qed.

Lemma strings_of l :
  existsb (fun id => negb (isUUID (Some id))) l = false ->
  l = map JStr (map (fun id => text_of (Some id)) l) /\ Forall (fun id => uuid_text id = true) (map (fun id => text_of (Some id)) l).
Proof.
  induction l as [|j l IH]; [done|]. cbn [existsb map]. rewrite orb_false_iff, negb_false_iff.
  intros [[Ej Hj]%isUUID_inv Hl]. destruct (IH Hl) as [E Hf]. injection Ej as Ej.
  split; [|by constructor]. by rewrite <- E, <- Ej.
Qed.

Lemma map_JStr_inj a b : map JStr a = map JStr b -> a = b.
Proof. revert b. induction a as [|x a IH]; intros [|y b]; cbn; try done. intros [= -> E]. f_equal. by apply IH. Qed.

(** A scope that is accepted, and the part of the parent's it keeps to. *)
Lemma validateScope_inv child parent ids :
  validateScope child parent = Ok ids ->
  child = Some (JArr (map JStr ids)) /\ Forall (fun id => uuid_text id = true) ids /\ NoDup ids /\
  (parent = [] \/ forall id, id ∈ ids -> id ∈ parent).
Proof.
  unfold validateScope. destruct child as [[]|]; try done. intros E.
  destruct (_ || _) eqn:Ho; [done|]. apply orb_false_iff in Ho as [Hu Hd].
  destruct (_ && _) eqn:Hp; [done|]. apply Ok_inj in E as <-. destruct (strings_of l Hu) as [El Hf].
  split; [by rewrite <- El|]. split; [done|]. split.
  { unfold has_duplicates in Hd. by apply negb_false_iff, bool_decide_eq_true in Hd. }
  apply andb_false_iff in Hp as [Hp|Hp]; [left; by apply negb_false_iff, bool_decide_eq_true in Hp|right].
  intros id Hid. rewrite <- not_true_iff_false, existsb_exists in Hp. destruct (decide (id ∈ parent)); [done|].
  destruct Hp. exists id. split; [by apply list_elem_of_In|]. by rewrite bool_decide_false.
Qed.

(** ** A grant by itself *)

Section Grants.
Context `{Crypto} `{PeerCrypto} `{JsText} `{Platform}.
Implicit Types (g : VerifiedGenesis) (v u : VerifiedGrant).

(** In force at [now]: issued, up to the allowed skew, and not expired. *)
Definition in_force (now : option Z) (d : DeviceGrantDocument) : Prop :=
  match now with
  | None => True
  | Some ms => issued_at d <= ms / 1000 + CLOCK_SKEW_SECONDS /\
               match expires_at d with Some e => ms / 1000 < e | None => True end
  end.

(** The check on [expires_at], which may be missing. *)
Lemma expires_inv j issued now :
  bool_decide (j <> None) && (negb (is_safe_integer j) || (int_of j <=? issued) || number_ge (now_seconds now) (int_of j)) = false ->
  (j = None /\ safe_integer j = None) \/
  exists z, safe_integer j = Some z /\ issued < z /\ number_ge (now_seconds now) z = false.
Proof.
  intros E. destruct j as [j|]; [|by left]. right. rewrite bool_decide_true in E by done. cbn [andb] in E.
  rewrite !orb_false_iff, negb_false_iff, Z.leb_gt in E. destruct E as [[Es Ei] En].
  apply is_safe_integer_inv in Es. eauto.
Qed.

Lemma read_grant_inv doc g now d key wrapping :
  read_grant doc g now = Ok (d, key, wrapping) ->
  grant_says g doc d key wrapping /\ in_force now d /\ peerIDFromPublicKey key = Ok (subject_peer_id d).
Proof.
  unfold read_grant. intros E. apply rbind_ok in E as (u & Ek & E). cbv zeta in E.
  pose proof (exactKeys_inv _ _ _ _ Ek) as Hkeys.
  match type of E with (if ?b then _ else _) = _ => destruct b eqn:Hv; [done|] end.
  match type of E with (if ?b then _ else _) = _ => destruct b eqn:He; [done|] end.
  apply rbind_ok in E as (pk & Ep & E). apply rbind_ok in E as (wk & Ew & E).
  match type of E with (if ?b then _ else _) = _ => destruct b eqn:Hw; [done|] end.
  apply rbind_ok in E as (pid & Ei & E).
  match type of E with (if ?b then _ else _) = _ => destruct b eqn:Hs; [done|] end.
  apply rbind_ok in E as (scope & Esc & E). apply Ok_inj in E. injection E as <- <- <-.
  rewrite !orb_false_iff, !negb_false_iff, !Z.leb_gt, !Z.ltb_ge in Hv.
  destruct Hv as ((((((((((((((V1 & V2) & V3) & V4) & V5) & V6) & V7) & V8) & V9) & V10) & V11) & V12) & V13) & V14) & V15).
  apply negb_false_iff in Hw, Hs. apply Z.eqb_eq in Hw.
  apply bytes_arg_inv in Ep as (pt & Ept & Ep), Ew as (wt & Ewt & Ew).
  destruct (validateScope_inv _ _ _ Esc) as (Sc1 & Sc2 & Sc3 & _).
  apply is_safe_integer_inv in V8, V11. apply is_text_inv in Hs, V3, V4.
  destruct (isUUID_inv _ V2) as [U1 U2]. apply permission_inv in V7.
  split; [constructor|]; cbn [serial subject_peer_id issuer_peer_id issuer_membership issued_at expires_at permission
    allowed_session_ids can_invite can_sync_secrets delegation_depth subject_public_key subject_wrapping_public_key]; try done.
  - by apply is_string_inv.
  - destruct (expires_inv _ _ _ He) as [[-> _]|(z & Ez & Hz & _)]; [done|].
    destruct (field doc "expires_at") eqn:Ee; [|done]. eexists. split_and!; [exact Ez| |done].
    unfold field_int. by rewrite Ee.
  - by apply is_boolean_inv.
  - by apply is_boolean_inv.
  - unfold field_is, text_of. by rewrite Ept.
  - unfold field_is, text_of. by rewrite Ewt.
  - split; [|done]. unfold in_force. destruct now as [ms|]; [|done]. cbn -[CLOCK_SKEW_SECONDS] in V10 |- *.
    apply Z.ltb_ge in V10. split; [done|].
    destruct (expires_inv _ _ _ He) as [[-> _]|(z & -> & _ & Hz)]; [done|]. cbn in Hz. by apply Z.leb_gt in Hz.
Qed.

(** ** Chains of grants *)

(** The token of [v] is signed under [key]: its payload is the document, and
    WebCrypto accepts the signature. *)
Definition signed_by g (key : bytes) v : Prop :=
  exists raw signature doc,
    parseSigned "apm1" (vg_token v) = Ok (raw, signature, doc) /\
    grant_says g doc (vg_document v) (vg_publicKey v) (vg_wrappingPublicKey v) /\
    ecdsa_verify key signature raw = true.

(** What every grant of a chain must be. *)
Definition standing g (now : option Z) v : Prop :=
  in_force now (vg_document v) /\ peerIDFromPublicKey (vg_publicKey v) = Ok (subject_peer_id (vg_document v)).

(** [v] has no more permission or right than its issuer, which may invite; and
    each session it lists is one its issuer lists, if that lists any. It may
    list none, which stands for every session, whatever its issuer lists. *)
Definition handed_on (d : DeviceGrantDocument) (issuer : Authority) : Prop :=
  au_invite issuer = true /\ permissionRank (permission d) <= permissionRank (au_permission issuer) /\
  (can_sync_secrets d = true -> au_secrets issuer = true) /\
  (au_scope issuer = [] \/ forall id, id ∈ allowed_session_ids d -> id ∈ au_scope issuer).

Fixpoint linked g (now : option Z) v (ancestors : list VerifiedGrant) : Prop :=
  standing g now v /\
  match ancestors with
  | [] =>
      issuer_peer_id (vg_document v) = creator_peer_id (gen_document g) /\
      signed_by g (gen_publicKey g) v /\
      (issuer_peer_id (vg_document v) = subject_peer_id (vg_document v) \/ delegation_depth (vg_document v) = 1)
  | u :: rest =>
      issuer_peer_id (vg_document v) = subject_peer_id (vg_document u) /\
      signed_by g (vg_publicKey u) v /\
      delegation_depth (vg_document v) = delegation_depth (vg_document u) + 1 /\
      handed_on (vg_document v) (member_authority u) /\ linked g now u rest
  end.

Lemma verifySignature_inv key raw sg x : verifySignature key raw sg = Ok x -> ecdsa_verify key sg raw = true.
Proof. unfold verifySignature, verify_with. destruct (p256_importable key); [|done]. by destruct (ecdsa_verify key sg raw). Qed.

Lemma check_authority_inv d a x :
  check_authority d a = Ok x ->
  handed_on d a /\
  (if 0 <=? au_depth a then delegation_depth d = au_depth a + 1
   else issuer_peer_id d = subject_peer_id d \/ delegation_depth d = 1).
Proof.
  unfold check_authority, handed_on. intros E.
  destruct (_ || _) eqn:Ho; [done|]. rewrite !orb_false_iff, negb_false_iff, Z.ltb_ge in Ho. destruct Ho as [[Hi Hr] Hs].
  match type of E with (if ?b then _ else _) = _ => destruct b eqn:Hd; [done|] end.
  apply rbind_ok in E as (ids & Esc & _). apply validateScope_inv in Esc as (Ej & _ & _ & Hp).
  injection Ej as Ej. apply map_JStr_inj in Ej as <-.
  split; [split_and!; try done|].
  - intros Hsec. rewrite Hsec in Hs. by apply negb_false_iff in Hs.
  - destruct (0 <=? au_depth a); [by apply negb_false_iff, Z.eqb_eq in Hd|].
    apply andb_false_iff in Hd as [Hd|Hd]; apply negb_false_iff in Hd; [left; by apply bool_decide_eq_true in Hd|right; by apply Z.eqb_eq].
Qed.

(** The chain of an accepted grant, one link for each level used. *)
Lemma verifyGrant_at_linked levels g now token v :
  verifyGrant_at levels g now token = Ok v ->
  vg_token v = token /\ exists ancestors, (S (length ancestors) <= levels)%nat /\ linked g now v ancestors.
Proof.
  revert token v. induction levels as [|levels IH]; intros token v E; [done|]. cbn [verifyGrant_at] in E.
  apply rbind_ok in E as ([[raw sg] doc] & Ep & E). apply rbind_ok in E as ([[d pk] wk] & Er & E).
  apply rbind_ok in E as (au & Ea & E). apply rbind_ok in E as (u1 & Ec & E). apply rbind_ok in E as (u2 & Es & E).
  apply Ok_inj in E as <-. split; [done|].
  destruct (read_grant_inv _ _ _ _ _ _ Er) as (Hsays & Hforce & Hpeer).
  apply verifySignature_inv in Es. destruct (check_authority_inv _ _ _ Ec) as [Hh Hd].
  assert (Hsig : signed_by g (au_key au) (mkVerifiedGrant token d pk wk)) by (by exists raw, sg, doc).
  destruct (bool_decide (issuer_peer_id d = creator_peer_id (gen_document g))) eqn:Hb.
  - apply Ok_inj in Ea as <-. apply bool_decide_eq_true in Hb. exists []. split; [cbn; lia|].
    split; [done|]. by split_and!.
  - destruct (negb (truthy (issuer_membership d))); [done|]. apply rbind_ok in Ea as (mt & Em & Ea).
    apply rbind_ok in Ea as (u & Ei & Ea). destruct (negb _) eqn:Hsub; [done|].
    apply Ok_inj in Ea as <-. apply negb_false_iff, bool_decide_eq_true in Hsub.
    destruct (IH _ _ Ei) as (_ & anc & Hlen & Hl). exists (u :: anc). split; [cbn; lia|].
    cbn [linked]. split; [done|]. split; [done|]. split; [done|]. split; [|by split].
    assert (Hdepth : (0 <=? au_depth (member_authority u)) = true).
    { apply Z.leb_le. cbn. assert (Hu : signed_by g (gen_publicKey g) u \/ exists k, signed_by g k u).
      { destruct anc; cbn in Hl; [left; tauto|right; eexists; apply Hl]. }
      destruct Hu as [(? & ? & ? & _ & [] & _)|(? & ? & ? & ? & _ & [] & _)]; tauto. }
    rewrite Hdepth in Hd. exact Hd.
Qed.

(** A grant that is not the creator's carries its issuer's membership. *)
Lemma verifyGrant_at_membership levels g now token v :
  verifyGrant_at levels g now token = Ok v ->
  issuer_peer_id (vg_document v) <> creator_peer_id (gen_document g) ->
  exists m, issuer_membership (vg_document v) = Some (JStr m) /\ m <> [].
Proof.
  destruct levels as [|levels]; [done|]. cbn [verifyGrant_at]. intros E Hi.
  apply rbind_ok in E as ([[raw sg] doc] & _ & E). apply rbind_ok in E as ([[d pk] wk] & _ & E).
  apply rbind_ok in E as (au & Ea & E). apply rbind_ok in E as (u1 & _ & E). apply rbind_ok in E as (u2 & _ & E).
  apply Ok_inj in E as <-. cbn [vg_document] in *. rewrite bool_decide_eq_false_2 in Ea by done.
  destruct (truthy (issuer_membership d)) eqn:Ht; [|done]. cbn [negb] in Ea. apply rbind_ok in Ea as (m & Em & _).
  apply text_arg_inv in Em. exists m. split; [done|]. rewrite Em in Ht. by intros ->.
Qed.

(** Authority along a chain: nobody has more than any ancestor. *)
Lemma linked_authority g now v ancestors :
  linked g now v ancestors ->
  forall a, a ∈ ancestors ->
    standing g now a /\ can_invite (vg_document a) = true /\
    permissionRank (permission (vg_document v)) <= permissionRank (permission (vg_document a)) /\
    (can_sync_secrets (vg_document v) = true -> can_sync_secrets (vg_document a) = true).
Proof.
  revert v. induction ancestors as [|u rest IH]; intros v Hl a Ha; [by apply not_elem_of_nil in Ha|].
  destruct Hl as (_ & _ & _ & _ & (Hi & Hr & Hs & _) & Hu). cbn in Hi, Hr, Hs.
  apply elem_of_cons in Ha as [->|Ha].
  - split; [|by split_and!]. destruct rest; apply Hu.
  - destruct (IH u Hu a Ha) as (A1 & A2 & A3 & A4). split_and!; [done|done|lia|auto].
Qed.

(** The depth counts the links. *)
Lemma linked_depth g now v ancestors :
  linked g now v ancestors -> Z.of_nat (length ancestors) <= delegation_depth (vg_document v) <= 8.
Proof.
  revert v. induction ancestors as [|u rest IH]; intros v Hl.
  - destruct Hl as (_ & _ & (? & ? & ? & _ & [] & _) & _). cbn. tauto.
  - destruct Hl as (_ & _ & (? & ? & ? & _ & [] & _) & Hd & _ & Hu). specialize (IH u Hu).
    destruct gs_depth0 as [_ Hb]. cbn [length]. lia.
Qed.
End Grants.

(** ** A space for the witnesses *)

Definition toy_sig (key msg : bytes) : bytes :=
  be_bytes 32 1 ++ be_bytes 32 (1 + (fold_left (fun a b => (a * 31 + b) mod 65521) (key ++ msg) 7)).

#[export] Instance toy_peer_crypto : PeerCrypto := {
  SigningKey := bytes;
  p256_importable key := zlen key =? 65;
  ecdsa_sign key msg := toy_sig key msg;
  ecdsa_verify key sg msg := bool_decide (sg = toy_sig key msg);
}.

#[export] Instance toy_platform : Platform := {
  decodeFatal p := Some p;
  new_URL _ := None;
  localeCompare a b := if string_lt a b then -1 else if bool_decide (a = b) then 0 else 1;
}.

Module Space.
Definition key (n : Z) : bytes := 4 :: n :: zeros 63.
Definition peer (n : Z) : jsstr := match peerIDFromPublicKey (key n) with Ok id => id | Throw _ => [] end.

Definition signed (prefix : string) (n : Z) (doc : list (jsstr * Json)) : jsstr :=
  let raw := JSON_stringify (JObj doc) in
  js prefix ++ js "." ++ bytesToBase64URL raw ++ js "." ++ bytesToBase64URL (toy_sig (key n) raw).

Definition text (n : Z) : Json := JStr (bytesToBase64URL (key n)).

Definition uuid (last : string) : jsstr := js "00000000-0000-4000-8000-00000000000" ++ js last.

Definition genesis_token : jsstr :=
  signed "apg1" 1 [(js "v", jint 1); (js "space_id", JStr (uuid "0")); (js "creator_peer_id", JStr (peer 1));
                   (js "creator_public_key", text 1); (js "created_at", jint 100)].

Definition genesis : VerifiedGenesis := Eval vm_compute in
  match verifyGenesis genesis_token with
  | Ok g => g
  | Throw _ => mkVerifiedGenesis [] (mkGenesisDoc [] [] [] 0) [] []
  end.

(** A grant of [issuer] to [subject]. *)
Definition grant (issuer subject : Z) (id permission : string) (scope : list jsstr) (invite : bool) (depth : Z)
    (membership : option jsstr) : jsstr :=
  signed "apm1" issuer
    ([(js "v", jint 1); (js "serial", JStr (uuid id)); (js "space_id", JStr (uuid "0"));
      (js "space_genesis_hash", JStr (gen_hash genesis)); (js "subject_peer_id", JStr (peer subject));
      (js "subject_public_key", text subject); (js "subject_wrapping_public_key", text subject);
      (js "issuer_peer_id", JStr (peer issuer)); (js "issued_at", jint 200); (js "permission", JStr (js permission));
      (js "allowed_session_ids", JArr (map JStr scope)); (js "can_invite", JBool invite);
      (js "can_sync_secrets", JBool false); (js "delegation_depth", jint depth)]
     ++ match membership with Some m => [(js "issuer_membership", JStr m)] | None => [] end).

(** A member confined to one session, and one it invited without confinement. *)
Definition confined : jsstr := grant 1 2 "1" "control" [uuid "5"] true 1 None.
Definition unconfined : jsstr := grant 2 3 "2" "control" [] false 2 (Some confined).

(** A grant of the creator whose [issuer_membership] is a number. *)
Definition odd : jsstr :=
  match parseSigned "apm1" confined with
  | Ok (_, _, doc) => signed "apm1" 1 (doc ++ [(js "issuer_membership", jint 7)])
  | Throw _ => []
  end.

(** A member that may not invite, and an invitation it signed. *)
Definition guest : jsstr := grant 1 4 "3" "view" [] false 1 None.
Definition invitation : jsstr :=
  signed "atp1" 4
    [(js "v", jint 1); (js "invite_id", JStr (uuid "6")); (js "batch_id", JStr (uuid "7"));
     (js "space_id", JStr (uuid "0")); (js "redemption_peer_id", JStr (peer 4));
     (js "space_genesis_hash", JStr (gen_hash genesis)); (js "issuer_peer_id", JStr (peer 4));
     (js "issuer_membership", JStr guest); (js "pairing_secret", JStr (bytesToBase64URL (zeros 32)));
     (js "issued_at", jint 300); (js "expires_at", jint 900); (js "max_uses", jint 1);
     (js "permission", JStr (js "view")); (js "allowed_session_ids", JArr []); (js "can_invite", JBool false);
     (js "can_sync_secrets", JBool false)].

Definition now : option Z := Some 400000.
End Space.

(** ** Theorems *)

Section Theorems.
Context `{Crypto} `{PeerCrypto} `{JsText} `{Platform}.

(** C19. An accepted membership ends in the creator of the space: there is a
    chain of at most nine grants, each in force, each for the holder of the
    key it names and signed by the key its issuer's grant names, the last by
    the creator. Every member above may invite and has at least the permission
    and the right to secrets of the member below. Of a scope only this holds:
    the sessions a link lists are among those its issuer lists, when the issuer
    lists any; a link that lists none, and so is for every session, is accepted
    under any issuer ([delegation_gaps]). The recursion is bounded by the
    depth. *)
Theorem membership_chain (genesis : VerifiedGenesis) (now : option Z) (token : jsstr) (v : VerifiedGrant)
    (Hok : verifyGrant token genesis now = Ok v) :
  vg_token v = token /\
  exists ancestors, linked genesis now v ancestors /\ (length ancestors <= 8)%nat /\
    Z.of_nat (length ancestors) <= delegation_depth (vg_document v) <= 8 /\
    forall a, a ∈ ancestors ->
      standing genesis now a /\ can_invite (vg_document a) = true /\
      permissionRank (permission (vg_document v)) <= permissionRank (permission (vg_document a)) /\
      (can_sync_secrets (vg_document v) = true -> can_sync_secrets (vg_document a) = true).
Proof.
  destruct (verifyGrant_at_linked 9 genesis now token v Hok) as (Ht & ancestors & Hlen & Hl).
  split; [done|]. exists ancestors. split; [done|]. split; [lia|]. split; [by eapply linked_depth|].
  intros a Ha. by eapply linked_authority.
Qed.

(** C20. The document of an accepted membership has the declared type: the
    required keys and no others but [expires_at] and [issuer_membership], each
    with a value of its type and range, the id of the space and the hash of its
    genesis being those of the genesis given; and the record that the program
    goes on with is that document. [issuer_membership] is a text that is not
    empty when the issuer is not the creator; in a grant of the creator it is
    not read, and may be missing or anything ([creator_membership_unread]). *)
Theorem grant_typed (genesis : VerifiedGenesis) (now : option Z) (token : jsstr) (v : VerifiedGrant)
    (Hok : verifyGrant token genesis now = Ok v) :
  exists raw signature doc,
    parseSigned "apm1" token = Ok (raw, signature, doc) /\
    grant_says genesis doc (vg_document v) (vg_publicKey v) (vg_wrappingPublicKey v) /\
    (issuer_peer_id (vg_document v) <> creator_peer_id (gen_document genesis) ->
     exists membership, field_is doc "issuer_membership" (JStr membership) /\ membership <> []).
Proof.
  pose proof (verifyGrant_at_membership 9 genesis now token v Hok) as Hm.
  destruct (verifyGrant_at_linked 9 genesis now token v Hok) as (<- & ancestors & _ & Hl).
  assert (Hs : exists key, signed_by genesis key v) by (destruct ancestors; eexists; apply Hl).
  destruct Hs as (key & raw & sg & doc & Hp & Hg & _). exists raw, sg, doc. split; [done|]. split; [done|].
  intros Hi. destruct (Hm Hi) as (m & Em & Hne). exists m. split; [|done]. unfold field_is. by rewrite (gs_membership _ _ _ _ _ Hg).
Qed.

(** Checking a session scope against any parent accepts the empty scope, which
    the transports read as every session. *)
Lemma empty_scope_accepted parent : validateScope (Some (JArr [])) parent = Ok [].
Proof. unfold validateScope. cbn. by rewrite andb_false_r. Qed.
End Theorems.

(** Two limits are not handed on. A member confined to one session can
    invite a member whose empty scope, which stands for all sessions, is
    accepted; and an invitation is accepted although its issuer may not invite
    anybody. *)
Theorem delegation_gaps :
  (exists u v, verifyGrant Space.confined Space.genesis Space.now = Ok u /\
     verifyGrant Space.unconfined Space.genesis Space.now = Ok v /\
     issuer_peer_id (vg_document v) = subject_peer_id (vg_document u) /\
     allowed_session_ids (vg_document u) = [Space.uuid "5"] /\ allowed_session_ids (vg_document v) = []) /\
  (exists ticket issuer, verifyInvitation Space.invitation Space.genesis Space.now = Ok (ticket, issuer) /\
     can_invite (vg_document issuer) = false).
Proof.
  split.
  - destruct (verifyGrant Space.confined Space.genesis Space.now) as [u|] eqn:Eu; [|by vm_compute in Eu].
    destruct (verifyGrant Space.unconfined Space.genesis Space.now) as [v|] eqn:Ev; [|by vm_compute in Ev].
    exists u, v. vm_compute in Eu, Ev. injection Eu as <-. injection Ev as <-. vm_compute. by split_and!.
  - destruct (verifyInvitation Space.invitation Space.genesis Space.now) as [[t i]|] eqn:E; [|by vm_compute in E].
    exists t, i. vm_compute in E. injection E as <- <-. by split.
Qed.

(** In a grant of the creator the membership of the issuer is not read, so that
    it need not have its declared type. *)
Lemma creator_membership_unread :
  exists v, verifyGrant Space.odd Space.genesis Space.now = Ok v /\ issuer_membership (vg_document v) = Some (jint 7).
Proof.
  destruct (verifyGrant Space.odd Space.genesis Space.now) as [v|] eqn:E; [|by vm_compute in E].
  exists v. split; [done|]. vm_compute in E. by injection E as <-.
Qed.

Lemma membership_chain_witness :
  exists v, verifyGrant Space.unconfined Space.genesis Space.now = Ok v /\ vg_token v = Space.unconfined.
Proof.
  destruct (verifyGrant Space.unconfined Space.genesis Space.now) as [v|e] eqn:E.
  - exists v. split; [reflexivity|].
    exact (proj1 (membership_chain Space.genesis Space.now Space.unconfined v E)).
  - exfalso. assert (Hok : is_ok (verifyGrant Space.unconfined Space.genesis Space.now) = true) by (vm_compute; reflexivity).
    rewrite E in Hok. discriminate Hok.
Defined.

Lemma grant_typed_witness :
  exists v raw signature doc, verifyGrant Space.unconfined Space.genesis Space.now = Ok v /\
    parseSigned "apm1" Space.unconfined = Ok (raw, signature, doc) /\
    field_is doc "space_id" (JStr (space_id (gen_document Space.genesis))).
Proof.
  destruct (verifyGrant Space.unconfined Space.genesis Space.now) as [v|e] eqn:E.
  - destruct (grant_typed Space.genesis Space.now Space.unconfined v E) as (raw & sg & doc & Hp & Hg & _).
    exists v, raw, sg, doc. split; [reflexivity|]. split; [exact Hp|]. exact (proj1 (gs_space _ _ _ _ _ Hg)).
  - exfalso. assert (Hok : is_ok (verifyGrant Space.unconfined Space.genesis Space.now) = true) by (vm_compute; reflexivity).
    rewrite E in Hok. discriminate Hok.
Defined.
