(* ===== verification/PeerMembers.v ===== *)
(** * The members of a space
      ([activeMemberships] of [src/desktop/frontend/src/lib/peer/documents.ts])

    The members in force are described without an order: the best grant of
    each peer among the accepted tokens, unless the peer or the grant is
    revoked. [activeMemberships] computes them from lists, whatever the order
    and the repetitions in these. *)

From stdpp Require Import sorting.
From S2P Require Import Prelude Bytes JsString Base64Url JsMap Json JsonText DirectCrypto PeerIdentity PeerDocuments PeerTrust.

(** [localeCompare] is a total preorder that tells texts of base64url apart. *)
Class LocaleLaws `{Platform} := {
  locale_total a b : localeCompare a b <= 0 \/ localeCompare b a <= 0;
  locale_trans a b c : localeCompare a b <= 0 -> localeCompare b c <= 0 -> localeCompare a c <= 0;
  locale_antisym a b :
    forallb is_b64url a = true -> forallb is_b64url b = true ->
    localeCompare a b <= 0 -> localeCompare b a <= 0 -> a = b;
}.

(** ** The better of two grants *)

Lemma supersedes_spec l c :
  supersedes l c = true <->
  issued_at (vg_document c) < issued_at (vg_document l) \/
  issued_at (vg_document l) = issued_at (vg_document c) /\
  (string_lt (serial (vg_document l)) (serial (vg_document c)) = true \/
   serial (vg_document l) = serial (vg_document c) /\ string_lt (vg_token l) (vg_token c) = true).
Proof.
  unfold supersedes. cbv zeta. rewrite !orb_true_iff, !andb_true_iff, !orb_true_iff, !andb_true_iff.
  by rewrite Z.ltb_lt, Z.eqb_eq, bool_decide_eq_true.
Qed.

Lemma supersedes_trans a b c : supersedes a b = true -> supersedes b c = true -> supersedes a c = true.
Proof.
  rewrite !supersedes_spec. intros [H1|[E1 H1]] [H2|[E2 H2]]; [left; lia..|]. right. split; [lia|].
  destruct H1 as [H1|[S1 H1]], H2 as [H2|[S2 H2]]; rewrite ?S1, <- ?S2; auto;
    [left|right; split; [congruence|]]; by eapply string_lt_trans.
Qed.

Lemma supersedes_irrefl a : supersedes a a = false.
Proof.
  apply not_true_is_false. rewrite supersedes_spec, !string_lt_irrefl. intros [H|[_ [H|[_ H]]]]; [lia|done..].
Qed.

(** Only the date, the serial and the token count, and they decide. *)
Definition rank (g : VerifiedGrant) : Z * jsstr * jsstr := (issued_at (vg_document g), serial (vg_document g), vg_token g).

Lemma supersedes_rank a b c : rank b = rank c -> supersedes a b = supersedes a c.
Proof. unfold rank, supersedes. by intros [= -> -> ->]. Qed.

Lemma supersedes_total a b : rank a <> rank b -> supersedes a b = true \/ supersedes b a = true.
Proof.
  intros Hne. rewrite !supersedes_spec.
  destruct (Z.lt_trichotomy (issued_at (vg_document a)) (issued_at (vg_document b))) as [?|[E|?]]; auto.
  rewrite E. destruct (decide (serial (vg_document a) = serial (vg_document b))) as [Es|Hs].
  - rewrite Es. destruct (string_lt_total (vg_token a) (vg_token b)) as [?|?]; [|auto 6..].
    intros Et. apply Hne. unfold rank. congruence.
  - destruct (string_lt_total _ _ Hs); auto 6.
Qed.

Lemma supersedes_neg a b c : supersedes a b = true -> supersedes c b = false -> supersedes a c = true.
Proof.
  intros Hab Hcb. destruct (decide (rank c = rank b)) as [E|Hne]; [by rewrite (supersedes_rank a c b E)|].
  destruct (supersedes_total _ _ Hne) as [H|H]; [congruence|by eapply supersedes_trans].
Qed.

(** ** Forks

    The loops remember the value met with each id and stop at another one. *)

Fixpoint no_fork (m : list (jsstr * jsstr)) (l : list (jsstr * jsstr)) : bool :=
  match l with
  | [] => true
  | (k, v) :: rest => negb (forks (map_get m k) v) && no_fork (map_set m k v) rest
  end.

Definition single_valued (l : list (jsstr * jsstr)) : Prop :=
  forall k v v', (k, v) ∈ l -> (k, v') ∈ l -> v = v'.

Lemma no_fork_spec m l :
  (forall k v, (k, v) ∈ l -> v <> []) -> (forall k v, map_get m k = Some v -> v <> []) ->
  no_fork m l = true <->
  single_valued l /\ forall k v c, (k, v) ∈ l -> map_get m k = Some c -> c = v.
Proof.
  unfold single_valued. revert m. induction l as [|[k v] l IH]; intros m Hl Hm; cbn [no_fork].
  { split; [|done]. intros _. split; intros ???; [intros H|intros H]; by apply not_elem_of_nil in H. }
  assert (Hf : negb (forks (map_get m k) v) = true <-> forall c, map_get m k = Some c -> c = v).
  { unfold forks. destruct (map_get m k) as [c|] eqn:E; [|split; [done|done]].
    rewrite (bool_decide_false (c = [])) by (by eapply Hm). cbn. rewrite negb_involutive, bool_decide_eq_true. naive_solver. }
  rewrite andb_true_iff, Hf, IH.
  2: { intros k' v' H'. apply (Hl k' v'). by right. }
  2: { intros k' v'. rewrite map_get_set. case_bool_decide; [|apply Hm]. intros [= <-]. apply (Hl k v). by left. }
  clear IH. split.
  - intros (Hk & Hs & Hr).
    assert (Hkey : forall v', (k, v') ∈ l -> v' = v).
    { intros v' H'. symmetry. apply (Hr k v' v); [done|]. by rewrite map_get_set, bool_decide_true. }
    split.
    + intros k' v1 v2. rewrite !elem_of_cons. intros [[= -> ->]|H1] [[= E1]|H2]; simplify_eq; eauto; symmetry; eauto.
    + intros k' v' c. rewrite elem_of_cons. intros [[= -> ->]|H'] Hc; [by apply Hk|].
      destruct (decide (k = k')) as [<-|Hne]; [by rewrite (Hkey _ H'); apply Hk|].
      apply (Hr k' v' c); [done|]. by rewrite map_get_set, bool_decide_false.
  - intros (Hs & Hr). split_and!.
    + intros c Hc. apply (Hr k v c); [by left|done].
    + intros k' v1 v2 H1 H2. apply (Hs k' v1 v2); by right.
    + intros k' v' c H'. rewrite map_get_set. case_bool_decide as Hd.
      * intros [= <-]. subst k'. apply (Hs k v v'); [by left|by right].
      * intros Hc. apply (Hr k' v' c); [by right|done].
Qed.

(** ** The loops *)

Definition peer_of (g : VerifiedGrant) : jsstr := subject_peer_id (vg_document g).
Definition serial_of (g : VerifiedGrant) : jsstr := serial (vg_document g).

Section Members.
Context `{Crypto} `{PeerCrypto} `{JsText} `{Platform}.
Context (genesis : VerifiedGenesis) (now : option Z).
Implicit Types (tokens revs : list jsstr) (g : VerifiedGrant) (grants : list VerifiedGrant) (rs : list VerifiedRevocation).

Definition verified_all tokens grants : Prop := Forall2 (fun t g => verifyGrant t genesis now = Ok g) tokens grants.
Definition revoked_all revs rs : Prop := Forall2 (fun t r => verifyRevocation t genesis = Ok r) revs rs.

Definition serials grants : list (jsstr * jsstr) := map (fun g => (serial_of g, vg_token g)) grants.
Definition hashes rs : list (jsstr * jsstr) := map (fun r => (revocation_id (vr_document r), vr_hash r)) rs.

Definition in_force_revocation (kind : RevocationKind) (r : VerifiedRevocation) : Prop :=
  r_kind (vr_document r) = kind /\ gt_number (r_created_at (vr_document r)) (now_seconds now) = false.
#[local] Instance in_force_dec kind r : Decision (in_force_revocation kind r).
Proof. unfold in_force_revocation. apply _. Defined.

Definition targets kind rs : list jsstr :=
  map (fun r => target_id (vr_document r)) (filter (in_force_revocation kind) rs).

Lemma targets_cons kind r rs :
  targets kind (r :: rs) =
  (if gt_number (r_created_at (vr_document r)) (now_seconds now) then []
   else if decide (r_kind (vr_document r) = kind) then [target_id (vr_document r)] else []) ++ targets kind rs.
Proof.
  unfold targets. rewrite filter_cons. destruct (decide (in_force_revocation kind r)) as [[-> ->]|Hn].
  - by rewrite decide_True.
  - destruct (gt_number _ _) eqn:Eg; [done|]. rewrite decide_False; [done|]. intros Ek. by apply Hn.
Qed.

Lemma verifyGrant_token t g : verifyGrant t genesis now = Ok g -> vg_token g = t.
Proof. intros E. by destruct (verifyGrant_at_linked 9 genesis now t g E). Qed.

Lemma memberships_loop_spec tokens byPeer bySerial r :
  memberships_loop tokens genesis now byPeer bySerial = Ok r <->
  exists grants, verified_all tokens grants /\ no_fork bySerial (serials grants) = true /\
    r = upsert_loop peer_of supersedes grants byPeer.
Proof.
  revert byPeer bySerial. induction tokens as [|t tokens IH]; intros byPeer bySerial; cbn [memberships_loop].
  - split; [intros [= <-]; exists []; by split_and!; [constructor| |]|].
    by intros (grants & ->%Forall2_nil_inv_l & _ & ->).
  - assert (Ha : forall g, add_member byPeer g = if (match map_get byPeer (peer_of g) with None => true | Some cur => supersedes g cur end)
                             then map_set byPeer (peer_of g) g else byPeer).
    { intros g. unfold add_member, peer_of. by destruct (map_get _ _); [destruct (supersedes _ _)|]. }
    destruct (verifyGrant t genesis now) as [g|e] eqn:E; cbn [rbind].
    + pose proof (verifyGrant_token _ _ E) as Ht. split.
      * destruct (forks _ _) eqn:Ef; [done|]. intros (grants & Hv & Hn & ->)%IH. exists (g :: grants).
        split_and!; [by constructor| |by cbn; rewrite Ha]. cbn. unfold serial_of. rewrite Ht, Ef. exact Hn.
      * intros (grants & (g' & grants' & Eg & Hv & ->)%Forall2_cons_inv_l & Hn & ->). rewrite E in Eg. apply Ok_inj in Eg as <-.
        cbn in Hn. unfold serial_of in Hn. rewrite Ht in Hn. apply andb_true_iff in Hn as [->%negb_true_iff Hn].
        apply IH. exists grants'. split_and!; [done..|]. cbn. by rewrite Ha.
    + split; [done|]. intros (grants & (g & grants' & Eg & _)%Forall2_cons_inv_l & _). congruence.
Qed.

Lemma revocations_loop_spec revs ids members held ms gs :
  revocations_loop revs genesis now ids members held = Ok (ms, gs) <->
  exists rs, revoked_all revs rs /\ no_fork ids (hashes rs) = true /\
    ms = members ++ targets R_member rs /\ gs = held ++ targets R_grant rs.
Proof.
  revert ids members held. induction revs as [|t revs IH]; intros ids members held; cbn [revocations_loop].
  - split.
    + intros [= <- <-]. exists []. unfold targets. cbn. rewrite !app_nil_r. by split_and!; [constructor|..].
    + intros (rs & ->%Forall2_nil_inv_l & _ & -> & ->). unfold targets. cbn. by rewrite !app_nil_r.
  - destruct (verifyRevocation t genesis) as [r|e] eqn:E; cbn [rbind].
    2: { split; [done|]. intros (rs & (r & rs' & Er & _)%Forall2_cons_inv_l & _). congruence. }
    set (ids' := map_set ids (revocation_id (vr_document r)) (vr_hash r)).
    assert (Hstep : (if gt_number (r_created_at (vr_document r)) (now_seconds now) then revocations_loop revs genesis now ids' members held
                     else match r_kind (vr_document r) with
                          | R_member => revocations_loop revs genesis now ids' (members ++ [target_id (vr_document r)]) held
                          | R_grant => revocations_loop revs genesis now ids' members (held ++ [target_id (vr_document r)])
                          | R_invitation_batch => revocations_loop revs genesis now ids' members held
                          end) = Ok (ms, gs) <->
                    exists rs, revoked_all revs rs /\ no_fork ids' (hashes rs) = true /\
                      ms = members ++ targets R_member (r :: rs) /\ gs = held ++ targets R_grant (r :: rs)).
    { setoid_rewrite targets_cons.
      destruct (gt_number _ _); [|destruct (r_kind (vr_document r))]; rewrite IH;
        try setoid_rewrite <- app_assoc; done. }
    split.
    + destruct (forks _ _) eqn:Ef; [done|]. intros (rs & Hv & Hn & Hm & Hg)%Hstep. exists (r :: rs).
      split_and!; [by constructor| |done|done]. cbn. rewrite Ef. exact Hn.
    + intros (rs & (r' & rs' & Er & Hv & ->)%Forall2_cons_inv_l & Hn & Hm & Hg). rewrite E in Er. apply Ok_inj in Er as <-.
      cbn in Hn. apply andb_true_iff in Hn as [->%negb_true_iff Hn]. apply Hstep. by exists rs'.
Qed.

(** ** The members, without an order *)

Definition granted tokens g : Prop := exists t, t ∈ tokens /\ verifyGrant t genesis now = Ok g.
Definition revoking revs (r : VerifiedRevocation) : Prop := exists t, t ∈ revs /\ verifyRevocation t genesis = Ok r.

(** Every token is accepted, and no serial or revocation id is used twice. *)
Record consistent tokens revs : Prop := {
  tokens_accepted t : t ∈ tokens -> is_ok (verifyGrant t genesis now) = true;
  revocations_accepted t : t ∈ revs -> is_ok (verifyRevocation t genesis) = true;
  serial_once g g' : granted tokens g -> granted tokens g' -> serial_of g = serial_of g' -> vg_token g = vg_token g';
  revocation_once r r' : revoking revs r -> revoking revs r' ->
    revocation_id (vr_document r) = revocation_id (vr_document r') -> vr_hash r = vr_hash r';
}.

Definition revokes revs (kind : RevocationKind) (id : jsstr) : Prop :=
  exists r, revoking revs r /\ in_force_revocation kind r /\ target_id (vr_document r) = id.

(** The best grant of its peer, neither the peer nor the grant revoked. *)
Definition member tokens revs g : Prop :=
  granted tokens g /\
  (forall g', granted tokens g' -> peer_of g' = peer_of g -> supersedes g' g = false) /\
  ~ revokes revs R_member (peer_of g) /\ ~ revokes revs R_grant (serial_of g).

Lemma all_accepted {A B} (f : A -> result B) (l : list A) :
  (forall x, x ∈ l -> is_ok (f x) = true) <-> exists ys, Forall2 (fun x y => f x = Ok y) l ys.
Proof.
  split.
  - induction l as [|x l IH]; intros Hok; [by exists []|].
    destruct IH as [ys Hys]; [intros; apply Hok; by right|].
    specialize (Hok x ltac:(by left)). destruct (f x) as [y|] eqn:E; [|done]. exists (y :: ys). by constructor.
  - intros [ys Hys] x Hx. apply list_elem_of_lookup in Hx as [i Hi].
    destruct (Forall2_lookup_l _ _ _ _ _ Hys Hi) as (y & _ & ->). done.
Qed.

Lemma accepted_in {A B} (f : A -> result B) (l : list A) ys y :
  Forall2 (fun x y => f x = Ok y) l ys -> y ∈ ys <-> exists x, x ∈ l /\ f x = Ok y.
Proof.
  intros Hys. split.
  - intros [i Hi]%list_elem_of_lookup. destruct (Forall2_lookup_r _ _ _ _ _ Hys Hi) as (x & Hx & E).
    exists x. split; [by eapply list_elem_of_lookup_2|done].
  - intros (x & [i Hi]%list_elem_of_lookup & E). destruct (Forall2_lookup_l _ _ _ _ _ Hys Hi) as (y' & Hy & E').
    assert (y' = y) as -> by congruence. by eapply list_elem_of_lookup_2.
Qed.

Lemma verifyGrant_nonempty t g : verifyGrant t genesis now = Ok g -> t <> [].
Proof. intros E ->. discriminate E. Qed.

Lemma verifyRevocation_hash t r : verifyRevocation t genesis = Ok r -> vr_hash r = token_hash t.
Proof.
  unfold verifyRevocation. intros E. apply rbind_ok in E as ([[raw sg] doc] & _ & E). apply rbind_ok in E as (? & _ & E).
  destruct (revocation_kind_of _); [|done]. destruct (_ || _); [done|]. apply rbind_ok in E as (actor & _ & E).
  destruct (_ || _); [done|]. apply rbind_ok in E as (? & _ & E). by apply Ok_inj in E as <-.
Qed.

Lemma token_hash_nonempty `{!CryptoLaws} t : token_hash t <> [].
Proof.
  unfold token_hash. set (d := sha256 _). intros E.
  assert (Hr : base64URLToBytes (bytesToBase64URL d) = Ok d).
  { apply base64URL_roundtrip; [apply sha256_bytes|]. intros Hd. pose proof (sha256_length (utf8_encode t)) as Hl. fold d in Hl. by rewrite Hd in Hl. }
  rewrite E in Hr. discriminate Hr.
Qed.

(** *** Sorting *)

Lemma insert_member_perm g l : insert_member g l ≡ₚ g :: l.
Proof. induction l as [|h l IH]; [done|]. cbn. destruct (_ <? _); [|done]. rewrite IH. constructor. Qed.

Lemma sort_members_perm l : sort_members l ≡ₚ l.
Proof. induction l as [|g l IH]; [done|]. cbn. by rewrite insert_member_perm, IH. Qed.

Definition peer_le (g h : VerifiedGrant) : Prop := localeCompare (peer_of g) (peer_of h) <= 0.

Lemma sort_members_sorted `{!LocaleLaws} l : StronglySorted peer_le (sort_members l).
Proof.
  induction l as [|g l IH]; [constructor|]. cbn [sort_members foldr]. fold (sort_members l).
  induction IH as [|h s Hs IHs Hh]; [repeat constructor|]. cbn [insert_member].
  fold (peer_of g) (peer_of h).
  destruct (Z.ltb_spec 0 (localeCompare (peer_of g) (peer_of h))) as [Hgt|Hle].
  - constructor; [done|]. rewrite insert_member_perm. constructor; [|done].
    unfold peer_le. destruct (locale_total (peer_of h) (peer_of g)); [done|lia].
  - constructor; [by constructor|]. constructor; [done|]. eapply Forall_impl; [exact Hh|].
    intros x Hx. unfold peer_le in *. by eapply locale_trans.
Qed.

(** *** The loops compute the members *)

Lemma best_of_peer grants g :
  (forall g g', g ∈ grants -> g' ∈ grants -> vg_token g = vg_token g' -> g = g') ->
  g ∈ map_values (upsert_loop peer_of supersedes grants []) <->
  g ∈ grants /\ forall g', g' ∈ grants -> peer_of g' = peer_of g -> supersedes g' g = false.
Proof.
  intros Hinj. rewrite upsert_values, upsert_get. cbn [map_get]. rewrite winner_best.
  - rewrite list_elem_of_filter. split; [intros [[_ ?] Hb]|intros [? Hb]]; (split; [done|]);
      intros g'; [intros ? ?; apply Hb|rewrite list_elem_of_filter; intros [? ?]; by apply Hb]. by apply list_elem_of_filter.
  - apply supersedes_trans.
  - apply supersedes_neg.
  - apply supersedes_irrefl.
  - intros c d [_ Hc]%list_elem_of_filter [_ Hd]%list_elem_of_filter.
    destruct (decide (vg_token c = vg_token d)) as [E|Hne]; [right; right; by apply Hinj|].
    destruct (supersedes_total c d) as [?|?]; auto. unfold rank. congruence.
Qed.

Lemma elem_targets kind rs id :
  id ∈ targets kind rs <-> exists r, r ∈ rs /\ in_force_revocation kind r /\ target_id (vr_document r) = id.
Proof.
  unfold targets. rewrite list_elem_of_fmap. setoid_rewrite list_elem_of_filter. naive_solver.
Qed.

Lemma granted_in tokens grants : verified_all (firsts tokens) grants -> forall g, g ∈ grants <-> granted tokens g.
Proof. intros Hv g. rewrite (accepted_in _ _ _ g Hv). unfold granted. by setoid_rewrite firsts_elem. Qed.

Lemma revoking_in revs rs : revoked_all (firsts revs) rs -> forall r, r ∈ rs <-> revoking revs r.
Proof. intros Hv r. rewrite (accepted_in _ _ _ r Hv). unfold revoking. by setoid_rewrite firsts_elem. Qed.

Lemma granted_inj tokens g g' : granted tokens g -> granted tokens g' -> vg_token g = vg_token g' -> g = g'.
Proof.
  intros (t & _ & E) (t' & _ & E') Ht. rewrite (verifyGrant_token _ _ E), (verifyGrant_token _ _ E') in Ht. congruence.
Qed.

Lemma single_valued_map {A} (f : A -> jsstr * jsstr) (l : list A) :
  single_valued (map f l) <-> forall x y, x ∈ l -> y ∈ l -> fst (f x) = fst (f y) -> snd (f x) = snd (f y).
Proof.
  unfold single_valued. split.
  - intros Hs x y Hx Hy E. apply (Hs (fst (f x))); [|rewrite E]; rewrite <- surjective_pairing; by apply list_elem_of_fmap_2.
  - intros Hs k v v' (x & Ex & Hx)%list_elem_of_fmap (y & Ey & Hy)%list_elem_of_fmap.
    pose proof (Hs x y Hx Hy) as H'. rewrite <- Ex, <- Ey in H'. by apply H'.
Qed.

Lemma no_fork_start l :
  (forall k v, (k, v) ∈ l -> v <> []) -> no_fork [] l = true <-> single_valued l.
Proof. intros Hl. rewrite no_fork_spec by done. split; [by intros []|]. by split. Qed.

Lemma consistent_spec `{!CryptoLaws} tokens revs :
  consistent tokens revs <->
  exists grants rs, verified_all (firsts tokens) grants /\ revoked_all (firsts revs) rs /\
    no_fork [] (serials grants) = true /\ no_fork [] (hashes rs) = true.
Proof.
  assert (Hg : forall grants, verified_all (firsts tokens) grants ->
    no_fork [] (serials grants) = true <->
    forall g g', granted tokens g -> granted tokens g' -> serial_of g = serial_of g' -> vg_token g = vg_token g').
  { intros grants Hv. pose proof (granted_in _ _ Hv) as Hin. rewrite no_fork_start.
    - unfold serials. rewrite single_valued_map. cbn. setoid_rewrite Hin. naive_solver.
    - intros k v (g & [= -> ->] & (t & _ & E)%Hin)%list_elem_of_fmap. rewrite (verifyGrant_token _ _ E). by eapply verifyGrant_nonempty. }
  assert (Hr : forall rs, revoked_all (firsts revs) rs ->
    no_fork [] (hashes rs) = true <->
    forall r r', revoking revs r -> revoking revs r' ->
      revocation_id (vr_document r) = revocation_id (vr_document r') -> vr_hash r = vr_hash r').
  { intros rs Hv. pose proof (revoking_in _ _ Hv) as Hin. rewrite no_fork_start.
    - unfold hashes. rewrite single_valued_map. cbn. setoid_rewrite Hin. naive_solver.
    - intros k v (r & [= -> ->] & (t & _ & E)%Hin)%list_elem_of_fmap. rewrite (verifyRevocation_hash _ _ E). apply token_hash_nonempty. }
  split.
  - intros [Ht Hrt Hs Hh].
    destruct (proj1 (all_accepted (fun t => verifyGrant t genesis now) (firsts tokens))) as [grants Hv];
      [intros t Hi; apply Ht, firsts_elem, Hi|].
    destruct (proj1 (all_accepted (fun t => verifyRevocation t genesis) (firsts revs))) as [rs Hvr];
      [intros t Hi; apply Hrt, firsts_elem, Hi|].
    exists grants, rs. split_and!; [done|done|by apply Hg|by apply Hr].
  - intros (grants & rs & Hv & Hvr & Hf & Hfr). split.
    + intros t Hi. apply (proj2 (all_accepted _ _) (ex_intro _ _ Hv)), firsts_elem, Hi.
    + intros t Hi. apply (proj2 (all_accepted _ _) (ex_intro _ _ Hvr)), firsts_elem, Hi.
    + by apply (Hg grants Hv).
    + by apply (Hr rs Hvr).
Qed.

Definition members_of grants rs : list VerifiedGrant :=
  sort_members (filter (fun g => subject_peer_id (vg_document g) ∉ targets R_member rs /\ serial (vg_document g) ∉ targets R_grant rs)
                  (map_values (upsert_loop peer_of supersedes grants []))).

Lemma activeMemberships_ok tokens revs ms :
  activeMemberships tokens revs genesis now = Ok ms <->
  exists grants rs, verified_all (firsts tokens) grants /\ revoked_all (firsts revs) rs /\
    no_fork [] (serials grants) = true /\ no_fork [] (hashes rs) = true /\ ms = members_of grants rs.
Proof.
  unfold activeMemberships. split.
  - intros E. apply rbind_ok in E as (byPeer & (grants & Hv & Hn & ->)%memberships_loop_spec & E).
    apply rbind_ok in E as ([gone_members gone_grants] & (rs & Hr & Hh & -> & ->)%revocations_loop_spec & E).
    apply Ok_inj in E as <-. by exists grants, rs.
  - intros (grants & rs & Hv & Hr & Hn & Hh & ->).
    rewrite (proj2 (memberships_loop_spec _ _ _ _)) by eauto. cbn [rbind].
    rewrite (proj2 (revocations_loop_spec _ _ _ _ _ _)) by eauto. done.
Qed.

Lemma members_of_in tokens revs grants rs g :
  verified_all (firsts tokens) grants -> revoked_all (firsts revs) rs ->
  g ∈ members_of grants rs <-> member tokens revs g.
Proof.
  intros Hv Hr. pose proof (granted_in _ _ Hv) as Hg. pose proof (revoking_in _ _ Hr) as Hrv.
  unfold members_of, member, revokes. rewrite sort_members_perm, list_elem_of_filter, best_of_peer, Hg.
  - rewrite !elem_targets. setoid_rewrite Hg. setoid_rewrite Hrv. fold (peer_of g) (serial_of g). tauto.
  - intros g1 g2. rewrite !Hg. apply granted_inj.
Qed.

Lemma members_of_peers grants rs : NoDup (map peer_of (members_of grants rs)).
Proof.
  assert (Hf : forall (P : VerifiedGrant -> Prop) `{!forall g, Decision (P g)} (l : list VerifiedGrant),
             NoDup (map peer_of l) -> NoDup (map peer_of (filter P l))).
  { intros P ? l Hl. eapply sublist_NoDup; [exact Hl|]. apply (fmap_sublist peer_of), sublist_filter. }
  unfold members_of. eapply NoDup_Permutation_proper; [apply Permutation_map, sort_members_perm|].
  apply Hf. rewrite upsert_value_keys. apply firsts_NoDup.
Qed.

Lemma active_spec `{!CryptoLaws} tokens revs :
  match activeMemberships tokens revs genesis now with
  | Ok ms => consistent tokens revs /\ NoDup (map peer_of ms) /\ forall g, g ∈ ms <-> member tokens revs g
  | Throw _ => ~ consistent tokens revs
  end.
Proof.
  destruct (activeMemberships tokens revs genesis now) as [ms|e] eqn:E.
  - apply activeMemberships_ok in E as (grants & rs & Hv & Hr & Hn & Hh & ->). split; [|split].
    + apply consistent_spec. by exists grants, rs.
    + apply members_of_peers.
    + intros g. by apply members_of_in.
  - intros (grants & rs & Hv & Hr & Hn & Hh)%consistent_spec.
    rewrite (proj2 (activeMemberships_ok _ _ (members_of grants rs))) in E; [done|]. by exists grants, rs.
Qed.

Lemma consistent_mono tokens revs tokens' revs' :
  (forall t, t ∈ tokens' -> t ∈ tokens) -> (forall t, t ∈ revs' -> t ∈ revs) ->
  consistent tokens revs -> consistent tokens' revs'.
Proof.
  intros Ht Hr [Ha Hb Hs Hi]. split; [auto|auto| |].
  - intros g g' (t & ? & ?) (t' & ? & ?). apply Hs; [exists t|exists t']; auto.
  - intros r r' (t & ? & ?) (t' & ? & ?). apply Hi; [exists t|exists t']; auto.
Qed.

(** The peer ids of members are texts of base64url. *)
Lemma granted_peer `{!CryptoLaws} tokens g : granted tokens g -> forallb is_b64url (peer_of g) = true.
Proof.
  intros (t & _ & E). destruct (verifyGrant_at_linked 9 genesis now t g E) as (_ & ancestors & _ & Hl).
  assert (Hs : standing genesis now g) by (destruct ancestors; apply Hl). destruct Hs as [_ Hid].
  unfold peerIDFromPublicKey in Hid. destruct (_ || _); [done|]. apply Ok_inj in Hid. unfold peer_of. rewrite <- Hid.
  rewrite bytesToBase64URL_eq. apply base64url_chars, sha256_bytes.
Qed.

(** The members are listed in the order of the locale, which is one order. *)
Lemma same_members `{!CryptoLaws} `{!LocaleLaws} tokens revs grants rs grants' rs' tokens' revs' :
  verified_all (firsts tokens) grants -> revoked_all (firsts revs) rs ->
  verified_all (firsts tokens') grants' -> revoked_all (firsts revs') rs' ->
  (forall g, member tokens revs g <-> member tokens' revs' g) ->
  members_of grants rs = members_of grants' rs'.
Proof.
  intros Hv Hr Hv' Hr' Hm. pose proof (fun g => members_of_in _ _ _ _ g Hv Hr) as I1.
  pose proof (fun g => members_of_in _ _ _ _ g Hv' Hr') as I2.
  assert (Hsame : forall g h, g ∈ members_of grants rs -> h ∈ members_of grants rs -> peer_of g = peer_of h -> g = h).
  { intros g h [i Hi]%list_elem_of_lookup [j Hj]%list_elem_of_lookup E.
    apply (list_lookup_fmap_Some_2 peer_of) in Hi as Hi', Hj as Hj'. rewrite E in Hi'.
    assert (i = j) as ->; [|congruence]. by eapply NoDup_lookup; [apply (members_of_peers grants rs)|..]. }
  apply (StronglySorted_unique_strong peer_le).
  - intros g h Hg Hh%I2%Hm%I1 Hle Hge. apply Hsame; [done..|].
    apply I1 in Hg as [Hg _]. apply I1 in Hh as [Hh _].
    apply locale_antisym; [by eapply granted_peer|by eapply granted_peer|exact Hle|exact Hge].
  - apply sort_members_sorted.
  - apply sort_members_sorted.
  - apply NoDup_Permutation; [eapply NoDup_fmap_1, (members_of_peers grants rs)|eapply NoDup_fmap_1, (members_of_peers grants' rs')|].
    intros g. by rewrite I1, I2.
Qed.
End Members.

(** ** A space with a revocation *)

#[export] Instance toy_locale : LocaleLaws.
Proof.
  assert (Hle : forall a b : jsstr, localeCompare a b <= 0 <-> string_lt a b = true \/ a = b).
  { intros a b. cbn. destruct (string_lt a b) eqn:E; [naive_solver lia|].
    case_bool_decide; naive_solver lia. }
  split.
  - intros a b. rewrite !Hle. destruct (decide (a = b)) as [|Hne]; [by auto|]. destruct (string_lt_total _ _ Hne); auto.
  - intros a b c. rewrite !Hle. intros [Hab| ->] [Hbc| <-]; auto. left. by eapply string_lt_trans.
  - intros a b _ _. rewrite !Hle. intros [Hab| ->] [Hba|E]; auto. by rewrite (string_lt_asym _ _ Hab) in Hba.
Qed.

Module Members.
Import Space.
Definition admin : jsstr := grant 1 5 "4" "full" [] true 1 None.
(** The administrator revokes the grant of the guest. *)
Definition revocation : jsstr :=
  signed "arv1" 5
    [(js "v", jint 1); (js "revocation_id", JStr (uuid "8")); (js "space_id", JStr (uuid "0"));
     (js "space_genesis_hash", JStr (gen_hash genesis)); (js "kind", JStr (js "grant"));
     (js "target_id", JStr (uuid "3")); (js "actor_peer_id", JStr (peer 5)); (js "actor_membership", JStr admin);
     (js "created_at", jint 350)].
Definition listed : list jsstr := [guest; admin; confined; admin].
Definition listed_again : list jsstr := [confined; guest; admin; guest; confined].
End Members.

(** C22. [activeMemberships] succeeds exactly when every token is accepted and
    no serial or revocation id stands for two tokens. It then lists the
    members without repetition: of each peer the best grant, unless a
    revocation in force names the peer or the grant. *)
Theorem active_memberships_correct `{CryptoLaws} `{PeerCrypto} `{JsText} `{Platform}
    (genesis : VerifiedGenesis) (now : option Z) (tokens revs : list jsstr) :
  match activeMemberships tokens revs genesis now with
  | Ok ms =>
      consistent genesis now tokens revs /\ NoDup (map peer_of ms) /\
      forall g, g ∈ ms <-> member genesis now tokens revs g
  | Throw _ => ~ consistent genesis now tokens revs
  end.
Proof. exact (active_spec genesis now tokens revs). Qed.

(** C23. The order in which tokens and revocations arrive, and repetitions in
    them, make no difference: lists with the same elements give the same
    members in the same order, or are both rejected. *)
Theorem members_order_independent `{CryptoLaws} `{PeerCrypto} `{JsText} `{LocaleLaws}
    (genesis : VerifiedGenesis) (now : option Z) (tokens revs tokens' revs' : list jsstr)
    (Ht : forall t, t ∈ tokens <-> t ∈ tokens') (Hr : forall t, t ∈ revs <-> t ∈ revs') :
  match activeMemberships tokens revs genesis now, activeMemberships tokens' revs' genesis now with
  | Ok ms, Ok ms' => ms = ms'
  | Throw _, Throw _ => True
  | _, _ => False
  end.
Proof.
  assert (Hg : forall g, granted genesis now tokens g <-> granted genesis now tokens' g).
  { intros g. unfold granted. by setoid_rewrite Ht. }
  assert (Hv : forall r, revoking genesis revs r <-> revoking genesis revs' r).
  { intros r. unfold revoking. by setoid_rewrite Hr. }
  assert (Hm : forall g, member genesis now tokens revs g <-> member genesis now tokens' revs' g).
  { intros g. unfold member, revokes. setoid_rewrite Hg. by setoid_rewrite Hv. }
  assert (Hc : consistent genesis now tokens revs <-> consistent genesis now tokens' revs').
  { split; apply consistent_mono; intros t; by rewrite ?Ht, ?Hr. }
  pose proof (active_spec genesis now tokens revs) as A1. pose proof (active_spec genesis now tokens' revs') as A2.
  destruct (activeMemberships tokens revs genesis now) as [ms|] eqn:E1, (activeMemberships tokens' revs' genesis now) as [ms'|] eqn:E2;
    [|tauto|tauto|done].
  apply activeMemberships_ok in E1 as (grants & rs & Hv1 & Hr1 & _ & _ & ->).
  apply activeMemberships_ok in E2 as (grants' & rs' & Hv2 & Hr2 & _ & _ & ->).
  by eapply same_members.
Qed.

Lemma active_memberships_correct_witness :
  exists ms, activeMemberships Members.listed [Members.revocation] Space.genesis Space.now = Ok ms /\
    NoDup (map peer_of ms) /\ length ms = 2%nat.
Proof.
  pose proof (active_memberships_correct Space.genesis Space.now Members.listed [Members.revocation]) as Ha.
  assert (Hn : match activeMemberships Members.listed [Members.revocation] Space.genesis Space.now with
               | Ok ms => length ms = 2%nat
               | Throw _ => False
               end) by (vm_compute; reflexivity).
  destruct (activeMemberships Members.listed [Members.revocation] Space.genesis Space.now) as [ms|e]; [|destruct Hn].
  exists ms. split; [reflexivity|]. split; [exact (proj1 (proj2 Ha))|exact Hn].
Defined.

Lemma members_order_independent_witness :
  exists ms, activeMemberships Members.listed [] Space.genesis Space.now = Ok ms /\
    activeMemberships Members.listed_again [] Space.genesis Space.now = Ok ms /\ length ms = 3%nat.
Proof.
  assert (Hsame : forall t : jsstr, t ∈ Members.listed <-> t ∈ Members.listed_again).
  { intros t. unfold Members.listed, Members.listed_again. rewrite !elem_of_cons. tauto. }
  pose proof (members_order_independent Space.genesis Space.now Members.listed [] Members.listed_again [] Hsame ltac:(done)) as Ho.
  assert (Hn : match activeMemberships Members.listed [] Space.genesis Space.now with
               | Ok ms => length ms = 3%nat
               | Throw _ => False
               end) by (vm_compute; reflexivity).
  destruct (activeMemberships Members.listed [] Space.genesis Space.now) as [ms|e]; [|destruct Hn].
  destruct (activeMemberships Members.listed_again [] Space.genesis Space.now) as [ms'|e']; [|destruct Ho].
  exists ms. split; [reflexivity|]. split; [by rewrite Ho|exact Hn].
Defined.
