(* ===== verification/PeerSession.v ===== *)
(** * The peer session connection ([class PeerSessionConnection] of
      [src/desktop/frontend/src/lib/peerSessionConnection.ts])

    A terminal session without an account: one transport at a time, a probe
    for a Quick Tunnel when a direct route is lost, and a handover back to the
    direct route that replaces the transport in use only when it is ready. The
    object and the run time it touches are one state; the transports are the
    environment: [Host] says how the calls on them end, and their callbacks
    are events that may come at any time, also from a transport that was
    closed. The handlers of the user interface are effects: they neither throw
    nor call back. The trace also records the two ways a transport can let the
    connection down without a word: a [start] that throws and a frame that it
    does not take. Times are whole milliseconds. *)

From S2P Require Import Prelude Bytes JsString JsMap Json Proto FsSegments DirectCrypto ConnWire EventLoop Transport NativeDirect.

(** How [transport.start()] ends: [StartFailed] reports the failure to
    [onFailure] before it returns. *)
Inductive StartOutcome := Started | StartFailed (error : jsstr) | StartThrew (error : jsstr).

(** The n-th value or call of the run time. *)
Class PeerHost := {
  randomUUID : nat -> jsstr;
  fallbackFSRequestID : nat -> jsstr;
  factory_error : nat -> option jsstr;        (* what the transport factory throws *)
  start_outcome : nat -> StartOutcome;
  send_outcome : nat -> SendOutcome;
  attempt_id_of : nat -> nat -> jsstr;        (* [nativeAttemptId?.() ?? ''] of a transport *)
  translate : string -> jsstr;
}.

(** *** State *)

Inductive TimerKind :=
  | ReconnectTimer
  | FailbackTimer (generation : Z)
  | ProbeTimer (probe : nat)
  | FSRequestTimer (requestID : jsstr) (promise : nat)
  | SessionCreateTimer (requestID : jsstr) (promise : nat)
  | ServiceOpenTimer (requestId : jsstr) (promise : nat).

Inductive Settlement :=
  | ResolveFS (response : list (jsstr * Json))
  | ResolveSession (sessionID : jsstr)
  | ResolveService (serviceId peerAttemptId : jsstr)
  | ResolvePaste
  | RejectWith (err : jsstr).

Inductive Effect :=
  | NewTransport (id : nat) (seq : Z) (r : NativePeerRoute)
  | CloseTransport (id : nat)
  | SendFrame (id : nat) (frame : bytes)
  | SetTimeout (id : nat) (delay : Z)
  | Settle (promise : nat) (s : Settlement)
  | CallbackThrew (id : nat) (err : jsstr)
  | OnOutput (seq : Z) (data : bytes)
  | OnMeta (meta : Json)
  | OnDriverChange (driver : jsstr) (isMe : bool) (name : jsstr)
  | OnClose (info : Json)
  | OnStatus (s : Status)
  | OnFSEvent (handler : nat) (event : list (jsstr * Json))
  | OnRouteChange (r : SessionRoute) (iceState candidateType : option jsstr) (setupTimeMs : option Z)
      (reason : option DirectFallbackReason)
  | StartRaised (id : nat) (err : jsstr)
  | SendRefused (id : nat) (frame : bytes).

(** A pending request: its generation, promise and timer, and for a service
    the id it was opened with and the attempt it belongs to. *)
Record Pending := mkPending { p_generation : Z; p_promise : nat; p_timer : nat }.
Record PendingService := mkPendingService { ps_pending : Pending; ps_serviceId : jsstr; ps_attemptId : jsstr }.

(** [PeerHandoverAttempt] *)
Record Handover := mkHandover {
  h_authenticated : bool; h_diagnostics : option DirectTransportDiagnostics; h_startedAt : Z; h_promoted : bool;
}.
#[export] Instance eta_handover : Eta Handover :=
  fun h => mkHandover (h_authenticated h) (h_diagnostics h) (h_startedAt h) (h_promoted h).

(** A transport, the generation its callbacks captured, and the attempt they
    belong to when it was made for a handover. *)
Record PeerTransport := mkTransport { t_generation : Z; t_handover : option Handover }.

Record PeerConn := mkPeerConn {
  sessionID : jsstr;
  sidBytes : bytes;
  clientID : jsstr;
  clientName : jsstr;
  canFallback : bool;                 (* [resolveQuickTunnelFallback] is given *)
  canFailback : bool;                 (* [resolveDirectFailback] is given *)
  failbackCooldownMs : option Z;
  transport : option nat;
  generation : Z;
  lastSeq : Z;
  authenticated : bool;
  ready : bool;
  detached : bool;
  suspended : bool;
  reconnectAttempts : Z;
  reconnectTimer : option nat;
  fallbackPending : bool;
  handover : option nat;
  failbackTimer : option nat;
  failbackProbe : option nat;
  failbackAttempts : Z;
  pendingInputs : list jsstr;
  pendingResize : option (Z * Z);
  pendingDriverClaim : bool;
  pendingFSRequests : list (jsstr * Pending);
  retiredFSRequestIDs : list jsstr;
  fsEventHandlers : list nat;
  pendingSessionCreates : list (jsstr * Pending);
  pendingServiceOpens : list (jsstr * PendingService);
  currentDriverClientID : jsstr;
  diagnostics : option DirectTransportDiagnostics;
  lastFailureReason : option DirectFallbackReason;
  startedAt : Z;
  route : NativePeerRoute;
}.
#[export] Instance eta_peer_conn : Eta PeerConn :=
  fun c => mkPeerConn (sessionID c) (sidBytes c) (clientID c) (clientName c) (canFallback c) (canFailback c)
    (failbackCooldownMs c) (transport c) (generation c) (lastSeq c) (authenticated c) (ready c) (detached c)
    (suspended c) (reconnectAttempts c) (reconnectTimer c) (fallbackPending c) (handover c) (failbackTimer c)
    (failbackProbe c) (failbackAttempts c) (pendingInputs c) (pendingResize c) (pendingDriverClaim c)
    (pendingFSRequests c) (retiredFSRequestIDs c) (fsEventHandlers c) (pendingSessionCreates c)
    (pendingServiceOpens c) (currentDriverClientID c) (diagnostics c) (lastFailureReason c) (startedAt c) (route c).

(** What waits for a route to be confirmed: [tryQuickTunnelFallback] or
    [probeDirectFailback], suspended at its race with a timer. *)
Inductive ProbeKind := FallbackProbe | FailbackProbe.
Record Probe := mkProbe { pr_kind : ProbeKind; pr_generation : Z; pr_timer : nat }.

(** A paste whose blob is being read. *)
Record Paste := mkPaste { pa_generation : Z; pa_transport : nat; pa_type : Z; pa_payload : bytes }.

Record PeerWorld := mkPeerWorld {
  this : PeerConn;
  transports : list PeerTransport;
  timers : list (nat * TimerKind);
  nextTimer : nat;
  nextPromise : nat;
  probes : list (nat * Probe);
  nextProbe : nat;
  pastes : list (nat * Paste);
  ticks : nat;
  now : Z;
  trace : list Effect;
}.
#[export] Instance eta_peer_world : Eta PeerWorld :=
  fun w => mkPeerWorld (this w) (transports w) (timers w) (nextTimer w) (nextPromise w) (probes w) (nextProbe w)
    (pastes w) (ticks w) (now w) (trace w).

Definition M (A : Type) : Type := Act PeerWorld A.
Definition self {A} (f : PeerConn -> A) : M A := gets (fun w => f (this w)).
Definition assign (f : PeerConn -> PeerConn) : M unit := modify (fun w => w <| this := f (this w) |>).
Definition emit (e : Effect) : M unit := modify (fun w => w <| trace := trace w ++ [e] |>).

(** The next value of the run time's supply. *)
Definition tick {A} (supply : nat -> A) : M A :=
  let! n := gets ticks in
  let! _ := modify (fun w => w <| ticks := S n |>) in
  ret (supply n).

Definition setTimeout (kind : TimerKind) (delay : Z) : M nat :=
  let! t := gets nextTimer in
  let! _ := modify (fun w => w <| nextTimer := S t |> <| timers := timers w ++ [(t, kind)] |>) in
  let! _ := emit (SetTimeout t delay) in
  ret t.

Definition clearTimeout (t : nat) : M unit :=
  modify (fun w => w <| timers := filter (fun x => fst x <> t) (timers w) |>).

Definition newPromise : M nat :=
  let! p := gets nextPromise in
  let! _ := modify (fun w => w <| nextPromise := S p |>) in
  ret p.

Definition settle (p : nat) (s : Settlement) : M unit := emit (Settle p s).

(** [Promise.reject(new Error(message))] *)
Definition rejected (message : jsstr) : M nat :=
  let! p := newPromise in
  let! _ := settle p (RejectWith message) in
  ret p.

(** [transport?.close()] *)
Definition close_transport (t : option nat) : M unit :=
  match t with Some t => emit (CloseTransport t) | None => ret tt end.

(** [transport.start()] *)
Definition transport_start `{PeerHost} (t : nat) : M StartOutcome :=
  let! outcome := tick start_outcome in
  let! _ := match outcome with StartThrew err => emit (StartRaised t err) | _ => ret tt end in
  ret outcome.

(** *** Which callbacks count *)

Definition isCurrent (g : Z) (t : nat) (c : PeerConn) : bool :=
  (g =? generation c) && bool_decide (transport c = Some t) && negb (detached c) && negb (suspended c).

Definition generation_of (t : nat) (w : PeerWorld) : Z :=
  match transports w !! t with Some x => t_generation x | None => 0 end.

Definition handover_of (t : nat) (w : PeerWorld) : option Handover :=
  match transports w !! t with Some x => t_handover x | None => None end.

(** [isHandoverCurrent], of the attempt that transport [t] was made for. *)
Definition isHandoverCurrent (t : nat) (w : PeerWorld) : bool :=
  let c := this w in
  match handover_of t w with
  | None => false
  | Some h =>
      if h_promoted h then isCurrent (generation_of t w) t c
      else bool_decide (handover c = Some t) && (generation_of t w =? generation c)
           && negb (detached c) && negb (suspended c)
  end.

Definition set_handover (t : nat) (f : Handover -> Handover) : M unit :=
  modify (fun w => w <| transports :=
    alter (fun x => mkTransport (t_generation x) (option_map f (t_handover x))) t (transports w) |>).

(** *** Notifications *)

Definition is_route (r : NativePeerRoute) (route : NativePeerRoute) : bool :=
  match r, route with
  | RouteDirect, RouteDirect | RouteLan, RouteLan | RouteQuickTunnel, RouteQuickTunnel => true
  | _, _ => false
  end.

(** [this.diagnostics?.route === r || this.route === r] *)
Definition on_route (c : PeerConn) (name : string) (r : NativePeerRoute) : bool :=
  bool_decide ((diagnostics c ≫= diagRoute) = Some (js name)) || is_route r (route c).

Definition connectingRoute (c : PeerConn) : SessionRoute :=
  if on_route c "lan" RouteLan then R_connecting_lan
  else if on_route c "quick_tunnel" RouteQuickTunnel then R_connecting_quick_tunnel
  else R_connecting_direct.

Definition connectedRoute (c : PeerConn) : SessionRoute :=
  if on_route c "lan" RouteLan then R_lan
  else if on_route c "quick_tunnel" RouteQuickTunnel then R_quick_tunnel
  else R_direct.

(** [value ? { value } : {}] *)
Definition given (v : option jsstr) : option jsstr :=
  match v with Some [] => None | _ => v end.

Definition emitRoute (r : SessionRoute) : M unit :=
  let! w := gets (fun w => w) in
  let c := this w in
  let setupTimeMs :=
    match r with
    | R_direct | R_lan | R_quick_tunnel => Some (Z.max 0 (now w - startedAt c))
    | _ => None
    end in
  emit (OnRouteChange r (given (diagnostics c ≫= iceState)) (given (diagnostics c ≫= candidateType))
          setupTimeMs (lastFailureReason c)).

Definition emitHandoverRoute (t : nat) : M unit :=
  let! w := gets (fun w => w) in
  let d := handover_of t w ≫= h_diagnostics in
  emit (OnRouteChange R_connecting_direct (given (d ≫= iceState)) (given (d ≫= candidateType)) None
          (lastFailureReason (this w))).

(** *** Timers *)

Definition clearReconnect : M unit :=
  let! t := self reconnectTimer in
  let! _ := match t with Some t => clearTimeout t | None => ret tt end in
  assign (fun c => c <| reconnectTimer := None |>).

Definition clearDirectFailbackTimer : M unit :=
  let! t := self failbackTimer in
  let! _ := match t with Some t => clearTimeout t | None => ret tt end in
  assign (fun c => c <| failbackTimer := None |>).

Definition scheduleReconnect : M unit :=
  let! c := self (fun c => c) in
  if detached c || suspended c || bool_decide (reconnectTimer c <> None) then ret tt else
  let! _ := assign (fun c => c <| reconnectAttempts := reconnectAttempts c + 1 |>) in
  let! t := setTimeout ReconnectTimer (reconnectDelay (reconnectAttempts c)) in
  assign (fun c => c <| reconnectTimer := Some t |>).

Definition defaultDirectFailbackCooldownMs : Z := 30000.
Definition maxDirectFailbackCooldownMs : Z := 5 * 60000.

Definition scheduleDirectFailback : M unit :=
  let! _ := clearDirectFailbackTimer in
  let! c := self (fun c => c) in
  if negb (canFailback c) || negb (is_route RouteQuickTunnel (route c)) || negb (ready c) || detached c
     || suspended c || bool_decide (handover c <> None) || bool_decide (failbackProbe c <> None) then ret tt else
  let base := Z.max 1 (default defaultDirectFailbackCooldownMs (failbackCooldownMs c)) in
  let delay := Z.min maxDirectFailbackCooldownMs (base * 2 ^ failbackAttempts c) in
  let! t := setTimeout (FailbackTimer (generation c)) delay in
  assign (fun c => c <| failbackTimer := Some t |>).

(** *** Pending requests *)

Fixpoint reject_all (pending : list Pending) (err : jsstr) : M unit :=
  match pending with
  | [] => ret tt
  | request :: rest =>
      let! _ := clearTimeout (p_timer request) in
      let! _ := settle (p_promise request) (RejectWith err) in
      reject_all rest err
  end.

Definition rejectPendingFSRequests (err : jsstr) : M unit :=
  let! pending := self (fun c => map_values (pendingFSRequests c)) in
  let! _ := assign (fun c => c <| pendingFSRequests := [] |>) in
  reject_all pending err.

Definition rejectPendingSessionCreates (err : jsstr) : M unit :=
  let! pending := self (fun c => map_values (pendingSessionCreates c)) in
  let! _ := assign (fun c => c <| pendingSessionCreates := [] |>) in
  reject_all pending err.

Definition rejectPendingServiceOpens (err : jsstr) : M unit :=
  let! pending := self (fun c => map ps_pending (map_values (pendingServiceOpens c))) in
  let! _ := assign (fun c => c <| pendingServiceOpens := [] |>) in
  reject_all pending err.

(** The four statements that give up the requests of a route. *)
Definition rejectPending : M unit :=
  let! _ := rejectPendingFSRequests (js "filesystem request failed: Peer route changed") in
  let! _ := rejectPendingSessionCreates (js "upstream_unavailable") in
  let! _ := rejectPendingServiceOpens (js "service preview failed: Peer route changed") in
  assign (fun c => c <| retiredFSRequestIDs := [] |>).

(** *** Losing a transport *)

Definition allowsQuickTunnelFallback (reason : DirectFallbackReason) : bool :=
  match reason with
  | signal_endpoint_unavailable | webrtc_unavailable | timeout | host_unavailable | ice_failed
  | direct_disconnected | transport_error => true
  | _ => false
  end.

(** The start of [tryQuickTunnelFallback] and [probeDirectFailback], up to the
    race of the probe with a second. *)
Definition start_probe (kind : ProbeKind) (g : Z) : M nat :=
  let! p := gets nextProbe in
  let! _ := modify (fun w => w <| nextProbe := S p |>) in
  let! t := setTimeout (ProbeTimer p) 1000 in
  let! _ := modify (fun w => w <| probes := probes w ++ [(p, mkProbe kind g t)] |>) in
  ret p.

Definition recover (g : Z) (error : jsstr) : M unit :=
  let! c := self (fun c => c) in
  if detached c || suspended c then ret tt else
  let! _ := clearDirectFailbackTimer in
  let! _ := rejectPending in
  let wasActive := ready c in
  let reason := directFallbackReason error wasActive in
  let! _ := assign (fun c => c <| authenticated := false |> <| ready := false |> <| lastFailureReason := Some reason |>) in
  let! _ := emit (OnStatus reconnecting) in
  let! c := self (fun c => c) in
  let! _ := emitRoute (connectingRoute c) in
  if is_route RouteDirect (route c) && allowsQuickTunnelFallback reason && canFallback c then
    let! _ := assign (fun c => c <| fallbackPending := true |>) in
    let! _ := start_probe FallbackProbe g in
    ret tt
  else scheduleReconnect.

Definition fail (g : Z) (t : nat) (error : jsstr) : M unit :=
  let! c := self (fun c => c) in
  if negb (isCurrent g t c) then ret tt else
  let! _ := assign (fun c => c <| transport := None |>) in
  let! _ := close_transport (Some t) in
  let! h := gets (fun w => option_map (fun h => generation_of h w) (handover (this w))) in
  if bool_decide (h = Some g) then assign (fun c => c <| authenticated := false |> <| ready := false |>)
  else recover g error.

Definition failHandover (t : nat) (error : jsstr) : M unit :=
  let! w := gets (fun w => w) in
  let promoted := match handover_of t w with Some h => h_promoted h | None => false end in
  if negb (isHandoverCurrent t w) || promoted then ret tt else
  let! _ := assign (fun c => c <| handover := None |>) in
  let! _ := close_transport (Some t) in
  let! previous := self transport in
  let! _ := assign (fun c => c <| transport := None |>) in
  let! _ := close_transport previous in
  let! _ := assign (fun c => c <| failbackAttempts := failbackAttempts c + 1 |>
                               <| lastFailureReason := Some (directFallbackReason error false) |>
                               <| route := RouteQuickTunnel |>) in
  recover (generation_of t w) error.

Definition cancelHandover (t : nat) : M unit :=
  let! w := gets (fun w => w) in
  let promoted := match handover_of t w with Some h => h_promoted h | None => false end in
  if negb (isHandoverCurrent t w) || promoted then ret tt else
  let! _ := assign (fun c => c <| handover := None |>) in
  let! _ := close_transport (Some t) in
  let! previous := self transport in
  let! _ := assign (fun c => c <| transport := None |>) in
  let! _ := close_transport previous in
  let! _ := assign (fun c => c <| failbackAttempts := failbackAttempts c + 1 |> <| lastFailureReason := None |>
                               <| diagnostics := Some (mkDiagnostics (Some (js "quick_tunnel")) None None) |>
                               <| authenticated := false |> <| ready := false |>) in
  let! _ := emit (OnStatus reconnecting) in
  let! _ := emitRoute R_connecting_quick_tunnel in
  scheduleReconnect.

(** The callback [onFailure] of transport [t]. *)
Definition on_failure (t : nat) (error : jsstr) : M unit :=
  let! w := gets (fun w => w) in
  let g := generation_of t w in
  match handover_of t w with
  | None => fail g t error
  | Some h =>
      if negb (isHandoverCurrent t w) then ret tt
      else if h_promoted h then fail g t error
      else failHandover t error
  end.

Definition closeTransport : M unit :=
  let! _ := rejectPending in
  let! _ := assign (fun c => c <| generation := generation c + 1 |> <| fallbackPending := false |>
                               <| failbackProbe := None |> <| failbackAttempts := 0 |>) in
  let! _ := clearDirectFailbackTimer in
  let! h := self handover in
  let! t := self transport in
  let! _ := assign (fun c => c <| handover := None |> <| transport := None |> <| authenticated := false |>
                               <| ready := false |>) in
  let! _ := close_transport h in
  close_transport t.

Definition detach : M unit :=
  let! _ := assign (fun c => c <| detached := true |> <| suspended := false |>) in
  let! _ := clearReconnect in
  closeTransport.

Definition suspend : M unit :=
  let! d := self detached in
  if d then ret tt else
  let! _ := assign (fun c => c <| suspended := true |>) in
  let! _ := clearReconnect in
  closeTransport.

(** *** Sending *)

Definition frame_of (type : Z) (payload : bytes) : M bytes :=
  let! sid := self sidBytes in
  answer (of_result (encodeFrame type sid (Some payload))).

Definition resize_frame (cols rows : Z) : M bytes :=
  let! size := answer (of_result (encodeResize cols rows)) in
  frame_of TYPE.RESIZE size.

Section Session.
Context `{JsText} `{PeerHost}.

(** [transport.sendFrame(frame)]: a failure that the transport reports while
    it sends has run [onFailure] when the call returns [false]. *)
Definition transport_send (t : nat) (frame : bytes) : M bool :=
  let! outcome := tick send_outcome in
  match outcome with
  | Sent => let! _ := emit (SendFrame t frame) in ret true
  | Refused => let! _ := emit (SendRefused t frame) in ret false
  | SendFailed err => let! _ := on_failure t err in ret false
  end.

Definition send (frame : bytes) : M bool :=
  let! c := self (fun c => c) in
  if bool_decide (handover c <> None) || negb (ready c) then ret false else
  match transport c with Some t => transport_send t frame | None => ret false end.

Definition claim_payload (c : PeerConn) : bytes :=
  encodeText (JSON_stringify (JObj [(js "client_id", JStr (clientID c)); (js "client_name", JStr (clientName c))])).

Fixpoint flush_inputs (fuel : nat) : M unit :=
  match fuel with
  | O => ret tt
  | S fuel =>
      let! c := self (fun c => c) in
      match pendingInputs c, transport c with
      | value :: _, Some t =>
          let! frame := frame_of TYPE.IN (encodeText value) in
          let! ok := transport_send t frame in
          if negb ok then ret tt else
          let! _ := assign (fun c => c <| pendingInputs := tail (pendingInputs c) |>) in
          flush_inputs fuel
      | _, _ => ret tt
      end
  end.

(** The loop removes an input or stops: its length is enough fuel. *)
Definition flush : M unit :=
  let! c := self (fun c => c) in
  match transport c with
  | None => ret tt
  | Some t =>
      if negb (ready c) then ret tt else
      let! go :=
        if pendingDriverClaim c then
          let! frame := frame_of TYPE.CLAIM_DRIVER (claim_payload c) in
          let! ok := transport_send t frame in
          let! _ := when ok (assign (fun c => c <| pendingDriverClaim := false |>)) in
          ret ok
        else ret true in
      if negb go then ret tt else
      let! go :=
        match pendingResize c with
        | Some (cols, rows) =>
            let! frame := resize_frame cols rows in
            let! ok := transport_send t frame in
            let! _ := when ok (assign (fun c => c <| pendingResize := None |>)) in
            ret ok
        | None => ret true
        end in
      if negb go then ret tt else
      let! n := self (fun c => length (pendingInputs c)) in
      flush_inputs n
  end.

Definition sendInput (value : jsstr) : M unit :=
  let! frame := frame_of TYPE.IN (encodeText value) in
  let! ok := send frame in
  when (negb ok) (assign (fun c => c <| pendingInputs := pendingInputs c ++ [value] |>)).

Definition sendResize (cols rows : Z) : M unit :=
  let! frame := resize_frame cols rows in
  let! ok := send frame in
  assign (fun c => c <| pendingResize := if ok then None else Some (cols, rows) |>).

Definition claimDriver : M bool :=
  let! c := self (fun c => c) in
  let! frame := frame_of TYPE.CLAIM_DRIVER (claim_payload c) in
  let! ok := send frame in
  let! _ := assign (fun c => c <| pendingDriverClaim := negb ok |>) in
  ret ok.

(** *** Requests *)

(** The route over which a request may be made. *)
Definition request_route (c : PeerConn) : option nat :=
  if ready c && bool_decide (handover c = None) then transport c else None.

(** [if (!this.isCurrent(generation, transport) || this.handover ||
    !transport.sendFrame(encodeFrame(...))) throw new Error(failure)] and what
    it throws. *)
Definition try_send (g : Z) (t : nat) (type : Z) (payload : bytes) (failure : jsstr) : M (option jsstr) :=
  let! c := self (fun c => c) in
  if negb (isCurrent g t c) || bool_decide (handover c <> None) then ret (Some failure) else
  let! frame := settled (frame_of type payload) in
  match frame with
  | Raise err => ret (Some err)
  | Done frame =>
      let! ok := transport_send t frame in
      ret (if ok then None else Some failure)
  end.

Fixpoint newUniqueFSRequestID (attempts : nat) : M jsstr :=
  match attempts with
  | O => tick fallbackFSRequestID
  | S attempts =>
      let! uuid := tick randomUUID in
      let id := js "fs-" ++ uuid in
      let! c := self (fun c => c) in
      if map_has (pendingFSRequests c) id || bool_decide (id ∈ retiredFSRequestIDs c)
      then newUniqueFSRequestID attempts else ret id
  end.

Definition sendFSRequest (request : FSRequest) (timeoutMs : Z) : M nat :=
  let! c := self (fun c => c) in
  match request_route c with
  | None => rejected (js "filesystem request failed: Peer route is not ready")
  | Some t =>
      let! id := match field request "request_id" with
                 | Some (JStr ((_ :: _) as s)) => ret s
                 | _ => newUniqueFSRequestID 5
                 end in
      if map_has (pendingFSRequests c) id then rejected (js "duplicate filesystem request_id: " ++ id)
      else if bool_decide (id ∈ retiredFSRequestIDs c)
      then rejected (js "retired filesystem request_id after timeout: " ++ id)
      else
        let payload := set_prop request "request_id" (JStr id) in
        let! encoded := answer (of_result (encodeSegments [encodeText (JSON_stringify (JObj payload))])) in
        let! p := newPromise in
        let! timer := setTimeout (FSRequestTimer id p) timeoutMs in
        let! _ := assign (fun c => c <| pendingFSRequests :=
                    map_set (pendingFSRequests c) id (mkPending (generation c) p timer) |>) in
        let! failure := try_send (generation c) t TYPE.FS_REQUEST encoded (js "Peer filesystem request send failed") in
        let! _ := match failure with
                  | None => ret tt
                  | Some err =>
                      let! _ := clearTimeout timer in
                      let! _ := assign (fun c => c <| pendingFSRequests := map_delete (pendingFSRequests c) id |>) in
                      settle p (RejectWith err)
                  end in
        ret p
  end.

Definition openService (port : Number) (host : jsstr) (timeoutMs : Z) : M nat :=
  let! c := self (fun c => c) in
  let! attemptId := match transport c with
                    | Some t => tick (fun n => attempt_id_of n t)
                    | None => ret []
                    end in
  match request_route c with
  | None => rejected (js "service preview failed: Peer route is not ready")
  | Some t =>
      if bool_decide (attemptId = []) then rejected (js "service preview failed: Peer route is not ready")
      else if negb (port_ok port) then rejected (js "service preview failed: invalid port")
      else if negb (is_loopback host) then rejected (js "service preview failed: target must be loopback")
      else
        let! requestId := tick randomUUID in
        let! serviceId := tick randomUUID in
        let payload := encodeText (JSON_stringify (JObj [(js "request_id", JStr requestId); (js "service_id", JStr serviceId);
          (js "peer_fields", JObj [(js "port", JNum port); (js "scheme", JStr (js "http")); (js "host", JStr host)])])) in
        let! p := newPromise in
        let! timer := setTimeout (ServiceOpenTimer requestId p) timeoutMs in
        let! _ := assign (fun c => c <| pendingServiceOpens := map_set (pendingServiceOpens c) requestId
                    (mkPendingService (mkPending (generation c) p timer) serviceId attemptId) |>) in
        let! failure := try_send (generation c) t TYPE.SERVICE_OPEN payload (js "service preview failed: Peer route changed") in
        let! _ := match failure with
                  | None => ret tt
                  | Some err =>
                      let! _ := clearTimeout timer in
                      let! _ := assign (fun c => c <| pendingServiceOpens := map_delete (pendingServiceOpens c) requestId |>) in
                      settle p (RejectWith err)
                  end in
        ret p
  end.

Definition closeService (serviceId : jsstr) : M unit :=
  if negb (match_pattern uuid_pattern serviceId) then ret tt else
  let! frame := frame_of TYPE.SERVICE_CLOSE (encodeText (JSON_stringify (JObj [(js "service_id", JStr serviceId)]))) in
  let! _ := send frame in
  ret tt.

Definition createSessionWithProfile (hostID profileID : jsstr) (timeoutMs : Z) : M nat :=
  let! c := self (fun c => c) in
  let host := trim hostID in
  let profile := trim profileID in
  match request_route c with
  | None => rejected (js "upstream_unavailable")
  | Some t =>
      if bool_decide (host = []) || (256 <? zlen host) || bool_decide (profile = []) || (256 <? zlen profile)
      then rejected (js "invalid_request") else
      let! uuid := tick randomUUID in
      let id := js "sc-" ++ uuid in
      let payload := encodeText (JSON_stringify (JObj [(js "request_id", JStr id); (js "host_id", JStr host);
                                                       (js "profile_id", JStr profile)])) in
      let! p := newPromise in
      let! timer := setTimeout (SessionCreateTimer id p) timeoutMs in
      let! _ := assign (fun c => c <| pendingSessionCreates :=
                  map_set (pendingSessionCreates c) id (mkPending (generation c) p timer) |>) in
      let! failure := try_send (generation c) t TYPE.SESSION_CREATE payload (js "upstream_unavailable") in
      let! _ := match failure with
                | None => ret tt
                | Some err =>
                    let! _ := clearTimeout timer in
                    let! _ := assign (fun c => c <| pendingSessionCreates := map_delete (pendingSessionCreates c) id |>) in
                    settle p (RejectWith err)
                end in
      ret p
  end.

(** [sendPaste] up to the read of the blob, and what follows it. *)
Definition sendPaste (type : Z) (fallbackContentType blobType content filename : jsstr) : M nat :=
  let! c := self (fun c => c) in
  if MAX_PASTE_BYTES <? zlen content then rejected (translate "terminal.imageTooLarge") else
  match request_route c with
  | None => rejected (js "Peer route is not ready")
  | Some t =>
      let! p := newPromise in
      let payload := encodePastePayload blobType content filename fallbackContentType in
      let! _ := modify (fun w => w <| pastes := pastes w ++ [(p, mkPaste (generation c) t type payload)] |>) in
      ret p
  end.

Definition paste_settled (p : nat) (s : Settlement) : M unit :=
  let! _ := modify (fun w => w <| pastes := map_delete (pastes w) p |>) in
  settle p s.

Definition paste_resume (p : nat) (read : outcome unit) : M unit :=
  let! paste := gets (fun w => map_get (pastes w) p) in
  match paste with
  | None => ret tt
  | Some paste =>
      match read with
      | Raise err => paste_settled p (RejectWith err)
      | Done _ =>
          let! c := self (fun c => c) in
          let! failure :=
            if negb (ready c) then ret (Some (js "Peer paste send failed"))
            else try_send (pa_generation paste) (pa_transport paste) (pa_type paste) (pa_payload paste)
                   (js "Peer paste send failed") in
          paste_settled p match failure with None => ResolvePaste | Some err => RejectWith err end
      end
  end.

(** *** Frames *)

Definition parse (payload : bytes) : option (list (jsstr * Json)) :=
  match JSON_parse (decodeText payload) with Ok (JObj fields) => Some fields | _ => None end.

Definition handleSessionCreated (f : Frame) : M unit :=
  match parse (f_payload f) with
  | None => ret tt
  | Some response =>
      match as_string (field response "request_id") with
      | None => ret tt
      | Some id =>
          if negb (is_boolean (field response "ok")) || negb (isOptionalString (field response "session_id"))
             || negb (isOptionalString (field response "error")) then ret tt else
          let! c := self (fun c => c) in
          match map_get (pendingSessionCreates c) id with
          | None => ret tt
          | Some pending =>
              if negb (p_generation pending =? generation c) then ret tt else
              let ok := truthy (field response "ok") in
              let created := text_of (field response "session_id") in
              if ok && (negb (match_pattern uuid_pattern created)
                        || match uuidParse created with Ok sid => negb (sameSessionID (f_sid f) sid) | Throw _ => true end)
              then ret tt else
              let! _ := clearTimeout (p_timer pending) in
              let! _ := assign (fun c => c <| pendingSessionCreates := map_delete (pendingSessionCreates c) id |>) in
              settle (p_promise pending)
                (if ok then ResolveSession created
                 else RejectWith match text_of (field response "error") with [] => js "upstream_unavailable" | e => e end)
          end
      end
  end.

Definition handleServiceOpened (payload : bytes) : M unit :=
  match parse payload with
  | None => ret tt
  | Some response =>
      match as_string (field response "request_id"), as_string (field response "service_id") with
      | Some id, Some service =>
          if negb (is_boolean (field response "ok")) || negb (isOptionalString (field response "error")) then ret tt else
          let! c := self (fun c => c) in
          match map_get (pendingServiceOpens c) id with
          | None => ret tt
          | Some pending =>
              if negb (p_generation (ps_pending pending) =? generation c) || negb (bool_decide (service = ps_serviceId pending))
              then ret tt else
              let! _ := clearTimeout (p_timer (ps_pending pending)) in
              let! _ := assign (fun c => c <| pendingServiceOpens := map_delete (pendingServiceOpens c) id |>) in
              settle (p_promise (ps_pending pending))
                (if truthy (field response "ok") then ResolveService (ps_serviceId pending) (ps_attemptId pending)
                 else RejectWith match text_of (field response "error") with [] => js "service preview rejected" | e => e end)
          end
      | _, _ => ret tt
      end
  end.

(** The single segment of a file-system payload, parsed. *)
Definition parse_segment (segments : option (list bytes)) : option Json :=
  match segments with
  | Some [segment] => match JSON_parse (decodeText segment) with Ok j => Some j | Throw _ => None end
  | _ => None
  end.

Definition handleFSResponse (payload : bytes) : M unit :=
  let! segments := answer (of_result (decodeSegments payload)) in
  match parse_segment segments with
  | Some (JObj response) =>
      if negb (isFSResponse (JObj response)) then ret tt else
      let id := text_of (field response "request_id") in
      let! c := self (fun c => c) in
      match map_get (pendingFSRequests c) id with
      | None => ret tt
      | Some pending =>
          if negb (p_generation pending =? generation c) then ret tt else
          let! _ := clearTimeout (p_timer pending) in
          let! _ := assign (fun c => c <| pendingFSRequests := map_delete (pendingFSRequests c) id |>) in
          settle (p_promise pending) (ResolveFS response)
      end
  | _ => ret tt
  end.

Fixpoint notify_fs_handlers (handlers : list nat) (event : list (jsstr * Json)) : M unit :=
  match handlers with
  | [] => ret tt
  | h :: rest =>
      let! _ := emit (OnFSEvent h event) in
      notify_fs_handlers rest event
  end.

Definition handleFSEvent (payload : bytes) : M unit :=
  let! segments := answer (of_result (decodeSegments payload)) in
  match parse_segment segments with
  | Some (JObj event) =>
      if negb (is_string (field event "watch_id")) || negb (is_string (field event "path"))
         || negb (is_string (field event "event")) then ret tt else
      let! handlers := self fsEventHandlers in
      notify_fs_handlers handlers event
  | _ => ret tt
  end.

Definition handleMeta (payload : bytes) : M unit :=
  let! meta := answer (of_result (JSON_parse (decodeText payload))) in
  let! _ := emit (OnMeta meta) in
  let! id := answer (of_result (prop meta "driver_client_id")) in
  let! name := answer (of_result (prop meta "driver_client_name")) in
  let driverID := string_or_empty id in
  let! c := self (fun c => c) in
  if bool_decide (driverID = currentDriverClientID c) then ret tt else
  let! _ := assign (fun c => c <| currentDriverClientID := driverID |>) in
  emit (OnDriverChange driverID (negb (bool_decide (driverID = [])) && bool_decide (driverID = clientID c)) (string_or_empty name)).

Definition handleOut (payload : bytes) : M unit :=
  let! out := answer (of_result (decodeOutPayload payload)) in
  let '(seq, data) := out in
  let! last := self lastSeq in
  if (0 <? seq) && (seq <=? last) then ret tt else
  let! _ := when (0 <? seq) (assign (fun c => c <| lastSeq := seq |>)) in
  emit (OnOutput seq data).

Definition handleClose (payload : bytes) : M unit :=
  let! _ := emit (OnClose match JSON_parse (decodeText payload) with
                          | Ok info => info
                          | Throw _ => JObj [(js "exit_code", jint 0)]
                          end) in
  let! _ := emit (OnStatus ended) in
  detach.

Definition handleFrame (f : Frame) : M unit :=
  if f_type f =? TYPE.SESSION_CREATED then handleSessionCreated f else
  let! sid := self sidBytes in
  raise_if (negb (sameSessionID (f_sid f) sid)) "Peer frame session mismatch" ;;;
  if f_type f =? TYPE.SERVICE_OPENED then handleServiceOpened (f_payload f)
  else if f_type f =? TYPE.OUT then handleOut (f_payload f)
  else if f_type f =? TYPE.META then handleMeta (f_payload f)
  else if f_type f =? TYPE.CLOSE then handleClose (f_payload f)
  else if f_type f =? TYPE.FS_RESPONSE then handleFSResponse (f_payload f)
  else if f_type f =? TYPE.FS_EVENT then handleFSEvent (f_payload f)
  else raise (js "unsupported Peer frame type 0x" ++ hex_byte (f_type f)).

(** *** Handover to the direct route *)

Definition promoteHandover (t : nat) (replayedSeq : Z) : M unit :=
  let! w := gets (fun w => w) in
  match handover_of t w with
  | None => ret tt
  | Some attempt =>
      if negb (isHandoverCurrent t w) || h_promoted attempt then ret tt else
      let previous := transport (this w) in
      let! _ := set_handover t (fun h => h <| h_promoted := true |>) in
      let! _ := assign (fun c => c <| handover := None |> <| transport := Some t |> <| route := RouteDirect |>
                                   <| authenticated := true |> <| ready := true |> <| lastSeq := replayedSeq |>
                                   <| reconnectAttempts := 0 |> <| failbackAttempts := 0 |> <| lastFailureReason := None |>
                                   <| diagnostics := h_diagnostics attempt |> <| startedAt := h_startedAt attempt |>) in
      let! _ := emit (OnStatus attached) in
      let! _ := emitRoute R_direct in
      let! _ := close_transport previous in
      flush
  end.

(** The callbacks of a transport made for a handover. *)
Definition handover_callback (t : nat) (cb : Callback) : M unit :=
  let! w := gets (fun w => w) in
  match handover_of t w with
  | None => ret tt
  | Some attempt =>
      if negb (isHandoverCurrent t w) then ret tt else
      match cb with
      | CbAuthenticated => set_handover t (fun h => h <| h_authenticated := true |>)
      | CbFrame frame =>
          let! f := answer (of_result (decodeFrame frame)) in
          handleFrame f
      | CbReady replayedSeq =>
          if negb (h_authenticated attempt) || (replayedSeq <? lastSeq (this w))
          then failHandover t (js "invalid Peer replay cursor")
          else promoteHandover t replayedSeq
      | CbDiagnostics d =>
          let! _ := set_handover t (fun h => h <| h_diagnostics := Some d |>) in
          if h_promoted attempt then
            let! _ := assign (fun c => c <| diagnostics := Some d |>) in
            emitRoute R_direct
          else emitHandoverRoute t
      | CbFailure err =>
          if h_promoted attempt then fail (generation_of t w) t err else failHandover t err
      end
  end.

Definition failback_failed : M unit :=
  let! _ := assign (fun c => c <| failbackAttempts := failbackAttempts c + 1 |>) in
  scheduleDirectFailback.

(** The guard of [probeDirectFailback] and of [startDirectHandover]. *)
Definition may_failback (g : Z) (c : PeerConn) : bool :=
  (g =? generation c) && is_route RouteQuickTunnel (route c) && ready c && negb (detached c)
  && negb (suspended c) && bool_decide (handover c = None).

Definition startDirectHandover (g : Z) : M unit :=
  let! c := self (fun c => c) in
  if negb (may_failback g c) then ret tt else
  let! _ := rejectPending in
  let! started := gets now in
  let! factory := tick factory_error in
  match factory with
  | Some err => failback_failed
  | None =>
      let! t := gets (fun w => length (transports w)) in
      let! _ := modify (fun w => w <| transports := transports w ++ [mkTransport g (Some (mkHandover false None started false))] |>) in
      let! _ := emit (NewTransport t (lastSeq c) RouteDirect) in
      let! _ := assign (fun c => c <| handover := Some t |>) in
      let! _ := emit (OnStatus reconnecting) in
      let! _ := emitHandoverRoute t in
      let! outcome := transport_start t in
      match outcome with
      | Started => ret tt
      | StartFailed err => on_failure t err
      | StartThrew err =>
          let! h := self handover in
          if bool_decide (h = Some t) then failHandover t err else failback_failed
      end
  end.

(** *** Starting a transport *)

(** The [catch] of [start]. *)
Definition start_threw (g : Z) (err : jsstr) : M unit :=
  let! _ := assign (fun c => c <| transport := None |>) in
  recover g err.

Definition start : M unit :=
  let! started := gets now in
  let! _ := assign (fun c => c <| generation := generation c + 1 |> <| fallbackPending := false |> <| authenticated := false |>
                               <| ready := false |> <| diagnostics := None |> <| startedAt := started |>) in
  let! c := self (fun c => c) in
  let g := generation c in
  let! _ := emit (OnStatus (if reconnectAttempts c =? 0 then connecting else reconnecting)) in
  let! _ := emitRoute (connectingRoute c) in
  let! factory := tick factory_error in
  match factory with
  | Some err => start_threw g err
  | None =>
      let! t := gets (fun w => length (transports w)) in
      let! _ := modify (fun w => w <| transports := transports w ++ [mkTransport g None] |>) in
      let! _ := emit (NewTransport t (lastSeq c) (route c)) in
      let! _ := assign (fun c => c <| transport := Some t |>) in
      let! outcome := transport_start t in
      match outcome with
      | Started => ret tt
      | StartFailed err => on_failure t err
      | StartThrew err => start_threw g err
      end
  end.

(** The callbacks of a transport made by [start]. *)
Definition start_callback (g : Z) (t : nat) (cb : Callback) : M unit :=
  let! c := self (fun c => c) in
  let current := isCurrent g t c in
  match cb with
  | CbAuthenticated => when current (assign (fun c => c <| authenticated := true |>))
  | CbFrame frame =>
      if negb current then ret tt else
      let! f := answer (of_result (decodeFrame frame)) in
      handleFrame f
  | CbReady replayedSeq =>
      if negb current || negb (authenticated c) || (replayedSeq <? lastSeq c)
      then fail g t (js "invalid Peer replay cursor")
      else
        let! _ := assign (fun c => c <| lastSeq := replayedSeq |> <| ready := true |> <| reconnectAttempts := 0 |>
                                     <| lastFailureReason := None |>) in
        let! _ := emit (OnStatus attached) in
        let! c := self (fun c => c) in
        let! _ := emitRoute (connectedRoute c) in
        let! _ := flush in
        let! r := self route in
        when (is_route RouteQuickTunnel r) scheduleDirectFailback
  | CbDiagnostics d =>
      if negb current then ret tt else
      let! _ := assign (fun c => c <| diagnostics := Some d |>) in
      let! c := self (fun c => c) in
      emitRoute (if ready c then connectedRoute c else connectingRoute c)
  | CbFailure err => fail g t err
  end.

(** *** Public methods that open and close *)

Definition attach : M unit :=
  let! d := self detached in
  if d then ret tt else
  let! _ := assign (fun c => c <| suspended := false |>) in
  let! c := self (fun c => c) in
  if bool_decide (transport c <> None) || bool_decide (reconnectTimer c <> None) || fallbackPending c then ret tt
  else start.

Definition setRoute (r : NativePeerRoute) : M unit :=
  let! c := self (fun c => c) in
  if detached c then ret tt else
  if is_route r (route c) then
    match is_route RouteQuickTunnel r, handover c with
    | true, Some t => cancelHandover t
    | _, _ => ret tt
    end
  else
    let! _ := assign (fun c => c <| route := r |>) in
    let! _ := clearReconnect in
    let! _ := closeTransport in
    when (negb (suspended c)) start.

(** [fsEventHandlers] is a [Set]. *)
Definition onFSEvent (h : nat) : M unit :=
  assign (fun c => c <| fsEventHandlers :=
    if bool_decide (h ∈ fsEventHandlers c) then fsEventHandlers c else fsEventHandlers c ++ [h] |>).

Definition offFSEvent (h : nat) : M unit :=
  assign (fun c => c <| fsEventHandlers := filter (fun x => x <> h) (fsEventHandlers c) |>).

(** *** What resumes after an [await] *)

(** The rest of [tryQuickTunnelFallback]. *)
Definition fallback_settled (g : Z) (available : bool) : M unit :=
  let! c := self (fun c => c) in
  if negb (g =? generation c) || negb (fallbackPending c) || detached c || suspended c
     || bool_decide (transport c <> None) then ret tt else
  let! _ := assign (fun c => c <| fallbackPending := false |>) in
  if available then
    let! _ := assign (fun c => c <| route := RouteQuickTunnel |> <| reconnectAttempts := Z.max 1 (reconnectAttempts c) |>) in
    start
  else scheduleReconnect.

Definition probeDirectFailback (g : Z) : M unit :=
  let! c := self (fun c => c) in
  if negb (may_failback g c) || bool_decide (failbackProbe c <> None) then ret tt else
  let! p := start_probe FailbackProbe g in
  assign (fun c => c <| failbackProbe := Some p |>).

(** The rest of [probeDirectFailback]. *)
Definition failback_settled (p : nat) (g : Z) (available : bool) : M unit :=
  let! c := self (fun c => c) in
  let! _ := when (bool_decide (failbackProbe c = Some p)) (assign (fun c => c <| failbackProbe := None |>)) in
  let! c := self (fun c => c) in
  if negb (may_failback g c) then ret tt else
  if available then startDirectHandover g else failback_failed.

(** The race of a probe is decided: by its answer, or by its timer. *)
Definition probe_settled (p : nat) (available : bool) : M unit :=
  let! probe := gets (fun w => map_get (probes w) p) in
  match probe with
  | None => ret tt
  | Some probe =>
      let! _ := modify (fun w => w <| probes := map_delete (probes w) p |>) in
      let! _ := clearTimeout (pr_timer probe) in
      match pr_kind probe with
      | FallbackProbe => fallback_settled (pr_generation probe) available
      | FailbackProbe => failback_settled p (pr_generation probe) available
      end
  end.

Definition timer_fired (kind : TimerKind) : M unit :=
  match kind with
  | ReconnectTimer =>
      let! _ := assign (fun c => c <| reconnectTimer := None |>) in
      let! c := self (fun c => c) in
      when (negb (detached c) && negb (suspended c)) start
  | FailbackTimer g =>
      let! _ := assign (fun c => c <| failbackTimer := None |>) in
      probeDirectFailback g
  | ProbeTimer p => probe_settled p false
  | FSRequestTimer id p =>
      let! _ := assign (fun c => c <| pendingFSRequests := map_delete (pendingFSRequests c) id |>
        <| retiredFSRequestIDs := if bool_decide (id ∈ retiredFSRequestIDs c) then retiredFSRequestIDs c
                                  else retiredFSRequestIDs c ++ [id] |>) in
      settle p (RejectWith (js "filesystem request timed out: " ++ id))
  | SessionCreateTimer id p =>
      let! _ := assign (fun c => c <| pendingSessionCreates := map_delete (pendingSessionCreates c) id |>) in
      settle p (RejectWith (js "timeout"))
  | ServiceOpenTimer id p =>
      let! _ := assign (fun c => c <| pendingServiceOpens := map_delete (pendingServiceOpens c) id |>) in
      settle p (RejectWith (js "service preview timed out"))
  end.

(** *** The event loop *)

Inductive Event :=
  | EvAttach | EvSuspend | EvDetach
  | EvSetRoute (r : NativePeerRoute)
  | EvSendInput (value : jsstr)
  | EvSendResize (cols rows : Z)
  | EvClaimDriver
  | EvOpenService (port : Number) (host : jsstr) (timeoutMs : Z)
  | EvCloseService (serviceId : jsstr)
  | EvCreateSession (hostID profileID : jsstr) (timeoutMs : Z)
  | EvOnFSEvent (h : nat) | EvOffFSEvent (h : nat)
  | EvSendFSRequest (request : FSRequest) (timeoutMs : Z)
  | EvPasteImage (blobType content filename : jsstr)
  | EvPasteFile (blobType content filename : jsstr)
  | EvPasteResume (p : nat) (read : outcome unit)
  | EvCallback (t : nat) (cb : Callback)
  | EvProbe (p : nat) (available : bool)
  | EvTimer (t : nat)
  | EvNow (t : Z).

Definition callback (t : nat) (cb : Callback) : M unit :=
  let! w := gets (fun w => w) in
  match transports w !! t with
  | None => ret tt
  | Some x => match t_handover x with
              | None => start_callback (t_generation x) t cb
              | Some _ => handover_callback t cb
              end
  end.

(** A method called for its effects. *)
Definition void {A} (m : M A) : M unit := let! _ := m in ret tt.

(** What a callback throws goes to the transport that called it. *)
Definition dispatch (e : Event) : M unit :=
  match e with
  | EvAttach => attach
  | EvSuspend => suspend
  | EvDetach => detach
  | EvSetRoute r => setRoute r
  | EvSendInput value => sendInput value
  | EvSendResize cols rows => sendResize cols rows
  | EvClaimDriver => void claimDriver
  | EvOpenService port host timeoutMs => void (openService port host timeoutMs)
  | EvCloseService serviceId => closeService serviceId
  | EvCreateSession hostID profileID timeoutMs => void (createSessionWithProfile hostID profileID timeoutMs)
  | EvOnFSEvent h => onFSEvent h
  | EvOffFSEvent h => offFSEvent h
  | EvSendFSRequest request timeoutMs => void (sendFSRequest request timeoutMs)
  | EvPasteImage blobType content filename =>
      void (sendPaste TYPE.PASTE_IMAGE (js "image/png") blobType content filename)
  | EvPasteFile blobType content filename =>
      void (sendPaste TYPE.PASTE_FILE (js "application/octet-stream") blobType content filename)
  | EvPasteResume p read => paste_resume p read
  | EvCallback t cb => catch (callback t cb) (fun err => emit (CallbackThrew t err))
  | EvProbe p available => probe_settled p available
  | EvTimer t =>
      let! kind := gets (fun w => map_get (timers w) t) in
      match kind with
      | None => ret tt
      | Some kind =>
          let! _ := clearTimeout t in
          timer_fired kind
      end
  | EvNow t => modify (fun w => w <| now := t |>)
  end.

Definition step (e : Event) (w : PeerWorld) : PeerWorld := fst (dispatch e w).

Definition run (events : list Event) (w : PeerWorld) : PeerWorld := fold_left (fun w e => step e w) events w.
End Session.

(** The constructor. *)
Definition new_peer_connection (sid client name : jsstr) (fallback failback : bool) (cooldown : option Z)
    (r : option NativePeerRoute) : result PeerConn :=
  let* sidBytes := uuidParse sid in
  let name := trim name in
  Ok (mkPeerConn sid sidBytes client (if bool_decide (name = []) then js "desktop" else name) fallback failback cooldown
        None 0 0 false false false false 0 None false None None None 0 [] None false [] [] [] [] [] [] None None 0
        (default RouteDirect r)).

Definition init (c : PeerConn) : PeerWorld := mkPeerWorld c [] [] 0 0 [] 0 [] 1 0 [].
