(* ===== verification/PeerSessionBooks.v ===== *)
(** * Timers and promises of the peer session connection

    The [Ledger] is the part of the state that says who waits for what: the
    timers that run, the requests, probes and pastes that are pending, and the
    promises handed out and settled. [books] is its invariant; every turn of
    the event loop keeps it. *)

From S2P Require Import Prelude Bytes JsString JsMap Json Proto FsSegments DirectCrypto ConnWire.
From S2P Require Import EventLoop Transport NativeDirect PeerSession.

Record Ledger := mkLedger {
  l_timers : list (nat * TimerKind);
  l_nextTimer : nat;
  l_nextPromise : nat;
  l_pastes : list nat;
  l_fs : list (jsstr * Pending);
  l_creates : list (jsstr * Pending);
  l_services : list (jsstr * PendingService);
  l_reconnect : option nat;
  l_failback : option nat;
  l_probes : list (nat * Probe);
  l_nextProbe : nat;
  l_settled : list nat;
}.
#[export] Instance eta_ledger : Eta Ledger :=
  fun l => mkLedger (l_timers l) (l_nextTimer l) (l_nextPromise l) (l_pastes l) (l_fs l) (l_creates l) (l_services l)
    (l_reconnect l) (l_failback l) (l_probes l) (l_nextProbe l) (l_settled l).

(** The promises settled so far, in order; settling a promise again does
    nothing. *)
Definition settlement (settled : list nat) (e : Effect) : list nat :=
  match e with
  | Settle p _ => if bool_decide (p ∈ settled) then settled else settled ++ [p]
  | _ => settled
  end.

Definition settlements (l : list Effect) : list nat := fold_left settlement l [].
#[global] Arguments settlements : simpl never.

Definition ledger (w : PeerWorld) : Ledger :=
  let c := this w in
  mkLedger (timers w) (nextTimer w) (nextPromise w) (map_keys (pastes w)) (pendingFSRequests c) (pendingSessionCreates c)
    (pendingServiceOpens c) (reconnectTimer c) (failbackTimer c) (probes w) (nextProbe w) (settlements (trace w)).

(** The promise that a timer rejects. *)
Definition promise_of (k : TimerKind) : option nat :=
  match k with
  | FSRequestTimer _ p | SessionCreateTimer _ p | ServiceOpenTimer _ p => Some p
  | _ => None
  end.

Definition waiting (l : list (nat * TimerKind)) : list nat := omap (fun x => promise_of (snd x)) l.

Record books (l : Ledger) : Prop := {
  bk_timers : map_ok (l_timers l);
  bk_fresh t k : (t, k) ∈ l_timers l -> (t < l_nextTimer l)%nat;
  bk_fs id p : (id, p) ∈ l_fs l -> (p_timer p, FSRequestTimer id (p_promise p)) ∈ l_timers l;
  bk_creates id p : (id, p) ∈ l_creates l -> (p_timer p, SessionCreateTimer id (p_promise p)) ∈ l_timers l;
  bk_services id p :
    (id, p) ∈ l_services l -> (p_timer (ps_pending p), ServiceOpenTimer id (p_promise (ps_pending p))) ∈ l_timers l;
  bk_fs_ok : map_ok (l_fs l);
  bk_creates_ok : map_ok (l_creates l);
  bk_services_ok : map_ok (l_services l);
  bk_reconnect t : l_reconnect l = Some t <-> (t, ReconnectTimer) ∈ l_timers l;
  bk_failback t : l_failback l = Some t -> exists g, (t, FailbackTimer g) ∈ l_timers l;
  bk_probes p pr : (p, pr) ∈ l_probes l -> (pr_timer pr, ProbeTimer p) ∈ l_timers l;
  bk_probes_ok : map_ok (l_probes l);
  bk_probes_fresh p pr : (p, pr) ∈ l_probes l -> (p < l_nextProbe l)%nat;
  bk_promises : l_settled l ++ waiting (l_timers l) ++ l_pastes l ≡ₚ seq 0 (l_nextPromise l);
}.

(** ** Timers *)

Definition without (t : nat) (l : list (nat * TimerKind)) : list (nat * TimerKind) := filter (fun x => fst x <> t) l.

Lemma elem_without t l u k : (u, k) ∈ without t l <-> u <> t /\ (u, k) ∈ l.
Proof. unfold without. by rewrite list_elem_of_filter. Qed.

Lemma without_ok t l : map_ok l -> map_ok (without t l).
Proof.
  unfold map_ok, map_keys, without. intros Hl. eapply sublist_NoDup; [exact Hl|].
  apply (fmap_sublist fst), sublist_filter.
Qed.

Lemma without_absent t l : t ∉ map_keys l -> without t l = l.
Proof.
  unfold without, map_keys. induction l as [|[u k] l IH]; [done|]. cbn [map fst]. intros [Hu Hl]%not_elem_of_cons.
  rewrite filter_cons_True by auto. by rewrite IH.
Qed.

Lemma waiting_without t k (l : list (nat * TimerKind)) :
  map_ok l -> (t, k) ∈ l -> waiting l ≡ₚ option_list (promise_of k) ++ waiting (without t l).
Proof.
  unfold map_ok. induction l as [|[u k'] l IH]; [intros _ H; by apply not_elem_of_nil in H|].
  cbn [map_keys map fst]. intros [Hu Hl]%NoDup_cons [E|Hin]%elem_of_cons.
  - injection E as <- <-. unfold without. rewrite filter_cons_False by (intros H; by apply H).
    fold (without t l). rewrite without_absent by done. unfold waiting. cbn [omap list_omap snd]. by destruct (promise_of k).
  - assert (u <> t).
    { intros Hut. subst u. apply Hu. change t with (fst (t, k)). by apply list_elem_of_fmap_2. }
    unfold without. rewrite filter_cons_True by done. fold (without t l). unfold waiting in *. cbn [omap list_omap snd].
    specialize (IH Hl Hin). destruct (promise_of k') as [p|]; [|done]. rewrite IH.
    by rewrite Permutation_middle.
Qed.

Lemma timer_kind t k k' (l : list (nat * TimerKind)) : map_ok l -> (t, k) ∈ l -> (t, k') ∈ l -> k = k'.
Proof. intros Hl H H'. apply map_in_get in H, H'; [congruence|done..]. Qed.

Lemma waiting_snoc l t k : waiting (l ++ [(t, k)]) = waiting l ++ option_list (promise_of k).
Proof. unfold waiting. rewrite omap_app. cbn. by destruct (promise_of k). Qed.

Lemma fresh_timer_ok (l : list (nat * TimerKind)) n k :
  map_ok l -> (forall t k', (t, k') ∈ l -> (t < n)%nat) -> map_ok (l ++ [(n, k)]).
Proof.
  unfold map_ok, map_keys. intros Hl Hf. rewrite map_app. apply NoDup_app. split_and!; [done| |apply NoDup_singleton].
  intros t ([n' k'] & E & Hx)%list_elem_of_fmap Ht%list_elem_of_singleton. cbn in E, Ht.
  specialize (Hf _ _ Hx). lia.
Qed.

(** The laws of a map whose entries are of pairs. *)
Lemma elem_map_set {V} (m : list (jsstr * V)) k v k' v' :
  map_ok m -> (k', v') ∈ map_set m k v -> (k' = k /\ v' = v) \/ (k' <> k /\ (k', v') ∈ m).
Proof.
  intros Hm H. apply map_in_get in H; [|by apply map_ok_set]. rewrite map_get_set in H.
  case_bool_decide; simplify_eq; [by left|]. right. split; [congruence|]. by apply map_get_in.
Qed.

Lemma elem_map_delete {K V} `{EqDecision K} (m : list (K * V)) k k' v' :
  map_ok m -> (k', v') ∈ map_delete m k -> k' <> k /\ (k', v') ∈ m.
Proof.
  intros Hm H. apply map_in_get in H; [|by apply map_ok_delete]. rewrite map_get_delete in H by done.
  case_bool_decide; [done|]. split; [congruence|]. by apply map_get_in.
Qed.

(** ** Entries of the ledger *)

Ltac ledger_tac :=
  cbn [set_field l_timers l_nextTimer l_nextPromise l_pastes l_fs l_creates l_services l_reconnect l_failback l_probes
       l_nextProbe l_settled] in *.

(** A timer is added. *)
Definition with_timer (k : TimerKind) (l : Ledger) : Ledger :=
  l <| l_timers := l_timers l ++ [(l_nextTimer l, k)] |> <| l_nextTimer := S (l_nextTimer l) |>.

(** The timer [t] is gone, and its promise, if it has one, settled. *)
Definition without_timer (t : nat) (k : TimerKind) (l : Ledger) : Ledger :=
  l <| l_timers := without t (l_timers l) |> <| l_settled := l_settled l ++ option_list (promise_of k) |>.

Lemma elem_snoc {A} (l : list A) x y : x ∈ l ++ [y] <-> x ∈ l \/ x = y.
Proof. by rewrite elem_of_app, list_elem_of_singleton. Qed.

Lemma ledger_promises_add l k :
  l_settled l ++ waiting (l_timers l) ++ l_pastes l ≡ₚ seq 0 (l_nextPromise l) ->
  promise_of k = Some (l_nextPromise l) ->
  l_settled l ++ waiting (l_timers l ++ [(l_nextTimer l, k)]) ++ l_pastes l ≡ₚ seq 0 (S (l_nextPromise l)).
Proof.
  intros Hp Hk. rewrite waiting_snoc, Hk, seq_S, <- Hp. cbn [option_list]. rewrite <- !(assoc_L (++)).
  do 2 apply Permutation_app_head. apply Permutation_app_comm.
Qed.

Lemma ledger_promises_remove l t k :
  map_ok (l_timers l) -> (t, k) ∈ l_timers l ->
  l_settled l ++ waiting (l_timers l) ++ l_pastes l ≡ₚ seq 0 (l_nextPromise l) ->
  (l_settled l ++ option_list (promise_of k)) ++ waiting (without t (l_timers l)) ++ l_pastes l ≡ₚ seq 0 (l_nextPromise l).
Proof. intros Ho Hin <-. rewrite (waiting_without t k _ Ho Hin), <- !(assoc_L (++)). done. Qed.

(** The facts of [books] that adding a timer keeps. *)
Lemma books_with_timer k l :
  books l -> promise_of k = None -> k <> ReconnectTimer -> books (with_timer k l).
Proof.
  intros [] Hk Hr. unfold with_timer. split; ledger_tac; try done.
  - by apply fresh_timer_ok.
  - intros t k' [H|[= -> ->]]%elem_snoc; [|lia]. specialize (bk_fresh0 _ _ H). lia.
  - intros id p H. apply elem_snoc. auto.
  - intros id p H. apply elem_snoc. auto.
  - intros id p H. apply elem_snoc. auto.
  - intros t. rewrite elem_snoc, bk_reconnect0. naive_solver.
  - intros t H. destruct (bk_failback0 _ H) as [g Hg]. exists g. apply elem_snoc. auto.
  - intros p pr H. apply elem_snoc. auto.
  - rewrite waiting_snoc, Hk. cbn. by rewrite app_nil_r.
Qed.

Lemma books_with_reconnect l :
  books l -> l_reconnect l = None ->
  books (with_timer ReconnectTimer l <| l_reconnect := Some (l_nextTimer l) |>).
Proof.
  intros [] Hr. unfold with_timer. split; ledger_tac; try done.
  - by apply fresh_timer_ok.
  - intros t k' [H|[= -> ->]]%elem_snoc; [|lia]. specialize (bk_fresh0 _ _ H). lia.
  - intros id p H. apply elem_snoc. auto.
  - intros id p H. apply elem_snoc. auto.
  - intros id p H. apply elem_snoc. auto.
  - intros t. rewrite elem_snoc, <- bk_reconnect0, Hr. naive_solver.
  - intros t H. destruct (bk_failback0 _ H) as [g Hg]. exists g. apply elem_snoc. auto.
  - intros p pr H. apply elem_snoc. auto.
  - rewrite waiting_snoc. cbn. by rewrite app_nil_r.
Qed.

Lemma books_with_failback g l :
  books l -> books (with_timer (FailbackTimer g) l <| l_failback := Some (l_nextTimer l) |>).
Proof.
  intros Hb. apply (books_with_timer (FailbackTimer g)) in Hb as []; [|done..]. split; try done.
  ledger_tac. intros t [= <-]. exists g. unfold with_timer. ledger_tac. apply elem_snoc. auto.
Qed.

Lemma books_with_probe kd g l :
  books l ->
  books (with_timer (ProbeTimer (l_nextProbe l)) l
           <| l_probes := l_probes l ++ [(l_nextProbe l, mkProbe kd g (l_nextTimer l))] |>
           <| l_nextProbe := S (l_nextProbe l) |>).
Proof.
  intros Hb. pose proof Hb as []. apply (books_with_timer (ProbeTimer (l_nextProbe l))) in Hb as []; [|done..].
  split; try done; unfold with_timer in *; ledger_tac.
  - intros p pr [H|[= -> ->]]%elem_snoc; [auto|]. apply elem_snoc. by right.
  - unfold map_ok, map_keys in *. rewrite map_app. apply NoDup_app. split_and!; [done| |apply NoDup_singleton].
    intros p ([n pr] & E & Hx)%list_elem_of_fmap Hq%list_elem_of_singleton. cbn in E, Hq.
    specialize (bk_probes_fresh0 _ _ Hx). lia.
  - intros p pr [H|[= -> ->]]%elem_snoc; [|lia]. specialize (bk_probes_fresh0 _ _ H). lia.
Qed.

(** A timer goes, its promise settled, and with it whatever belonged to it. *)
Record removes (t : nat) (k : TimerKind) (l l' : Ledger) : Prop := {
  rm_timer : (t, k) ∈ l_timers l;
  rm_rest : l_timers l' = without t (l_timers l) /\ l_settled l' = l_settled l ++ option_list (promise_of k) /\
    l_nextTimer l' = l_nextTimer l /\ l_nextPromise l' = l_nextPromise l /\ l_pastes l' = l_pastes l /\
    l_nextProbe l' = l_nextProbe l;
  rm_fs id p : (id, p) ∈ l_fs l' -> (id, p) ∈ l_fs l /\ k <> FSRequestTimer id (p_promise p);
  rm_creates id p : (id, p) ∈ l_creates l' -> (id, p) ∈ l_creates l /\ k <> SessionCreateTimer id (p_promise p);
  rm_services id p : (id, p) ∈ l_services l' -> (id, p) ∈ l_services l /\ k <> ServiceOpenTimer id (p_promise (ps_pending p));
  rm_ok : map_ok (l_fs l') /\ map_ok (l_creates l') /\ map_ok (l_services l') /\ map_ok (l_probes l');
  rm_reconnect u : l_reconnect l' = Some u <-> l_reconnect l = Some u /\ u <> t;
  rm_failback u : l_failback l' = Some u -> l_failback l = Some u /\ (forall g, k <> FailbackTimer g);
  rm_probes p pr : (p, pr) ∈ l_probes l' -> (p, pr) ∈ l_probes l /\ k <> ProbeTimer p;
}.

Lemma books_remove t k l l' : removes t k l l' -> books l -> books l'.
Proof.
  intros [Hin (E1 & E2 & E3 & E4 & E5 & E6) Hfs Hcr Hsv (O1 & O2 & O3 & O4) Hrc Hfb Hpr] [].
  assert (Hkeep : forall u k', (u, k') ∈ l_timers l -> k <> k' -> (u, k') ∈ without t (l_timers l)).
  { intros u k' H Hne. apply elem_without. split; [|done]. intros ->. by destruct Hne; eapply timer_kind. }
  split; rewrite ?E1, ?E2, ?E3, ?E4, ?E5, ?E6; try done.
  - by apply without_ok.
  - intros u k' [_ H]%elem_without. eauto.
  - intros id p [H Hne]%Hfs. auto.
  - intros id p [H Hne]%Hcr. auto.
  - intros id p [H Hne]%Hsv. auto.
  - intros u. rewrite Hrc, elem_without, bk_reconnect0. tauto.
  - intros u [H Hne]%Hfb. destruct (bk_failback0 _ H) as [g Hg]. eauto.
  - intros p pr [H Hne]%Hpr. auto.
  - intros p pr [H _]%Hpr. eauto.
  - by apply ledger_promises_remove.
Qed.

(** The settling of a request, answered or timed out. *)
Section Fire.
Context (l : Ledger) (t : nat) (id : jsstr) (p : nat).

Ltac removes_tac :=
  intros Hb Hin; eapply (books_remove t _ l); [|exact Hb];
  pose proof (bk_timers l Hb) as Htm; pose proof (bk_reconnect l Hb) as Hrc; destruct Hb; unfold without_timer;
  split; ledger_tac; try done;
  try (by intros ? ? H'%elem_map_delete; [|done]; split; [apply H'|]; intros [= ? ?]; apply H');
  try (by intros ? ? H'%elem_map_delete; [|done]; split; [apply H'|]; intros [= ?]; apply H');
  try (by split_and!; auto with atterm);
  try (by intros u; split; [|tauto]; intros Hu; split; [done|]; intros ->;
       apply Hrc in Hu; by pose proof (timer_kind _ _ _ _ Htm Hu Hin)).

Lemma books_fire_fs :
  books l -> (t, FSRequestTimer id p) ∈ l_timers l ->
  books (without_timer t (FSRequestTimer id p) l <| l_fs := map_delete (l_fs l) id |>).
Proof. removes_tac. Qed.

Lemma books_fire_create :
  books l -> (t, SessionCreateTimer id p) ∈ l_timers l ->
  books (without_timer t (SessionCreateTimer id p) l <| l_creates := map_delete (l_creates l) id |>).
Proof. removes_tac. Qed.

Lemma books_fire_service :
  books l -> (t, ServiceOpenTimer id p) ∈ l_timers l ->
  books (without_timer t (ServiceOpenTimer id p) l <| l_services := map_delete (l_services l) id |>).
Proof. removes_tac. Qed.

Lemma books_fire_reconnect :
  books l -> (t, ReconnectTimer) ∈ l_timers l -> books (without_timer t ReconnectTimer l <| l_reconnect := None |>).
Proof.
  removes_tac. intros u. split; [done|]. intros [Hu Hne]. apply Hrc in Hin. congruence.
Qed.

Lemma books_fire_failback g :
  books l -> (t, FailbackTimer g) ∈ l_timers l -> books (without_timer t (FailbackTimer g) l <| l_failback := None |>).
Proof. removes_tac. Qed.

Lemma books_fire_probe q :
  books l -> (t, ProbeTimer q) ∈ l_timers l ->
  books (without_timer t (ProbeTimer q) l <| l_probes := map_delete (l_probes l) q |>).
Proof. removes_tac. Qed.
End Fire.

(** A timer of a probe that is gone may be cleared again. *)
Lemma books_stray_probe t l :
  books l -> (forall k, (t, k) ∈ l_timers l -> exists q, k = ProbeTimer q /\ q ∉ map_keys (l_probes l)) ->
  books (l <| l_timers := without t (l_timers l) |>).
Proof.
  intros Hb Ht. destruct (decide (t ∈ map_keys (l_timers l))) as [([u k] & -> & Hin)%list_elem_of_fmap|Hn].
  2: { rewrite without_absent by done. by destruct l. }
  cbn [fst] in *. destruct (Ht _ Hin) as (q & -> & Hq).
  assert (E : map_delete (l_probes l) q = l_probes l) by (by apply map_delete_absent, map_get_none).
  pose proof (books_fire_probe l u q Hb Hin) as H. unfold without_timer in H. rewrite E in H. cbn in H.
  rewrite app_nil_r in H. by destruct l.
Qed.

(** ** Requests *)

Lemma books_open_fs l id g :
  books l ->
  books (with_timer (FSRequestTimer id (l_nextPromise l)) l <| l_nextPromise := S (l_nextPromise l) |>
           <| l_fs := map_set (l_fs l) id (mkPending g (l_nextPromise l) (l_nextTimer l)) |>).
Proof.
  intros []. unfold with_timer. split; ledger_tac; try done.
  - by apply fresh_timer_ok.
  - intros t k' [H|[= -> ->]]%elem_snoc; [|lia]. specialize (bk_fresh0 _ _ H). lia.
  - intros i p [[-> ->]|[_ H]]%elem_map_set; [|auto|done]; apply elem_snoc; cbn; auto.
  - intros i p H. apply elem_snoc. auto.
  - intros i p H. apply elem_snoc. auto.
  - by apply map_ok_set.
  - intros t. rewrite elem_snoc, bk_reconnect0. naive_solver.
  - intros t H. destruct (bk_failback0 _ H) as [h Hg]. exists h. apply elem_snoc. auto.
  - intros p pr H. apply elem_snoc. auto.
  - by apply (ledger_promises_add l (FSRequestTimer id (l_nextPromise l))).
Qed.

Lemma books_open_create l id g :
  books l ->
  books (with_timer (SessionCreateTimer id (l_nextPromise l)) l <| l_nextPromise := S (l_nextPromise l) |>
           <| l_creates := map_set (l_creates l) id (mkPending g (l_nextPromise l) (l_nextTimer l)) |>).
Proof.
  intros []. unfold with_timer. split; ledger_tac; try done.
  - by apply fresh_timer_ok.
  - intros t k' [H|[= -> ->]]%elem_snoc; [|lia]. specialize (bk_fresh0 _ _ H). lia.
  - intros i p H. apply elem_snoc. auto.
  - intros i p [[-> ->]|[_ H]]%elem_map_set; [|auto|done]; apply elem_snoc; cbn; auto.
  - intros i p H. apply elem_snoc. auto.
  - by apply map_ok_set.
  - intros t. rewrite elem_snoc, bk_reconnect0. naive_solver.
  - intros t H. destruct (bk_failback0 _ H) as [h Hg]. exists h. apply elem_snoc. auto.
  - intros p pr H. apply elem_snoc. auto.
  - by apply (ledger_promises_add l (SessionCreateTimer id (l_nextPromise l))).
Qed.

Lemma books_open_service l id sid att g :
  books l ->
  books (with_timer (ServiceOpenTimer id (l_nextPromise l)) l <| l_nextPromise := S (l_nextPromise l) |>
           <| l_services := map_set (l_services l) id (mkPendingService (mkPending g (l_nextPromise l) (l_nextTimer l)) sid att) |>).
Proof.
  intros []. unfold with_timer. split; ledger_tac; try done.
  - by apply fresh_timer_ok.
  - intros t k' [H|[= -> ->]]%elem_snoc; [|lia]. specialize (bk_fresh0 _ _ H). lia.
  - intros i p H. apply elem_snoc. auto.
  - intros i p H. apply elem_snoc. auto.
  - intros i p [[-> ->]|[_ H]]%elem_map_set; [|auto|done]; apply elem_snoc; cbn; auto.
  - by apply map_ok_set.
  - intros t. rewrite elem_snoc, bk_reconnect0. naive_solver.
  - intros t H. destruct (bk_failback0 _ H) as [h Hg]. exists h. apply elem_snoc. auto.
  - intros p pr H. apply elem_snoc. auto.
  - by apply (ledger_promises_add l (ServiceOpenTimer id (l_nextPromise l))).
Qed.

(** A promise rejected at once, and the promise of a paste. *)
Lemma books_rejected l :
  books l -> books (l <| l_nextPromise := S (l_nextPromise l) |> <| l_settled := l_settled l ++ [l_nextPromise l] |>).
Proof.
  intros []. split; ledger_tac; try done. rewrite seq_S, <- bk_promises0. rewrite <- !(assoc_L (++)).
  apply Permutation_app_head. rewrite (comm (++) [l_nextPromise l]). by rewrite <- (assoc_L (++)).
Qed.

Lemma books_paste l :
  books l -> books (l <| l_nextPromise := S (l_nextPromise l) |> <| l_pastes := l_pastes l ++ [l_nextPromise l] |>).
Proof. intros []. split; ledger_tac; try done. rewrite seq_S, <- bk_promises0. by rewrite <- !(assoc_L (++)). Qed.

Lemma books_pasted l p pastes :
  books l -> l_pastes l ≡ₚ p :: pastes -> books (l <| l_pastes := pastes |> <| l_settled := l_settled l ++ [p] |>).
Proof.
  intros [] Hp. split; ledger_tac; try done. rewrite <- bk_promises0, Hp, <- !(assoc_L (++)).
  apply Permutation_app_head. cbn. by rewrite Permutation_middle.
Qed.

(** An entry that is deleted leaves its timer to run. *)
Lemma books_forget l fs creates services :
  books l -> map_ok fs -> map_ok creates -> map_ok services ->
  (forall x, x ∈ fs -> x ∈ l_fs l) -> (forall x, x ∈ creates -> x ∈ l_creates l) -> (forall x, x ∈ services -> x ∈ l_services l) ->
  books (l <| l_fs := fs |> <| l_creates := creates |> <| l_services := services |>).
Proof. intros [] ? ? ? Hf Hc Hs. split; ledger_tac; auto. Qed.
