(* ===== verification/PeerSessionView.v ===== *)
(** * What the route of the peer session connection depends on

    [View]: the part of the state that decides which transport is in use and
    what happens when it is lost. Most statements of the class leave it alone
    ([quiet]); the few that change it are followed one by one ([wp]). *)

From S2P Require Import Prelude Bytes JsString JsMap Json Proto FsSegments DirectCrypto ConnWire.
From S2P Require Import EventLoop Transport NativeDirect PeerSession.

Record View := mkView {
  v_transport : option nat;
  v_generation : Z;
  v_ready : bool;
  v_detached : bool;
  v_suspended : bool;
  v_reconnect : option nat;
  v_fallback : bool;
  v_handover : option nat;
  v_made : list (Z * option bool);  (* per transport: its generation and, made for a handover, whether promoted *)
  v_closed : list nat;
  v_threw : list nat;               (* the transports whose start threw *)
  v_probes : list (nat * Probe);
  v_nextProbe : nat;
}.
#[export] Instance eta_view : Eta View :=
  fun v => mkView (v_transport v) (v_generation v) (v_ready v) (v_detached v) (v_suspended v) (v_reconnect v)
    (v_fallback v) (v_handover v) (v_made v) (v_closed v) (v_threw v) (v_probes v) (v_nextProbe v).

(** The transports closed so far. *)
Definition closes (l : list Effect) : list nat :=
  omap (fun e => match e with CloseTransport t => Some t | _ => None end) l.

(** The transports whose [start] threw. *)
Definition throws (l : list Effect) : list nat :=
  omap (fun e => match e with StartRaised t _ => Some t | _ => None end) l.

Definition made_of (x : PeerTransport) : Z * option bool := (t_generation x, option_map h_promoted (t_handover x)).

Definition view (w : PeerWorld) : View :=
  let c := this w in
  mkView (transport c) (generation c) (ready c) (detached c) (suspended c) (reconnectTimer c) (fallbackPending c)
    (handover c) (map made_of (transports w)) (closes (trace w)) (throws (trace w)) (probes w) (nextProbe w).

(** ** Stepping through a method *)

(** What holds of the outcome and the state in which [m] ends from [w]. *)
Definition wp {A} (m : M A) (Q : outcome A -> PeerWorld -> Prop) (w : PeerWorld) : Prop := Q (snd (m w)) (fst (m w)).

Lemma wp_bind {A B} (m : M A) (k : A -> M B) Q w :
  wp m (fun o w' => match o with Done a => wp (k a) Q w' | Raise e => Q (Raise e) w' end) w -> wp (bind m k) Q w.
Proof. unfold wp, bind. by destruct (m w) as [w' [a|e]]. Qed.

Lemma wp_mono {A} (m : M A) (Q R : outcome A -> PeerWorld -> Prop) w :
  wp m Q w -> (forall o w', Q o w' -> R o w') -> wp m R w.
Proof. unfold wp. auto. Qed.

(** It returns, and the view is as before. *)
Definition quiet {A} (m : M A) : Prop := forall w, view (fst (m w)) = view w /\ exists a, snd (m w) = Done a.

Lemma wp_quiet {A B} (m : M A) (k : A -> M B) Q w :
  quiet m -> (forall a w', view w' = view w -> wp (k a) Q w') -> wp (bind m k) Q w.
Proof. intros Hm Hk. apply wp_bind. unfold wp at 1. destruct (Hm w) as (Hv & a & ->). by apply Hk. Qed.

Lemma quiet_bind {A B} (m : M A) (k : A -> M B) : quiet m -> (forall a, quiet (k a)) -> quiet (bind m k).
Proof.
  intros Hm Hk w. unfold bind. destruct (Hm w) as (Hv & a & Ha). destruct (m w) as [w' o]. cbn in Hv, Ha. subst o.
  destruct (Hk a w') as (Hv' & b & Hb). split; [by rewrite Hv'|by exists b].
Qed.

Lemma quiet_gets {A} (f : PeerWorld -> A) : quiet (gets f).
Proof. intros w. cbn. eauto. Qed.
Lemma quiet_ret {A} (a : A) : quiet (ret a).
Proof. intros w. cbn. eauto. Qed.
Lemma quiet_modify f : (forall w, view (f w) = view w) -> quiet (modify f).
Proof. intros Hf w. cbn. eauto. Qed.
Lemma quiet_settled {A} (m : M A) : preserves view m -> quiet (settled m).
Proof. intros Hm w. split; [apply Hm|]. by exists (snd (m w)). Qed.

Lemma quiet_emitting e : (match e with CloseTransport _ | StartRaised _ _ => False | _ => True end) -> quiet (emit e).
Proof.
  intros He. apply quiet_modify. intros w. unfold view. cbn -[closes throws]. f_equal; unfold closes, throws; rewrite omap_app;
    destruct e; try done; cbn; by rewrite app_nil_r.
Qed.
Create HintDb quiet.
#[export] Hint Resolve quiet_gets quiet_ret quiet_settled : quiet.

Ltac quiet_tac :=
  repeat first
    [ solve [auto with quiet]
    | apply quiet_emitting; exact I
    | apply quiet_modify; intros ?; reflexivity
    | match goal with
      | |- quiet (bind _ _) => apply quiet_bind; [|intros ?]
      | |- quiet (if ?b then _ else _) => destruct b
      | |- quiet (match ?x with _ => _ end) => destruct x
      | |- quiet (when ?b _) => unfold when
      | |- quiet (let _ := _ in _) => cbv zeta
      end ].

Lemma quiet_reading {A} (f : PeerConn -> A) : quiet (self f).
Proof. apply quiet_gets. Qed.
Lemma quiet_tick {A} (supply : nat -> A) : quiet (tick supply).
Proof. unfold tick. quiet_tac. Qed.
#[export] Hint Resolve quiet_reading quiet_tick : quiet.

Lemma quiet_setTimeout k d : quiet (setTimeout k d).
Proof. unfold setTimeout. quiet_tac. Qed.
Lemma quiet_clearTimeout t : quiet (clearTimeout t).
Proof. unfold clearTimeout. quiet_tac. Qed.
Lemma quiet_newPromise : quiet newPromise.
Proof. unfold newPromise. quiet_tac. Qed.
Lemma quiet_settle p s : quiet (settle p s).
Proof. unfold settle. quiet_tac. Qed.
#[export] Hint Resolve quiet_setTimeout quiet_clearTimeout quiet_newPromise quiet_settle : quiet.
Lemma quiet_rejected m : quiet (rejected m).
Proof. unfold rejected. quiet_tac. Qed.
Lemma quiet_emitRoute r : quiet (emitRoute r).
Proof. unfold emitRoute. quiet_tac. Qed.
Lemma quiet_emitHandoverRoute t : quiet (emitHandoverRoute t).
Proof. unfold emitHandoverRoute. quiet_tac. Qed.
Lemma quiet_clearDirectFailbackTimer : quiet clearDirectFailbackTimer.
Proof. unfold clearDirectFailbackTimer, assign. quiet_tac. Qed.
#[export] Hint Resolve quiet_rejected quiet_emitRoute quiet_emitHandoverRoute quiet_clearDirectFailbackTimer : quiet.
Lemma quiet_scheduleDirectFailback : quiet scheduleDirectFailback.
Proof. unfold scheduleDirectFailback, assign. quiet_tac. Qed.
Lemma quiet_reject_all l err : quiet (reject_all l err).
Proof. induction l; cbn [reject_all]; quiet_tac. Qed.
#[export] Hint Resolve quiet_scheduleDirectFailback quiet_reject_all : quiet.
Lemma quiet_rejectPending : quiet rejectPending.
Proof.
  unfold rejectPending, rejectPendingFSRequests, rejectPendingSessionCreates, rejectPendingServiceOpens, assign. quiet_tac.
Qed.
Lemma quiet_failback_failed : quiet failback_failed.
Proof. unfold failback_failed, assign. quiet_tac. Qed.
#[export] Hint Resolve quiet_rejectPending quiet_failback_failed : quiet.

Lemma quiet_set_handover t f : (forall h, h_promoted (f h) = h_promoted h) -> quiet (set_handover t f).
Proof.
  intros Hf. apply quiet_modify. intros w. unfold view. cbn. f_equal. change (map made_of) with (fmap (M:=list) made_of).
  apply list_eq. intros i. rewrite !list_lookup_fmap. destruct (decide (i = t)) as [->|Hne].
  - rewrite list_lookup_alter, decide_True by done. destruct (transports w !! t) as [[g [h|]]|]; [|done..]. cbn. unfold made_of. cbn. by rewrite Hf.
  - by rewrite list_lookup_alter_ne.
Qed.

Lemma close_transport_view t w :
  view (fst (close_transport t w)) = (view w) <| v_closed := v_closed (view w) ++ option_list t |> /\
  snd (close_transport t w) = Done tt.
Proof.
  destruct t as [t|]; (split; [|done]); unfold view; cbn.
  - unfold closes, throws. rewrite !omap_app. cbn. by rewrite app_nil_r.
  - by rewrite app_nil_r.
Qed.

(** The statements that change the view. *)
Section Steps.
Context {B : Type} (Q : outcome B -> PeerWorld -> Prop).
Implicit Types (w : PeerWorld).

Lemma wp_ret a w : Q (Done a) w -> wp (ret a) Q w.
Proof. done. Qed.

Lemma wp_gets {A} (f : PeerWorld -> A) (k : A -> M B) w : wp (k (f w)) Q w -> wp (bind (gets f) k) Q w.
Proof. done. Qed.

Lemma wp_self {A} (f : PeerConn -> A) (k : A -> M B) w : wp (k (f (this w))) Q w -> wp (bind (self f) k) Q w.
Proof. done. Qed.

Lemma wp_tick {A} (supply : nat -> A) (k : A -> M B) w :
  (forall n w', view w' = view w -> wp (k (supply n)) Q w') -> wp (bind (tick supply) k) Q w.
Proof. intros Hk. unfold tick. apply wp_bind. by apply (Hk (ticks w)). Qed.

Lemma wp_modify f (k : unit -> M B) w : wp (k tt) Q (f w) -> wp (bind (modify f) k) Q w.
Proof. done. Qed.

Lemma wp_assign f (k : unit -> M B) w : wp (k tt) Q (w <| this := f (this w) |>) -> wp (bind (assign f) k) Q w.
Proof. done. Qed.

Lemma wp_close t (k : unit -> M B) w :
  (forall w', view w' = (view w) <| v_closed := v_closed (view w) ++ option_list t |> -> wp (k tt) Q w') ->
  wp (bind (close_transport t) k) Q w.
Proof.
  intros Hk. destruct (close_transport_view t w) as [Hv Ho]. apply wp_bind. unfold wp at 1. rewrite Ho. by apply Hk.
Qed.

Lemma wp_new_transport x (k : unit -> M B) w :
  (forall w', view w' = (view w) <| v_made := v_made (view w) ++ [made_of x] |> -> wp (k tt) Q w') ->
  wp (bind (modify (fun w => w <| transports := transports w ++ [x] |>)) k) Q w.
Proof. intros Hk. apply Hk. unfold view. cbn. by rewrite map_app. Qed.

Lemma wp_transport_start `{PeerHost} t (k : StartOutcome -> M B) w :
  (forall n w', view w' = (view w) <| v_threw := v_threw (view w) ++
       match start_outcome n with StartThrew _ => [t] | _ => [] end |> -> wp (k (start_outcome n)) Q w') ->
  wp (bind (transport_start t) k) Q w.
Proof.
  intros Hk. specialize (Hk (ticks w)). unfold wp in *. unfold transport_start, tick, emit, bind, gets, modify, ret.
  destruct (start_outcome (ticks w)) as [|err|err]; apply Hk; unfold view; cbn -[closes throws].
  1,2: by rewrite app_nil_r.
  unfold closes, throws, set_field. cbn. rewrite !omap_app. cbn. by rewrite app_nil_r.
Qed.

Lemma wp_promote t g b (k : unit -> M B) w :
  v_made (view w) !! t = Some (g, Some b) ->
  (forall w', view w' = (view w) <| v_made := <[t := (g, Some true)]> (v_made (view w)) |> ->
     this w' = this w -> trace w' = trace w -> pastes w' = pastes w -> wp (k tt) Q w') ->
  wp (bind (set_handover t (fun h => h <| h_promoted := true |>)) k) Q w.
Proof.
  intros Ht Hk. apply Hk; [|done..]. unfold view. cbn in Ht |- *. unfold set_field. f_equal. apply list_eq. intros i.
  change (map made_of) with (fmap (M:=list) made_of) in *. rewrite list_lookup_fmap in Ht. rewrite list_lookup_fmap.
  destruct (decide (i = t)) as [->|Hne].
  - rewrite list_lookup_alter, decide_True by done. destruct (transports w !! t) as [[g' [h|]]|] eqn:E; [|done..]. cbn in Ht |- *.
    injection Ht as -> _. rewrite list_lookup_insert_eq; [done|]. rewrite length_fmap. by eapply lookup_lt_Some.
  - rewrite list_lookup_alter_ne, list_lookup_insert_ne by done. by rewrite list_lookup_fmap.
Qed.
End Steps.
