(* ===== verification/PeerSessionRoute.v ===== *)
(** * Which transport the peer session connection uses

    [route_inv]: from its first start to its end the connection has a transport
    in use, or waits for something that gives it one; and never for two things
    at once. Every event keeps it. *)

From S2P Require Import Prelude Bytes JsString JsMap Json Proto FsSegments DirectCrypto ConnWire.
From S2P Require Import EventLoop Transport NativeDirect PeerSession PeerSessionView.

#[export] Instance probe_kind_eq_dec : EqDecision ProbeKind.
Proof. solve_decision. Defined.

(** ** The invariant *)

Definition running (v : View) : Prop := v_detached v = false /\ v_suspended v = false.

(** Nothing waits for a new transport. *)
Definition not_waiting (v : View) : Prop := v_reconnect v = None /\ v_fallback v = false.

(** Transport [t] is the handover of the generation in use. *)
Definition handing_over (v : View) (t : nat) : Prop :=
  v_handover v = Some t /\ v_made v !! t = Some (v_generation v, Some false).

Record route_ok (v : View) : Prop := {
  rt_use t : v_transport v = Some t ->
    (exists b, v_made v !! t = Some (v_generation v, b) /\ b <> Some false) /\ t ∉ v_closed v /\ running v /\ not_waiting v;
  rt_handover t : v_handover v = Some t -> exists g, v_made v !! t = Some (g, Some false) /\ t ∉ v_closed v /\ running v;
  rt_handing_over t : handing_over v t -> not_waiting v;
  rt_past t g b : v_made v !! t = Some (g, b) -> g <= v_generation v;
  rt_stopped : ~ running v -> not_waiting v;
  rt_one_wait : v_reconnect v <> None -> v_fallback v = false;
  rt_fallback : v_fallback v = true ->
    exists p pr, (p, pr) ∈ v_probes v /\ pr_kind pr = FallbackProbe /\ pr_generation pr = v_generation v;
  rt_probes : map_ok (v_probes v);
  rt_probes_fresh p pr : (p, pr) ∈ v_probes v -> (p < v_nextProbe v)%nat;
  rt_closed t : t ∈ v_closed v -> (t < length (v_made v))%nat;
  rt_held t : (t < length (v_made v))%nat ->
    t ∈ v_closed v \/ v_transport v = Some t \/ v_handover v = Some t \/ t ∈ v_threw v;
  rt_start : 0 <= v_generation v;
}.

(** What the connection that was started and not stopped has or waits for. *)
Definition has_way (v : View) : Prop :=
  v_transport v <> None \/ v_reconnect v <> None \/ v_fallback v = true \/ exists t, handing_over v t.

Record route_inv (v : View) : Prop := {
  or_ok : route_ok v;
  or_ready : v_ready v = true -> v_transport v <> None;
  or_live : 0 < v_generation v -> running v -> has_way v;
}.

(** A transport is gone and nothing was done about it yet. *)
Record lost (v : View) : Prop := {
  lo_ok : route_ok v;
  lo_transport : v_transport v = None;
  lo_waiting : not_waiting v;
  lo_handover t : ~ handing_over v t;
}.

Ltac view_tac :=
  unfold running, not_waiting, handing_over in *;
  cbn [set_field v_transport v_generation v_ready v_detached v_suspended v_reconnect v_fallback v_handover v_made v_closed v_threw v_probes v_nextProbe] in *.

Section Views.
Implicit Types (v : View).

Lemma lost_reconnect v t : lost v -> running v -> v_ready v = false -> route_inv (v <| v_reconnect := Some t |>).
Proof.
  intros [[] ? ? Hh] [] Hr. split; [split|..]; view_tac; try done.
  - intros u. rewrite lo_transport0. done.
  - intros u Hu. by destruct (Hh u).
  - intros []. by split.
  - by destruct lo_waiting0.
  - by rewrite Hr.
  - intros _ _. right. by left.
Qed.

Lemma lost_fallback v tm :
  lost v -> running v -> v_ready v = false ->
  route_inv (v <| v_fallback := true |>
    <| v_probes := v_probes v ++ [(v_nextProbe v, mkProbe FallbackProbe (v_generation v) tm)] |> <| v_nextProbe := S (v_nextProbe v) |>).
Proof.
  intros [[] ? ? Hh] [] Hr. split; [split|..]; view_tac; try done.
  - intros u. rewrite lo_transport0. done.
  - intros u Hu. by destruct (Hh u).
  - intros []. by split.
  - by destruct lo_waiting0.
  - intros _. eexists _, _. split; [apply elem_of_app; right; by apply list_elem_of_singleton|done].
  - unfold map_ok, map_keys in *. rewrite map_app. apply NoDup_app. split_and!; [done| |apply NoDup_singleton].
    intros p ([q pr] & E & Hx)%list_elem_of_fmap Hq%list_elem_of_singleton. cbn in E, Hq.
    specialize (rt_probes_fresh0 _ _ Hx). lia.
  - intros p pr [Hin|[= -> ->]%list_elem_of_singleton]%elem_of_app; [|lia]. specialize (rt_probes_fresh0 _ _ Hin). lia.
  - by rewrite Hr.
  - intros _ _. right. right. by left.
Qed.

(** The transport in use fails while a handover is under way. *)
Lemma lose_to_handover v t h :
  route_inv v -> v_transport v = Some t -> handing_over v h ->
  route_inv (v <| v_transport := None |> <| v_closed := v_closed v ++ [t] |> <| v_ready := false |>).
Proof.
  intros [[] _ _] Ht Hh. pose proof (rt_use0 _ Ht) as ((b & Hb & Hn) & Hc & Hr & Hw). split; [split|..]; view_tac; try done.
  - intros u Hu. destruct (rt_handover0 _ Hu) as (g & Hg & Hx & Hy). exists g. split; [done|]. split; [|done].
    rewrite elem_of_app, list_elem_of_singleton. intros [?| ->]; [done|]. congruence.
  - intros u [Hu| ->%list_elem_of_singleton]%elem_of_app; [auto|]. by eapply lookup_lt_Some.
  - intros u Hu. rewrite elem_of_app, list_elem_of_singleton. destruct (rt_held0 u Hu) as [?|[?|[?|?]]]; [auto| |auto|auto].
    left. right. congruence.
  - intros _ _. right. right. right. by exists h.
Qed.

Lemma lose_transport v t :
  route_ok v -> v_transport v = Some t -> (forall u, ~ handing_over v u) ->
  lost (v <| v_transport := None |> <| v_closed := v_closed v ++ [t] |>).
Proof.
  intros [] Ht Hh. pose proof (rt_use0 _ Ht) as ((b & Hb & Hn) & Hc & Hr & Hw). split; [split|..]; view_tac; try done.
  - intros u Hu. destruct (rt_handover0 _ Hu) as (g & Hg & Hx & Hy). exists g. split; [done|]. split; [|done].
    rewrite elem_of_app, list_elem_of_singleton. intros [?| ->]; [done|]. congruence.
  - intros u [Hu| ->%list_elem_of_singleton]%elem_of_app; [auto|]. by eapply lookup_lt_Some.
  - intros u Hu. rewrite elem_of_app, list_elem_of_singleton. destruct (rt_held0 u Hu) as [?|[?|[?|?]]]; [auto| |auto|auto].
    left. right. congruence.
Qed.

(** Both the handover and the transport in use are given up. *)
Definition dropped (v : View) : View :=
  v <| v_handover := None |> <| v_transport := None |>
    <| v_closed := v_closed v ++ option_list (v_handover v) ++ option_list (v_transport v) |>.

Lemma elem_option_list {A} (o : option A) x : x ∈ option_list o <-> o = Some x.
Proof. destruct o; cbn; [rewrite list_elem_of_singleton; naive_solver|]. split; [by intros ?%elem_of_nil|done]. Qed.

Lemma dropped_ok v : route_ok v -> (forall t, v_handover v = Some t -> handing_over v t -> not_waiting v) -> route_ok (dropped v).
Proof.
  intros [] Hw. unfold dropped. split; view_tac; try done.
  - by intros u [].
  - intros u. rewrite !elem_of_app, !elem_option_list. intros [?|[Hu|Hu]]; [auto| |].
    + destruct (rt_handover0 _ Hu) as (g & Hg & _). by eapply lookup_lt_Some.
    + destruct (rt_use0 _ Hu) as ((b & Hb & _) & _). by eapply lookup_lt_Some.
  - intros u Hu. rewrite !elem_of_app, !elem_option_list. destruct (rt_held0 u Hu) as [?|[?|[?|?]]]; auto.
Qed.

Lemma drop_handover v t : route_ok v -> handing_over v t -> lost (dropped v).
Proof.
  intros Hv Ht. pose proof (rt_handing_over _ Hv _ Ht) as Hw. split; [apply dropped_ok; auto|done|done|]. by intros u [].
Qed.

(** [closeTransport] *)
Definition stopped (v : View) : View :=
  (dropped v) <| v_generation := v_generation v + 1 |> <| v_fallback := false |> <| v_ready := false |>.

Lemma stopped_lost v d s :
  route_ok v -> lost (stopped (v <| v_detached := d |> <| v_suspended := s |> <| v_reconnect := None |>)).
Proof.
  intros Hv. unfold stopped, dropped. destruct Hv. split; [split|..]; view_tac; try done.
  - intros u g b Hu. specialize (rt_past0 _ _ _ Hu). lia.
  - intros u. rewrite !elem_of_app, !elem_option_list. intros [?|[Hu|Hu]]; [auto| |].
    + destruct (rt_handover0 _ Hu) as (g & Hg & _). by eapply lookup_lt_Some.
    + destruct (rt_use0 _ Hu) as ((b & Hb & _) & _). by eapply lookup_lt_Some.
  - intros u Hu. rewrite !elem_of_app, !elem_option_list. destruct (rt_held0 u Hu) as [?|[?|[?|?]]]; auto.
  - lia.
  - by intros u [].
Qed.

(** A new transport of a new generation. *)
Lemma started v :
  route_ok v -> v_transport v = None -> not_waiting v -> running v ->
  let v' := v <| v_generation := v_generation v + 1 |> <| v_ready := false |> in
  route_inv (v' <| v_made := v_made v ++ [(v_generation v + 1, None)] |> <| v_transport := Some (length (v_made v)) |>).
Proof.
  intros [] Hn Hw Hr. assert (Hlen : forall t, t ∈ v_closed v -> t <> length (v_made v)).
  { intros t Ht ->. specialize (rt_closed0 _ Ht). lia. }
  split; [split|..]; view_tac; try done.
  - intros t [= <-]. rewrite lookup_app_r, Nat.sub_diag by lia. split; [by eexists|].
    split; [|done]. intros Hin. by apply (Hlen _ Hin).
  - intros t Ht. destruct (rt_handover0 _ Ht) as (g & Hg & Hx & Hy). exists g. by rewrite (lookup_app_l_Some _ _ _ _ Hg).
  - intros t g b [Ht|[? Ht]]%lookup_app_Some; [specialize (rt_past0 _ _ _ Ht); lia|].
    apply list_lookup_singleton_Some in Ht as [_ [= <- _]]. lia.
  - intros Hf. destruct Hw. congruence.
  - intros t Ht. rewrite length_app. cbn. specialize (rt_closed0 _ Ht). lia.
  - intros t. rewrite length_app. cbn. intros Ht. destruct (decide (t = length (v_made v))) as [->|Hne]; [auto|].
    destruct (rt_held0 t) as [?|[?|[?|?]]]; [lia|auto|congruence|auto|auto].
  - lia.
  - intros _ _. by left.
Qed.

(** A start that made no transport. *)
Lemma start_failed v :
  route_ok v -> v_transport v = None -> not_waiting v -> running v ->
  lost (v <| v_generation := v_generation v + 1 |> <| v_ready := false |>).
Proof.
  intros [] Hn Hw Hr. split; [split|..]; view_tac; try done.
  - intros t. by rewrite Hn.
  - intros t g b Ht. specialize (rt_past0 _ _ _ Ht). lia.
  - intros Hf. destruct Hw. congruence.
  - lia.
  - intros t [Ht1 Ht2]. specialize (rt_past0 _ _ _ Ht2). lia.
Qed.

Lemma lost_stopped v : lost v -> ~ running v -> v_ready v = false -> route_inv v.
Proof. intros [Hv Ht Hw Hh] Hr Hy. split; [done|by rewrite Hy|done]. Qed.

(** What the connection waited for has come. *)
Lemma waited v :
  route_ok v -> v_reconnect v <> None \/ v_fallback v = true ->
  v_transport v = None /\ lost (v <| v_reconnect := None |> <| v_fallback := false |>).
Proof.
  intros [] Hw. assert (Ht : v_transport v = None).
  { destruct (v_transport v) as [t|] eqn:E; [|done]. destruct (rt_use0 _ eq_refl) as (_ & _ & _ & Hx & Hy).
    destruct Hw; congruence. }
  split; [done|]. split; [split|..]; view_tac; try done.
  - intros t. by rewrite Ht.
  - intros t Hh. destruct (rt_handing_over0 _ Hh), Hw; congruence.
Qed.

(** A transport for a handover is made. *)
Lemma handover_started v :
  route_inv v -> v_transport v <> None -> v_handover v = None ->
  route_inv (v <| v_made := v_made v ++ [(v_generation v, Some false)] |> <| v_handover := Some (length (v_made v)) |>).
Proof.
  intros [[] Hy Hl] Ht Hh. destruct (v_transport v) as [t|] eqn:E; [|done].
  destruct (rt_use0 _ eq_refl) as ((b & Hb & Hn) & Hc & Hr & Hw).
  assert (Hlen : length (v_made v) ∉ v_closed v) by (intros Hin; specialize (rt_closed0 _ Hin); lia).
  split; [split|..]; view_tac; rewrite ?E in *; try done.
  - intros u [= <-]. split; [|done]. exists b. by rewrite (lookup_app_l_Some _ _ _ _ Hb).
  - intros u [= <-]. exists (v_generation v). by rewrite lookup_app_r, Nat.sub_diag by lia.
  - intros u g c [Hu|[? Hu]]%lookup_app_Some; [eauto|]. apply list_lookup_singleton_Some in Hu as [_ [= <- _]]. lia.
  - intros u Hu. rewrite length_app. cbn. specialize (rt_closed0 _ Hu). lia.
  - intros u. rewrite length_app. cbn. intros Hu. destruct (decide (u = length (v_made v))) as [->|Hne]; [auto|].
    destruct (rt_held0 u) as [?|[?|[?|?]]]; [lia|auto|auto|congruence|auto].
  - intros _ _. left. change (v_transport v <> None). congruence.
Qed.

(** The transport in use is ready. *)
Lemma made_ready v : route_inv v -> v_transport v <> None -> route_inv (v <| v_ready := true |>).
Proof. intros [[] Hy Hl] Ht. split; [split|..]; view_tac; done. Qed.

(** The handover becomes the transport in use. *)
Lemma handover_promoted v t :
  route_inv v -> handing_over v t ->
  route_inv (v <| v_made := <[t := (v_generation v, Some true)]> (v_made v) |> <| v_handover := None |>
    <| v_transport := Some t |> <| v_ready := true |> <| v_closed := v_closed v ++ option_list (v_transport v) |>).
Proof.
  intros [[] Hy Hl] Hh. pose proof Hh as [Hh1 Hh2]. destruct (rt_handover0 _ Hh1) as (g & Hg & Hc & Hr).
  assert (Hlt : (t < length (v_made v))%nat) by (by eapply lookup_lt_Some).
  assert (Htt : v_transport v <> Some t).
  { intros E. destruct (rt_use0 _ E) as ((b & Hb & Hn) & _). congruence. }
  split; [split|..]; view_tac; try done.
  - intros u [= <-]. split; [exists (Some true); by rewrite list_lookup_insert_eq|]. split; [|split; [done|by apply (rt_handing_over0 t)]].
    rewrite elem_of_app, elem_option_list. tauto.
  - by intros u [].
  - intros u g' b Hu. apply list_lookup_insert_Some in Hu as [(_ & [= <- _] & _)|[_ Hu]]; [lia|eauto].
  - intros u. rewrite length_insert, elem_of_app, elem_option_list. intros [?|Hu]; [auto|].
    destruct (rt_use0 _ Hu) as ((b & Hb & _) & _). by eapply lookup_lt_Some.
  - intros u. rewrite length_insert, elem_of_app, elem_option_list. intros Hu.
    destruct (rt_held0 u Hu) as [?|[?|[?|?]]]; [auto|auto| |auto]. right. left. congruence.
  - intros _ _. by left.
Qed.

(** [attach] after [suspend]. *)
Lemma resumed v : route_inv v -> v_detached v = false -> route_ok (v <| v_suspended := false |>).
Proof.
  intros [[] Hy Hl] Hd. split; view_tac; try done.
  - intros t Ht. destruct (rt_use0 _ Ht) as (Hb & Hc & Hr & Hw). tauto.
  - intros t Ht. destruct (rt_handover0 _ Ht) as (g & Hg & Hc & Hr). exists g. tauto.
  - tauto.
Qed.

(** A transport that threw when it was started is forgotten. *)
Lemma start_abandoned v x :
  lost v -> lost (v <| v_made := v_made v ++ [(v_generation v, x)] |> <| v_threw := v_threw v ++ [length (v_made v)] |>).
Proof.
  intros [[] Ht Hw Hh]. split; [split|..]; view_tac; rewrite ?Ht; try done.
  - intros t Hu. destruct (rt_handover0 _ Hu) as (g & Hg & Hx & Hy). exists g. by rewrite (lookup_app_l_Some _ _ _ _ Hg).
  - intros t g b [Hu|[? Hu]]%lookup_app_Some; [eauto|]. apply list_lookup_singleton_Some in Hu as [_ [= <- _]]. lia.
  - intros t Hu. rewrite length_app. cbn. specialize (rt_closed0 _ Hu). lia.
  - intros t. rewrite length_app, elem_of_app, list_elem_of_singleton. cbn. intros Hu.
    destruct (decide (t = length (v_made v))) as [->|Hne]; [auto|]. destruct (rt_held0 t) as [?|[?|[?|?]]]; [lia|auto|congruence|auto|auto].
  - intros t [Hu1 Hu2]. destruct (rt_handover0 _ Hu1) as (g & Hg & _). rewrite (lookup_app_l_Some _ _ _ _ Hg) in Hu2.
    apply (Hh t). split; congruence.
Qed.

(** A transport's [start] threw: nothing else changes. *)
Lemma threw_inv v l : route_inv v -> route_inv (v <| v_threw := v_threw v ++ l |>).
Proof.
  intros [[] Hy Hl]. split; [split|exact Hy|exact Hl]; view_tac; try done.
  intros t Ht. rewrite elem_of_app. destruct (rt_held0 t Ht) as [?|[?|[?|?]]]; auto.
Qed.

(** ** Probes *)

Lemma failback_probe v g t :
  route_inv v ->
  route_inv (v <| v_probes := v_probes v ++ [(v_nextProbe v, mkProbe FailbackProbe g t)] |> <| v_nextProbe := S (v_nextProbe v) |>).
Proof.
  intros [[] Hy Hl]. split; [split|..]; view_tac; try done.
  - intros Hf. destruct (rt_fallback0 Hf) as (p & pr & Hp & Hk). exists p, pr. split; [apply elem_of_app; by left|done].
  - unfold map_ok, map_keys in *. rewrite map_app. apply NoDup_app. split_and!; [done| |apply NoDup_singleton].
    intros p ([q pr] & E & Hx)%list_elem_of_fmap Hq%list_elem_of_singleton. cbn in E, Hq.
    specialize (rt_probes_fresh0 _ _ Hx). lia.
  - intros p pr [Hin|[= -> ->]%list_elem_of_singleton]%elem_of_app; [|lia]. specialize (rt_probes_fresh0 _ _ Hin). lia.
Qed.

Lemma elem_delete {V} (m : list (nat * V)) k k' (x : V) : map_ok m -> (k', x) ∈ map_delete m k <-> k' <> k /\ (k', x) ∈ m.
Proof.
  intros Hm. split.
  - intros Hi. apply map_in_get in Hi; [|by apply map_ok_delete]. rewrite map_get_delete in Hi by done.
    case_bool_decide; [done|]. split; [congruence|]. by apply map_get_in.
  - intros [Hne Hi]. apply map_get_in. rewrite map_get_delete by done. rewrite bool_decide_eq_false_2 by congruence.
    by apply map_in_get.
Qed.

Definition probe_done (p : nat) (v : View) : View := v <| v_probes := map_delete (v_probes v) p |>.

Lemma probe_ok v p :
  route_ok v ->
  (v_fallback v = true -> exists q pr, (q, pr) ∈ map_delete (v_probes v) p /\ pr_kind pr = FallbackProbe /\ pr_generation pr = v_generation v) ->
  route_ok (probe_done p v).
Proof.
  intros [] Hf. unfold probe_done. split; view_tac; try done.
  - by apply map_ok_delete.
  - intros q pr [_ Hq]%elem_delete; eauto.
Qed.

(** The probe that has settled is not the one that a fallback waits for. *)
Lemma probe_irrelevant v p pr :
  route_inv v -> map_get (v_probes v) p = Some pr ->
  ~ (pr_kind pr = FallbackProbe /\ pr_generation pr = v_generation v) -> route_inv (probe_done p v).
Proof.
  intros [Hok Hy Hl] Hp Hn. split; [|exact Hy|exact Hl]. apply probe_ok; [done|]. intros Hf.
  destruct (rt_fallback _ Hok Hf) as (q & pr' & Hq & Hk). exists q, pr'. split; [|done]. apply elem_delete; [apply Hok|].
  split; [|done]. intros ->. apply map_in_get in Hq; [|apply Hok]. rewrite Hp in Hq. injection Hq as <-. by apply Hn.
Qed.

Lemma probe_fallback v p :
  route_inv v -> v_fallback v = true ->
  v_transport v = None /\ running v /\ v_ready v = false /\ lost (probe_done p (v <| v_fallback := false |>)).
Proof.
  intros [Hok Hy Hl] Hf. destruct (waited v Hok) as [Ht [Hok' _ Hw' Hh']]; [by right|]. split; [done|].
  assert (Hr : running v).
  { unfold running. destruct (v_detached v) eqn:Ed; [|destruct (v_suspended v) eqn:Es]; [..|done].
    - destruct (rt_stopped _ Hok); [intros [? _]; congruence|congruence].
    - destruct (rt_stopped _ Hok); [intros [_ ?]; congruence|congruence]. }
  split; [done|]. split; [destruct (v_ready v); [by destruct Hy|done]|].
  assert (Hn : v_reconnect v = None).
  { destruct (v_reconnect v) eqn:E; [|done]. rewrite (rt_one_wait _ Hok) in Hf; congruence. }
  assert (E : v <| v_reconnect := None |> <| v_fallback := false |> = v <| v_fallback := false |>).
  { destruct v. cbn in Hn |- *. by rewrite Hn. }
  rewrite E in Hok', Hw', Hh'. split; [apply probe_ok; [done|]; by intros [=]|done|done|done].
Qed.
End Views.

(** ** The methods that lose a transport *)

Section Methods.
Notation good := (fun (_ : outcome unit) (w : PeerWorld) => route_inv (view w)).

Lemma wp_scheduleReconnect w :
  lost (view w) -> running (view w) -> v_ready (view w) = false -> wp scheduleReconnect good w.
Proof.
  intros Hl Hr Hy. unfold scheduleReconnect. apply wp_self. destruct Hr as [Hd Hs], (lo_waiting _ Hl) as [Hrc _].
  cbn in Hd, Hs, Hrc. rewrite Hd, Hs, Hrc. cbn -[assign reconnectDelay]. apply wp_assign.
  apply wp_quiet; [auto with quiet|]. intros t w' Hv. unfold wp. cbv beta.
  change (route_inv ((view w') <| v_reconnect := Some t |>)). rewrite Hv. by apply lost_reconnect.
Qed.

Lemma wp_start_fallback w g :
  lost (view w) -> running (view w) -> v_ready (view w) = false -> g = generation (this w) ->
  wp (let! _ := assign (fun c => c <| fallbackPending := true |>) in let! _ := start_probe FallbackProbe g in ret tt) good w.
Proof.
  intros Hl Hr Hy ->. apply wp_assign. unfold start_probe. apply wp_bind, wp_gets, wp_modify.
  apply wp_quiet; [auto with quiet|]. intros t w' Hv. apply wp_modify, wp_ret. cbn beta iota. apply wp_ret.
  match goal with |- route_inv (view (?w <| probes := _ |>)) => idtac end.
  change (route_inv ((view w') <| v_probes := v_probes (view w') ++ [(nextProbe w, mkProbe FallbackProbe (generation (this w)) t)] |>)).
  rewrite Hv. by apply (lost_fallback (view w) t).
Qed.

Lemma wp_recover w g err :
  lost (view w) -> running (view w) -> g = generation (this w) -> wp (recover g err) good w.
Proof.
  intros Hl Hr Hg. unfold recover. apply wp_self. pose proof Hr as [Hd Hs]. cbn in Hd, Hs. rewrite Hd, Hs. cbn -[assign].
  apply wp_quiet; [auto with quiet|]. intros _ w1 H1. apply wp_quiet; [auto with quiet|]. intros _ w2 H2.
  rewrite H1 in H2. clear w1 H1. apply wp_assign. apply wp_quiet; [quiet_tac|]. intros _ w3 H3. apply wp_self.
  apply wp_quiet; [auto with quiet|]. intros _ w4 H4. rewrite H3 in H4.
  assert (Hv : view w4 = (view w) <| v_ready := false |>).
  { rewrite H4, <- H2. reflexivity. }
  assert (Hl' : lost (view w4)).
  { rewrite Hv. destruct Hl as [[] ? ? ?]. split; [split|..]; view_tac; done. }
  assert (Hr' : running (view w4)) by (by rewrite Hv).
  assert (Hy : v_ready (view w4) = false) by (by rewrite Hv).
  case_match; [|by apply wp_scheduleReconnect]. apply wp_start_fallback; try done.
  rewrite Hg. symmetry. exact (f_equal v_generation Hv).
Qed.

(** The generation and the attempt of a transport, in the view. *)
Lemma made_at w t : v_made (view w) !! t = made_of <$> transports w !! t.
Proof. apply list_lookup_fmap. Qed.

Lemma handing_over_at w t :
  isHandoverCurrent t w = true -> match handover_of t w with Some h => h_promoted h | None => false end = false ->
  handing_over (view w) t /\ generation_of t w = generation (this w) /\ running (view w).
Proof.
  unfold isHandoverCurrent, handing_over, running. rewrite made_at. unfold handover_of, generation_of, made_of.
  destruct (transports w !! t) as [[g [h|]]|]; cbn; [|done..]. intros Hc Hp. revert Hc. rewrite Hp, !andb_true_iff, !negb_true_iff.
  intros [[[Hh%bool_decide_eq_true_1 ->%Z.eqb_eq] Hd] Hs]. done.
Qed.

Lemma no_handing_over w g :
  route_ok (view w) -> g = generation (this w) ->
  (exists t, v_handover (view w) = Some t /\ option_map (fun h => generation_of h w) (handover (this w)) = Some g /\
             handing_over (view w) t) \/
  (option_map (fun h => generation_of h w) (handover (this w)) <> Some g /\ forall t, ~ handing_over (view w) t).
Proof.
  intros Hv ->. change (v_handover (view w)) with (handover (this w)).
  assert (Hu : forall u, handing_over (view w) u <->
            handover (this w) = Some u /\ made_of <$> transports w !! u = Some (generation (this w), Some false)).
  { intros u. unfold handing_over. by rewrite made_at. }
  setoid_rewrite Hu. clear Hu. destruct (handover (this w)) as [t|] eqn:E.
  2: { right. split; [done|]. by intros t []. }
  destruct (rt_handover _ Hv t E) as (g & Hg & _). rewrite made_at in Hg. cbn [option_map]. unfold generation_of, made_of in *.
  destruct (transports w !! t) as [[g' b]|] eqn:Et; [|done]. cbn in Hg |- *. injection Hg as -> Hb.
  destruct (decide (g = generation (this w))) as [->|Hne].
  - left. exists t. rewrite Et. cbn. by rewrite Hb.
  - right. split; [congruence|]. intros u [[= <-] Hu]. rewrite Et in Hu. cbn in Hu. congruence.
Qed.

Lemma isCurrent_view w g t :
  isCurrent g t (this w) = true -> g = generation (this w) /\ v_transport (view w) = Some t /\ running (view w).
Proof.
  unfold isCurrent, running. rewrite !andb_true_iff, !negb_true_iff.
  intros [[[->%Z.eqb_eq Ht%bool_decide_eq_true_1] Hd] Hs]. done.
Qed.

Lemma wp_fail w g t err : route_inv (view w) -> wp (fail g t err) good w.
Proof.
  intros Hv. unfold fail. apply wp_self. destruct (isCurrent g t (this w)) eqn:Ec; [|done]. cbn -[assign close_transport].
  apply isCurrent_view in Ec as (Hg & Ht & Hr). apply wp_assign, wp_close. intros w1 H1. apply wp_gets.
  change (v_closed (view (w <| this := _ |>))) with (v_closed (view w)) in H1.
  change (view (w <| this := _ |>)) with ((view w) <| v_transport := None |>) in H1. cbn [option_list] in H1.
  assert (Hg1 : g = generation (this w1)) by (by rewrite Hg; symmetry; exact (f_equal v_generation H1)).
  assert (Hd : (exists u, handing_over (view w) u) \/ forall u, ~ handing_over (view w) u).
  { destruct (no_handing_over w g (or_ok _ Hv) Hg) as [(u & _ & _ & Hu)|[_ Hu]]; [left; by exists u|by right]. }
  assert (Hm : forall u, handing_over (view w1) u <-> handing_over (view w) u) by (intros u; by rewrite H1).
  destruct Hd as [[u Hu]|Hn].
  - pose proof (lose_to_handover _ _ _ Hv Ht Hu) as Hr1. apply Hm in Hu as Hu1.
    rewrite bool_decide_eq_true_2.
    2: { destruct Hu1 as [Hu1 Hu2]. cbn in Hu1. rewrite Hu1. cbn. rewrite made_at in Hu2. unfold generation_of, made_of in *.
         destruct (transports w1 !! u); [|done]. cbn in Hu2. injection Hu2 as -> _. by rewrite Hg1. }
    unfold wp. cbv beta. change (route_inv ((view w1) <| v_ready := false |>)). by rewrite H1.
  - assert (Hl : lost (view w1)) by (rewrite H1; apply lose_transport; [apply Hv|done..]).
    destruct (no_handing_over w1 g (lo_ok _ Hl) Hg1) as [(u & _ & _ & Hu)|[Hf _]]; [by apply Hm, Hn in Hu|].
    rewrite bool_decide_eq_false_2 by done. apply wp_recover; [done| |done]. by rewrite H1.
Qed.

(** The four statements that give up a handover and the transport in use. *)
Lemma wp_drop w t (k : M unit) :
  route_inv (view w) -> handing_over (view w) t ->
  (forall w', view w' = dropped (view w) -> lost (view w') -> wp k good w') ->
  wp (let! _ := assign (fun c => c <| handover := None |>) in
      let! _ := close_transport (Some t) in
      let! previous := self transport in
      let! _ := assign (fun c => c <| transport := None |>) in
      let! _ := close_transport previous in k) good w.
Proof.
  intros Hv Ht Hk. apply wp_assign, wp_close. intros w1 H1. apply wp_self, wp_assign, wp_close. intros w2 H2.
  assert (Hd : view w2 = dropped (view w)).
  { change (view (w1 <| this := _ |>)) with ((view w1) <| v_transport := None |>) in H2. rewrite H2, H1.
    change (view (w <| this := _ |>)) with ((view w) <| v_handover := None |>).
    replace (transport (this w1)) with (v_transport (view w)) by (symmetry; exact (f_equal v_transport H1)).
    destruct Ht as [Hh _]. unfold dropped. rewrite Hh. unfold set_field. cbn. by rewrite <- (assoc_L (++)). }
  apply Hk; [done|]. rewrite Hd. eapply drop_handover; [apply Hv|done].
Qed.

Lemma wp_failHandover w t err : route_inv (view w) -> wp (failHandover t err) good w.
Proof.
  intros Hv. unfold failHandover. apply wp_gets.
  destruct (isHandoverCurrent t w) eqn:Ec; [|done].
  destruct (match handover_of t w with Some h => h_promoted h | None => false end) eqn:Ep; [done|].
  apply handing_over_at in Ec as (Ht & Hg & Hr); [|done]. cbn [negb orb]. apply (wp_drop w t _ Hv Ht). intros w1 H1 Hl.
  apply wp_assign. apply wp_recover.
  - change (view (w1 <| this := _ |>)) with (view w1). done.
  - change (view (w1 <| this := _ |>)) with (view w1). by rewrite H1.
  - cbn. rewrite Hg. symmetry. exact (f_equal v_generation H1).
Qed.

Lemma lost_unready v : lost v -> lost (v <| v_ready := false |>).
Proof. intros [[] ? ? ?]. split; [split|..]; view_tac; done. Qed.

Lemma wp_cancelHandover w t : route_inv (view w) -> wp (cancelHandover t) good w.
Proof.
  intros Hv. unfold cancelHandover. apply wp_gets.
  destruct (isHandoverCurrent t w) eqn:Ec; [|done].
  destruct (match handover_of t w with Some h => h_promoted h | None => false end) eqn:Ep; [done|].
  apply handing_over_at in Ec as (Ht & Hg & Hr); [|done]. cbn [negb orb]. apply (wp_drop w t _ Hv Ht). intros w1 H1 Hl.
  apply wp_assign, wp_quiet; [quiet_tac|]. intros _ w2 H2. apply wp_quiet; [auto with quiet|]. intros _ w3 H3.
  rewrite H2 in H3. change (view (w1 <| this := _ |>)) with ((view w1) <| v_ready := false |>) in H3.
  apply wp_scheduleReconnect; rewrite H3; [by apply lost_unready| |done]. by rewrite H1.
Qed.

Lemma wp_on_failure w t err : route_inv (view w) -> wp (on_failure t err) good w.
Proof.
  intros Hv. unfold on_failure. apply wp_gets. destruct (handover_of t w) as [h|]; [|by apply wp_fail].
  destruct (isHandoverCurrent t w); [|done]. cbn. destruct (h_promoted h); [by apply wp_fail|by apply wp_failHandover].
Qed.

(** [closeTransport], after [clearReconnect]. *)
Lemma stopped_steps v :
  let v1 := v <| v_generation := v_generation v + 1 |> <| v_fallback := false |> in
  let v2 := v1 <| v_handover := None |> <| v_transport := None |> <| v_ready := false |> in
  let v3 := v2 <| v_closed := v_closed v ++ option_list (v_handover v) |> in
  v3 <| v_closed := (v_closed v ++ option_list (v_handover v)) ++ option_list (v_transport v) |> = stopped v.
Proof. cbv zeta. rewrite <- (assoc_L (++)). reflexivity. Qed.

Lemma wp_closeTransport w : wp closeTransport (fun o w' => o = Done tt /\ view w' = stopped (view w)) w.
Proof.
  unfold closeTransport. apply wp_quiet; [auto with quiet|]. intros _ w1 H1. apply wp_assign.
  apply wp_quiet; [auto with quiet|]. intros _ w2 H2. apply wp_self, wp_self, wp_assign, wp_close. intros w3 H3.
  change (view (w1 <| this := _ |>)) with
    ((view w1) <| v_generation := v_generation (view w1) + 1 |> <| v_fallback := false |>) in H2. rewrite H1 in H2.
  change (view (w2 <| this := _ |>)) with
    ((view w2) <| v_handover := None |> <| v_transport := None |> <| v_ready := false |>) in H3.
  change (handover (this w2)) with (v_handover (view w2)) in H3. change (transport (this w2)) with (v_transport (view w2)).
  assert (Eh : v_handover (view w2) = v_handover (view w)) by (by rewrite H2).
  assert (Et : v_transport (view w2) = v_transport (view w)) by (by rewrite H2).
  assert (Ec : v_closed (view w2) = v_closed (view w)) by (by rewrite H2).
  change (v_closed (_ <| v_ready := false |>)) with (v_closed (view w2)) in H3.
  rewrite Eh, Ec, H2 in H3. rewrite Et. unfold wp. destruct (close_transport_view (v_transport (view w)) w3) as [Hc Ho].
  split; [exact Ho|]. rewrite Hc, H3. clear. generalize (view w) as v. exact stopped_steps.
Qed.

Lemma wp_clearReconnect (k : unit -> M unit) Q w :
  (forall w', view w' = (view w) <| v_reconnect := None |> -> wp (k tt) Q w') -> wp (bind clearReconnect k) Q w.
Proof.
  intros Hk. apply wp_bind. unfold clearReconnect. apply wp_self, wp_quiet.
  { destruct (reconnectTimer (this w)); auto with quiet. }
  intros _ w1 H1. unfold wp at 1. apply Hk. change (view (fst _)) with ((view w1) <| v_reconnect := None |>). by rewrite H1.
Qed.

(** ** Starting *)

Context `{PeerHost}.

Lemma wp_start_threw w g err :
  lost ((view w) <| v_transport := None |>) -> running (view w) -> g = generation (this w) ->
  wp (start_threw g err) good w.
Proof. intros Hl Hr Hg. unfold start_threw. apply wp_assign. by apply wp_recover. Qed.

Lemma forget_none v : v_transport v = None -> v <| v_transport := None |> = v.
Proof. destruct v. cbn. by intros ->. Qed.

Lemma forget_fallback v g : v_fallback v = false -> v <| v_generation := g |> <| v_fallback := false |> = v <| v_generation := g |>.
Proof. destruct v. cbn. by intros ->. Qed.

Lemma wp_start w :
  route_ok (view w) -> v_transport (view w) = None -> not_waiting (view w) -> running (view w) -> wp start good w.
Proof.
  intros Hv Ht Hw Hr. unfold start. apply wp_gets, wp_assign, wp_self. cbv zeta.
  match goal with |- wp _ _ ?w1 => set (w0 := w1) end.
  assert (H0 : view w0 = (view w) <| v_generation := v_generation (view w) + 1 |> <| v_ready := false |>).
  { destruct Hw as [_ Hf]. rewrite <- (forget_fallback _ (v_generation (view w) + 1) Hf). reflexivity. }
  set (c := this w0). assert (Hg : generation c = v_generation (view w) + 1) by exact (f_equal v_generation H0).
  clearbody c w0. apply wp_quiet; [quiet_tac|]. intros _ w1 H1. apply wp_quiet; [auto with quiet|]. intros _ w2 H2.
  apply wp_quiet; [auto with quiet|]. intros factory w3 H3. rewrite H2, H1, H0 in H3. clear w0 w1 w2 H0 H1 H2.
  pose proof (start_failed _ Hv Ht Hw Hr) as Hl. rewrite <- H3 in Hl.
  assert (Hr3 : running (view w3)) by (by rewrite H3).
  assert (Hg3 : generation c = generation (this w3)).
  { rewrite Hg. symmetry. exact (f_equal v_generation H3). }
  destruct factory as [err|].
  { apply wp_start_threw; [|done..]. rewrite forget_none; [done|apply Hl]. }
  apply wp_gets, wp_new_transport. intros w4 H4. apply wp_quiet; [quiet_tac|]. intros _ w5 H5. apply wp_assign.
  apply wp_transport_start. intros n w6 H6. rewrite H4 in H5.
  change (view (w5 <| this := _ |>)) with ((view w5) <| v_transport := Some (length (transports w3)) |>) in H6. rewrite H5 in H6.
  assert (Hi : route_inv (view w6)).
  { rewrite H6. apply threw_inv. replace (length (transports w3)) with (length (v_made (view w3))) by apply length_map.
    unfold made_of. cbn [t_generation t_handover option_map]. rewrite Hg3.
    change (generation (this w3)) with (v_generation (view w3)). rewrite H3. exact (started _ Hv Ht Hw Hr). }
  destruct (start_outcome n) as [|err|err] eqn:Eo; [exact Hi|by apply wp_on_failure|].
  apply wp_start_threw; [|by rewrite H6|].
  - pose proof (start_abandoned _ None Hl) as Hl6. rewrite <- (forget_none _ (lo_transport _ Hl6)) in Hl6.
    rewrite H6. unfold made_of. cbn [t_generation t_handover option_map].
    replace (length (transports w3)) with (length (v_made (view w3))) by apply length_map. by rewrite Hg3.
  - rewrite Hg3. symmetry. exact (f_equal v_generation H6).
Qed.

Lemma wp_stop v w d u :
  route_ok v -> view w = v <| v_detached := d |> <| v_suspended := u |> ->
  wp (let! _ := clearReconnect in closeTransport)
    (fun o w' => o = Done tt /\ lost (view w') /\ v_ready (view w') = false /\
                 v_detached (view w') = d /\ v_suspended (view w') = u) w.
Proof.
  intros Hv H1. apply wp_clearReconnect. intros w2 H2. eapply wp_mono; [apply wp_closeTransport|]. cbv beta.
  intros o w' [-> Hs]. rewrite Hs, H2, H1. split; [done|]. split; [|done]. exact (stopped_lost v d u Hv).
Qed.

Lemma wp_detach w : route_ok (view w) -> wp detach good w.
Proof.
  intros Hv. unfold detach. apply wp_assign. eapply wp_mono; [by apply (wp_stop (view w) _ true false)|].
  intros o w' (_ & Hl & Hy & Hd & _). apply lost_stopped; [done| |done]. intros [? _]. congruence.
Qed.

Lemma wp_suspend w : route_inv (view w) -> wp suspend good w.
Proof.
  intros Hv. unfold suspend. apply wp_self. destruct (detached (this w)) eqn:Ed; [done|]. apply wp_assign.
  eapply wp_mono; [by apply (wp_stop (view w) _ (detached (this w)) true); [apply Hv|]|].
  intros o w' (_ & Hl & Hy & _ & Hu). apply lost_stopped; [done| |done]. intros [_ ?]. congruence.
Qed.

Lemma wp_attach w : route_inv (view w) -> wp attach good w.
Proof.
  intros Hv. unfold attach. apply wp_self. destruct (detached (this w)) eqn:Ed; [done|]. apply wp_assign, wp_self.
  pose proof (resumed _ Hv Ed) as Hr. set (w1 := w <| this := _ |>).
  change ((view w) <| v_suspended := false |>) with (view w1) in Hr.
  assert (Hrun : running (view w1)) by (by split).
  destruct (bool_decide (transport (this w1) <> None) || bool_decide (reconnectTimer (this w1) <> None)
            || fallbackPending (this w1)) eqn:Ew.
  - split; [done|exact (or_ready _ Hv)|]. intros _ _. unfold has_way.
    change (v_transport (view w1)) with (transport (this w1)). change (v_reconnect (view w1)) with (reconnectTimer (this w1)).
    change (v_fallback (view w1)) with (fallbackPending (this w1)).
    revert Ew. rewrite !orb_true_iff, !bool_decide_eq_true. tauto.
  - revert Ew. rewrite !orb_false_iff, !bool_decide_eq_false. intros [[Ht Hrc] Hf].
    apply wp_start; [done| |split|done].
    + change (v_transport (view w1)) with (transport (this w1)). by apply dec_stable.
    + change (v_reconnect (view w1)) with (reconnectTimer (this w1)). by apply dec_stable.
    + exact Hf.
Qed.

Lemma wp_setRoute w r : route_inv (view w) -> wp (setRoute r) good w.
Proof.
  intros Hv. unfold setRoute. apply wp_self. destruct (detached (this w)) eqn:Ed; [done|].
  destruct (is_route r (route (this w))).
  { destruct (is_route RouteQuickTunnel r); [|done]. destruct (handover (this w)) as [t|]; [|done]. by apply wp_cancelHandover. }
  apply wp_assign.
  assert (Hs : wp (let! _ := clearReconnect in closeTransport)
                 (fun o w' => wp (match o with Done _ => when (negb (suspended (this w))) start | Raise e => raise e end) good w')
                 (w <| this := (this w) <| route := r |> |>)).
  { eapply wp_mono; [by apply (wp_stop (view w) _ (detached (this w)) (suspended (this w))); [apply Hv|]|].
    cbv beta. intros o w' (-> & Hl & Hy & Hd & Hu). destruct (suspended (this w)) eqn:Es; cbn [negb when].
    - apply wp_ret, lost_stopped; [done| |done]. intros [_ ?]. congruence.
    - apply wp_start; [exact (lo_ok _ Hl)|exact (lo_transport _ Hl)|exact (lo_waiting _ Hl)|]. split; [congruence|done]. }
  revert Hs. unfold wp, bind. destruct (clearReconnect _) as [w1 [[]|e]]; [|done]. by destruct (closeTransport w1) as [w2 [[]|e]].
Qed.

Lemma may_failback_view w g :
  may_failback g (this w) = true ->
  g = generation (this w) /\ v_ready (view w) = true /\ v_handover (view w) = None /\ running (view w).
Proof.
  unfold may_failback, running. rewrite !andb_true_iff, !negb_true_iff, bool_decide_eq_true.
  intros [[[[[->%Z.eqb_eq _] Hy] Hd] Hs] Hh]. done.
Qed.

Lemma wp_startDirectHandover w g : route_inv (view w) -> wp (startDirectHandover g) good w.
Proof.
  intros Hv. unfold startDirectHandover. apply wp_self. destruct (may_failback g (this w)) eqn:Em; [|done].
  apply may_failback_view in Em as (Hg & Hy & Hh & Hr). cbn [negb].
  apply wp_quiet; [auto with quiet|]. intros _ w1 H1. apply wp_gets.
  apply wp_quiet; [auto with quiet|]. intros factory w2 H2. rewrite H1 in H2. rewrite <- H2 in Hv.
  destruct factory as [err|].
  { destruct (quiet_failback_failed w2) as [E _]. unfold wp. by rewrite E. }
  apply wp_gets, wp_new_transport. intros w3 H3. apply wp_quiet; [quiet_tac|]. intros _ w4 H4. apply wp_assign.
  apply wp_quiet; [quiet_tac|]. intros _ w5 H5. apply wp_quiet; [auto with quiet|]. intros _ w6 H6.
  apply wp_transport_start. intros n w7 H7.
  assert (Hi : route_inv (view w7)).
  { rewrite H7. apply threw_inv. rewrite H6, H5. change (view (w4 <| this := _ |>)) with ((view w4) <| v_handover := Some (length (transports w2)) |>).
    rewrite H4, H3. replace (length (transports w2)) with (length (v_made (view w2))) by apply length_map.
    unfold made_of. cbn [t_generation t_handover option_map h_promoted]. rewrite Hg.
    replace (generation (this w)) with (v_generation (view w2)) by (by rewrite H2).
    apply handover_started; [done| |by rewrite H2]. apply (or_ready _ Hv). by rewrite H2. }
  destruct (start_outcome n) as [|err|err]; [exact Hi|by apply wp_on_failure|]. apply wp_self.
  case_bool_decide; [by apply wp_failHandover|]. destruct (quiet_failback_failed w7) as [E _]. unfold wp. by rewrite E.
Qed.

(** ** Every method *)

Context `{JsText}.

Definition routed (w : PeerWorld) : Prop := route_inv (view w).

Lemma wp_keeps {A} (m : M A) : (forall w, routed w -> wp m (fun _ w' => routed w') w) -> keeps routed m.
Proof. done. Qed.

Lemma quiet_keeps_inv {A} (m : M A) : quiet m -> keeps routed m.
Proof. intros Hm w Hw. unfold routed. by rewrite (proj1 (Hm w)). Qed.

Lemma silent_keeps {A} (m : M A) : preserves view m -> keeps routed m.
Proof. intros Hm w Hw. unfold routed. by rewrite Hm. Qed.

Ltac routed_tac :=
  repeat first
    [ solve [auto with act_keeps]
    | solve [apply quiet_keeps_inv; quiet_tac]
    | solve [apply silent_keeps; preserves_tac]
    | match goal with
      | |- keeps _ (bind _ _) => apply act_keeps_bind; [|intros ?]
      | |- keeps _ (catch _ _) => apply keeps_catch; [|intros ?]
      | |- keeps _ (if ?b then _ else _) => destruct b
      | |- keeps _ (match ?x with _ => _ end) => destruct x
      | |- keeps _ (when ?b _) => unfold when
      | |- keeps _ (let _ := _ in _) => cbv zeta
      end ].

Lemma routed_on_failure t err : keeps routed (on_failure t err).
Proof. intros w Hw. by apply wp_on_failure. Qed.
Lemma routed_fail g t err : keeps routed (fail g t err).
Proof. intros w Hw. by apply wp_fail. Qed.
Lemma routed_failHandover t err : keeps routed (failHandover t err).
Proof. intros w Hw. by apply wp_failHandover. Qed.
Lemma routed_detach : keeps routed detach.
Proof. intros w Hw. apply wp_detach, Hw. Qed.
Lemma routed_suspend : keeps routed suspend.
Proof. intros w Hw. by apply wp_suspend. Qed.
Lemma routed_attach : keeps routed attach.
Proof. intros w Hw. by apply wp_attach. Qed.
Lemma routed_setRoute r : keeps routed (setRoute r).
Proof. intros w Hw. by apply wp_setRoute. Qed.
Lemma routed_startDirectHandover g : keeps routed (startDirectHandover g).
Proof. intros w Hw. by apply wp_startDirectHandover. Qed.
#[local] Hint Resolve routed_on_failure routed_fail routed_failHandover routed_detach routed_suspend routed_attach
  routed_setRoute routed_startDirectHandover : act_keeps.

Lemma routed_transport_send t frame : keeps routed (transport_send t frame).
Proof. unfold transport_send. routed_tac. Qed.
#[local] Hint Resolve routed_transport_send : act_keeps.

Lemma silent_frame_of ty p : preserves view (frame_of ty p).
Proof. unfold frame_of, self. preserves_tac. Qed.
Lemma silent_resize_frame c r : preserves view (resize_frame c r).
Proof. unfold resize_frame, frame_of, self. preserves_tac. Qed.
#[local] Hint Resolve silent_frame_of silent_resize_frame : preserves.

Lemma routed_send frame : keeps routed (send frame).
Proof. unfold send. routed_tac. Qed.
#[local] Hint Resolve routed_send : act_keeps.
Lemma routed_try_send g t ty p failure : keeps routed (try_send g t ty p failure).
Proof. unfold try_send. routed_tac. Qed.
#[local] Hint Resolve routed_try_send : act_keeps.
Lemma routed_flush_inputs fuel : keeps routed (flush_inputs fuel).
Proof. induction fuel; cbn [flush_inputs]; unfold assign; routed_tac. Qed.
#[local] Hint Resolve routed_flush_inputs : act_keeps.
Lemma routed_flush : keeps routed flush.
Proof. unfold flush, assign. routed_tac. Qed.
#[local] Hint Resolve routed_flush : act_keeps.

Lemma quiet_newUniqueFSRequestID n : quiet (newUniqueFSRequestID n).
Proof. induction n; cbn [newUniqueFSRequestID]; quiet_tac. Qed.
#[local] Hint Resolve quiet_newUniqueFSRequestID : quiet.

Lemma routed_sendFSRequest request ms : keeps routed (sendFSRequest request ms).
Proof. unfold sendFSRequest, assign. routed_tac. Qed.
Lemma routed_openService port host ms : keeps routed (openService port host ms).
Proof. unfold openService, assign. routed_tac. Qed.
Lemma routed_createSession h p ms : keeps routed (createSessionWithProfile h p ms).
Proof. unfold createSessionWithProfile, assign. routed_tac. Qed.
Lemma routed_sendPaste ty fb bt c f : keeps routed (sendPaste ty fb bt c f).
Proof. unfold sendPaste. routed_tac. Qed.
Lemma routed_paste_resume p read : keeps routed (paste_resume p read).
Proof. unfold paste_resume, paste_settled, assign. routed_tac. Qed.
Lemma routed_sendInput value : keeps routed (sendInput value).
Proof. unfold sendInput, assign. routed_tac. Qed.
Lemma routed_sendResize c r : keeps routed (sendResize c r).
Proof. unfold sendResize, assign. routed_tac. Qed.
Lemma routed_claimDriver : keeps routed claimDriver.
Proof. unfold claimDriver, assign. routed_tac. Qed.
Lemma routed_closeService s : keeps routed (closeService s).
Proof. unfold closeService. routed_tac. Qed.
#[local] Hint Resolve routed_sendFSRequest routed_openService routed_createSession routed_sendPaste routed_paste_resume
  routed_sendInput routed_sendResize routed_claimDriver routed_closeService : act_keeps.

Lemma quiet_notify l ev : quiet (notify_fs_handlers l ev).
Proof. induction l; cbn [notify_fs_handlers]; quiet_tac. Qed.
#[local] Hint Resolve quiet_notify : quiet.

Lemma routed_handleFrame f : keeps routed (handleFrame f).
Proof.
  unfold handleFrame, handleSessionCreated, handleServiceOpened, handleOut, handleMeta, handleClose, handleFSResponse,
    handleFSEvent, assign. routed_tac.
Qed.
#[local] Hint Resolve routed_handleFrame : act_keeps.

Lemma routed_promoteHandover t seq : keeps routed (promoteHandover t seq).
Proof.
  apply wp_keeps. intros w Hw. unfold promoteHandover. apply wp_gets. destruct (handover_of t w) as [a|] eqn:Ea; [|done].
  destruct (isHandoverCurrent t w) eqn:Ec; [|done]. destruct (h_promoted a) eqn:Ep; [done|]. cbn [negb orb].
  apply handing_over_at in Ec as (Ht & Hg & Hr); [|by rewrite Ea].
  eapply wp_promote; [apply Ht|]. intros w1 H1 _ _ _. apply wp_assign.
  apply wp_quiet; [quiet_tac|]. intros _ w2 H2. apply wp_quiet; [auto with quiet|]. intros _ w3 H3.
  apply wp_close. intros w4 H4. apply routed_flush. unfold routed. rewrite H4, H3, H2.
  change (view (w1 <| this := _ |>)) with
    ((view w1) <| v_handover := None |> <| v_transport := Some t |> <| v_ready := true |>). rewrite H1.
  exact (handover_promoted _ _ Hw Ht).
Qed.
#[local] Hint Resolve routed_promoteHandover : act_keeps.

Lemma quiet_set_authenticated t : quiet (set_handover t (fun h => h <| h_authenticated := true |>)).
Proof. by apply quiet_set_handover. Qed.
Lemma quiet_set_diagnostics t d : quiet (set_handover t (fun h => h <| h_diagnostics := d |>)).
Proof. by apply quiet_set_handover. Qed.
#[local] Hint Resolve quiet_set_authenticated quiet_set_diagnostics : quiet.

Lemma routed_handover_callback t cb : keeps routed (handover_callback t cb).
Proof. unfold handover_callback, assign. routed_tac. Qed.

Lemma routed_start_callback g t cb : keeps routed (start_callback g t cb).
Proof.
  apply wp_keeps. intros w Hw. unfold start_callback. apply wp_self. destruct (isCurrent g t (this w)) eqn:Ec.
  2: { destruct cb; try done; by apply wp_fail. }
  destruct cb as [|frame|seq|d|err]; cbn [negb when orb].
  - done.
  - clear Ec. revert w Hw. change (keeps routed (let! f := answer (of_result (decodeFrame frame)) in handleFrame f)).
    routed_tac.
  - destruct (_ || _); [by apply wp_fail|]. apply wp_assign. match goal with |- wp _ _ ?w1 => set (w0 := w1) end.
    apply isCurrent_view in Ec as (_ & Ht & _).
    assert (Hw0 : routed w0) by (apply (made_ready (view w)); [exact Hw|congruence]).
    clearbody w0. revert w0 Hw0. refine (_ : keeps routed _). unfold assign. routed_tac.
  - clear Ec. revert w Hw. refine (_ : keeps routed _). unfold assign. routed_tac.
  - by apply wp_fail.
Qed.
#[local] Hint Resolve routed_handover_callback routed_start_callback : act_keeps.

Lemma routed_probeDirectFailback g : keeps routed (probeDirectFailback g).
Proof.
  apply wp_keeps. intros w Hw. unfold probeDirectFailback. apply wp_self. case_match; [done|].
  unfold start_probe. apply wp_bind, wp_gets, wp_modify, wp_quiet; [auto with quiet|]. intros t w1 Hv1. apply wp_modify, wp_ret.
  cbn beta iota. unfold wp, assign, modify. cbn [fst snd]. unfold routed.
  change (route_inv ((view w1) <| v_probes := v_probes (view w1) ++ [(nextProbe w, mkProbe FailbackProbe g t)] |>)).
  rewrite Hv1. exact (failback_probe _ _ _ Hw).
Qed.
#[local] Hint Resolve routed_probeDirectFailback : act_keeps.

Lemma routed_failback_settled p g b : keeps routed (failback_settled p g b).
Proof. unfold failback_settled, assign. routed_tac. Qed.

Lemma fallback_ignored w g b :
  g <> generation (this w) \/ fallbackPending (this w) = false -> routed w -> wp (fallback_settled g b) (fun _ w' => routed w') w.
Proof.
  intros Hg Hw. unfold fallback_settled. apply wp_self. assert (E : negb (g =? generation (this w)) || negb (fallbackPending (this w)) = true).
  { destruct Hg as [Hg| ->]; [|apply orb_true_r]. by apply Z.eqb_neq in Hg as ->. }
  by rewrite E.
Qed.

Lemma wp_fallback_settled w v p g b :
  route_inv v -> v_fallback v = true -> view w = probe_done p v -> g = v_generation v ->
  wp (fallback_settled g b) (fun _ w' => routed w') w.
Proof.
  intros Hv Hf Hw ->. unfold fallback_settled. apply wp_self.
  destruct (probe_fallback v p Hv Hf) as (Ht & [Hd Hs] & Hy & Hl).
  replace (v_generation v) with (generation (this w)) by exact (f_equal v_generation Hw).
  replace (fallbackPending (this w)) with true by (symmetry; rewrite <- Hf; exact (f_equal v_fallback Hw)).
  replace (detached (this w)) with false by (symmetry; rewrite <- Hd; exact (f_equal v_detached Hw)).
  replace (suspended (this w)) with false by (symmetry; rewrite <- Hs; exact (f_equal v_suspended Hw)).
  replace (transport (this w)) with (@None nat) by (symmetry; rewrite <- Ht; exact (f_equal v_transport Hw)).
  rewrite Z.eqb_refl. cbn [negb orb bool_decide decide_rel]. rewrite bool_decide_eq_false_2 by (intros []; done). apply wp_assign.
  set (w1 := w <| this := _ |>). assert (H1 : view w1 = probe_done p (v <| v_fallback := false |>)).
  { change (view w1) with ((view w) <| v_fallback := false |>). by rewrite Hw. }
  assert (Hr1 : running (view w1)) by (rewrite H1; done).
  assert (Hy1 : v_ready (view w1) = false) by (rewrite H1; done).
  rewrite <- H1 in Hl. clearbody w1. clear H1. destruct b; [|by apply wp_scheduleReconnect].
  apply wp_assign. set (w2 := w1 <| this := _ |>). change (view w1) with (view w2) in Hl, Hr1. clearbody w2.
  apply wp_start; [exact (lo_ok _ Hl)|exact (lo_transport _ Hl)|exact (lo_waiting _ Hl)|done].
Qed.

Lemma routed_probe_settled p b : keeps routed (probe_settled p b).
Proof.
  apply wp_keeps. intros w Hw. unfold probe_settled. apply wp_gets. destruct (map_get (probes w) p) as [pr|] eqn:Ep; [|done].
  apply wp_modify, wp_quiet; [auto with quiet|]. intros _ w1 H1.
  change (view (w <| probes := _ |>)) with (probe_done p (view w)) in H1.
  assert (Hg : generation (this w1) = v_generation (view w)) by exact (f_equal v_generation H1).
  assert (Hf : fallbackPending (this w1) = v_fallback (view w)) by exact (f_equal v_fallback H1).
  destruct (decide (pr_kind pr = FallbackProbe /\ pr_generation pr = v_generation (view w))) as [[Hk Hpg]|Hn].
  - rewrite Hk. destruct (v_fallback (view w)) eqn:Ef; [by eapply wp_fallback_settled|].
    apply fallback_ignored; [by right|]. unfold routed. rewrite H1. destruct Hw as [Hok Hy Hl]. split; [|exact Hy|exact Hl].
    apply probe_ok; [done|congruence].
  - pose proof (probe_irrelevant _ _ _ Hw Ep Hn) as Hw1. rewrite <- H1 in Hw1.
    destruct (pr_kind pr) eqn:Hk; [|by apply routed_failback_settled].
    apply fallback_ignored; [|done]. left. rewrite Hg. naive_solver.
Qed.
#[local] Hint Resolve routed_probe_settled : act_keeps.

Lemma wp_timer_fired kind w :
  (kind = ReconnectTimer -> reconnectTimer (this w) <> None) -> routed w -> wp (timer_fired kind) (fun _ w' => routed w') w.
Proof.
  intros Hk Hw. destruct kind.
  - cbn [timer_fired]. specialize (Hk eq_refl). destruct (waited _ (or_ok _ Hw)) as [Ht Hl]; [by left|].
    apply wp_assign, wp_self. set (w1 := w <| this := _ |>).
    assert (Hf : v_fallback (view w) = false) by exact (rt_one_wait _ (or_ok _ Hw) Hk).
    assert (H1 : view w1 = (view w) <| v_reconnect := None |> <| v_fallback := false |>).
    { unfold w1. change (view (w <| this := _ |>)) with ((view w) <| v_reconnect := None |>).
      generalize dependent (view w). clear. intros v _ _ Hf. destruct v. cbn in Hf |- *. by rewrite Hf. }
    rewrite <- H1 in Hl. assert (Hy : v_ready (view w1) = false).
    { rewrite H1. cbn. destruct Hw as [_ Hy _]. destruct (v_ready (view w)) eqn:E; [by destruct Hy|exact E]. }
    clearbody w1. destruct (detached (this w1)) eqn:Ed; [|destruct (suspended (this w1)) eqn:Es]; cbn [negb andb when].
    + apply wp_ret. apply lost_stopped; [done| |done]. intros [Hd _]. cbn in Hd. congruence.
    + apply wp_ret. apply lost_stopped; [done| |done]. intros [_ Hs]. cbn in Hs. congruence.
    + apply wp_start; [exact (lo_ok _ Hl)|exact (lo_transport _ Hl)|exact (lo_waiting _ Hl)|by split].
  - clear Hk. revert w Hw. refine (_ : keeps routed _). cbn [timer_fired]. unfold assign. routed_tac.
  - by apply routed_probe_settled.
  - clear Hk. revert w Hw. refine (_ : keeps routed _). cbn [timer_fired]. unfold assign. routed_tac.
  - clear Hk. revert w Hw. refine (_ : keeps routed _). cbn [timer_fired]. unfold assign. routed_tac.
  - clear Hk. revert w Hw. refine (_ : keeps routed _). cbn [timer_fired]. unfold assign. routed_tac.
Qed.

Lemma routed_callback t cb : keeps routed (callback t cb).
Proof. unfold callback. routed_tac. Qed.
#[local] Hint Resolve routed_callback : act_keeps.

(** The reconnect timer runs only while [reconnectTimer] holds it. *)
Definition timer_held (w : PeerWorld) : Prop :=
  forall t, map_get (timers w) t = Some ReconnectTimer -> reconnectTimer (this w) <> None.

Lemma routed_step e w : timer_held w -> routed w -> routed (step e w).
Proof.
  intros Hh. revert w Hh. destruct e; intros w Hh Hw;
    try solve [clear Hh; revert w Hw; refine (_ : keeps routed _); unfold dispatch, void, onFSEvent, offFSEvent, assign; routed_tac].
  change (wp (dispatch (EvTimer t)) (fun _ w' => routed w') w). cbn [dispatch]. apply wp_gets.
  destruct (map_get (timers w) t) as [kind|] eqn:Et; [|done].
  apply wp_quiet; [auto with quiet|]. intros _ w1 H1. apply wp_timer_fired.
  - intros ->. replace (reconnectTimer (this w1)) with (reconnectTimer (this w)) by (symmetry; exact (f_equal v_reconnect H1)). by apply (Hh t).
  - unfold routed. by rewrite H1.
Qed.
End Methods.
