(* ===== verification/PeerSessionTurns.v ===== *)
(** * Every method keeps the books

    [turn]: how the ledger of timers and promises may change. The relation is
    transitive, so that a method is followed statement by statement. *)

From S2P Require Import Prelude Bytes JsString JsMap Json Proto FsSegments DirectCrypto ConnWire.
From S2P Require Import EventLoop Transport NativeDirect PeerSession PeerSessionBooks.

(** Timers that promises wait for go only with the promise settled. *)
Record evolves (l l' : Ledger) : Prop := {
  ev_next : (l_nextTimer l <= l_nextTimer l')%nat;
  ev_settled p : p ∈ l_settled l -> p ∈ l_settled l';
  ev_timers t k p : (t, k) ∈ l_timers l -> promise_of k = Some p ->
    (t, k) ∈ l_timers l' \/ (t ∉ map_keys (l_timers l') /\ p ∈ l_settled l');
  ev_gone t : (t < l_nextTimer l)%nat -> t ∉ map_keys (l_timers l) -> t ∉ map_keys (l_timers l');
  ev_pastes p : p ∈ l_pastes l -> p ∈ l_pastes l' \/ p ∈ l_settled l';
}.

Definition turn (l l' : Ledger) : Prop := books l -> books l' /\ evolves l l'.

Lemma evolves_refl l : evolves l l.
Proof. split; auto. Qed.

Lemma timer_fresh l t k : books l -> (t, k) ∈ l_timers l -> (t < l_nextTimer l)%nat.
Proof. intros []; eauto. Qed.

Lemma turn_refl l : turn l l.
Proof. intros Hl. split; [done|apply evolves_refl]. Qed.

Lemma turn_given l l' : (books l -> turn l l') -> turn l l'.
Proof. intros H Hl. by apply H. Qed.

Lemma turn_trans l1 l2 l3 : turn l1 l2 -> turn l2 l3 -> turn l1 l3.
Proof.
  intros H12 H23 H1. destruct (H12 H1) as [H2 []]. destruct (H23 H2) as [H3 []]. split; [done|]. split; [lia|auto| | |].
  - intros t k p Ht Hk. destruct (ev_timers0 _ _ _ Ht Hk) as [Ht2|[Hn Hs]]; [eauto|]. right. split; [|auto].
    apply ev_gone1; [|done]. pose proof (timer_fresh _ _ _ H1 Ht). lia.
  - intros t Ht Hn. apply ev_gone1; [lia|auto].
  - intros p [Hp|Hp]%ev_pastes0; auto.
Qed.
#[export] Instance turn_preorder : PreOrder turn.
Proof. split; [exact turn_refl|exact turn_trans]. Qed.

(** ** Entries *)

Lemma in_keys {V} (l : list (nat * V)) t : t ∈ map_keys l <-> exists v, (t, v) ∈ l.
Proof.
  unfold map_keys. rewrite list_elem_of_fmap. split; [intros ([u v] & -> & H); by exists v|].
  intros [v H]. by exists (t, v).
Qed.

(** Only what [books] says of the new ledger has to be shown when nothing is
    taken from the timers. *)
Lemma turn_grow l l' :
  (books l -> books l') ->
  (exists k, l_timers l' = l_timers l ++ k /\ forall t x, (t, x) ∈ k -> (l_nextTimer l <= t)%nat) ->
  (l_nextTimer l <= l_nextTimer l')%nat -> (exists p, l_settled l' = l_settled l ++ p) ->
  (forall p, p ∈ l_pastes l -> p ∈ l_pastes l' \/ p ∈ l_settled l') -> turn l l'.
Proof.
  intros Hb (k & Ek & Hk) Hn (p & Ep) Hp Hl. split; [auto|]. split; [done|intros q Hq; rewrite Ep; set_solver| | |exact Hp].
  - intros t x q Ht _. left. rewrite Ek. set_solver.
  - intros t Ht Hno [x Hx]%in_keys. rewrite Ek in Hx. apply elem_of_app in Hx as [Hx|Hx].
    + apply Hno, in_keys. by exists x.
    + specialize (Hk _ _ Hx). lia.
Qed.

Lemma turn_with_timer l l' k :
  (books l -> books l') -> l_timers l' = l_timers l ++ [(l_nextTimer l, k)] -> l_nextTimer l' = S (l_nextTimer l) ->
  l_settled l' = l_settled l -> l_pastes l' = l_pastes l -> turn l l'.
Proof.
  intros Hb Et En Es Ep. apply turn_grow; [done| |lia|exists []; by rewrite app_nil_r|rewrite Ep; auto]. exists [(l_nextTimer l, k)].
  split; [done|]. intros t x [= -> ->]%list_elem_of_singleton. lia.
Qed.

Lemma turn_same_timers l l' :
  (books l -> books l') -> l_timers l' = l_timers l -> l_nextTimer l' = l_nextTimer l -> l_pastes l' = l_pastes l ->
  (exists p, l_settled l' = l_settled l ++ p) -> turn l l'.
Proof.
  intros Hb Et En Ep Es. apply turn_grow; [done| |lia|done|rewrite Ep; auto]. exists []. rewrite app_nil_r. split; [done|]. by intros t x ?%elem_of_nil.
Qed.

(** A timer is cleared that no promise waits for. *)
Lemma turn_without l l' t :
  (books l -> books l') -> l_timers l' = without t (l_timers l) -> l_nextTimer l' = l_nextTimer l -> l_settled l' = l_settled l ->
  l_pastes l' = l_pastes l -> (books l -> forall k, (t, k) ∈ l_timers l -> promise_of k = None) -> turn l l'.
Proof.
  intros Hb Et En Es Ep Hk Hl. split; [auto|]. split; [lia|by rewrite Es| | |rewrite Ep; auto].
  - intros u k p Hu Hp. left. rewrite Et. apply elem_without. split; [|done]. intros ->. specialize (Hk Hl _ Hu). congruence.
  - intros u _ Hno [x Hx]%in_keys. rewrite Et in Hx. apply elem_without in Hx as [_ Hx]. apply Hno, in_keys. by exists x.
Qed.

(** The entry of a request is deleted. *)
Definition forget (k : TimerKind) (l : Ledger) : Ledger :=
  match k with
  | FSRequestTimer id _ => l <| l_fs := map_delete (l_fs l) id |>
  | SessionCreateTimer id _ => l <| l_creates := map_delete (l_creates l) id |>
  | ServiceOpenTimer id _ => l <| l_services := map_delete (l_services l) id |>
  | _ => l
  end.

(** A request ends: its timer is cleared, its entry deleted, its promise
    settled. *)
Definition discharge (t : nat) (k : TimerKind) (p : nat) (l : Ledger) : Ledger :=
  forget k (l <| l_timers := without t (l_timers l) |> <| l_settled := settlement (l_settled l) (Settle p ResolvePaste) |>).

Lemma unsettled l t k p : books l -> (t, k) ∈ l_timers l -> promise_of k = Some p -> p ∉ l_settled l.
Proof.
  intros Hl Ht Hk Hp. pose proof (bk_promises _ Hl) as Hs. pose proof (NoDup_seq 0 (l_nextPromise l)) as Hn. rewrite <- Hs in Hn.
  apply NoDup_app in Hn as (_ & Hn & _). apply (Hn p Hp). apply elem_of_app. left. unfold waiting.
  apply list_elem_of_omap. exists (t, k). by split.
Qed.

Lemma discharge_running l t k p :
  books l -> (t, k) ∈ l_timers l -> promise_of k = Some p -> discharge t k p l = forget k (without_timer t k l).
Proof.
  intros Hl Ht Hk. unfold discharge, without_timer, settlement. rewrite bool_decide_eq_false_2 by (by eapply unsettled). by rewrite Hk.
Qed.

Lemma books_forget_kind l k : books l -> books (forget k l).
Proof.
  intros Hl. destruct k as [|g|q|id q|id q|id q]; [done..| | |]; pose proof Hl as [].
  - refine (books_forget l (map_delete (l_fs l) id) (l_creates l) (l_services l) Hl _ _ _ _ _ _); auto with atterm.
    by intros [i x] [_ Hx]%elem_map_delete.
  - refine (books_forget l (l_fs l) (map_delete (l_creates l) id) (l_services l) Hl _ _ _ _ _ _); auto with atterm.
    by intros [i x] [_ Hx]%elem_map_delete.
  - refine (books_forget l (l_fs l) (l_creates l) (map_delete (l_services l) id) Hl _ _ _ _ _ _); auto with atterm.
    by intros [i x] [_ Hx]%elem_map_delete.
Qed.

Lemma turn_discharge l t k p :
  promise_of k = Some p -> (books l -> (t, k) ∈ l_timers l \/ (t ∉ map_keys (l_timers l) /\ p ∈ l_settled l)) ->
  turn l (discharge t k p l).
Proof.
  intros Hk Hd Hl. assert (E : l_timers (discharge t k p l) = without t (l_timers l) /\ l_nextTimer (discharge t k p l) = l_nextTimer l /\
    l_settled (discharge t k p l) = settlement (l_settled l) (Settle p ResolvePaste) /\ l_pastes (discharge t k p l) = l_pastes l) by (by destruct k).
  destruct E as (Et & En & Es & Ep). split.
  - destruct (Hd Hl) as [Ht|[Ht Hp]].
    + rewrite (discharge_running l t k p Hl Ht Hk).
      destruct k as [|g|q|id q|id q|id q]; [done..| | |].
      * exact (books_fire_fs l t id q Hl Ht).
      * exact (books_fire_create l t id q Hl Ht).
      * exact (books_fire_service l t id q Hl Ht).
    + unfold discharge, settlement. rewrite without_absent, bool_decide_eq_true_2 by done. apply books_forget_kind. by destruct l.
  - split; [lia| | | |rewrite Ep; auto]; rewrite ?Et, ?Es; cbn [settlement].
    + intros q Hq. case_bool_decide; [done|set_solver].
    + intros u k' q Hu Hq. destruct (decide (u = t)) as [->|Hne]; [|left; by apply elem_without]. right. split.
      { intros [x Hx]%in_keys. by apply elem_without in Hx as [? _]. }
      assert (q = p) as ->.
      { destruct (Hd Hl) as [Ht|[Ht _]]; [|by destruct Ht; apply in_keys; exists k'].
        pose proof (timer_kind _ _ _ _ (bk_timers _ Hl) Ht Hu). congruence. }
      case_bool_decide; [done|set_solver].
    + intros u _ Hno [x Hx]%in_keys. apply elem_without in Hx as [_ Hx]. apply Hno, in_keys. by exists x.
Qed.

(** ** Statements *)

Definition turns {A} (m : M A) : Prop := forall w, turn (ledger w) (ledger (fst (m w))).

Lemma turns_bind {A B} (m : M A) (k : A -> M B) : turns m -> (forall a, turns (k a)) -> turns (bind m k).
Proof.
  intros Hm Hk w. specialize (Hm w). unfold bind. destruct (m w) as [w' [a|e]]; cbn in Hm |- *; [|done].
  etrans; [exact Hm|apply Hk].
Qed.

Lemma turns_gets {A B} (f : PeerWorld -> A) (k : A -> M B) :
  (forall w, turn (ledger w) (ledger (fst (k (f w) w)))) -> turns (bind (gets f) k).
Proof. done. Qed.

Lemma turns_preserves {A} (m : M A) : preserves ledger m -> turns m.
Proof. intros Hm w. rewrite Hm. apply turn_refl. Qed.

Lemma turns_catch {A} (m : M A) h : turns m -> (forall e, turns (h e)) -> turns (catch m h).
Proof.
  intros Hm Hh w. specialize (Hm w). unfold catch. destruct (m w) as [w' [a|e]]; cbn in Hm |- *; [done|].
  etrans; [exact Hm|apply Hh].
Qed.

Lemma turns_settled {A} (m : M A) : turns m -> turns (settled m).
Proof. intros Hm w. apply Hm. Qed.

Lemma settlements_snoc l e : settlements (l ++ [e]) = settlement (settlements l) e.
Proof. unfold settlements. by rewrite fold_left_app. Qed.

Lemma ledger_emit e w :
  ledger (fst (emit e w)) = (ledger w) <| l_settled := settlement (l_settled (ledger w)) e |>.
Proof. unfold ledger. cbn. by rewrite settlements_snoc. Qed.

Lemma silent_emit e : (match e with Settle _ _ => False | _ => True end) -> preserves ledger (emit e).
Proof. intros He w. rewrite ledger_emit. by destruct e. Qed.

Lemma ledger_setTimeout k d w : ledger (fst (setTimeout k d w)) = with_timer k (ledger w) /\ snd (setTimeout k d w) = Done (l_nextTimer (ledger w)).
Proof. unfold ledger, setTimeout, with_timer. cbn. by rewrite settlements_snoc. Qed.

Ltac silent_tac :=
  repeat first
    [ solve [auto with preserves]
    | apply silent_emit; exact I
    | apply preserves_modify; intros ?; reflexivity
    | match goal with
      | |- preserves _ (bind _ _) => apply preserves_bind; [|intros ?]
      | |- preserves _ (if ?b then _ else _) => destruct b
      | |- preserves _ (match ?x with _ => _ end) => destruct x
      | |- preserves _ (when ?b _) => unfold when
      | |- preserves _ (let _ := _ in _) => cbv zeta
      end ].

Create HintDb turns.
#[export] Hint Resolve turns_settled : turns.

Ltac turns_step :=
  first
    [ solve [auto with turns]
    | solve [apply turns_preserves; silent_tac]
    | match goal with
      | |- turns (bind _ _) => apply turns_bind; [|intros ?]
      | |- turns (catch _ _) => apply turns_catch; [|intros ?]
      | |- turns (if ?b then _ else _) => destruct b
      | |- turns (match ?x with _ => _ end) => destruct x
      | |- turns (when ?b _) => unfold when
      | |- turns (let _ := _ in _) => cbv zeta
      end ].
Ltac turns_tac := repeat turns_step.

Lemma silent_emitRoute r : preserves ledger (emitRoute r).
Proof. unfold emitRoute. silent_tac. Qed.
Lemma silent_emitHandoverRoute t : preserves ledger (emitHandoverRoute t).
Proof. unfold emitHandoverRoute. silent_tac. Qed.
Lemma silent_close_transport t : preserves ledger (close_transport t).
Proof. unfold close_transport. silent_tac. Qed.
Lemma silent_tick {A} (f : nat -> A) : preserves ledger (tick f).
Proof. unfold tick. silent_tac. Qed.
Lemma silent_set_handover t f : preserves ledger (set_handover t f).
Proof. unfold set_handover. silent_tac. Qed.
#[export] Hint Resolve silent_emitRoute silent_emitHandoverRoute silent_close_transport silent_tick silent_set_handover : preserves.

(** ** Timers that no promise waits for *)

Lemma no_promise w t k : books (ledger w) -> (t, ReconnectTimer) ∈ l_timers (ledger w) \/ (exists g, (t, FailbackTimer g) ∈ l_timers (ledger w)) ->
  (t, k) ∈ l_timers (ledger w) -> promise_of k = None.
Proof. intros Hb [Ht|[g Ht]] Hk; by rewrite <- (timer_kind _ _ _ _ (bk_timers _ Hb) Ht Hk). Qed.

Lemma turns_clearReconnect : turns clearReconnect.
Proof.
  unfold clearReconnect. apply turns_gets. intros w. destruct (reconnectTimer (this w)) as [t|] eqn:Et.
  2: { cbn. apply turn_same_timers; [|done..|by exists []; rewrite app_nil_r]. intros Hb.
       replace (ledger _) with (ledger w); [done|]. unfold ledger, set_field. cbn. by rewrite Et. }
  intros Hb. assert (Hin : (t, ReconnectTimer) ∈ l_timers (ledger w)) by (by apply (bk_reconnect _ Hb)). revert Hb.
  apply (turn_without _ _ t); [|done..|].
  - intros Hb. pose proof (books_fire_reconnect _ _ Hb Hin) as H. unfold without_timer in H. cbn in H. rewrite app_nil_r in H. exact H.
  - intros Hb k. by apply no_promise; [|left].
Qed.

Lemma turns_clearDirectFailbackTimer : turns clearDirectFailbackTimer.
Proof.
  unfold clearDirectFailbackTimer. apply turns_gets. intros w. destruct (failbackTimer (this w)) as [t|] eqn:Et.
  2: { cbn. apply turn_same_timers; [|done..|by exists []; rewrite app_nil_r]. intros Hb.
       replace (ledger _) with (ledger w); [done|]. unfold ledger, set_field. cbn. by rewrite Et. }
  intros Hb. destruct (bk_failback _ Hb t Et) as [g Hin]. revert Hb.
  apply (turn_without _ _ t); [|done..|].
  - intros Hb. pose proof (books_fire_failback _ _ g Hb Hin) as H. unfold without_timer in H. cbn in H. rewrite app_nil_r in H. exact H.
  - intros Hb k. apply no_promise; [done|]. right. by exists g.
Qed.

Lemma turns_scheduleReconnect : turns scheduleReconnect.
Proof.
  unfold scheduleReconnect. apply turns_gets. intros w. destruct (_ || _ || _) eqn:E; [apply turn_refl|].
  apply orb_false_iff in E as [_ Hr%bool_decide_eq_false_1]. apply dec_stable in Hr.
  cbn -[setTimeout]. unfold bind. cbn [fst snd assign modify].
  match goal with |- context [setTimeout ?k ?d ?w1] => destruct (ledger_setTimeout k d w1) as [Hl Ho]; destruct (setTimeout k d w1) as [w2 o] end.
  cbn in Hl, Ho |- *. subst o. cbn.
  change (ledger (w2 <| this := _ |>)) with ((ledger w2) <| l_reconnect := Some (nextTimer w) |>). rewrite Hl.
  change (ledger (w <| this := _ |>)) with (ledger w).
  apply (turn_with_timer _ _ ReconnectTimer); [|done..]. intros Hb. exact (books_with_reconnect _ Hb Hr).
Qed.

Lemma turns_failback_timer g d :
  turns (let! t := setTimeout (FailbackTimer g) d in assign (fun c => c <| failbackTimer := Some t |>)).
Proof.
  intros w. unfold bind. destruct (ledger_setTimeout (FailbackTimer g) d w) as [Hl Ho].
  destruct (setTimeout (FailbackTimer g) d w) as [w2 o]. cbn in Hl, Ho |- *. subst o. cbn.
  change (ledger (w2 <| this := _ |>)) with ((ledger w2) <| l_failback := Some (nextTimer w) |>). rewrite Hl.
  apply (turn_with_timer _ _ (FailbackTimer g)); [|done..]. intros Hb. exact (books_with_failback g _ Hb).
Qed.
#[export] Hint Resolve turns_clearReconnect turns_clearDirectFailbackTimer turns_scheduleReconnect turns_failback_timer : turns.

Lemma turns_scheduleDirectFailback : turns scheduleDirectFailback.
Proof. unfold scheduleDirectFailback, self. turns_tac. Qed.

Lemma turns_start_probe kd g : turns (start_probe kd g).
Proof.
  unfold start_probe. apply turns_gets. intros w. unfold bind at 1. cbn [modify]. set (w1 := w <| nextProbe := _ |>).
  unfold bind. destruct (ledger_setTimeout (ProbeTimer (nextProbe w)) 1000 w1) as [Hl Ho].
  destruct (setTimeout (ProbeTimer (nextProbe w)) 1000 w1) as [w2 o]. cbn in Hl, Ho |- *. subst o. cbn.
  change (ledger (w2 <| probes := _ |>)) with ((ledger w2) <| l_probes := l_probes (ledger w2) ++ [(nextProbe w, mkProbe kd g (nextTimer w))] |>).
  rewrite Hl. apply (turn_with_timer _ _ (ProbeTimer (nextProbe w))); [|done..]. intros Hb. exact (books_with_probe kd g _ Hb).
Qed.
#[export] Hint Resolve turns_scheduleDirectFailback turns_start_probe : turns.

(** ** Requests *)

(** A request ends, whichever way. *)
Lemma ledger_settle p s w :
  ledger (fst (settle p s w)) = (ledger w) <| l_settled := settlement (l_settled (ledger w)) (Settle p ResolvePaste) |>.
Proof. unfold settle. rewrite ledger_emit. by destruct s. Qed.

(** [f] deletes the entry of timer kind [k]. *)
Definition deletes (k : TimerKind) (f : PeerConn -> PeerConn) : Prop :=
  forall w, ledger (w <| this := f (this w) |>) = forget k (ledger w).

Lemma ledger_discharge k t p s f w :
  deletes k f ->
  ledger (fst ((let! _ := clearTimeout t in let! _ := assign f in settle p s) w)) = discharge t k p (ledger w).
Proof.
  intros Hf. unfold bind at 1. unfold clearTimeout, modify at 1. unfold bind, assign, modify. rewrite ledger_settle, Hf.
  set (w1 := w <| timers := _ |>). change (ledger w1) with ((ledger w) <| l_timers := without t (l_timers (ledger w)) |>).
  unfold discharge. by destruct k.
Qed.

Lemma deletes_fs id p g :
  deletes (FSRequestTimer id p)
    (fun c => c <| pendingFSRequests := map_delete (pendingFSRequests c) id |> <| retiredFSRequestIDs := g c |>).
Proof. by intros w. Qed.
Lemma deletes_fs_only id p : deletes (FSRequestTimer id p) (fun c => c <| pendingFSRequests := map_delete (pendingFSRequests c) id |>).
Proof. by intros w. Qed.
Lemma deletes_create id p : deletes (SessionCreateTimer id p) (fun c => c <| pendingSessionCreates := map_delete (pendingSessionCreates c) id |>).
Proof. by intros w. Qed.
Lemma deletes_service id p : deletes (ServiceOpenTimer id p) (fun c => c <| pendingServiceOpens := map_delete (pendingServiceOpens c) id |>).
Proof. by intros w. Qed.
#[export] Hint Resolve deletes_fs deletes_fs_only deletes_create deletes_service : turns.

(** The end of a request that may have been given up already. *)
Lemma turn_end k t p s f w :
  deletes k f -> promise_of k = Some p ->
  (books (ledger w) -> (t, k) ∈ l_timers (ledger w) \/ (t ∉ map_keys (l_timers (ledger w)) /\ p ∈ l_settled (ledger w))) ->
  turn (ledger w) (ledger (fst ((let! _ := clearTimeout t in let! _ := assign f in settle p s) w))).
Proof. intros Hf Hk Hd. rewrite (ledger_discharge k) by done. by apply turn_discharge. Qed.

Lemma end_state {A B} (m : M A) (b : B) w : fst ((let! _ := m in ret b) w) = fst (m w).
Proof. unfold bind. by destruct (m w) as [w' [a|e]]. Qed.

(** What [sendFSRequest] and the others do once the request is registered. *)
Lemma turn_try k t p f (m : M (option jsstr)) w :
  turns m -> deletes k f -> promise_of k = Some p -> (t, k) ∈ l_timers (ledger w) ->
  turn (ledger w) (ledger (fst ((let! failure := m in
    let! _ := match failure with
              | None => ret tt
              | Some err => let! _ := clearTimeout t in let! _ := assign f in settle p (RejectWith err)
              end in ret p) w))).
Proof.
  intros Hm Hf Hk Ht. specialize (Hm w). unfold bind at 1.
  destruct (m w) as [w1 [[err|]|e]]; cbn [fst] in Hm |- *; [|exact Hm..].
  apply turn_given. intros Hb. destruct (Hm Hb) as [Hb1 He]. etrans; [exact Hm|]. rewrite end_state.
  apply (turn_end k); [done..|]. intros _. by apply (ev_timers _ _ He).
Qed.

(** *** Giving up all requests *)

Section RejectAll.
Context (cleared : Ledger -> Prop).
Context (Hcleared : forall l t s, cleared l -> cleared (l <| l_timers := t |> <| l_settled := s |>)).

(** The request still has its timer, or is settled. *)
Definition owed (l : Ledger) (r : Pending) : Prop :=
  exists k, promise_of k = Some (p_promise r) /\ (forall l', cleared l' -> forget k l' = l') /\
    ((p_timer r, k) ∈ l_timers l \/ (p_timer r ∉ map_keys (l_timers l) /\ p_promise r ∈ l_settled l)).

Lemma turn_reject_all err pending : forall w,
  cleared (ledger w) -> (books (ledger w) -> forall r, r ∈ pending -> owed (ledger w) r) ->
  turn (ledger w) (ledger (fst (reject_all pending err w))).
Proof.
  induction pending as [|r pending IH]; intros w Hc Ho; [apply turn_refl|]. apply turn_given. intros Hb. cbn [reject_all].
  destruct (Ho Hb r) as (k & Hk & Hf & Ht); [left|].
  set (w1 := w <| timers := without (p_timer r) (timers w) |>). set (w2 := fst (settle (p_promise r) (RejectWith err) w1)).
  change (turn (ledger w) (ledger (fst (reject_all pending err w2)))).
  assert (E : ledger w2 = discharge (p_timer r) k (p_promise r) (ledger w)).
  { unfold w2. rewrite ledger_settle.
    change (ledger w1) with ((ledger w) <| l_timers := without (p_timer r) (l_timers (ledger w)) |>). unfold discharge.
    rewrite Hf; [done|]. by apply Hcleared. }
  assert (Et : l_timers (ledger w2) = without (p_timer r) (l_timers (ledger w))) by (rewrite E; by destruct k).
  assert (Hc2 : cleared (ledger w2)).
  { rewrite E. unfold discharge. rewrite Hf; by apply Hcleared. }
  assert (H2 : turn (ledger w) (ledger w2)) by (rewrite E; by apply turn_discharge).
  destruct (H2 Hb) as [_ He]. etrans; [exact H2|]. apply IH; [done|]. intros _ r' Hr'.
  destruct (Ho Hb r') as (k' & Hk' & Hf' & Ht'); [by right|]. exists k'. split; [done|]. split; [done|].
  destruct Ht' as [Ht'|[Ht' Hs']]; [by apply (ev_timers _ _ He)|]. right. split; [|by apply He].
  rewrite Et. intros [x Hx]%in_keys. apply elem_without in Hx as [_ Hx]. apply Ht', in_keys. by exists x.
Qed.
End RejectAll.

Lemma map_values_in {V} (m : list (jsstr * V)) v : v ∈ map_values m -> exists k, (k, v) ∈ m.
Proof. unfold map_values. intros ([k x] & -> & H)%list_elem_of_fmap. by exists k. Qed.

Lemma turns_rejectPendingFSRequests err : turns (rejectPendingFSRequests err).
Proof.
  unfold rejectPendingFSRequests. apply turns_gets. intros w. set (w1 := w <| this := (this w) <| pendingFSRequests := [] |> |>).
  change (turn (ledger w) (ledger (fst (reject_all (map_values (pendingFSRequests (this w))) err w1)))).
  apply turn_given. intros Hb. etrans; [|apply (turn_reject_all (fun l => l_fs l = [])); [done|done|]].
  - change (ledger w1) with ((ledger w) <| l_fs := [] |>). apply turn_same_timers; [|done..|by exists []; rewrite app_nil_r].
    intros _. pose proof Hb as []. refine (books_forget (ledger w) [] (l_creates (ledger w)) (l_services (ledger w)) Hb _ _ _ _ _ _); try done.
    + apply NoDup_nil_2.
    + by intros x ?%elem_of_nil.
  - intros _ r [id Hr]%map_values_in. exists (FSRequestTimer id (p_promise r)). split; [done|].
    split; [intros l Hl; unfold forget, set_field; rewrite Hl; by destruct l; cbn in Hl; subst|]. left. by apply (bk_fs _ Hb).
Qed.

Lemma turns_rejectPendingSessionCreates err : turns (rejectPendingSessionCreates err).
Proof.
  unfold rejectPendingSessionCreates. apply turns_gets. intros w. set (w1 := w <| this := (this w) <| pendingSessionCreates := [] |> |>).
  change (turn (ledger w) (ledger (fst (reject_all (map_values (pendingSessionCreates (this w))) err w1)))).
  apply turn_given. intros Hb. etrans; [|apply (turn_reject_all (fun l => l_creates l = [])); [done|done|]].
  - change (ledger w1) with ((ledger w) <| l_creates := [] |>). apply turn_same_timers; [|done..|by exists []; rewrite app_nil_r].
    intros _. pose proof Hb as []. refine (books_forget (ledger w) (l_fs (ledger w)) [] (l_services (ledger w)) Hb _ _ _ _ _ _); try done.
    + apply NoDup_nil_2.
    + by intros x ?%elem_of_nil.
  - intros _ r [id Hr]%map_values_in. exists (SessionCreateTimer id (p_promise r)). split; [done|].
    split; [intros l Hl; unfold forget, set_field; rewrite Hl; by destruct l; cbn in Hl; subst|]. left. by apply (bk_creates _ Hb).
Qed.

Lemma turns_rejectPendingServiceOpens err : turns (rejectPendingServiceOpens err).
Proof.
  unfold rejectPendingServiceOpens. apply turns_gets. intros w. set (w1 := w <| this := (this w) <| pendingServiceOpens := [] |> |>).
  change (turn (ledger w) (ledger (fst (reject_all (map ps_pending (map_values (pendingServiceOpens (this w)))) err w1)))).
  apply turn_given. intros Hb. etrans; [|apply (turn_reject_all (fun l => l_services l = [])); [done|done|]].
  - change (ledger w1) with ((ledger w) <| l_services := [] |>). apply turn_same_timers; [|done..|by exists []; rewrite app_nil_r].
    intros _. pose proof Hb as []. refine (books_forget (ledger w) (l_fs (ledger w)) (l_creates (ledger w)) [] Hb _ _ _ _ _ _); try done.
    + apply NoDup_nil_2.
    + by intros x ?%elem_of_nil.
  - intros _ r (s & -> & [id Hr]%map_values_in)%list_elem_of_fmap. exists (ServiceOpenTimer id (p_promise (ps_pending s))). split; [done|].
    split; [intros l Hl; unfold forget, set_field; rewrite Hl; by destruct l; cbn in Hl; subst|]. left. by apply (bk_services _ Hb).
Qed.
#[export] Hint Resolve turns_rejectPendingFSRequests turns_rejectPendingSessionCreates turns_rejectPendingServiceOpens : turns.

Lemma turns_rejectPending : turns rejectPending.
Proof. unfold rejectPending, assign. turns_tac. Qed.
#[export] Hint Resolve turns_rejectPending : turns.

(** ** Methods *)

Ltac method_tac := unfold self, assign; turns_tac.

Lemma turns_recover g err : turns (recover g err).
Proof. unfold recover. method_tac. Qed.
#[export] Hint Resolve turns_recover : turns.
Lemma turns_fail g t err : turns (fail g t err).
Proof. unfold fail. method_tac. Qed.
Lemma turns_failHandover t err : turns (failHandover t err).
Proof. unfold failHandover. method_tac. Qed.
Lemma turns_cancelHandover t : turns (cancelHandover t).
Proof. unfold cancelHandover. method_tac. Qed.
#[export] Hint Resolve turns_fail turns_failHandover turns_cancelHandover : turns.
Lemma turns_on_failure t err : turns (on_failure t err).
Proof. unfold on_failure. method_tac. Qed.
Lemma turns_closeTransport : turns closeTransport.
Proof. unfold closeTransport. method_tac. Qed.
#[export] Hint Resolve turns_on_failure turns_closeTransport : turns.
Lemma turns_detach : turns detach.
Proof. unfold detach. method_tac. Qed.
Lemma turns_suspend : turns suspend.
Proof. unfold suspend. method_tac. Qed.
#[export] Hint Resolve turns_detach turns_suspend : turns.

Lemma turns_rejected m : turns (rejected m).
Proof.
  unfold rejected, newPromise. intros w. cbn. apply turn_given. intros Hb. unfold ledger at 2. cbn. rewrite settlements_snoc.
  assert (Hn : nextPromise w ∉ settlements (trace w)).
  { intros Hin. pose proof (bk_promises _ Hb) as Hp. cbn in Hp. assert (Hi : nextPromise w ∈ seq 0 (nextPromise w)).
    { rewrite <- Hp. set_solver. } apply elem_of_seq in Hi. lia. }
  cbn [settlement]. rewrite bool_decide_eq_false_2 by done.
  apply (turn_same_timers (ledger w)); [|done..|by exists [nextPromise w]]. intros _. exact (books_rejected _ Hb).
Qed.
#[export] Hint Resolve turns_rejected : turns.

Section Session.
Context `{JsText} `{PeerHost}.

Lemma turns_transport_send t frame : turns (transport_send t frame).
Proof. unfold transport_send. method_tac. Qed.
#[local] Hint Resolve turns_transport_send : turns.
Lemma turns_send frame : turns (send frame).
Proof. unfold send. method_tac. Qed.
#[local] Hint Resolve turns_send : turns.
Lemma silent_ledger_frame_of ty p : preserves ledger (frame_of ty p).
Proof. unfold frame_of, self. silent_tac. Qed.
Lemma silent_ledger_resize_frame c r : preserves ledger (resize_frame c r).
Proof. unfold resize_frame, frame_of, self. silent_tac. Qed.
#[local] Hint Resolve silent_ledger_frame_of silent_ledger_resize_frame : preserves.
Lemma turns_flush_inputs n : turns (flush_inputs n).
Proof. induction n; cbn [flush_inputs]; method_tac. Qed.
#[local] Hint Resolve turns_flush_inputs : turns.
Lemma turns_flush : turns flush.
Proof. unfold flush. method_tac. Qed.
#[local] Hint Resolve turns_flush : turns.
Lemma turns_sendInput v : turns (sendInput v).
Proof. unfold sendInput. method_tac. Qed.
Lemma turns_sendResize c r : turns (sendResize c r).
Proof. unfold sendResize. method_tac. Qed.
Lemma turns_claimDriver : turns claimDriver.
Proof. unfold claimDriver. method_tac. Qed.
Lemma turns_closeService s : turns (closeService s).
Proof. unfold closeService. method_tac. Qed.
#[local] Hint Resolve turns_sendInput turns_sendResize turns_claimDriver turns_closeService : turns.
Lemma turns_try_send g t ty p failure : turns (try_send g t ty p failure).
Proof. unfold try_send. method_tac. Qed.
#[local] Hint Resolve turns_try_send : turns.

Lemma silent_newUniqueFSRequestID n : preserves ledger (newUniqueFSRequestID n).
Proof. induction n; cbn [newUniqueFSRequestID]; unfold self; silent_tac. Qed.
#[local] Hint Resolve silent_newUniqueFSRequestID : preserves.

(** *** Opening requests *)

Lemma turns_open {A} k d f g (rest : nat -> nat -> M A) :
  (forall p t w, ledger (w <| this := f p t (this w) |>) = g (generation (this w)) p t (ledger w)) ->
  (forall x p t l, l_timers (g x p t l) = l_timers l /\ l_nextTimer (g x p t l) = l_nextTimer l /\
     l_settled (g x p t l) = l_settled l /\ l_pastes (g x p t l) = l_pastes l) ->
  (forall x l, books l ->
    books (g x (l_nextPromise l) (l_nextTimer l) (with_timer (k (l_nextPromise l)) l <| l_nextPromise := S (l_nextPromise l) |>))) ->
  (forall p t w, (t, k p) ∈ l_timers (ledger w) -> turn (ledger w) (ledger (fst (rest p t w)))) ->
  turns (let! p := newPromise in let! t := setTimeout (k p) d in let! _ := assign (f p t) in rest p t).
Proof.
  intros Hf Hg Hb Hr w. set (p := nextPromise w). set (w0 := w <| nextPromise := S p |>).
  destruct (ledger_setTimeout (k p) d w0) as [Hl Ho]. set (t := nextTimer w). set (w1 := fst (setTimeout (k p) d w0)) in *.
  set (w2 := w1 <| this := f p t (this w1) |>). set (x := generation (this w)).
  assert (E : ledger w2 = g x p t (with_timer (k p) (ledger w) <| l_nextPromise := S p |>)).
  { unfold w2. rewrite Hf, Hl. reflexivity. }
  destruct (Hg x p t (with_timer (k p) (ledger w) <| l_nextPromise := S p |>)) as (Et & En & Es & Ep). rewrite <- E in Et, En, Es, Ep.
  change (turn (ledger w) (ledger (fst (rest p t w2)))). etrans.
  - apply (turn_with_timer _ (ledger w2) (k p)); [|done..]. intros Hl0. rewrite E. exact (Hb x _ Hl0).
  - apply Hr. rewrite Et. apply elem_snoc. by right.
Qed.

Lemma turns_fs_block id ms m :
  turns m ->
  turns (let! p := newPromise in
         let! timer := setTimeout (FSRequestTimer id p) ms in
         let! _ := assign (fun c => c <| pendingFSRequests := map_set (pendingFSRequests c) id (mkPending (generation c) p timer) |>) in
         let! failure := m in
         let! _ := match failure with
                   | None => ret tt
                   | Some err =>
                       let! _ := clearTimeout timer in
                       let! _ := assign (fun c => c <| pendingFSRequests := map_delete (pendingFSRequests c) id |>) in
                       settle p (RejectWith err)
                   end in
         ret p).
Proof.
  intros Hm. apply (turns_open (FSRequestTimer id) ms _ (fun g p t l => l <| l_fs := map_set (l_fs l) id (mkPending g p t) |>)).
  - done.
  - done.
  - intros g l Hl. exact (books_open_fs l id g Hl).
  - intros p t w Ht. apply (turn_try (FSRequestTimer id p)); auto with turns.
Qed.

Lemma turns_create_block id ms m :
  turns m ->
  turns (let! p := newPromise in
         let! timer := setTimeout (SessionCreateTimer id p) ms in
         let! _ := assign (fun c => c <| pendingSessionCreates := map_set (pendingSessionCreates c) id (mkPending (generation c) p timer) |>) in
         let! failure := m in
         let! _ := match failure with
                   | None => ret tt
                   | Some err =>
                       let! _ := clearTimeout timer in
                       let! _ := assign (fun c => c <| pendingSessionCreates := map_delete (pendingSessionCreates c) id |>) in
                       settle p (RejectWith err)
                   end in
         ret p).
Proof.
  intros Hm. apply (turns_open (SessionCreateTimer id) ms _ (fun g p t l => l <| l_creates := map_set (l_creates l) id (mkPending g p t) |>)).
  - done.
  - done.
  - intros g l Hl. exact (books_open_create l id g Hl).
  - intros p t w Ht. apply (turn_try (SessionCreateTimer id p)); auto with turns.
Qed.

Lemma turns_service_block id sid att ms m :
  turns m ->
  turns (let! p := newPromise in
         let! timer := setTimeout (ServiceOpenTimer id p) ms in
         let! _ := assign (fun c => c <| pendingServiceOpens := map_set (pendingServiceOpens c) id (mkPendingService (mkPending (generation c) p timer) sid att) |>) in
         let! failure := m in
         let! _ := match failure with
                   | None => ret tt
                   | Some err =>
                       let! _ := clearTimeout timer in
                       let! _ := assign (fun c => c <| pendingServiceOpens := map_delete (pendingServiceOpens c) id |>) in
                       settle p (RejectWith err)
                   end in
         ret p).
Proof.
  intros Hm. apply (turns_open (ServiceOpenTimer id) ms _ (fun g p t l => l <| l_services := map_set (l_services l) id (mkPendingService (mkPending g p t) sid att) |>)).
  - done.
  - done.
  - intros g l Hl. exact (books_open_service l id sid att g Hl).
  - intros p t w Ht. apply (turn_try (ServiceOpenTimer id p)); auto with turns.
Qed.


Lemma turns_assign_silent f : (forall w, ledger (w <| this := f (this w) |>) = ledger w) -> turns (assign f).
Proof. intros Hf w. unfold assign, modify. cbn [fst]. rewrite Hf. apply turn_refl. Qed.

Lemma turns_sendFSRequest request ms : turns (sendFSRequest request ms).
Proof.
  unfold sendFSRequest, self. repeat first [match goal with |- turns (bind newPromise _) => apply turns_fs_block; auto with turns end | turns_step].
Qed.
Lemma turns_createSession h p ms : turns (createSessionWithProfile h p ms).
Proof.
  unfold createSessionWithProfile, self. repeat first [match goal with |- turns (bind newPromise _) => apply turns_create_block; auto with turns end | turns_step].
Qed.
Lemma turns_openService port host ms : turns (openService port host ms).
Proof.
  unfold openService, self. repeat first [match goal with |- turns (bind newPromise _) => apply turns_service_block; auto with turns end | turns_step].
Qed.
#[local] Hint Resolve turns_sendFSRequest turns_createSession turns_openService : turns.

(** *** Answers *)

Lemma turns_gets_bind {A B} (f : PeerWorld -> A) (k : A -> M B) :
  (forall w, turn (ledger w) (ledger (fst (k (f w) w)))) -> turns (bind (gets f) k).
Proof. done. Qed.

Lemma turn_answer_fs id (r : Pending) s w :
  map_get (pendingFSRequests (this w)) id = Some r ->
  turn (ledger w) (ledger (fst ((let! _ := clearTimeout (p_timer r) in
    let! _ := assign (fun c => c <| pendingFSRequests := map_delete (pendingFSRequests c) id |>) in settle (p_promise r) s) w))).
Proof.
  intros Hr. apply (turn_end (FSRequestTimer id (p_promise r))); [auto with turns|done|]. intros Hb. left.
  apply (bk_fs _ Hb id). by apply map_get_in.
Qed.

Lemma turn_answer_create id (r : Pending) s w :
  map_get (pendingSessionCreates (this w)) id = Some r ->
  turn (ledger w) (ledger (fst ((let! _ := clearTimeout (p_timer r) in
    let! _ := assign (fun c => c <| pendingSessionCreates := map_delete (pendingSessionCreates c) id |>) in settle (p_promise r) s) w))).
Proof.
  intros Hr. apply (turn_end (SessionCreateTimer id (p_promise r))); [auto with turns|done|]. intros Hb. left.
  apply (bk_creates _ Hb id). by apply map_get_in.
Qed.

Lemma turn_answer_service id (r : PendingService) s w :
  map_get (pendingServiceOpens (this w)) id = Some r ->
  turn (ledger w) (ledger (fst ((let! _ := clearTimeout (p_timer (ps_pending r)) in
    let! _ := assign (fun c => c <| pendingServiceOpens := map_delete (pendingServiceOpens c) id |>) in
    settle (p_promise (ps_pending r)) s) w))).
Proof.
  intros Hr. apply (turn_end (ServiceOpenTimer id (p_promise (ps_pending r)))); [auto with turns|done|]. intros Hb. left.
  apply (bk_services _ Hb id). by apply map_get_in.
Qed.

Ltac answer_tac lem :=
  apply turns_gets_bind; intros w; cbv beta;
  match goal with |- context [map_get ?m ?i] => destruct (map_get m i) eqn:?; [|apply turn_refl] end;
  repeat match goal with |- context [if ?b then _ else _] => destruct b; [apply turn_refl|] end;
  cbv zeta; repeat match goal with |- context [if ?b then ret tt else _] => destruct b; [apply turn_refl|] end;
  by apply lem.

Lemma turns_handleFSResponse payload : turns (handleFSResponse payload).
Proof.
  unfold handleFSResponse. apply turns_bind; [apply turns_preserves; auto with preserves|]. intros segments.
  destruct (parse_segment segments) as [[]|]; try (apply turns_preserves; auto with preserves; fail).
  destruct (negb _); [apply turns_preserves; auto with preserves|]. cbv zeta. unfold self. answer_tac turn_answer_fs.
Qed.

Lemma turns_handleSessionCreated f : turns (handleSessionCreated f).
Proof.
  unfold handleSessionCreated. destruct (parse (f_payload f)) as [response|]; [|apply turns_preserves; auto with preserves].
  destruct (as_string _) as [id|]; [|apply turns_preserves; auto with preserves].
  destruct (_ || _ || _); [apply turns_preserves; auto with preserves|]. unfold self. answer_tac turn_answer_create.
Qed.

Lemma turns_handleServiceOpened payload : turns (handleServiceOpened payload).
Proof.
  unfold handleServiceOpened. destruct (parse payload) as [response|]; [|apply turns_preserves; auto with preserves].
  destruct (as_string (field response "request_id")) as [id|]; [|apply turns_preserves; auto with preserves].
  destruct (as_string _) as [service|]; [|apply turns_preserves; auto with preserves].
  destruct (_ || _); [apply turns_preserves; auto with preserves|]. unfold self. answer_tac turn_answer_service.
Qed.
#[local] Hint Resolve turns_handleFSResponse turns_handleSessionCreated turns_handleServiceOpened : turns.

Lemma silent_notify l ev : preserves ledger (notify_fs_handlers l ev).
Proof. induction l; cbn [notify_fs_handlers]; silent_tac. Qed.
#[local] Hint Resolve silent_notify : preserves.

Lemma turns_handleFrame f : turns (handleFrame f).
Proof. unfold handleFrame, handleOut, handleMeta, handleClose, handleFSEvent. method_tac. Qed.
#[local] Hint Resolve turns_handleFrame : turns.

(** *** Pastes *)

Lemma turns_sendPaste ty fb bt content name : turns (sendPaste ty fb bt content name).
Proof.
  unfold sendPaste. apply turns_gets. intros w. destruct (_ <? _); [apply turns_rejected|].
  destruct (request_route (this w)) as [t|]; [|apply turns_rejected].
  unfold bind, newPromise, gets, modify, ret. cbn [fst snd].
  apply turn_grow; [|exists []; by rewrite app_nil_r; split; [|intros ? ? ?%elem_of_nil]|done|exists []; by rewrite app_nil_r|].
  - intros Hb. unfold ledger. cbn. unfold map_keys. rewrite map_app. exact (books_paste _ Hb).
  - intros p Hp. left. unfold ledger. cbn. unfold map_keys in *. rewrite map_app. apply elem_of_app. by left.
Qed.

Lemma pastes_delete {V} (m : list (nat * V)) p : p ∈ map_keys m -> map_keys m ≡ₚ p :: map_keys (map_delete m p).
Proof.
  induction m as [|[q v] m IH]; [by intros ?%elem_of_nil|]. cbn. intros [->|Hp]%elem_of_cons.
  - by rewrite bool_decide_eq_true_2.
  - case_bool_decide as Hq; [by subst|]. cbn. rewrite (IH Hp) at 1. apply perm_swap.
Qed.

Lemma turn_paste_settled p s w :
  (books (ledger w) -> p ∈ l_pastes (ledger w) \/ p ∈ l_settled (ledger w)) ->
  turn (ledger w) (ledger (fst (paste_settled p s w))).
Proof.
  intros Hin. apply turn_given. intros Hb. unfold paste_settled. set (w1 := w <| pastes := map_delete (pastes w) p |>).
  change (turn (ledger w) (ledger (fst (settle p s w1)))). rewrite ledger_settle.
  change (ledger w1) with ((ledger w) <| l_pastes := map_keys (map_delete (pastes w) p) |>).
  pose proof (NoDup_seq 0 (l_nextPromise (ledger w))) as Hs. rewrite <- (bk_promises _ Hb) in Hs.
  apply NoDup_app in Hs as (_ & Hs & _). cbn [settlement l_settled set_field].
  destruct (decide (p ∈ l_pastes (ledger w))) as [Hp|Hp].
  - pose proof (pastes_delete _ _ Hp) as Hd. assert (Hn : p ∉ l_settled (ledger w)).
    { intros Hx. apply (Hs p Hx). apply elem_of_app. by right. }
    rewrite bool_decide_eq_false_2 by exact Hn.
    apply turn_grow; [|exists []; by rewrite app_nil_r; split; [|intros ? ? ?%elem_of_nil]|done|by exists [p]|].
    + intros _. exact (books_pasted _ _ _ Hb Hd).
    + intros q. change (l_pastes (ledger w)) with (map_keys (pastes w)). rewrite Hd. intros [->|Hq]%elem_of_cons; [|by left].
      right. apply elem_snoc. by right.
  - destruct (Hin Hb) as [?|Hx]; [done|]. rewrite bool_decide_eq_true_2 by exact Hx.
    rewrite map_delete_absent by (by apply map_get_none). destruct w; apply turn_refl.
Qed.

Lemma turns_paste_resume p read : turns (paste_resume p read).
Proof.
  unfold paste_resume. apply turns_gets. intros w. destruct (map_get (pastes w) p) as [pa|] eqn:Ep; [|apply turn_refl].
  assert (Hp : p ∈ l_pastes (ledger w)) by (apply map_get_in in Ep; apply in_keys; by exists pa).
  destruct read as [_|err]; [|apply turn_paste_settled; auto]. unfold self, bind at 1. cbn [gets].
  set (m := if negb (ready (this w)) then _ else _).
  assert (Hm : turns m) by (unfold m; turns_tac). specialize (Hm w). clearbody m. unfold bind.
  destruct (m w) as [w1 [failure|e]]; cbn in Hm; [|exact Hm]. apply turn_given. intros Hb.
  destruct (Hm Hb) as [_ He]. etrans; [exact Hm|]. apply turn_paste_settled. intros _. by apply He.
Qed.
#[local] Hint Resolve turns_sendPaste turns_paste_resume : turns.

(** *** Routes *)

Lemma turns_promoteHandover t seq : turns (promoteHandover t seq).
Proof. unfold promoteHandover. method_tac. Qed.
#[local] Hint Resolve turns_promoteHandover : turns.
Lemma turns_handover_callback t cb : turns (handover_callback t cb).
Proof. unfold handover_callback. method_tac. Qed.
Lemma turns_failback_failed : turns failback_failed.
Proof. unfold failback_failed. method_tac. Qed.
#[local] Hint Resolve turns_handover_callback turns_failback_failed : turns.
Lemma silent_transport_start `{PeerHost} t : preserves ledger (transport_start t).
Proof. unfold transport_start, tick. silent_tac. Qed.
#[local] Hint Resolve silent_transport_start : preserves.
Lemma turns_startDirectHandover g : turns (startDirectHandover g).
Proof. unfold startDirectHandover. method_tac. Qed.
Lemma turns_start : turns start.
Proof. unfold start, start_threw. method_tac. Qed.
#[local] Hint Resolve turns_startDirectHandover turns_start : turns.
Lemma turns_start_callback g t cb : turns (start_callback g t cb).
Proof. unfold start_callback. method_tac. Qed.
#[local] Hint Resolve turns_start_callback : turns.
Lemma turns_callback t cb : turns (callback t cb).
Proof. unfold callback. method_tac. Qed.
Lemma turns_attach : turns attach.
Proof. unfold attach. method_tac. Qed.
Lemma turns_setRoute r : turns (setRoute r).
Proof. unfold setRoute. method_tac. Qed.
Lemma turns_fallback_settled g b : turns (fallback_settled g b).
Proof. unfold fallback_settled. method_tac. Qed.
Lemma turns_probeDirectFailback g : turns (probeDirectFailback g).
Proof. unfold probeDirectFailback. method_tac. Qed.
Lemma turns_failback_settled p g b : turns (failback_settled p g b).
Proof. unfold failback_settled. method_tac. Qed.
#[local] Hint Resolve turns_callback turns_attach turns_setRoute turns_fallback_settled turns_probeDirectFailback
  turns_failback_settled : turns.

(** *** Timers and probes *)

Lemma turn_probe_over l t p :
  (t, ProbeTimer p) ∈ l_timers l ->
  turn l (l <| l_timers := without t (l_timers l) |> <| l_probes := map_delete (l_probes l) p |>).
Proof.
  intros Ht. apply (turn_without _ _ t); [|done..|].
  - intros Hb. pose proof (books_fire_probe l t p Hb Ht) as H1. unfold without_timer in H1. cbn in H1. rewrite app_nil_r in H1. exact H1.
  - intros Hb k Hk. by rewrite <- (timer_kind _ _ _ _ (bk_timers _ Hb) Ht Hk).
Qed.

Lemma turns_probe_settled p b : turns (probe_settled p b).
Proof.
  unfold probe_settled. apply turns_gets. intros w. destruct (map_get (probes w) p) as [pr|] eqn:Ep; [|apply turn_refl].
  set (w1 := w <| probes := map_delete (probes w) p |> <| timers := without (pr_timer pr) (timers w) |>).
  match goal with |- turn _ (ledger (fst (bind _ (fun _ => bind _ (fun _ => ?k)) _))) => change (turn (ledger w) (ledger (fst (k w1)))) end.
  apply turn_given. intros Hb. etrans.
  - apply (turn_probe_over (ledger w) (pr_timer pr) p). apply (bk_probes _ Hb). by apply map_get_in.
  - change (_ <| l_probes := _ |>) with (ledger w1). destruct (pr_kind pr); [apply turns_fallback_settled|apply turns_failback_settled].
Qed.

Lemma turn_probe_timer t p w :
  (t, ProbeTimer p) ∈ l_timers (ledger w) ->
  turn (ledger w) (ledger (fst (probe_settled p false (w <| timers := without t (timers w) |>)))).
Proof.
  intros Ht. set (w0 := w <| timers := _ |>). unfold probe_settled.
  unfold bind at 1. cbn [gets]. change (probes w0) with (probes w). destruct (map_get (probes w) p) as [pr|] eqn:Ep.
  2: { cbn [ret fst]. apply turn_given. intros Hb. pose proof (turn_probe_over (ledger w) t p Ht) as H1.
       rewrite map_delete_absent in H1 by exact Ep. exact H1. }
  set (w1 := w0 <| probes := map_delete (probes w) p |> <| timers := without (pr_timer pr) (timers w0) |>).
  match goal with |- turn _ (ledger (fst (bind _ (fun _ => bind _ (fun _ => ?k)) _))) => change (turn (ledger w) (ledger (fst (k w1)))) end.
  apply turn_given. intros Hb. etrans; [|etrans]; [exact (turn_probe_over (ledger w) t p Ht)| |].
  2: { destruct (pr_kind pr); [apply turns_fallback_settled|apply turns_failback_settled]. }
  assert (Hpt : (pr_timer pr, ProbeTimer p) ∈ l_timers (ledger w)) by (apply (bk_probes _ Hb); by apply map_get_in).
  assert (Hk : forall k, (pr_timer pr, k) ∈ without t (timers w) -> k = ProbeTimer p).
  { intros k [_ Hx]%elem_without. symmetry. exact (timer_kind _ _ _ _ (bk_timers _ Hb) Hpt Hx). }
  apply (turn_without _ _ (pr_timer pr)); [|done..|].
  - intros Hb1. apply (books_stray_probe (pr_timer pr)) in Hb1; [exact Hb1|]. intros k Hx. exists p. split; [by apply Hk|].
    cbn. intros [x Hi]%in_keys. apply elem_map_delete in Hi as [? _]; [done|]. exact (bk_probes_ok _ Hb).
  - intros _ k Hx. by rewrite (Hk k Hx).
Qed.

Lemma turn_timer t kind w :
  (t, kind) ∈ l_timers (ledger w) ->
  turn (ledger w) (ledger (fst (timer_fired kind (w <| timers := without t (timers w) |>)))).
Proof.
  intros Ht. destruct kind as [|g|p|id p|id p|id p].
  - set (w1 := w <| timers := without t (timers w) |> <| this := (this w) <| reconnectTimer := None |> |>).
    change (turn (ledger w) (ledger (fst (when (negb (detached (this w1)) && negb (suspended (this w1))) start w1)))).
    etrans; [|unfold when; destruct (_ && _); [apply turns_start|apply turn_refl]].
    apply (turn_without _ _ t); [|done..|].
    + intros Hb. pose proof (books_fire_reconnect _ _ Hb Ht) as H1. unfold without_timer in H1. cbn in H1. rewrite app_nil_r in H1. exact H1.
    + intros Hb k. apply no_promise; [done|by left].
  - set (w1 := w <| timers := without t (timers w) |> <| this := (this w) <| failbackTimer := None |> |>).
    change (turn (ledger w) (ledger (fst (probeDirectFailback g w1)))). etrans; [|apply turns_probeDirectFailback].
    apply (turn_without _ _ t); [|done..|].
    + intros Hb. pose proof (books_fire_failback _ _ g Hb Ht) as H1. unfold without_timer in H1. cbn in H1. rewrite app_nil_r in H1. exact H1.
    + intros Hb k. apply no_promise; [done|]. right. by exists g.
  - by apply turn_probe_timer.
  - by apply (turn_end (FSRequestTimer id p) t p _ _ w); [auto with turns|done|auto].
  - by apply (turn_end (SessionCreateTimer id p) t p _ _ w); [auto with turns|done|auto].
  - by apply (turn_end (ServiceOpenTimer id p) t p _ _ w); [auto with turns|done|auto].
Qed.
#[local] Hint Resolve turns_probe_settled : turns.

(** Every event keeps the books. *)
Lemma turn_step e w : turn (ledger w) (ledger (step e w)).
Proof.
  revert w. change (turns (dispatch e)). destruct e; try solve [unfold dispatch, void, onFSEvent, offFSEvent; method_tac].
  apply turns_gets. intros w. destruct (map_get (timers w) t) as [kind|] eqn:Et; [|apply turn_refl].
  apply (turn_timer t kind w). by apply map_get_in.
Qed.

Lemma books_init c : reconnectTimer c = None -> failbackTimer c = None -> pendingFSRequests c = [] ->
  pendingSessionCreates c = [] -> pendingServiceOpens c = [] -> books (ledger (init c)).
Proof.
  intros Er Ef E1 E2 E3. unfold ledger, init. cbn. rewrite Er, Ef, E1, E2, E3. split; cbn.
  all: first [by apply NoDup_nil_2 | by intros ? ? ?%elem_of_nil | done | idtac].
  intros t. split; [done|by intros ?%elem_of_nil].
Qed.
End Session.
