(* ===== verification/PeerSessionToy.v ===== *)
(** * A concrete environment for the peer session connection

    A run time with which the theorems on [PeerSession] are evaluated:
    transports start and send everything they are given. *)

From stdpp Require Import pretty.
From S2P Require Import Prelude Bytes JsString JsMap Json JsonText Proto FsSegments DirectCrypto ConnWire.
From S2P Require Import EventLoop Transport NativeDirect PeerSession.

#[export] Instance toy_peer_host : PeerHost := {
  randomUUID n := js ("uuid-" +:+ pretty n);
  fallbackFSRequestID n := js ("fallback-" +:+ pretty n);
  factory_error _ := None;
  start_outcome _ := Started;
  send_outcome _ := Sent;
  attempt_id_of _ _ := js "attempt";
  translate s := js s;
}.

(** The same run time, but transports do not take the frames of these calls. *)
Definition refusing_host (calls : list nat) : PeerHost := {|
  randomUUID := randomUUID;
  fallbackFSRequestID := fallbackFSRequestID;
  factory_error := factory_error;
  start_outcome := start_outcome;
  send_outcome n := if bool_decide (n ∈ calls) then Refused else Sent;
  attempt_id_of := attempt_id_of;
  translate := translate;
|}.

Module PeerScene.
Definition sid_text : jsstr := js "00000000-0000-0000-0000-000000000001".
Definition sid : bytes := zeros 15 ++ [1].

(** The connection the constructor builds, on the route given. *)
Definition conn (r : NativePeerRoute) : PeerConn :=
  match new_peer_connection sid_text (js "client-1") (js "me") true true None (Some r) with
  | Ok c => c
  | Throw _ => mkPeerConn [] [] [] [] true true None None 0 0 false false false false 0 None false None None None 0 []
                 None false [] [] [] [] [] [] None None 0 r
  end.

Definition frame (type : Z) (payload : bytes) : bytes :=
  match encodeFrame type sid (Some payload) with Ok f => f | Throw _ => [] end.

(** Output [data] with sequence number [seq]. *)
Definition out (seq : Z) (data : bytes) : bytes := frame TYPE.OUT (be_bytes 8 seq ++ data).

(** Transport [t] becomes ready. *)
Definition opened (t : nat) (seq : Z) : list Event := [EvCallback t CbAuthenticated; EvCallback t (CbReady seq)].

(** Attached over a Quick Tunnel; the cooldown ends and the direct route is
    found to be back: transport 1 is made for the handover. *)
Definition handover_events : list Event :=
  EvAttach :: opened 0 0 ++ [EvCallback 0 (CbFrame (out 5 [104])); EvTimer 0; EvProbe 0 true].
End PeerScene.
