(* ===== verification/PeerSessionCalm.v ===== *)
(** * What the methods of the peer session connection leave alone

    [io]: the output shown with its cursor, and the input sent with the input
    that waits, and the pastes. A [calm] method leaves it alone, only adds to the
    trace, and does not make the connection free to send or give it another
    transport to send on. *)

From S2P Require Import Prelude Bytes JsString JsMap Json Proto FsSegments DirectCrypto ConnWire.
From S2P Require Import EventLoop Transport NativeDirect PeerSession PeerSessionView PeerSessionRoute.

(** The sequence numbers of the output shown, of the numbered ones. *)
Definition shown_seqs (l : list Effect) : list Z :=
  omap (fun e => match e with OnOutput seq _ => if 0 <? seq then Some seq else None | _ => None end) l.

(** The payload of a frame whose type byte says IN. *)
Definition input_of (frame : bytes) : option bytes :=
  if bool_decide (idx frame 1 = Some TYPE.IN) then Some (slice_from frame (HEADER_LEN + SID_LEN)) else None.

Definition input_sent (e : Effect) : option bytes :=
  match e with SendFrame _ frame => input_of frame | _ => None end.

(** The payloads of the IN frames sent, in order. *)
Definition inputs_sent (l : list Effect) : list bytes := omap input_sent l.

Definition io (w : PeerWorld) : list Z * Z * list bytes * list jsstr * bytes * list (nat * Paste) :=
  (shown_seqs (trace w), lastSeq (this w), inputs_sent (trace w), pendingInputs (this w), sidBytes (this w), pastes w).

(** [send] would give a frame to the transport. *)
Definition sends (c : PeerConn) : Prop := ready c = true /\ handover c = None.

(** Free to send in [w'] only when it was in [w], and then on the same
    transport. *)
Definition no_freer (w w' : PeerWorld) : Prop :=
  ready (this w') = true ->
  ready (this w) = true /\ transport (this w') = transport (this w) /\ (handover (this w') = None -> handover (this w) = None).

Definition calm {A} (m : M A) : Prop :=
  forall w, let w' := fst (m w) in io w' = io w /\ no_freer w w' /\ trace w `prefix_of` trace w'.

Lemma no_freer_refl w : no_freer w w.
Proof. by intros Hr. Qed.

Lemma no_freer_trans w1 w2 w3 : no_freer w1 w2 -> no_freer w2 w3 -> no_freer w1 w3.
Proof.
  intros H12 H23 H3. destruct (H23 H3) as (H2 & E2 & Hh2). destruct (H12 H2) as (H1 & E1 & Hh1).
  split; [done|]. split; [congruence|auto].
Qed.

Lemma calm_trans {A B} (m : M A) (n : M B) w :
  calm m -> calm n -> let w1 := fst (m w) in let w2 := fst (n w1) in
  io w2 = io w /\ no_freer w w2 /\ trace w `prefix_of` trace w2.
Proof.
  intros Hm Hn w1 w2. destruct (Hm w) as (I1 & F1 & T1), (Hn w1) as (I2 & F2 & T2).
  split; [unfold w2, w1 in *; congruence|]. split; [by eapply no_freer_trans|]. by etrans.
Qed.

Lemma calm_bind {A B} (m : M A) (k : A -> M B) : calm m -> (forall a, calm (k a)) -> calm (bind m k).
Proof.
  intros Hm Hk w. pose proof (Hm w) as Hw. unfold bind. destruct (m w) as [w' [a|e]] eqn:E; [|exact Hw].
  pose proof (calm_trans m (k a) w Hm (Hk a)) as Ht. by rewrite E in Ht.
Qed.

Lemma calm_still {A} (m : M A) : (forall w, fst (m w) = w) -> calm m.
Proof. intros Hm w. cbv zeta. by rewrite Hm. Qed.
Lemma calm_gets {A} (f : PeerWorld -> A) : calm (gets f).
Proof. by apply calm_still. Qed.
Lemma calm_ret {A} (a : A) : calm (ret a).
Proof. by apply calm_still. Qed.
Lemma calm_raise {A} e : calm (@raise PeerWorld A e).
Proof. by apply calm_still. Qed.
Lemma calm_answer {A} (o : outcome A) : calm (answer o).
Proof. by apply calm_still. Qed.
Lemma calm_settled {A} (m : M A) : calm m -> calm (settled m).
Proof. intros Hm w. apply Hm. Qed.
Lemma calm_catch {A} (m : M A) h : calm m -> (forall e, calm (h e)) -> calm (catch m h).
Proof.
  intros Hm Hh w. pose proof (Hm w) as Hw. unfold catch. destruct (m w) as [w' [a|e]] eqn:E; [exact Hw|].
  pose proof (calm_trans m (h e) w Hm (Hh e)) as Ht. by rewrite E in Ht.
Qed.

Lemma calm_modify f :
  (forall w, io (f w) = io w) -> (forall w, no_freer w (f w)) -> (forall w, trace w `prefix_of` trace (f w)) -> calm (modify f).
Proof. intros Hi Hr Ht w. split; [apply Hi|]. split; [apply Hr|apply Ht]. Qed.

Lemma calm_emit e : (match e with OnOutput _ _ | SendFrame _ _ => False | _ => True end) -> calm (emit e).
Proof.
  intros He. apply calm_modify; [|by intros w Hr|intros w; by eexists]. intros w. unfold io, shown_seqs, inputs_sent. cbn. rewrite !omap_app.
  destruct e; try done; cbn; by rewrite !app_nil_r.
Qed.

Lemma calm_io {A} (m : M A) : calm m -> preserves io m.
Proof. intros Hm w. apply Hm. Qed.

Create HintDb calm.
#[export] Hint Resolve calm_gets calm_ret calm_raise calm_answer calm_settled : calm.

Ltac calm_leaf := intros ?; unfold no_freer; cbn; intros ?; (discriminate || (split; [assumption|split; [reflexivity|(discriminate || auto)]])).
Ltac calm_step :=
  first
    [ solve [auto with calm]
    | solve [apply calm_emit; exact I]
    | solve [apply calm_modify; [intros ?; reflexivity|calm_leaf|intros ?; reflexivity]]
    | match goal with
      | |- calm (bind _ _) => apply calm_bind; [|intros ?]
      | |- calm (catch _ _) => apply calm_catch; [|intros ?]
      | |- calm (if ?b then _ else _) => destruct b
      | |- calm (match ?x with _ => _ end) => destruct x
      | |- calm (when ?b _) => unfold when
      | |- calm (let _ := _ in _) => cbv zeta
      end ].
Ltac calm_tac := repeat calm_step.
Ltac calm_method := unfold self, assign; calm_tac.

Lemma calm_tick {A} (f : nat -> A) : calm (tick f).
Proof. unfold tick. calm_tac. Qed.
Lemma calm_transport_start `{PeerHost} t : calm (transport_start t).
Proof. unfold transport_start, tick. calm_tac. Qed.
Lemma calm_setTimeout k d : calm (setTimeout k d).
Proof. unfold setTimeout. calm_tac. Qed.
Lemma calm_clearTimeout t : calm (clearTimeout t).
Proof. unfold clearTimeout. calm_tac. Qed.
Lemma calm_newPromise : calm newPromise.
Proof. unfold newPromise. calm_tac. Qed.
Lemma calm_settle p s : calm (settle p s).
Proof. unfold settle. calm_tac. Qed.
Lemma calm_close_transport t : calm (close_transport t).
Proof. unfold close_transport. calm_tac. Qed.
Lemma calm_emitRoute r : calm (emitRoute r).
Proof. unfold emitRoute. calm_tac. Qed.
Lemma calm_emitHandoverRoute t : calm (emitHandoverRoute t).
Proof. unfold emitHandoverRoute. calm_tac. Qed.
Lemma calm_set_handover t f : calm (set_handover t f).
Proof. unfold set_handover. calm_tac. Qed.
#[export] Hint Resolve calm_tick calm_transport_start calm_setTimeout calm_clearTimeout calm_newPromise calm_settle calm_close_transport
  calm_emitRoute calm_emitHandoverRoute calm_set_handover : calm.
Lemma calm_rejected m : calm (rejected m).
Proof. unfold rejected. calm_tac. Qed.
Lemma calm_clearReconnect : calm clearReconnect.
Proof. unfold clearReconnect. calm_method. Qed.
Lemma calm_clearFailback : calm clearDirectFailbackTimer.
Proof. unfold clearDirectFailbackTimer. calm_method. Qed.
Lemma calm_scheduleReconnect : calm scheduleReconnect.
Proof. unfold scheduleReconnect. calm_method. Qed.
#[export] Hint Resolve calm_rejected calm_clearReconnect calm_clearFailback calm_scheduleReconnect : calm.
Lemma calm_scheduleDirectFailback : calm scheduleDirectFailback.
Proof. unfold scheduleDirectFailback. calm_method. Qed.
Lemma calm_reject_all l err : calm (reject_all l err).
Proof. induction l; cbn [reject_all]; calm_tac. Qed.
#[export] Hint Resolve calm_scheduleDirectFailback calm_reject_all : calm.
Lemma calm_rejectPending : calm rejectPending.
Proof. unfold rejectPending, rejectPendingFSRequests, rejectPendingSessionCreates, rejectPendingServiceOpens. calm_method. Qed.
Lemma calm_start_probe k g : calm (start_probe k g).
Proof. unfold start_probe. calm_tac. Qed.
#[export] Hint Resolve calm_rejectPending calm_start_probe : calm.
Lemma calm_recover g err : calm (recover g err).
Proof. unfold recover. calm_method. Qed.
#[export] Hint Resolve calm_recover : calm.
(** Giving up a transport or a handover: in between the connection would seem
    free to send. *)
Definition unready (w : PeerWorld) : Prop := ready (this w) = false.

Lemma unready_kept w w' : no_freer w w' -> unready w -> unready w'.
Proof. intros Hf Hw. unfold unready in *. destruct (ready (this w')) eqn:E; [|done]. destruct (Hf E). congruence. Qed.

Lemma calm_unready {A} (m : M A) : calm m -> keeps unready m.
Proof. intros Hm w. apply unready_kept, Hm. Qed.

(** The trace only grows. *)
Definition grows {A} (m : M A) : Prop := forall w, trace w `prefix_of` trace (fst (m w)).

Lemma calm_cut {A} (m : M A) :
  preserves io m -> grows m -> (forall w, fst (m w) = w \/ unready (fst (m w))) -> calm m.
Proof.
  intros Hi Hg Hm w. split; [apply Hi|]. split; [|apply Hg].
  destruct (Hm w) as [->|Hu]; [apply no_freer_refl|]. unfold unready, no_freer in *. congruence.
Qed.

Lemma grows_bind {A B} (m : M A) (k : A -> M B) : grows m -> (forall a, grows (k a)) -> grows (bind m k).
Proof.
  intros Hm Hk w. specialize (Hm w). unfold bind. destruct (m w) as [w' [a|e]]; [|exact Hm].
  etrans; [exact Hm|apply Hk].
Qed.

Lemma grows_modify f : (forall w, trace (f w) = trace w) -> grows (modify f).
Proof. intros Hf w. cbn. by rewrite Hf. Qed.

Lemma calm_grows {A} (m : M A) : calm m -> grows m.
Proof. intros Hm w. apply Hm. Qed.

Ltac grows_tac :=
  repeat first
    [ solve [apply calm_grows; auto with calm]
    | solve [apply calm_grows, calm_emit; exact I]
    | solve [apply grows_modify; intros ?; reflexivity]
    | match goal with
      | |- grows (bind _ _) => apply grows_bind; [|intros ?]
      | |- grows (if ?b then _ else _) => destruct b
      | |- grows (match ?x with _ => _ end) => destruct x
      | |- grows (let _ := _ in _) => cbv zeta
      end ].

Lemma recover_unready g err w :
  detached (this w) = false -> suspended (this w) = false -> wp (recover g err) (fun _ w' => unready w') w.
Proof.
  intros Hd Hs. unfold recover. apply wp_self. rewrite Hd, Hs. cbn -[assign].
  apply wp_quiet; [auto with quiet|]. intros _ w1 _. apply wp_quiet; [auto with quiet|]. intros _ w2 _.
  apply wp_assign. match goal with |- wp ?m _ ?w3 => assert (Hm : calm m) by calm_method; by apply (calm_unready m Hm w3) end.
Qed.

(** A step of the part that is followed by [recover] or [scheduleReconnect]. *)
Ltac io_tac :=
  repeat first
    [ solve [auto with preserves]
    | solve [apply calm_io; auto with calm]
    | solve [apply preserves_modify; intros ?; reflexivity]
    | match goal with
      | |- preserves _ (bind _ _) => apply preserves_bind; [|intros ?]
      | |- preserves _ (if ?b then _ else _) => destruct b
      | |- preserves _ (match ?x with _ => _ end) => destruct x
      | |- preserves _ (when ?b _) => unfold when
      | |- preserves _ (let _ := _ in _) => cbv zeta
      | |- preserves _ (emit _) => apply calm_io, calm_emit; exact I
      end ].

Lemma current_unready g t err w : isCurrent g t (this w) = true -> wp (fail g t err) (fun _ w' => unready w') w.
Proof.
  intros Hc. unfold fail. apply wp_self. rewrite Hc. cbn [negb].
  unfold isCurrent in Hc. rewrite !andb_true_iff, !negb_true_iff in Hc. destruct Hc as [[_ Hd] Hs].
  apply wp_assign, wp_close. intros w1 H1. apply wp_gets. case_bool_decide; [done|]. apply recover_unready.
  - change (v_detached (view w1) = false). by rewrite H1.
  - change (v_suspended (view w1) = false). by rewrite H1.
Qed.

Lemma calm_fail g t err : calm (fail g t err).
Proof.
  apply calm_cut; [unfold fail, self, assign; io_tac|unfold fail, self, assign; grows_tac|]. intros w.
  destruct (isCurrent g t (this w)) eqn:Ec; [right; by apply current_unready|left].
  unfold fail, self, bind, gets. cbn. by rewrite Ec.
Qed.

Lemma handover_running t w : isHandoverCurrent t w = true -> detached (this w) = false /\ suspended (this w) = false.
Proof.
  unfold isHandoverCurrent, isCurrent. destruct (handover_of t w) as [h|]; [|done].
  destruct (h_promoted h); rewrite !andb_true_iff, !negb_true_iff; tauto.
Qed.

Lemma calm_failHandover t err : calm (failHandover t err).
Proof.
  apply calm_cut; [unfold failHandover, self, assign; io_tac|unfold failHandover, self, assign; grows_tac|]. intros w.
  destruct (isHandoverCurrent t w) eqn:Ec; [|by left; unfold failHandover; cbn; rewrite Ec].
  destruct (match handover_of t w with Some h => h_promoted h | None => false end) eqn:Ep; [by left; unfold failHandover; cbn; rewrite Ec, Ep|].
  right. apply handover_running in Ec as Hrun. destruct Hrun as [Hd Hs]. change (wp (failHandover t err) (fun _ w' => unready w') w).
  unfold failHandover. apply wp_gets. rewrite Ec, Ep. cbn [negb orb].
  apply wp_assign, wp_close. intros w1 H1. apply wp_self, wp_assign, wp_close. intros w2 H2. apply wp_assign.
  assert (Hd1 : v_detached (view w1) = false) by (by rewrite H1). assert (Hs1 : v_suspended (view w1) = false) by (by rewrite H1).
  assert (Hd2 : v_detached (view w2) = false) by (by rewrite H2). assert (Hs2 : v_suspended (view w2) = false) by (by rewrite H2).
  by apply recover_unready.
Qed.

Lemma calm_cancelHandover t : calm (cancelHandover t).
Proof.
  apply calm_cut; [unfold cancelHandover, self, assign; io_tac|unfold cancelHandover, self, assign; grows_tac|]. intros w.
  destruct (isHandoverCurrent t w) eqn:Ec; [|by left; unfold cancelHandover; cbn; rewrite Ec].
  destruct (match handover_of t w with Some h => h_promoted h | None => false end) eqn:Ep; [by left; unfold cancelHandover; cbn; rewrite Ec, Ep|].
  right. change (wp (cancelHandover t) (fun _ w' => unready w') w). unfold cancelHandover. apply wp_gets. rewrite Ec, Ep. cbn [negb orb].
  apply wp_assign, wp_close. intros w1 H1. apply wp_self, wp_assign, wp_close. intros w2 H2. apply wp_assign.
  match goal with |- wp ?m _ ?w3 => assert (Hm : calm m) by calm_tac; by apply (calm_unready m Hm w3) end.
Qed.
Lemma calm_closeTransport : calm closeTransport.
Proof.
  apply calm_cut; [unfold closeTransport, self, assign; io_tac|unfold closeTransport, self, assign; grows_tac|]. intros w. right.
  change (wp closeTransport (fun _ w' => unready w') w). eapply wp_mono; [apply wp_closeTransport|].
  intros o w' [_ Hv]. change (v_ready (view w') = false). by rewrite Hv.
Qed.
#[export] Hint Resolve calm_fail calm_failHandover calm_cancelHandover calm_closeTransport : calm.
Lemma calm_on_failure t err : calm (on_failure t err).
Proof. unfold on_failure. calm_method. Qed.
Lemma calm_detach : calm detach.
Proof. unfold detach. calm_method. Qed.
Lemma calm_suspend : calm suspend.
Proof. unfold suspend. calm_method. Qed.
Lemma calm_failback_failed : calm failback_failed.
Proof. unfold failback_failed. calm_method. Qed.
#[export] Hint Resolve calm_on_failure calm_detach calm_suspend calm_failback_failed : calm.

Section Session.
Context `{JsText} `{PeerHost}.

(** A frame that is not input. *)
Lemma calm_transport_send t frame : input_of frame = None -> calm (transport_send t frame).
Proof.
  intros Hf. assert (calm (emit (SendFrame t frame))).
  { apply calm_modify; [|by intros w Hr|intros w; by eexists]. intros w. unfold io, shown_seqs, inputs_sent. cbn. rewrite !omap_app. cbn. rewrite Hf. by rewrite !app_nil_r. }
  unfold transport_send. calm_tac.
Qed.

(** The type byte of an encoded frame. *)
Lemma set_range_before buf src off b i : set_range buf src off = Ok b -> 0 <= i < off -> idx b i = idx buf i.
Proof.
  unfold set_range. intros E Hi. inv_ok. pose proof (zlen_nonneg src). apply Z.ltb_ge in Hg.
  unfold idx. rewrite (proj2 (Z.ltb_ge i 0)) by lia. unfold zlen in *.
  rewrite lookup_app_l; unfold slice.
  - rewrite lookup_take_lt by lia. by rewrite lookup_drop.
  - rewrite length_take, length_drop. lia.
Qed.

Lemma encodeFrame_type ty sid p f : encodeFrame ty sid p = Ok f -> idx f 1 = Some (ty mod 256).
Proof.
  unfold encodeFrame, setUint. set (buf := zeros _). intros E. inv_ok.
  rewrite (set_range_before _ _ _ _ 1 E), (set_range_before _ _ _ _ 1 E1), (set_range_before _ _ _ _ 1 E0) by (unfold HEADER_LEN, SID_LEN; lia).
  unfold idx, set_idx. cbn. rewrite list_lookup_insert_eq; [done|]. rewrite length_insert. unfold buf, zeros.
  rewrite length_replicate. unfold HEADER_LEN, SID_LEN.
  match goal with |- context [zlen ?l] => pose proof (zlen_nonneg l) end. lia.
Qed.

(** A frame of another type is encoded and given to [k]. *)
Lemma frame_of_state ty p w :
  fst (frame_of ty p w) = w /\ (forall f, snd (frame_of ty p w) = Done f -> ty mod 256 <> TYPE.IN -> input_of f = None).
Proof.
  split; [done|]. intros f E Hty. unfold frame_of, bind, self, gets, answer, of_result in E. cbn in E.
  destruct (encodeFrame ty (sidBytes (this w)) (Some p)) as [f'|] eqn:Ef; [|done]. injection E as ->.
  apply encodeFrame_type in Ef. unfold input_of. rewrite Ef, bool_decide_eq_false_2; [done|]. congruence.
Qed.

Lemma calm_control {A} ty p (k : bytes -> M A) :
  ty mod 256 <> TYPE.IN -> (forall frame, input_of frame = None -> calm (k frame)) -> calm (bind (frame_of ty p) k).
Proof.
  intros Hty Hk w. destruct (frame_of_state ty p w) as [Hw Hf]. unfold bind. destruct (frame_of ty p w) as [w' [f|e]]; cbn in Hw, Hf; subst w'; [|done].
  apply Hk. by apply Hf.
Qed.

Lemma calm_control_settled {A} ty p (k : outcome bytes -> M A) :
  ty mod 256 <> TYPE.IN -> (forall frame, input_of frame = None -> calm (k (Done frame))) -> (forall e, calm (k (Raise e))) ->
  calm (bind (settled (frame_of ty p)) k).
Proof.
  intros Hty Hk He w. destruct (frame_of_state ty p w) as [Hw Hf]. unfold bind, settled.
  destruct (frame_of ty p w) as [w' [f|e]]; cbn in Hw, Hf |- *; subst w'; [|apply He]. apply Hk. by apply Hf.
Qed.

Lemma calm_frame_of ty p : calm (frame_of ty p).
Proof. unfold frame_of. calm_method. Qed.
#[local] Hint Resolve calm_frame_of : calm.
Lemma calm_resize_frame c r : calm (resize_frame c r).
Proof. unfold resize_frame. calm_method. Qed.
#[local] Hint Resolve calm_resize_frame : calm.
Lemma calm_newUniqueFSRequestID n : calm (newUniqueFSRequestID n).
Proof. induction n; cbn [newUniqueFSRequestID]; calm_method. Qed.
#[local] Hint Resolve calm_newUniqueFSRequestID : calm.

Lemma calm_send frame : input_of frame = None -> calm (send frame).
Proof. intros Hf. unfold send. pose proof (fun t => calm_transport_send t frame Hf). calm_method. Qed.

Lemma calm_try_send g t ty p failure : ty mod 256 <> TYPE.IN -> calm (try_send g t ty p failure).
Proof.
  intros Hty. unfold try_send, self. apply calm_bind; [auto with calm|intros c]. destruct (_ || _); [auto with calm|].
  apply calm_control_settled; [done| |auto with calm]. intros frame Hf. pose proof (calm_transport_send t frame Hf). calm_tac.
Qed.

Lemma type_not_input ty : ty ∈ [TYPE.FS_REQUEST; TYPE.SERVICE_OPEN; TYPE.SESSION_CREATE; TYPE.PASTE_IMAGE; TYPE.PASTE_FILE;
  TYPE.CLAIM_DRIVER; TYPE.RESIZE; TYPE.SERVICE_CLOSE] -> ty mod 256 <> TYPE.IN.
Proof. intros Hty. repeat (apply elem_of_cons in Hty as [->|Hty]; [done|]). by apply elem_of_nil in Hty. Qed.
#[local] Hint Extern 1 (calm (try_send _ _ _ _ _)) => apply calm_try_send, type_not_input; set_solver : calm.

Lemma calm_sendFSRequest request ms : calm (sendFSRequest request ms).
Proof. unfold sendFSRequest. calm_method. Qed.
Lemma calm_openService port host ms : calm (openService port host ms).
Proof. unfold openService. calm_method. Qed.
Lemma calm_createSession h p ms : calm (createSessionWithProfile h p ms).
Proof. unfold createSessionWithProfile. calm_method. Qed.
Lemma calm_claimDriver : calm claimDriver.
Proof.
  unfold claimDriver, self. apply calm_bind; [auto with calm|intros c]. apply calm_control; [apply type_not_input; set_solver|].
  intros frame Hf. pose proof (calm_send frame Hf). calm_method.
Qed.
Lemma calm_closeService s : calm (closeService s).
Proof.
  unfold closeService. destruct (negb _); [auto with calm|]. apply calm_control; [apply type_not_input; set_solver|].
  intros frame Hf. pose proof (calm_send frame Hf). calm_method.
Qed.
Lemma calm_resize {A} cols rows (k : bytes -> M A) :
  (forall frame, input_of frame = None -> calm (k frame)) -> calm (bind (resize_frame cols rows) k).
Proof.
  intros Hk. assert (Hr : calm (let! size := answer (of_result (encodeResize cols rows)) in bind (frame_of TYPE.RESIZE size) k)).
  { apply calm_bind; [auto with calm|]. intros size. apply calm_control; [apply type_not_input; set_solver|done]. }
  intros w. specialize (Hr w). unfold resize_frame, bind in *. cbn in *. by destruct (of_result _).
Qed.
Lemma calm_sendResize cols rows : calm (sendResize cols rows).
Proof.
  unfold sendResize. apply calm_resize. intros frame Hf. pose proof (calm_send frame Hf). calm_method.
Qed.
#[local] Hint Resolve calm_sendFSRequest calm_openService calm_createSession
  calm_sendResize calm_claimDriver calm_closeService : calm.

Lemma calm_startDirectHandover g : calm (startDirectHandover g).
Proof. unfold startDirectHandover. calm_method. Qed.
(** A start leaves the connection unready from its first statement on. *)
Lemma unready_bind {A B} (m : M A) (k : A -> M B) :
  keeps unready m -> (forall a, keeps unready (k a)) -> keeps unready (bind m k).
Proof. apply act_keeps_bind. Qed.

Ltac unready_tac :=
  repeat first
    [ solve [apply calm_unready; auto with calm]
    | solve [apply calm_unready, calm_emit; exact I]
    | solve [intros ? ?; assumption]
    | match goal with
      | |- keeps _ (bind _ _) => apply unready_bind; [|intros ?]
      | |- keeps _ (if ?b then _ else _) => destruct b
      | |- keeps _ (match ?x with _ => _ end) => destruct x
      | |- keeps _ (let _ := _ in _) => cbv zeta
      end ].

Lemma calm_start : calm start.
Proof.
  apply calm_cut; [unfold start, start_threw, self, assign; io_tac|unfold start, start_threw, self, assign; grows_tac|].
  intros w. right. change (wp start (fun _ w' => unready w') w). unfold start. apply wp_gets, wp_assign.
  match goal with |- wp ?m _ ?w1 => assert (Hk : keeps unready m);
    [unfold start_threw, self, assign; unready_tac|by apply Hk] end.
Qed.
#[local] Hint Resolve calm_startDirectHandover calm_start : calm.
Lemma calm_attach : calm attach.
Proof. unfold attach. calm_method. Qed.
Lemma calm_setRoute r : calm (setRoute r).
Proof. unfold setRoute. calm_method. Qed.
Lemma calm_fallback_settled g b : calm (fallback_settled g b).
Proof. unfold fallback_settled. calm_method. Qed.
Lemma calm_probeDirectFailback g : calm (probeDirectFailback g).
Proof. unfold probeDirectFailback. calm_method. Qed.
Lemma calm_failback_settled p g b : calm (failback_settled p g b).
Proof. unfold failback_settled. calm_method. Qed.
#[local] Hint Resolve calm_attach calm_setRoute calm_fallback_settled calm_probeDirectFailback calm_failback_settled : calm.
Lemma calm_probe_settled p b : calm (probe_settled p b).
Proof. unfold probe_settled. calm_method. Qed.
#[local] Hint Resolve calm_probe_settled : calm.
Lemma calm_timer_fired k : calm (timer_fired k).
Proof. unfold timer_fired. calm_method. Qed.
#[local] Hint Resolve calm_timer_fired : calm.

End Session.

#[export] Hint Resolve calm_frame_of calm_resize_frame calm_newUniqueFSRequestID calm_sendFSRequest calm_openService
  calm_createSession calm_sendResize calm_claimDriver calm_closeService calm_startDirectHandover calm_start calm_attach
  calm_setRoute calm_fallback_settled calm_probeDirectFailback calm_failback_settled calm_probe_settled calm_timer_fired : calm.
#[export] Hint Extern 1 (calm (try_send _ _ _ _ _)) => apply calm_try_send, type_not_input; set_solver : calm.
