(* ===== verification/PeerSessionFinal.v ===== *)
(** * A detached peer session connection

    [dead]: detached, holding no transport. No event changes that, and all
    that still happens is that promises are settled. *)

From S2P Require Import Prelude Bytes JsString JsMap Json Proto FsSegments DirectCrypto ConnWire.
From S2P Require Import EventLoop Transport NativeDirect PeerSession.

Definition dead (w : PeerWorld) : Prop :=
  let c := this w in detached c = true /\ transport c = None /\ handover c = None /\ ready c = false.

Definition is_settle (e : Effect) : Prop := match e with Settle _ _ => True | _ => False end.

Section Dead.
Context (w0 : PeerWorld).

Definition only_settles (w : PeerWorld) : Prop :=
  dead w /\ exists l, trace w = trace w0 ++ l /\ Forall is_settle l.

Ltac dead_fields := match goal with H : only_settles _ |- _ => destruct H as ((?Hd & ?Ht & ?Hh & ?Hr) & ?Hl) end.

Lemma dead_modify f : (forall w, trace (f w) = trace w) -> (forall w, dead w -> dead (f w)) -> keeps only_settles (modify f).
Proof. intros Ht Hf w [Hd Hl]. split; [by apply Hf|]. cbn. by rewrite Ht. Qed.

Lemma dead_settle p s : keeps only_settles (settle p s).
Proof.
  intros w [Hd (l & E & Hl)]. split; [done|]. exists (l ++ [Settle p s]). cbn. rewrite E, (assoc_L (++)). split; [done|].
  apply Forall_app. split; [done|]. by apply Forall_singleton.
Qed.

Lemma dead_gets {A} (f : PeerWorld -> A) : keeps only_settles (gets f).
Proof. by intros w Hw. Qed.

Lemma dead_preserved {A} (m : M A) : preserves (fun w => w) m -> keeps only_settles m.
Proof. intros Hm w Hw. by rewrite Hm. Qed.
#[local] Hint Resolve dead_settle dead_gets : act_keeps.

Ltac dead_tac :=
  repeat first
    [ solve [auto with act_keeps]
    | solve [apply dead_preserved; preserves_tac]
    | solve [apply dead_modify; [by intros ?|by intros ? (? & ? & ? & ?)]]
    | match goal with
      | |- keeps _ (bind _ _) => apply act_keeps_bind; [|intros ?]
      | |- keeps _ (catch _ _) => apply keeps_catch; [|intros ?]
      | |- keeps _ (if ?b then _ else _) => destruct b
      | |- keeps _ (match ?x with _ => _ end) => destruct x
      | |- keeps _ (when ?b _) => unfold when
      | |- keeps _ (let _ := _ in _) => cbv zeta
      end ].

(** A method that looks at the state and returns. *)
Lemma dead_look {A B} (f : PeerWorld -> A) (k : A -> M B) :
  (forall w, only_settles w -> only_settles (fst (k (f w) w))) -> keeps only_settles (bind (gets f) k).
Proof. done. Qed.

Lemma isCurrent_dead w g t : dead w -> isCurrent g t (this w) = false.
Proof. intros (Hd & _). unfold isCurrent. by rewrite Hd, !andb_false_r. Qed.

Lemma isHandoverCurrent_dead w t : dead w -> isHandoverCurrent t w = false.
Proof.
  intros Hw. unfold isHandoverCurrent. destruct (handover_of t w) as [h|]; [|done]. destruct (h_promoted h); [by apply isCurrent_dead|].
  destruct Hw as (Hd & _). by rewrite Hd, !andb_false_r.
Qed.

Lemma dead_clearTimeout t : keeps only_settles (clearTimeout t).
Proof. unfold clearTimeout. dead_tac. Qed.
#[local] Hint Resolve dead_clearTimeout : act_keeps.
Lemma dead_newPromise : keeps only_settles newPromise.
Proof. unfold newPromise. dead_tac. Qed.
#[local] Hint Resolve dead_newPromise : act_keeps.
Lemma dead_tick {A} (f : nat -> A) : keeps only_settles (tick f).
Proof. unfold tick. dead_tac. Qed.
#[local] Hint Resolve dead_tick : act_keeps.
Lemma dead_rejected m : keeps only_settles (rejected m).
Proof. unfold rejected. dead_tac. Qed.
Lemma dead_clearReconnect : keeps only_settles clearReconnect.
Proof. unfold clearReconnect, self, assign. dead_tac. Qed.
Lemma dead_clearFailback : keeps only_settles clearDirectFailbackTimer.
Proof. unfold clearDirectFailbackTimer, self, assign. dead_tac. Qed.
Lemma dead_reject_all l err : keeps only_settles (reject_all l err).
Proof. induction l; cbn [reject_all]; dead_tac. Qed.
#[local] Hint Resolve dead_rejected dead_clearReconnect dead_clearFailback dead_reject_all : act_keeps.
Lemma dead_rejectPending : keeps only_settles rejectPending.
Proof.
  unfold rejectPending, rejectPendingFSRequests, rejectPendingSessionCreates, rejectPendingServiceOpens, self, assign. dead_tac.
Qed.
#[local] Hint Resolve dead_rejectPending : act_keeps.

Lemma dead_scheduleReconnect : keeps only_settles scheduleReconnect.
Proof. apply dead_look. intros w Hw. dead_fields. rewrite Hd. by repeat split. Qed.
Lemma dead_recover g err : keeps only_settles (recover g err).
Proof. apply dead_look. intros w Hw. dead_fields. rewrite Hd. by repeat split. Qed.
Lemma dead_fail g t err : keeps only_settles (fail g t err).
Proof. apply dead_look. intros w Hw. rewrite isCurrent_dead by apply Hw. exact Hw. Qed.
Lemma dead_failHandover t err : keeps only_settles (failHandover t err).
Proof. apply dead_look. intros w Hw. rewrite isHandoverCurrent_dead by apply Hw. exact Hw. Qed.
#[local] Hint Resolve dead_scheduleReconnect dead_recover dead_fail dead_failHandover : act_keeps.

Lemma dead_closeTransport : keeps only_settles closeTransport.
Proof.
  unfold closeTransport. apply act_keeps_bind; [auto with act_keeps|intros _]. unfold assign at 1.
  apply act_keeps_bind; [dead_tac|intros _]. apply act_keeps_bind; [auto with act_keeps|intros _].
  apply dead_look. intros w Hw. pose proof Hw as Hw'. dead_fields. cbn. rewrite Hh, Ht. cbn. by repeat split.
Qed.
#[local] Hint Resolve dead_closeTransport : act_keeps.
Lemma dead_detach : keeps only_settles detach.
Proof. unfold detach, assign. dead_tac. Qed.
Lemma dead_suspend : keeps only_settles suspend.
Proof. apply dead_look. intros w Hw. pose proof Hw as Hw'. dead_fields. by rewrite Hd. Qed.
Lemma dead_on_failure t err : keeps only_settles (on_failure t err).
Proof. unfold on_failure. dead_tac. Qed.
#[local] Hint Resolve dead_detach dead_suspend dead_on_failure : act_keeps.

Context `{JsText} `{PeerHost}.

Lemma dead_frame_of ty p : keeps only_settles (frame_of ty p).
Proof. unfold frame_of, self. dead_tac. Qed.
Lemma dead_resize_frame c r : keeps only_settles (resize_frame c r).
Proof. unfold resize_frame, frame_of, self. dead_tac. Qed.
Lemma dead_send frame : keeps only_settles (send frame).
Proof. apply dead_look. intros w Hw. pose proof Hw as Hw'. dead_fields. by rewrite Hr, orb_true_r. Qed.
#[local] Hint Resolve dead_frame_of dead_resize_frame dead_send : act_keeps.

Lemma dead_sendInput v : keeps only_settles (sendInput v).
Proof. unfold sendInput, assign. dead_tac. Qed.
Lemma dead_sendResize c r : keeps only_settles (sendResize c r).
Proof. unfold sendResize, assign. dead_tac. Qed.
Lemma dead_claimDriver : keeps only_settles claimDriver.
Proof. unfold claimDriver, self, assign. dead_tac. Qed.
Lemma dead_closeService s : keeps only_settles (closeService s).
Proof. unfold closeService. dead_tac. Qed.
#[local] Hint Resolve dead_sendInput dead_sendResize dead_claimDriver dead_closeService : act_keeps.

Lemma no_request_route w : dead w -> request_route (this w) = None.
Proof. intros (_ & _ & _ & Hr). unfold request_route. by rewrite Hr. Qed.

Lemma dead_sendFSRequest request ms : keeps only_settles (sendFSRequest request ms).
Proof. apply dead_look. intros w Hw. rewrite no_request_route by apply Hw. by apply dead_rejected. Qed.
Lemma dead_createSession h p ms : keeps only_settles (createSessionWithProfile h p ms).
Proof. apply dead_look. intros w Hw. cbv zeta. rewrite no_request_route by apply Hw. by apply dead_rejected. Qed.
Lemma dead_openService port host ms : keeps only_settles (openService port host ms).
Proof.
  apply dead_look. intros w Hw. rewrite no_request_route by apply Hw. revert Hw. generalize (transport (this w)). intros t Hw.
  revert w Hw. refine (_ : keeps only_settles _). dead_tac.
Qed.
Lemma dead_sendPaste ty fb bt content name : keeps only_settles (sendPaste ty fb bt content name).
Proof. apply dead_look. intros w Hw. rewrite no_request_route by apply Hw. destruct (_ <? _); by apply dead_rejected. Qed.
Lemma dead_paste_settled p s : keeps only_settles (paste_settled p s).
Proof. unfold paste_settled. dead_tac. Qed.
#[local] Hint Resolve dead_sendFSRequest dead_createSession dead_openService dead_sendPaste dead_paste_settled : act_keeps.
Lemma dead_paste_resume p read : keeps only_settles (paste_resume p read).
Proof.
  apply dead_look. intros w Hw. destruct (map_get (pastes w) p) as [pa|]; [|exact Hw].
  destruct read as [_|err]; [|by apply dead_paste_settled]. revert w Hw. refine (_ : keeps only_settles _). apply dead_look.
  intros w Hw. pose proof Hw as Hw'. dead_fields. rewrite Hr. cbn. by apply dead_paste_settled.
Qed.
#[local] Hint Resolve dead_paste_resume : act_keeps.

Lemma dead_callback t cb : keeps only_settles (callback t cb).
Proof.
  apply dead_look. intros w Hw. destruct (transports w !! t) as [x|] eqn:Ex; [|exact Hw]. destruct (t_handover x) as [h|] eqn:Eh.
  - unfold handover_callback. cbn. unfold handover_of. rewrite Ex. cbn. rewrite Eh, isHandoverCurrent_dead by apply Hw. exact Hw.
  - unfold start_callback, self. cbn -[fail]. rewrite isCurrent_dead by apply Hw.
    destruct cb; try exact Hw; by apply dead_fail.
Qed.
#[local] Hint Resolve dead_callback : act_keeps.

Lemma may_failback_dead w g : dead w -> may_failback g (this w) = false.
Proof. intros (_ & _ & _ & Hr). unfold may_failback. by rewrite Hr, !andb_false_r. Qed.

Lemma dead_probeDirectFailback g : keeps only_settles (probeDirectFailback g).
Proof. apply dead_look. intros w Hw. rewrite may_failback_dead by apply Hw. exact Hw. Qed.
Lemma dead_fallback_settled g b : keeps only_settles (fallback_settled g b).
Proof. apply dead_look. intros w Hw. pose proof Hw as Hw'. dead_fields. by rewrite Hd, !orb_true_r. Qed.
#[local] Hint Resolve dead_probeDirectFailback dead_fallback_settled : act_keeps.
Lemma dead_failback_settled p g b : keeps only_settles (failback_settled p g b).
Proof.
  unfold failback_settled, self, assign. apply act_keeps_bind; [auto with act_keeps|intros c].
  apply act_keeps_bind; [dead_tac|intros _]. apply dead_look. intros w Hw. rewrite may_failback_dead by apply Hw. exact Hw.
Qed.
#[local] Hint Resolve dead_failback_settled : act_keeps.
Lemma dead_probe_settled p b : keeps only_settles (probe_settled p b).
Proof. unfold probe_settled. dead_tac. Qed.
#[local] Hint Resolve dead_probe_settled : act_keeps.

Lemma dead_timer_fired k : keeps only_settles (timer_fired k).
Proof.
  destruct k; cbn [timer_fired]; unfold self, assign; try solve [dead_tac].
  apply act_keeps_bind; [dead_tac|intros _]. apply dead_look. intros w Hw. pose proof Hw as Hw'. dead_fields. by rewrite Hd.
Qed.
Lemma dead_attach : keeps only_settles attach.
Proof. apply dead_look. intros w Hw. pose proof Hw as Hw'. dead_fields. by rewrite Hd. Qed.
Lemma dead_setRoute r : keeps only_settles (setRoute r).
Proof. apply dead_look. intros w Hw. pose proof Hw as Hw'. dead_fields. by rewrite Hd. Qed.
#[local] Hint Resolve dead_timer_fired dead_attach dead_setRoute : act_keeps.

(** A callback of a detached connection does not throw. *)
Lemma dead_callback_returns t cb w : dead w -> snd (callback t cb w) = Done tt.
Proof.
  intros Hw. unfold callback. cbn. destruct (transports w !! t) as [x|] eqn:Ex; [|done]. destruct (t_handover x) as [h|] eqn:Eh.
  - unfold handover_callback. cbn. unfold handover_of. rewrite Ex. cbn. by rewrite Eh, isHandoverCurrent_dead.
  - unfold start_callback, self. cbn -[fail]. rewrite isCurrent_dead by done. unfold fail, self.
    destruct cb; try done; cbn; by rewrite isCurrent_dead.
Qed.

Lemma dead_step e w : only_settles w -> only_settles (step e w).
Proof.
  revert w. change (keeps only_settles (dispatch e)).
  destruct e; try solve [unfold dispatch, void, onFSEvent, offFSEvent, assign; dead_tac].
  intros w Hw. cbn [dispatch]. unfold catch. pose proof (dead_callback t cb w Hw) as Hk.
  pose proof (dead_callback_returns t cb w (proj1 Hw)) as Ho. destruct (callback t cb w) as [w' o]. cbn in Ho, Hk |- *. by subst.
Qed.
End Dead.
