(* ===== verification/PeerSessionOutput.v ===== *)
(** * The output a peer session shows

    Only an OUT frame and the end of a replay change the output shown and the
    cursor, and both only forwards. *)

From Stdlib Require Import Sorted.
From S2P Require Import Prelude Bytes JsString JsMap Json Proto FsSegments DirectCrypto ConnWire.
From S2P Require Import EventLoop Transport NativeDirect PeerSession PeerSessionView PeerSessionCalm.

Definition shown (w : PeerWorld) : list Z * Z := (shown_seqs (trace w), lastSeq (this w)).

(** Strictly increasing, and up to the cursor. *)
Definition in_order (w : PeerWorld) : Prop :=
  StronglySorted Z.lt (shown_seqs (trace w)) /\ Forall (fun seq => seq <= lastSeq (this w)) (shown_seqs (trace w)) /\ 0 <= lastSeq (this w).

Lemma calm_shown {A} (m : M A) : calm m -> preserves shown m.
Proof. intros Hm w. destruct (Hm w) as [Hi _]. unfold io, shown in *. congruence. Qed.

Lemma shown_emit e : (match e with OnOutput _ _ => False | _ => True end) -> preserves shown (emit e).
Proof.
  intros He w. unfold shown, shown_seqs. cbn. f_equal. rewrite omap_app. destruct e; try done; cbn; by rewrite app_nil_r.
Qed.

Ltac shown_tac :=
  repeat first
    [ solve [auto with preserves]
    | solve [apply calm_shown; auto with calm]
    | solve [apply shown_emit; exact I]
    | apply preserves_modify; intros ?; reflexivity
    | match goal with
      | |- preserves _ (bind _ _) => apply preserves_bind; [|intros ?]
      | |- preserves _ (if ?b then _ else _) => destruct b
      | |- preserves _ (match ?x with _ => _ end) => destruct x
      | |- preserves _ (when ?b _) => unfold when
      | |- preserves _ (let _ := _ in _) => cbv zeta
      end ].
Ltac shown_method := unfold self, assign; shown_tac.

Section Session.
Context `{JsText} `{PeerHost}.

Lemma shown_transport_send t frame : preserves shown (transport_send t frame).
Proof. unfold transport_send. shown_method. Qed.
#[local] Hint Resolve shown_transport_send : preserves.
Lemma shown_send frame : preserves shown (send frame).
Proof. unfold send. shown_method. Qed.
Lemma shown_try_send g t ty p failure : preserves shown (try_send g t ty p failure).
Proof. unfold try_send, self. shown_tac. Qed.
Lemma shown_flush_inputs n : preserves shown (flush_inputs n).
Proof. induction n; cbn [flush_inputs]; shown_method. Qed.
#[local] Hint Resolve shown_send shown_try_send shown_flush_inputs : preserves.
Lemma shown_flush : preserves shown flush.
Proof. unfold flush. shown_method. Qed.
Lemma shown_sendInput v : preserves shown (sendInput v).
Proof. unfold sendInput. shown_method. Qed.
Lemma shown_sendPaste ty fb bt content name : preserves shown (sendPaste ty fb bt content name).
Proof. unfold sendPaste, newPromise. shown_method. Qed.
Lemma shown_paste_resume p read : preserves shown (paste_resume p read).
Proof. unfold paste_resume, paste_settled. shown_method. Qed.
#[local] Hint Resolve shown_flush shown_sendInput shown_sendPaste shown_paste_resume : preserves.

(** ** What changes it *)

Lemma same_order w w' : shown w' = shown w -> in_order w -> in_order w'.
Proof. unfold shown, in_order. intros [= -> ->]. done. Qed.

Lemma order_preserved {A} (m : M A) : preserves shown m -> keeps in_order m.
Proof. intros Hm. apply (preserves_keeps shown); [done|]. intros w w' E. by apply same_order. Qed.

Ltac order_tac :=
  repeat first
    [ solve [auto with act_keeps]
    | solve [apply order_preserved; shown_tac]
    | match goal with
      | |- keeps _ (bind _ _) => apply act_keeps_bind; [|intros ?]
      | |- keeps _ (catch _ _) => apply keeps_catch; [|intros ?]
      | |- keeps _ (if ?b then _ else _) => destruct b
      | |- keeps _ (match ?x with _ => _ end) => destruct x
      | |- keeps _ (when ?b _) => unfold when
      | |- keeps _ (let _ := _ in _) => cbv zeta
      end ].

(** The cursor moves forwards. *)
Lemma order_forward w w' :
  shown_seqs (trace w') = shown_seqs (trace w) -> lastSeq (this w) <= lastSeq (this w') -> in_order w -> in_order w'.
Proof.
  unfold in_order. intros -> Hle (Hs & Hf & Hz). split_and!; [done| |lia]. eapply Forall_impl; [exact Hf|]. cbn. lia.
Qed.

Lemma order_handleOut payload : keeps in_order (handleOut payload).
Proof.
  unfold handleOut. apply act_keeps_bind; [auto with act_keeps|]. intros [seq data]. unfold self.
  apply act_keeps_gets. intros w (Hs & Hf & Hz). destruct (0 <? seq) eqn:E0; cbn [andb when].
  - destruct (seq <=? lastSeq (this w)) eqn:El; [by split_and!|]. apply Z.ltb_lt in E0. apply Z.leb_gt in El.
    unfold in_order, assign, bind, emit, modify, shown_seqs. cbn. rewrite omap_app. cbn. rewrite (proj2 (Z.ltb_lt 0 seq) E0).
    change (omap _ (trace w)) with (shown_seqs (trace w)). split_and!; [| |lia].
    + apply sorted_snoc; [done|]. eapply Forall_impl; [exact Hf|]. cbn. lia.
    + apply Forall_app. split; [|by apply Forall_singleton]. eapply Forall_impl; [exact Hf|]. cbn. lia.
  - eapply same_order; [|by split_and!]. unfold shown, shown_seqs. cbn. f_equal. rewrite omap_app. cbn. rewrite E0. by rewrite app_nil_r.
Qed.
#[local] Hint Resolve order_handleOut : act_keeps.

Lemma shown_notify l ev : preserves shown (notify_fs_handlers l ev).
Proof. induction l; cbn [notify_fs_handlers]; shown_tac. Qed.
#[local] Hint Resolve shown_notify : preserves.

Lemma order_handleFrame f : keeps in_order (handleFrame f).
Proof.
  unfold handleFrame, handleSessionCreated, handleServiceOpened, handleMeta, handleClose, handleFSResponse, handleFSEvent, self, assign.
  order_tac.
Qed.
#[local] Hint Resolve order_handleFrame : act_keeps.

Lemma order_start_callback g t cb : keeps in_order (start_callback g t cb).
Proof.
  unfold start_callback, self. destruct cb; try solve [unfold assign; order_tac].
  apply act_keeps_gets. intros w Hw. cbv zeta. destruct (_ || _) eqn:E; [apply (order_preserved (fail _ _ _)); [shown_tac|exact Hw]|].
  apply orb_false_iff in E as [_ Hlt%Z.ltb_ge].
  match goal with |- in_order (fst (bind _ (fun _ => ?k) w)) => set (m := k) end.
  assert (Hm : keeps in_order m) by (unfold m, assign; order_tac). apply Hm. eapply order_forward; [| |exact Hw]; [done|]. cbn. lia.
Qed.

Lemma order_promoteHandover t seq w : lastSeq (this w) <= seq -> in_order w -> in_order (fst (promoteHandover t seq w)).
Proof.
  intros Hle Hw. unfold promoteHandover. unfold bind at 1. cbn [gets]. destruct (handover_of t w) as [a|]; [|exact Hw].
  destruct (_ || _); [exact Hw|]. cbv zeta. set (w1 := fst (set_handover t (fun h => h <| h_promoted := true |>) w)).
  match goal with |- in_order (fst (bind _ (fun _ => bind _ (fun _ => ?k)) w)) => set (m := k) end.
  assert (Hm : keeps in_order m) by (unfold m; order_tac). apply Hm. eapply order_forward; [| |exact Hw]; [done|]. cbn. lia.
Qed.

Lemma order_handover_callback t cb : keeps in_order (handover_callback t cb).
Proof.
  unfold handover_callback. destruct cb; try solve [unfold assign; order_tac].
  apply act_keeps_gets. intros w Hw. destruct (handover_of t w) as [a|]; [|exact Hw]. destruct (negb _); [exact Hw|].
  destruct (_ || _) eqn:E; [apply (order_preserved (failHandover _ _)); [shown_tac|exact Hw]|].
  apply orb_false_iff in E as [_ Hlt%Z.ltb_ge]. by apply order_promoteHandover.
Qed.
#[local] Hint Resolve order_start_callback order_handover_callback : act_keeps.

Lemma order_callback t cb : keeps in_order (callback t cb).
Proof. unfold callback. order_tac. Qed.
#[local] Hint Resolve order_callback : act_keeps.

Lemma in_order_step e w : in_order w -> in_order (step e w).
Proof.
  revert w. change (keeps in_order (dispatch e)). destruct e; unfold dispatch, void, onFSEvent, offFSEvent, assign; order_tac.
Qed.

Lemma order_run es w : in_order w -> in_order (run es w).
Proof. revert w. induction es as [|e es IH]; intros w Hw; [done|]. cbn [run fold_left]. apply IH. by apply in_order_step. Qed.
End Session.
