(* ===== verification/PeerSessionInput.v ===== *)
(** * The input a peer session sends

    [queued]: what was sent and what waits, together, is the input given, each
    once; in order, unless a transport took a frame after it had refused one.
    While the connection is free to send, input waits only for a transport that
    has refused a frame. *)

From S2P Require Import Prelude Bytes JsString JsMap Json Proto FsSegments DirectCrypto ConnWire.
From S2P Require Import EventLoop Transport NativeDirect PeerSession PeerSessionView PeerSessionRoute PeerSessionCalm.

(** ** Refusals *)

(** Transport [t] has refused a frame. *)
Definition refused (t : nat) (l : list Effect) : Prop := exists frame, SendRefused t frame ∈ l.

(** A transport that refused a frame took none since: what a closing channel
    does. *)
Definition steadfast (l : list Effect) : Prop :=
  forall t frame l1 l2, l = l1 ++ SendRefused t frame :: l2 -> forall frame', SendFrame t frame' ∉ l2.

Lemma steadfast_prefix l l' : l `prefix_of` l' -> steadfast l' -> steadfast l.
Proof.
  intros [k ->] Hs t f l1 l2 -> f' Hin. apply (Hs t f l1 (l2 ++ k)) with f'; [by rewrite <- (assoc_L (++))|].
  apply elem_of_app. by left.
Qed.

Lemma steadfast_break l t frame : refused t l -> ~ steadfast (l ++ [SendFrame t frame]).
Proof.
  intros [f Hin] Hs. apply list_elem_of_split in Hin as (l1 & l2 & ->).
  apply (Hs t f l1 (l2 ++ [SendFrame t frame])) with frame; [by rewrite <- (assoc_L (++))|].
  apply elem_of_app. right. by left.
Qed.

Lemma refused_prefix t l l' : l `prefix_of` l' -> refused t l -> refused t l'.
Proof. intros [k ->] [f Hf]. exists f. apply elem_of_app. by left. Qed.

(** The transport in use has refused a frame. *)
Definition refusing (w : PeerWorld) : Prop := exists t, transport (this w) = Some t /\ refused t (trace w).

Section Session.
Context `{JsText} `{PeerHost}.

(** Everything but what waits. *)
Record queue (given : list jsstr) (w : PeerWorld) : Prop := {
  qu_routed : routed w;
  qu_sid : zlen (sidBytes (this w)) = SID_LEN;
  qu_pastes p x : (p, x) ∈ pastes w -> pa_type x = TYPE.PASTE_IMAGE \/ pa_type x = TYPE.PASTE_FILE;
  qu_once : inputs_sent (trace w) ++ map encodeText (pendingInputs (this w)) ≡ₚ map encodeText given;
  qu_inputs : steadfast (trace w) ->
    inputs_sent (trace w) ++ map encodeText (pendingInputs (this w)) = map encodeText given;
}.

Definition queued (given : list jsstr) (w : PeerWorld) : Prop :=
  queue given w /\ (sends (this w) -> pendingInputs (this w) = [] \/ refusing w).

(** The part of [io] that input depends on. *)
Definition input_io (w : PeerWorld) : list bytes * list jsstr * bytes * list (nat * Paste) :=
  (inputs_sent (trace w), pendingInputs (this w), sidBytes (this w), pastes w).

Lemma calm_input {A} (m : M A) w : calm m -> input_io (fst (m w)) = input_io w.
Proof. intros Hm. destruct (Hm w) as [Hi _]. unfold io, input_io in *. congruence. Qed.

Lemma queue_same given w w' :
  input_io w' = input_io w -> trace w `prefix_of` trace w' -> routed w' -> queue given w -> queue given w'.
Proof.
  unfold input_io. intros [= Hi Hp Hb Ht] Hg Hr []. split; rewrite ?Hi, ?Hp, ?Hb, ?Ht; try done.
  intros Hs. apply qu_inputs0. by eapply steadfast_prefix.
Qed.

Lemma queue_io given w w' : io w' = io w -> trace w `prefix_of` trace w' -> routed w' -> queue given w -> queue given w'.
Proof. unfold io. intros E. apply queue_same. unfold input_io. congruence. Qed.

Lemma queue_unready given w : queue given w -> unready w -> queued given w.
Proof. intros Hq Hu. split; [done|]. intros [Hr _]. unfold unready in Hu. congruence. Qed.

Lemma queued_calm {A} given (m : M A) : calm m -> keeps routed m -> keeps (queued given) m.
Proof.
  intros Hm Hr w [Hq Hs]. destruct (Hm w) as (Hi & Hy & Hg). split.
  - eapply queue_io; [exact Hi|exact Hg|apply Hr, Hq|done].
  - intros [H1 H2]. destruct (Hy H1) as (H1' & Ht & H2'). destruct (Hs (conj H1' (H2' H2))) as [Hn|(t & Hu & Hf)].
    + left. unfold io in Hi. congruence.
    + right. exists t. split; [congruence|]. by eapply refused_prefix.
Qed.

(** ** Sending *)

(** A failure that is reported does not throw. *)
Definition returns {A} (m : M A) : Prop := forall w, exists a, snd (m w) = Done a.

Lemma returns_bind {A B} (m : M A) (k : A -> M B) : returns m -> (forall a, returns (k a)) -> returns (bind m k).
Proof. intros Hm Hk w. unfold bind. destruct (Hm w) as [a Ha]. destruct (m w) as [w' o]. cbn in Ha. subst. apply Hk. Qed.

Lemma returns_quiet {A} (m : M A) : quiet m -> returns m.
Proof. intros Hm w. apply (Hm w). Qed.

Lemma returns_modify f : returns (modify f).
Proof. intros w. by exists tt. Qed.

Ltac returns_tac :=
  repeat first
    [ solve [apply returns_modify]
    | solve [apply returns_quiet; quiet_tac]
    | match goal with
      | |- returns (bind _ _) => apply returns_bind; [|intros ?]
      | |- returns (if ?b then _ else _) => destruct b
      | |- returns (match ?x with _ => _ end) => destruct x
      | |- returns (let _ := _ in _) => cbv zeta
      end ].

Lemma returns_close_transport t : returns (close_transport t).
Proof. unfold close_transport, emit. returns_tac. Qed.

Lemma returns_recover g err : returns (recover g err).
Proof. unfold recover, scheduleReconnect, start_probe, self, assign. returns_tac. Qed.

Lemma returns_on_failure t err : returns (on_failure t err).
Proof.
  pose proof returns_recover. pose proof returns_close_transport.
  unfold on_failure, fail, failHandover, self, assign. repeat first [solve [auto] | progress returns_tac].
Qed.

Lemma on_failure_unready w t err :
  routed w -> transport (this w) = Some t -> wp (on_failure t err) (fun _ w' => unready w') w.
Proof.
  intros [Hok _ _] Ht. destruct (rt_use _ Hok t Ht) as ((b & Hm & Hn) & _ & [Hd Hs] & _). rewrite made_at in Hm.
  assert (Hc : isCurrent (generation_of t w) t (this w) = true).
  { unfold isCurrent, generation_of, made_of in *. destruct (transports w !! t); [|done]. cbn in Hm, Hd, Hs. injection Hm as -> _.
    by rewrite Z.eqb_refl, Ht, bool_decide_eq_true_2, Hd, Hs. }
  pose proof (current_unready _ _ err _ Hc) as Hf.
  unfold on_failure. apply wp_gets. unfold handover_of, isHandoverCurrent, handover_of, made_of in *.
  destruct (transports w !! t) as [[g [h|]]|]; cbn in Hm |- *; [|done..]. injection Hm as -> <-.
  destruct (h_promoted h); [|done]. by rewrite Hc.
Qed.

(** The transport in use takes a frame, or nothing is sent and the connection
    is no longer ready or its transport has refused a frame. *)
Definition held_up (w w' : PeerWorld) : Prop :=
  io w' = io w /\ trace w `prefix_of` trace w' /\ routed w' /\ (unready w' \/ refusing w').

Lemma wp_transport_send w t frame :
  routed w -> transport (this w) = Some t ->
  wp (transport_send t frame)
    (fun o w' => (o = Done true /\ this w' = this w /\ pastes w' = pastes w /\ trace w' = trace w ++ [SendFrame t frame] /\ routed w') \/
                 (o = Done false /\ held_up w w')) w.
Proof.
  intros Hw Ht. unfold transport_send. unfold tick. apply wp_bind, wp_gets, wp_modify, wp_ret. cbn beta iota.
  set (w1 := w <| ticks := _ |>). assert (Hw1 : routed w1) by exact Hw.
  destruct (send_outcome (ticks w)) as [| |err] eqn:Eo; [..|].
  - left. split_and!; try done. apply quiet_keeps_inv; [quiet_tac|exact Hw1].
  - right. split; [done|]. assert (Hc : calm (emit (SendRefused t frame))) by (by apply calm_emit).
    destruct (Hc w1) as (Hi & _ & Hg). split; [exact Hi|]. split; [exact Hg|].
    split; [by apply (quiet_keeps_inv (emit (SendRefused t frame))); [quiet_tac|]|]. right. exists t.
    split; [exact Ht|]. exists frame. apply elem_of_app. right. by left.
  - right. apply wp_bind. pose proof (on_failure_unready w1 t err Hw1 Ht) as Hu. pose proof (routed_on_failure t err w1 Hw1) as Hr.
    destruct (calm_on_failure t err w1) as (Hi & _ & Hg). destruct (returns_on_failure t err w1) as [[] Ho]. unfold wp in *.
    destruct (on_failure t err w1) as [w2 o]. cbn in *. subst o. split; [done|]. split_and!; [done|done|done|by left].
Qed.

Lemma queued_held_up given w w' : queue given w -> held_up w w' -> queued given w'.
Proof.
  intros Hq (Hi & Hg & Hr & Hu). assert (Hq' : queue given w') by (by eapply queue_io).
  destruct Hu as [Hu|Hu]; [by apply queue_unready|]. split; [done|]. by right.
Qed.

(** One more input is sent. *)
Lemma queue_sent given w w' t frame p rest :
  queue given w -> pastes w' = pastes w -> trace w' = trace w ++ [SendFrame t frame] -> routed w' ->
  sidBytes (this w') = sidBytes (this w) -> pendingInputs (this w) = p :: rest -> input_of frame = Some (encodeText p) ->
  pendingInputs (this w') = rest -> queue given w'.
Proof.
  intros [_ Hs Hpa Hon Hin] Hp Htr Hr Hsid Ep Hf Erest.
  assert (E : inputs_sent (trace w') ++ map encodeText (pendingInputs (this w')) =
              inputs_sent (trace w) ++ map encodeText (pendingInputs (this w))).
  { rewrite Htr, Ep, Erest. unfold inputs_sent. rewrite omap_app. cbn [omap list_omap input_sent]. rewrite Hf. cbn.
    by rewrite <- (assoc_L (++)). }
  split; [exact Hr|by rewrite Hsid|by rewrite Hp|by rewrite E|]. intros Hst. rewrite E. apply Hin.
  eapply steadfast_prefix; [|exact Hst]. rewrite Htr. by eexists.
Qed.

Lemma frame_of_ok ty p w : zlen (sidBytes (this w)) = SID_LEN -> frame_of ty p w = (w, Done (frame_bytes ty (sidBytes (this w)) p)).
Proof. intros Hs. unfold frame_of, bind, self, gets, answer. cbn. by rewrite encodeFrame_layout. Qed.

Lemma input_of_frame sid p : zlen sid = SID_LEN -> input_of (frame_bytes TYPE.IN sid p) = Some p.
Proof.
  intros Hs. unfold input_of. change (idx _ 1) with (Some (TYPE.IN mod 256)). rewrite bool_decide_eq_true_2 by done. f_equal.
  unfold frame_bytes. rewrite (app_assoc _ (be_bytes 4 _)), app_assoc. rewrite slice_from_app; [done|].
  unfold SID_LEN, HEADER_LEN in *. autorewrite with zlen. cbn. lia.
Qed.

Lemma input_of_other ty sid p : ty mod 256 <> TYPE.IN -> input_of (frame_bytes ty sid p) = None.
Proof. intros Hty. unfold input_of. change (idx _ 1) with (Some (ty mod 256)). rewrite bool_decide_eq_false_2; [done|congruence]. Qed.

(** A stage of [flush] goes on, or nothing can be sent any more. *)
Definition stage (given : list jsstr) (t : nat) (o : outcome bool) (w : PeerWorld) : Prop :=
  (o = Done true /\ queue given w /\ transport (this w) = Some t) \/ (o <> Done true /\ queued given w).

Lemma wp_stage given w t m frame f :
  queue given w -> transport (this w) = Some t -> m w = (w, Done frame) -> input_of frame = None ->
  (forall w, queue given w -> queue given (w <| this := f (this w) |>)) -> (forall c, transport (f c) = transport c) ->
  wp (let! frame := m in let! ok := transport_send t frame in let! _ := when ok (assign f) in ret ok) (stage given t) w.
Proof.
  intros Hq Ht Hm Hf Hfq Hft. apply wp_bind. unfold wp at 1. rewrite Hm. cbn [fst snd].
  apply wp_bind. eapply wp_mono; [apply wp_transport_send; [apply Hq|done]|]. cbv beta.
  intros o w' [(-> & Hth & Hp & Htr & Hr)|(-> & Hu)].
  - left. split; [done|]. split; [|cbn; by rewrite Hft, Hth]. apply Hfq.
    apply (queue_same given w); [|rewrite Htr; by eexists|done|done]. unfold input_io, inputs_sent.
    rewrite Hth, Hp, Htr, omap_app. cbn. by rewrite Hf, app_nil_r.
  - right. split; [done|]. by eapply queued_held_up.
Qed.

Lemma wp_flush_inputs given n : forall w,
  queue given w -> length (pendingInputs (this w)) = n -> transport (this w) <> None ->
  wp (flush_inputs n) (fun _ w' => queued given w') w.
Proof.
  induction n as [|n IH]; intros w Hq Hn Ht; cbn [flush_inputs].
  { apply wp_ret. split; [done|]. intros _. left. by apply length_zero_iff_nil. }
  apply wp_self. destruct (pendingInputs (this w)) as [|v rest] eqn:Ep; [done|]. destruct (transport (this w)) as [t|] eqn:Et; [|done].
  apply wp_bind. unfold wp at 1. rewrite frame_of_ok by apply Hq. cbn [fst snd].
  apply wp_bind. eapply wp_mono; [apply wp_transport_send; [apply Hq|done]|]. cbv beta.
  intros o w1 [(-> & Hth & Hp & Htr & Hr)|(-> & Hu)].
  - cbn [negb]. apply wp_assign. apply IH.
    + eapply (queue_sent given w); [done|exact Hp|exact Htr|exact Hr|by cbn; rewrite Hth|exact Ep|by apply input_of_frame, Hq|].
      cbn. by rewrite Hth, Ep.
    + cbn. rewrite Hth, Ep. by injection Hn.
    + cbn. rewrite Hth. congruence.
  - cbn [negb]. apply wp_ret. by eapply queued_held_up.
Qed.

Lemma encodeResize_ok cols rows : exists b, encodeResize cols rows = Ok b.
Proof. unfold encodeResize, setUint, set_range. eexists. done. Qed.

Lemma wp_flush given w : queue given w -> ready (this w) = true -> wp flush (fun _ w' => queued given w') w.
Proof.
  intros Hq Hr. unfold flush. apply wp_self. destruct (transport (this w)) as [t|] eqn:Et.
  2: { destruct (or_ready _ (qu_routed _ _ Hq)); [exact Hr|exact Et]. }
  rewrite Hr. cbn [negb].
  apply wp_bind. eapply (wp_mono _ (stage given t)).
  { destruct (pendingDriverClaim (this w)); [|by left]. eapply wp_stage; [done|done|by apply frame_of_ok, Hq| | |done].
    - by apply input_of_other.
    - intros w1 []. by split. }
  intros o w1 [(-> & Hq1 & Ht1)|[Ho Hq1]]; [|by destruct o as [[]|e]]. cbn [negb].
  apply wp_bind. eapply (wp_mono _ (stage given t)).
  { destruct (pendingResize (this w)) as [[cols rows]|]; [|by left]. destruct (encodeResize_ok cols rows) as [size Hs].
    eapply wp_stage; [done|done| | | |done].
    - unfold resize_frame, bind, answer. rewrite Hs. cbn. by apply frame_of_ok, Hq1.
    - by apply input_of_other.
    - intros w2 []. by split. }
  intros o w2 [(-> & Hq2 & Ht2)|[Ho Hq2]]; [|by destruct o as [[]|e]]. cbn [negb].
  apply wp_self, wp_flush_inputs; [done|done|congruence].
Qed.

(** ** Events *)

(** The input [v] is added at the end of the queue. *)
Lemma queued_wait given v w :
  queue given w -> (sends (this w) -> refusing w) ->
  queued (given ++ [v]) (w <| this := (this w) <| pendingInputs := pendingInputs (this w) ++ [v] |> |>).
Proof.
  intros [] Hn. split; [|intros Hs; right; by apply Hn]. split; try done; [|intros Hs].
  - change (inputs_sent (trace w) ++ map encodeText (pendingInputs (this w) ++ [v]) ≡ₚ map encodeText (given ++ [v])).
    by rewrite !map_app, (assoc_L (++)), qu_once0.
  - change (inputs_sent (trace w) ++ map encodeText (pendingInputs (this w) ++ [v]) = map encodeText (given ++ [v])).
    by rewrite !map_app, (assoc_L (++)), qu_inputs0.
Qed.

(** It is sent at once, past the input that a transport has refused. *)
Lemma queued_sent_now given v w w' t frame :
  queued given w -> sends (this w) -> transport (this w) = Some t -> this w' = this w -> pastes w' = pastes w ->
  trace w' = trace w ++ [SendFrame t frame] -> routed w' -> input_of frame = Some (encodeText v) ->
  queued (given ++ [v]) w'.
Proof.
  intros [[_ Hsid Hpa Hon Hin] Hn] Hsends Ht Hth Hp Htr Hr Hf. specialize (Hn Hsends).
  assert (E : inputs_sent (trace w') = inputs_sent (trace w) ++ [encodeText v]).
  { rewrite Htr. unfold inputs_sent. rewrite omap_app. cbn [omap list_omap input_sent]. by rewrite Hf. }
  split.
  - split; rewrite ?Hth, ?Hp, ?E; [exact Hr|exact Hsid|exact Hpa| |].
    + rewrite map_app, <- Hon, <- (assoc_L (++)), (comm (++) [_]), (assoc_L (++)). done.
    + rewrite Htr. intros Hs. destruct Hn as [Hn|(t' & Ht' & Href)].
      * rewrite Hn in Hin |- *. cbn [map] in Hin |- *. rewrite app_nil_r in Hin |- *. rewrite map_app, <- Hin; [done|].
        eapply steadfast_prefix; [|exact Hs]. by eexists.
      * replace t' with t in Href by congruence. by apply (steadfast_break _ t frame) in Href.
  - rewrite Hth. intros _. destruct Hn as [Hn|(t' & Ht' & Href)]; [by left|]. right. exists t'. rewrite Hth. split; [done|].
    eapply refused_prefix; [|exact Href]. rewrite Htr. by eexists.
Qed.

Lemma queued_sendInput given v w : queued given w -> queued (given ++ [v]) (fst (sendInput v w)).
Proof.
  intros Hqd. pose proof Hqd as [Hq Hs]. change (wp (sendInput v) (fun _ w' => queued (given ++ [v]) w') w). unfold sendInput.
  apply wp_bind. unfold wp at 1. rewrite frame_of_ok by apply Hq. cbn [fst snd].
  apply wp_bind. unfold send. apply wp_self. destruct (bool_decide (handover (this w) <> None) || negb (ready (this w))) eqn:E.
  { apply wp_ret. cbn [negb when]. apply queued_wait; [done|]. intros [Hr Hh]. rewrite Hr, Hh in E. done. }
  apply orb_false_iff in E as [Hh%bool_decide_eq_false_1 Hr%negb_false_iff]. apply dec_stable in Hh.
  destruct (transport (this w)) as [t|] eqn:Et.
  2: { destruct (or_ready _ (qu_routed _ _ Hq)); [exact Hr|exact Et]. }
  eapply wp_mono; [apply wp_transport_send; [apply Hq|done]|]. cbv beta.
  intros o w1 [(-> & Hth & Hp & Htr & Hr1)|(-> & Hu)].
  - apply wp_ret. eapply queued_sent_now; [exact Hqd|by split|exact Et|done..|]. by apply input_of_frame, Hq.
  - pose proof (queued_held_up _ _ _ Hq Hu) as [Hq1 _]. apply queued_wait; [done|]. intros [Hy _].
    destruct Hu as (_ & _ & _ & [Hu|Hu]); [|done]. unfold unready in Hu. congruence.
Qed.

Lemma queued_same given w w' :
  input_io w' = input_io w -> no_freer w w' -> trace w `prefix_of` trace w' -> routed w' -> queued given w -> queued given w'.
Proof.
  intros Hi Hf Hg Hr [Hq Hn]. split; [by eapply queue_same|]. intros [H1 H2]. destruct (Hf H1) as (H1' & Ht & H2').
  destruct (Hn (conj H1' (H2' H2))) as [He|(t & Hu & Hx)]; [left; unfold input_io in Hi; congruence|].
  right. exists t. split; [congruence|by eapply refused_prefix].
Qed.

Lemma queued_quiet {A} given (m : M A) : quiet m -> calm m -> keeps (queued given) m.
Proof. intros Hm Hc. apply queued_calm; [done|by apply quiet_keeps_inv]. Qed.

Lemma queued_silent {A} given (m : M A) : preserves view m -> calm m -> keeps (queued given) m.
Proof. intros Hm Hc. apply queued_calm; [done|by apply silent_keeps]. Qed.

Lemma queued_handleOut given payload : keeps (queued given) (handleOut payload).
Proof.
  unfold handleOut. apply act_keeps_bind; [apply keeps_answer|]. intros [seq data]. apply act_keeps_bind; [by intros w Hw|]. intros last.
  destruct (_ && _); [apply act_keeps_ret|]. intros w Hw. assert (Hr : routed w) by apply Hw. destruct (0 <? seq); cbn [when].
  - eapply queued_same; [| | | |exact Hw]; [|done|by eexists|exact (quiet_keeps_inv _ (quiet_emitting (OnOutput seq data) I) _ Hr)].
    unfold input_io, inputs_sent. cbn. by rewrite omap_app, app_nil_r.
  - eapply queued_same; [| | | |exact Hw]; [|done|by eexists|exact (quiet_keeps_inv _ (quiet_emitting (OnOutput seq data) I) _ Hr)].
    unfold input_io, inputs_sent. cbn. by rewrite omap_app, app_nil_r.
Qed.

Lemma calm_notify l ev : calm (notify_fs_handlers l ev).
Proof. induction l; cbn [notify_fs_handlers]; calm_tac. Qed.
#[local] Hint Resolve calm_notify : calm.

Ltac still := solve [apply queued_silent; [unfold self; preserves_tac|calm_method]].

Lemma queued_handleFrame given f : keeps (queued given) (handleFrame f).
Proof.
  assert (Hfr : keeps routed (handleFrame f)) by apply routed_handleFrame.
  destruct (decide (f_type f = TYPE.OUT)) as [Ho|Ho].
  - unfold handleFrame. rewrite Ho. cbn [Z.eqb TYPE.OUT TYPE.SESSION_CREATED TYPE.SERVICE_OPENED Pos.eqb].
    apply act_keeps_bind; [by intros w Hw|]. intros sid. destruct (negb _); [apply keeps_raise|]. apply queued_handleOut.
  - apply queued_calm; [|exact Hfr]. unfold handleFrame. apply Z.eqb_neq in Ho. rewrite Ho.
    unfold handleSessionCreated, handleServiceOpened, handleMeta, handleClose, handleFSResponse, handleFSEvent. calm_method.
Qed.

(** Nothing that input depends on has changed. *)
Definition no_input (w w' : PeerWorld) : Prop := input_io w' = input_io w /\ trace w `prefix_of` trace w'.

Lemma no_input_trans w1 w2 w3 : no_input w1 w2 -> no_input w2 w3 -> no_input w1 w3.
Proof. intros [I1 T1] [I2 T2]. split; [congruence|by etrans]. Qed.

Lemma no_input_calm {A} (m : M A) w : calm m -> no_input w (fst (m w)).
Proof. intros Hm. split; [by apply calm_input|apply Hm]. Qed.

Lemma queue_no_input given w w' : no_input w w' -> routed w' -> queue given w -> queue given w'.
Proof. intros []. by apply queue_same. Qed.

Lemma wp_both {A B} (m : M A) (k : A -> M B) Q w :
  quiet m -> calm m -> (forall a w', view w' = view w -> no_input w w' -> wp (k a) Q w') -> wp (bind m k) Q w.
Proof.
  intros Hm Hc Hk. apply wp_bind. unfold wp at 1. destruct (Hm w) as (Hv & a & Ho). rewrite Ho. apply Hk; [done|by apply no_input_calm].
Qed.

Lemma queued_start_callback given g t cb : keeps (queued given) (start_callback g t cb).
Proof.
  intros w Hw. destruct cb as [|frame|seq|d|err].
  - apply (queued_calm given (start_callback g t CbAuthenticated)); [|apply routed_start_callback|done].
    unfold start_callback. calm_method.
  - change (queued given (fst (start_callback g t (CbFrame frame) w))). unfold start_callback, self. cbn -[decodeFrame].
    destruct (isCurrent g t (this w)); [|exact Hw]. cbn [negb]. unfold bind, answer. destruct (of_result (decodeFrame frame)); [|exact Hw].
    by apply queued_handleFrame.
  - change (wp (start_callback g t (CbReady seq)) (fun _ w' => queued given w') w). unfold start_callback. apply wp_self. cbv zeta.
    destruct (_ || _) eqn:E; [by apply (queued_calm given (fail g t _)); [auto with calm|apply routed_fail|]|].
    apply orb_false_iff in E as [[Hc%negb_false_iff _]%orb_false_iff _]. apply isCurrent_view in Hc as (_ & Ht & _).
    apply wp_assign. match goal with |- wp _ _ ?w1 => set (w0 := w1) end.
    assert (Hq0 : queue given w0).
    { apply (queue_same given w); [done|done| |apply Hw]. apply (made_ready (view w)); [apply Hw|congruence]. }
    assert (Hy0 : v_ready (view w0) = true) by done. clearbody w0.
    apply wp_both; [quiet_tac|calm_tac|]. intros _ w1 V1 I1. apply wp_self.
    apply wp_both; [auto with quiet|auto with calm|]. intros _ w2 V2 I2. rewrite V1 in V2.
    assert (Hq2 : queue given w2).
    { apply (queue_no_input given w0); [by eapply no_input_trans| |exact Hq0]. unfold routed. rewrite V2. apply Hq0. }
    assert (Hy2 : ready (this w2) = true) by (change (v_ready (view w2) = true); by rewrite V2).
    apply wp_bind. eapply wp_mono; [by apply wp_flush|]. cbv beta. intros o w3 H3. destruct o; [|done].
    apply wp_self. unfold wp, when. destruct (is_route _ _); [|done].
    apply (queued_quiet given scheduleDirectFailback); auto with quiet calm.
  - apply (queued_calm given (start_callback g t (CbDiagnostics d))); [|apply routed_start_callback|done].
    unfold start_callback. calm_method.
  - apply (queued_calm given (start_callback g t (CbFailure err))); [|apply routed_start_callback|done].
    unfold start_callback. calm_method.
Qed.

Lemma queued_promoteHandover given t seq : keeps (queued given) (promoteHandover t seq).
Proof.
  intros w Hw. change (wp (promoteHandover t seq) (fun _ w' => queued given w') w). unfold promoteHandover. apply wp_gets.
  destruct (handover_of t w) as [a|] eqn:Ea; [|done].
  destruct (isHandoverCurrent t w) eqn:Ec; [|done]. destruct (h_promoted a) eqn:Ep; [done|]. cbn [negb orb].
  apply handing_over_at in Ec as (Ht & Hg & Hr); [|by rewrite Ea].
  eapply wp_promote; [apply Ht|]. intros w1 V1 Hth Htr Hpa. apply wp_assign. set (w2 := w1 <| this := _ |>).
  assert (I2 : no_input w w2) by (unfold no_input, input_io, w2; cbn; by rewrite Hth, Htr, Hpa).
  assert (V2 : view w2 = (view w1) <| v_handover := None |> <| v_transport := Some t |> <| v_ready := true |>) by done.
  rewrite V1 in V2. clearbody w2.
  apply wp_both; [quiet_tac|calm_tac|]. intros _ w3 V3 I3. apply wp_both; [auto with quiet|auto with calm|]. intros _ w4 V4 I4.
  apply wp_bind. unfold wp at 1. destruct (close_transport_view (transport (this w)) w4) as [V5 ->].
  pose proof (no_input_calm (close_transport (transport (this w))) w4 (calm_close_transport _)) as I5.
  set (w5 := fst (close_transport (transport (this w)) w4)) in *. clearbody w5. apply wp_flush.
  - apply (queue_no_input given w); [by do 3 (eapply no_input_trans; [eassumption|])| |apply Hw]. unfold routed. rewrite V5, V4, V3, V2.
    exact (handover_promoted _ _ (qu_routed _ _ (proj1 Hw)) Ht).
  - change (v_ready (view w5) = true). by rewrite V5, V4, V3, V2.
Qed.

Lemma queued_handover_callback given t cb : keeps (queued given) (handover_callback t cb).
Proof.
  destruct cb as [|frame|seq|d|err];
    try (apply queued_calm; [unfold handover_callback; calm_method|apply routed_handover_callback]; fail).
  - unfold handover_callback. apply act_keeps_gets. intros w Hw. destruct (handover_of t w); [|exact Hw]. destruct (negb _); [exact Hw|].
    unfold bind, answer. destruct (of_result (decodeFrame frame)); [|exact Hw]. by apply queued_handleFrame.
  - unfold handover_callback. apply act_keeps_gets. intros w Hw. destruct (handover_of t w); [|exact Hw]. destruct (negb _); [exact Hw|].
    destruct (_ || _); [|by apply queued_promoteHandover].
    by apply (queued_calm given (failHandover t _)); [auto with calm|apply routed_failHandover|].
Qed.

Lemma queued_callback given t cb : keeps (queued given) (callback t cb).
Proof.
  unfold callback. apply act_keeps_gets. intros w Hw. destruct (transports w !! t) as [x|]; [|exact Hw].
  destruct (t_handover x); [by apply queued_handover_callback|by apply queued_start_callback].
Qed.

Lemma queued_sendPaste given ty fb bt content name :
  ty = TYPE.PASTE_IMAGE \/ ty = TYPE.PASTE_FILE -> keeps (queued given) (sendPaste ty fb bt content name).
Proof.
  intros Hty. unfold sendPaste. apply act_keeps_gets. intros w Hw.
  destruct (_ <? _); [by apply (queued_quiet given (rejected _)); [auto with quiet|auto with calm|]|].
  destruct (request_route (this w)) as [t|]; [|by apply (queued_quiet given (rejected _)); [auto with quiet|auto with calm|]].
  destruct Hw as [[Hr Hs Hp Hon Hi] Hn]. split; [|exact Hn]. split; [exact Hr|exact Hs| |exact Hon|exact Hi].
  intros p x. cbn. intros [Hin|[= -> ->]%list_elem_of_singleton]%elem_of_app; [eauto|exact Hty].
Qed.

Lemma queued_paste_settled given p s : keeps (queued given) (paste_settled p s).
Proof.
  unfold paste_settled. apply act_keeps_bind; [|intros ?; apply queued_quiet; [auto with quiet|auto with calm]].
  intros w [[Hr Hs Hp Hon Hi] Hn]. split; [|exact Hn]. split; [exact Hr|exact Hs| |exact Hon|exact Hi].
  cbn. intros q x Hin. apply (Hp q). revert Hin. clear. induction (pastes w) as [|[r y] l IH]; [done|]. cbn.
  case_bool_decide; [by right|]. intros [E|Hin]%elem_of_cons; [rewrite E; by left|right; auto].
Qed.

Lemma queued_paste_resume given p read : keeps (queued given) (paste_resume p read).
Proof.
  unfold paste_resume. apply act_keeps_gets. intros w Hw. destruct (map_get (pastes w) p) as [pa|] eqn:Ep; [|exact Hw].
  destruct read as [_|err]; [|by apply queued_paste_settled].
  assert (Hty : pa_type pa mod 256 <> TYPE.IN).
  { apply map_get_in in Ep. destruct (qu_pastes _ _ (proj1 Hw) _ _ Ep) as [-> | ->]; done. }
  revert w Hw Ep. intros w Hw _. revert w Hw. refine (_ : keeps (queued given) _). apply act_keeps_bind; [by intros w Hw|]. intros c.
  apply act_keeps_bind; [|intros failure; apply queued_paste_settled]. destruct (negb (ready c)); [apply act_keeps_ret|].
  apply queued_calm; [by apply calm_try_send|apply routed_try_send].
Qed.

(** An event other than a call of [sendInput]. *)
Lemma queued_step given e w :
  (forall v, e <> EvSendInput v) -> timer_held w -> queued given w -> queued given (step e w).
Proof.
  intros He Hh Hw. assert (Hr : routed (step e w)) by (apply routed_step; [done|apply Hw]).
  assert (Hc : calm (dispatch e) -> queued given (step e w)).
  { intros Hc. destruct (Hc w) as (Hi & Hy & Hg). by apply (queued_same given w); [apply calm_input|..]. }
  destruct e; try solve [apply Hc; unfold dispatch, void, onFSEvent, offFSEvent; calm_method].
  - by destruct (He value).
  - apply (act_keeps_bind (queued given)); [|intros ?; apply act_keeps_ret|done]. apply queued_sendPaste. by left.
  - apply (act_keeps_bind (queued given)); [|intros ?; apply act_keeps_ret|done]. apply queued_sendPaste. by right.
  - by apply queued_paste_resume.
  - apply (keeps_catch (queued given)); [apply queued_callback| |done]. intros err. apply queued_quiet; [quiet_tac|calm_tac].
Qed.
End Session.
