(* ===== verification/PeerSessionProps.v ===== *)
(** * What the peer session connection guarantees

    For every sequence of events from a new connection: calls of the user
    interface, callbacks of any transport, timers, probes and reads that
    finish, in any order. *)

From Stdlib Require Import Sorted.
From S2P Require Import Prelude Bytes JsString JsMap Json JsonText Proto FsSegments DirectCrypto ConnWire.
From S2P Require Import EventLoop Transport NativeDirect PeerSession PeerSessionView PeerSessionRoute PeerSessionBooks.
From S2P Require Import PeerSessionTurns PeerSessionCalm PeerSessionOutput PeerSessionInput PeerSessionFinal PeerSessionToy.

Section Props.
Context `{JsText} `{PeerHost}.

(** ** The two invariants together *)

Definition good (w : PeerWorld) : Prop := books (ledger w) /\ route_inv (view w).

Lemma books_timer_held w : books (ledger w) -> timer_held w.
Proof. intros Hb t Ht Hn. apply map_get_in, (bk_reconnect _ Hb) in Ht. cbn in Ht. congruence. Qed.

Lemma good_step e w : good w -> good (step e w).
Proof.
  intros [Hb Hr]. split; [by apply (turn_step e w)|]. apply routed_step; [by apply books_timer_held|done].
Qed.

Lemma good_run es w : good w -> good (run es w).
Proof.
  revert w. induction es as [|e es IH]; intros w Hw; [done|]. cbn [run fold_left]. apply IH. by apply good_step.
Qed.

Lemma good_init sid client name fb bk cd r c :
  new_peer_connection sid client name fb bk cd r = Ok c -> good (init c).
Proof.
  unfold new_peer_connection. destruct (uuidParse sid) as [b|]; [|done]. intros [= <-]. split.
  - by apply books_init.
  - split; [split|..]; unfold view, init, running, not_waiting, handing_over; cbn; try done.
    + apply NoDup_nil_2.
    + by intros p pr ?%elem_of_nil.
    + by intros t ?%elem_of_nil.
    + intros t Ht. lia.
Qed.

(** The transport was made and is not closed. *)
Definition is_open (w : PeerWorld) (t : nat) : Prop := (t < length (transports w))%nat /\ CloseTransport t ∉ trace w.

Lemma closes_in t l : t ∈ closes l <-> CloseTransport t ∈ l.
Proof.
  unfold closes. rewrite list_elem_of_omap. split.
  - intros ([] & Hin & E); try done. by injection E as ->.
  - intros Hin. by exists (CloseTransport t).
Qed.

Lemma throws_in t l : t ∈ throws l -> exists err, StartRaised t err ∈ l.
Proof. unfold throws. rewrite list_elem_of_omap. intros ([] & Hin & E); try done. injection E as ->. eauto. Qed.

Lemma open_view w t g b : v_made (view w) !! t = Some (g, b) -> t ∉ v_closed (view w) -> is_open w t.
Proof.
  intros Hm Hc. split; [|by rewrite <- closes_in]. apply lookup_lt_Some in Hm. cbn in Hm. by rewrite length_map in Hm.
Qed.

(** C12. One way at a time: the transport in use is open, was made by the last
    start or handover of the current generation, and is never beside a
    reconnect timer or a fallback probe; a handover is open and another
    transport; a detached or suspended connection holds nothing at all. Every
    transport ever made is in use, is the handover, is closed, or is one whose
    own [start] threw: that one is dropped without a [close]. *)
Theorem peer_one_way sid client name fb bk cd r c es :
  new_peer_connection sid client name fb bk cd r = Ok c ->
  let w := run es (init c) in
  (forall t, transport (this w) = Some t ->
     is_open w t /\ generation_of t w = generation (this w) /\ detached (this w) = false /\ suspended (this w) = false /\
     reconnectTimer (this w) = None /\ fallbackPending (this w) = false /\ handover (this w) <> Some t) /\
  (forall t, handover (this w) = Some t -> is_open w t) /\
  (reconnectTimer (this w) <> None -> fallbackPending (this w) = false) /\
  (detached (this w) = true \/ suspended (this w) = true ->
     transport (this w) = None /\ handover (this w) = None /\ reconnectTimer (this w) = None /\
     fallbackPending (this w) = false /\ ready (this w) = false) /\
  (forall t, is_open w t ->
     transport (this w) = Some t \/ handover (this w) = Some t \/ exists err, StartRaised t err ∈ trace w).
Proof.
  intros Hc w.
  destruct (good_run es (init c) (good_init _ _ _ _ _ _ _ _ Hc)) as [Hb [Hok Hy Hl]]. fold w in Hb, Hok, Hy, Hl.
  split_and!.
  - intros t Ht. destruct (rt_use _ Hok t Ht) as ((b & Hm & Hn) & Hx & [Hd Hs] & [Hr Hf]).
    split; [by eapply open_view|]. split; [|split_and!; try done].
    + rewrite made_at in Hm. unfold generation_of, made_of in *. destruct (transports w !! t); [|done]. cbn in Hm. by injection Hm as -> _.
    + intros Hh. destruct (rt_handover _ Hok t Hh) as (g & Hg & _). congruence.
  - intros t Ht. destruct (rt_handover _ Hok t Ht) as (g & Hg & Hx & _). by eapply open_view.
  - exact (rt_one_wait _ Hok).
  - intros Hs. assert (Hn : ~ running (view w)) by (intros [Hd Hu]; cbn in Hd, Hu; destruct Hs; congruence).
    destruct (rt_stopped _ Hok Hn) as [Hr Hf]. assert (Ht : transport (this w) = None).
    { destruct (transport (this w)) as [t|] eqn:E; [|done]. by destruct (rt_use _ Hok t E) as (_ & _ & ? & _). }
    split_and!; [done| |done|done|].
    + destruct (handover (this w)) as [t|] eqn:E; [|done]. by destruct (rt_handover _ Hok t E) as (? & _ & _ & ?).
    + destruct (ready (this w)) eqn:E; [by destruct (Hy E)|done].
  - intros t [Hlt Ho]. destruct (rt_held _ Hok t) as [Hx|[Hx|[Hx|Hx]]]; [by cbn; rewrite length_map| |by left|by right; left|].
    + by apply closes_in in Hx.
    + right. right. by apply throws_in.
Qed.

(** C13. Never stranded: a connection that was started and is neither detached
    nor suspended has an open transport in use, or an open handover of the
    current generation, or a reconnect timer that runs, or a fallback whose
    probe is pending with its timer running. *)
Theorem peer_never_stranded sid client name fb bk cd r c es :
  new_peer_connection sid client name fb bk cd r = Ok c ->
  let w := run es (init c) in
  0 < generation (this w) -> detached (this w) = false -> suspended (this w) = false ->
  (exists t, transport (this w) = Some t /\ is_open w t) \/
  (exists t, handover (this w) = Some t /\ is_open w t /\ generation_of t w = generation (this w)) \/
  (exists t, reconnectTimer (this w) = Some t /\ (t, ReconnectTimer) ∈ timers w) \/
  (fallbackPending (this w) = true /\ exists p pr, (p, pr) ∈ probes w /\ pr_kind pr = FallbackProbe /\
     pr_generation pr = generation (this w) /\ (pr_timer pr, ProbeTimer p) ∈ timers w).
Proof.
  intros Hc w Hg Hd Hs.
  destruct (good_run es (init c) (good_init _ _ _ _ _ _ _ _ Hc)) as [Hb [Hok Hy Hl]]. fold w in Hb, Hok, Hy, Hl.
  destruct (Hl Hg) as [Ht|[Hr|[Hf|[t [Hh Hm]]]]]; [by split|..].
  - left. cbn in Ht. destruct (transport (this w)) as [t|] eqn:E; [|done]. exists t. split; [done|].
    destruct (rt_use _ Hok t E) as ((b & Hm & _) & Hx & _). by eapply open_view.
  - right. right. left. cbn in Hr. destruct (reconnectTimer (this w)) as [t|] eqn:E; [|done]. exists t. split; [done|].
    by apply (bk_reconnect _ Hb).
  - right. right. right. split; [done|]. destruct (rt_fallback _ Hok Hf) as (p & pr & Hp & Hk & Hpg). exists p, pr.
    split_and!; [done|done|done|]. by apply (bk_probes _ Hb).
  - right. left. exists t. split; [done|]. destruct (rt_handover _ Hok t Hh) as (g & Hg' & Hx & _). split; [by eapply open_view|].
    rewrite made_at in Hm. unfold generation_of, made_of in *. destruct (transports w !! t); [|done]. cbn in Hm. by injection Hm as -> _.
Qed.

(** C16. No promise is lost: the promises handed out are exactly those settled,
    those whose timeout runs and those whose blob is being read, each once; and
    a pending request always has its timeout running. *)
Theorem peer_promises_settled_once sid client name fb bk cd r c es :
  new_peer_connection sid client name fb bk cd r = Ok c ->
  let w := run es (init c) in
  settlements (trace w) ++ waiting (timers w) ++ map_keys (pastes w) ≡ₚ seq 0 (nextPromise w) /\
  (forall id q, (id, q) ∈ pendingFSRequests (this w) -> (p_timer q, FSRequestTimer id (p_promise q)) ∈ timers w) /\
  (forall id q, (id, q) ∈ pendingSessionCreates (this w) -> (p_timer q, SessionCreateTimer id (p_promise q)) ∈ timers w) /\
  (forall id q, (id, q) ∈ pendingServiceOpens (this w) ->
     (p_timer (ps_pending q), ServiceOpenTimer id (p_promise (ps_pending q))) ∈ timers w) /\
  (forall t, reconnectTimer (this w) = Some t <-> (t, ReconnectTimer) ∈ timers w).
Proof.
  intros Hc w.
  destruct (good_run es (init c) (good_init _ _ _ _ _ _ _ _ Hc)) as [Hb _]. fold w in Hb.
  split_and!; [exact (bk_promises _ Hb)|exact (bk_fs _ Hb)|exact (bk_creates _ Hb)|exact (bk_services _ Hb)|exact (bk_reconnect _ Hb)].
Qed.

(** C14. Output exactly once: whatever the routes do, the numbered output shown
    has strictly increasing sequence numbers, and the cursor from which the
    next transport resumes is at least the last of them. *)
Theorem peer_output_exactly_once sid client name fb bk cd r c es :
  new_peer_connection sid client name fb bk cd r = Ok c ->
  let w := run es (init c) in
  StronglySorted Z.lt (shown_seqs (trace w)) /\ Forall (fun seq => 0 < seq <= lastSeq (this w)) (shown_seqs (trace w)).
Proof.
  intros Hc w. assert (Hi : in_order (init c)).
  { unfold new_peer_connection in Hc. destruct (uuidParse sid) as [b|]; [|done]. injection Hc as <-. by repeat constructor. }
  destruct (order_run es _ Hi) as (Hs & Hf & _). fold w in Hs, Hf. split; [done|].
  apply Forall_forall. intros seq Hin. split; [|by eapply Forall_forall in Hf].
  unfold shown_seqs in Hin. apply list_elem_of_omap in Hin as (e & _ & E). destruct e as [| | | | | |seq' data| | | | | | | |]; try done.
  destruct (0 <? seq') eqn:E0; [|done]. injection E as <-. by apply Z.ltb_lt.
Qed.

(** The values given to [sendInput], in order. *)
Definition inputs_given (es : list Event) : list jsstr :=
  omap (fun e => match e with EvSendInput v => Some v | _ => None end) es.

Lemma zlen_uuidParse_loop n : forall i hex out, zlen (uuidParse_loop n i hex out) = zlen out.
Proof.
  induction n as [|n IH]; intros i hex out; [done|]. cbn [uuidParse_loop]. rewrite IH. unfold zlen, set_idx. by rewrite length_insert.
Qed.

Lemma queued_run es : forall given w,
  books (ledger w) -> queued given w -> queued (given ++ inputs_given es) (run es w).
Proof.
  induction es as [|e es IH]; intros given w Hb Hq; [by rewrite app_nil_r|]. cbn [run fold_left].
  assert (Hb' : books (ledger (step e w))) by (by apply (turn_step e w)).
  assert (Hq' : queued (given ++ inputs_given [e]) (step e w)).
  { assert (Hs : (exists v, e = EvSendInput v) \/ (inputs_given [e] = [] /\ forall v, e <> EvSendInput v)).
    { destruct e; try (right; by split). left. eauto. }
    destruct Hs as [[v ->]|[-> Hn]]; [by apply queued_sendInput|]. rewrite app_nil_r.
    apply queued_step; [done|by apply books_timer_held|done]. }
  specialize (IH _ _ Hb' Hq'). rewrite <- (assoc_L (++)) in IH. by unfold inputs_given in *; rewrite <- omap_app in IH.
Qed.

(** C15. Input is neither lost nor doubled: the payloads of the IN frames sent
    and the input that waits are, each once, the input given; and in the order
    given, the sent before the waiting, unless a transport took a frame after
    it had refused one ([steadfast]). While the connection is ready and no
    handover is under way, input waits only when the transport in use has
    refused a frame. *)
Theorem peer_input_in_order sid client name fb bk cd r c es :
  new_peer_connection sid client name fb bk cd r = Ok c ->
  let w := run es (init c) in
  inputs_sent (trace w) ++ map encodeText (pendingInputs (this w)) ≡ₚ map encodeText (inputs_given es) /\
  (steadfast (trace w) ->
   inputs_sent (trace w) ++ map encodeText (pendingInputs (this w)) = map encodeText (inputs_given es)) /\
  (ready (this w) = true -> handover (this w) = None ->
   pendingInputs (this w) = [] \/ exists t, transport (this w) = Some t /\ refused t (trace w)).
Proof.
  intros Hc w. destruct (good_init _ _ _ _ _ _ _ _ Hc) as [Hb Hi].
  assert (Hq : queued [] (init c)).
  { unfold new_peer_connection in Hc. destruct (uuidParse sid) as [b|] eqn:Eb; [|done]. injection Hc as <-.
    split; [|by left]. split; [exact Hi| |by intros p x ?%elem_of_nil|done|done]. cbn.
    unfold uuidParse in Eb. inv_ok. by rewrite zlen_uuidParse_loop. }
  destruct (queued_run es [] (init c) Hb Hq) as [Hw Hn]. fold w in Hw, Hn.
  split; [apply Hw|]. split; [apply Hw|]. intros H1 H2. apply Hn. by split.
Qed.

(** Detached for good: once the connection is detached, by a call or by the
    end of the session, it holds no transport and no timer of its own, and
    whatever happens next all it still does is settle promises. *)
Theorem peer_detach_final sid client name fb bk cd r c es1 es2 :
  new_peer_connection sid client name fb bk cd r = Ok c ->
  let w := run es1 (init c) in let w' := run es2 w in
  detached (this w) = true ->
  detached (this w') = true /\ transport (this w') = None /\ handover (this w') = None /\
  exists l, trace w' = trace w ++ l /\ Forall is_settle l.
Proof.
  intros Hc w w' Hd.
  destruct (good_run es1 (init c) (good_init _ _ _ _ _ _ _ _ Hc)) as [_ [Hok Hy Hl]]. fold w in Hok, Hy.
  assert (Ht : transport (this w) = None).
  { destruct (transport (this w)) as [t|] eqn:E; [|done]. destruct (rt_use _ Hok t E) as (_ & _ & [Hx _] & _). cbn in Hx. congruence. }
  assert (Hh : handover (this w) = None).
  { destruct (handover (this w)) as [t|] eqn:E; [|done]. destruct (rt_handover _ Hok t E) as (? & _ & _ & [Hx _]). cbn in Hx. congruence. }
  assert (Hr : ready (this w) = false) by (destruct (ready (this w)) eqn:E; [by destruct (Hy E)|done]).
  assert (Hrun : forall es w1, only_settles w w1 -> only_settles w (run es w1)).
  { induction es as [|e es IH]; intros w1 H1; [done|]. apply IH. by apply dead_step. }
  destruct (Hrun es2 w) as [(H1 & H2 & H3 & _) Hs]; [|done]. split; [by repeat split|]. exists []. by rewrite app_nil_r.
Qed.
End Props.


(** ** The properties on concrete events *)

Import PeerScene.

(** Two ways in which a handover or a failback is lost. A connection whose
    tunnel failed while a handover was under way, and which was then attached
    again, keeps the old handover: its new transport is open and ready, yet the
    input given waits for ever, whatever the old transport does. And a failback
    probe that ends after the tunnel reconnected leaves no failback timer, so
    that the direct route is not tried again. *)
Theorem peer_failback_lost :
  (let w := run (handover_events ++ EvCallback 0 (CbFailure (js "gone")) :: EvAttach :: opened 2 5 ++
      [EvSendInput (js "a"); EvCallback 1 CbAuthenticated; EvCallback 1 (CbReady 5); EvCallback 1 (CbFailure (js "late"));
       EvAttach; EvSendInput (js "b")]) (init (conn RouteQuickTunnel)) in
   transport (this w) = Some 2%nat /\ ready (this w) = true /\ handover (this w) = Some 1%nat /\
   generation_of 1 w < generation (this w) /\ timers w = [] /\ probes w = [] /\
   pendingInputs (this w) = [js "a"; js "b"] /\ inputs_sent (trace w) = []) /\
  (let w := run (EvAttach :: opened 0 0 ++ [EvTimer 0; EvCallback 0 (CbFailure (js "gone")); EvTimer 2] ++ opened 1 0 ++
      [EvProbe 0 true]) (init (conn RouteQuickTunnel)) in
   transport (this w) = Some 1%nat /\ ready (this w) = true /\ route (this w) = RouteQuickTunnel /\ handover (this w) = None /\
   failbackTimer (this w) = None /\ timers w = [] /\ probes w = []).
Proof. vm_compute. split_and!; reflexivity. Qed.

(** Refused input waits, while the connection is ready, until a later transport
    takes it; when the transport takes the second input after it refused the
    first, the order is not that of the input given. *)
Lemma peer_refused_input :
  let es := EvAttach :: opened 0 0 ++ [EvSendInput (js "x"); EvSendInput (js "y")] in
  let es' := es ++ [EvCallback 0 (CbFailure (js "gone")); EvProbe 0 false; EvTimer 1] ++ opened 1 0 in
  let w := @run _ (refusing_host [3; 4]%nat) es (init (conn RouteDirect)) in
  let w' := @run _ (refusing_host [3; 4]%nat) es' (init (conn RouteDirect)) in
  let v := @run _ (refusing_host [3]%nat) es (init (conn RouteDirect)) in
  let v' := @run _ (refusing_host [3]%nat) es' (init (conn RouteDirect)) in
  (ready (this w) = true /\ pendingInputs (this w) = [js "x"; js "y"] /\ inputs_sent (trace w) = []) /\
  (pendingInputs (this w') = [] /\ inputs_sent (trace w') = [js "x"; js "y"]) /\
  (pendingInputs (this v) = [js "x"] /\ inputs_sent (trace v) = [js "y"]) /\
  (pendingInputs (this v') = [] /\ inputs_sent (trace v') = [js "y"; js "x"]).
Proof. vm_compute. split_and!; reflexivity. Qed.

(** A handover to the direct route, with input given meanwhile. *)
Definition session_events : list Event :=
  handover_events ++ [EvSendInput (js "x"); EvCallback 0 (CbFrame (out 7 [105]))] ++ opened 1 7 ++
  [EvCallback 1 (CbFrame (out 7 [105])); EvCallback 1 (CbFrame (out 8 [106])); EvSendInput (js "y");
   EvSendFSRequest [] 1000; EvCallback 1 (CbFailure (js "lost"))].

Lemma conn_made : new_peer_connection sid_text (js "client-1") (js "me") true true None (Some RouteQuickTunnel) = Ok (conn RouteQuickTunnel).
Proof. vm_compute. reflexivity. Qed.

#[local] Notation scene es := (run es (init (conn RouteQuickTunnel))).

Lemma peer_one_way_witness : is_open (scene handover_events) 0 /\ is_open (scene handover_events) 1.
Proof.
  destruct (peer_one_way sid_text (js "client-1") (js "me") true true None (Some RouteQuickTunnel) _ handover_events conn_made)
    as (Hu & Hh & _).
  split; [apply (Hu 0%nat); by vm_compute|apply (Hh 1%nat); by vm_compute].
Defined.

Lemma peer_never_stranded_witness :
  0 < generation (this (scene session_events)) /\ transport (this (scene session_events)) = None /\
  exists p pr, (p, pr) ∈ probes (scene session_events) /\ (pr_timer pr, ProbeTimer p) ∈ timers (scene session_events).
Proof.
  split; [by vm_compute|]. split; [by vm_compute|].
  pose proof (peer_never_stranded sid_text (js "client-1") (js "me") true true None (Some RouteQuickTunnel) _ session_events conn_made)
    as Hn. cbv zeta in Hn.
  destruct Hn as [(t & Ht & _)|[(t & Ht & _)|[(t & Ht & _)|(_ & p & pr & Hp & _ & _ & Ht)]]].
  1-3: vm_compute; reflexivity.
  1-3: exfalso; vm_compute in Ht; discriminate Ht.
  exists p, pr. split; [exact Hp|exact Ht].
Defined.

Lemma peer_promises_settled_once_witness :
  nextPromise (scene session_events) = 1%nat /\ settlements (trace (scene session_events)) = [0%nat] /\
  (settlements (trace (scene session_events)) ++ waiting (timers (scene session_events)) ++ map_keys (pastes (scene session_events))
    ≡ₚ seq 0 (nextPromise (scene session_events))).
Proof.
  split; [by vm_compute|]. split; [by vm_compute|].
  destruct (peer_promises_settled_once sid_text (js "client-1") (js "me") true true None (Some RouteQuickTunnel) _ session_events conn_made)
    as [Hp _]. exact Hp.
Defined.

Lemma peer_output_exactly_once_witness :
  shown_seqs (trace (scene session_events)) = [5; 7; 8] /\ StronglySorted Z.lt (shown_seqs (trace (scene session_events))).
Proof.
  split; [by vm_compute|].
  destruct (peer_output_exactly_once sid_text (js "client-1") (js "me") true true None (Some RouteQuickTunnel) _ session_events conn_made)
    as [Hs _]. exact Hs.
Defined.

Lemma peer_input_in_order_witness :
  inputs_sent (trace (scene session_events)) = [[120]; [121]] /\ inputs_given session_events = [js "x"; js "y"] /\
  inputs_sent (trace (scene session_events)) ++ map encodeText (pendingInputs (this (scene session_events))) ≡ₚ
    map encodeText (inputs_given session_events).
Proof.
  split; [by vm_compute|]. split; [by vm_compute|].
  destruct (peer_input_in_order sid_text (js "client-1") (js "me") true true None (Some RouteQuickTunnel) _ session_events conn_made)
    as [Hi _]. exact Hi.
Defined.

Lemma peer_detach_final_witness :
  let w := scene (handover_events ++ [EvDetach]) in let w' := run session_events w in
  detached (this w) = true /\ transport (this w') = None.
Proof.
  cbv zeta. split; [by vm_compute|].
  destruct (peer_detach_final sid_text (js "client-1") (js "me") true true None (Some RouteQuickTunnel) _
    (handover_events ++ [EvDetach]) session_events conn_made) as (_ & Ht & _); [by vm_compute|]. exact Ht.
Defined.
