(* ===== verification/PeerHandshake.v ===== *)
(** * The membership handshake of a peer connection
      ([src/desktop/frontend/src/lib/peer/handshake.ts])

    [PeerClientHandshake] is the browser half of the handshake between two
    members of a space: the host proves with its signing key that it holds the
    membership the client verified, the client proves its own, and the traffic
    keys are bound to the space, to both memberships and to the transcript.
    [handleHostHello] is suspended three times: at the check of the host's
    proof, at the shared secret and at the client's signature. It is a first
    part and one continuation for each suspension, between which [dispose] and
    [clientHello] may run. The messages reach it through the receive chain of
    the transport, so that one call is under way at a time. *)

From S2P Require Import Prelude Bytes JsString DirectCrypto DirectHandshake PeerIdentity PeerDocuments PeerTrust.

Definition HANDSHAKE_VERSION : Z := 1.
Definition CLIENT_HELLO_KIND : Z := 1.
Definition HOST_HELLO_KIND : Z := 2.
Definition CLIENT_FINISH_KIND : Z := 3.
Definition AUTH_OK_KIND : Z := 4.
Definition PUBLIC_KEY_SIZE : Z := 65.
Definition SIGNATURE_SIZE : Z := 64.

(** [uuidBytes] of this file: any placement of the hyphens. *)
Definition uuidBytes (value : jsstr) : result bytes :=
  let compact := remove_char 45 value in
  throw_if (negb ((zlen compact =? 32) && forallb is_hex compact)) "peer handshake: invalid UUID" ;;;
  Ok (map (fun index => default 0 (parseInt16 (slice compact (Z.of_nat index * 2) (Z.of_nat index * 2 + 2)))) (seq 0 16)).

Definition peerPermission (value : jsstr + Z) : result Z :=
  let same text number := match value with inl s => bool_decide (s = js text) | inr n => n =? number end in
  if same "view" DirectPermission.View then Ok DirectPermission.View
  else if same "control" DirectPermission.Control then Ok DirectPermission.Control
  else if same "full" DirectPermission.Full then Ok DirectPermission.Full
  else Throw "peer handshake: invalid permission".

Inductive State := Await_host_hello | Await_auth_ok | Complete.

#[export] Instance State_eq_dec : EqDecision State.
Proof. solve_decision. Defined.

Section Handshake.
Context `{Crypto} `{PeerCrypto} `{WebCrypto}.

Definition PEER_PROOF_DOMAIN : bytes := utf8ToBytes (js "atterm-peer-membership-proof-v1").
Definition PEER_BINDING_DOMAIN : bytes := utf8ToBytes (js "atterm-peer-membership-binding-v1").
Definition FINISH_DOMAIN : bytes := utf8ToBytes (js "atterm-direct-finish-v1").
Definition TRAFFIC_INFO : bytes := utf8ToBytes (js "atterm-direct-traffic-v1").

(** What a member signs to prove its membership. *)
Definition proof_payload (role : Z) (transcript : bytes) : result bytes :=
  concatBytes [PEER_PROOF_DOMAIN; [role]; transcript].

Definition verifyPeerProof (publicKey transcript : bytes) (role : Z) (signature : bytes) : result unit :=
  let* payload := proof_payload role transcript in
  match verify_with publicKey signature payload with
  | None => Throw "DataError"
  | Some valid =>
      throw_if (negb valid) "peer handshake: host proof mismatch" ;;;
      Ok tt
  end.

Definition derivePeerBinding (genesisHash clientMembershipToken hostMembershipToken : jsstr) (transcript : bytes)
    : result bytes :=
  let* input := concatBytes
    [PEER_BINDING_DOMAIN; utf8ToBytes genesisHash; sha256 (utf8ToBytes clientMembershipToken);
     sha256 (utf8ToBytes hostMembershipToken); transcript] in
  Ok (sha256 input).

Definition buildPeerFinishProof (binding transcript : bytes) : result bytes :=
  let* message := concatBytes [FINISH_DOMAIN; sha256 transcript] in
  Ok (hmac_sha256 binding message).

Definition derivePeerTrafficKeys (shared binding transcript : bytes) : result DirectHandshakeKeys :=
  let transcriptHash := sha256 transcript in
  let* info := concatBytes [TRAFFIC_INFO; transcriptHash] in
  let material := hkdf_sha256 shared binding info 96 in
  Ok (mkHandshakeKeys
        (mkTrafficKeys (slice material 0 32) (slice material 32 64) (slice material 64 80) (slice material 80 96))
        transcriptHash).

Record PeerClientHandshake := mkPeerHandshake {
  state : State;
  helloSent : bool;
  privateJWK : option Jwk;
  keys : option DirectHandshakeKeys;
  authorization : DirectAuthorization;
  identity : PeerIdentity;
  genesis : VerifiedGenesis;
  clientMembership : VerifiedGrant;
  hostMembership : VerifiedGrant;
  clientKey : bytes;                      (* this.publicKey *)
}.

#[export] Instance eta_peer_handshake : Eta PeerClientHandshake :=
  fun h => mkPeerHandshake (state h) (helloSent h) (privateJWK h) (keys h) (authorization h) (identity h)
             (genesis h) (clientMembership h) (hostMembership h) (clientKey h).

(** [PeerClientHandshake.create]; [now] is [Date.now()], [public_key] and
    [jwk] the exported key pair that WebCrypto generated. *)
Definition create (auth : DirectAuthorization) (self : PeerIdentity) (space : VerifiedGenesis)
    (client_membership host_membership : VerifiedGrant) (now : Z) (public_key : bytes) (jwk : Jwk)
    : result PeerClientHandshake :=
  throw_if (negb (zlen (auth_ticket auth) =? 32) || (auth_expiresAtUnixMs auth <=? now))
    "peer handshake: invalid authorization" ;;;
  throw_if (negb (bool_decide (subject_peer_id (vg_document client_membership) = peerId self))
            || bool_decide (subject_peer_id (vg_document host_membership) = peerId self))
    "peer handshake: invalid membership roles" ;;;
  Ok (mkPeerHandshake Await_host_hello false (Some jwk) None auth self space client_membership host_membership public_key).

Definition clientHello : method PeerClientHandshake bytes :=
  do* this := mget in
  guard_throw (negb (bool_decide (state this = Await_host_hello)) || helloSent this)
    "peer handshake: CLIENT_HELLO already sent" ;;;
  do* _ := mput (this <| helloSent := true |>) in
  do* attempt := mlift (uuidBytes (auth_attemptId (authorization this))) in
  mlift (concatBytes [[HANDSHAKE_VERSION; CLIENT_HELLO_KIND]; attempt;
                      auth_ticket (authorization this); clientKey this]).

(** What a suspended [handleHostHello] waits for, with what it holds. *)
Inductive Awaiting :=
  | A_verify (hostPublicKey hostProof transcript : bytes)
  | A_derive (jwk : option Jwk) (hostPublicKey transcript binding : bytes)
  | A_sign (transcript binding : bytes).

(** [handleHostHello] up to [await verifyPeerProof(...)]. *)
Definition handleHostHello (message : bytes) : method PeerClientHandshake Awaiting :=
  do* this := mget in
  guard_throw (negb (bool_decide (state this = Await_host_hello)) || negb (helloSent this)
               || bool_decide (privateJWK this = None)
               || negb (zlen message =? 2 + PUBLIC_KEY_SIZE + SIGNATURE_SIZE)
               || negb (bool_decide (idx message 0 = Some HANDSHAKE_VERSION))
               || negb (bool_decide (idx message 1 = Some HOST_HELLO_KIND)))
    "peer handshake: malformed HOST_HELLO" ;;;
  let hostPublicKey := slice message 2 (2 + PUBLIC_KEY_SIZE) in
  let hostProof := slice_from message (2 + PUBLIC_KEY_SIZE) in
  do* transcript := mlift (marshalDirectTranscript
        (transcript_of (authorization this) (clientKey this) hostPublicKey)) in
  mret (A_verify hostPublicKey hostProof transcript).

(** The continuation of each suspension: the next one, or the CLIENT_FINISH
    that [handleHostHello] returns. *)
Definition handleHostHello_resume (awaiting : Awaiting) : method PeerClientHandshake (Awaiting + bytes) :=
  match awaiting with
  | A_verify hostPublicKey hostProof transcript =>
      do* this := mget in
      do* _ := mlift (verifyPeerProof (vg_publicKey (hostMembership this)) transcript DirectRole.Host hostProof) in
      do* binding := mlift (derivePeerBinding (gen_hash (genesis this)) (vg_token (clientMembership this))
                              (vg_token (hostMembership this)) transcript) in
      mret (inl (A_derive (privateJWK this) hostPublicKey transcript binding))
  | A_derive jwk hostPublicKey transcript binding =>
      match jwk with
      | None => mthrow "TypeError"
      | Some jwk =>
          match p256_shared jwk hostPublicKey with
          | None => mthrow "OperationError"
          | Some shared =>
              do* this := mget in
              do* _ := mput (this <| privateJWK := None |>) in
              do* derived := mlift (derivePeerTrafficKeys shared binding transcript) in
              do* _ := mput (this <| privateJWK := None |> <| keys := Some derived |>) in
              mret (inl (A_sign transcript binding))
          end
      end
  | A_sign transcript binding =>
      do* this := mget in
      do* payload := mlift (proof_payload DirectRole.Client transcript) in
      do* clientProof := mlift (identity_sign (identity this) payload) in
      do* _ := mput (this <| state := Await_auth_ok |>) in
      do* finishProof := mlift (buildPeerFinishProof binding transcript) in
      do* finish := mlift (concatBytes [[HANDSHAKE_VERSION; CLIENT_FINISH_KIND]; clientProof; finishProof]) in
      mret (inr finish)
  end.

Definition handleAuthOK (message : bytes) : method PeerClientHandshake DirectHandshakeKeys :=
  do* this := mget in
  guard_throw (negb (bool_decide (state this = Await_auth_ok)) || negb (zlen message =? 2)
               || negb (bool_decide (idx message 0 = Some HANDSHAKE_VERSION))
               || negb (bool_decide (idx message 1 = Some AUTH_OK_KIND)))
    "peer handshake: malformed AUTH_OK" ;;;
  match keys this with
  | None => mthrow "peer handshake: malformed AUTH_OK"
  | Some k =>
      do* _ := mput (this <| state := Complete |>) in
      mret k
  end.

(** [dispose]: what the key buffers then hold, if there were any. *)
Definition dispose : method PeerClientHandshake (option DirectHandshakeKeys) :=
  do* this := mget in
  do* _ := mput (this <| privateJWK := None |> <| keys := None |>) in
  mret (option_map erase_keys (keys this)).

(** ** Histories *)

Inductive PhEvent :=
  | PhHello
  | PhHostHello (message : bytes)
  | PhSettle
  | PhAuthOK (message : bytes)
  | PhDispose.

(** The object, the call under way, and the CLIENT_FINISH messages returned. *)
Record PhWorld := mkPhWorld {
  ph_self : PeerClientHandshake;
  ph_awaiting : option Awaiting;
  ph_finishes : list bytes;
}.

Definition ph_step (event : PhEvent) (w : PhWorld) : PhWorld :=
  let h := ph_self w in
  match event, ph_awaiting w with
  | PhHello, a => mkPhWorld (fst (clientHello h)) a (ph_finishes w)
  | PhDispose, a => mkPhWorld (fst (dispose h)) a (ph_finishes w)
  | PhHostHello message, None =>
      match handleHostHello message h with
      | (h', Ok a) => mkPhWorld h' (Some a) (ph_finishes w)
      | (h', Throw _) => mkPhWorld h' None (ph_finishes w)
      end
  | PhAuthOK message, None => mkPhWorld (fst (handleAuthOK message h)) None (ph_finishes w)
  | PhSettle, Some a =>
      match handleHostHello_resume a h with
      | (h', Ok (inl a')) => mkPhWorld h' (Some a') (ph_finishes w)
      | (h', Ok (inr finish)) => mkPhWorld h' None (ph_finishes w ++ [finish])
      | (h', Throw _) => mkPhWorld h' None (ph_finishes w)
      end
  | _, _ => w
  end.

Definition ph_run (events : list PhEvent) (h : PeerClientHandshake) : PhWorld :=
  fold_left (fun w event => ph_step event w) events (mkPhWorld h None []).
End Handshake.

(** ** What a completed handshake stands on *)

Section Session.
Context `{Crypto} `{PeerCrypto} `{WebCrypto}.
Context (auth : DirectAuthorization) (self : PeerIdentity) (space : VerifiedGenesis)
        (client_membership host_membership : VerifiedGrant) (public_key : bytes) (jwk : Jwk).

(** The holder of the host's membership signed the transcript of this attempt
    with the key that a HOST_HELLO carries. *)
Definition host_proved (message host_key transcript : bytes) : Prop :=
  zlen message = 2 + PUBLIC_KEY_SIZE + SIGNATURE_SIZE /\
  host_key = slice message 2 (2 + PUBLIC_KEY_SIZE) /\
  marshalDirectTranscript (transcript_of auth public_key host_key) = Ok transcript /\
  ecdsa_verify (vg_publicKey host_membership) (slice_from message (2 + PUBLIC_KEY_SIZE))
    (PEER_PROOF_DOMAIN ++ [DirectRole.Host] ++ transcript) = true.

(** The binding names the space, both memberships and the transcript. *)
Definition binding_of (transcript : bytes) : bytes :=
  sha256 (PEER_BINDING_DOMAIN ++ utf8ToBytes (gen_hash space) ++ sha256 (utf8ToBytes (vg_token client_membership))
          ++ sha256 (utf8ToBytes (vg_token host_membership)) ++ transcript).

Definition proved_in (events : list PhEvent) (host_key transcript : bytes) : Prop :=
  exists message, PhHostHello message ∈ events /\ host_proved message host_key transcript.

(** The keys of the session with a proved host. *)
Definition session_keys (events : list PhEvent) (transcript : bytes) (k : DirectHandshakeKeys) : Prop :=
  exists host_key shared,
    proved_in events host_key transcript /\ p256_shared jwk host_key = Some shared /\
    derivePeerTrafficKeys shared (binding_of transcript) transcript = Ok k.

(** The CLIENT_FINISH for a transcript: the client's own proof of membership,
    and the proof that it derived the same binding. *)
Definition finish_of (transcript finish : bytes) : Prop :=
  exists client_proof,
    identity_sign self (PEER_PROOF_DOMAIN ++ [DirectRole.Client] ++ transcript) = Ok client_proof /\
    finish = [HANDSHAKE_VERSION; CLIENT_FINISH_KIND] ++ client_proof
             ++ hmac_sha256 (binding_of transcript) (FINISH_DOMAIN ++ sha256 transcript).

(** The object, with the fields it never writes. *)
Definition object (s : State) (sent : bool) (j : option Jwk) (k : option DirectHandshakeKeys) : PeerClientHandshake :=
  mkPeerHandshake s sent j k auth self space client_membership host_membership public_key.

Definition phase (events : list PhEvent) (s : State) (j : option Jwk) (k : option DirectHandshakeKeys)
    (awaiting : option Awaiting) (finishes : list bytes) : Prop :=
  match awaiting with
  | Some (A_verify hk proof t) =>
      s = Await_host_hello /\ k = None /\ finishes = [] /\
      exists message, PhHostHello message ∈ events /\ zlen message = 2 + PUBLIC_KEY_SIZE + SIGNATURE_SIZE /\
        hk = slice message 2 (2 + PUBLIC_KEY_SIZE) /\ proof = slice_from message (2 + PUBLIC_KEY_SIZE) /\
        marshalDirectTranscript (transcript_of auth public_key hk) = Ok t
  | Some (A_derive held hk t b) =>
      s = Await_host_hello /\ k = None /\ finishes = [] /\ (held = None \/ held = Some jwk) /\
      proved_in events hk t /\ b = binding_of t
  | Some (A_sign t b) =>
      s = Await_host_hello /\ j = None /\ finishes = [] /\ b = binding_of t /\
      forall x, k = Some x -> session_keys events t x
  | None =>
      match s with
      | Await_host_hello => finishes = [] /\ (j = None \/ k = None)
      | _ => j = None /\ exists t finish, finishes = [finish] /\ finish_of t finish /\
               forall x, k = Some x -> session_keys events t x
      end
  end.

Definition ph_inv (events : list PhEvent) (w : PhWorld) : Prop :=
  exists s sent j k, ph_self w = object s sent j k /\ (j = None \/ j = Some jwk) /\
    phase events s j k (ph_awaiting w) (ph_finishes w).
End Session.

(** ** Lemmas *)

Section Lemmas.
Context `{Crypto} `{PeerCrypto} `{WebCrypto}.

Lemma proof_payload_eq role t : proof_payload role t = Ok (PEER_PROOF_DOMAIN ++ [role] ++ t).
Proof. unfold proof_payload. rewrite concatBytes_ok. cbn [concat]. by rewrite app_nil_r. Qed.

Lemma verifyPeerProof_ok key t sg x :
  verifyPeerProof key t DirectRole.Host sg = Ok x ->
  ecdsa_verify key sg (PEER_PROOF_DOMAIN ++ [DirectRole.Host] ++ t) = true.
Proof.
  unfold verifyPeerProof, verify_with. rewrite proof_payload_eq. cbn [rbind].
  destruct (p256_importable key); [|done]. by destruct (ecdsa_verify _ _ _).
Qed.

Lemma derivePeerBinding_eq space cm hm t :
  derivePeerBinding (gen_hash space) (vg_token cm) (vg_token hm) t = Ok (binding_of space cm hm t).
Proof. unfold derivePeerBinding, binding_of. rewrite concatBytes_ok. cbn [rbind concat]. by rewrite app_nil_r. Qed.

Lemma derivePeerTrafficKeys_total shared b t : exists k, derivePeerTrafficKeys shared b t = Ok k.
Proof. unfold derivePeerTrafficKeys. rewrite concatBytes_ok. cbn [rbind]. eauto. Qed.

Lemma buildPeerFinishProof_eq b t : buildPeerFinishProof b t = Ok (hmac_sha256 b (FINISH_DOMAIN ++ sha256 t)).
Proof. unfold buildPeerFinishProof. rewrite concatBytes_ok. cbn [rbind concat]. by rewrite app_nil_r. Qed.

Lemma finish_message client_proof finish_proof :
  concatBytes [[HANDSHAKE_VERSION; CLIENT_FINISH_KIND]; client_proof; finish_proof]
  = Ok ([HANDSHAKE_VERSION; CLIENT_FINISH_KIND] ++ client_proof ++ finish_proof).
Proof. rewrite concatBytes_ok. cbn [concat]. by rewrite app_nil_r. Qed.

Context (auth : DirectAuthorization) (self : PeerIdentity) (space : VerifiedGenesis)
        (client_membership host_membership : VerifiedGrant) (public_key : bytes) (jwk : Jwk).

Notation obj := (object auth self space client_membership host_membership public_key).
Notation phased := (phase auth self space client_membership host_membership public_key jwk).
Notation inv := (ph_inv auth self space client_membership host_membership public_key jwk).
Notation proved := (proved_in auth host_membership public_key).
Notation session := (session_keys auth space client_membership host_membership public_key jwk).

Lemma proved_mono events event hk t : proved events hk t -> proved (events ++ [event]) hk t.
Proof. intros (m & Hm & ?). exists m. split; [set_solver|done]. Qed.

Lemma session_mono events event t k : session events t k -> session (events ++ [event]) t k.
Proof. intros (hk & sh & Hp & ?). exists hk, sh. split; [by apply proved_mono|done]. Qed.

(** The rules below follow the object through one method. *)
Lemma phase_mono events event s j k a f : phased events s j k a f -> phased (events ++ [event]) s j k a f.
Proof.
  destruct a as [[hk pf t|held hk t b|t b]|]; cbn [phase].
  - intros (? & ? & ? & m & Hm & ?). split_and!; try done. exists m. split; [set_solver|done].
  - intros (? & ? & ? & ? & Hp & ?). split_and!; try done. by apply proved_mono.
  - intros (? & ? & ? & ? & Hs). split_and!; try done. intros x Hx. by apply session_mono, Hs.
  - destruct s; [done|..]; intros (? & t & fin & ? & ? & Hs); split; try done;
      exists t, fin; split_and!; try done; intros x Hx; by apply session_mono, Hs.
Qed.

(** Forgetting the secrets keeps the phase. *)
Lemma phase_dispose events s j k a f : phased events s j k a f -> phased events s None None a f.
Proof.
  destruct a as [[hk pf t|held hk t b|t b]|]; cbn [phase]; [tauto|tauto| |].
  - intros (? & ? & ? & ? & _). by split_and!.
  - destruct s; [intros [? _]; split; [done|by left]|..];
      intros (_ & t & fin & ? & ? & _); split; try done; by exists t, fin.
Qed.

Lemma clientHello_inv s sent j k :
  exists sent', fst (clientHello (obj s sent j k)) = obj s sent' j k.
Proof.
  unfold clientHello. mrun. cbn [state helloSent object]. split_guard; [by eexists|].
  cbn [authorization object]. destruct (uuidBytes _); by eexists.
Qed.

Lemma handleHostHello_calm m h : fst (handleHostHello m h) = h.
Proof. unfold handleHostHello. mrun. split_guard; [done|]. by destruct (marshalDirectTranscript _). Qed.

Lemma handleHostHello_awaits events m s sent j k a :
  phased events s j k None [] -> snd (handleHostHello m (obj s sent j k)) = Ok a ->
  s = Await_host_hello /\ phased (events ++ [PhHostHello m]) s j k (Some a) [].
Proof.
  intros Hp. unfold handleHostHello. mrun. cbn [state helloSent privateJWK authorization clientKey object].
  split_guard; [done|]. destruct (marshalDirectTranscript _) as [t|e] eqn:Et; [|done]. cbn [snd].
  intros [= <-]. assert (Hs : s = Await_host_hello) by done. subst s. split; [done|]. cbn [phase] in *.
  destruct Hp as [_ [Hj|Hk]]; [congruence|]. split_and!; try done.
  exists m. split_and!; [set_solver|done..].
Qed.

(** One continuation. *)
Lemma resume_inv events a s sent j k h' r :
  (j = None \/ j = Some jwk) -> phased events s j k (Some a) [] ->
  handleHostHello_resume a (obj s sent j k) = (h', r) ->
  exists s' j' k', h' = obj s' sent j' k' /\ (j' = None \/ j' = Some jwk) /\
    match r with
    | Ok (inl a') => phased events s' j' k' (Some a') []
    | Ok (inr finish) => phased events s' j' k' None [finish]
    | Throw _ => phased events s' j' k' None []
    end.
Proof.
  intros Hj Hp. destruct a as [hk pf t|held hk t b|t b]; cbn [phase] in Hp; unfold handleHostHello_resume; mrun.
  - destruct Hp as (-> & -> & _ & m & Hm & Hlen & -> & -> & Ht). cbn [hostMembership genesis clientMembership object].
    destruct (verifyPeerProof _ _ _ _) as [[]|e] eqn:Ev.
    + rewrite derivePeerBinding_eq. intros [= <- <-]. exists Await_host_hello, j, None. split; [done|]. split; [done|].
      cbn [phase privateJWK object]. split_and!; try done. exists m. split; [done|]. apply verifyPeerProof_ok in Ev. done.
    + intros [= <- <-]. exists Await_host_hello, j, None. split; [done|]. split; [done|]. cbn. tauto.
  - destruct Hp as (-> & -> & _ & Hheld & Hpr & ->).
    assert (Hstay : phased events Await_host_hello j None None []) by (cbn; tauto).
    destruct held as [x|]; [|intros [= <- <-]; by exists Await_host_hello, j, None].
    destruct Hheld as [|[= ->]]; [done|].
    destruct (p256_shared jwk hk) as [sh|] eqn:Esh; [|intros [= <- <-]; by exists Await_host_hello, j, None].
    destruct (derivePeerTrafficKeys_total sh (binding_of space client_membership host_membership t) t) as [x Ex].
    rewrite Ex. intros [= <- <-]. exists Await_host_hello, None, (Some x). split; [done|]. split; [by left|].
    cbn [phase]. split_and!; try done. intros y [= <-]. by exists hk, sh.
  - destruct Hp as (-> & -> & _ & -> & Hs). rewrite proof_payload_eq. cbn [identity object].
    destruct (identity_sign _ _) as [sg|e] eqn:Esg.
    + rewrite buildPeerFinishProof_eq, finish_message. intros [= <- <-].
      exists Await_auth_ok, None, k. split; [done|]. split; [by left|]. cbn [phase]. split; [done|].
      eexists t, _. split; [done|]. split; [|done]. by exists sg.
    + intros [= <- <-]. exists Await_host_hello, None, k. split; [done|]. split; [by left|]. cbn. tauto.
Qed.

Lemma handleAuthOK_inv m s sent j k :
  handleAuthOK m (obj s sent j k) =
    if bool_decide (s = Await_auth_ok) && bool_decide (m = [HANDSHAKE_VERSION; AUTH_OK_KIND])
    then match k with
         | Some x => (obj Complete sent j k, Ok x)
         | None => (obj s sent j k, Throw "peer handshake: malformed AUTH_OK")
         end
    else (obj s sent j k, Throw "peer handshake: malformed AUTH_OK").
Proof.
  unfold handleAuthOK. mrun. cbn [state keys object]. split_guard.
  - destruct (bool_decide (s = _)) eqn:Es; [|done]. destruct (bool_decide (m = _)) eqn:Em; [|done].
    apply bool_decide_eq_true in Em as ->. by vm_compute in Hg.
  - rewrite (bool_decide_true (s = _)) by done. cbn [andb].
    rewrite bool_decide_true; [by destruct k|].
    destruct m as [|x [|y [|z m]]]; try (exfalso; zlen_lia).
    change (idx [x; y] 0) with (Some x) in *. change (idx [x; y] 1) with (Some y) in *. congruence.
Qed.

(** An answer to a call is always accompanied by the phase it leaves. *)
Lemma ph_step_inv events w event : inv events w -> inv (events ++ [event]) (ph_step event w).
Proof.
  intros (s & sent & j & k & Ew & Hj & Hp). destruct w as [h a f]. cbn [ph_self ph_awaiting ph_finishes] in *. subst h.
  assert (Hsame : inv (events ++ [event]) (mkPhWorld (obj s sent j k) a f)).
  { exists s, sent, j, k. split; [done|]. split; [done|]. by apply phase_mono. }
  destruct event as [|m| |m|]; cbn [ph_step ph_awaiting ph_self ph_finishes].
  - destruct (clientHello_inv s sent j k) as [sent' ->]. exists s, sent', j, k. split; [done|]. split; [done|]. by apply phase_mono.
  - destruct a; [done|]. pose proof (handleHostHello_calm m (obj s sent j k)) as E1.
    assert (Hf : s = Await_host_hello -> f = []) by (intros ->; cbn in Hp; tauto).
    destruct (handleHostHello m _) as [h' [a|e]] eqn:E; cbn [fst] in E1; subst h'; [|done].
    assert (Hs : s = Await_host_hello).
    { revert E. unfold handleHostHello. mrun. cbn [state object]. split_guard; [done|]. by intros _. }
    rewrite (Hf Hs) in *. exists s, sent, j, k. split; [done|]. split; [done|].
    apply (handleHostHello_awaits events m s sent j k a Hp). by rewrite E.
  - destruct a as [a|]; [|done].
    assert (Hf : f = []) by (destruct a; cbn in Hp; tauto). subst f.
    destruct (handleHostHello_resume a (obj s sent j k)) as [h' r] eqn:E.
    destruct (resume_inv _ _ _ _ _ _ _ _ Hj Hp E) as (s' & j' & k' & -> & Hj' & Hr).
    destruct r as [[a'|fin]|e]; exists s', sent, j', k'; (split; [done|]); (split; [done|]); by apply phase_mono.
  - destruct a; [done|]. rewrite handleAuthOK_inv.
    destruct (bool_decide (s = Await_auth_ok)) eqn:Es; [|exact Hsame]. destruct (bool_decide (m = _)); [|exact Hsame].
    destruct k as [x|]; [|exact Hsame]. apply bool_decide_eq_true in Es as ->.
    exists Complete, sent, j, (Some x). split; [done|]. split; [done|].
    exact (phase_mono events (PhAuthOK m) Await_auth_ok j (Some x) None f Hp).
  - exists s, sent, None, None. split; [done|]. split; [by left|]. eapply phase_mono, phase_dispose, Hp.
Qed.

Lemma ph_run_inv events h0 now :
  create auth self space client_membership host_membership now public_key jwk = Ok h0 -> inv events (ph_run events h0).
Proof.
  intros E. unfold create in E. inv_ok. unfold ph_run. induction events as [|event events IH] using rev_ind.
  - exists Await_host_hello, false, (Some jwk), None. split; [done|]. split; [by right|]. cbn. tauto.
  - rewrite fold_left_app. by apply ph_step_inv.
Qed.
End Lemmas.

(** ** Theorems *)

Section Theorems.
Context `{Crypto} `{PeerCrypto} `{WebCrypto}.
Context (auth : DirectAuthorization) (self : PeerIdentity) (space : VerifiedGenesis)
        (client_membership host_membership : VerifiedGrant) (public_key : bytes) (jwk : Jwk) (now : Z).

(** What the keys that [handleAuthOK] returns stand on. *)
Lemma handshake_keys_session (events : list PhEvent) (message : bytes)
    (h0 h' : PeerClientHandshake) (k : DirectHandshakeKeys)
    (Hcreate : create auth self space client_membership host_membership now public_key jwk = Ok h0)
    (Hdone : handleAuthOK message (ph_self (ph_run events h0)) = (h', Ok k)) :
  message = [HANDSHAKE_VERSION; AUTH_OK_KIND] /\ state h' = Complete /\
  exists transcript finish,
    ph_finishes (ph_run events h0) = [finish] /\
    finish_of self space client_membership host_membership transcript finish /\
    session_keys auth space client_membership host_membership public_key jwk events transcript k.
Proof.
  destruct (ph_run_inv auth self space client_membership host_membership public_key jwk events h0 now Hcreate)
    as (s & sent & j & k0 & E & _ & Hp).
  rewrite E, handleAuthOK_inv in Hdone. destruct (bool_decide (s = _)) eqn:Es; [|done]. cbn [andb] in Hdone.
  destruct (bool_decide (message = _)) eqn:Em; [|done]. apply bool_decide_eq_true in Es as ->, Em as ->.
  destruct k0 as [x|]; [|done]. injection Hdone as <- <-. split; [done|]. split; [done|].
  destruct (ph_awaiting (ph_run events h0)) as [[]|]; try (by destruct Hp as [? _]).
  destruct Hp as (_ & t & fin & Hf & Hfin & Hk). exists t, fin. split_and!; try done. by apply Hk.
Qed.

(** C24. A completed membership handshake is authenticated and agreed: whatever
    calls came before, [handleAuthOK] returns keys only on AUTH_OK, after
    exactly one CLIENT_FINISH. The holder of the host membership that the
    client verified has then signed the transcript of this very attempt; the
    keys are derived from the shared secret with the key it signed and from the
    binding of the space, both memberships and that transcript; and the
    CLIENT_FINISH proves the client's membership and the same binding. *)
Theorem peer_handshake_authenticated (events : list PhEvent) (message : bytes)
    (h0 h' : PeerClientHandshake) (k : DirectHandshakeKeys)
    (Hcreate : create auth self space client_membership host_membership now public_key jwk = Ok h0)
    (Hdone : handleAuthOK message (ph_self (ph_run events h0)) = (h', Ok k)) :
  message = [HANDSHAKE_VERSION; AUTH_OK_KIND] /\ state h' = Complete /\
  exists transcript finish,
    ph_finishes (ph_run events h0) = [finish] /\
    finish_of self space client_membership host_membership transcript finish /\
    session_keys auth space client_membership host_membership public_key jwk events transcript k.
Proof. exact (handshake_keys_session events message h0 h' k Hcreate Hdone). Qed.

(** The handshake completes: against a host that proves the membership for
    the transcript of the attempt, the client returns its CLIENT_FINISH after
    three suspensions, and on AUTH_OK the session keys. *)
Theorem peer_handshake_completes (message host_key transcript shared client_proof : bytes) (h0 : PeerClientHandshake)
    (Hcreate : create auth self space client_membership host_membership now public_key jwk = Ok h0)
    (Hproved : host_proved auth host_membership public_key message host_key transcript)
    (Hkind : idx message 0 = Some HANDSHAKE_VERSION /\ idx message 1 = Some HOST_HELLO_KIND)
    (Hkey : p256_importable (vg_publicKey host_membership) = true)
    (Hshared : p256_shared jwk host_key = Some shared)
    (Hsign : identity_sign self (PEER_PROOF_DOMAIN ++ [DirectRole.Client] ++ transcript) = Ok client_proof) :
  exists finish k,
    ph_run [PhHello; PhHostHello message; PhSettle; PhSettle; PhSettle] h0
    = mkPhWorld (object auth self space client_membership host_membership public_key Await_auth_ok true None (Some k))
        None [finish] /\
    finish_of self space client_membership host_membership transcript finish /\
    derivePeerTrafficKeys shared (binding_of space client_membership host_membership transcript) transcript = Ok k /\
    snd (handleAuthOK [HANDSHAKE_VERSION; AUTH_OK_KIND]
           (object auth self space client_membership host_membership public_key Await_auth_ok true None (Some k))) = Ok k.
Proof.
  destruct Hproved as (Hlen & -> & Ht & Hv). destruct Hkind as [K0 K1].
  unfold create in Hcreate. inv_ok. set (obj := object auth self space client_membership host_membership public_key).
  set (b := binding_of space client_membership host_membership transcript).
  destruct (derivePeerTrafficKeys_total shared b transcript) as [k Ek].
  eexists _, k. split; [|split; [by exists client_proof|split; [done|unfold obj; by rewrite handleAuthOK_inv]]].
  unfold ph_run. cbn [fold_left]. set (w0 := mkPhWorld _ None []).
  assert (E1 : ph_step PhHello w0 = mkPhWorld (obj Await_host_hello true (Some jwk) None) None []).
  { unfold w0. cbn [ph_step ph_self ph_awaiting ph_finishes]. f_equal. unfold clientHello. mrun. cbn.
    by destruct (uuidBytes _). }
  assert (E2 : handleHostHello message (obj Await_host_hello true (Some jwk) None)
    = (obj Await_host_hello true (Some jwk) None,
       Ok (A_verify (slice message 2 (2 + PUBLIC_KEY_SIZE)) (slice_from message (2 + PUBLIC_KEY_SIZE)) transcript))).
  { unfold handleHostHello. mrun. cbn [state helloSent privateJWK authorization clientKey object obj].
    rewrite Hlen, K0, K1, Ht. done. }
  assert (E3 : verifyPeerProof (vg_publicKey host_membership) transcript DirectRole.Host
                 (slice_from message (2 + PUBLIC_KEY_SIZE)) = Ok tt).
  { unfold verifyPeerProof, verify_with. rewrite proof_payload_eq. cbn [rbind]. by rewrite Hkey, Hv. }
  assert (E4 : handleHostHello_resume (A_verify (slice message 2 (2 + PUBLIC_KEY_SIZE))
      (slice_from message (2 + PUBLIC_KEY_SIZE)) transcript) (obj Await_host_hello true (Some jwk) None)
    = (obj Await_host_hello true (Some jwk) None,
       Ok (inl (A_derive (Some jwk) (slice message 2 (2 + PUBLIC_KEY_SIZE)) transcript b)))).
  { unfold handleHostHello_resume. mrun. cbn [hostMembership genesis clientMembership privateJWK object obj].
    by rewrite E3, derivePeerBinding_eq. }
  assert (E5 : handleHostHello_resume (A_derive (Some jwk) (slice message 2 (2 + PUBLIC_KEY_SIZE)) transcript b)
      (obj Await_host_hello true (Some jwk) None)
    = (obj Await_host_hello true None (Some k), Ok (inl (A_sign transcript b)))).
  { unfold handleHostHello_resume. mrun. by rewrite Hshared, Ek. }
  assert (E6 : handleHostHello_resume (A_sign transcript b) (obj Await_host_hello true None (Some k))
    = (obj Await_auth_ok true None (Some k),
       Ok (inr ([HANDSHAKE_VERSION; CLIENT_FINISH_KIND] ++ client_proof
                ++ hmac_sha256 b (FINISH_DOMAIN ++ sha256 transcript))))).
  { unfold handleHostHello_resume. mrun. rewrite proof_payload_eq. cbn [identity object obj].
    by rewrite Hsign, buildPeerFinishProof_eq, finish_message. }
  rewrite E1. cbn [ph_step ph_self ph_awaiting ph_finishes]. rewrite E2.
  cbn [ph_step ph_self ph_awaiting ph_finishes]. rewrite E4. cbn [ph_self ph_awaiting ph_finishes]. rewrite E5.
  cbn [ph_self ph_awaiting ph_finishes]. by rewrite E6.
Qed.

(** After [dispose] with no call under way nothing secret is held again and no
    keys are returned, whatever is called. *)
Lemma peer_dispose_final (events later : list PhEvent) (message : bytes) (h0 : PeerClientHandshake)
    (Hcreate : create auth self space client_membership host_membership now public_key jwk = Ok h0)
    (Hidle : ph_awaiting (ph_run events h0) = None) :
  let w := fold_left (fun w event => ph_step event w) later (ph_step PhDispose (ph_run events h0)) in
  privateJWK (ph_self w) = None /\ keys (ph_self w) = None /\ ph_awaiting w = None /\
  is_ok (snd (handleAuthOK message (ph_self w))) = false.
Proof.
  destruct (ph_run_inv auth self space client_membership host_membership public_key jwk events h0 now Hcreate)
    as (s & sent & j & k0 & E & _ & _). destruct (ph_run events h0) as [h a f].
  cbn [ph_self ph_awaiting] in *. subst h a. cbn zeta.
  assert (Hall : exists s' sent', fold_left (fun w event => ph_step event w) later
    (ph_step PhDispose (mkPhWorld (object auth self space client_membership host_membership public_key s sent j k0) None f))
    = mkPhWorld (object auth self space client_membership host_membership public_key s' sent' None None) None f).
  { induction later as [|event later IH] using rev_ind; [by exists s, sent|].
    destruct IH as (s' & sent' & IH). rewrite fold_left_app, IH. cbn [fold_left].
    destruct event as [|m| |m|]; cbn [ph_step ph_awaiting ph_self ph_finishes].
    - destruct (clientHello_inv auth self space client_membership host_membership public_key s' sent' None None) as [x ->].
      by exists s', x.
    - unfold handleHostHello. mrun. cbn [state helloSent privateJWK object]. rewrite (bool_decide_true (None = None)) by done.
      rewrite orb_true_r. cbn [orb]. by exists s', sent'.
    - by exists s', sent'.
    - rewrite handleAuthOK_inv. destruct (_ && _); by exists s', sent'.
    - by exists s', sent'. }
  destruct Hall as (s' & sent' & ->). cbn [ph_self ph_awaiting]. split_and!; [done..|].
  rewrite handleAuthOK_inv. by destruct (_ && _).
Qed.
End Theorems.

(** ** An example run *)

Module HandshakeToy.
Definition uuid : jsstr := js "00112233-4455-6677-8899-aabbccddeeff".
Definition client_key : bytes := 4 :: zeros 64.
Definition host_key : bytes := 4 :: repeat 7 64.

Definition grant (peer : jsstr) : DeviceGrantDocument :=
  mkGrantDoc uuid peer (js "client") None 1 None P_full [] true false 0 [] [].
Definition space : VerifiedGenesis :=
  mkVerifiedGenesis (js "g") (mkGenesisDoc uuid (js "client") [] 1) client_key (js "hash").
Definition client_membership : VerifiedGrant := mkVerifiedGrant (js "mc") (grant (js "client")) client_key client_key.
Definition host_membership : VerifiedGrant := mkVerifiedGrant (js "mh") (grant (js "host")) host_key host_key.
Definition self : @PeerIdentity toy_peer_crypto := mkPeerIdentity (js "client") client_key client_key client_key.
Definition auth : DirectAuthorization := mkAuthorization uuid (zeros 32) uuid (js "u") (js "h") (js "c") 3 1000.
Definition jwk : @Jwk toy_webcrypto := 5.
Definition created : PeerClientHandshake :=
  object auth self space client_membership host_membership client_key Await_host_hello false (Some jwk) None.

Definition transcript : bytes := Eval vm_compute in
  match marshalDirectTranscript (transcript_of auth client_key host_key) with Ok t => t | Throw _ => [] end.
(** The HOST_HELLO of the holder of the host membership. *)
Definition hello : bytes := Eval vm_compute in
  [1; 2] ++ host_key ++ toy_sig host_key (PEER_PROOF_DOMAIN ++ [DirectRole.Host] ++ transcript).
Definition client_proof : bytes := Eval vm_compute in
  match identity_sign self (PEER_PROOF_DOMAIN ++ [DirectRole.Client] ++ transcript) with Ok p => p | Throw _ => [] end.

Definition shared_secret : bytes := Eval vm_compute in
  match p256_shared jwk host_key with Some s => s | None => [] end.

Lemma created_ok : create auth self space client_membership host_membership 10 client_key jwk = Ok created.
Proof. reflexivity. Qed.

Lemma hello_proved : host_proved auth host_membership client_key hello host_key transcript.
Proof. unfold host_proved. split; [vm_compute; reflexivity|]. split; [vm_compute; reflexivity|]. by split; vm_compute. Qed.
End HandshakeToy.

Lemma peer_handshake_authenticated_witness :
  exists h' k, handleAuthOK [1; 4] (ph_self (ph_run [PhHello; PhHostHello HandshakeToy.hello; PhSettle; PhSettle; PhSettle] HandshakeToy.created))
    = (h', Ok k) /\
  exists transcript, session_keys HandshakeToy.auth HandshakeToy.space HandshakeToy.client_membership HandshakeToy.host_membership HandshakeToy.client_key HandshakeToy.jwk
    [PhHello; PhHostHello HandshakeToy.hello; PhSettle; PhSettle; PhSettle] transcript k.
Proof.
  set (events := [PhHello; PhHostHello HandshakeToy.hello; PhSettle; PhSettle; PhSettle]).
  assert (Hok : is_ok (snd (handleAuthOK [1; 4] (ph_self (ph_run events HandshakeToy.created)))) = true) by (vm_compute; reflexivity).
  destruct (handleAuthOK [1; 4] (ph_self (ph_run events HandshakeToy.created))) as [h' r] eqn:E. exists h'.
  destruct r as [k|e]; [|discriminate Hok]. exists k. split; [reflexivity|].
  destruct (peer_handshake_authenticated HandshakeToy.auth HandshakeToy.self HandshakeToy.space HandshakeToy.client_membership HandshakeToy.host_membership
    HandshakeToy.client_key HandshakeToy.jwk 10 events [1; 4] HandshakeToy.created h' k HandshakeToy.created_ok E) as (_ & _ & t & fin & _ & _ & Hk).
  exists t. exact Hk.
Defined.

Lemma peer_handshake_completes_witness :
  exists finish k, ph_finishes (ph_run [PhHello; PhHostHello HandshakeToy.hello; PhSettle; PhSettle; PhSettle] HandshakeToy.created) = [finish] /\
    derivePeerTrafficKeys (HandshakeToy.shared_secret) (binding_of HandshakeToy.space HandshakeToy.client_membership HandshakeToy.host_membership HandshakeToy.transcript)
      HandshakeToy.transcript = Ok k.
Proof.
  destruct (peer_handshake_completes HandshakeToy.auth HandshakeToy.self HandshakeToy.space HandshakeToy.client_membership HandshakeToy.host_membership
    HandshakeToy.client_key HandshakeToy.jwk 10 HandshakeToy.hello HandshakeToy.host_key HandshakeToy.transcript HandshakeToy.shared_secret HandshakeToy.client_proof HandshakeToy.created
    HandshakeToy.created_ok HandshakeToy.hello_proved (conj eq_refl eq_refl) eq_refl eq_refl eq_refl) as (fin & k & E & _ & Hk & _).
  exists fin, k. split; [|exact Hk]. exact (f_equal ph_finishes E).
Defined.

(** A [dispose] during the wait for the shared secret does not stop the call:
    it stores the keys afterwards, where nothing erases them. *)
Example dispose_during_derive :
  let w := ph_run [PhHello; PhHostHello HandshakeToy.hello; PhSettle; PhDispose; PhSettle] HandshakeToy.created in
  privateJWK (ph_self w) = None /\ bool_decide (keys (ph_self w) = None) = false.
Proof. cbv zeta. split; vm_compute; reflexivity. Qed.
