(* ===== verification/PeerJoin.v ===== *)
(** * Requests to join a space
      ([src/desktop/frontend/src/lib/peer/joinRequest.ts])

    A new device signs a request that names the invitation it answers and its
    own keys. [verifyJoinRequestSubject] checks that proof of possession; the
    invitation itself is checked by the host that redeems it. *)

From Stdlib Require Import QArith.
From S2P Require Import Prelude Bytes JsString Base64Url JsMap Json JsonText DirectCrypto PeerIdentity PeerDocuments PeerTrust.
#[local] Open Scope Z_scope.

Definition JOIN_PREFIX : jsstr := js "apj1".
Definition INVITATION_PREFIX : jsstr := js "atp1.".
Definition MAX_TOKEN_BYTES : Z := Z.shiftl 64 10.
Definition CLOCK_SKEW_SECONDS : Z := 5 * 60.

Record JoinRequestDocument := mkJoinDoc {
  invitation : jsstr;
  subject_peer_id : jsstr;
  subject_public_key : jsstr;
  subject_wrapping_public_key : jsstr;
  nonce : jsstr;
  created_at : Z;
}.

Record VerifiedJoinSubject := mkJoinSubject {
  js_token : jsstr;
  js_document : JoinRequestDocument;
  js_publicKey : bytes;
  js_wrappingPublicKey : bytes;
}.

(** [keys.sort()]: by code units. *)
Fixpoint insert_key (k : jsstr) (l : list jsstr) : list jsstr :=
  match l with
  | [] => [k]
  | h :: rest => if string_lt h k then h :: insert_key k rest else k :: l
  end.

Definition sort_keys (l : list jsstr) : list jsstr := foldr insert_key [] l.

Definition expected_fields : list jsstr :=
  map js ["created_at"; "invitation"; "nonce"; "subject_peer_id"; "subject_public_key"; "subject_wrapping_public_key"; "v"].

Definition exactJoinDocument (value : Json) : result JoinRequestDocument :=
  match value with
  | JObj record =>
      let f k := field record k in
      throw_if (negb (bool_decide (join [10] (sort_keys (map_keys record)) = join [10] expected_fields)))
        "peer join: unknown or missing field" ;;;
      throw_if (negb (is_number (f "v") 1) || negb (is_string (f "invitation"))
                || negb (starts_with INVITATION_PREFIX (text_of (f "invitation")))
                || (MAX_TOKEN_BYTES <? zlen (utf8_encode (text_of (f "invitation"))))
                || negb (is_string (f "subject_peer_id")) || negb (is_string (f "subject_public_key"))
                || negb (is_string (f "subject_wrapping_public_key")) || negb (is_string (f "nonce"))
                || negb (is_safe_integer (f "created_at")) || (int_of (f "created_at") <=? 0))
        "peer join: invalid document" ;;;
      Ok (mkJoinDoc (text_of (f "invitation")) (text_of (f "subject_peer_id")) (text_of (f "subject_public_key"))
            (text_of (f "subject_wrapping_public_key")) (text_of (f "nonce")) (int_of (f "created_at")))
  | _ => Throw "peer join: invalid document"
  end.

Section Join.
Context `{Crypto} `{PeerCrypto} `{JsText} `{Platform}.

(** The object literal of [createJoinRequest], in its order. *)
Definition join_document (self : PeerIdentity) (invited : jsstr) (random : bytes) (now : Z) : Json :=
  JObj [(js "v", jint 1);
        (js "invitation", JStr invited);
        (js "subject_peer_id", JStr (peerId self));
        (js "subject_public_key", JStr (bytesToBase64URL (publicKey self)));
        (js "subject_wrapping_public_key", JStr (bytesToBase64URL (wrappingPublicKey self)));
        (js "nonce", JStr (bytesToBase64URL random));
        (js "created_at", jint (now / 1000))].

(** [random] are the 32 bytes of [getRandomValues], [now] the milliseconds of
    the date. *)
Definition createJoinRequest (self : PeerIdentity) (invited : jsstr) (random : bytes) (now : Z) : result jsstr :=
  throw_if (negb (starts_with INVITATION_PREFIX invited) || (MAX_TOKEN_BYTES <? zlen (utf8_encode invited)))
    "peer join: invalid invitation" ;;;
  let payload := utf8_encode (JSON_stringify (join_document self invited random now)) in
  let* signature := identity_sign self payload in
  let token := JOIN_PREFIX ++ js "." ++ bytesToBase64URL payload ++ js "." ++ bytesToBase64URL signature in
  throw_if (MAX_TOKEN_BYTES <? zlen (utf8_encode token)) "peer join: token too large" ;;;
  Ok token.

Definition verifyJoinRequestSubject (token : jsstr) (now : Z) : result VerifiedJoinSubject :=
  throw_if (MAX_TOKEN_BYTES <? zlen (utf8_encode token)) "peer join: token too large" ;;;
  match split_on 46 token with
  | [prefix; part1; part2] =>
      throw_if (negb (bool_decide (prefix = JOIN_PREFIX))) "peer join: invalid token" ;;;
      let* payload := base64URLToBytes part1 in
      let* signature := base64URLToBytes part2 in
      throw_if (negb (isP1363LowS signature)) "peer join: invalid signature encoding" ;;;
      let parsed := match decodeFatal payload with
                    | Some text => JSON_parse text
                    | None => Throw "TypeError"
                    end in
      match parsed with
      | Throw _ => Throw "peer join: invalid JSON"
      | Ok parsed =>
          let* document := exactJoinDocument parsed in
          throw_if (CLOCK_SKEW_SECONDS <? Z.abs (created_at document - now / 1000)) "peer join: request expired" ;;;
          let* publicKey := base64URLToBytes (subject_public_key document) in
          let* wrappingPublicKey := base64URLToBytes (subject_wrapping_public_key document) in
          let* id := peerIDFromPublicKey publicKey in
          throw_if (negb (bool_decide (id = subject_peer_id document))) "peer join: subject peer id mismatch" ;;;
          let* random := base64URLToBytes (nonce document) in
          throw_if (negb (zlen random =? 32)) "peer join: invalid nonce" ;;;
          throw_if (negb (p256_importable publicKey) || negb (p256_importable wrappingPublicKey))
            "peer join: invalid subject public key" ;;;
          throw_if (negb (ecdsa_verify publicKey signature payload)) "peer join: invalid subject signature" ;;;
          Ok (mkJoinSubject token document publicKey wrappingPublicKey)
      end
  | _ => Throw "peer join: invalid token"
  end.
End Join.

(** ** The fields of a request *)

Lemma insert_key_perm k l : insert_key k l ≡ₚ k :: l.
Proof. induction l as [|h l IH]; [done|]. cbn. destruct (string_lt h k); [rewrite IH; by apply perm_swap|done]. Qed.

Lemma sort_keys_perm l : sort_keys l ≡ₚ l.
Proof. induction l as [|k l IH]; [done|]. cbn. by rewrite insert_key_perm, IH. Qed.

(** Length of a joined list. *)
Fixpoint total (l : list jsstr) : Z :=
  match l with
  | [] => 0
  | s :: rest => 1 + zlen s + total rest
  end.

Lemma total_nonneg l : 0 <= total l.
Proof. induction l as [|s l IH]; cbn; [lia|]. pose proof (zlen_nonneg s). lia. Qed.

Lemma join_total c l : zlen (join [c] l) = Z.max 0 (total l - 1).
Proof.
  induction l as [|s l IH]; [done|]. pose proof (zlen_nonneg s). pose proof (total_nonneg l).
  destruct l as [|s' l]; [cbn; lia|].
  change (join [c] (s :: s' :: l)) with (s ++ [c] ++ join [c] (s' :: l)).
  change (total (s :: s' :: l)) with (1 + zlen s + total (s' :: l)).
  rewrite !zlen_app, IH. change (zlen [c]) with 1. assert (1 <= total (s' :: l)); [|lia].
  cbn. pose proof (zlen_nonneg s'). pose proof (total_nonneg l). lia.
Qed.

Lemma total_perm l l' : l ≡ₚ l' -> total l = total l'.
Proof. induction 1 as [|s l l' _ IH|s s' l|l l' l'' _ IH _ IH']; cbn; try lia. Qed.

Lemma total_app l l' : total (l ++ l') = total l + total l'.
Proof. induction l as [|s l IH]; cbn; [done|]. lia. Qed.

(** A list that contains [wanted] and has the same joined text once sorted is
    [wanted]. *)
Lemma joined_exact wanted l c :
  NoDup wanted -> (forall k, k ∈ wanted -> k ∈ l) -> wanted <> [] ->
  join [c] (sort_keys l) = join [c] wanted -> l ≡ₚ wanted.
Proof.
  intros Hnd Hin Hne E. assert (Hsub : wanted ⊆+ l) by (by apply NoDup_submseteq).
  apply submseteq_Permutation in Hsub as [rest Hp].
  apply (f_equal zlen) in E. rewrite !join_total, (total_perm _ _ (sort_keys_perm l)), (total_perm _ _ Hp), total_app in E.
  pose proof (total_nonneg rest). assert (Hw : 1 <= total wanted).
  { destruct wanted as [|s w]; [done|]. cbn. pose proof (zlen_nonneg s). pose proof (total_nonneg w). lia. }
  destruct rest as [|s rest]; [by rewrite Hp, app_nil_r|]. exfalso.
  assert (1 <= total (s :: rest)); [|lia]. cbn. pose proof (zlen_nonneg s). pose proof (total_nonneg rest). lia.
Qed.

(** What an accepted document says: the seven declared fields and no other. *)
Record join_says (record : list (jsstr * Json)) (d : JoinRequestDocument) : Prop := {
  jr_keys : map_keys record ≡ₚ expected_fields;
  jr_version : is_number (field record "v") 1 = true;
  jr_invitation : field_is record "invitation" (JStr (invitation d)) /\ starts_with INVITATION_PREFIX (invitation d) = true;
  jr_peer : field_is record "subject_peer_id" (JStr (subject_peer_id d));
  jr_key : field_is record "subject_public_key" (JStr (subject_public_key d));
  jr_wrapping : field_is record "subject_wrapping_public_key" (JStr (subject_wrapping_public_key d));
  jr_nonce : field_is record "nonce" (JStr (nonce d));
  jr_created : field_int record "created_at" (created_at d) /\ 0 < created_at d;
}.

Lemma exactJoinDocument_inv value d :
  exactJoinDocument value = Ok d -> exists record, value = JObj record /\ join_says record d.
Proof.
  intros E. destruct value as [| | | | |record]; try done. unfold exactJoinDocument in E. cbv zeta in E.
  destruct (bool_decide _) eqn:Ej in E; [|done]. apply bool_decide_eq_true in Ej. cbn [negb] in E.
  match type of E with (if ?b then _ else _) = _ => destruct b eqn:Hg; [done|] end.
  rewrite !orb_false_iff, !negb_false_iff in Hg. destruct Hg as (((((((((V & I) & P) & _) & S) & K) & W) & N) & C) & Z0).
  apply Z.leb_gt in Z0. apply is_string_inv in I, S, K, W, N. pose proof (is_safe_integer_inv _ C) as C'.
  apply Ok_inj in E as <-. exists record. split; [done|].
  split; cbn [invitation subject_peer_id subject_public_key subject_wrapping_public_key nonce created_at]; try done.
  apply (joined_exact expected_fields _ 10); [by vm_compute; repeat constructor; set_solver| |done|done].
  assert (Hhas : forall k, field record k <> None -> js k ∈ map_keys record).
  { intros k Hk. destruct (decide (js k ∈ map_keys record)) as [|Hn]; [done|]. by apply map_get_none in Hn. }
  intros k Hk. unfold expected_fields in Hk. cbn [map] in Hk.
  rewrite !elem_of_cons, elem_of_nil in Hk. destruct Hk as [->|[->|[->|[->|[->|[->|[->|[]]]]]]]]; apply Hhas; try congruence.
  - intros X. by rewrite X in C.
  - intros X. by rewrite X in V.
Qed.

Lemma safe_integer_jint z : Z.abs z <= MAX_SAFE_INTEGER -> safe_integer (Some (jint z)) = Some z.
Proof.
  intros Hz. unfold safe_integer, jint, inject_Z. cbn [Qnum Qden]. rewrite Z.div_1_r.
  rewrite (proj2 (Z.leb_le _ _) Hz), andb_true_r.
  by replace (Qeq_bool _ _) with true by (symmetry; apply Qeq_bool_iff; reflexivity).
Qed.

Lemma b64url_no_dot p : bytes_ok p -> 46 ∉ bytesToBase64URL p.
Proof.
  intros Hp Hin. rewrite bytesToBase64URL_eq in Hin. pose proof (base64url_chars p Hp) as Hc.
  rewrite forallb_forall in Hc. apply list_elem_of_In in Hin. by apply Hc in Hin.
Qed.

(** ** Theorems *)

Section Theorems.
Context `{Crypto} `{PeerCrypto} `{JsText} `{Platform}.

(** An identity as WebCrypto gives it: its keys can be imported, its peer id is
    that of its key, and what it signs verifies under its key. *)
Record identity_ok (self : PeerIdentity) : Prop := {
  io_public : bytes_ok (publicKey self);
  io_peer : peerIDFromPublicKey (publicKey self) = Ok (peerId self);
  io_wrapping : bytes_ok (wrappingPublicKey self) /\ wrappingPublicKey self <> [];
  io_importable : p256_importable (publicKey self) = true /\ p256_importable (wrappingPublicKey self) = true;
  io_bytes : forall message, bytes_ok (ecdsa_sign (signingKey self) message);
  io_verify : forall message signature, identity_sign self message = Ok signature ->
    ecdsa_verify (publicKey self) signature message = true;
}.

(** The text layer gives a document back. *)
Definition text_roundtrip (value : Json) : Prop :=
  let text := JSON_stringify value in
  bytes_ok (utf8_encode text) /\ utf8_encode text <> [] /\ decodeFatal (utf8_encode text) = Some text /\
  JSON_parse text = Ok value.

Lemma exactJoinDocument_own self invited random now :
  starts_with INVITATION_PREFIX invited = true -> zlen (utf8_encode invited) <= MAX_TOKEN_BYTES ->
  0 < now / 1000 <= MAX_SAFE_INTEGER ->
  exactJoinDocument (join_document self invited random now)
  = Ok (mkJoinDoc invited (peerId self) (bytesToBase64URL (publicKey self)) (bytesToBase64URL (wrappingPublicKey self))
          (bytesToBase64URL random) (now / 1000)).
Proof.
  intros Hp Hs Hn. unfold exactJoinDocument, join_document. cbv zeta.
  match goal with |- context [bool_decide ?P] => rewrite (bool_decide_true P) by reflexivity end. cbn [negb].
  set (record := [_; _; _; _; _; _; _]).
  change (field record "invitation") with (Some (JStr invited)).
  change (field record "v") with (Some (jint 1)).
  change (field record "subject_peer_id") with (Some (JStr (peerId self))).
  change (field record "subject_public_key") with (Some (JStr (bytesToBase64URL (publicKey self)))).
  change (field record "subject_wrapping_public_key") with (Some (JStr (bytesToBase64URL (wrappingPublicKey self)))).
  change (field record "nonce") with (Some (JStr (bytesToBase64URL random))).
  change (field record "created_at") with (Some (jint (now / 1000))).
  cbn [is_string text_of as_string]. undefault. unfold is_safe_integer, int_of, text_of. cbn [as_string].
  rewrite safe_integer_jint by lia. undefault.
  rewrite Hp, (proj2 (Z.ltb_ge _ _) Hs), (proj2 (Z.leb_gt _ 0)) by lia. done.
Qed.

(** C26. A request that a device creates proves its keys: whoever verifies it
    within five minutes of its date gets the device's keys and peer id and the
    invitation it named; later, or much earlier, it is refused as expired. *)
Theorem join_request_roundtrip (self : PeerIdentity) (invited : jsstr) (random : bytes) (now now' : Z) (token : jsstr)
    (Hself : identity_ok self)
    (Htext : text_roundtrip (join_document self invited random now))
    (Hrandom : bytes_ok random /\ zlen random = 32)
    (Hnow : 0 < now / 1000 <= MAX_SAFE_INTEGER)
    (Hcreate : createJoinRequest self invited random now = Ok token) :
  verifyJoinRequestSubject token now' =
    if CLOCK_SKEW_SECONDS <? Z.abs (now / 1000 - now' / 1000) then Throw "peer join: request expired"
    else Ok (mkJoinSubject token
               (mkJoinDoc invited (peerId self) (bytesToBase64URL (publicKey self))
                  (bytesToBase64URL (wrappingPublicKey self)) (bytesToBase64URL random) (now / 1000))
               (publicKey self) (wrappingPublicKey self)).
Proof.
  destruct Hself as [Hpk Hid [Hwk Hwne] [Hi1 Hi2] Hsb Hver]. destruct Htext as (Hb & Hne & Hdec & Hparse).
  destruct Hrandom as [Hr Hr32]. unfold createJoinRequest in Hcreate.
  destruct (_ || _) eqn:Hg in Hcreate; [done|]. apply orb_false_iff in Hg as [Hpre Hsize].
  apply negb_false_iff in Hpre. apply Z.ltb_ge in Hsize.
  set (payload := utf8_encode (JSON_stringify (join_document self invited random now))) in *.
  apply rbind_ok in Hcreate as (sg & Hsg & Hcreate).
  destruct (_ <? _) eqn:Hlen in Hcreate; [done|]. apply Ok_inj in Hcreate as <-.
  pose proof (Hver _ _ Hsg) as Hv. pose proof (normalize_result _ (Hsb payload)) as Hn.
  unfold identity_sign in Hsg. rewrite Hsg in Hn. destruct Hn as (_ & _ & _ & Hsgb & Hlow & _).
  assert (Hsgne : sg <> []) by (intros ->; done).
  unfold verifyJoinRequestSubject. rewrite Hlen.
  rewrite split_on_first by (vm_compute; set_solver). rewrite split_on_first by (by apply b64url_no_dot).
  rewrite split_on_plain by (by apply b64url_no_dot). rewrite bool_decide_true by done. cbn [negb].
  rewrite !base64URL_roundtrip by done. cbn [rbind]. rewrite Hlow, Hdec, Hparse. cbn [negb].
  rewrite exactJoinDocument_own by done. cbn [rbind subject_public_key subject_wrapping_public_key subject_peer_id nonce created_at].
  destruct (_ <? _); [done|].
  assert (Hpkne : publicKey self <> []) by (intros E; by rewrite E in Hid).
  assert (Hrne : random <> []) by (intros ->; done).
  rewrite !base64URL_roundtrip by done. cbn [rbind]. rewrite Hid. cbn [rbind].
  rewrite bool_decide_true by done. cbn [negb]. rewrite Hr32, Hi1, Hi2, Hv. done.
Qed.

(** C25. An accepted request proves possession: it has exactly the declared
    fields, it is within five minutes of now, its payload is signed, with a
    canonical signature, by the key it names, and the peer id it names is that
    of the key. *)
Theorem join_subject_proved (token : jsstr) (now : Z) (s : VerifiedJoinSubject)
    (Hok : verifyJoinRequestSubject token now = Ok s) :
  js_token s = token /\
  exists payload signature text record,
    split_on 46 token = [JOIN_PREFIX; bytesToBase64URL payload; bytesToBase64URL signature] /\
    isP1363LowS signature = true /\ decodeFatal payload = Some text /\ JSON_parse text = Ok (JObj record) /\
    join_says record (js_document s) /\
    Z.abs (created_at (js_document s) - now / 1000) <= CLOCK_SKEW_SECONDS /\
    subject_public_key (js_document s) = bytesToBase64URL (js_publicKey s) /\
    subject_wrapping_public_key (js_document s) = bytesToBase64URL (js_wrappingPublicKey s) /\
    peerIDFromPublicKey (js_publicKey s) = Ok (subject_peer_id (js_document s)) /\
    ecdsa_verify (js_publicKey s) signature payload = true.
Proof.
  unfold verifyJoinRequestSubject in Hok. destruct (_ <? _) in Hok; [done|].
  destruct (split_on 46 token) as [|prefix [|part1 [|part2 []]]] eqn:Es; try done.
  destruct (bool_decide _) eqn:Hp in Hok; [|done]. apply bool_decide_eq_true in Hp as ->. cbn [negb] in Hok.
  apply rbind_ok in Hok as (payload & E1 & Hok). apply rbind_ok in Hok as (sg & E2 & Hok).
  destruct (isP1363LowS sg) eqn:Hlow; [|done]. cbn [negb] in Hok.
  destruct (decodeFatal payload) as [text|] eqn:Ed; [|done]. destruct (JSON_parse text) as [value|] eqn:Ej; [|done].
  apply rbind_ok in Hok as (d & E3 & Hok). destruct (_ <? _) eqn:Hskew in Hok; [done|]. apply Z.ltb_ge in Hskew.
  apply rbind_ok in Hok as (pk & E4 & Hok). apply rbind_ok in Hok as (wk & E5 & Hok).
  apply rbind_ok in Hok as (id & E6 & Hok). destruct (bool_decide (id = _)) eqn:Hid; [|done].
  apply bool_decide_eq_true in Hid as ->. cbn [negb] in Hok. apply rbind_ok in Hok as (random & _ & Hok).
  destruct (negb (zlen random =? 32)); [done|]. destruct (_ || _); [done|].
  destruct (ecdsa_verify pk sg payload) eqn:Hv; [|done]. apply Ok_inj in Hok as <-. split; [done|].
  destruct (exactJoinDocument_inv _ _ E3) as (record & -> & Hsays). exists payload, sg, text, record.
  apply base64URL_canonical in E1, E2, E4, E5. cbn [js_document js_publicKey js_wrappingPublicKey].
  subst part1 part2. by split_and!.
Qed.
End Theorems.

(** ** An example request *)

Lemma toy_sig_bytes key msg : bytes_ok (toy_sig key msg).
Proof. unfold toy_sig. apply bytes_ok_app. split; apply be_bytes_ok. Qed.

Lemma toy_sig_low key msg : normalizeP1363LowS (toy_sig key msg) = Ok (toy_sig key msg).
Proof.
  apply normalize_fixed; [apply toy_sig_bytes|]. apply isP1363LowS_spec; [apply toy_sig_bytes|].
  unfold toy_sig. set (n := fold_left _ _ _).
  assert (Hn : 0 <= n < 65521).
  { unfold n. generalize (key ++ msg) as l. intros l. destruct l as [|x l] using rev_ind; [cbn; lia|].
    rewrite fold_left_app. cbn [fold_left]. by apply Z.mod_pos_bound. }
  clearbody n. assert (Hb : 0 <= 1 + n < 256 ^ Z.of_nat 32) by (assert (65522 < 256 ^ Z.of_nat 32) by done; lia).
  destruct (sig_parts (be_bytes 32 1) (1 + n) ltac:(by rewrite zlen_be_bytes) Hb) as (-> & -> & ->).
  split; [done|]. split; [done|]. assert (65522 < P256_HALF_ORDER) by done. lia.
Qed.

Lemma toy_sign_bytes (key : bytes) msg : bytes_ok (@ecdsa_sign toy_peer_crypto key msg).
Proof. exact (toy_sig_bytes key msg). Qed.

Lemma toy_sign_verifies (self : @PeerIdentity toy_peer_crypto) msg sg :
  (signingKey self : bytes) = publicKey self ->
  identity_sign self msg = Ok sg -> ecdsa_verify (publicKey self) sg msg = true.
Proof.
  intros Hk E. destruct self as [id pk wk sk]. cbn [signingKey publicKey] in *. subst sk.
  assert (E' : Ok (toy_sig pk msg) = Ok sg) by (rewrite <- E; symmetry; exact (toy_sig_low pk msg)).
  apply Ok_inj in E' as <-. exact (bool_decide_true _ eq_refl).
Qed.

Module JoinToy.
Definition self : @PeerIdentity toy_peer_crypto :=
  mkPeerIdentity (Space.peer 1) (Space.key 1) (Space.key 2) (Space.key 1).
Definition invited : jsstr := js "atp1.invitation".
Definition token : jsstr := Eval vm_compute in
  match createJoinRequest self invited (zeros 32) 1000000 with Ok t => t | Throw _ => [] end.

Lemma self_ok : identity_ok self.
Proof.
  split.
  - by apply (bool_decide_unpack (Forall _ _)); vm_compute.
  - vm_compute. reflexivity.
  - split; [|discriminate]. by apply (bool_decide_unpack (Forall _ _)); vm_compute.
  - split; reflexivity.
  - intros message. exact (toy_sign_bytes (signingKey self) message).
  - intros message sg. exact (toy_sign_verifies self message sg eq_refl).
Qed.

Lemma text_ok : text_roundtrip (join_document self invited (zeros 32) 1000000).
Proof.
  split; [by apply (bool_decide_unpack (Forall _ _)); vm_compute|]. split; [by vm_compute|]. by split; vm_compute.
Qed.

Lemma random_ok : bytes_ok (zeros 32) /\ zlen (zeros 32) = 32.
Proof. split; [|done]. by apply (bool_decide_unpack (Forall _ _)); vm_compute. Qed.
End JoinToy.

Lemma join_request_roundtrip_witness :
  createJoinRequest JoinToy.self JoinToy.invited (zeros 32) 1000000 = Ok JoinToy.token /\
  is_ok (verifyJoinRequestSubject JoinToy.token 1300000) = true /\
  verifyJoinRequestSubject JoinToy.token 1301000 = Throw "peer join: request expired".
Proof.
  assert (Hc : createJoinRequest JoinToy.self JoinToy.invited (zeros 32) 1000000 = Ok JoinToy.token) by (vm_compute; reflexivity).
  assert (Hn : 0 < 1000000 / 1000 <= MAX_SAFE_INTEGER) by (vm_compute; split; [reflexivity|discriminate]).
  split; [exact Hc|]. split.
  - rewrite (join_request_roundtrip JoinToy.self JoinToy.invited (zeros 32) 1000000 1300000 JoinToy.token
      JoinToy.self_ok JoinToy.text_ok JoinToy.random_ok Hn Hc). reflexivity.
  - rewrite (join_request_roundtrip JoinToy.self JoinToy.invited (zeros 32) 1000000 1301000 JoinToy.token
      JoinToy.self_ok JoinToy.text_ok JoinToy.random_ok Hn Hc). reflexivity.
Defined.

Lemma join_subject_proved_witness :
  exists s, verifyJoinRequestSubject JoinToy.token 1000000 = Ok s /\ js_token s = JoinToy.token.
Proof.
  destruct (verifyJoinRequestSubject JoinToy.token 1000000) as [s|e] eqn:E; [|by vm_compute in E].
  exists s. split; [reflexivity|]. exact (proj1 (join_subject_proved JoinToy.token 1000000 s E)).
Defined.
