(* ===== verification/PeerState.v ===== *)
(** * Joining a space and the state of a client
      ([src/desktop/frontend/src/lib/peer/clientState.ts], and [loadPeerContext]
      of [peer/quickTunnelClient.ts])

    A client joins a space through a connection bundle: it seals its join
    request for the host that issued the bundle, opens the answer, and checks
    every document of it before it becomes the state that is stored and that
    the transports start from. The time is read several times: [clock i] is the
    [i]-th reading, in milliseconds. [fetch] is a function of the address and
    the body that gives whether the answer is a success and its text. *)

From S2P Require Import Prelude Bytes JsString Base64Url JsMap Json DirectCrypto PeerIdentity PeerJoin PeerDocuments.

Definition JOIN_KEY_INFO : jsstr := js "atterm-quick-tunnel-join-v1".
Definition rejected {A} : result A := Throw "Peer Space join rejected".

Record PeerClientState := mkClientState {
  st_genesis : jsstr;
  st_membership : jsstr;
  st_memberships : list jsstr;
  st_revocations : list jsstr;
  st_epoch_rotations : list jsstr;
  st_epoch_envelopes : list jsstr;
  st_route_bundle : jsstr;
  st_joined_at : Z;
  st_fallback_consent : bool;
}.

#[export] Instance eta_client_state : Eta PeerClientState :=
  fun s => mkClientState (st_genesis s) (st_membership s) (st_memberships s) (st_revocations s)
             (st_epoch_rotations s) (st_epoch_envelopes s) (st_route_bundle s) (st_joined_at s) (st_fallback_consent s).

Record JoinBootstrap := mkBootstrap {
  b_genesis : jsstr;
  b_membership : jsstr;
  b_memberships : list jsstr;
  b_revocations : option (list jsstr);
  b_epoch_rotations : list jsstr;
  b_epoch_envelopes : list jsstr;
  b_connection_bundle : jsstr;
}.

Inductive Direction := D_request | D_response.

Definition direction_text (d : Direction) : jsstr :=
  match d with D_request => js "request" | D_response => js "response" end.

(** An array of strings. *)
Definition is_text_array (value : option Json) : bool :=
  match value with Some (JArr l) => forallb (fun item => is_string (Some item)) l | _ => false end.

Definition texts_of (value : option Json) : list jsstr :=
  match value with Some (JArr l) => map (fun item => text_of (Some item)) l | _ => [] end.

(** The setters of a parsed address, and the address again. *)
Class UrlText := { URL_toString : URLParts -> jsstr }.

#[export] Instance eta_url : Eta URLParts :=
  fun u => mkURL (url_protocol u) (url_hostname u) (url_port u) (url_pathname u) (url_username u) (url_password u)
             (url_search u) (url_hash u).

Record PeerConnectionPreview := mkPreview {
  pv_space_id : jsstr;
  pv_fingerprint : jsstr;
  pv_issuer_peer_id : jsstr;
  pv_permission : PeerPermission;
  pv_allowed_session_ids : list jsstr;
  pv_can_invite : option Json;
  pv_can_sync_secrets : option Json;
  pv_invitation_expires_at : Z;
  pv_bundle_expires_at : Z;
  pv_route_kind : RouteKind;
  pv_route_url : jsstr;
}.

Inductive PeerSpaceStatus :=
  | NotConfigured
  | Configured (peer_id space genesis_hash : jsstr) (created : Z).

Record PeerMember := mkMember {
  m_peer_id : jsstr;
  m_grant_serial : jsstr;
  m_issuer_peer_id : jsstr;
  m_permission : PeerPermission;
  m_allowed_session_ids : list jsstr;
  m_can_invite : bool;
  m_can_sync_secrets : bool;
  m_issued_at : Z;
  m_expires_at : option Z;
  m_local : bool;
}.

Section State.
Context `{Crypto} `{PeerCrypto} `{JsText} `{Platform} `{UrlText}.

(** ** The sealed exchange *)

Definition joinKey (secret : bytes) (inviteId : jsstr) (direction : Direction) : bytes :=
  hkdf_sha256 secret (utf8ToBytes inviteId) (utf8ToBytes (JOIN_KEY_INFO ++ [0] ++ direction_text direction)) 32.

Definition joinAAD (inviteId : jsstr) (direction : Direction) : bytes :=
  utf8ToBytes (JOIN_KEY_INFO ++ [0] ++ direction_text direction ++ [0] ++ inviteId).

(** [random] are the 24 bytes of [getRandomValues]. *)
Definition sealJoin (secret : bytes) (inviteId : jsstr) (direction : Direction) (random plaintext : bytes) : Json :=
  let ciphertext := xchacha_encrypt (joinKey secret inviteId direction) random (joinAAD inviteId direction) plaintext in
  JObj [(js "v", jint 1); (js "invite_id", JStr inviteId); (js "nonce", JStr (bytesToBase64URL random));
        (js "ciphertext", JStr (bytesToBase64URL ciphertext))].

Definition openJoin (secret : bytes) (inviteId : jsstr) (direction : Direction) (envelope : Json) : result bytes :=
  let* v := prop envelope "v" in
  let* invite := prop envelope "invite_id" in
  throw_if (negb (is_number v 1) || negb (is_text invite inviteId)) "Peer Space join rejected" ;;;
  let* nonce_field := prop envelope "nonce" in
  let* nonce := bytes_arg nonce_field in
  let* ciphertext_field := prop envelope "ciphertext" in
  let* ciphertext := bytes_arg ciphertext_field in
  throw_if (negb (zlen nonce =? 24) || (zlen ciphertext <? 16)) "Peer Space join rejected" ;;;
  xchacha_decrypt (joinKey secret inviteId direction) nonce (joinAAD inviteId direction) ciphertext.

Definition required_fields : list string :=
  ["connection_bundle"; "epoch_envelopes"; "epoch_rotations"; "genesis"; "membership"; "memberships"].

Definition strictBootstrap (value : Json) : result JoinBootstrap :=
  match value with
  | JObj record =>
      let f k := field record k in
      let allowed := map js (required_fields ++ ["revocations"]) in
      throw_if (existsb (fun key => negb (map_has record (js key))) required_fields
                || existsb (fun key => bool_decide (key ∉ allowed)) (map_keys record))
        "Peer Space join rejected" ;;;
      throw_if (negb (is_string (f "connection_bundle")) || negb (is_string (f "genesis")) || negb (is_string (f "membership"))
                || negb (is_text_array (f "memberships")) || negb (is_text_array (f "epoch_rotations"))
                || negb (is_text_array (f "epoch_envelopes")))
        "Peer Space join rejected" ;;;
      throw_if (bool_decide (f "revocations" <> None) && negb (is_text_array (f "revocations")))
        "Peer Space join rejected" ;;;
      Ok (mkBootstrap (text_of (f "genesis")) (text_of (f "membership")) (texts_of (f "memberships"))
            (option_map (fun v => texts_of (Some v)) (f "revocations")) (texts_of (f "epoch_rotations"))
            (texts_of (f "epoch_envelopes")) (text_of (f "connection_bundle")))
  | _ => rejected
  end.

Definition connectionEndpoint (bundle : VerifiedConnectionBundle) (path : jsstr) : result jsstr :=
  match new_URL (route_url (vb_route bundle)) with
  | None => Throw "TypeError: Invalid URL"
  | Some endpoint => Ok (URL_toString (endpoint <| url_pathname := path |> <| url_search := [] |> <| url_hash := [] |>))
  end.

Definition fingerprint (genesis : VerifiedGenesis) : jsstr := js "SHA256:" ++ gen_hash genesis.

Definition previewPeerConnection (raw : jsstr) (now : Z) : result (VerifiedConnectionBundle * PeerConnectionPreview) :=
  let* bundle := verifyConnectionBundle raw (Some now) in
  match vb_ticket bundle with
  | None => rejected
  | Some ticket =>
      Ok (bundle,
          mkPreview (space_id (gen_document (vb_genesis bundle))) (fingerprint (vb_genesis bundle))
            (vb_issuer_peer_id bundle) (t_permission ticket) (t_allowed_session_ids ticket) (t_can_invite ticket)
            (t_can_sync_secrets ticket) (t_expires_at ticket) (vb_expires_at bundle)
            (route_kind (vb_route bundle)) (route_url (vb_route bundle)))
  end.

(** ** Joining *)

(** The membership of the answer is the one the ticket offers to this device. *)
Definition membership_offered (self : PeerIdentity) (local : VerifiedGrant) (ticket : CapabilityTicketDocument) : bool :=
  let d := vg_document local in
  bool_decide (subject_public_key d = bytesToBase64URL (publicKey self))
  && bool_decide (subject_wrapping_public_key d = bytesToBase64URL (wrappingPublicKey self))
  && bool_decide (issuer_peer_id d = t_issuer_peer_id ticket)
  && bool_decide (permission d = t_permission ticket)
  && bool_decide (JSON_stringify (JArr (map JStr (allowed_session_ids d)))
                  = JSON_stringify (JArr (map JStr (t_allowed_session_ids ticket))))
  && strict_equal (Some (JBool (can_invite d))) (t_can_invite ticket)
  && strict_equal (Some (JBool (can_sync_secrets d))) (t_can_sync_secrets ticket).

Definition has_token (token : jsstr) (active : list VerifiedGrant) : bool :=
  existsb (fun grant => bool_decide (vg_token grant = token)) active.

(** What is sent to the host. *)
Definition join_body (self : PeerIdentity) (bundle : VerifiedConnectionBundle) (ticket : CapabilityTicketDocument)
    (secret joinNonce sealNonce : bytes) (now : Z) : result jsstr :=
  let* invited := text_arg (vb_ticket_token bundle) in
  let* joinRequest := createJoinRequest self invited joinNonce now in
  let payload := utf8_encode (JSON_stringify (JObj [(js "v", jint 1); (js "join_request", JStr joinRequest)])) in
  Ok (JSON_stringify (sealJoin secret (t_invite_id ticket) D_request sealNonce payload)).

(** What is read from its answer. *)
Definition read_answer (ticket : CapabilityTicketDocument) (secret : bytes) (responseText : jsstr) : result JoinBootstrap :=
  throw_if (Z.shiftl 8 20 <? zlen (utf8_encode responseText)) "Peer Space join rejected" ;;;
  match JSON_parse responseText with
  | Throw _ => rejected
  | Ok wire =>
      let* plaintext := openJoin secret (t_invite_id ticket) D_response wire in
      throw_if (Z.shiftl 4 20 <? zlen plaintext) "Peer Space join rejected" ;;;
      match decodeFatal plaintext with
      | None => rejected
      | Some text =>
          match JSON_parse text with
          | Throw _ => rejected
          | Ok decoded => strictBootstrap decoded
          end
      end
  end.

(** The documents of the answer, and the state they make. [clock] continues at
    2: the preview and the request have read the time before. *)
Definition accept_bootstrap (self : PeerIdentity) (bundle : VerifiedConnectionBundle) (ticket : CapabilityTicketDocument)
    (bootstrap : JoinBootstrap) (clock : nat -> Z) : result PeerClientState :=
  throw_if (negb (bool_decide (b_genesis bootstrap = gen_token (vb_genesis bundle)))) "Peer Space join rejected" ;;;
  let* local := verifyMembershipForPeer (b_membership bootstrap) (vb_genesis bundle) (peerId self) (Some (clock 2%nat)) in
  throw_if (negb (membership_offered self local ticket)) "Peer Space join rejected" ;;;
  let membershipTokens := firsts (b_memberships bootstrap ++ [b_membership bootstrap]) in
  let revocations := default [] (b_revocations bootstrap) in
  let* active := activeMemberships membershipTokens revocations (vb_genesis bundle) (Some (clock 3%nat)) in
  throw_if (negb (has_token (b_membership bootstrap) active)) "Peer Space join rejected" ;;;
  let* reconnect := verifyConnectionBundle (b_connection_bundle bootstrap) (Some (clock 4%nat)) in
  throw_if (bool_decide (vb_ticket reconnect <> None)
            || negb (bool_decide (gen_hash (vb_genesis reconnect) = gen_hash (vb_genesis bundle)))
            || negb (has_token (vg_token (vb_issuer reconnect)) active)) "Peer Space join rejected" ;;;
  Ok (mkClientState (b_genesis bootstrap) (b_membership bootstrap) membershipTokens revocations
        (b_epoch_rotations bootstrap) (b_epoch_envelopes bootstrap) (vb_token reconnect) (clock 5%nat / 1000) false).

Definition joinPeerSpace (self : PeerIdentity) (raw expectedFingerprint : jsstr) (joinNonce sealNonce : bytes)
    (clock : nat -> Z) (fetch : jsstr -> jsstr -> result (bool * jsstr)) : result PeerClientState :=
  let* previewed := previewPeerConnection raw (clock 0%nat) in
  let '(bundle, preview) := previewed in
  match vb_ticket bundle with
  | None => Throw "Peer Space fingerprint confirmation does not match"
  | Some ticket =>
      throw_if (negb (bool_decide (trim expectedFingerprint = pv_fingerprint preview)))
        "Peer Space fingerprint confirmation does not match" ;;;
      let* secret := base64URLToBytes (t_pairing_secret ticket) in
      let* body := join_body self bundle ticket secret joinNonce sealNonce (clock 1%nat) in
      let* endpoint := connectionEndpoint bundle (js "/peer/v1/join") in
      let* response := fetch endpoint body in
      throw_if (negb (fst response)) "Peer Space join rejected" ;;;
      let* bootstrap := read_answer ticket secret (snd response) in
      accept_bootstrap self bundle ticket bootstrap clock
  end.

(** ** Using the state *)

Record PeerContext := mkContext {
  c_identity : PeerIdentity;
  c_state : PeerClientState;
  c_genesis : VerifiedGenesis;
  c_localMembership : VerifiedGrant;
  c_hostMembership : VerifiedGrant;
  c_routeURL : jsstr;
}.

Definition find_token (token : option jsstr) (active : list VerifiedGrant) : option VerifiedGrant :=
  List.find (fun grant => bool_decide (Some (vg_token grant) = token)) active.

Definition loadPeerContext (self : PeerIdentity) (state : PeerClientState) (clock : nat -> Z) : result PeerContext :=
  let* bundle := verifyConnectionBundle (st_route_bundle state) (Some (clock 0%nat)) in
  let* genesis := verifyGenesis (st_genesis state) in
  throw_if (negb (bool_decide (gen_hash genesis = gen_hash (vb_genesis bundle))))
    "peer transport: route belongs to another Peer Space" ;;;
  let* active := activeMemberships (st_memberships state) (st_revocations state) genesis (Some (clock 1%nat)) in
  match find_token (Some (st_membership state)) active with
  | None => Throw "peer transport: local membership mismatch"
  | Some local =>
      throw_if (negb (bool_decide (subject_peer_id (vg_document local) = peerId self)))
        "peer transport: local membership mismatch" ;;;
      match find_token (as_string (vb_issuer_membership bundle)) active with
      | None => Throw "peer transport: host membership is inactive"
      | Some host => Ok (mkContext self state genesis local host (route_url (vb_route bundle)))
      end
  end.

Definition peerClientStatus (self : PeerIdentity) (state : option PeerClientState) (clock : nat -> Z) : result PeerSpaceStatus :=
  match state with
  | None => Ok NotConfigured
  | Some state =>
      let* genesis := verifyGenesis (st_genesis state) in
      let* _ := verifyMembershipForPeer (st_membership state) genesis (peerId self) (Some (clock 0%nat)) in
      let* active := activeMemberships (st_memberships state) (st_revocations state) genesis (Some (clock 1%nat)) in
      throw_if (negb (has_token (st_membership state) active)) "Peer Space membership is no longer active" ;;;
      Ok (Configured (peerId self) (space_id (gen_document genesis)) (gen_hash genesis) (st_joined_at state))
  end.

Definition peerClientMembers (state : PeerClientState) (now : Z) : result (list PeerMember) :=
  let* genesis := verifyGenesis (st_genesis state) in
  let* grants := activeMemberships (st_memberships state) (st_revocations state) genesis (Some now) in
  Ok (map (fun grant =>
        let d := vg_document grant in
        mkMember (subject_peer_id d) (serial d) (issuer_peer_id d) (permission d) (allowed_session_ids d) (can_invite d)
          (can_sync_secrets d) (issued_at d) (expires_at d) (bool_decide (vg_token grant = st_membership state))) grants).

(** ** The stored state *)

Definition state_json (s : PeerClientState) : Json :=
  let texts l := JArr (map JStr l) in
  JObj [(js "v", jint 1); (js "genesis", JStr (st_genesis s)); (js "membership", JStr (st_membership s));
        (js "memberships", texts (st_memberships s)); (js "revocations", texts (st_revocations s));
        (js "epoch_rotations", texts (st_epoch_rotations s)); (js "epoch_envelopes", texts (st_epoch_envelopes s));
        (js "route_bundle", JStr (st_route_bundle s)); (js "joined_at", jint (st_joined_at s));
        (js "fallback_consent", JBool (st_fallback_consent s))].

(** [validStoredState]; reading a property of [null] throws. *)
Definition validStoredState (state : Json) : result bool :=
  match state with
  | JNull => Throw null_access
  | JObj record =>
      let f k := field record k in
      Ok (is_number (f "v") 1 && is_string (f "genesis") && is_string (f "membership") && is_string (f "route_bundle")
          && is_safe_integer (f "joined_at") && (0 <? int_of (f "joined_at")) && is_boolean (f "fallback_consent")
          && forallb is_text_array [f "memberships"; f "revocations"; f "epoch_rotations"; f "epoch_envelopes"])
  | _ => Ok false
  end.

Definition read_state (state : Json) : PeerClientState :=
  match state with
  | JObj record =>
      let f k := field record k in
      mkClientState (text_of (f "genesis")) (text_of (f "membership")) (texts_of (f "memberships"))
        (texts_of (f "revocations")) (texts_of (f "epoch_rotations")) (texts_of (f "epoch_envelopes"))
        (text_of (f "route_bundle")) (int_of (f "joined_at")) (truthy (f "fallback_consent"))
  | _ => mkClientState [] [] [] [] [] [] [] 0 false
  end.

(** The three methods of a store, over the storage of the platform. *)
Definition store_load (storage : list (jsstr * jsstr)) (key : jsstr) : result (option PeerClientState) :=
  match map_get storage key with
  | None | Some [] => Ok None
  | Some raw =>
      let* parsed := JSON_parse raw in
      let* valid := validStoredState parsed in
      throw_if (negb valid) "peer client state is invalid" ;;;
      Ok (Some (read_state parsed))
  end.

Definition store_save (storage : list (jsstr * jsstr)) (key : jsstr) (state : PeerClientState) : list (jsstr * jsstr) :=
  map_set storage key (JSON_stringify (state_json state)).

Definition store_clear (storage : list (jsstr * jsstr)) (key : jsstr) : list (jsstr * jsstr) := map_delete storage key.

(** The bytes that the host's implementation is compared with. *)
Definition joinEnvelopeVector (secret : bytes) (inviteId : jsstr) (plaintext : bytes) : result bytes :=
  concatBytes [joinKey secret inviteId D_request; joinAAD inviteId D_request; plaintext].
End State.
