(* ===== verification/PeerStateProps.v ===== *)
(** * Joining a space: what the resulting state stands for

    A join ends in a state that the transports can start from, that belongs to
    the space whose fingerprint was confirmed, and that gives the device the
    rights its ticket offered. The stored state is read back as it was. *)

From Stdlib Require Import QArith.
From S2P Require Import Prelude Bytes JsString Base64Url JsMap Json JsonText DirectCrypto PeerIdentity PeerJoin PeerDocuments.
From S2P Require Import PeerTrust PeerMembers PeerState.
#[local] Open Scope Z_scope.

(** ** Trimmed texts *)

Lemma trim_start_keep (a : jsstr) c s :
  is_space c = false -> trim_start (a ++ [c] ++ s) = trim_start (a ++ [c]) ++ s.
Proof.
  intros Hc. induction a as [|x a IH]; cbn; [by rewrite Hc|]. destruct (is_space x); [exact IH|].
  cbn. by rewrite <- app_assoc.
Qed.

Lemma trim_start_idem s : trim_start (trim_start s) = trim_start s.
Proof. induction s as [|c s IH]; [done|]. cbn. destruct (is_space c) eqn:E; [done|]. cbn. by rewrite E. Qed.

Lemma trim_start_head s c r : trim_start s = c :: r -> is_space c = false.
Proof. induction s as [|x s IH]; [done|]. cbn. destruct (is_space x) eqn:E; [done|]. by intros [= -> _]. Qed.

Lemma trim_start_suffix s : exists a, s = a ++ trim_start s.
Proof.
  induction s as [|c s [a IH]]; [by exists []|]. cbn. destruct (is_space c); [exists (c :: a)|by exists []].
  cbn. by f_equal.
Qed.

Lemma trim_end_prefix s : exists b, s = trim_end s ++ b.
Proof.
  destruct (trim_start_suffix (rev s)) as [a E]. exists (rev a). unfold trim_end.
  rewrite <- rev_app_distr, <- E. by rewrite rev_involutive.
Qed.

Lemma trim_end_idem s : trim_end (trim_end s) = trim_end s.
Proof. unfold trim_end. by rewrite rev_involutive, trim_start_idem. Qed.

Lemma trim_idem s : trim (trim s) = trim s.
Proof.
  unfold trim. assert (E : trim_start (trim_end (trim_start s)) = trim_end (trim_start s)); [|by rewrite E, trim_end_idem].
  destruct (trim_end_prefix (trim_start s)) as [b Hb]. destruct (trim_end (trim_start s)) as [|c r]; [done|].
  cbn. by rewrite (trim_start_head s c (r ++ b)).
Qed.

(** Trimming keeps what starts and ends without a space. *)
Lemma trim_keep x p c s :
  is_space x = false -> is_space c = false -> exists s', trim ((x :: p) ++ [c] ++ s) = (x :: p) ++ [c] ++ s'.
Proof.
  intros Hx Hc. unfold trim. cbn [app trim_start]. rewrite Hx. unfold trim_end.
  change (x :: p ++ c :: s) with ((x :: p) ++ [c] ++ s). rewrite !rev_app_distr, <- app_assoc.
  change (rev [c]) with [c]. rewrite trim_start_keep by done.
  assert (E : exists r, trim_start (rev s ++ [c]) = r ++ [c]).
  { clear -Hc. induction (rev s) as [|y l IH]; cbn; [rewrite Hc; by exists []|].
    destruct (is_space y); [done|]. by exists (y :: l). }
  destruct E as [r ->]. exists (rev r). rewrite !rev_app_distr, rev_involutive. done.
Qed.

Lemma starts_with_app p s : starts_with p s = true <-> exists r, s = p ++ r.
Proof.
  revert s. induction p as [|x p IH]; intros s; [split; [by exists s|done]|]. destruct s as [|y s]; cbn.
  - split; [done|]. by intros [r [=]].
  - rewrite andb_true_iff, Z.eqb_eq, IH. split; [intros [-> [r ->]]; by exists r|]. intros [r [= -> ->]]. split; [done|by exists r].
Qed.

(** ** Documents read twice *)

Section Props.
Context `{Crypto} `{PeerCrypto} `{JsText} `{Platform} `{UrlText}.

(** The token of a bundle is its own text. *)
Lemma bundle_token_own raw t : bundle_token raw = Ok t -> bundle_token t = Ok t.
Proof.
  unfold bundle_token. cbv zeta. destruct (starts_with (js "atc1.") (trim raw)) eqn:E.
  - intros [= <-]. by rewrite trim_idem, E.
  - destruct (new_URL (trim raw)) as [u|]; [|done]. destruct (_ || _) eqn:Hg; [done|]. intros [= <-].
    apply orb_false_iff in Hg as [_ Hh]. apply negb_false_iff, starts_with_app in Hh as [r Hr]. rewrite Hr.
    change (drop 1 (js "#atc1." ++ r)) with ((97 :: js "tc1") ++ [46] ++ r).
    destruct (trim_keep 97 (js "tc1") 46 r eq_refl eq_refl) as [s' Es].
    rewrite trim_idem, Es. change ((97 :: js "tc1") ++ [46] ++ s') with (js "atc1." ++ s').
    assert (Hs : starts_with (js "atc1.") (js "atc1." ++ s') = true) by (apply starts_with_app; by exists s').
    by rewrite Hs.
Qed.

Lemma verifyGenesis_token t g : verifyGenesis t = Ok g -> gen_token g = t.
Proof.
  unfold verifyGenesis. intros E. apply rbind_ok in E as ([[raw sg] doc] & _ & E). apply rbind_ok in E as (? & _ & E).
  destruct (_ || _); [done|]. apply rbind_ok in E as (pk & _ & E). apply rbind_ok in E as (id & _ & E).
  destruct (negb _); [done|]. apply rbind_ok in E as (? & _ & E). by apply Ok_inj in E as <-.
Qed.

(** What an accepted bundle holds. *)
Lemma verifyConnectionBundle_inv raw now b :
  verifyConnectionBundle raw now = Ok b ->
  verifyConnectionBundle (vb_token b) now = Ok b /\ verifyGenesis (gen_token (vb_genesis b)) = Ok (vb_genesis b) /\
  vb_issuer_membership b = Some (JStr (vg_token (vb_issuer b))) /\
  verifyGrant (vg_token (vb_issuer b)) (vb_genesis b) now = Ok (vb_issuer b).
Proof.
  intros E. assert (E0 := E). unfold verifyConnectionBundle in E. apply rbind_ok in E as (t & Et & E).
  assert (Hagain : forall b', verifyConnectionBundle raw now = Ok b' -> vb_token b' = t -> verifyConnectionBundle t now = Ok b').
  { intros b' Hb _. unfold verifyConnectionBundle in Hb |- *. rewrite Et in Hb. by rewrite (bundle_token_own _ _ Et). }
  apply rbind_ok in E as ([[bytes sg] doc] & _ & E). apply rbind_ok in E as (? & _ & E).
  apply rbind_ok in E as (gt & Egt & E). apply rbind_ok in E as (g & Eg & E).
  apply rbind_ok in E as (mt & Em & E). apply rbind_ok in E as (issuer & Ei & E).
  apply rbind_ok in E as (ticket & _ & E). cbv zeta in E. destruct (_ || _) in E; [done|].
  destruct (field doc "routes") as [[| | | |l|]|]; try done. destruct (_ || _) in E; [done|].
  apply rbind_ok in E as (routes & _ & E). apply rbind_ok in E as (? & _ & E).
  destruct (client_route routes) as [route|]; [|done]. apply Ok_inj in E. subst b.
  cbn [vb_token vb_genesis vb_issuer vb_issuer_membership] in *. split; [by apply Hagain|].
  split; [by rewrite (verifyGenesis_token _ _ Eg)|]. apply text_arg_inv in Em.
  destruct (verifyGrant_at_linked 9 g now mt issuer Ei) as [-> _]. done.
Qed.

(** ** Members found again *)

Lemma active_granted genesis now tokens revs ms g :
  activeMemberships tokens revs genesis now = Ok ms -> g ∈ ms -> verifyGrant (vg_token g) genesis now = Ok g.
Proof.
  intros E Hg. apply activeMemberships_ok in E as (grants & rs & Hv & Hr & _ & _ & ->).
  apply (members_of_in genesis now tokens revs grants rs g) in Hg as [(t & _ & Et) _]; [|done..].
  destruct (verifyGrant_at_linked 9 genesis now t g Et) as [-> _]. done.
Qed.

Lemma find_token_has token active :
  has_token token active = true -> exists g, find_token (Some token) active = Some g /\ g ∈ active /\ vg_token g = token.
Proof.
  unfold has_token, find_token. rewrite existsb_exists. intros (x & Hx & Ex). apply bool_decide_eq_true in Ex.
  destruct (List.find _ active) as [g|] eqn:E.
  - exists g. apply find_some in E as [Hg Eg]. apply bool_decide_eq_true in Eg. split; [done|].
    split; [by apply list_elem_of_In|congruence].
  - exfalso. apply (find_none _ _ E) in Hx. apply bool_decide_eq_false in Hx. congruence.
Qed.

(** A member whose token is verified is the one that is found. *)
Lemma find_token_member genesis now tokens revs active token g :
  activeMemberships tokens revs genesis now = Ok active -> has_token token active = true ->
  verifyGrant token genesis now = Ok g -> find_token (Some token) active = Some g.
Proof.
  intros Ha Hh Eg. destruct (find_token_has _ _ Hh) as (x & Ex & Hx & <-).
  pose proof (active_granted _ _ _ _ _ _ Ha Hx) as E. congruence.
Qed.

(** ** The answer that becomes the state *)

Lemma verifyMembershipForPeer_inv token genesis id now g :
  verifyMembershipForPeer token genesis id now = Ok g ->
  verifyGrant token genesis now = Ok g /\ subject_peer_id (vg_document g) = id.
Proof.
  unfold verifyMembershipForPeer. intros E. apply rbind_ok in E as (x & Ex & E).
  destruct (bool_decide _) eqn:Hb; [|done]. apply bool_decide_eq_true in Hb. apply Ok_inj in E as <-. done.
Qed.

Record accepted (self : PeerIdentity) (bundle : VerifiedConnectionBundle) (ticket : CapabilityTicketDocument)
    (clock : nat -> Z) (st : PeerClientState) (local : VerifiedGrant) (active : list VerifiedGrant)
    (reconnect : VerifiedConnectionBundle) : Prop := {
  ac_genesis : st_genesis st = gen_token (vb_genesis bundle);
  ac_local : verifyGrant (st_membership st) (vb_genesis bundle) (Some (clock 2%nat)) = Ok local;
  ac_self : subject_peer_id (vg_document local) = peerId self;
  ac_offered : membership_offered self local ticket = true;
  ac_active : activeMemberships (st_memberships st) (st_revocations st) (vb_genesis bundle) (Some (clock 3%nat)) = Ok active;
  ac_member : has_token (st_membership st) active = true;
  ac_reconnect : exists raw, verifyConnectionBundle raw (Some (clock 4%nat)) = Ok reconnect;
  ac_route : st_route_bundle st = vb_token reconnect;
  ac_ticketless : vb_ticket reconnect = None;
  ac_space : gen_hash (vb_genesis reconnect) = gen_hash (vb_genesis bundle);
  ac_host : has_token (vg_token (vb_issuer reconnect)) active = true;
  ac_joined : st_joined_at st = clock 5%nat / 1000;
  ac_consent : st_fallback_consent st = false;
}.

Lemma accept_bootstrap_inv self bundle ticket bootstrap clock st :
  accept_bootstrap self bundle ticket bootstrap clock = Ok st ->
  exists local active reconnect, accepted self bundle ticket clock st local active reconnect.
Proof.
  unfold accept_bootstrap. intros E. destruct (bool_decide _) eqn:Hg in E; [|done]. apply bool_decide_eq_true in Hg.
  cbn [negb] in E. apply rbind_ok in E as (local & El & E). destruct (membership_offered _ _ _) eqn:Ho; [|done]. cbn [negb] in E.
  apply rbind_ok in E as (active & Ea & E). destruct (has_token (b_membership bootstrap) active) eqn:Hm; [|done]. cbn [negb] in E.
  apply rbind_ok in E as (reconnect & Er & E). destruct (_ || _) eqn:Hc in E; [done|]. apply Ok_inj in E as <-.
  rewrite !orb_false_iff, !negb_false_iff in Hc. destruct Hc as [[Ht Hh] Hi]. apply bool_decide_eq_true in Hh.
  apply bool_decide_eq_false in Ht. destruct (verifyMembershipForPeer_inv _ _ _ _ _ El) as [Hl Hs].
  exists local, active, reconnect. split; cbn [st_genesis st_membership st_memberships st_revocations st_route_bundle st_joined_at st_fallback_consent];
    try done; [by exists (b_connection_bundle bootstrap)|]. destruct (vb_ticket reconnect); [|done]. by destruct Ht.
Qed.

(** What a successful join went through. *)
Record joined (self : PeerIdentity) (raw expected : jsstr) (joinNonce sealNonce : bytes) (clock : nat -> Z)
    (fetch : jsstr -> jsstr -> result (bool * jsstr)) (bundle : VerifiedConnectionBundle)
    (ticket : CapabilityTicketDocument) (bootstrap : JoinBootstrap) : Prop := {
  jn_bundle : verifyConnectionBundle raw (Some (clock 0%nat)) = Ok bundle;
  jn_ticket : vb_ticket bundle = Some ticket;
  jn_confirmed : trim expected = fingerprint (vb_genesis bundle);
  jn_answer : exists secret body endpoint text wire plaintext,
    base64URLToBytes (t_pairing_secret ticket) = Ok secret /\
    join_body self bundle ticket secret joinNonce sealNonce (clock 1%nat) = Ok body /\
    connectionEndpoint bundle (js "/peer/v1/join") = Ok endpoint /\ fetch endpoint body = Ok (true, text) /\
    JSON_parse text = Ok wire /\ openJoin secret (t_invite_id ticket) D_response wire = Ok plaintext /\
    exists decoded, decodeFatal plaintext = Some decoded /\
      exists value, JSON_parse decoded = Ok value /\ strictBootstrap value = Ok bootstrap;
}.

Lemma read_answer_inv ticket secret text bootstrap :
  read_answer ticket secret text = Ok bootstrap ->
  exists wire plaintext, JSON_parse text = Ok wire /\ openJoin secret (t_invite_id ticket) D_response wire = Ok plaintext /\
    exists decoded, decodeFatal plaintext = Some decoded /\
      exists value, JSON_parse decoded = Ok value /\ strictBootstrap value = Ok bootstrap.
Proof.
  unfold read_answer. destruct (_ <? _); [done|]. destruct (JSON_parse text) as [wire|]; [|done]. intros E.
  apply rbind_ok in E as (plaintext & Eo & E). destruct (_ <? _); [done|].
  destruct (decodeFatal plaintext) as [decoded|] eqn:Ed; [|done].
  destruct (JSON_parse decoded) as [value|] eqn:Ep; [|done].
  exists wire, plaintext. split; [done|]. split; [done|]. exists decoded. split; [done|]. by exists value.
Qed.

Lemma joinPeerSpace_inv self raw expected joinNonce sealNonce clock fetch st :
  joinPeerSpace self raw expected joinNonce sealNonce clock fetch = Ok st ->
  exists bundle ticket bootstrap,
    joined self raw expected joinNonce sealNonce clock fetch bundle ticket bootstrap /\
    accept_bootstrap self bundle ticket bootstrap clock = Ok st.
Proof.
  unfold joinPeerSpace, previewPeerConnection. intros E. apply rbind_ok in E as ([bundle preview] & Ep & E).
  apply rbind_ok in Ep as (b & Eb & Ep). destruct (vb_ticket b) as [ticket|] eqn:Et; [|done].
  apply Ok_inj in Ep. injection Ep as -> <-. rewrite Et in E. cbn [pv_fingerprint] in E.
  destruct (bool_decide _) eqn:Hf in E; [|done]. apply bool_decide_eq_true in Hf. cbn [negb] in E.
  apply rbind_ok in E as (secret & Es & E). apply rbind_ok in E as (body & Ebody & E).
  apply rbind_ok in E as (endpoint & Eend & E). apply rbind_ok in E as ([ok text] & Efetch & E).
  destruct ok; [|done]. cbn [negb fst snd] in E. apply rbind_ok in E as (bootstrap & Er & E).
  exists bundle, ticket, bootstrap. split; [|done]. split; try done.
  destruct (read_answer_inv _ _ _ _ Er) as (wire & plaintext & ? & ? & ?).
  exists secret, body, endpoint, text, wire, plaintext. by split_and!.
Qed.

(** ** Theorems *)

(** C27. A join ends in a state that can be used: at the time of the join the
    transports accept it, with the space whose fingerprint the user confirmed,
    with a membership of this device for its own keys, and with an active
    membership of the host whose route they will use. *)
Theorem joined_state_usable (self : PeerIdentity) (raw expected : jsstr) (joinNonce sealNonce : bytes) (now : Z)
    (fetch : jsstr -> jsstr -> result (bool * jsstr)) (st : PeerClientState)
    (Hjoin : joinPeerSpace self raw expected joinNonce sealNonce (fun _ => now) fetch = Ok st) :
  exists context,
    loadPeerContext self st (fun _ => now) = Ok context /\
    c_state context = st /\ fingerprint (c_genesis context) = trim expected /\
    vg_token (c_localMembership context) = st_membership st /\
    subject_public_key (vg_document (c_localMembership context)) = bytesToBase64URL (publicKey self) /\
    peerClientStatus self (Some st) (fun _ => now)
    = Ok (Configured (peerId self) (space_id (gen_document (c_genesis context))) (gen_hash (c_genesis context)) (now / 1000)).
Proof.
  destruct (joinPeerSpace_inv _ _ _ _ _ _ _ _ Hjoin) as (bundle & ticket & bootstrap & Hj & Ha).
  destruct (accept_bootstrap_inv _ _ _ _ _ _ Ha) as (local & active & reconnect & A). destruct A, Hj. cbn beta in *.
  destruct (verifyConnectionBundle_inv _ _ _ jn_bundle0) as (_ & Hg & _).
  destruct ac_reconnect0 as [rawr Er]. destruct (verifyConnectionBundle_inv _ _ _ Er) as (Er' & _ & Hm & Hi).
  pose proof (find_token_member _ _ _ _ _ _ _ ac_active0 ac_member0 ac_local0) as Hl.
  destruct (find_token_has _ _ ac_host0) as (host & Hh & _).
  exists (mkContext self st (vb_genesis bundle) local host (route_url (vb_route reconnect))).
  split; [|split; [done|]].
  - unfold loadPeerContext. rewrite ac_route0, Er'. cbn [rbind]. rewrite ac_genesis0, Hg. cbn [rbind].
    rewrite bool_decide_true by done. cbn [negb]. rewrite ac_active0. cbn [rbind]. rewrite Hl.
    rewrite bool_decide_true by done. cbn [negb]. rewrite Hm. cbn [as_string]. by rewrite Hh.
  - cbn [c_genesis c_localMembership]. split; [done|]. destruct (verifyGrant_at_linked 9 _ _ _ _ ac_local0) as [Ht _].
    split; [done|]. unfold membership_offered in ac_offered0. rewrite !andb_true_iff in ac_offered0.
    destruct ac_offered0 as [[[[[[Hk _] _] _] _] _] _]. apply bool_decide_eq_true in Hk. split; [done|].
    unfold peerClientStatus, verifyMembershipForPeer. rewrite ac_genesis0, Hg. cbn [rbind]. rewrite ac_local0. cbn [rbind].
    rewrite bool_decide_true by done. cbn [negb rbind]. rewrite ac_active0. cbn [rbind]. rewrite ac_member0. cbn [negb].
    by rewrite ac_joined0.
Qed.

(** A join gives what was offered and confirmed, and nothing else: its
    answer was sealed with the pairing secret of the ticket, the space is the
    one of the confirmed fingerprint, and the membership in the state is for
    this device's peer id and keys, issued by the issuer of the ticket with its
    permission, its session scope and its rights; the tunnel is used only after
    a later consent. *)
Theorem join_grants_offered (self : PeerIdentity) (raw expected : jsstr) (joinNonce sealNonce : bytes) (clock : nat -> Z)
    (fetch : jsstr -> jsstr -> result (bool * jsstr)) (st : PeerClientState)
    (Hkeys : bytes_ok (publicKey self) /\ bytes_ok (wrappingPublicKey self) /\ wrappingPublicKey self <> [])
    (Hjoin : joinPeerSpace self raw expected joinNonce sealNonce clock fetch = Ok st) :
  exists bundle ticket bootstrap local,
    joined self raw expected joinNonce sealNonce clock fetch bundle ticket bootstrap /\
    st_genesis st = gen_token (vb_genesis bundle) /\
    verifyGrant (st_membership st) (vb_genesis bundle) (Some (clock 2%nat)) = Ok local /\
    subject_peer_id (vg_document local) = peerId self /\
    vg_publicKey local = publicKey self /\ vg_wrappingPublicKey local = wrappingPublicKey self /\
    issuer_peer_id (vg_document local) = t_issuer_peer_id ticket /\
    permission (vg_document local) = t_permission ticket /\
    JSON_stringify (JArr (map JStr (allowed_session_ids (vg_document local))))
    = JSON_stringify (JArr (map JStr (t_allowed_session_ids ticket))) /\
    t_can_invite ticket = Some (JBool (can_invite (vg_document local))) /\
    t_can_sync_secrets ticket = Some (JBool (can_sync_secrets (vg_document local))) /\
    st_fallback_consent st = false.
Proof.
  destruct (joinPeerSpace_inv _ _ _ _ _ _ _ _ Hjoin) as (bundle & ticket & bootstrap & Hj & Ha).
  destruct (accept_bootstrap_inv _ _ _ _ _ _ Ha) as (local & active & reconnect & A). destruct A.
  exists bundle, ticket, bootstrap, local. split; [done|]. do 3 (split; [done|]).
  unfold membership_offered in ac_offered0. rewrite !andb_true_iff in ac_offered0.
  destruct ac_offered0 as [[[[[[Hk Hw] Hi] Hp] Hs] Hv] Hy]. apply bool_decide_eq_true in Hk, Hw, Hi, Hp, Hs.
  destruct (verifyGrant_at_linked 9 _ _ _ _ ac_local0) as (_ & anc & _ & Hl).
  assert (Hsays : exists g key, signed_by g key local) by (destruct anc; do 2 eexists; apply Hl).
  destruct Hsays as (g & key & raw' & sg & doc & _ & Hsays & _).
  destruct (gs_key _ _ _ _ _ Hsays) as [_ Ek]. destruct (gs_wrapping _ _ _ _ _ Hsays) as (_ & Ew & _).
  destruct Hkeys as (B1 & B2 & B3). rewrite Hk in Ek. rewrite Hw in Ew.
  assert (Hpk : publicKey self <> []) by (intros E; by rewrite E in Ek).
  rewrite base64URL_roundtrip in Ek, Ew by done. apply Ok_inj in Ek, Ew.
  split; [done|]. split; [done|]. do 3 (split; [done|]).
  assert (Hbool : forall b j, strict_equal (Some (JBool b)) j = true -> j = Some (JBool b)).
  { intros b [[| b'| | | |]|]; try done. cbn. intros ->%eqb_prop. done. }
  split; [by apply Hbool|]. split; [by apply Hbool|]. done.
Qed.

(** ** The store *)

Lemma texts_of_map l : texts_of (Some (JArr (map JStr l))) = l.
Proof. unfold texts_of. rewrite map_map. cbn. unfold text_of. cbn. by rewrite map_id. Qed.

Lemma is_text_array_map l : is_text_array (Some (JArr (map JStr l))) = true.
Proof. cbn [is_text_array]. by induction l. Qed.

Lemma state_json_valid s :
  0 < st_joined_at s <= MAX_SAFE_INTEGER ->
  validStoredState (state_json s) = Ok true /\ read_state (state_json s) = s.
Proof.
  intros Hj. unfold state_json. set (record := [_; _; _; _; _; _; _; _; _; _]).
  assert (Hf : field record "joined_at" = Some (jint (st_joined_at s))) by reflexivity.
  cbn [validStoredState read_state].
  change (field record "v") with (Some (jint 1)). rewrite Hf.
  change (field record "genesis") with (Some (JStr (st_genesis s))).
  change (field record "membership") with (Some (JStr (st_membership s))).
  change (field record "memberships") with (Some (JArr (map JStr (st_memberships s)))).
  change (field record "revocations") with (Some (JArr (map JStr (st_revocations s)))).
  change (field record "epoch_rotations") with (Some (JArr (map JStr (st_epoch_rotations s)))).
  change (field record "epoch_envelopes") with (Some (JArr (map JStr (st_epoch_envelopes s)))).
  change (field record "route_bundle") with (Some (JStr (st_route_bundle s))).
  change (field record "fallback_consent") with (Some (JBool (st_fallback_consent s))).
  unfold is_safe_integer, int_of. rewrite safe_integer_jint by lia. undefault.
  cbn [forallb is_string is_boolean]. rewrite !is_text_array_map, !texts_of_map.
  rewrite (proj2 (Z.ltb_lt _ _)) by lia. rewrite bool_decide_true by done. split; [done|]. by destruct s.
Qed.

(** A saved state is loaded again as it was, by a store with the same key
    and no other; after [clear] there is none; and whatever the storage holds,
    a state is loaded only from a document with the declared fields. *)
Theorem state_store_roundtrip (storage : list (jsstr * jsstr)) (key : jsstr) (s : PeerClientState)
    (Hjoined : 0 < st_joined_at s <= MAX_SAFE_INTEGER)
    (Htext : JSON_parse (JSON_stringify (state_json s)) = Ok (state_json s))
    (Hsome : JSON_stringify (state_json s) <> []) (Hmap : map_ok storage) :
  store_load (store_save storage key s) key = Ok (Some s) /\
  (forall other, other <> key -> store_load (store_save storage key s) other = store_load storage other) /\
  store_load (store_clear storage key) key = Ok None /\
  (forall other, other <> key -> store_load (store_clear storage key) other = store_load storage other) /\
  (forall other st, store_load storage other = Ok (Some st) ->
     exists raw value, map_get storage other = Some raw /\ JSON_parse raw = Ok value /\
       validStoredState value = Ok true /\ st = read_state value).
Proof.
  unfold store_load, store_save, store_clear. destruct (state_json_valid s Hjoined) as [Hv Hr].
  split; [|split; [|split; [|split]]].
  - rewrite map_get_set, bool_decide_true by done. destruct (JSON_stringify (state_json s)) as [|c t] eqn:E; [done|].
    rewrite Htext. cbn [rbind]. rewrite Hv. cbn [rbind negb]. by rewrite Hr.
  - intros other Hne. by rewrite map_get_set, bool_decide_false.
  - by rewrite map_get_delete, bool_decide_true.
  - intros other Hne. by rewrite map_get_delete, bool_decide_false.
  - intros other st E. destruct (map_get storage other) as [[|c t]|] eqn:Em; try done.
    apply rbind_ok in E as (value & Ep & E). apply rbind_ok in E as (valid & Ev & E). destruct valid; [|done].
    apply Ok_inj in E. injection E as <-. by exists (c :: t), value.
Qed.

(** A sealed message opens again, for the same invitation and direction. *)
Lemma join_envelope_roundtrip `{!CryptoLaws} secret inviteId direction random plaintext
    (Hrandom : bytes_ok random /\ zlen random = 24) (Hplain : bytes_ok plaintext) :
  openJoin secret inviteId direction (sealJoin secret inviteId direction random plaintext) = Ok plaintext.
Proof.
  destruct Hrandom as [Hr Hl]. unfold openJoin, sealJoin. set (c := xchacha_encrypt _ _ _ _).
  assert (Hc : zlen c = zlen plaintext + 16) by apply xchacha_length.
  assert (Hcb : bytes_ok c) by (by apply xchacha_bytes). pose proof (zlen_nonneg plaintext).
  assert (Hne : c <> []) by (intros E; rewrite E in Hc; change (0 = zlen plaintext + 16) in Hc; lia).
  assert (Hrne : random <> []) by (intros ->; done).
  set (fields := [_; _; _; _]).
  change (prop (JObj fields) "v") with (Ok (Some (jint 1))).
  change (prop (JObj fields) "invite_id") with (Ok (Some (JStr inviteId))).
  change (prop (JObj fields) "nonce") with (Ok (Some (JStr (bytesToBase64URL random)))).
  change (prop (JObj fields) "ciphertext") with (Ok (Some (JStr (bytesToBase64URL c)))).
  cbn [rbind]. unfold is_text. cbn [as_string]. rewrite bool_decide_true by done. cbn [negb orb is_number].
  change (Qeq_bool (inject_Z 1) (inject_Z 1)) with true. cbn [negb orb]. unfold bytes_arg, text_arg. cbn [as_string rbind].
  rewrite !base64URL_roundtrip by done. cbn [rbind]. rewrite Hl, (proj2 (Z.ltb_ge _ 16)) by lia. cbn [Z.eqb Pos.eqb negb orb].
  apply xchacha_roundtrip.
Qed.
End Props.

(** ** An example: a host, its bundle and its answer *)

#[export] Instance toy_url_text : UrlText := { URL_toString u := url_protocol u ++ js "//" ++ url_hostname u ++ url_pathname u }.

(** A platform that knows one address. *)
#[export] Instance tunnel_platform : Platform := {
  decodeFatal p := Some p;
  new_URL s :=
    if bool_decide (s = js "https://x.trycloudflare.com/")
    then Some (mkURL (js "https:") (js "x.trycloudflare.com") [] (js "/") [] [] [] []) else None;
  localeCompare a b := if string_lt a b then -1 else if bool_decide (a = b) then 0 else 1;
}.

Module JoinedToy.
Definition host_grant : jsstr := Space.grant 1 1 "a" "full" [] true 0 None.
Definition device_grant : jsstr := Space.grant 1 3 "b" "control" [] false 1 None.

Definition ticket : jsstr :=
  Space.signed "atp1" 1
    [(js "v", jint 1); (js "invite_id", JStr (Space.uuid "6")); (js "batch_id", JStr (Space.uuid "7"));
     (js "space_id", JStr (Space.uuid "0")); (js "redemption_peer_id", JStr (Space.peer 1));
     (js "space_genesis_hash", JStr (gen_hash Space.genesis)); (js "issuer_peer_id", JStr (Space.peer 1));
     (js "issuer_membership", JStr host_grant); (js "pairing_secret", JStr (bytesToBase64URL (zeros 32)));
     (js "issued_at", jint 300); (js "expires_at", jint 900); (js "max_uses", jint 1);
     (js "permission", JStr (js "control")); (js "allowed_session_ids", JArr []); (js "can_invite", JBool false);
     (js "can_sync_secrets", JBool false)].

Definition bundle (last : string) (extra : list (jsstr * Json)) : jsstr :=
  Space.signed "atc1" 1
    ([(js "v", jint 1); (js "bundle_id", JStr (Space.uuid last)); (js "genesis", JStr Space.genesis_token);
      (js "issuer_peer_id", JStr (Space.peer 1)); (js "issuer_membership", JStr host_grant);
      (js "routes", JArr [JObj [(js "kind", JStr (js "quick_tunnel")); (js "url", JStr (js "https://x.trycloudflare.com/"))]]);
      (js "created_at", jint 350); (js "expires_at", jint 800)] ++ extra).

Definition self : @PeerIdentity toy_peer_crypto :=
  mkPeerIdentity (Space.peer 3) (Space.key 3) (Space.key 3) (Space.key 3).

Definition bootstrap : Json :=
  JObj [(js "connection_bundle", JStr (bundle "8" [])); (js "epoch_envelopes", JArr []); (js "epoch_rotations", JArr []);
        (js "genesis", JStr Space.genesis_token); (js "membership", JStr device_grant);
        (js "memberships", JArr [JStr host_grant; JStr device_grant])].

Definition answer : jsstr := Eval vm_compute in
  JSON_stringify (sealJoin (zeros 32) (Space.uuid "6") D_response (zeros 24) (utf8_encode (JSON_stringify bootstrap))).

Definition raw : jsstr := Eval vm_compute in bundle "9" [(js "ticket", JStr ticket)].
Definition expected : jsstr := Eval vm_compute in js " " ++ fingerprint Space.genesis.
Definition fetch (endpoint body : jsstr) : result (bool * jsstr) :=
  if bool_decide (endpoint = js "https://x.trycloudflare.com/peer/v1/join") then Ok (true, answer) else Throw "TypeError".

Definition outcome : result PeerClientState :=
  joinPeerSpace self raw expected (zeros 32) (zeros 24) (fun _ => 400000) fetch.
Definition state_of (r : result PeerClientState) : PeerClientState :=
  match r with Ok s => s | Throw _ => mkClientState [] [] [] [] [] [] [] 0 false end.
Definition state : PeerClientState := Eval vm_compute in state_of outcome.

Lemma join_ok : joinPeerSpace self raw expected (zeros 32) (zeros 24) (fun _ => 400000) fetch = Ok state.
Proof. vm_compute. reflexivity. Qed.

Lemma keys_ok : bytes_ok (publicKey self) /\ bytes_ok (wrappingPublicKey self) /\ wrappingPublicKey self <> [].
Proof.
  split; [by apply (bool_decide_unpack (Forall _ _)); vm_compute|].
  split; [by apply (bool_decide_unpack (Forall _ _)); vm_compute|discriminate].
Qed.
End JoinedToy.

Lemma joined_state_usable_witness :
  exists context, loadPeerContext JoinedToy.self JoinedToy.state (fun _ => 400000) = Ok context /\
    vg_token (c_localMembership context) = st_membership JoinedToy.state.
Proof.
  destruct (joined_state_usable JoinedToy.self JoinedToy.raw JoinedToy.expected (zeros 32) (zeros 24) 400000 JoinedToy.fetch
    JoinedToy.state JoinedToy.join_ok) as (context & Hc & _ & _ & Ht & _).
  exists context. split; [exact Hc|exact Ht].
Defined.

Lemma join_grants_offered_witness :
  exists local genesis, verifyGrant (st_membership JoinedToy.state) genesis (Some 400000) = Ok local /\
    vg_publicKey local = publicKey JoinedToy.self /\ st_fallback_consent JoinedToy.state = false.
Proof.
  destruct (join_grants_offered JoinedToy.self JoinedToy.raw JoinedToy.expected (zeros 32) (zeros 24) (fun _ => 400000)
    JoinedToy.fetch JoinedToy.state JoinedToy.keys_ok JoinedToy.join_ok)
    as (bundle & ticket & bootstrap & local & _ & _ & Hl & _ & Hk & _ & _ & _ & _ & _ & _ & Hc).
  exists local, (vb_genesis bundle). split; [exact Hl|]. split; [exact Hk|exact Hc].
Defined.

Lemma state_store_roundtrip_witness :
  let s := mkClientState (js "g") (js "m") [js "m"] [] [] [] (js "atc1.x") 7 true in
  store_load (store_save [] (js "peer") s) (js "peer") = Ok (Some s).
Proof.
  cbv zeta. set (s := mkClientState (js "g") (js "m") [js "m"] [] [] [] (js "atc1.x") 7 true).
  assert (Hj : 0 < st_joined_at s <= MAX_SAFE_INTEGER) by (split; [reflexivity|discriminate]).
  assert (Ht : JSON_parse (JSON_stringify (state_json s)) = Ok (state_json s)) by (vm_compute; reflexivity).
  assert (Hn : JSON_stringify (state_json s) <> []) by discriminate.
  assert (Hm : map_ok ([] : list (jsstr * jsstr))) by constructor.
  destruct (state_store_roundtrip [] (js "peer") s Hj Ht Hn Hm) as [Hl _]. exact Hl.
Defined.
