(* ===== verification/PeerFragments.v ===== *)
(** * Fragments of peer signals and of control messages
      ([src/desktop/frontend/src/lib/peer/quickTunnelClient.ts])

    A signal or a control message that does not fit one record travels as
    fragments with a header of their own: a tag, the message, the name space,
    for a control message its kind, the offset and the total. The receiver
    collects the fragments of one message at a time, in order and within ten
    seconds. A method throws before it writes, except that the first fragment
    opens the collection; [now] is what [Date.now()] reads during the call. *)

From S2P Require Import Prelude Bytes JsString DirectCrypto PeerDocuments.

Definition SIGNAL_LIMIT : Z := Z.shiftl 64 10.
Definition CONFIG_LIMIT : Z := Z.shiftl 16 20.
Definition FRAGMENT_TIMEOUT_MS : Z := 10000.

Definition SIGNAL_TAG : bytes := utf8_encode (js "ASF1").
Definition CONFIG_TAG : bytes := utf8_encode (js "ACF1").
Definition SIGNAL_NAMESPACE : Z := 0xfffffffe.
Definition CONFIG_NAMESPACE : Z := 0xffffffff.

(** ** Cutting *)

(** One record of [fragmentPeerSignal], and one of [configFragment]. *)
Definition signal_record (messageId : Z) (payload : bytes) (offset end_ : Z) : result bytes :=
  let* out := set_range (zeros (24 + end_ - offset)) SIGNAL_TAG 0 in
  let* out := setUint 8 out 4 messageId in
  let* out := setUint 4 out 12 SIGNAL_NAMESPACE in
  let* out := setUint 4 out 16 offset in
  let* out := setUint 4 out 20 (zlen payload) in
  set_range out (slice payload offset end_) 24.

Definition config_record (kind messageId : Z) (payload : bytes) (offset end_ : Z) : result bytes :=
  let* out := set_range (zeros (25 + end_ - offset)) CONFIG_TAG 0 in
  let* out := setUint 8 out 4 messageId in
  let* out := setUint 4 out 12 CONFIG_NAMESPACE in
  let out := set_idx out 16 kind in
  let* out := setUint 4 out 17 offset in
  let* out := setUint 4 out 21 (zlen payload) in
  set_range out (slice payload offset end_) 25.

(** The loop of both; [fuel] bounds the iterations. *)
Fixpoint cut_records (fuel : nat) (record : Z -> Z -> result bytes) (chunkSize : Z) (payload : bytes) (offset : Z)
    (records : list bytes) : result (list bytes) :=
  if offset <? zlen payload then
    match fuel with
    | O => Throw "out of fuel"
    | S fuel' =>
        let* out := record offset (Z.min (zlen payload) (offset + chunkSize)) in
        cut_records fuel' record chunkSize payload (offset + chunkSize) (records ++ [out])
    end
  else Ok records.

Definition fragmentPeerSignal (messageId : Z) (payload : bytes) : result (list bytes) :=
  throw_if ((zlen payload <=? MAX_DIRECT_RECORD_PLAINTEXT) || (SIGNAL_LIMIT <? zlen payload))
    "peer transport: signal fragmentation bounds" ;;;
  cut_records (length payload) (signal_record messageId payload) (MAX_DIRECT_RECORD_PLAINTEXT - 24) payload 0 [].

Definition configFragment (kind messageId : Z) (payload : bytes) : result (list bytes) :=
  cut_records (length payload) (config_record kind messageId payload) (MAX_DIRECT_RECORD_PLAINTEXT - 25) payload 0 [].

(** ** Collecting *)

(** The object in [signalFragment] and in [configFragment]; a signal has no
    kind, and 0 stands there. *)
Record Collection := mkCollection {
  col_id : Z;
  col_kind : Z;
  col_total : Z;
  col_next : Z;
  col_startedAt : Z;
  col_buffer : bytes;
}.

(** The fields of a fragment. *)
Record Piece := mkPiece {
  pc_id : Z;
  pc_kind : Z;
  pc_offset : Z;
  pc_total : Z;
  pc_chunk : bytes;
}.

Section Collecting.
Context `{Platform}.

(** [decoder.decode(fragment.subarray(0, 4)) !== tag] *)
Definition tag_differs (fragment : bytes) (tag : string) : result bool :=
  match decodeFatal (slice fragment 0 4) with
  | None => Throw "TypeError: decoding failed"
  | Some text => Ok (negb (bool_decide (text = js tag)))
  end.

(** What [addSignalFragment] reads and checks before the collection. *)
Definition read_signal_fragment (fragment : bytes) : result Piece :=
  throw_if (zlen fragment <=? 24) "peer transport: invalid signal fragment" ;;;
  let* other := tag_differs fragment "ASF1" in
  throw_if other "peer transport: invalid signal fragment" ;;;
  let* namespace := getUint 4 fragment 12 in
  throw_if (negb (namespace =? SIGNAL_NAMESPACE)) "peer transport: invalid signal fragment namespace" ;;;
  let* id := getUint 8 fragment 4 in
  let* offset := getUint 4 fragment 16 in
  let* total := getUint 4 fragment 20 in
  let chunk := slice_from fragment 24 in
  throw_if ((total <=? MAX_DIRECT_RECORD_PLAINTEXT) || (SIGNAL_LIMIT <? total) || (total <? offset + zlen chunk))
    "peer transport: invalid signal fragment bounds" ;;;
  Ok (mkPiece id 0 offset total chunk).

Definition read_config_fragment (fragment : bytes) : result Piece :=
  throw_if (zlen fragment <=? 25) "peer transport: invalid control fragment" ;;;
  let* other := tag_differs fragment "ACF1" in
  throw_if other "peer transport: invalid control fragment" ;;;
  let* namespace := getUint 4 fragment 12 in
  throw_if (negb (namespace =? CONFIG_NAMESPACE)) "peer transport: invalid control fragment namespace" ;;;
  let* id := getUint 8 fragment 4 in
  let kind := default 0 (idx fragment 16) in
  let* offset := getUint 4 fragment 17 in
  let* total := getUint 4 fragment 21 in
  let chunk := slice_from fragment 25 in
  throw_if ((kind <? DirectRecordKind.ConfigInventory) || (DirectRecordKind.CatalogResponse <? kind)
            || (kind =? DirectRecordKind.ConfigFragment)
            || (total <=? MAX_DIRECT_RECORD_PLAINTEXT) || (CONFIG_LIMIT <? total) || (total <? offset + zlen chunk))
    "peer transport: invalid control fragment bounds" ;;;
  Ok (mkPiece id kind offset total chunk).

(** The rest of both methods; [first] and [ordering] are their messages. *)
Definition collect (first ordering : string) (p : Piece) (now : Z) : method (option Collection) (option (Z * bytes)) :=
  do* this := mget in
  do* state :=
    match this with
    | Some state => mret state
    | None =>
        guard_throw (negb (pc_offset p =? 0)) first ;;;
        let state := mkCollection (pc_id p) (pc_kind p) (pc_total p) 0 now (zeros (pc_total p)) in
        do* _ := mput (Some state) in
        mret state
    end in
  guard_throw ((FRAGMENT_TIMEOUT_MS <? now - col_startedAt state) || negb (col_id state =? pc_id p)
               || negb (col_kind state =? pc_kind p) || negb (col_total state =? pc_total p)
               || negb (col_next state =? pc_offset p))
    ordering ;;;
  do* buffer := mlift (set_range (col_buffer state) (pc_chunk p) (pc_offset p)) in
  let next := col_next state + zlen (pc_chunk p) in
  if negb (next =? col_total state) then
    do* _ := mput (Some (mkCollection (col_id state) (col_kind state) (col_total state) next (col_startedAt state) buffer)) in
    mret None
  else
    do* _ := mput None in
    mret (Some (col_kind state, buffer)).

Definition addSignalFragment (fragment : bytes) (now : Z) : method (option Collection) (option bytes) :=
  do* p := mlift (read_signal_fragment fragment) in
  do* complete := collect "peer transport: invalid first signal fragment" "peer transport: signal fragment ordering" p now in
  mret (option_map snd complete).

Definition addConfigFragment (fragment : bytes) (now : Z) : method (option Collection) (option (Z * bytes)) :=
  do* p := mlift (read_config_fragment fragment) in
  collect "peer transport: invalid first control fragment" "peer transport: control fragment ordering" p now.
End Collecting.

(** Fragments added one after the other, each at its time. *)
Fixpoint add_each {A} (add : bytes -> Z -> method (option Collection) (option A)) (l : list (bytes * Z))
    : method (option Collection) (list (option A)) :=
  match l with
  | [] => mret []
  | (fragment, now) :: rest =>
      do* r := add fragment now in
      do* rs := add_each add rest in
      mret (r :: rs)
  end.

(** ** The abstract collection: a message and the bytes received so far *)

Inductive Gathering :=
  | Nothing
  | Gathered (id kind total t0 : Z) (received : bytes).

Definition gathers (c : option Collection) (g : Gathering) : Prop :=
  match g with
  | Nothing => c = None
  | Gathered id kind total t0 received =>
      zlen received < total /\
      c = Some (mkCollection id kind total (zlen received) t0 (received ++ zeros (total - zlen received)))
  end.

Definition spec_collect (first ordering : string) (g : Gathering) (p : Piece) (now : Z)
    : Gathering * result (option (Z * bytes)) :=
  let accept id kind total t0 received :=
    if zlen received =? total then (Nothing, Ok (Some (kind, received)))
    else (Gathered id kind total t0 received, Ok None) in
  match g with
  | Nothing =>
      if negb (pc_offset p =? 0) then (Nothing, Throw first)
      else accept (pc_id p) (pc_kind p) (pc_total p) now (pc_chunk p)
  | Gathered id kind total t0 received =>
      if (FRAGMENT_TIMEOUT_MS <? now - t0) || negb (id =? pc_id p) || negb (kind =? pc_kind p)
         || negb (total =? pc_total p) || negb (zlen received =? pc_offset p)
      then (g, Throw ordering)
      else accept id kind total t0 (received ++ pc_chunk p)
  end.

(** ** Lemmas *)

Definition piece_ok (p : Piece) : Prop :=
  0 <= pc_offset p /\ pc_offset p + zlen (pc_chunk p) <= pc_total p.

Lemma collect_refines first ordering c g p now :
  gathers c g -> piece_ok p ->
  let '(c', r) := collect first ordering p now c in
  let '(g', r') := spec_collect first ordering g p now in
  gathers c' g' /\ r = r'.
Proof.
  destruct p as [id kind off tot chunk]. intros Hg [Ho Hl]. cbn [pc_offset pc_chunk pc_total] in *.
  pose proof (zlen_nonneg chunk) as Hc. destruct g as [|id' kind' tot' t0 received]; cbn [gathers] in Hg.
  - subst c. unfold collect, spec_collect. mrun. cbn [pc_id pc_kind pc_offset pc_total pc_chunk].
    destruct (off =? 0) eqn:E; cbn [negb]; [|done]. guards. subst off.
    cbn [col_startedAt col_id col_kind col_total col_next col_buffer]. rewrite !Z.eqb_refl, Z.sub_diag. cbn [negb orb].
    rewrite <- (app_nil_l (zeros tot)), set_range_zeros by (done || lia). cbn [app]. rewrite Z.add_0_l.
    destruct (zlen chunk =? tot) eqn:E; cbn [negb]; guards.
    + split; [done|]. rewrite <- E, Z.sub_diag. cbn. by rewrite app_nil_r.
    + split; [|done]. cbn [gathers]. split; [lia|done].
  - destruct Hg as (Hr & ->). unfold collect, spec_collect. mrun. cbn [pc_id pc_kind pc_offset pc_total pc_chunk].
    cbn [col_startedAt col_id col_kind col_total col_next col_buffer].
    destruct (_ || _) eqn:E; [split; [by split|done]|]. guards. subst.
    rewrite set_range_zeros by (done || lia). rewrite <- zlen_app.
    replace (tot - zlen received - zlen chunk) with (tot - zlen (received ++ chunk)) by (rewrite zlen_app; lia).
    rewrite app_assoc. destruct (zlen (received ++ chunk) =? tot) eqn:E; cbn [negb]; guards.
    + split; [done|]. rewrite E, Z.sub_diag. cbn. by rewrite app_nil_r.
    + split; [|done]. cbn [gathers]. split; [|done]. rewrite zlen_app in *. lia.
Qed.

(** What a fragment that is read satisfies. *)
Lemma read_signal_ok `{Platform} f p :
  bytes_ok f -> read_signal_fragment f = Ok p ->
  piece_ok p /\ MAX_DIRECT_RECORD_PLAINTEXT < pc_total p <= SIGNAL_LIMIT /\ pc_chunk p = slice_from f 24.
Proof.
  intros Hb E. unfold read_signal_fragment in E. inv_ok. cbn [pc_offset pc_total pc_chunk].
  match goal with H : getUint 4 f 16 = Ok _ |- _ => apply getUint_inv in H as (_ & ? & _); [|done|lia] end.
  unfold piece_ok. cbn [pc_offset pc_total pc_chunk]. split_and!; try done; lia.
Qed.

Lemma read_config_ok `{Platform} f p :
  bytes_ok f -> read_config_fragment f = Ok p ->
  piece_ok p /\ MAX_DIRECT_RECORD_PLAINTEXT < pc_total p <= CONFIG_LIMIT /\ pc_chunk p = slice_from f 25 /\
  DirectRecordKind.ConfigInventory <= pc_kind p <= DirectRecordKind.CatalogResponse /\
  pc_kind p <> DirectRecordKind.ConfigFragment.
Proof.
  intros Hb E. unfold read_config_fragment in E. inv_ok. cbn [pc_offset pc_total pc_chunk pc_kind].
  match goal with H : getUint 4 f 17 = Ok _ |- _ => apply getUint_inv in H as (_ & ? & _); [|done|lia] end.
  unfold piece_ok. cbn [pc_offset pc_total pc_chunk]. split_and!; try done; lia.
Qed.

(** *** What the cutters write *)

Definition signal_bytes (id offset total : Z) (chunk : bytes) : bytes :=
  SIGNAL_TAG ++ be_bytes 8 id ++ be_bytes 4 SIGNAL_NAMESPACE ++ be_bytes 4 offset ++ be_bytes 4 total ++ chunk.

Definition config_bytes (kind id offset total : Z) (chunk : bytes) : bytes :=
  CONFIG_TAG ++ be_bytes 8 id ++ be_bytes 4 CONFIG_NAMESPACE ++ [kind mod 256] ++ be_bytes 4 offset
  ++ be_bytes 4 total ++ chunk.

Lemma set_idx_zeros a k i v : i = zlen a -> 0 < k -> set_idx (a ++ zeros k) i v = a ++ [v mod 256] ++ zeros (k - 1).
Proof.
  intros -> Hk. unfold set_idx. rewrite zlen_nat, insert_app_r_alt by lia. rewrite Nat.sub_diag.
  replace k with (1 + (k - 1)) at 1 by lia. rewrite zeros_cons by lia. done.
Qed.

Lemma zlen_SIGNAL_TAG : zlen SIGNAL_TAG = 4.
Proof. reflexivity. Qed.

Lemma zlen_CONFIG_TAG : zlen CONFIG_TAG = 4.
Proof. reflexivity. Qed.

#[local] Hint Rewrite zlen_SIGNAL_TAG zlen_CONFIG_TAG zlen_be_bytes : zlen.

(** The lengths of the fields written so far. *)
Ltac field_len := autorewrite with zlen; lia.

(** Writes the next field of a record. *)
Ltac write_next :=
  first [rewrite setUint_zeros by field_len | rewrite set_range_zeros by field_len | rewrite set_idx_zeros by field_len];
  cbn [rbind]; rewrite ?app_assoc.

Lemma signal_record_eq id payload off end_ :
  0 <= off <= end_ -> end_ <= zlen payload ->
  signal_record id payload off end_ = Ok (signal_bytes id off (zlen payload) (slice payload off end_)).
Proof.
  intros Ho He. assert (Hz : zlen (slice payload off end_) = end_ - off) by (rewrite zlen_slice; lia).
  unfold signal_record, signal_bytes. rewrite <- (app_nil_l (zeros _)). do 6 write_next.
  rewrite <- !app_assoc. replace (_ - zlen _) with 0 by (rewrite Hz; field_len). cbn [app]. by rewrite app_nil_r.
Qed.

Lemma config_record_eq kind id payload off end_ :
  0 <= off <= end_ -> end_ <= zlen payload ->
  config_record kind id payload off end_ = Ok (config_bytes kind id off (zlen payload) (slice payload off end_)).
Proof.
  intros Ho He. assert (Hz : zlen (slice payload off end_) = end_ - off) by (rewrite zlen_slice; lia).
  unfold config_record, config_bytes. rewrite <- (app_nil_l (zeros _)). do 7 write_next.
  rewrite <- !app_assoc. replace (_ - zlen _) with 0 by (rewrite Hz; field_len). cbn [app]. by rewrite app_nil_r.
Qed.

(** *** Cutting and collecting, for any header *)

Section Cuts.
Context (header : Z -> bytes -> bytes) (size : Z) (payload : bytes).

Definition next_chunk (off : Z) : bytes := slice payload off (Z.min (zlen payload) (off + size)).

(** The records from [off] on. *)
Inductive cuts_from : Z -> list bytes -> Prop :=
  | cuts_end off : zlen payload <= off -> cuts_from off []
  | cuts_step off rest :
      off < zlen payload -> cuts_from (off + size) rest -> cuts_from off (header off (next_chunk off) :: rest).

Lemma cut_records_cuts (record : Z -> Z -> result bytes) fuel off acc :
  (forall o e, 0 <= o <= e -> e <= zlen payload -> record o e = Ok (header o (slice payload o e))) ->
  0 < size -> 0 <= off -> zlen payload - off <= Z.of_nat fuel ->
  exists records, cut_records fuel record size payload off acc = Ok (acc ++ records) /\ cuts_from off records.
Proof.
  intros Hrec Hs. revert off acc. induction fuel as [|fuel IH]; intros off acc Ho Hf; cbn [cut_records];
    destruct (off <? zlen payload) eqn:E; guards.
  - lia.
  - exists []. rewrite app_nil_r. split; [done|by constructor].
  - rewrite Hrec by lia. cbn [rbind]. destruct (IH (off + size) (acc ++ [header off (next_chunk off)])) as (rs & E' & Hc);
      [lia..|]. exists (header off (next_chunk off) :: rs). split; [|by constructor].
    rewrite <- app_assoc in E'. exact E'.
  - exists []. rewrite app_nil_r. split; [done|by constructor].
Qed.

Lemma cuts_size bound off records :
  0 < size -> 0 <= off -> (forall o chunk, zlen (header o chunk) = bound - size + zlen chunk) ->
  cuts_from off records -> Forall (fun r => zlen r <= bound) records.
Proof.
  intros Hs Ho Hh Hc. induction Hc as [|off rest He Hc IH]; constructor; [|apply IH; lia].
  rewrite Hh. unfold next_chunk. rewrite zlen_slice by lia. lia.
Qed.

(** A method that refines [spec_collect] on these records gives the payload
    back with the last one. *)
Context {A : Type} (add : bytes -> Z -> method (option Collection) (option A)) (out : option (Z * bytes) -> option A)
        (first ordering : string) (id kind : Z).

Definition add_spec : Prop := forall off chunk c g now,
  0 <= off -> 0 < zlen chunk -> off + zlen chunk <= zlen payload -> gathers c g ->
  let '(c', r) := add (header off chunk) now c in
  let '(g', r') := spec_collect first ordering g (mkPiece id kind off (zlen payload) chunk) now in
  gathers c' g' /\ r = match r' with Ok complete => Ok (out complete) | Throw e => Throw e end.

Hypothesis (Hadd : add_spec) (Hnone : out None = None) (Hsize : 0 < size).

(** What has been collected when the record at [off] arrives. *)
Definition before (off t0 : Z) : Gathering :=
  if off =? 0 then Nothing else Gathered id kind (zlen payload) t0 (slice payload 0 off).

Lemma add_each_cuts off records times t0 c :
  0 <= off < zlen payload -> cuts_from off records -> length times = length records ->
  (off = 0 -> head times = Some t0) -> Forall (fun t => t - t0 <= FRAGMENT_TIMEOUT_MS) times ->
  gathers c (before off t0) ->
  add_each add (combine records times) c
  = (None, Ok (replicate (length records - 1) None ++ [out (Some (kind, payload))])).
Proof.
  intros Ho Hc. revert times c Ho. induction Hc as [off He|off rest He Hc IH]; intros times c Ho Hlen Hfirst Ht Hg; [lia|].
  destruct times as [|t times]; [done|]. cbn [length] in Hlen. apply Forall_cons in Ht as [Ht0 Ht].
  set (stop := Z.min (zlen payload) (off + size)) in *. set (chunk := next_chunk off).
  assert (Hz : zlen chunk = stop - off) by (unfold chunk, next_chunk; rewrite zlen_slice; lia).
  assert (Hcut : slice payload 0 off ++ chunk = slice payload 0 stop) by (unfold chunk, next_chunk; apply slice_cut; lia).
  assert (Hstop : zlen (slice payload 0 stop) = stop) by (rewrite zlen_slice; lia).
  cbn [combine add_each]. unfold mbind at 1.
  pose proof (Hadd off chunk c _ t ltac:(lia) ltac:(lia) ltac:(lia) Hg) as Ha.
  destruct (add (header off chunk) t c) as [c1 r1].
  assert (Hspec : spec_collect first ordering (before off t0) (mkPiece id kind off (zlen payload) chunk) t
    = if stop =? zlen payload then (Nothing, Ok (Some (kind, slice payload 0 stop)))
      else (Gathered id kind (zlen payload) t0 (slice payload 0 stop), Ok None)).
  { unfold before, spec_collect. cbn [pc_id pc_kind pc_offset pc_total pc_chunk].
    destruct (off =? 0) eqn:E0; guards.
    - subst off. injection (Hfirst eq_refl) as ->. cbn [negb Z.eqb].
      assert (Hc0 : chunk = slice payload 0 stop) by exact Hcut.
      rewrite Hc0, Hstop. done.
    - rewrite zlen_slice, Z.sub_0_r, !Z.eqb_refl by lia. rewrite (proj2 (Z.ltb_ge _ _) Ht0). cbn [negb orb].
      by rewrite Hcut, Hstop. }
  rewrite Hspec in Ha. destruct (stop =? zlen payload) eqn:E; guards; destruct Ha as [Hg1 ->].
  - cbn [gathers] in Hg1. subst c1. inversion Hc; subst; [|lia]. destruct times; [|done]. cbn [combine add_each length Nat.sub replicate].
    mrun. rewrite (slice_all payload 0 stop) by lia. done.
  - assert (Hs' : stop = off + size) by lia. rewrite Hnone, Hs' in *. unfold mbind.
    rewrite (IH times c1); [|lia|lia|lia|done|].
    + mrun. do 2 f_equal. inversion Hc as [|? rest' ? Hrest]; subst; [lia|]. cbn [length].
      replace (S (S (length rest')) - 1)%nat with (S (length rest')) by lia.
      by replace (S (length rest') - 1)%nat with (length rest') by lia.
    + unfold before. destruct (off + size =? 0) eqn:E0; guards; [lia|exact Hg1].
Qed.
End Cuts.

(** *** Reading a record back *)

(** A fatal decoder of UTF-8 decodes text in ASCII to itself. *)
Class AsciiText `{Platform} := decode_ascii : forall s, Forall (fun c => 0 <= c < 128) s -> decodeFatal s = Some s.

Section Reading.
Context `{AsciiText}.

Lemma tag_same (tag : string) rest :
  Forall (fun c => 0 <= c < 128) (js tag) -> zlen (js tag) = 4 ->
  tag_differs (js tag ++ rest) tag = Ok false.
Proof.
  intros Ha Hl. unfold tag_differs. rewrite slice_prefix by done. rewrite decode_ascii by done.
  by rewrite bool_decide_true.
Qed.

Lemma getUint_at n v off a c f :
  f = a ++ be_bytes n v ++ c -> off = zlen a -> 0 <= v < 256 ^ Z.of_nat n -> getUint n f off = Ok v.
Proof. intros ->. apply getUint_app. Qed.

Lemma slice_from_at {A} (a c f : list A) i : f = a ++ c -> i = zlen a -> slice_from f i = c.
Proof. intros ->. apply slice_from_app. Qed.

(** The field after the prefix [a]. *)
Ltac field_at a := eapply (getUint_at _ _ _ a); [rewrite <- ?app_assoc; reflexivity|field_len|unfold SIGNAL_NAMESPACE, CONFIG_NAMESPACE; cbn; lia].

Lemma read_signal_bytes id off total chunk :
  0 <= id < 2 ^ 64 -> 0 <= off -> 0 < zlen chunk -> off + zlen chunk <= total ->
  MAX_DIRECT_RECORD_PLAINTEXT < total <= SIGNAL_LIMIT ->
  read_signal_fragment (signal_bytes id off total chunk) = Ok (mkPiece id 0 off total chunk).
Proof.
  intros Hid Ho Hc Hl Ht. assert (Hmax : SIGNAL_LIMIT = 65536) by done. set (f := signal_bytes id off total chunk).
  assert (E0 : (zlen f <=? 24) = false) by (apply Z.leb_gt; unfold f, signal_bytes; field_len).
  assert (E1 : tag_differs f "ASF1" = Ok false) by (apply (tag_same "ASF1"); [repeat constructor; lia|done]).
  assert (E2 : getUint 4 f 12 = Ok SIGNAL_NAMESPACE) by field_at (SIGNAL_TAG ++ be_bytes 8 id).
  assert (E3 : getUint 8 f 4 = Ok id) by field_at SIGNAL_TAG.
  assert (E4 : getUint 4 f 16 = Ok off) by field_at (SIGNAL_TAG ++ be_bytes 8 id ++ be_bytes 4 SIGNAL_NAMESPACE).
  assert (E5 : getUint 4 f 20 = Ok total)
    by field_at (SIGNAL_TAG ++ be_bytes 8 id ++ be_bytes 4 SIGNAL_NAMESPACE ++ be_bytes 4 off).
  assert (E6 : slice_from f 24 = chunk).
  { apply (slice_from_at (SIGNAL_TAG ++ be_bytes 8 id ++ be_bytes 4 SIGNAL_NAMESPACE ++ be_bytes 4 off ++ be_bytes 4 total));
      [rewrite <- ?app_assoc; reflexivity|field_len]. }
  unfold read_signal_fragment. rewrite E0, E1, E2, E3, E4, E5, E6. cbn [rbind]. rewrite Z.eqb_refl. cbn [negb].
  rewrite (proj2 (Z.leb_gt _ _)), (proj2 (Z.ltb_ge _ _)), (proj2 (Z.ltb_ge _ _)) by lia. done.
Qed.

Definition control_kind (kind : Z) : Prop :=
  DirectRecordKind.ConfigInventory <= kind <= DirectRecordKind.CatalogResponse /\ kind <> DirectRecordKind.ConfigFragment.

Lemma read_config_bytes kind id off total chunk :
  control_kind kind -> 0 <= id < 2 ^ 64 -> 0 <= off -> 0 < zlen chunk -> off + zlen chunk <= total ->
  MAX_DIRECT_RECORD_PLAINTEXT < total <= CONFIG_LIMIT ->
  read_config_fragment (config_bytes kind id off total chunk) = Ok (mkPiece id kind off total chunk).
Proof.
  unfold control_kind, DirectRecordKind.ConfigInventory, DirectRecordKind.CatalogResponse, DirectRecordKind.ConfigFragment.
  intros [Hk Hk'] Hid Ho Hc Hl Ht. assert (Hmax : CONFIG_LIMIT = 16777216) by done.
  set (f := config_bytes kind id off total chunk). assert (Hm : kind mod 256 = kind) by (apply Z.mod_small; lia).
  set (head := CONFIG_TAG ++ be_bytes 8 id ++ be_bytes 4 CONFIG_NAMESPACE).
  assert (E0 : (zlen f <=? 25) = false) by (apply Z.leb_gt; unfold f, config_bytes; field_len).
  assert (E1 : tag_differs f "ACF1" = Ok false) by (apply (tag_same "ACF1"); [repeat constructor; lia|done]).
  assert (E2 : getUint 4 f 12 = Ok CONFIG_NAMESPACE) by field_at (CONFIG_TAG ++ be_bytes 8 id).
  assert (E3 : getUint 8 f 4 = Ok id) by field_at CONFIG_TAG.
  assert (E4 : getUint 4 f 17 = Ok off) by field_at (CONFIG_TAG ++ be_bytes 8 id ++ be_bytes 4 CONFIG_NAMESPACE ++ [kind mod 256]).
  assert (E5 : getUint 4 f 21 = Ok total)
    by field_at (CONFIG_TAG ++ be_bytes 8 id ++ be_bytes 4 CONFIG_NAMESPACE ++ [kind mod 256] ++ be_bytes 4 off).
  assert (E6 : slice_from f 25 = chunk).
  { apply (slice_from_at (CONFIG_TAG ++ be_bytes 8 id ++ be_bytes 4 CONFIG_NAMESPACE ++ [kind mod 256] ++ be_bytes 4 off
                          ++ be_bytes 4 total)); [rewrite <- ?app_assoc; reflexivity|field_len]. }
  assert (E7 : default 0 (idx f 16) = kind).
  { replace f with (head ++ kind :: be_bytes 4 off ++ be_bytes 4 total ++ chunk)
      by (unfold f, config_bytes, head; rewrite Hm, <- !app_assoc; done).
    rewrite (idx_lookup _ _ kind); [done|lia|].
    assert (Hh : length head = 16%nat) by reflexivity. rewrite lookup_app_r by (rewrite Hh; lia). by rewrite Hh. }
  unfold read_config_fragment. rewrite E0, E1, E2, E3, E4, E5, E6, E7. cbn [rbind]. rewrite Z.eqb_refl. cbn [negb].
  unfold DirectRecordKind.ConfigInventory, DirectRecordKind.CatalogResponse, DirectRecordKind.ConfigFragment.
  rewrite (proj2 (Z.ltb_ge kind 7)), (proj2 (Z.ltb_ge 15 kind)), (proj2 (Z.eqb_neq kind 10)) by lia.
  rewrite (proj2 (Z.leb_gt _ _)), (proj2 (Z.ltb_ge _ _)), (proj2 (Z.ltb_ge _ _)) by lia. done.
Qed.
End Reading.

Section Adding.
Context `{AsciiText}.

Lemma addSignal_spec payload id :
  0 <= id < 2 ^ 64 -> MAX_DIRECT_RECORD_PLAINTEXT < zlen payload <= SIGNAL_LIMIT ->
  add_spec (fun off chunk => signal_bytes id off (zlen payload) chunk) payload addSignalFragment (option_map snd)
    "peer transport: invalid first signal fragment" "peer transport: signal fragment ordering" id 0.
Proof.
  intros Hid Hl off chunk c g now Ho Hc Ht Hg. unfold addSignalFragment. unfold mbind at 1, mlift.
  rewrite read_signal_bytes by (done || lia).
  pose proof (collect_refines "peer transport: invalid first signal fragment" "peer transport: signal fragment ordering"
    c g (mkPiece id 0 off (zlen payload) chunk) now Hg) as Hcol. unfold mbind.
  destruct (collect _ _ _ now c) as [c' r], (spec_collect _ _ g _ now) as [g' r'].
  destruct Hcol as [Hg' ->]; [unfold piece_ok; cbn; lia|]. by destruct r'.
Qed.

Lemma addConfig_spec payload kind id :
  control_kind kind -> 0 <= id < 2 ^ 64 -> MAX_DIRECT_RECORD_PLAINTEXT < zlen payload <= CONFIG_LIMIT ->
  add_spec (fun off chunk => config_bytes kind id off (zlen payload) chunk) payload addConfigFragment (fun r => r)
    "peer transport: invalid first control fragment" "peer transport: control fragment ordering" id kind.
Proof.
  intros Hk Hid Hl off chunk c g now Ho Hc Ht Hg. unfold addConfigFragment. unfold mbind, mlift.
  rewrite read_config_bytes by (done || lia).
  pose proof (collect_refines "peer transport: invalid first control fragment" "peer transport: control fragment ordering"
    c g (mkPiece id kind off (zlen payload) chunk) now Hg) as Hcol.
  destruct (collect _ _ _ now c) as [c' r], (spec_collect _ _ g _ now) as [g' r'].
  destruct Hcol as [Hg' ->]; [unfold piece_ok; cbn; lia|]. by destruct r'.
Qed.

(** ** Properties *)

(** The records of a message fit a record each, and give it back in time. *)
Definition delivered {A} (add : bytes -> Z -> method (option Collection) (option A)) (records : list bytes) (a : A) : Prop :=
  Forall (fun r => zlen r <= MAX_DIRECT_RECORD_PLAINTEXT) records /\
  forall t0 times, length (t0 :: times) = length records -> Forall (fun t => t - t0 <= FRAGMENT_TIMEOUT_MS) times ->
    add_each add (combine records (t0 :: times)) None = (None, Ok (replicate (length records - 1) None ++ [Some a])).

Lemma cuts_delivered {A} header size payload (add : bytes -> Z -> method (option Collection) (option A)) out first ordering
    id kind records a :
  add_spec header payload add out first ordering id kind -> out None = None -> out (Some (kind, payload)) = Some a ->
  0 < size -> 0 < zlen payload ->
  (forall o chunk, zlen (header o chunk) = MAX_DIRECT_RECORD_PLAINTEXT - size + zlen chunk) ->
  cuts_from header size payload 0 records -> delivered add records a.
Proof.
  intros Hadd Hn Ha Hs Hp Hh Hc. split.
  - by eapply (cuts_size header size payload _ 0).
  - intros t0 times Hlen Ht. rewrite <- Ha.
    eapply (add_each_cuts header size payload add out first ordering id kind Hadd Hn Hs 0 records (t0 :: times) t0); try done; try lia.
    constructor; [unfold FRAGMENT_TIMEOUT_MS; lia|done].
Qed.

(** C31. Fragmented peer messages: a signal of more than one record and at most
    64 KiB, and a control message of a control kind of more than one record and
    at most 16 MiB, are cut (the loops end) into records that each fit, and
    these, added in order within ten seconds, give nothing until the last and
    then the very message with its kind, and leave the collector empty. Other
    signals are refused. *)
Theorem peer_fragments_roundtrip (kind id : Z) (payload : bytes) (Hid : 0 <= id < 2 ^ 64) (Hkind : control_kind kind) :
  match fragmentPeerSignal id payload with
  | Throw _ => ~ (MAX_DIRECT_RECORD_PLAINTEXT < zlen payload <= SIGNAL_LIMIT)
  | Ok records => delivered addSignalFragment records payload
  end /\
  (MAX_DIRECT_RECORD_PLAINTEXT < zlen payload <= CONFIG_LIMIT ->
   exists records, configFragment kind id payload = Ok records /\ delivered addConfigFragment records (kind, payload)).
Proof.
  assert (Hmax : MAX_DIRECT_RECORD_PLAINTEXT = 16384) by done. split.
  - unfold fragmentPeerSignal. destruct (_ || _) eqn:E; [apply orb_true_iff in E as [E|E]; guards; lia|]. guards.
    destruct (cut_records_cuts (fun off chunk => signal_bytes id off (zlen payload) chunk) (MAX_DIRECT_RECORD_PLAINTEXT - 24)
      payload (signal_record id payload) (length payload) 0 []) as (records & -> & Hc);
      [intros; by apply signal_record_eq|lia|lia|unfold zlen; lia|]. cbn [app].
    eapply cuts_delivered; [by apply (addSignal_spec payload id)|done|done| | | |exact Hc]; [lia..|].
    intros o chunk. unfold signal_bytes. field_len.
  - intros Hl. unfold configFragment.
    destruct (cut_records_cuts (fun off chunk => config_bytes kind id off (zlen payload) chunk) (MAX_DIRECT_RECORD_PLAINTEXT - 25)
      payload (config_record kind id payload) (length payload) 0 []) as (records & -> & Hc);
      [intros; by apply config_record_eq|lia|lia|unfold zlen; lia|]. cbn [app]. exists records. split; [done|].
    eapply cuts_delivered; [by apply (addConfig_spec payload kind id)|done|done| | | |exact Hc]; [lia..|].
    intros o chunk. unfold config_bytes. field_len.
Qed.
End Adding.

(** ** An example *)

Definition ascii_platform : Platform :=
  {| decodeFatal p := Some p; new_URL _ := None; localeCompare _ _ := 0 |}.

Lemma ascii_platform_text : @AsciiText ascii_platform.
Proof. done. Qed.

Lemma peer_fragments_roundtrip_witness :
  let payload := replicate (Z.to_nat 16390) 7 in
  exists records, fragmentPeerSignal 9 payload = Ok records /\ length records = 2%nat /\
    add_each (@addSignalFragment ascii_platform) (combine records [100; 10100]) None = (None, Ok [None; Some payload]).
Proof.
  cbv zeta. set (payload := replicate (Z.to_nat 16390) 7).
  assert (L : match fragmentPeerSignal 9 payload with Ok records => length records | Throw _ => O end = 2%nat)
    by (vm_compute; reflexivity).
  destruct (@peer_fragments_roundtrip ascii_platform ascii_platform_text 7 9 payload) as [S _]; [lia|unfold control_kind, DirectRecordKind.ConfigInventory, DirectRecordKind.CatalogResponse, DirectRecordKind.ConfigFragment; lia|].
  destruct (fragmentPeerSignal 9 payload) as [records|]; [|discriminate L].
  exists records. split; [reflexivity|]. split; [exact L|]. destruct S as [_ S]. specialize (S 100 [10100]).
  rewrite L in S. apply S; [reflexivity|]. constructor; [unfold FRAGMENT_TIMEOUT_MS; lia|constructor].
Defined.
