(* ===== verification/QuickTunnel.v ===== *)
(** * The peer tunnel transport
      ([src/desktop/frontend/src/lib/peer/quickTunnelClient.ts])

    [PeerQuickTunnelTransport]: one attempt of a member of a space to reach a
    host. A WebSocket of the route carries the claims the host offers, the
    membership handshake, and then sealed signals; on the direct route these
    set up a data channel with a handshake of its own, on the quick tunnel the
    socket itself becomes the route. The object, the browser objects it creates
    and the call suspended at an [await] are one state, [TunnelWorld]; every
    method and handler is a definition, and [step] is one turn of the event
    loop. Messages of the socket and of the channel go through one chain of
    promises, so that one of them is handled at a time.

    Error values are their messages. A handshake object is created once for
    each of the two fields and stays there, so that it is a value of the field;
    a codec holds the very key buffers of its handshake, and [dispose] erases
    them in both. *)

From S2P Require Import Prelude Bytes JsString Base64Url JsMap Json DirectCrypto DirectFraming DirectHandshake.
From S2P Require Import EventLoop Transport NativeDirect PeerIdentity PeerJoin PeerDocuments PeerState PeerHandshake.
From S2P Require Import PeerFragments.

Definition SUBPROTOCOL : jsstr := js "atterm-peer-v1".
Definition CONTROL_SESSION_ID : jsstr := js "ffffffff-ffff-4fff-bfff-ffffffffffff".
Definition BUFFERED_HIGH_WATER : Z := 1024 * 1024.
Definition TUNNEL_TIMEOUT_MS : Z := 30000.

(** What a [MessageEvent] carries, with [binaryType] set to array buffers. *)
Inductive EventData := Text (s : jsstr) | Binary (p : bytes).

Definition asBytes (value : EventData) : result bytes :=
  match value with
  | Binary p => Ok p
  | Text _ => Throw "peer transport: binary message required"
  end.

Definition standardBase64 (p : bytes) : jsstr := btoa p.

Inductive SignalType := S_offer | S_answer | S_ice_candidate | S_ice_end | S_wss_fallback | S_wss_ready.

#[export] Instance SignalType_eq_dec : EqDecision SignalType.
Proof. solve_decision. Defined.

Definition signal_types : list SignalType :=
  [S_offer; S_answer; S_ice_candidate; S_ice_end; S_wss_fallback; S_wss_ready].

Definition signal_text (type : SignalType) : jsstr :=
  match type with
  | S_offer => js "offer" | S_answer => js "answer" | S_ice_candidate => js "ice_candidate"
  | S_ice_end => js "ice_end" | S_wss_fallback => js "wss_fallback" | S_wss_ready => js "wss_ready"
  end.

Definition signal_type_of (value : option Json) : option SignalType :=
  List.find (fun type => is_text value (signal_text type)) signal_types.

Record SignalMessage := mkSignal { sig_type : SignalType; sig_payload : jsstr }.

Definition permission_text (p : PeerPermission) : jsstr :=
  match p with P_view => js "view" | P_control => js "control" | P_full => js "full" end.

(** The fields of [NativeDirectClientOptions] that this transport reads. *)
Record TunnelOptions := mkTunnelOptions {
  sessionId : jsstr;
  clientInstanceId : jsstr;
  route : option NativePeerRoute;
  iceServers : option Json;
  timeoutMs : option Z;
}.

(** [options.route === 'quick_tunnel'] *)
Definition is_quick_tunnel (o : TunnelOptions) : bool :=
  match route o with Some RouteQuickTunnel => true | _ => false end.

Inductive Stage :=
  | St_authorization | St_signal_handshake_host | St_signal_handshake_ok | St_signals
  | St_data_handshake_host | St_data_handshake_ok | St_records.

(** The two handshakes and their codecs: of the socket and of the channel. *)
Inductive Leg := SignalLeg | DataLeg.

(** What the browser supplies: the error of [new WebSocket(...)] if it throws,
    whether there is an [RTCPeerConnection], and whether a data channel whose
    buffer holds that many bytes refuses more. *)
Class TunnelBrowser := {
  socket_error : jsstr -> option jsstr;
  rtc_supported : bool;
  channel_full : Z -> bool;
}.

(** ** Browser objects *)

Record Socket := mkSocket { socketState : ReadyState; socketBuffered : Z }.

(** [listening]: the handlers have been set. *)
Record TunnelChannel := mkTunnelChannel { channelState : ReadyState; channelBuffered : Z; listening : bool }.

#[export] Instance eta_tunnel_channel : Eta TunnelChannel :=
  fun c => mkTunnelChannel (channelState c) (channelBuffered c) (listening c).

Inductive PeerCallOp :=
  | CreateOffer | SetLocalDescription | SetRemoteDescription (answer : Json) | AddIceCandidate (candidate : Json).

Inductive TunnelEffect :=
  | NewSocket (id : nat) (url protocol : jsstr)
  | SocketText (id : nat) (text : jsstr)
  | SocketBytes (id : nat) (data : bytes)
  | SocketClose (id : nat)
  | NewPeerConnection (id : nat) (servers : Json)
  | PeerConnectionCall (id : nat) (op : PeerCallOp)
  | PeerConnectionClose (id : nat)
  | NewDataChannel (id peer : nat)
  | ChannelBytes (id : nat) (data : bytes)
  | ChannelClose (id : nat)
  | StartTimer (id : nat) (delay : Z)
  | Calls (cb : Callback)
  | ConfigMessage (kind : Z) (payload : bytes).

Section Tunnel.
Context `{Crypto} `{PeerCrypto} `{WebCrypto} `{JsText} `{Platform} `{UrlText} `{TunnelBrowser}.

(** ** Messages *)

Definition websocketURL (base : jsstr) : result jsstr :=
  match new_URL base with
  | None => Throw "TypeError: Invalid URL"
  | Some url =>
      let finish protocol :=
        Ok (URL_toString (url <| url_protocol := js protocol |> <| url_pathname := js "/peer/v1/connect" |>
                              <| url_search := [] |> <| url_hash := [] |>)) in
      if bool_decide (url_protocol url = js "https:") then finish "wss:"
      else if bool_decide (url_protocol url = js "http:") then finish "ws:"
      else Throw "peer transport: invalid route scheme"
  end.

Definition signalPayload (type : SignalType) (payload : jsstr) : bytes :=
  utf8_encode (JSON_stringify (JObj [(js "v", jint 1); (js "type", JStr (signal_text type)); (js "payload", JStr payload)])).

Definition parseSignal (value : bytes) : result SignalMessage :=
  throw_if (SIGNAL_LIMIT <? zlen value) "peer transport: signal too large" ;;;
  match decodeFatal value with
  | None => Throw "TypeError: decoding failed"
  | Some text =>
      let* parsed := JSON_parse text in
      let* v := prop parsed "v" in
      let* type := prop parsed "type" in
      let* payload := prop parsed "payload" in
      match signal_type_of type, as_string payload with
      | Some type, Some payload =>
          throw_if (negb (is_number v 1)) "peer transport: invalid signal" ;;;
          Ok (mkSignal type payload)
      | _, _ => Throw "peer transport: invalid signal"
      end
  end.

(** The [open] message of the socket. *)
Definition openMessage (o : TunnelOptions) (self : PeerIdentity) (ticket : bytes) (attempt : jsstr) : jsstr :=
  JSON_stringify (JObj [(js "v", jint 1); (js "kind", JStr (js "open")); (js "attempt_id", JStr attempt);
                        (js "ticket", JStr (standardBase64 ticket)); (js "session_id", JStr (sessionId o));
                        (js "client_peer_id", JStr (peerId self)); (js "client_instance_id", JStr (clientInstanceId o))]).

(** [allowed.length > 0 && !allowed.includes(session)] *)
Definition confined_elsewhere (allowed : list jsstr) (session : jsstr) : bool :=
  negb (bool_decide (allowed = [])) && negb (bool_decide (session ∈ allowed)).

(** The claims of the host, checked against both memberships: the authorization
    that [handleWSMessage] stores; [t] is [Date.now()]. *)
Definition authorize (o : TunnelOptions) (ctx : PeerContext) (ticket : option bytes) (attempt : jsstr) (t : Z)
    (data : EventData) : result DirectAuthorization :=
  match data with
  | Binary _ => Throw "peer transport: authorization response must be text"
  | Text text =>
      let* claims := JSON_parse text in
      let* v := prop claims "v" in
      let* kind := prop claims "kind" in
      let* user := prop claims "user_id" in
      let* host := prop claims "host_id" in
      let* level := prop claims "permission" in
      let* expires := prop claims "expires_at_unix_millis" in
      let space := space_id (gen_document (c_genesis ctx)) in
      let host_peer := subject_peer_id (vg_document (c_hostMembership ctx)) in
      match ticket with
      | None => Throw "peer transport: authorization rejected"
      | Some ticket =>
          throw_if (negb (is_number v 1) || negb (is_text kind (js "authorized")) || negb (is_text user space)
                    || negb (is_text host host_peer) || negb (is_safe_integer level) || negb (is_safe_integer expires)
                    || (int_of expires <=? t) || bool_decide (attempt = []))
            "peer transport: authorization rejected" ;;;
          let* granted := peerPermission (inr (int_of level)) in
          let local := vg_document (c_localMembership ctx) in
          let remote := vg_document (c_hostMembership ctx) in
          let control := bool_decide (sessionId o = CONTROL_SESSION_ID) in
          let* local_permission := peerPermission (inl (permission_text (permission local))) in
          let* host_permission := peerPermission (inl (permission_text (permission remote))) in
          throw_if ((negb control && (confined_elsewhere (allowed_session_ids local) (sessionId o)
                                      || confined_elsewhere (allowed_session_ids remote) (sessionId o)))
                    || (local_permission <? granted) || (host_permission <? granted))
            "peer transport: authorization rejected" ;;;
          Ok (mkAuthorization attempt ticket (sessionId o) space host_peer (clientInstanceId o) granted (int_of expires))
      end
  end.

(** ** The object and its surroundings *)

Record PeerTunnel := mkTunnel {
  options : TunnelOptions;
  self_identity : PeerIdentity;
  client_state : PeerClientState;
  controlled : bool;                           (* is there an [onConfigMessage]? *)
  ws : option nat;
  pc : option nat;
  dc : option nat;
  signalHandshake : option PeerClientHandshake;
  dataHandshake : option PeerClientHandshake;
  signalCodec : option DirectClientRecordCodec;
  dataCodec : option DirectClientRecordCodec;
  tunnel_authorization : option DirectAuthorization;
  context : option PeerContext;
  started : bool;
  closed : bool;
  authenticated : bool;
  stage : Stage;
  timeout : option nat;
  signalFragment : option Collection;
  configFragments : option Collection;         (* this.configFragment *)
  frameReassembler : Reassembler;
  nextSignalId : Z;                            (* this.nextMessageId *)
  pendingTicket : option bytes;
  pendingAttemptId : jsstr;
}.

#[export] Instance eta_tunnel : Eta PeerTunnel :=
  fun c => mkTunnel (options c) (self_identity c) (client_state c) (controlled c) (ws c) (pc c) (dc c)
    (signalHandshake c) (dataHandshake c) (signalCodec c) (dataCodec c) (tunnel_authorization c) (context c)
    (started c) (closed c) (authenticated c) (stage c) (timeout c) (signalFragment c) (configFragments c)
    (frameReassembler c) (nextSignalId c) (pendingTicket c) (pendingAttemptId c).

Definition new_tunnel (o : TunnelOptions) (self : PeerIdentity) (state : PeerClientState) (control : bool) : PeerTunnel :=
  mkTunnel o self state control None None None None None None None None None false false false St_authorization None
    None None new_reassembler 1 None [].

(** What the handler of a message is suspended at. The calls of a handshake
    hold the object they send to, [target], from before the [await]. *)
Inductive Waiting :=
  | InCreate (leg : Leg) (auth : DirectAuthorization) (called : Z) (peer : nat)
  | InHello (leg : Leg) (target : nat) (awaiting : Awaiting)
  | HelloSettled (leg : Leg) (target : nat) (o : outcome bytes)
  | InOffer (peer : nat)
  | InLocalDescription
  | InSignal.

Inductive Job := SocketJob (data : EventData) | ChannelJob (data : EventData).

Record TunnelWorld := mkTunnelWorld {
  this : PeerTunnel;
  opening : bool;                              (* [loadPeerContext] is under way *)
  sockets : list Socket;
  peers : list (jsstr * jsstr);                (* iceConnectionState, connectionState *)
  channels : list TunnelChannel;
  receiveChain : Chain Job Waiting;
  timers : list nat;
  nextTimer : nat;
  now : Z;
  trace : list TunnelEffect;
}.

#[export] Instance eta_tunnel_world : Eta TunnelWorld :=
  fun w => mkTunnelWorld (this w) (opening w) (sockets w) (peers w) (channels w) (receiveChain w) (timers w)
    (nextTimer w) (now w) (trace w).

Definition M (A : Type) : Type := Act TunnelWorld A.

Definition self {A} (f : PeerTunnel -> A) : M A := gets (fun w => f (this w)).
Definition get_this : M PeerTunnel := gets this.
Definition assign (f : PeerTunnel -> PeerTunnel) : M unit := modify (fun w => w <| this := f (this w) |>).
Definition emit (e : TunnelEffect) : M unit := modify (fun w => w <| trace := trace w ++ [e] |>).

Definition handshake_of (leg : Leg) (c : PeerTunnel) : option PeerClientHandshake :=
  match leg with SignalLeg => signalHandshake c | DataLeg => dataHandshake c end.
Definition set_handshake (leg : Leg) (h : option PeerClientHandshake) (c : PeerTunnel) : PeerTunnel :=
  match leg with SignalLeg => c <| signalHandshake := h |> | DataLeg => c <| dataHandshake := h |> end.
Definition codec_of (leg : Leg) (c : PeerTunnel) : option DirectClientRecordCodec :=
  match leg with SignalLeg => signalCodec c | DataLeg => dataCodec c end.
Definition set_codec (leg : Leg) (k : option DirectClientRecordCodec) (c : PeerTunnel) : PeerTunnel :=
  match leg with SignalLeg => c <| signalCodec := k |> | DataLeg => c <| dataCodec := k |> end.

(** A method of a handshake, of a codec, of the frame reassembler and of the
    two collections of fragments. *)
Definition on_handshake {A} (leg : Leg) (m : method PeerClientHandshake A) : M A :=
  fun w => match handshake_of leg (this w) with
           | None => (w, Raise (js "TypeError"))
           | Some h => let '(h', r) := m h in (w <| this := set_handshake leg (Some h') (this w) |>, of_result r)
           end.

Definition on_codec {A} (leg : Leg) (m : method DirectClientRecordCodec A) : M A :=
  fun w => match codec_of leg (this w) with
           | None => (w, Raise (js "TypeError"))
           | Some c => let '(c', r) := m c in (w <| this := set_codec leg (Some c') (this w) |>, of_result r)
           end.

Definition on_reassembler {A} (m : method Reassembler A) : M A :=
  fun w => let '(r', o) := m (frameReassembler (this w)) in
           (w <| this := (this w) <| frameReassembler := r' |> |>, of_result o).

Definition on_signal_fragment {A} (m : method (option Collection) A) : M A :=
  fun w => let '(r', o) := m (signalFragment (this w)) in
           (w <| this := (this w) <| signalFragment := r' |> |>, of_result o).

Definition on_config_fragment {A} (m : method (option Collection) A) : M A :=
  fun w => let '(r', o) := m (configFragments (this w)) in
           (w <| this := (this w) <| configFragments := r' |> |>, of_result o).

(** *** Sockets, channels and timers *)

Definition socket_state (id : nat) (w : TunnelWorld) : ReadyState :=
  match sockets w !! id with Some s => socketState s | None => CLOSED end.

Definition set_socket (id : nat) (st : ReadyState) : M unit :=
  modify (fun w => w <| sockets := alter (fun s => mkSocket st (socketBuffered s)) id (sockets w) |>).

Definition add_socket_buffered (id : nat) (n : Z) : M unit :=
  modify (fun w => w <| sockets := alter (fun s => mkSocket (socketState s) (socketBuffered s + n)) id (sockets w) |>).

(** [ws.send(data)]: a socket that is closing drops the data. *)
Definition ws_send (id : nat) (size : Z) (effect : TunnelEffect) : M unit :=
  let! st := gets (socket_state id) in
  raise_if (bool_decide (st = CONNECTING)) "InvalidStateError" ;;;
  let! _ := add_socket_buffered id size in
  when (bool_decide (st = OPEN)) (emit effect).

Definition ws_send_text (id : nat) (text : jsstr) : M unit := ws_send id (zlen (utf8_encode text)) (SocketText id text).
Definition ws_send_bytes (id : nat) (data : bytes) : M unit := ws_send id (zlen data) (SocketBytes id data).

Definition ws_close (id : nat) : M unit :=
  let! st := gets (socket_state id) in
  when (bool_decide (st = CONNECTING) || bool_decide (st = OPEN)) (
    let! _ := set_socket id CLOSING in
    emit (SocketClose id)).

Definition channel_state (id : nat) (w : TunnelWorld) : ReadyState :=
  match channels w !! id with Some c => channelState c | None => CLOSED end.

Definition alter_channel (f : TunnelChannel -> TunnelChannel) (id : nat) : M unit :=
  modify (fun w => w <| channels := alter f id (channels w) |>).

Definition dc_send (id : nat) (data : bytes) : M unit :=
  let! st := gets (channel_state id) in
  raise_if (negb (bool_decide (st = OPEN))) "InvalidStateError" ;;;
  let! buffered := gets (fun w => match channels w !! id with Some c => channelBuffered c | None => 0 end) in
  raise_if (channel_full (buffered + zlen data)) "OperationError" ;;;
  let! _ := alter_channel (fun c => c <| channelBuffered := buffered + zlen data |>) id in
  emit (ChannelBytes id data).

Definition dc_close (id : nat) : M unit :=
  let! st := gets (channel_state id) in
  when (bool_decide (st = CONNECTING) || bool_decide (st = OPEN)) (
    let! _ := alter_channel (fun c => c <| channelState := CLOSING |>) id in
    emit (ChannelClose id)).

Definition pc_close (id : nat) : M unit := emit (PeerConnectionClose id).

Definition setTimeout (delay : Z) : M nat :=
  let! id := gets nextTimer in
  let! _ := modify (fun w => w <| timers := timers w ++ [id] |> <| nextTimer := S id |>) in
  let! _ := emit (StartTimer id delay) in
  ret id.

(** [clearTimeout()] of the class. *)
Definition clearTimeout : M unit :=
  let! t := self timeout in
  let! _ := match t with
            | None => ret tt
            | Some t => modify (fun w => w <| timers := filter (fun u => u <> t) (timers w) |>)
            end in
  assign (fun c => c <| timeout := None |>).

(** ** Closing *)

(** [this.signalHandshake?.dispose()]: the buffers are those of the codec. *)
Definition dispose_leg (leg : Leg) : M unit :=
  let! h := self (handshake_of leg) in
  match h with
  | None => ret tt
  | Some _ =>
      let! erased := on_handshake leg dispose in
      match erased with
      | None => ret tt
      | Some k => assign (fun c => set_codec leg (option_map (fun codec => codec <| codec_keys := k |>) (codec_of leg c)) c)
      end
  end.

(** [try { x?.close() } catch {}] *)
Definition close_opt (close : nat -> M unit) (id : option nat) : M unit :=
  match id with Some id => attempt (close id) | None => ret tt end.

Definition finish : M unit :=
  let! already := self closed in
  if already then ret tt else
  let! _ := assign (fun c => c <| closed := true |> <| authenticated := false |>) in
  let! _ := clearTimeout in
  let! _ := dispose_leg SignalLeg in
  let! _ := dispose_leg DataLeg in
  let! c := get_this in
  let! _ := close_opt dc_close (dc c) in
  let! _ := close_opt pc_close (pc c) in
  let! _ := close_opt ws_close (ws c) in
  assign (fun c => c <| dc := None |> <| pc := None |> <| ws := None |>).

Definition fail (error : jsstr) : M unit :=
  let! already := self closed in
  if already then ret tt else
  let! _ := finish in
  emit (Calls (CbFailure error)).

Definition close : M unit := finish.

(** ** Opening the socket *)

Definition start : M unit :=
  let! c := get_this in
  if started c || closed c then ret tt else
  let! _ := assign (fun c => c <| started := true |>) in
  modify (fun w => w <| opening := true |>).

(** [open] once [loadPeerContext] has settled, with the [catch] of [start];
    [clock] are the times that it read. *)
Definition open_continue (clock : nat -> Z) : M unit :=
  let! _ := modify (fun w => w <| opening := false |>) in
  catch (
    let! c := get_this in
    let! ctx := answer (of_result (loadPeerContext (self_identity c) (client_state c) clock)) in
    let! _ := assign (fun c => c <| context := Some ctx |>) in
    if closed c then ret tt else
    let! url := answer (of_result (websocketURL (c_routeURL ctx))) in
    match socket_error url with
    | Some error => raise error
    | None =>
        let! s := gets (fun w => length (sockets w)) in
        let! _ := modify (fun w => w <| sockets := sockets w ++ [mkSocket CONNECTING 0] |>) in
        let! _ := emit (NewSocket s url SUBPROTOCOL) in
        let! _ := assign (fun c => c <| ws := Some s |>) in
        let! t := setTimeout (default TUNNEL_TIMEOUT_MS (timeoutMs (options c))) in
        assign (fun c => c <| timeout := Some t |>)
    end) fail.

(** The timer of [open]. *)
Definition timer_fired : M unit := fail (js "peer transport: timeout").

(** [random]: the ticket and the attempt that the browser generates. *)
Definition ws_onopen (s : nat) (random : outcome (bytes * jsstr)) : M unit :=
  catch (
    let! random := answer random in
    let '(ticket, attempt) := random in
    let! _ := assign (fun c => c <| pendingTicket := Some ticket |> <| pendingAttemptId := attempt |>) in
    let! c := get_this in
    ws_send_text s (openMessage (options c) (self_identity c) ticket attempt)) fail.

Definition chain_job (job : Job) : M unit :=
  modify (fun w => w <| receiveChain := chain_then job (receiveChain w) |>).

Definition ws_onclose : M unit :=
  let! already := self closed in
  when (negb already) (fail (js "peer transport: signaling endpoint unavailable")).

(** ** Sending *)

Definition active_leg (c : PeerTunnel) : Leg := if is_quick_tunnel (options c) then SignalLeg else DataLeg.
Definition activeCodec (c : PeerTunnel) : option DirectClientRecordCodec := codec_of (active_leg c) c.

Fixpoint seal_and_send (s : nat) (fragments : list bytes) : M unit :=
  match fragments with
  | [] => ret tt
  | fragment :: rest =>
      let! record := on_codec SignalLeg (seal DirectRecordKind.SignalFragment fragment) in
      let! _ := ws_send_bytes s record in
      seal_and_send s rest
  end.

Definition sendSignal (type : SignalType) (payload : jsstr) : M unit :=
  let! c := get_this in
  match ws c, signalCodec c with
  | Some s, Some _ =>
      let data := signalPayload type payload in
      if zlen data <=? MAX_DIRECT_RECORD_PLAINTEXT then
        let! record := on_codec SignalLeg (seal DirectRecordKind.Signal data) in
        ws_send_bytes s record
      else
        raise_if (SIGNAL_LIMIT <? zlen data) "peer transport: oversized browser signal" ;;;
        let! _ := assign (fun c => c <| nextSignalId := nextSignalId c + 1 |>) in
        let! fragments := answer (of_result (fragmentPeerSignal (nextSignalId c) data)) in
        seal_and_send s fragments
  | _, _ => raise (js "peer transport: signaling unavailable")
  end.

(** What [listQuickTunnelPeerSessions] does to the transport it made when the
    transport reports its authentication: it seals a request with the codec of
    the transport and sends it on its socket. *)
Fixpoint send_each (s : nat) (records : list bytes) : M unit :=
  match records with
  | [] => ret tt
  | record :: rest => let! _ := ws_send_bytes s record in send_each s rest
  end.

Fixpoint seal_each (kind : Z) (parts : list bytes) : M (list bytes) :=
  match parts with
  | [] => ret []
  | part :: rest =>
      let! record := on_codec SignalLeg (seal kind part) in
      let! records := seal_each kind rest in
      ret (record :: records)
  end.

Definition catalog_request : bytes := utf8_encode (JSON_stringify (JObj [(js "v", jint 1)])).

Definition requestCatalog : M unit :=
  let payload := catalog_request in
  let! c := get_this in
  let! records :=
    if zlen payload <=? MAX_DIRECT_RECORD_PLAINTEXT then seal_each DirectRecordKind.CatalogRequest [payload]
    else
      let! _ := assign (fun c => c <| nextSignalId := nextSignalId c + 1 |>) in
      let! parts := answer (of_result (configFragment DirectRecordKind.CatalogRequest (nextSignalId c) payload)) in
      seal_each DirectRecordKind.ConfigFragment parts in
  match ws c with
  | Some s => send_each s records
  | None => raise (js "TypeError")
  end.

(** The socket or the channel that carries the route: its number, whether it
    is open and how much it has buffered. *)
Definition target (c : PeerTunnel) (w : TunnelWorld) : option (nat * bool * Z) :=
  if is_quick_tunnel (options c) then
    match ws c with
    | None => None
    | Some s => Some (s, bool_decide (socket_state s w = OPEN),
                      match sockets w !! s with Some x => socketBuffered x | None => 0 end)
    end
  else
    match dc c with
    | None => None
    | Some d => Some (d, bool_decide (channel_state d w = OPEN),
                      match channels w !! d with Some x => channelBuffered x | None => 0 end)
    end.

Definition target_send (id : nat) (data : bytes) : M unit :=
  let! c := get_this in
  if is_quick_tunnel (options c) then ws_send_bytes id data else dc_send id data.

Fixpoint send_records (id : nat) (records : list bytes) : M unit :=
  match records with
  | [] => ret tt
  | record :: rest =>
      let! _ := target_send id record in
      send_records id rest
  end.

Definition sendFrame (frame : bytes) : M bool :=
  let! c := get_this in
  let! found := gets (target c) in
  match found with
  | Some (id, true, buffered) =>
      if negb (authenticated c) || bool_decide (activeCodec c = None) then ret false
      else if BUFFERED_HIGH_WATER <? buffered then
        let! _ := fail (js "peer transport: backpressure limit") in
        ret false
      else
        catch (let! records := on_codec (active_leg c) (sealFrame frame) in
               let! _ := send_records id records in
               ret true)
              (fun error => let! _ := fail error in ret false)
  | _ => ret false
  end.

(** ** Records *)

Definition readySeq (plaintext : bytes) : result Z :=
  throw_if (negb (zlen plaintext =? 8)) "peer transport: invalid ready record" ;;;
  let* seq := getUint 8 plaintext 0 in
  throw_if (MAX_SAFE_INTEGER <? seq) "peer transport: replay cursor out of range" ;;;
  Ok seq.

(** [handleRecord]; [depth] bounds the recursion on a completed message, whose
    kind is never [ConfigFragment] again. *)
Fixpoint handleRecord (depth : nat) (kind : Z) (plaintext : bytes) : M unit :=
  if kind =? DirectRecordKind.ConfigFragment then
    let! t := gets now in
    let! complete := on_config_fragment (addConfigFragment plaintext t) in
    match complete, depth with
    | Some (kind, payload), S depth => handleRecord depth kind payload
    | Some _, O => raise (js "out of fuel")
    | None, _ => ret tt
    end
  else if kind =? DirectRecordKind.Frame then emit (Calls (CbFrame plaintext))
  else if kind =? DirectRecordKind.Fragment then
    let! t := gets now in
    let! frame := on_reassembler (add plaintext t) in
    match frame with Some frame => emit (Calls (CbFrame frame)) | None => ret tt end
  else if kind =? DirectRecordKind.DirectReady then
    let! seq := answer (of_result (readySeq plaintext)) in
    emit (Calls (CbReady seq))
  else if kind =? DirectRecordKind.Ping then
    let! c := get_this in
    let! found := gets (target c) in
    match activeCodec c, found with
    | Some _, Some (id, _, _) =>
        let! pong := on_codec (active_leg c) (seal DirectRecordKind.Pong plaintext) in
        target_send id pong
    | _, _ => raise (js "peer transport: pong route unavailable")
    end
  else if (kind =? DirectRecordKind.ConfigInventory) || (kind =? DirectRecordKind.ConfigBatch)
          || (kind =? DirectRecordKind.ConfigAck) || (kind =? DirectRecordKind.CatalogResponse) then
    let! c := get_this in
    if controlled c then emit (ConfigMessage kind plaintext)
    else raise (js "peer transport: unexpected control record " ++ String_ (jint kind))
  else if kind =? DirectRecordKind.Close then raise (js "peer transport: host closed route")
  else ret tt.

(** ** The direct route *)

Definition default_ice_servers : Json :=
  JArr [JObj [(js "urls", JArr [JStr (js "stun:stun.cloudflare.com:3478")])]].

(** What [new RTCPeerConnection] and [createDataChannel] throw, if they do. *)
Record RtcAnswers := mkRtcAnswers { rtc_peer : outcome unit; rtc_channel : outcome unit }.

(** [startWebRTC] up to [await PeerClientHandshake.create(...)]. *)
Definition startWebRTC (f : RtcAnswers) : M (option Waiting) :=
  let! c := get_this in
  match tunnel_authorization c, context c with
  | Some auth, Some _ =>
      raise_if (negb rtc_supported) "peer transport: WebRTC unavailable" ;;;
      let! _ := answer (rtc_peer f) in
      let! p := gets (fun w => length (peers w)) in
      let! _ := modify (fun w => w <| peers := peers w ++ [(js "new", js "new")] |>) in
      let! _ := emit (NewPeerConnection p (default default_ice_servers (iceServers (options c)))) in
      let! _ := assign (fun c => c <| pc := Some p |>) in
      let! _ := answer (rtc_channel f) in
      let! d := gets (fun w => length (channels w)) in
      let! _ := modify (fun w => w <| channels := channels w ++ [mkTunnelChannel CONNECTING 0 false] |>) in
      let! _ := emit (NewDataChannel d p) in
      let! _ := assign (fun c => c <| dc := Some d |>) in
      let! called := gets now in
      ret (Some (InCreate DataLeg auth called p))
  | _, _ => raise (js "peer transport: WebRTC unavailable")
  end.

Definition pc_onicecandidate (candidate : option Json) : M unit :=
  match candidate with
  | Some candidate => sendSignal S_ice_candidate (JSON_stringify candidate)
  | None => sendSignal S_ice_end []
  end.

Definition broken (state : jsstr) : bool := bool_decide (state ∈ [js "failed"; js "disconnected"; js "closed"]).

Definition pc_oniceconnectionstatechange (state : jsstr) : M unit :=
  let! _ := emit (Calls (CbDiagnostics (mkDiagnostics (Some (js "direct")) (Some state) None))) in
  when (broken state) (fail (js "peer transport: ICE " ++ state)).

Definition pc_onconnectionstatechange (state : jsstr) : M unit :=
  when (broken state) (fail (js "peer transport: direct " ++ state)).

Definition applySignal (signal : SignalMessage) : M (option Waiting) :=
  let! p := self pc in
  match p with
  | None => raise (js "peer transport: WebRTC signal without peer connection")
  | Some p =>
      match sig_type signal with
      | S_answer =>
          let! description := answer (of_result (JSON_parse (sig_payload signal))) in
          let! _ := emit (PeerConnectionCall p (SetRemoteDescription description)) in
          ret (Some InSignal)
      | S_ice_candidate =>
          let! candidate := answer (of_result (JSON_parse (sig_payload signal))) in
          let! _ := emit (PeerConnectionCall p (AddIceCandidate candidate)) in
          ret (Some InSignal)
      | S_ice_end => ret None
      | type => raise (js "peer transport: unexpected signal " ++ signal_text type)
      end
  end.

Definition dc_onopen (d : nat) : M unit :=
  catch (let! hello := on_handshake DataLeg clientHello in
         let! _ := dc_send d hello in
         assign (fun c => c <| stage := St_data_handshake_host |>)) fail.

(** ** Handling a message *)

(** [handleHostHello] of a handshake up to its first [await]. *)
Definition begin_hello (leg : Leg) (to : nat) (message : bytes) : M (option Waiting) :=
  let! o := settled (on_handshake leg (handleHostHello message)) in
  ret (Some (match o with Done awaiting => InHello leg to awaiting | Raise e => HelloSettled leg to (Raise e) end)).

(** The signals of a record, if it completes one. *)
Definition signal_of_record (kind : Z) (plaintext : bytes) : M (option bytes) :=
  if kind =? DirectRecordKind.Signal then ret (Some plaintext)
  else let! t := gets now in on_signal_fragment (addSignalFragment plaintext t).

Definition handleSignalRecord (kind : Z) (plaintext : bytes) : M (option Waiting) :=
  raise_if (negb (kind =? DirectRecordKind.Signal) && negb (kind =? DirectRecordKind.SignalFragment))
    "peer transport: unexpected signaling record" ;;;
  let! payload := signal_of_record kind plaintext in
  match payload with
  | None => ret None
  | Some payload =>
      let! signal := answer (of_result (parseSignal payload)) in
      let! c := get_this in
      if bool_decide (sig_type signal = S_wss_ready) && is_quick_tunnel (options c) then
        let! _ := assign (fun c => c <| authenticated := true |> <| stage := St_records |>) in
        let! _ := clearTimeout in
        let! _ := emit (Calls (CbDiagnostics (mkDiagnostics (Some (js "quick_tunnel")) None None))) in
        let! _ := emit (Calls CbAuthenticated) in
        ret None
      else applySignal signal
  end.

(** [handleWSMessage], up to its first [await]; the recursion of
    [handleRecord] ends within 2. *)
Definition handleWSMessage (f : RtcAnswers) (data : EventData) : M (option Waiting) :=
  let! c := get_this in
  match context c, ws c with
  | Some ctx, Some s =>
      match stage c with
      | St_authorization =>
          let! t := gets now in
          let! auth := answer (of_result (authorize (options c) ctx (pendingTicket c) (pendingAttemptId c) t data)) in
          let! _ := assign (fun c => c <| tunnel_authorization := Some auth |>) in
          ret (Some (InCreate SignalLeg auth t 0))
      | St_signal_handshake_host =>
          let! message := answer (of_result (asBytes data)) in
          begin_hello SignalLeg s message
      | St_signal_handshake_ok =>
          let! message := answer (of_result (asBytes data)) in
          let! keys := on_handshake SignalLeg (handleAuthOK message) in
          let! _ := assign (fun c => c <| signalCodec := Some (new_codec keys) |> <| stage := St_signals |>) in
          if is_quick_tunnel (options c) then
            let! _ := sendSignal S_wss_fallback [] in
            ret None
          else startWebRTC f
      | _ =>
          let! message := answer (of_result (asBytes data)) in
          raise_if (bool_decide (signalCodec c = None)) "peer transport: signal codec unavailable" ;;;
          let! opened := on_codec SignalLeg (DirectHandshake.open message) in
          if is_quick_tunnel (options c) && authenticated c then
            let! _ := handleRecord 2 (fst opened) (snd opened) in
            ret None
          else handleSignalRecord (fst opened) (snd opened)
      end
  | _, _ => raise (js "peer transport: state unavailable")
  end.

Definition handleDataMessage (message : bytes) : M (option Waiting) :=
  let! c := get_this in
  match dc c, dataHandshake c with
  | Some d, Some _ =>
      match stage c with
      | St_data_handshake_host => begin_hello DataLeg d message
      | St_data_handshake_ok =>
          let! keys := on_handshake DataLeg (handleAuthOK message) in
          let! _ := assign (fun c => c <| dataCodec := Some (new_codec keys) |> <| stage := St_records |>
                                       <| authenticated := true |>) in
          let! _ := clearTimeout in
          let! _ := emit (Calls CbAuthenticated) in
          ret None
      | _ =>
          raise_if (bool_decide (dataCodec c = None)) "peer transport: data codec unavailable" ;;;
          let! opened := on_codec DataLeg (DirectHandshake.open message) in
          let! _ := handleRecord 2 (fst opened) (snd opened) in
          ret None
      end
  | _, _ => raise (js "peer transport: data handshake unavailable")
  end.

Definition run_job (f : RtcAnswers) (job : Job) : M (option Waiting) :=
  match job with
  | SocketJob data => handleWSMessage f data
  | ChannelJob data => let! message := answer (of_result (asBytes data)) in handleDataMessage message
  end.

Definition suspend (waiting : option Waiting) : M unit :=
  modify (fun w => w <| receiveChain := chain_suspend waiting (receiveChain w) |>).

(** The next job of the chain, with its [catch]. *)
Definition receive_turn (f : RtcAnswers) : M unit :=
  let! next := gets (fun w => chain_next (receiveChain w)) in
  match next with
  | None => ret tt
  | Some (job, rest) =>
      let! _ := modify (fun w => w <| receiveChain := rest |>) in
      catch (let! waiting := run_job f job in suspend waiting) fail
  end.

(** What the awaited operation of a suspended call answers. *)
Inductive Answer :=
  | KeyPair (o : outcome (bytes * Jwk))
  | Proceed                                        (* the next step of a handshake call *)
  | Settled (o : outcome unit)
  | LocalDescription (o : outcome unit) (description : Json).

(** The handshake that [PeerClientHandshake.create] gives. *)
Definition create_handshake (c : PeerTunnel) (auth : DirectAuthorization) (called : Z) (o : outcome (bytes * Jwk))
    : outcome PeerClientHandshake :=
  match context c, o with
  | Some ctx, Done (publicKey, jwk) =>
      of_result (create auth (self_identity c) (c_genesis ctx) (c_localMembership ctx) (c_hostMembership ctx) called
                   publicKey jwk)
  | None, _ => Raise (js "TypeError")
  | _, Raise error => Raise error
  end.

(** What follows [await PeerClientHandshake.create(...)]: in [handleWSMessage],
    and in [startWebRTC] up to [await pc.createOffer()]. *)
Definition created_signal (h : PeerClientHandshake) : M (option Waiting) :=
  let! _ := assign (fun c => c <| signalHandshake := Some h |>) in
  let! s := self ws in
  match s with
  | None => raise (js "TypeError: this.ws is null")
  | Some s =>
      let! hello := on_handshake SignalLeg clientHello in
      let! _ := ws_send_bytes s hello in
      let! _ := assign (fun c => c <| stage := St_signal_handshake_host |>) in
      ret None
  end.

Definition listen (c : TunnelChannel) : TunnelChannel := c <| listening := true |>.

Definition created_data (p : nat) (h : PeerClientHandshake) : M (option Waiting) :=
  let! _ := assign (fun c => c <| dataHandshake := Some h |>) in
  let! _ := modify (fun w => w <| channels := map listen (channels w) |>) in
  let! _ := emit (PeerConnectionCall p CreateOffer) in
  ret (Some (InOffer p)).

(** What follows a HOST_HELLO: the CLIENT_FINISH is sent to the object that
    was there before the [await]. *)
Definition hello_settled (leg : Leg) (to : nat) (o : outcome bytes) : M (option Waiting) :=
  let! finish_message := answer o in
  let! _ := match leg with SignalLeg => ws_send_bytes to finish_message | DataLeg => dc_send to finish_message end in
  let! _ := assign (fun c => c <| stage := match leg with SignalLeg => St_signal_handshake_ok
                                                       | DataLeg => St_data_handshake_ok end |>) in
  ret None.

(** The continuation of a suspended call. *)
Definition continue (waiting : Waiting) (ans : Answer) : M (option Waiting) :=
  match waiting, ans with
  | InCreate leg auth called p, KeyPair o =>
      let! c := get_this in
      let! h := answer (create_handshake c auth called o) in
      match leg with SignalLeg => created_signal h | DataLeg => created_data p h end
  | InHello leg to awaiting, Proceed =>
      let! o := settled (on_handshake leg (handleHostHello_resume awaiting)) in
      ret (Some (match o with
                 | Done (inl awaiting') => InHello leg to awaiting'
                 | Done (inr finish_message) => HelloSettled leg to (Done finish_message)
                 | Raise e => HelloSettled leg to (Raise e)
                 end))
  | HelloSettled leg to o, Proceed => hello_settled leg to o
  | InOffer p, Settled o =>
      let! _ := answer o in
      let! _ := emit (PeerConnectionCall p SetLocalDescription) in
      ret (Some InLocalDescription)
  | InLocalDescription, LocalDescription o description =>
      let! _ := answer o in
      let! _ := sendSignal S_offer (JSON_stringify description) in
      ret None
  | InSignal, Settled o =>
      let! _ := answer o in
      ret None
  | _, _ => ret (Some waiting)
  end.

(** The suspended call resumes, with the [catch] of its job. *)
Definition receive_resume (ans : Answer) : M unit :=
  let! waiting := gets (fun w => suspended_job (receiveChain w)) in
  match waiting with
  | None => ret tt
  | Some waiting =>
      let! _ := suspend None in
      catch (let! next := continue waiting ans in suspend next) fail
  end.

(** ** The event loop *)

Inductive Event :=
  | EvStart
  | EvSendFrame (frame : bytes)
  | EvClose
  | EvCallbackThrew (error : jsstr)
  | EvRequestCatalog
  | EvContext (clock : nat -> Z)
  | EvSocketOpen (s : nat) (random : outcome (bytes * jsstr))
  | EvSocketMessage (s : nat) (data : EventData)
  | EvSocketClosing (s : nat)
  | EvSocketClose (s : nat)
  | EvSocketBuffered (s : nat) (amount : Z)
  | EvTimer (t : nat)
  | EvTurn (f : RtcAnswers)
  | EvResume (ans : Answer)
  | EvIceCandidate (p : nat) (candidate : option Json)
  | EvIceState (p : nat) (state : jsstr)
  | EvPeerState (p : nat) (state : jsstr)
  | EvChannelOpen (d : nat)
  | EvChannelMessage (d : nat) (data : EventData)
  | EvChannelError (d : nat)
  | EvChannelClose (d : nat)
  | EvChannelBuffered (d : nat) (amount : Z)
  | EvNow (t : Z).

Definition socket_is (id : nat) (states : list ReadyState) (w : TunnelWorld) : bool :=
  match sockets w !! id with Some s => bool_decide (socketState s ∈ states) | None => false end.

Definition channel_is (id : nat) (states : list ReadyState) (w : TunnelWorld) : bool :=
  match channels w !! id with Some c => bool_decide (channelState c ∈ states) | None => false end.

(** A handler of a channel is called once it has been set. *)
Definition if_listening (d : nat) (handler : M unit) : M unit :=
  let! go := gets (fun w => match channels w !! d with Some c => listening c | None => false end) in
  when go handler.

(** What the browser does, and the handler it then calls. *)
Definition dispatch (e : Event) : M unit :=
  match e with
  | EvStart => start
  | EvSendFrame frame => let! _ := sendFrame frame in ret tt
  | EvClose => close
  | EvCallbackThrew error => fail error
  | EvRequestCatalog => requestCatalog
  | EvContext clock =>
      let! go := gets opening in
      when go (open_continue clock)
  | EvSocketOpen s random =>
      let! go := gets (socket_is s [CONNECTING]) in
      when go (let! _ := set_socket s OPEN in ws_onopen s random)
  | EvSocketMessage s data =>
      let! go := gets (socket_is s [OPEN]) in
      when go (chain_job (SocketJob data))
  | EvSocketClosing s =>
      let! go := gets (socket_is s [CONNECTING; OPEN]) in
      when go (set_socket s CLOSING)
  | EvSocketClose s =>
      let! go := gets (socket_is s [CONNECTING; OPEN; CLOSING]) in
      when go (let! _ := set_socket s CLOSED in ws_onclose)
  | EvSocketBuffered s amount =>
      modify (fun w => w <| sockets := alter (fun x => mkSocket (socketState x) amount) s (sockets w) |>)
  | EvTimer t =>
      let! go := gets (fun w => bool_decide (t ∈ timers w)) in
      when go (let! _ := modify (fun w => w <| timers := filter (fun u => u <> t) (timers w) |>) in timer_fired)
  | EvTurn f => receive_turn f
  | EvResume ans => receive_resume ans
  | EvIceCandidate p candidate =>
      let! go := gets (fun w => bool_decide (is_Some (peers w !! p))) in
      when go (pc_onicecandidate candidate)
  | EvIceState p state =>
      let! go := gets (fun w => bool_decide (is_Some (peers w !! p))) in
      when go (
        let! _ := modify (fun w => w <| peers := alter (fun x => (state, snd x)) p (peers w) |>) in
        pc_oniceconnectionstatechange state)
  | EvPeerState p state =>
      let! go := gets (fun w => bool_decide (is_Some (peers w !! p))) in
      when go (
        let! _ := modify (fun w => w <| peers := alter (fun x => (fst x, state)) p (peers w) |>) in
        pc_onconnectionstatechange state)
  | EvChannelOpen d =>
      let! go := gets (channel_is d [CONNECTING]) in
      when go (
        let! _ := alter_channel (fun c => c <| channelState := OPEN |>) d in
        if_listening d (dc_onopen d))
  | EvChannelMessage d data =>
      let! go := gets (channel_is d [OPEN]) in
      when go (if_listening d (chain_job (ChannelJob data)))
  | EvChannelError d =>
      let! go := gets (channel_is d [CONNECTING; OPEN; CLOSING]) in
      when go (if_listening d (fail (js "peer transport: data channel error")))
  | EvChannelClose d =>
      let! go := gets (channel_is d [CONNECTING; OPEN; CLOSING]) in
      when go (
        let! _ := alter_channel (fun c => c <| channelState := CLOSED |>) d in
        if_listening d (let! already := self closed in
                        when (negb already) (fail (js "peer transport: data channel closed"))))
  | EvChannelBuffered d amount => alter_channel (fun c => c <| channelBuffered := amount |>) d
  | EvNow t => modify (fun w => w <| now := t |>)
  end.

Definition step (e : Event) (w : TunnelWorld) : TunnelWorld := fst (dispatch e w).

Definition run (events : list Event) (w : TunnelWorld) : TunnelWorld := fold_left (fun w e => step e w) events w.

(** The run time around a new transport at time [t]. *)
Definition init (c : PeerTunnel) (t : Z) : TunnelWorld :=
  mkTunnelWorld c false [] [] [] new_chain [] 0 t [].

(** The callbacks of a trace. *)
Definition calls (l : list TunnelEffect) : list Callback :=
  omap (fun e => match e with Calls cb => Some cb | _ => None end) l.

(** The callbacks with the control messages among them, each as a frame. *)
Definition reports (l : list TunnelEffect) : list Callback :=
  omap (fun e => match e with Calls cb => Some cb | ConfigMessage _ payload => Some (CbFrame payload) | _ => None end) l.
End Tunnel.
