(* ===== verification/QuickTunnelInv.v ===== *)
(** * The invariant of the peer tunnel transport

    The invariant speaks of the fields that decide what may happen next, the
    [TView] of the state: most methods leave the view as it is. The handshake
    objects are where a history of [PeerHandshake] leads, with the call that
    the chain is suspended in. *)

From S2P Require Import Prelude Bytes JsString JsMap Json DirectCrypto DirectFraming DirectHandshake.
From S2P Require Import EventLoop Transport NativeDirect PeerIdentity PeerDocuments PeerState PeerHandshake.
From S2P Require Import PeerFragments QuickTunnel.

(** ** Handshake objects that a history leads to *)

Section Reached.
Context `{Crypto} `{PeerCrypto} `{WebCrypto}.
Context (auth : DirectAuthorization) (me : PeerIdentity) (space : VerifiedGenesis)
        (client_membership host_membership : VerifiedGrant).

Definition reached (h : PeerClientHandshake) (awaiting : option Awaiting) : Prop :=
  exists now public_key jwk h0 events,
    create auth me space client_membership host_membership now public_key jwk = Ok h0 /\
    ph_self (ph_run events h0) = h /\ ph_awaiting (ph_run events h0) = awaiting.

(** The keys of a handshake that has completed. *)
Definition completed (k : DirectHandshakeKeys) : Prop :=
  exists now public_key jwk h0 events message h',
    create auth me space client_membership host_membership now public_key jwk = Ok h0 /\
    handleAuthOK message (ph_self (ph_run events h0)) = (h', Ok k).

Lemma ph_run_snoc events event h0 : ph_run (events ++ [event]) h0 = ph_step event (ph_run events h0).
Proof. unfold ph_run. by rewrite fold_left_app. Qed.

Lemma reached_step h a event :
  reached h a -> exists w, ph_self w = h /\ ph_awaiting w = a /\
    reached (ph_self (ph_step event w)) (ph_awaiting (ph_step event w)).
Proof.
  intros (now & pk & jwk & h0 & events & Hc & Hs & Ha). exists (ph_run events h0). split_and!; [done..|].
  exists now, pk, jwk, h0, (events ++ [event]). by rewrite ph_run_snoc.
Qed.

Lemma reached_create now pk jwk h0 :
  create auth me space client_membership host_membership now pk jwk = Ok h0 -> reached h0 None.
Proof. intros Hc. by exists now, pk, jwk, h0, []. Qed.

Lemma reached_hello h a : reached h a -> reached (fst (clientHello h)) a.
Proof. intros Hr. destruct (reached_step _ _ PhHello Hr) as (w & <- & <- & Hr'). by destruct w as [? []]. Qed.

Lemma reached_dispose h a : reached h a -> reached (fst (dispose h)) a.
Proof. intros Hr. destruct (reached_step _ _ PhDispose Hr) as (w & <- & <- & Hr'). by destruct w as [? []]. Qed.

Lemma reached_host_hello h m :
  reached h None ->
  reached (fst (handleHostHello m h)) (match snd (handleHostHello m h) with Ok a => Some a | Throw _ => None end).
Proof.
  intros Hr. destruct (reached_step _ _ (PhHostHello m) Hr) as (w & <- & Ha & Hr'). destruct w as [h a f].
  cbn [ph_awaiting ph_self] in *. subst a. cbn [ph_step ph_self ph_awaiting] in Hr'.
  by destruct (handleHostHello m h) as [h' [a|e]].
Qed.

Lemma reached_resume h a :
  reached h (Some a) ->
  reached (fst (handleHostHello_resume a h))
    (match snd (handleHostHello_resume a h) with Ok (inl a') => Some a' | _ => None end).
Proof.
  intros Hr. destruct (reached_step _ _ PhSettle Hr) as (w & <- & Ha & Hr'). destruct w as [h' a' f].
  cbn [ph_awaiting ph_self] in *. subst a'. cbn [ph_step ph_self ph_awaiting] in Hr'.
  by destruct (handleHostHello_resume a h') as [h'' [[a'|fin]|e]].
Qed.

Lemma reached_auth_ok h m :
  reached h None ->
  reached (fst (handleAuthOK m h)) None /\
  forall k, snd (handleAuthOK m h) = Ok k -> completed k /\ keys (fst (handleAuthOK m h)) = Some k.
Proof.
  intros Hr. split.
  - destruct (reached_step _ _ (PhAuthOK m) Hr) as (w & <- & Ha & Hr'). destruct w as [h' a f].
    cbn [ph_awaiting ph_self] in *. subst a. exact Hr'.
  - intros k Hk. destruct Hr as (now & pk & jwk & h0 & events & Hc & <- & _). split.
    + exists now, pk, jwk, h0, events, m, (fst (handleAuthOK m (ph_self (ph_run events h0)))). split; [done|].
      rewrite <- Hk. by destruct (handleAuthOK m _).
    + revert Hk. unfold handleAuthOK. mrun. split_guard; [done|].
      destruct (keys (ph_self (ph_run events h0))) as [x|] eqn:E; [|done]. cbn. by intros [= ->].
Qed.
End Reached.

(** ** The view and the invariant *)

Section View.
Context `{Crypto} `{PeerCrypto} `{WebCrypto} `{JsText} `{Platform} `{UrlText} `{TunnelBrowser}.

(** The owner has been told of the authentication. *)
Definition spoken (l : list TunnelEffect) : bool :=
  existsb (fun e => match e with Calls CbAuthenticated => true | _ => false end) l.

(** [v_channels]: of each channel, whether it is connecting and whether its
    handlers are set. *)
Record TView := mkTView {
  v_options : TunnelOptions;
  v_identity : PeerIdentity;
  v_state : PeerClientState;
  v_started : bool;
  v_opening : bool;
  v_closed : bool;
  v_authenticated : bool;
  v_ws : option nat;
  v_pc : option nat;
  v_dc : option nat;
  v_timeout : option nat;
  v_timers : list nat;
  v_stage : Stage;
  v_waiting : option Waiting;
  v_channels : list (bool * bool);
  v_signal : option PeerClientHandshake;
  v_data : option PeerClientHandshake;
  v_signal_keys : option DirectHandshakeKeys;
  v_data_keys : option DirectHandshakeKeys;
  v_authorization : option DirectAuthorization;
  v_context : option PeerContext;
  v_phase : option Phase;
  v_spoken : bool;
}.

#[export] Instance eta_tview : Eta TView :=
  fun v => mkTView (v_options v) (v_identity v) (v_state v) (v_started v) (v_opening v) (v_closed v)
    (v_authenticated v) (v_ws v) (v_pc v) (v_dc v) (v_timeout v) (v_timers v) (v_stage v) (v_waiting v) (v_channels v)
    (v_signal v) (v_data v) (v_signal_keys v) (v_data_keys v) (v_authorization v) (v_context v) (v_phase v)
    (v_spoken v).

Definition channel_view (c : TunnelChannel) : bool * bool := (bool_decide (channelState c = CONNECTING), listening c).

Definition tview (w : TunnelWorld) : TView :=
  let c := this w in
  mkTView (options c) (self_identity c) (client_state c) (started c) (opening w) (closed c) (authenticated c)
    (ws c) (pc c) (dc c) (timeout c) (timers w) (stage c) (suspended_job (receiveChain w))
    (map channel_view (channels w)) (signalHandshake c) (dataHandshake c)
    (option_map codec_keys (signalCodec c)) (option_map codec_keys (dataCodec c))
    (tunnel_authorization c) (context c) (observe_all Attempting (reports (trace w))) (spoken (trace w)).

Definition v_handshake (leg : Leg) (v : TView) : option PeerClientHandshake :=
  match leg with SignalLeg => v_signal v | DataLeg => v_data v end.
Definition v_keys (leg : Leg) (v : TView) : option DirectHandshakeKeys :=
  match leg with SignalLeg => v_signal_keys v | DataLeg => v_data_keys v end.

(** The leg that carries the route. *)
Definition v_active (v : TView) : Leg := if is_quick_tunnel (v_options v) then SignalLeg else DataLeg.

(** The call of the handshake of a leg that the chain is suspended in. *)
Definition awaiting_of (leg : Leg) (waiting : option Waiting) : option Awaiting :=
  match leg, waiting with
  | SignalLeg, Some (InHello SignalLeg _ a) | DataLeg, Some (InHello DataLeg _ a) => Some a
  | _, _ => None
  end.

(** An erased key. *)
Definition erased (k : DirectHandshakeKeys) : Prop := erase_keys k = k.

(** Where a suspended call may stand. *)
Definition stage_of_waiting (waiting : Waiting) (v : TView) : Prop :=
  match waiting with
  | InCreate SignalLeg auth _ _ => v_stage v = St_authorization /\ v_authorization v = Some auth
  | InCreate DataLeg auth _ _ =>
      v_stage v = St_signals /\ v_authorization v = Some auth /\ Forall (fun c => snd c = false) (v_channels v)
  | InHello SignalLeg _ _ | HelloSettled SignalLeg _ _ => v_stage v = St_signal_handshake_host
  | InHello DataLeg _ _ | HelloSettled DataLeg _ _ => v_stage v = St_data_handshake_host
  | _ => True
  end.

(** What has not happened before a stage: no channel before the signals, no
    codec before its handshake has completed. *)
Definition early (v : TView) : Prop :=
  match v_stage v with
  | St_authorization | St_signal_handshake_host | St_signal_handshake_ok =>
      v_channels v = [] /\ v_signal_keys v = None /\ v_data_keys v = None
  | St_signals | St_data_handshake_host | St_data_handshake_ok => (length (v_channels v) <= 1)%nat /\ v_data_keys v = None
  | St_records => (length (v_channels v) <= 1)%nat
  end.

Definition handshake_ok (leg : Leg) (v : TView) : Prop :=
  forall h, v_handshake leg v = Some h ->
    exists auth ctx, v_authorization v = Some auth /\ v_context v = Some ctx /\
      reached auth (v_identity v) (c_genesis ctx) (c_localMembership ctx) (c_hostMembership ctx) h
        (awaiting_of leg (v_waiting v)).

Definition keys_ok (leg : Leg) (v : TView) : Prop :=
  forall k, v_keys leg v = Some k ->
    if v_closed v then erased k
    else (exists h, v_handshake leg v = Some h /\ keys h = Some k) /\
         exists auth ctx, v_authorization v = Some auth /\ v_context v = Some ctx /\
           completed auth (v_identity v) (c_genesis ctx) (c_localMembership ctx) (c_hostMembership ctx) k.

(** What the transport was made with, and whether its owner may close it. *)
Class Given := {
  given_options : TunnelOptions;
  given_identity : PeerIdentity;
  given_state : PeerClientState;
  given_quit : Prop;
}.

(** Documents, an authorization and a completed handshake that bear an
    authenticated route out. *)
Definition backed `{Given} : Prop :=
  exists ctx clock auth ticket attempt t data k,
    loadPeerContext given_identity given_state clock = Ok ctx /\
    authorize given_options ctx ticket attempt t data = Ok auth /\
    completed auth given_identity (c_genesis ctx) (c_localMembership ctx) (c_hostMembership ctx) k.

(** The invariant but for the first and the last stage. *)
Record winv `{Given} (v : TView) : Prop := mkWinv {
  i_phase : exists p, v_phase v = Some p /\ (v_closed v = false -> p = if v_authenticated v then Live else Attempting);
  i_closed : v_closed v = true ->
    v_ws v = None /\ v_pc v = None /\ v_dc v = None /\ v_timeout v = None /\ v_authenticated v = false;
  i_timers : Forall (fun t => v_timeout v = Some t) (v_timers v);
  i_opening : v_opening v = true -> v_started v = true;
  i_early : v_opening v = true \/ v_started v = false -> v_timeout v = None /\ v_context v = None;
  i_authenticated : v_authenticated v = true ->
    v_stage v = St_records /\ v_timeout v = None /\ v_keys (v_active v) v <> None;
  i_waiting : forall waiting, v_waiting v = Some waiting -> stage_of_waiting waiting v;
  i_channels : Forall (fun c => c = (true, true) -> v_stage v = St_signals) (v_channels v);
  i_stage : early v;
  i_context : forall ctx, v_context v = Some ctx ->
    exists clock, loadPeerContext (v_identity v) (v_state v) clock = Ok ctx;
  i_authorization : forall auth, v_authorization v = Some auth ->
    exists ctx ticket attempt t data, v_context v = Some ctx /\
      authorize (v_options v) ctx ticket attempt t data = Ok auth;
  i_handshakes : forall leg, handshake_ok leg v;
  i_keys : forall leg, keys_ok leg v;
  i_quick : is_quick_tunnel (v_options v) = true -> v_channels v = [] /\ v_dc v = None;
  i_given : v_options v = given_options /\ v_identity v = given_identity /\ v_state v = given_state;
  i_over : v_closed v = true -> given_quit \/ v_phase v = Some Over;
  i_backed : v_spoken v = true -> backed;
}.

(** No handshake before the first authorization, and at the last stage the
    route is authenticated. *)
Definition fresh (v : TView) : Prop :=
  match v_stage v with
  | St_authorization => v_closed v = false -> v_signal v = None /\ v_data v = None
  | St_records => v_closed v = false -> v_authenticated v = true
  | _ => True
  end.

Definition tinv `{Given} (v : TView) : Prop := winv v /\ fresh v.
End View.

(** ** The methods that leave the view alone *)

Section Quiet.
Context `{Crypto} `{PeerCrypto} `{WebCrypto} `{JsText} `{Platform} `{UrlText} `{TunnelBrowser}.

Lemma tunnel_reports_app l1 l2 : reports (l1 ++ l2) = reports l1 ++ reports l2.
Proof. apply omap_app. Qed.

(** An effect that is no callback, or a diagnostic. *)
Definition silent_effect (e : TunnelEffect) : bool :=
  match e with Calls (CbDiagnostics _) => true | Calls _ | ConfigMessage _ _ => false | _ => true end.

Lemma tunnel_phase_silent l e p : silent_effect e = true ->
  observe_all p (reports (l ++ [e])) = observe_all p (reports l).
Proof.
  intros He. rewrite tunnel_reports_app, observe_all_app. destruct (observe_all p (reports l)) as [q|]; [|done].
  destruct e as [| | | | | | | | | | |[]|]; try done; by destruct q.
Qed.

Lemma spoken_snoc l e : (forall cb, e = Calls cb -> cb <> CbAuthenticated) -> spoken (l ++ [e]) = spoken l.
Proof.
  intros He. unfold spoken. rewrite existsb_app. cbn. destruct e as [| | | | | | | | | | |[]|]; try apply orb_false_r.
  exfalso. by eapply He.
Qed.

Lemma spoken_silent l e : silent_effect e = true -> spoken (l ++ [e]) = spoken l.
Proof. intros He. apply spoken_snoc. by intros cb -> ->. Qed.

Lemma tun_emit e : silent_effect e = true -> preserves tview (emit e).
Proof.
  intros He. apply preserves_modify. intros w. unfold tview. cbn. by rewrite tunnel_phase_silent, spoken_silent.
Qed.
Hint Extern 3 (preserves tview (emit _)) => apply tun_emit; reflexivity : preserves.

Lemma tun_self {A} (f : PeerTunnel -> A) : preserves tview (self f).
Proof. unfold self. preserves_tac. Qed.

Lemma tun_get_this : preserves tview get_this.
Proof. unfold get_this. preserves_tac. Qed.
Hint Resolve tun_self tun_get_this : preserves.

Lemma codec_keys_seal kind p c : codec_keys (fst (seal kind p c)) = codec_keys c.
Proof. unfold seal. mrun. by destruct (sealDirectRecord _ _ _ _ _ _). Qed.

Lemma codec_keys_seal_map kind fragments c : codec_keys (fst (seal_map kind fragments c)) = codec_keys c.
Proof.
  revert c. induction fragments as [|f rest IH]; intros c; [done|]. cbn [seal_map]. unfold mbind.
  pose proof (codec_keys_seal kind f c) as Hf. destruct (seal kind f c) as [c1 [r|e]]; cbn in Hf |- *; [|done].
  specialize (IH c1). destruct (seal_map kind rest c1) as [c2 [rs|e]]; cbn in *; congruence.
Qed.

Lemma codec_keys_sealFrame frame c : codec_keys (fst (sealFrame frame c)) = codec_keys c.
Proof.
  unfold sealFrame. split_guard; unfold mbind.
  - pose proof (codec_keys_seal DirectRecordKind.Frame frame c) as Hf.
    by destruct (seal _ _ c) as [c1 [r|e]].
  - unfold mget, mlift, mput. destruct (fragmentDirectFrame _ _) as [fs|e]; [|done].
    by rewrite codec_keys_seal_map.
Qed.

Lemma codec_keys_open record c : codec_keys (fst (DirectHandshake.open record c)) = codec_keys c.
Proof. unfold DirectHandshake.open. mrun. by destruct (openDirectRecord _ _ _ _ _). Qed.

Lemma tun_on_codec {A} leg (m : method DirectClientRecordCodec A) :
  (forall c, codec_keys (fst (m c)) = codec_keys c) -> preserves tview (on_codec leg m).
Proof.
  intros Hm w. unfold on_codec. destruct (codec_of leg (this w)) as [c|] eqn:E; [|done].
  specialize (Hm c). destruct (m c) as [c' r]. destruct leg; cbn [codec_of] in E; unfold tview; cbn; rewrite E;
    cbn in Hm |- *; by rewrite Hm.
Qed.
Hint Extern 2 (preserves tview (on_codec _ _)) =>
  apply tun_on_codec; (apply codec_keys_seal || apply codec_keys_sealFrame || apply codec_keys_open) : preserves.

Lemma tun_on_reassembler {A} (m : method Reassembler A) : preserves tview (on_reassembler m).
Proof. intros w. unfold on_reassembler. by destruct (m _). Qed.

Lemma tun_on_signal_fragment {A} (m : method (option Collection) A) : preserves tview (on_signal_fragment m).
Proof. intros w. unfold on_signal_fragment. by destruct (m _). Qed.

Lemma tun_on_config_fragment {A} (m : method (option Collection) A) : preserves tview (on_config_fragment m).
Proof. intros w. unfold on_config_fragment. by destruct (m _). Qed.
Hint Resolve tun_on_reassembler tun_on_signal_fragment tun_on_config_fragment : preserves.

Lemma tun_ws_send s n e : silent_effect e = true -> preserves tview (ws_send s n e).
Proof. intros He. pose proof (tun_emit e He). unfold ws_send, add_socket_buffered. preserves_tac. Qed.

Lemma tun_ws_send_bytes s data : preserves tview (ws_send_bytes s data).
Proof. by apply tun_ws_send. Qed.

Lemma tun_ws_send_text s text : preserves tview (ws_send_text s text).
Proof. by apply tun_ws_send. Qed.

Lemma tun_alter_channel f d :
  (forall c, channel_view (f c) = channel_view c) -> preserves tview (alter_channel f d).
Proof.
  intros Hf. apply preserves_modify. intros w. unfold tview. cbn. f_equal.
  apply list_eq. intros i. rewrite !list_lookup_fmap. destruct (decide (i = d)) as [->|Hi].
  - rewrite list_lookup_alter_eq. destruct (channels w !! d); cbn; [by rewrite Hf|done].
  - by rewrite list_lookup_alter_ne.
Qed.

Lemma tun_dc_send d data : preserves tview (dc_send d data).
Proof.
  unfold dc_send. preserves_tac. apply tun_alter_channel. intros []. done.
Qed.
Hint Resolve tun_ws_send_bytes tun_ws_send_text tun_dc_send : preserves.

Lemma tun_set_socket s st : preserves tview (set_socket s st).
Proof. unfold set_socket. preserves_tac. Qed.
Hint Resolve tun_set_socket : preserves.

Lemma tun_ws_close s : preserves tview (ws_close s).
Proof. unfold ws_close. preserves_tac. Qed.

Lemma tun_pc_close p : preserves tview (pc_close p).
Proof. unfold pc_close. preserves_tac. Qed.

Lemma tun_seal_and_send s fragments : preserves tview (seal_and_send s fragments).
Proof. induction fragments as [|f rest IH]; cbn [seal_and_send]; preserves_tac. Qed.
Hint Resolve tun_ws_close tun_pc_close tun_seal_and_send : preserves.

Lemma tun_sendSignal type payload : preserves tview (sendSignal type payload).
Proof. unfold sendSignal, assign. preserves_tac. Qed.

Lemma tun_requestCatalog : preserves tview requestCatalog.
Proof.
  assert (Hseal : forall kind parts, preserves tview (seal_each kind parts))
    by (intros kind parts; induction parts as [|p rest IH]; cbn [seal_each]; preserves_tac).
  assert (Hsend : forall s records, preserves tview (send_each s records))
    by (intros s records; induction records as [|r rest IH]; cbn [send_each]; preserves_tac).
  unfold requestCatalog, assign. preserves_tac.
Qed.

Lemma tun_target_send id data : preserves tview (target_send id data).
Proof. unfold target_send. preserves_tac. Qed.
Hint Resolve tun_sendSignal tun_target_send : preserves.

Lemma tun_send_records id records : preserves tview (send_records id records).
Proof. induction records as [|r rest IH]; cbn [send_records]; preserves_tac. Qed.

Lemma tun_chain_job job : preserves tview (chain_job job).
Proof. unfold chain_job. preserves_tac. Qed.
Hint Resolve tun_send_records tun_chain_job : preserves.

Lemma tun_applySignal signal : preserves tview (applySignal signal).
Proof. unfold applySignal. preserves_tac. Qed.

Lemma tun_signal_of_record kind p : preserves tview (signal_of_record kind p).
Proof. unfold signal_of_record. preserves_tac. Qed.

Lemma tun_pc_onicecandidate candidate : preserves tview (pc_onicecandidate candidate).
Proof. unfold pc_onicecandidate. preserves_tac. Qed.
End Quiet.

#[export] Hint Extern 3 (preserves tview (emit _)) => apply tun_emit; reflexivity : preserves.
#[export] Hint Extern 2 (preserves tview (on_codec _ _)) =>
  apply tun_on_codec; (apply codec_keys_seal || apply codec_keys_sealFrame || apply codec_keys_open) : preserves.
#[export] Hint Resolve tun_self tun_get_this tun_on_reassembler tun_on_signal_fragment tun_on_config_fragment
  tun_ws_send_bytes tun_ws_send_text tun_dc_send tun_set_socket tun_ws_close tun_pc_close tun_seal_and_send
  tun_sendSignal tun_requestCatalog tun_target_send tun_send_records tun_chain_job tun_applySignal tun_signal_of_record
  tun_pc_onicecandidate : preserves.

(** ** Closing *)

Section Closing.
Context `{Crypto} `{PeerCrypto} `{WebCrypto} `{JsText} `{Platform} `{UrlText} `{TunnelBrowser} `{!Given}.
Implicit Types (w : TunnelWorld) (v : TView).

(** From [w], [m] returns in a state whose view is [v]. *)
Definition leads (m : M unit) w v : Prop := tview (fst (m w)) = v /\ snd (m w) = Done tt.

Lemma leads_bind (m : M unit) (k : unit -> M unit) w v v' :
  leads m w v -> (forall w', tview w' = v -> leads (k tt) w' v') -> leads (bind m k) w v'.
Proof.
  intros [Ev Er] Hk. unfold leads, bind in *. destruct (m w) as [w' [[]|e]]; cbn in *; [|done].
  by apply Hk.
Qed.

Lemma leads_gets {A} (f : TunnelWorld -> A) (k : A -> M unit) w v : leads (k (f w)) w v -> leads (bind (gets f) k) w v.
Proof. done. Qed.

Lemma leads_attempt (m : M unit) w v : tview (fst (m w)) = v -> leads (attempt m) w v.
Proof. intros <-. unfold leads, attempt, catch. by destruct (m w) as [w' [[]|e]]. Qed.

Definition closing (c : bool * bool) : bool * bool := (false, snd c).

(** What [dispose] leaves of the keys in a codec. *)
Definition keys_after (h : option PeerClientHandshake) (k : option DirectHandshakeKeys) : option DirectHandshakeKeys :=
  match h ≫= keys with Some x => option_map (fun _ => erase_keys x) k | None => k end.

Definition disposed (h : PeerClientHandshake) : PeerClientHandshake := fst (dispose h).

Definition dispose_view (leg : Leg) v : TView :=
  match leg with
  | SignalLeg => v <| v_signal_keys := keys_after (v_signal v) (v_signal_keys v) |>
                   <| v_signal := option_map disposed (v_signal v) |>
  | DataLeg => v <| v_data_keys := keys_after (v_data v) (v_data_keys v) |>
                 <| v_data := option_map disposed (v_data v) |>
  end.

Definition remaining (t : option nat) (l : list nat) : list nat :=
  match t with Some t => filter (fun u => u <> t) l | None => l end.

(** The view after [finish]. *)
Definition fin v : TView :=
  dispose_view DataLeg (dispose_view SignalLeg
    (v <| v_closed := true |> <| v_authenticated := false |> <| v_timeout := None |>
       <| v_timers := remaining (v_timeout v) (v_timers v) |>))
  <| v_channels := match v_dc v with Some d => alter closing d (v_channels v) | None => v_channels v end |>
  <| v_dc := None |> <| v_pc := None |> <| v_ws := None |>.

Lemma leads_clearTimeout w :
  leads clearTimeout w ((tview w) <| v_timers := remaining (v_timeout (tview w)) (v_timers (tview w)) |> <| v_timeout := None |>).
Proof. unfold clearTimeout, self, assign. apply leads_gets. cbn. by destruct (timeout (this w)). Qed.

Lemma dispose_eq h : dispose h = (disposed h, Ok (option_map erase_keys (keys h))).
Proof. done. Qed.

Lemma leads_dispose leg w : leads (dispose_leg leg) w (dispose_view leg (tview w)).
Proof.
  unfold leads, dispose_leg, self, on_handshake, assign, bind, gets, modify.
  destruct leg; cbn [handshake_of dispose_view set_handshake].
  - change (v_signal (tview w)) with (signalHandshake (this w)).
    destruct (signalHandshake (this w)) as [h|] eqn:E; [rewrite E, dispose_eq|]; unfold tview, keys_after; cbn; rewrite ?E; [|done].
    destruct (keys h); cbn; rewrite ?E; [|done]. by destruct (signalCodec (this w)).
  - change (v_data (tview w)) with (dataHandshake (this w)).
    destruct (dataHandshake (this w)) as [h|] eqn:E; [rewrite E, dispose_eq|]; unfold tview, keys_after; cbn; rewrite ?E; [|done].
    destruct (keys h); cbn; rewrite ?E; [|done]. by destruct (dataCodec (this w)).
Qed.

Lemma map_alter_channels f g d (l : list TunnelChannel) :
  (forall c, l !! d = Some c -> channel_view (f c) = g (channel_view c)) ->
  map channel_view (alter f d l) = alter g d (map channel_view l).
Proof.
  intros Hf. apply list_eq. intros i. rewrite list_lookup_fmap. destruct (decide (i = d)) as [->|Hi].
  - rewrite !list_lookup_alter_eq, list_lookup_fmap. destruct (l !! d) eqn:E; cbn; [by rewrite Hf|done].
  - by rewrite !list_lookup_alter_ne, list_lookup_fmap.
Qed.

Lemma alter_id_channels g d (l : list TunnelChannel) :
  (forall c, l !! d = Some c -> g (channel_view c) = channel_view c) ->
  alter g d (map channel_view l) = map channel_view l.
Proof.
  intros Hg. apply list_eq. intros i. destruct (decide (i = d)) as [->|Hi].
  - rewrite list_lookup_alter_eq, list_lookup_fmap. destruct (l !! d) eqn:E; cbn; [by rewrite Hg|done].
  - by rewrite list_lookup_alter_ne.
Qed.

Lemma view_dc_close d w :
  tview (fst (dc_close d w)) = (tview w) <| v_channels := alter closing d (v_channels (tview w)) |>.
Proof.
  unfold dc_close, bind, gets. cbn [fst]. destruct (bool_decide (channel_state d w = CONNECTING) || _) eqn:E.
  - unfold when, bind, alter_channel, modify, emit, tview. cbn. rewrite tunnel_phase_silent, spoken_silent by done.
    by rewrite (map_alter_channels _ closing).
  - unfold when. cbn [ret fst]. unfold tview. cbn. rewrite alter_id_channels; [done|].
    intros c Hc. apply orb_false_elim in E as [E _]. apply bool_decide_eq_false in E.
    unfold channel_state in E. rewrite Hc in E. unfold closing, channel_view. cbn. by rewrite bool_decide_false.
Qed.

Lemma leads_close_dc d w :
  leads (close_opt dc_close d) w
    ((tview w) <| v_channels := match d with Some d => alter closing d (v_channels (tview w)) | None => v_channels (tview w) end |>).
Proof. destruct d; cbn [close_opt]; [apply leads_attempt, view_dc_close|done]. Qed.

Lemma leads_close_quiet f o w : (forall i, preserves tview (f i)) -> leads (close_opt f o) w (tview w).
Proof. intros Hf. destruct o; cbn [close_opt]; [apply leads_attempt, Hf|done]. Qed.

Lemma leads_finish w : closed (this w) = false -> leads finish w (fin (tview w)).
Proof.
  intros Hc. unfold finish, self. apply leads_gets. rewrite Hc.
  eapply leads_bind; [done|]. intros w1 E1. cbn beta.
  eapply leads_bind; [apply leads_clearTimeout|]. intros w2 E2.
  eapply leads_bind; [apply leads_dispose|]. intros w3 E3.
  eapply leads_bind; [apply leads_dispose|]. intros w4 E4.
  unfold get_this. apply leads_gets.
  eapply leads_bind; [apply leads_close_dc|]. intros w5 E5.
  eapply leads_bind; [apply leads_close_quiet; intros i; apply tun_pc_close|]. intros w6 E6.
  eapply leads_bind; [apply leads_close_quiet; intros i; apply tun_ws_close|]. intros w7 E7.
  split; [|done]. unfold assign, modify. cbn [fst].
  assert (E : tview (w7 <| this := (this w7) <| dc := None |> <| pc := None |> <| ws := None |> |>)
    = (tview w7) <| v_dc := None |> <| v_pc := None |> <| v_ws := None |>) by done.
  rewrite E, E7, E6, E5. change (dc (this w4)) with (v_dc (tview w4)). rewrite E4, E3, E2, E1. done.
Qed.

Lemma erase_idem k : erased (erase_keys k).
Proof.
  assert (Hf : forall p, fill0 (fill0 p) = fill0 p)
    by (intros p; unfold fill0; by rewrite zlen_zeros by apply zlen_nonneg).
  unfold erased, erase_keys. destruct k as [[] ?]. cbn. by rewrite !Hf.
Qed.

Lemma remaining_none t l : Forall (fun u => t = Some u) l -> remaining t l = [].
Proof.
  intros Hl. destruct t as [t|]; cbn [remaining].
  - induction Hl as [|u l Hu _ IH]; [done|]. injection Hu as ->. rewrite filter_cons_False by naive_solver. done.
  - by destruct Hl.
Qed.

Lemma Forall_closing (P : bool * bool -> Prop) d l : Forall P l -> (forall c, P c -> P (closing c)) -> Forall P (alter closing d l).
Proof. intros Hl Hp. apply Forall_alter; [done|]. intros c _. apply Hp. Qed.

(** The keys of a leg after [finish]. *)
Lemma keys_after_erased leg v k :
  winv v -> v_closed v = false -> keys_after (v_handshake leg v) (v_keys leg v) = Some k -> erased k.
Proof.
  intros Hv Hc. unfold keys_after. destruct (v_keys leg v) as [k0|] eqn:Ek; [|by destruct (_ ≫= _)].
  pose proof (i_keys v Hv leg k0 Ek) as Hk. rewrite Hc in Hk. destruct Hk as [(h & Hh & Hhk) _].
  rewrite Hh. cbn. rewrite Hhk. cbn. intros [= <-]. apply erase_idem.
Qed.

Lemma keys_after_none h : keys_after h None = None.
Proof. unfold keys_after. by destruct (_ ≫= _). Qed.

(** Whatever state the transport is in, closing establishes the invariant. *)
Lemma fin_inv v p :
  winv v -> v_closed v = false -> given_quit \/ p = Over -> tinv ((fin v) <| v_phase := Some p |>).
Proof.
  intros Hv Hc Hp. pose proof Hv as [I1 I2 I3 I0 I4 I5 I6 I7 I8 I9 I10 I11 I12 I13 I14 I15 I16].
  split; [|unfold fresh; cbn; by destruct (v_stage v)]. unfold fin, dispose_view. split; cbn.
  - by exists p.
  - done.
  - by rewrite (remaining_none _ _ I3).
  - exact I0.
  - intros Ho. by destruct (I4 Ho).
  - done.
  - intros waiting Hw. specialize (I6 waiting Hw). destruct waiting as [[]|[]|[]| | |]; cbn in *; try done.
    destruct I6 as (? & ? & ?). split_and!; try done. destruct (v_dc v); [|done]. by apply Forall_closing.
  - destruct (v_dc v); [|done]. apply Forall_closing; [done|]. by intros [] _ [=].
  - revert I8. unfold early. cbn. intros I8. destruct (v_dc v) as [d|];
      destruct (v_stage v); rewrite ?length_alter; (destruct I8 as (-> & -> & ->) || destruct I8 as (? & ->) || idtac);
      rewrite ?keys_after_none; done.
  - exact I9.
  - exact I10.
  - intros leg h. cbn. destruct leg; cbn.
    + destruct (v_signal v) as [h0|] eqn:E; [|done]. intros [= <-].
      destruct (I11 SignalLeg h0 E) as (a & ctx & ? & ? & ?). exists a, ctx. split_and!; try done. by apply reached_dispose.
    + destruct (v_data v) as [h0|] eqn:E; [|done]. intros [= <-].
      destruct (I11 DataLeg h0 E) as (a & ctx & ? & ? & ?). exists a, ctx. split_and!; try done. by apply reached_dispose.
  - intros [] k; cbn; [apply (keys_after_erased SignalLeg)|apply (keys_after_erased DataLeg)]; done.
  - intros Hq. destruct (I13 Hq) as [-> ->]. done.
  - exact I14.
  - intros _. by destruct Hp as [?| ->]; [left|right].
  - exact I16.
Qed.
End Closing.
