(* ===== verification/QuickTunnelSteps.v ===== *)
(** * The peer tunnel transport: every turn keeps the invariant *)

From S2P Require Import Prelude Bytes JsString JsMap Json DirectCrypto DirectFraming DirectHandshake.
From S2P Require Import EventLoop Transport NativeDirect PeerIdentity PeerDocuments PeerState PeerHandshake.
From S2P Require Import PeerFragments QuickTunnel QuickTunnelInv.

(** ** Methods and the view *)

Section Rules.
Context `{Crypto} `{PeerCrypto} `{WebCrypto} `{JsText} `{Platform} `{UrlText} `{TunnelBrowser} `{!Given}.
Implicit Types (w : TunnelWorld) (v : TView).

(** From a state with the view [v], [m] ends as [Q] says. *)
Definition ends {A} v (m : M A) (Q : outcome A -> TView -> Prop) : Prop :=
  forall w, tview w = v -> Q (snd (m w)) (tview (fst (m w))).

Lemma ends_bind {A B} v (m : M A) (k : A -> M B) R Q :
  ends v m R -> (forall a v', R (Done a) v' -> ends v' (k a) Q) -> (forall e v', R (Raise e) v' -> Q (Raise e) v') ->
  ends v (bind m k) Q.
Proof.
  intros Hm Hk He w Hw. specialize (Hm w Hw). unfold bind. destruct (m w) as [w' [a|e]]; cbn in *; [by eapply Hk|by apply He].
Qed.

Lemma ends_quiet {A B} v (m : M A) (k : A -> M B) Q :
  preserves tview m -> (forall a, ends v (k a) Q) -> (forall e, Q (Raise e) v) -> ends v (bind m k) Q.
Proof.
  intros Hm Hk He. eapply (ends_bind v m k (fun _ v' => v' = v)).
  - intros w <-. apply Hm.
  - intros a v' ->. apply Hk.
  - intros e v' ->. apply He.
Qed.

Lemma ends_preserves {A} v (m : M A) Q : preserves tview m -> (forall o, Q o v) -> ends v m Q.
Proof. intros Hm HQ w <-. rewrite (Hm w). apply HQ. Qed.

Lemma ends_ret {A} v (a : A) (Q : outcome A -> TView -> Prop) : Q (Done a) v -> ends v (ret a) Q.
Proof. by intros HQ w <-. Qed.

Lemma ends_raise {A} v e (Q : outcome A -> TView -> Prop) : Q (Raise e) v -> ends v (raise e) Q.
Proof. by intros HQ w <-. Qed.

Lemma ends_gets {A B} v (f : TunnelWorld -> A) (k : A -> M B) Q :
  (forall w, tview w = v -> ends v (k (f w)) Q) -> ends v (bind (gets f) k) Q.
Proof. intros Hk w Hw. by apply Hk. Qed.

Lemma ends_modify {B} v v' (f : TunnelWorld -> TunnelWorld) (k : unit -> M B) Q :
  (forall w, tview w = v -> tview (f w) = v') -> ends v' (k tt) Q -> ends v (bind (modify f) k) Q.
Proof. intros Hf Hk w Hw. by apply Hk, Hf. Qed.

Lemma ends_emit {B} v e (k : unit -> M B) Q : silent_effect e = true -> ends v (k tt) Q -> ends v (bind (emit e) k) Q.
Proof. intros He Hk w Hw. apply Hk. rewrite <- Hw. by apply (tun_emit e He w). Qed.

Lemma ends_answer {A B} v (o : outcome A) (k : A -> M B) Q :
  (forall a, o = Done a -> ends v (k a) Q) -> (forall e, Q (Raise e) v) -> ends v (bind (answer o) k) Q.
Proof. intros Hk He w Hw. destruct o as [a|e]; cbn; [by apply Hk|rewrite Hw; apply He]. Qed.

Lemma ends_if {A} v (b : bool) (m1 m2 : M A) Q :
  (b = true -> ends v m1 Q) -> (b = false -> ends v m2 Q) -> ends v (if b then m1 else m2) Q.
Proof. destruct b; auto. Qed.

Lemma ends_mono {A} v (m : M A) (R Q : outcome A -> TView -> Prop) :
  ends v m R -> (forall o v', R o v' -> Q o v') -> ends v m Q.
Proof. intros Hm HQ w Hw. by apply HQ, Hm. Qed.

(** The invariant afterwards, whatever the outcome. *)
Definition sound {A} (o : outcome A) v : Prop := tinv v.

(** The invariant afterwards, but for the handshakes if an error is thrown. *)
Definition safe {A} (o : outcome A) v : Prop := match o with Done _ => tinv v | Raise _ => winv v end.

Lemma closed_tinv v : winv v -> v_closed v = true -> tinv v.
Proof. intros Hv Hc. split; [done|]. unfold fresh. destruct (v_stage v); try done; intros E; congruence. Qed.

Lemma phase_again v p : v_phase v = Some p -> v <| v_phase := Some p |> = v.
Proof. destruct v. cbn. intros ->. reflexivity. Qed.

Lemma finish_sound v : tinv v -> given_quit -> ends v finish sound.
Proof.
  intros [Hv Hf] Hq w Hw. destruct (closed (this w)) eqn:Hc.
  - assert (E : finish w = (w, Done tt)) by (unfold finish, self, bind, gets; by rewrite Hc).
    rewrite E. cbn. by rewrite Hw.
  - destruct (leads_finish w Hc) as [-> ->]. rewrite Hw. destruct (i_phase v Hv) as (p & Hp & _).
    unfold sound. rewrite <- (phase_again (fin v) p Hp). apply fin_inv; [done| |by left]. by rewrite <- Hw.
Qed.

Lemma fail_sound v e : winv v -> ends v (fail e) sound.
Proof.
  intros Hv w Hw. unfold fail, self, bind, gets. cbn [fst snd]. destruct (closed (this w)) eqn:Hc.
  - cbn. rewrite Hw. apply closed_tinv; [done|]. by rewrite <- Hw.
  - destruct (leads_finish w Hc) as [Ev Er]. destruct (finish w) as [w' o]. cbn [fst snd] in Ev, Er. subst o.
    unfold emit, modify. cbn [fst snd]. destruct (i_phase v Hv) as (p & Hp & Hl).
    assert (Hcv : v_closed v = false) by (by rewrite <- Hw). specialize (Hl Hcv).
    assert (Hph : observe_all Attempting (reports (trace w')) = Some p).
    { change (v_phase (tview w') = Some p). rewrite Ev, Hw. by destruct v. }
    assert (E : tview (w' <| trace := trace w' ++ [Calls (CbFailure e)] |>) = (fin v) <| v_phase := Some Over |>).
    { rewrite <- Hw, <- Ev. unfold tview. cbn. rewrite tunnel_reports_app, observe_all_app, Hph. cbn.
      rewrite spoken_snoc by by intros cb [= <-]. subst p. by destruct (v_authenticated v). }
    rewrite E. apply fin_inv; [done..|by right].
Qed.

(** [catch(this.fail)] *)
Lemma catch_sound v (m : M unit) : ends v m safe -> ends v (catch m fail) sound.
Proof.
  intros Hm w Hw. specialize (Hm w Hw). unfold catch. destruct (m w) as [w' [[]|e]]; cbn in *; [done|].
  by apply (fail_sound (tview w') e).
Qed.
End Rules.

(** ** What the parts of a turn do *)

Ltac parts Hv :=
  let I1 := fresh "I1" in let I2 := fresh "I2" in let I3 := fresh "I3" in let I0 := fresh "I0" in
  let I4 := fresh "I4" in let I5 := fresh "I5" in let I6 := fresh "I6" in let I7 := fresh "I7" in
  let I8 := fresh "I8" in let I9 := fresh "I9" in let I10 := fresh "I10" in let I11 := fresh "I11" in
  let I12 := fresh "I12" in let I13 := fresh "I13" in let I14 := fresh "I14" in
  let I15 := fresh "I15" in let I16 := fresh "I16" in
  destruct Hv as [I1 I2 I3 I0 I4 I5 I6 I7 I8 I9 I10 I11 I12 I13 I14 I15 I16];
  split; cbn; try first [exact I1|exact I2|exact I3|exact I0|exact I4|exact I5|exact I6|exact I7|exact I8|exact I9
    |exact I10|exact I11|exact I12|exact I13|exact I14|exact I15|exact I16].

Section Parts.
Context `{Crypto} `{PeerCrypto} `{WebCrypto} `{JsText} `{Platform} `{UrlText} `{TunnelBrowser} `{!Given}.
Implicit Types (w : TunnelWorld) (v : TView).

(** Keys in an open transport are those of a handshake that has completed. *)
Lemma keys_backed v leg k : winv v -> v_closed v = false -> v_keys leg v = Some k -> backed.
Proof.
  intros Hv Hc Hk. pose proof (i_keys v Hv leg k Hk) as Hkk. rewrite Hc in Hkk.
  destruct Hkk as (_ & auth & ctx & Ea & Ec & Hdone). destruct (i_given v Hv) as (Ho & Hme & Hst).
  destruct (i_context v Hv ctx Ec) as [clock Hload].
  destruct (i_authorization v Hv auth Ea) as (ctx' & ticket & attempt & t & data & Ec' & Haz).
  assert (ctx' = ctx) as -> by congruence. rewrite Ho in Haz. rewrite Hme in *. rewrite Hst in Hload.
  by exists ctx, clock, auth, ticket, attempt, t, data, k.
Qed.

(** The authentication of the route. *)
Definition live v : TView :=
  v <| v_authenticated := true |> <| v_stage := St_records |> <| v_timers := remaining (v_timeout v) (v_timers v) |>
    <| v_timeout := None |> <| v_phase := Some Live |> <| v_spoken := true |>.

Lemma live_tinv v :
  winv v -> v_waiting v = None -> v_closed v = false -> v_keys (v_active v) v <> None ->
  Forall (fun c => c <> (true, true)) (v_channels v) -> tinv (live v).
Proof.
  intros Hv Hw Hc Hk Hch. split; [|done]. pose proof (i_timers v Hv) as Ht. pose proof (i_stage v Hv) as Hs.
  assert (Hb : backed) by (destruct (v_keys (v_active v) v) as [k|] eqn:Ek; [by eapply keys_backed|done]).
  parts Hv.
  - by exists Live.
  - intros E. congruence.
  - by rewrite (remaining_none _ _ Ht).
  - intros Ho. by destruct (I4 Ho).
  - done.
  - intros waiting E. congruence.
  - eapply Forall_impl; [exact Hch|]. by intros c Hn ->.
  - revert Hs. unfold early. cbn. destruct (v_stage v); try (intros [-> _]; cbn; lia); [by intros [? _]..|done].
  - intros E. congruence.
  - by intros _.
Qed.

Lemma live_emit v cb : v_phase v = Some Live -> observe Live cb = Some Live ->
  ends v (emit (Calls cb)) (fun o v' => v' = v).
Proof.
  intros Hp Hcb w <-. unfold emit, modify, tview. cbn. cbn in Hp. rewrite tunnel_reports_app, observe_all_app, Hp.
  rewrite spoken_snoc by (intros c [= <-] ->; done). by destruct cb.
Qed.

Lemma live_config v kind p : v_phase v = Some Live -> ends v (emit (ConfigMessage kind p)) (fun o v' => v' = v).
Proof.
  intros Hp w <-. unfold emit, modify, tview. cbn. cbn in Hp.
  by rewrite tunnel_reports_app, observe_all_app, Hp, spoken_snoc.
Qed.

Lemma handleRecord_live v depth kind p :
  v_phase v = Some Live -> ends v (handleRecord depth kind p) (fun _ v' => v' = v).
Proof.
  intros Hp. revert kind p. induction depth as [|depth IH]; intros kind p; cbn [handleRecord].
  all: apply ends_if; intros _.
  1,3: apply ends_quiet; [preserves_tac|intros t|done]; apply ends_quiet; [preserves_tac|intros complete|done];
    destruct complete as [[kind' p']|]; [first [apply IH|by apply ends_raise]|by apply ends_ret].
  all: apply ends_if; intros _; [by apply live_emit|].
  all: apply ends_if; intros _; [apply ends_quiet; [preserves_tac|intros t|done]; apply ends_quiet;
    [preserves_tac|intros frame|done]; destruct frame; [by apply live_emit|by apply ends_ret]|].
  all: apply ends_if; intros _; [apply ends_answer; [intros seq _; by apply live_emit|done]|].
  all: apply ends_if; intros _; [by apply ends_preserves; [preserves_tac|]|].
  all: apply ends_if; intros _; [unfold get_this; apply ends_gets; intros w _; apply ends_if; intros _;
    [by apply live_config|by apply ends_raise]|].
  all: apply ends_preserves; [preserves_tac|done].
Qed.

(** The handler of a message ends with what it is suspended at. *)
Definition handled (o : outcome (option Waiting)) v : Prop :=
  match o with Done x => tinv (v <| v_waiting := x |>) | Raise _ => winv v end.

Lemma handled_none v : tinv v -> v_waiting v = None -> handled (Done None) v.
Proof. intros Hv Hw. cbn. destruct v. cbn in *. subst. exact Hv. Qed.

Lemma handled_signal v : tinv v -> v_waiting v = None -> handled (Done (Some InSignal)) v.
Proof.
  intros [Hv Hf] Hw. split; [|exact Hf]. parts Hv.
  - by intros waiting [= <-].
  - intros leg h Hh. specialize (I11 leg h Hh). rewrite Hw in I11. by destruct leg.
Qed.

Lemma applySignal_handled v signal : tinv v -> v_waiting v = None -> ends v (applySignal signal) handled.
Proof.
  intros Hv Hw. unfold applySignal, self. apply ends_gets. intros w _. destruct (pc (this w)) as [p|]; [|by apply ends_raise, Hv].
  destruct (sig_type signal); try (by apply ends_raise, Hv).
  1,2: apply ends_answer; [intros a _|intros e; apply Hv]; apply ends_quiet; [preserves_tac|intros _|intros e; apply Hv];
    apply ends_ret; by apply handled_signal.
  apply ends_ret. by apply handled_none.
Qed.

(** The timer is cleared and the owner is told. *)
Lemma authenticate_live v {A} (k : unit -> M A) (m : M unit) Q :
  v_phase v = Some Attempting -> preserves tview m -> (forall w, snd (m w) = Done tt) ->
  ends (live v) (k tt) Q ->
  ends (v <| v_authenticated := true |> <| v_stage := St_records |>)
    (let! _ := clearTimeout in let! _ := m in let! _ := emit (Calls CbAuthenticated) in k tt) Q.
Proof.
  intros Hp Hm Hr Hk w Hw. unfold bind. destruct (leads_clearTimeout w) as [E1 R1].
  destruct (clearTimeout w) as [w1 o1]. cbn [fst snd] in E1, R1. subst o1.
  pose proof (Hm w1) as E2. specialize (Hr w1). destruct (m w1) as [w2 o2]. cbn [fst snd] in E2, Hr. subst o2.
  unfold emit, modify. apply Hk. rewrite Hw in E1.
  assert (Hp2 : observe_all Attempting (reports (trace w2)) = Some Attempting).
  { change (v_phase (tview w2) = Some Attempting). rewrite E2, E1. exact Hp. }
  assert (E : tview (w2 <| trace := trace w2 ++ [Calls CbAuthenticated] |>)
                = (tview w2) <| v_phase := Some Live |> <| v_spoken := true |>).
  { unfold tview, spoken. cbn. by rewrite tunnel_reports_app, observe_all_app, Hp2, existsb_app, orb_true_r. }
  rewrite E, E2, E1. reflexivity.
Qed.

Lemma attempting v : winv v -> v_closed v = false -> v_authenticated v = false -> v_phase v = Some Attempting.
Proof. intros Hv Hc Ha. destruct (i_phase v Hv) as (p & -> & Hp). rewrite (Hp Hc), Ha. done. Qed.

(** Authentication over the socket. *)
Lemma handleSignalRecord_handled v kind p :
  tinv v -> v_waiting v = None -> v_closed v = false -> v_signal_keys v <> None ->
  is_quick_tunnel (v_options v) && v_authenticated v = false -> ends v (handleSignalRecord kind p) handled.
Proof.
  intros Hv Hw Hc Hk Hqa. unfold handleSignalRecord. apply ends_if; intros _; [apply ends_raise, Hv|].
  apply ends_quiet; [preserves_tac|intros payload|intros e; apply Hv].
  destruct payload as [payload|]; [|by apply ends_ret, handled_none].
  apply ends_answer; [intros signal _|intros e; apply Hv]. unfold get_this. apply ends_gets. intros w Ew.
  apply ends_if; intros Hq; [|by apply applySignal_handled]. apply andb_prop in Hq as [_ Hq].
  assert (Hq' : is_quick_tunnel (v_options v) = true) by (by rewrite <- Ew). rewrite Hq' in Hqa. cbn [andb] in Hqa.
  unfold assign. apply (ends_modify v (v <| v_authenticated := true |> <| v_stage := St_records |>)); [by intros w1 <-|].
  eapply (authenticate_live v (fun _ => ret None) (emit _)); [by apply attempting; [apply Hv|..]|apply tun_emit; done|done|].
  apply ends_ret, handled_none; [|done]. apply live_tinv; try done; [apply Hv|unfold v_active; by rewrite Hq'|].
  destruct (i_quick v (proj1 Hv) Hq') as [-> _]. constructor.
Qed.

(** *** The handshake objects *)

#[export] Instance Leg_eq_dec : EqDecision Leg.
Proof. solve_decision. Defined.

Definition set_vh (leg : Leg) (h : PeerClientHandshake) v : TView :=
  match leg with SignalLeg => v <| v_signal := Some h |> | DataLeg => v <| v_data := Some h |> end.

(** Another state of a handshake that its history leads to. *)
Lemma winv_set_vh leg h h' v :
  winv v -> v_handshake leg v = Some h ->
  (forall auth me space cm hm, reached auth me space cm hm h (awaiting_of leg (v_waiting v)) ->
     reached auth me space cm hm h' (awaiting_of leg (v_waiting v))) ->
  (forall k, v_keys leg v <> None -> keys h = Some k -> keys h' = Some k) ->
  winv (set_vh leg h' v).
Proof.
  intros Hv Hh Hr Hk. assert (I11' := i_handshakes v Hv). assert (I12' := i_keys v Hv).
  assert (Hkeys : forall k, v_keys leg v = Some k -> if v_closed v then erased k
    else (exists x, Some h' = Some x /\ keys x = Some k) /\
         exists auth ctx, v_authorization v = Some auth /\ v_context v = Some ctx /\
           completed auth (v_identity v) (c_genesis ctx) (c_localMembership ctx) (c_hostMembership ctx) k).
  { intros k Ek. specialize (I12' leg k Ek). destruct (v_closed v); [done|]. destruct I12' as [(x & Hx & Hxk) ?].
    split; [|done]. exists h'. split; [done|]. rewrite Hh in Hx. injection Hx as ->. apply Hk; [congruence|done]. }
  assert (Hreach : forall x, Some h' = Some x -> exists auth ctx, v_authorization v = Some auth /\ v_context v = Some ctx /\
      reached auth (v_identity v) (c_genesis ctx) (c_localMembership ctx) (c_hostMembership ctx) x
        (awaiting_of leg (v_waiting v))).
  { intros x [= <-]. destruct (I11' leg h Hh) as (a & ctx & ? & ? & ?). exists a, ctx. split_and!; try done. by apply Hr. }
  destruct leg; cbn [set_vh]; parts Hv.
  - intros [] h0; cbn; [apply Hreach|apply (I11' DataLeg)].
  - intros [] k; cbn; [apply Hkeys|apply (I12' DataLeg)].
  - intros [] h0; cbn; [apply (I11' SignalLeg)|apply Hreach].
  - intros [] k; cbn; [apply (I12' SignalLeg)|apply Hkeys].
Qed.

Lemma view_set_handshake leg h w :
  tview (w <| this := set_handshake leg (Some h) (this w) |>) = set_vh leg h (tview w).
Proof. by destruct leg. Qed.

Lemma handshake_view leg w : handshake_of leg (this w) = v_handshake leg (tview w).
Proof. by destruct leg. Qed.

(** A method of a handshake, with what it returns. *)
Lemma ends_on_handshake {A} leg v (m : method PeerClientHandshake A) (Q : outcome A -> TView -> Prop) :
  (forall e, v_handshake leg v = None -> Q (Raise e) v) ->
  (forall h, v_handshake leg v = Some h -> Q (of_result (snd (m h))) (set_vh leg (fst (m h)) v)) ->
  ends v (on_handshake leg m) Q.
Proof.
  intros Hn Hs w Hw. unfold on_handshake. rewrite handshake_view, Hw. destruct (v_handshake leg v) as [h|] eqn:E.
  - specialize (Hs h eq_refl). destruct (m h) as [h' r]. cbn [fst snd] in *. by rewrite view_set_handshake, Hw.
  - cbn. rewrite Hw. by apply Hn.
Qed.

Lemma set_vh_same leg h v : v_handshake leg v = Some h -> set_vh leg h v = v.
Proof. destruct v, leg; cbn; by intros ->. Qed.

Lemma keys_hello h k : keys h = Some k -> keys (fst (clientHello h)) = Some k.
Proof. unfold clientHello. mrun. split_guard; [done|]. cbn. by destruct (uuidBytes _). Qed.

(** CLIENT_HELLO is made. *)
Lemma hello_sent leg v : winv v -> ends v (on_handshake leg clientHello) (fun _ v' =>
  winv v' /\ (v' = v \/ exists h, v' = set_vh leg h v)).
Proof.
  intros Hv. apply ends_on_handshake; [intros _ E; split; [done|by left]|]. intros h Hh.
  split; [|right; by eexists]. apply (winv_set_vh leg h); [done|done| |].
  - intros *. apply reached_hello.
  - intros k _. apply keys_hello.
Qed.

Definition host_stage (leg : Leg) : Stage :=
  match leg with SignalLeg => St_signal_handshake_host | DataLeg => St_data_handshake_host end.
Definition ok_stage (leg : Leg) : Stage :=
  match leg with SignalLeg => St_signal_handshake_ok | DataLeg => St_data_handshake_ok end.

(** Before a leg has completed its handshake it has no keys. *)
Lemma host_stage_keys leg v : winv v -> v_stage v = host_stage leg -> v_keys leg v = None.
Proof. intros Hv Hs. pose proof (i_stage v Hv) as He. unfold early in He. rewrite Hs in He. by destruct leg; cbn in *; intuition. Qed.

Definition set_vo (leg : Leg) (o : option PeerClientHandshake) v : TView :=
  match leg with SignalLeg => v <| v_signal := o |> | DataLeg => v <| v_data := o |> end.

(** A call of the handshake of a leg is under way, and the handshake is where
    its history leads. *)
Lemma waiting_inv leg v o waiting :
  winv v -> v_stage v = host_stage leg ->
  (forall leg', leg' <> leg -> awaiting_of leg' (v_waiting v) = None /\ awaiting_of leg' (Some waiting) = None) ->
  (forall u, v_stage u = host_stage leg -> stage_of_waiting waiting u) ->
  (forall h, o = Some h -> exists auth ctx, v_authorization v = Some auth /\ v_context v = Some ctx /\
      reached auth (v_identity v) (c_genesis ctx) (c_localMembership ctx) (c_hostMembership ctx) h
        (awaiting_of leg (Some waiting))) ->
  tinv ((set_vo leg o v) <| v_waiting := Some waiting |>).
Proof.
  intros Hv Hs Hne Hst Hr. assert (Hk := host_stage_keys leg v Hv Hs).
  assert (I11' := i_handshakes v Hv). assert (I12' := i_keys v Hv).
  assert (Hother : forall leg' h, leg' <> leg -> v_handshake leg' v = Some h ->
    exists auth ctx, v_authorization v = Some auth /\ v_context v = Some ctx /\
      reached auth (v_identity v) (c_genesis ctx) (c_localMembership ctx) (c_hostMembership ctx) h
        (awaiting_of leg' (Some waiting))).
  { intros leg' h Hl Hh. destruct (Hne leg' Hl) as [E ->]. rewrite <- E. by apply I11'. }
  destruct leg; cbn [set_vo]; (split; [|unfold fresh; cbn; by rewrite Hs]); parts Hv.
  - intros x [= <-]. by apply Hst.
  - intros [] h Hh; [exact (Hr h Hh)|by apply (Hother DataLeg)].
  - intros [] k; cbn; [cbn in Hk; congruence|apply (I12' DataLeg)].
  - intros x [= <-]. by apply Hst.
  - intros [] h Hh; [by apply (Hother SignalLeg)|exact (Hr h Hh)].
  - intros [] k; cbn; [apply (I12' SignalLeg)|cbn in Hk; congruence].
Qed.

Lemma set_vo_same leg v : set_vo leg (v_handshake leg v) v = v.
Proof. by destruct v, leg. Qed.

Lemma no_awaiting leg : awaiting_of leg None = None.
Proof. by destruct leg. Qed.

(** Where a call of a handshake leaves the chain. *)
Lemma hello_waiting leg to (o : outcome (Awaiting + bytes)) :
  let waiting := match o with
                 | Done (inl a) => InHello leg to a
                 | Done (inr m) => HelloSettled leg to (Done m)
                 | Raise e => HelloSettled leg to (Raise e)
                 end in
  (forall leg', leg' <> leg -> awaiting_of leg' (Some waiting) = None) /\
  (forall u, v_stage u = host_stage leg -> stage_of_waiting waiting u) /\
  awaiting_of leg (Some waiting) = match o with Done (inl a) => Some a | _ => None end.
Proof. by destruct o as [[]|], leg; (split_and!; [intros []| |]). Qed.

Lemma begin_hello_handled leg v to message :
  tinv v -> v_waiting v = None -> v_stage v = host_stage leg ->
  ends v (begin_hello leg to message) handled.
Proof.
  intros [Hv _] Hw Hs w Hvw. unfold begin_hello, bind, settled. cbn [fst snd]. unfold on_handshake.
  rewrite handshake_view, Hvw. destruct (v_handshake leg v) as [h|] eqn:E.
  - destruct (handleHostHello message h) as [h' r] eqn:Er. cbn [fst snd ret].
    assert (h' = h) as -> by (rewrite <- (handleHostHello_calm message h), Er; done).
    rewrite view_set_handshake, Hvw. destruct (i_handshakes v Hv leg h E) as (a & ctx & ? & ? & Hr).
    rewrite Hw, no_awaiting in Hr. pose proof (reached_host_hello _ _ _ _ _ h message Hr) as Hr'. rewrite Er in Hr'.
    replace (set_vh leg h v) with (set_vo leg (Some h) v) by by destruct leg.
    destruct r as [x|e]; [destruct (hello_waiting leg to (Done (inl x))) as (W1 & W2 & W3)
                         |destruct (hello_waiting leg to (Raise (js e))) as (W1 & W2 & W3)];
      cbn [of_result handled]; apply waiting_inv; try done.
    1,3: intros leg' Hl; rewrite Hw, no_awaiting; split; [done|by apply W1].
    all: intros x0 [= <-]; exists a, ctx; rewrite W3; by split_and!.
  - cbn. rewrite Hvw. destruct (hello_waiting leg to (Raise (js "TypeError"))) as (W1 & W2 & W3).
    rewrite <- (set_vo_same leg v) at 1. apply waiting_inv; [done|done| |exact W2|intros h Eh; congruence].
    intros leg' Hl. rewrite Hw, no_awaiting. split; [done|by apply W1].
Qed.

(** *** Starting the direct route *)

Lemma winv_pc v x : winv v -> v_closed v = false -> winv (v <| v_pc := x |>).
Proof. intros Hv Hc. parts Hv. intros E. congruence. Qed.

Lemma startWebRTC_handled v f :
  tinv v -> v_waiting v = None -> v_closed v = false -> v_stage v = St_signals -> v_channels v = [] ->
  is_quick_tunnel (v_options v) = false -> ends v (startWebRTC f) handled.
Proof.
  intros Hv Hw Hc Hs Hch Hq. unfold startWebRTC, get_this. apply ends_gets. intros w Ew.
  destruct (tunnel_authorization (this w)) as [auth|] eqn:Ea; [|apply ends_raise, Hv].
  destruct (context (this w)) as [ctx|]; [|apply ends_raise, Hv].
  apply ends_if; intros _; [apply ends_raise, Hv|]. apply ends_answer; [intros _ _|intros e; apply Hv].
  apply ends_quiet; [preserves_tac|intros p|intros e; apply Hv].
  apply ends_quiet; [preserves_tac|intros _|intros e; apply Hv].
  apply ends_quiet; [preserves_tac|intros _|intros e; apply Hv].
  unfold assign. apply (ends_modify v (v <| v_pc := Some p |>)); [by intros w1 <-|].
  assert (Hv1 : winv (v <| v_pc := Some p |>)) by (apply winv_pc; [apply Hv|done]).
  apply ends_answer; [intros _ _|intros e; exact Hv1].
  apply ends_quiet; [preserves_tac|intros d|intros e; exact Hv1].
  apply (ends_modify _ (v <| v_pc := Some p |> <| v_channels := [(true, false)] |>)).
  { intros w1 E1. assert (E : tview (w1 <| channels := channels w1 ++ [mkTunnelChannel CONNECTING 0 false] |>)
      = (tview w1) <| v_channels := v_channels (tview w1) ++ [(true, false)] |>) by (unfold tview; cbn; by rewrite map_app).
    rewrite E, E1. change (v_channels (v <| v_pc := Some p |>)) with (v_channels v). by rewrite Hch. }
  apply ends_emit; [done|].
  apply (ends_modify _ (v <| v_pc := Some p |> <| v_channels := [(true, false)] |> <| v_dc := Some d |>)); [by intros w1 E1; rewrite <- E1|].
  apply ends_gets. intros w2 _. apply ends_ret. cbn [handled].
  destruct Hv as [Hv _]. split; [|unfold fresh; cbn; by rewrite Hs].
  assert (Ha : v_authorization v = Some auth) by (by rewrite <- Ew).
  parts Hv.
  - intros E. congruence.
  - intros x [= <-]. cbn. split_and!; [done..|]. by repeat constructor.
  - by repeat constructor.
  - unfold early in I8 |- *. cbn. rewrite Hs in *. cbn. by destruct I8.
  - intros leg h Hh. specialize (I11 leg h). rewrite Hw in I11. by destruct leg; apply I11.
  - congruence.
Qed.

(** *** Completing a handshake *)

Definition agreed v (k : DirectHandshakeKeys) : Prop :=
  exists auth ctx, v_authorization v = Some auth /\ v_context v = Some ctx /\
    completed auth (v_identity v) (c_genesis ctx) (c_localMembership ctx) (c_hostMembership ctx) k.

Lemma auth_ok_keys leg v message :
  winv v -> v_waiting v = None ->
  ends v (on_handshake leg (handleAuthOK message)) (fun o v' => winv v' /\
    match o with
    | Done k => exists h', v' = set_vh leg h' v /\ keys h' = Some k /\ agreed v k
    | Raise _ => True
    end).
Proof.
  intros Hv Hw. apply ends_on_handshake; [done|]. intros h Hh.
  destruct (i_handshakes v Hv leg h Hh) as (a & ctx & Ha & Hctx & Hr).
  assert (En : awaiting_of leg (v_waiting v) = None) by (rewrite Hw; by destruct leg).
  rewrite En in Hr. split.
  - apply (winv_set_vh leg h); [done|done| |].
    + intros *. rewrite En. intros Hr'. by apply reached_auth_ok.
    + intros k _ Hk. unfold handleAuthOK. mrun. split_guard; [done|]. by destruct (keys h).
  - destruct (reached_auth_ok _ _ _ _ _ h message Hr) as [_ Hk]. destruct (handleAuthOK message h) as [h' [k|e]]; [|done].
    destruct (Hk k eq_refl) as [? ?]. cbn in *. exists h'. split_and!; try done. by exists a, ctx.
Qed.

(** The codec is made. *)
Definition keyed (leg : Leg) (k : DirectHandshakeKeys) v : TView :=
  match leg with
  | SignalLeg => v <| v_signal_keys := Some k |> <| v_stage := St_signals |>
  | DataLeg => v <| v_data_keys := Some k |> <| v_stage := St_records |>
  end.

Lemma keyed_winv leg k v h :
  winv v -> v_waiting v = None -> v_closed v = false -> v_stage v = ok_stage leg -> v_handshake leg v = Some h ->
  keys h = Some k -> agreed v k -> winv (keyed leg k v) /\ v_authenticated v = false.
Proof.
  intros Hv Hw Hc Hs Hh Hk Hag. assert (Ha : v_authenticated v = false).
  { destruct (v_authenticated v) eqn:E; [|done]. destruct (i_authenticated v Hv E) as [E' _]. by rewrite E' in Hs; destruct leg. }
  split; [|done]. assert (Hst := i_stage v Hv). unfold early in Hst. rewrite Hs in Hst.
  assert (I12' := i_keys v Hv). destruct leg; cbn [ok_stage keyed] in *; parts Hv.
  - intros E. congruence.
  - intros waiting E. congruence.
  - destruct Hst as [-> _]. constructor.
  - unfold early. cbn. destruct Hst as (-> & _ & ->). split; [cbn; lia|done].
  - intros [] k0; cbn; [intros [= <-]; rewrite Hc; split; [by exists h|exact Hag]|apply (I12' DataLeg)].
  - intros E. congruence.
  - intros waiting E. congruence.
  - eapply Forall_impl; [exact I7|]. intros c Hn E. specialize (Hn E). congruence.
  - unfold early. cbn. by destruct Hst.
  - intros [] k0; cbn; [apply (I12' SignalLeg)|intros [= <-]; rewrite Hc; split; [by exists h|exact Hag]].
Qed.

Lemma handled_keep {A} v (m : M A) :
  preserves tview m -> tinv v -> v_waiting v = None -> ends v (let! _ := m in ret None) handled.
Proof.
  intros Hm Hv Hw. apply ends_quiet; [done|intros _|intros e; apply Hv]. by apply ends_ret, handled_none.
Qed.

(** What has just been read of the object. *)
Lemma view_codec leg w : bool_decide (codec_of leg (this w) = None) = bool_decide (v_keys leg (tview w) = None).
Proof. destruct leg; cbn; [destruct (signalCodec (this w))|destruct (dataCodec (this w))]; done. Qed.

(** A record of the socket. *)
Lemma socket_record_handled v message w :
  tinv v -> v_waiting v = None -> v_closed v = false -> tview w = v ->
  ends v (raise_if (bool_decide (signalCodec (this w) = None)) "peer transport: signal codec unavailable" ;;;
          let! opened := on_codec SignalLeg (DirectHandshake.open message) in
          if is_quick_tunnel (options (this w)) && authenticated (this w) then
            let! _ := handleRecord 2 (fst opened) (snd opened) in
            ret None
          else handleSignalRecord (fst opened) (snd opened)) handled.
Proof.
  intros Hv Hw Hc Ew. apply ends_if; intros Hk; [apply ends_raise, Hv|].
  assert (Hkeys : v_signal_keys v <> None).
  { pose proof (view_codec SignalLeg w) as Hd. cbn [codec_of v_keys] in Hd. rewrite Hk, Ew in Hd.
    by symmetry in Hd; apply bool_decide_eq_false in Hd. }
  assert (Ho : v_options v = options (this w)) by (by rewrite <- Ew).
  assert (Hau : v_authenticated v = authenticated (this w)) by (by rewrite <- Ew).
  apply ends_quiet; [preserves_tac|intros opened|intros e; apply Hv]. apply ends_if; intros Hqa.
  - eapply ends_bind; [apply handleRecord_live| |]; cbn beta.
    + destruct (i_phase v (proj1 Hv)) as (p & -> & Hp). rewrite (Hp Hc), Hau. by apply andb_prop in Hqa as [_ ->].
    + intros a v' ->. by apply ends_ret, handled_none.
    + intros e v' ->. apply Hv.
  - apply handleSignalRecord_handled; try done. by rewrite Ho, Hau.
Qed.

Lemma authorized_handled v auth called s :
  tinv v -> v_waiting v = None -> v_closed v = false -> v_stage v = St_authorization ->
  (exists ctx ticket attempt t data, v_context v = Some ctx /\ authorize (v_options v) ctx ticket attempt t data = Ok auth) ->
  handled (Done (Some (InCreate SignalLeg auth called s))) (v <| v_authorization := Some auth |>).
Proof.
  intros [Hv Hf] Hw Hc Hs Hauth. pose proof Hf as Hf'. unfold fresh in Hf'. rewrite Hs in Hf'. destruct (Hf' Hc) as [Hsn Hdn]. split; [|exact Hf].
  assert (Hst := i_stage v Hv). unfold early in Hst. rewrite Hs in Hst. destruct Hst as (_ & Hks & Hkd). parts Hv.
  - by intros x [= <-].
  - by intros a [= <-].
  - intros [] h; cbn; congruence.
  - intros [] k; cbn; congruence.
Qed.

Lemma handleWSMessage_handled v f data :
  tinv v -> v_waiting v = None -> ends v (handleWSMessage f data) handled.
Proof.
  intros Hv Hw. unfold handleWSMessage, get_this. apply ends_gets. intros w Ew.
  destruct (context (this w)) as [ctx|] eqn:Ectx; [|apply ends_raise, Hv].
  destruct (ws (this w)) as [s|] eqn:Es; [|apply ends_raise, Hv].
  assert (Hws : v_ws v = Some s) by (by rewrite <- Ew). assert (Hctx : v_context v = Some ctx) by (by rewrite <- Ew).
  assert (Hc : v_closed v = false).
  { destruct (v_closed v) eqn:E; [|done]. destruct (i_closed v (proj1 Hv) E) as [? _]. congruence. }
  assert (Hstage : v_stage v = stage (this w)) by (by rewrite <- Ew).
  assert (Hq : v_options v = options (this w)) by (by rewrite <- Ew).
  destruct (stage (this w)) eqn:Est;
    try (apply ends_answer; [intros message _|intros e; apply Hv]; by apply socket_record_handled).
  - apply ends_gets. intros w1 _. apply ends_answer; [intros auth Ha|intros e; apply Hv].
    unfold assign. apply (ends_modify _ (v <| v_authorization := Some auth |>)); [by intros w2 <-|].
    apply ends_ret, authorized_handled; try done. destruct (authorize _ _ _ _ _ _) as [x|e] eqn:E; [|done].
    injection Ha as ->. eexists ctx, _, _, _, data. split; [done|]. rewrite Hq. exact E.
  - apply ends_answer; [intros message _|intros e; apply Hv]. by apply begin_hello_handled.
  - apply ends_answer; [intros message _|intros e; apply Hv].
    eapply ends_bind; [apply auth_ok_keys; [apply Hv|done]| |by intros e v' [? _]].
    intros k v' (Hv' & h' & -> & Hk & Hag).
    destruct (keyed_winv SignalLeg k (set_vh SignalLeg h' v) h') as [Hkw Ha]; [done..|].
    assert (Htk : tinv (keyed SignalLeg k (set_vh SignalLeg h' v))) by (by split).
    unfold assign. apply (ends_modify _ (keyed SignalLeg k (set_vh SignalLeg h' v))); [by intros w1 <-|].
    apply ends_if; intros Hqt; [by apply handled_keep; [preserves_tac|..]|].
    apply startWebRTC_handled; try done; [|by rewrite <- Hqt; cbn; rewrite Hq].
    pose proof (i_stage v (proj1 Hv)) as He. unfold early in He. rewrite Hstage in He. by destruct He.
Qed.

(** A record of the channel. *)
Lemma channel_record_handled v message w :
  tinv v -> v_waiting v = None -> v_closed v = false -> tview w = v ->
  ends v (raise_if (bool_decide (dataCodec (this w) = None)) "peer transport: data codec unavailable" ;;;
          let! opened := on_codec DataLeg (DirectHandshake.open message) in
          let! _ := handleRecord 2 (fst opened) (snd opened) in
          ret None) handled.
Proof.
  intros Hv Hw Hc Ew. apply ends_if; intros Hk; [apply ends_raise, Hv|].
  assert (Hkeys : v_data_keys v <> None).
  { pose proof (view_codec DataLeg w) as Hd. cbn [codec_of v_keys] in Hd. rewrite Hk, Ew in Hd.
    by symmetry in Hd; apply bool_decide_eq_false in Hd. }
  assert (Hau : v_authenticated v = true).
  { destruct Hv as [Hv Hf]. pose proof (i_stage v Hv) as He. unfold early in He. unfold fresh in Hf.
    destruct (v_stage v); try (by destruct He as (_ & _ & ?)); try (by destruct He as (_ & ?)). by apply Hf. }
  apply ends_quiet; [preserves_tac|intros opened|intros e; apply Hv].
  eapply ends_bind; [apply handleRecord_live| |]; cbn beta.
  - destruct (i_phase v (proj1 Hv)) as (p & -> & Hp). by rewrite (Hp Hc), Hau.
  - intros a v' ->. by apply ends_ret, handled_none.
  - intros e v' ->. apply Hv.
Qed.

Lemma handleDataMessage_handled v message :
  tinv v -> v_waiting v = None -> ends v (handleDataMessage message) handled.
Proof.
  intros Hv Hw. unfold handleDataMessage, get_this. apply ends_gets. intros w Ew.
  destruct (dc (this w)) as [d|] eqn:Ed; [|apply ends_raise, Hv].
  destruct (dataHandshake (this w)) as [h0|] eqn:Eh; [|apply ends_raise, Hv].
  assert (Hdc : v_dc v = Some d) by (by rewrite <- Ew).
  assert (Hc : v_closed v = false).
  { destruct (v_closed v) eqn:E; [|done]. destruct (i_closed v (proj1 Hv) E) as (_ & _ & ? & _). congruence. }
  assert (Hstage : v_stage v = stage (this w)) by (by rewrite <- Ew).
  assert (Hq : is_quick_tunnel (v_options v) = false).
  { destruct (is_quick_tunnel (v_options v)) eqn:E; [|done]. destruct (i_quick v (proj1 Hv) E). congruence. }
  destruct (stage (this w)) eqn:Est; try (by apply (channel_record_handled _ _ w)).
  - by apply begin_hello_handled.
  - eapply ends_bind; [apply auth_ok_keys; [apply Hv|done]| |by intros e v' [? _]].
    intros k v' (Hv' & h' & -> & Hk & Hag).
    destruct (keyed_winv DataLeg k (set_vh DataLeg h' v) h') as [Hkw Ha]; [done..|].
    set (u := keyed DataLeg k (set_vh DataLeg h' v)) in *.
    unfold assign. apply (ends_modify _ (u <| v_authenticated := true |> <| v_stage := St_records |>)); [by intros w1 E1; unfold u; rewrite <- E1|].
    apply (authenticate_live u (fun _ => ret None) (ret tt)); [by apply attempting|by apply preserves_ret|done|].
    apply ends_ret, handled_none; [|done]. apply live_tinv; try done; [unfold v_active; change (v_options u) with (v_options v); by rewrite Hq|].
    eapply Forall_impl; [exact (i_channels v (proj1 Hv))|]. intros c Hn E. specialize (Hn E). congruence.
Qed.

(** *** Turns of the chain *)

Lemma run_job_handled v f job : tinv v -> v_waiting v = None -> ends v (run_job f job) handled.
Proof.
  intros Hv Hw. destruct job as [data|data]; cbn [run_job]; [by apply handleWSMessage_handled|].
  apply ends_answer; [intros message _|intros e; apply Hv]. by apply handleDataMessage_handled.
Qed.

(** The rest of a job, whose outcome is where the chain is suspended. *)
Lemma suspended_sound v (m : M (option Waiting)) :
  ends v m handled -> ends v (catch (let! waiting := m in suspend waiting) fail) sound.
Proof.
  intros Hm. apply catch_sound. eapply ends_bind; [exact Hm| |by intros e v' ?].
  intros waiting v' Hw w <-. exact Hw.
Qed.

Lemma receive_turn_sound v f : tinv v -> ends v (receive_turn f) sound.
Proof.
  intros Hv. unfold receive_turn. apply ends_gets. intros w Ew. unfold chain_next.
  destruct (suspended_job (receiveChain w)) eqn:Es; [by apply ends_ret|].
  assert (Hw : v_waiting v = None) by (by rewrite <- Ew).
  destruct (jobs (receiveChain w)) as [|job rest]; [by apply ends_ret|].
  intros w0 E0.
  assert (E1 : tview (w0 <| receiveChain := mkChain rest None |>) = v).
  { rewrite <- E0 in Hw |- *. unfold tview in *. cbn in *. by rewrite Hw. }
  apply (suspended_sound v (run_job f job)); [by apply run_job_handled|exact E1].
Qed.

(** A call that is not inside a handshake gives up its place. *)
Lemma tunnel_resumed v waiting :
  tinv v -> v_waiting v = Some waiting -> (forall leg, awaiting_of leg (Some waiting) = None) ->
  tinv (v <| v_waiting := None |>).
Proof.
  intros [Hv Hf] Hw Hn. split; [|exact Hf]. parts Hv.
  - done.
  - intros leg h Hh. specialize (I11 leg h). rewrite Hw, Hn in I11. destruct leg; exact (I11 Hh).
Qed.

Lemma winv_new_handshake leg h auth ctx v :
  winv v -> v_waiting v = None -> v_keys leg v = None -> v_authorization v = Some auth -> v_context v = Some ctx ->
  reached auth (v_identity v) (c_genesis ctx) (c_localMembership ctx) (c_hostMembership ctx) h None ->
  winv (set_vh leg h v).
Proof.
  intros Hv Hw Hk Ha Hctx Hr. assert (I11' := i_handshakes v Hv). assert (I12' := i_keys v Hv).
  assert (Hreach : forall x, Some h = Some x -> exists auth ctx, v_authorization v = Some auth /\ v_context v = Some ctx /\
      reached auth (v_identity v) (c_genesis ctx) (c_localMembership ctx) (c_hostMembership ctx) x
        (awaiting_of leg (v_waiting v))).
  { intros x [= <-]. exists auth, ctx. split_and!; try done. rewrite Hw. by destruct leg. }
  destruct leg; cbn [set_vh]; parts Hv.
  - intros [] h0; cbn; [apply Hreach|apply (I11' DataLeg)].
  - intros [] k; cbn; [cbn in Hk; congruence|apply (I12' DataLeg)].
  - intros [] h0; cbn; [apply (I11' SignalLeg)|apply Hreach].
  - intros [] k; cbn; [apply (I12' SignalLeg)|cbn in Hk; congruence].
Qed.

(** The next stage of a handshake. *)
Inductive next_stage : Stage -> Stage -> Prop :=
  | next_host : next_stage St_authorization St_signal_handshake_host
  | next_ok : next_stage St_signal_handshake_host St_signal_handshake_ok
  | next_data_ok : next_stage St_data_handshake_host St_data_handshake_ok.

Lemma winv_stage v from to :
  winv v -> v_waiting v = None -> v_stage v = from -> next_stage from to -> tinv (v <| v_stage := to |>).
Proof.
  intros Hv Hw Hs Hn. split; [|unfold fresh; cbn; by destruct Hn].
  assert (Hau : v_authenticated v = false).
  { destruct (v_authenticated v) eqn:E; [|done]. destruct (i_authenticated v Hv E) as [E' _]. destruct Hn; congruence. }
  assert (I8' := i_stage v Hv). unfold early in I8'. rewrite Hs in I8'. parts Hv.
  - congruence.
  - intros waiting E. congruence.
  - destruct Hn; [destruct I8' as [-> _]; constructor..|].
    eapply Forall_impl; [exact I7|]. intros c Hc E. specialize (Hc E). congruence.
  - unfold early. cbn. destruct Hn; exact I8'.
Qed.

(** *** Continuing a suspended call *)

Lemma create_reached w auth called o h :
  create_handshake (this w) auth called o = Done h -> exists ctx, v_context (tview w) = Some ctx /\
    reached auth (v_identity (tview w)) (c_genesis ctx) (c_localMembership ctx) (c_hostMembership ctx) h None.
Proof.
  unfold create_handshake. intros E. destruct (context (this w)) as [ctx|] eqn:Ec; [|done].
  destruct o as [[pk jwk]|e]; [|done]. exists ctx. split; [done|].
  destruct (create auth _ _ _ _ _ _ _) as [h'|e] eqn:Eh; [|done]. injection E as ->. by eapply reached_create.
Qed.

Lemma created_signal_handled v auth ctx h :
  winv v -> v_waiting v = None -> v_stage v = St_authorization -> v_authorization v = Some auth -> v_context v = Some ctx ->
  reached auth (v_identity v) (c_genesis ctx) (c_localMembership ctx) (c_hostMembership ctx) h None ->
  ends v (created_signal h) handled.
Proof.
  intros Hv Hw Hs Ha Hctx Hr. unfold created_signal, assign.
  assert (Hv1 : winv (set_vh SignalLeg h v)).
  { apply (winv_new_handshake SignalLeg h auth ctx); try done. pose proof (i_stage v Hv) as He. unfold early in He.
    rewrite Hs in He. by destruct He as (_ & ? & _). }
  apply (ends_modify _ (set_vh SignalLeg h v)); [by intros w <-|]. unfold self. apply ends_gets. intros w _.
  destruct (ws (this w)) as [s|]; [|by apply ends_raise].
  eapply ends_bind; [by apply hello_sent| |by intros e v' [? _]].
  intros hello v' [Hv' E]. assert (Es : v_stage v' = St_authorization /\ v_waiting v' = None) by (by destruct E as [->|[x ->]]).
  apply ends_quiet; [preserves_tac|intros _|by intros e].
  apply (ends_modify _ (v' <| v_stage := St_signal_handshake_host |>)); [by intros w1 <-|].
  assert (Ht : tinv (v' <| v_stage := St_signal_handshake_host |>)) by (apply (winv_stage v' St_authorization); [done|by destruct Es|by destruct Es|constructor]).
  apply ends_ret, handled_none; [done|by destruct Es].
Qed.

Lemma created_data_handled v auth ctx h p :
  winv v -> v_waiting v = None -> v_stage v = St_signals -> v_authorization v = Some auth -> v_context v = Some ctx ->
  reached auth (v_identity v) (c_genesis ctx) (c_localMembership ctx) (c_hostMembership ctx) h None ->
  ends v (created_data p h) handled.
Proof.
  intros Hv Hw Hs Ha Hctx Hr. unfold created_data, assign.
  assert (Hst := i_stage v Hv). unfold early in Hst. rewrite Hs in Hst. destruct Hst as [Hlen Hk].
  assert (Hv1 : winv (set_vh DataLeg h v)) by (by apply (winv_new_handshake DataLeg h auth ctx)).
  apply (ends_modify _ (set_vh DataLeg h v)); [by intros w <-|].
  set (u := set_vh DataLeg h v). apply (ends_modify _ (u <| v_channels := map (fun c => (fst c, true)) (v_channels u) |>)).
  { intros w <-. unfold tview. cbn. by rewrite !map_map. }
  apply ends_emit; [done|]. apply ends_ret. split; [|unfold fresh; cbn; by rewrite Hs].
  parts Hv1.
  - intros waiting [= <-]. done.
  - apply Forall_map, Forall_true. intros c _. exact Hs.
  - unfold early. cbn. rewrite Hs, length_map. by split.
  - intros leg h0 Hh0. specialize (I11 leg h0). cbn in I11. rewrite Hw in I11. destruct leg; exact (I11 Hh0).
  - intros Hq. destruct (I13 Hq) as [E ?]. cbn in E. by rewrite E.
Qed.

Lemma hello_settled_handled v leg to o :
  tinv v -> v_waiting v = None -> v_stage v = host_stage leg -> ends v (hello_settled leg to o) handled.
Proof.
  intros Hv Hw Hs. unfold hello_settled, assign. apply ends_answer; [intros m _|intros e; apply Hv].
  apply ends_quiet; [destruct leg; preserves_tac|intros _|intros e; apply Hv].
  apply (ends_modify _ (v <| v_stage := ok_stage leg |>)); [by intros w <-; destruct leg|].
  apply ends_ret, handled_none; [|done]. apply (winv_stage v (host_stage leg)); [apply Hv|done|done|destruct leg; constructor].
Qed.

Lemma resume_hello_handled leg to a v :
  tinv v -> v_waiting v = Some (InHello leg to a) ->
  ends (v <| v_waiting := None |>) (continue (InHello leg to a) Proceed) handled.
Proof.
  intros [Hv _] Hw w Hvw. cbn [continue]. unfold bind, settled. cbn [fst snd]. unfold on_handshake.
  assert (Hs : v_stage v = host_stage leg) by (pose proof (i_waiting v Hv _ Hw) as Hs; by destruct leg).
  assert (Hne : forall leg', leg' <> leg -> awaiting_of leg' (v_waiting v) = None) by (rewrite Hw; by intros [] ?; destruct leg).
  assert (Hset : forall o x, (set_vo leg o (v <| v_waiting := None |>)) <| v_waiting := x |> = (set_vo leg o v) <| v_waiting := x |>)
    by by destruct leg.
  rewrite handshake_view, Hvw. change (v_handshake leg (v <| v_waiting := None |>)) with (v_handshake leg v).
  destruct (v_handshake leg v) as [h|] eqn:E.
  - destruct (handleHostHello_resume a h) as [h' r] eqn:Er. cbn [fst snd ret]. rewrite view_set_handshake, Hvw.
    destruct (hello_waiting leg to (of_result r)) as (W1 & W2 & W3).
    destruct (i_handshakes v Hv leg h E) as (auth & ctx & ? & ? & Hr).
    assert (Ea : awaiting_of leg (v_waiting v) = Some a) by (rewrite Hw; by destruct leg).
    rewrite Ea in Hr. pose proof (reached_resume _ _ _ _ _ h a Hr) as Hr'. rewrite Er in Hr'. cbn [fst snd] in Hr'.
    cbn [handled]. replace (set_vh leg h' (v <| v_waiting := None |>)) with (set_vo leg (Some h') (v <| v_waiting := None |>)) by by destruct leg.
    rewrite Hset. apply waiting_inv; [done|done| |exact W2|].
    + intros leg' Hl. split; [by apply Hne|by apply W1].
    + intros x [= <-]. exists auth, ctx. rewrite W3. split_and!; [done..|]. by destruct r as [[]|].
  - cbn. rewrite Hvw. destruct (hello_waiting leg to (Raise (js "TypeError"))) as (W1 & W2 & W3).
    pose proof (waiting_inv leg v (v_handshake leg v) (HelloSettled leg to (Raise (js "TypeError"))) Hv Hs) as Hwi.
    rewrite set_vo_same in Hwi. apply Hwi; [|exact W2|intros h Eh; congruence].
    intros leg' Hl. split; [by apply Hne|by apply W1].
Qed.

(** A call that cannot go on waits where it was. *)
Lemma still_waiting v waiting :
  tinv v -> v_waiting v = Some waiting -> handled (Done (Some waiting)) (v <| v_waiting := None |>).
Proof.
  intros Hv Hw. cbn [handled]. assert (E : (v <| v_waiting := None |>) <| v_waiting := Some waiting |> = v)
    by (destruct v; cbn in *; by subst).
  by rewrite E.
Qed.

Lemma continue_handled v waiting ans :
  tinv v -> v_waiting v = Some waiting -> ends (v <| v_waiting := None |>) (continue waiting ans) handled.
Proof.
  intros Hv Hw. assert (Hst := i_waiting v (proj1 Hv) _ Hw).
  destruct waiting as [leg auth called p|leg to a|leg to o|p| |].
  - assert (Hr : tinv (v <| v_waiting := None |>)) by (apply (tunnel_resumed v (InCreate leg auth called p)); [done..|by intros []]).
    destruct ans; cbn [continue]; try (by apply ends_ret, still_waiting).
    unfold get_this. apply ends_gets. intros w Ew.
    apply ends_answer; [intros h Hh|intros e; apply Hr].
    destruct (create_reached w auth called o h Hh) as (ctx & Hctx & Hreach). rewrite Ew in Hctx, Hreach.
    destruct leg; cbn [stage_of_waiting] in Hst.
    + apply (created_signal_handled _ auth ctx); try done; [apply Hr|by destruct Hst..].
    + apply (created_data_handled _ auth ctx); try done; [apply Hr|by destruct Hst as (? & ? & _)..].
  - destruct ans; try (by apply ends_ret, still_waiting). by apply resume_hello_handled.
  - assert (Hr : tinv (v <| v_waiting := None |>)) by (apply (tunnel_resumed v (HelloSettled leg to o)); [done..|by intros []; destruct leg]).
    destruct ans; cbn [continue]; try (by apply ends_ret, still_waiting).
    apply hello_settled_handled; [done|done|by destruct leg].
  - assert (Hr : tinv (v <| v_waiting := None |>)) by (apply (tunnel_resumed v (InOffer p)); [done..|by intros []]).
    destruct ans; cbn [continue]; try (by apply ends_ret, still_waiting).
    apply ends_answer; [intros _ _|intros e; apply Hr]. apply ends_emit; [done|]. apply ends_ret.
    destruct Hr as [Hr Hf]. split; [|exact Hf]. parts Hr. by intros x [= <-].
  - assert (Hr : tinv (v <| v_waiting := None |>)) by (apply (tunnel_resumed v InLocalDescription); [done..|by intros []]).
    destruct ans; cbn [continue]; try (by apply ends_ret, still_waiting).
    apply ends_answer; [intros _ _|intros e; apply Hr]. apply handled_keep; [preserves_tac|done|done].
  - assert (Hr : tinv (v <| v_waiting := None |>)) by (apply (tunnel_resumed v InSignal); [done..|by intros []]).
    destruct ans; cbn [continue]; try (by apply ends_ret, still_waiting).
    apply ends_answer; [intros _ _|intros e; apply Hr]. by apply ends_ret, handled_none.
Qed.

Lemma receive_resume_sound v ans : tinv v -> ends v (receive_resume ans) sound.
Proof.
  intros Hv. unfold receive_resume. apply ends_gets. intros w Ew.
  destruct (suspended_job (receiveChain w)) as [waiting|] eqn:Es; [|by apply ends_ret].
  assert (Hw : v_waiting v = Some waiting) by (by rewrite <- Ew).
  apply (ends_modify _ (v <| v_waiting := None |>)); [by intros w1 <-|].
  apply suspended_sound. by apply continue_handled.
Qed.

(** *** The other handlers *)

Lemma start_sound v : tinv v -> ends v start sound.
Proof.
  intros [Hv Hf]. unfold start, get_this. apply ends_gets. intros w Ew. destruct (started (this w)) eqn:Es; [by apply ends_ret|].
  destruct (closed (this w)) eqn:Ec; [by apply ends_ret|]. cbn [orb].
  unfold assign. apply (ends_modify _ (v <| v_started := true |>)); [by intros w1 <-|].
  assert (Hs : v_started v = false) by (by rewrite <- Ew). destruct (i_early v Hv (or_intror Hs)) as [Ht Hctx].
  intros w1 E1. unfold modify. cbn [fst snd].
  assert (E : tview (w1 <| opening := true |>) = v <| v_started := true |> <| v_opening := true |>) by (by rewrite <- E1).
  rewrite E. split; [|exact Hf]. parts Hv; done.
Qed.

Lemma open_continue_sound v clock : tinv v -> v_opening v = true -> ends v (open_continue clock) sound.
Proof.
  intros [Hv Hf] Ho. unfold open_continue. destruct (i_early v Hv (or_introl Ho)) as [Ht Hctx].
  assert (Hst := i_opening v Hv Ho). assert (Htm := i_timers v Hv).
  apply (ends_modify _ (v <| v_opening := false |>)); [by intros w <-|].
  set (v1 := v <| v_opening := false |>). assert (Hv1 : winv v1).
  { unfold v1. parts Hv; done. }
  apply catch_sound. unfold get_this. apply ends_gets. intros w Ew.
  apply ends_answer; [intros ctx Hload|by intros e].
  unfold assign. apply (ends_modify _ (v1 <| v_context := Some ctx |>)); [by intros w1 <-|].
  set (v2 := v1 <| v_context := Some ctx |>).
  assert (Hnk : forall leg k, v_keys leg v = Some k -> v_closed v = false -> False).
  { intros leg k Hk Hc. pose proof (i_keys v Hv leg k Hk) as Hkk. rewrite Hc in Hkk.
    destruct Hkk as (_ & auth & x & _ & E & _). congruence. }
  assert (Hna : v_authorization v = None).
  { destruct (v_authorization v) as [a|] eqn:E; [|done]. destruct (i_authorization v Hv a E) as (x & _ & _ & _ & _ & E' & _). congruence. }
  assert (Hau : v_authenticated v = false).
  { destruct (v_authenticated v) eqn:E; [|done]. destruct (i_authenticated v Hv E) as (_ & _ & Hk).
    destruct (v_closed v) eqn:Ec; [destruct (i_closed v Hv Ec) as (_ & _ & _ & _ & ?); congruence|].
    destruct (v_keys (v_active v) v) eqn:Ek; [|done]. exfalso. by eapply Hnk. }
  assert (Hload' : exists clock, loadPeerContext (v_identity v) (v_state v) clock = Ok ctx).
  { exists clock. assert (E : self_identity (this w) = v_identity v) by (change (v_identity (tview w) = v_identity v1); by rewrite Ew).
    assert (E' : client_state (this w) = v_state v) by (change (v_state (tview w) = v_state v1); by rewrite Ew).
    rewrite <- E, <- E'. destruct (loadPeerContext _ _ _); [|done]. by injection Hload as ->. }
  assert (Hv2 : winv v2).
  { unfold v2, v1. parts Hv.
    - done.
    - intros [E|E]; [done|congruence].
    - by intros x [= <-].
    - intros a Ea. congruence.
    - intros leg h Hh. destruct (I11 leg h) as (a & x & E & _); [by destruct leg|]. congruence.
    - intros leg k Hk. assert (Hk' : v_keys leg v = Some k) by by destruct leg. specialize (I12 leg k Hk'). cbn.
      destruct (v_closed v) eqn:Ec; [exact I12|]. exfalso. by eapply Hnk. }
  assert (Htv2 : tinv v2) by (split; [exact Hv2|exact Hf]).
  destruct (closed (this w)) eqn:Ec; [by apply ends_ret|].
  assert (Hc : v_closed v = false) by (change (v_closed v1 = false); by rewrite <- Ew).
  apply ends_answer; [intros url _|by intros e]. destruct (socket_error url); [by apply ends_raise|].
  apply ends_quiet; [preserves_tac|intros s|by intros e]. apply ends_quiet; [preserves_tac|intros _|by intros e].
  apply ends_quiet; [preserves_tac|intros _|by intros e].
  apply (ends_modify _ (v2 <| v_ws := Some s |>)); [by intros w1 <-|].
  intros w2 E2. unfold bind, setTimeout, gets, modify, emit, ret. cbn.
  assert (E : forall id d o, tview (w2 <| timers := timers w2 ++ [id] |> <| nextTimer := S id |>
      <| trace := trace w2 ++ [StartTimer id d] |> <| this := (this w2) <| timeout := o |> |>)
    = (tview w2) <| v_timers := v_timers (tview w2) ++ [id] |> <| v_timeout := o |>).
  { intros id d o. unfold tview. cbn. by rewrite tunnel_phase_silent, spoken_silent. }
  rewrite E, E2. assert (Hnil : v_timers v = []) by (rewrite Ht in Htm; by destruct Htm).
  destruct Htv2 as [Hw2 Hf2]. split; [|exact Hf2]. parts Hw2.
  - intros Ec'. change (v_closed v = true) in Ec'. congruence.
  - change (Forall (fun t => Some (nextTimer w2) = Some t) (v_timers v ++ [nextTimer w2])). rewrite Hnil. by repeat constructor.
  - change (false = true \/ v_started v = false -> Some (nextTimer w2) = None /\ Some ctx = None). intros [E'|E']; congruence.
  - intros Ea. change (v_authenticated v = true) in Ea. congruence.
Qed.

Lemma quiet_sound {A} v (m : M A) : preserves tview m -> tinv v -> ends v m sound.
Proof. intros Hm Hv. by apply ends_preserves. Qed.

Lemma drop_outcome {A} v (m : M A) (Q : unit -> M unit) : ends v m sound -> ends v (let! _ := m in ret tt) sound.
Proof. intros Hm. eapply ends_bind; [exact Hm| |done]. intros a v' Hv'. by apply ends_ret. Qed.

Lemma ws_onopen_sound v s random : tinv v -> ends v (ws_onopen s random) sound.
Proof.
  intros Hv. unfold ws_onopen. apply catch_sound. apply ends_preserves; [|intros []; [exact Hv|apply Hv]].
  unfold assign. preserves_tac.
Qed.

Lemma fail_ends v e : tinv v -> ends v (fail e) sound.
Proof. intros Hv. apply fail_sound, Hv. Qed.

Lemma when_sound v b (m : M unit) : tinv v -> ends v m sound -> ends v (when b m) sound.
Proof. intros Hv Hm. destruct b; [exact Hm|by apply ends_ret]. Qed.

Lemma sendFrame_sound v frame : tinv v -> ends v (let! _ := sendFrame frame in ret tt) sound.
Proof.
  intros Hv. apply (drop_outcome _ _ ret). unfold sendFrame, get_this. apply ends_gets. intros w _. apply ends_gets. intros w1 _.
  destruct (target (this w) w1) as [[[id []] buffered]|]; try (by apply ends_ret).
  apply ends_if; intros _; [by apply ends_ret|]. apply ends_if; intros _.
  - eapply ends_bind; [by apply fail_ends| |done]. intros a v' Hv'. by apply ends_ret.
  - assert (Hq : ends v (let! records := on_codec (active_leg (this w)) (sealFrame frame) in
                         let! _ := send_records id records in ret true) (fun o v' => v' = v))
      by (apply ends_preserves; [preserves_tac|done]).
    intros w2 E2. specialize (Hq w2 E2). unfold catch.
    destruct (bind (on_codec _ _) _ w2) as [w3 [a|e]]; cbn [fst snd] in Hq |- *; [by rewrite Hq|].
    assert (Hf : ends v (let! _ := fail e in ret false) sound).
    { eapply ends_bind; [by apply fail_ends| |done]. intros a v' Hv'. by apply ends_ret. }
    exact (Hf w3 Hq).
Qed.

(** The channel opens at the stage of the signals, and there is one channel. *)
Lemma dc_onopen_sound v d :
  winv v -> v_stage v = St_signals -> Forall (fun c => c <> (true, true)) (v_channels v) ->
  v_channels v !! d = Some (false, true) -> ends v (dc_onopen d) sound.
Proof.
  intros Hv Hs Hch Hd. unfold dc_onopen, assign. apply catch_sound.
  eapply ends_bind; [by apply hello_sent| |by intros e v' [? _]]. intros hello v' [Hv' E].
  assert (Es : v_stage v' = St_signals /\ v_channels v' = v_channels v) by (by destruct E as [->|[x ->]]).
  destruct Es as [Es Ech]. clear E. apply ends_quiet; [preserves_tac|intros _|by intros e].
  intros w <-. unfold modify. cbn [fst snd].
  change (tinv ((tview w) <| v_stage := St_data_handshake_host |>)). set (u := tview w) in *. clearbody u. clear w.
  assert (Hau : v_authenticated u = false).
  { destruct (v_authenticated u) eqn:E; [|done]. destruct (i_authenticated u Hv' E) as [E' _]. congruence. }
  split; [|done]. assert (Hst := i_stage u Hv'). unfold early in Hst. rewrite Es in Hst. parts Hv'.
  - intros E. congruence.
  - intros waiting Hw. specialize (I6 waiting Hw). destruct waiting as [[]|[]|[]| | |]; cbn in *; try done; try congruence.
    + destruct I6; congruence.
    + destruct I6 as (_ & _ & Hl). rewrite Ech in Hl. pose proof (Forall_lookup_1 _ _ _ _ Hl Hd) as Hx. discriminate Hx.
  - rewrite Ech. eapply Forall_impl; [exact Hch|]. by intros c Hc ->.
  - exact Hst.
Qed.

Lemma channels_view w d : v_channels (tview w) !! d = channel_view <$> (channels w !! d).
Proof. cbn. by rewrite list_lookup_fmap. Qed.

Definition opened_channel d v : TView := v <| v_channels := alter closing d (v_channels v) |>.

Lemma opened_tinv d v : tinv v -> tinv (opened_channel d v).
Proof.
  intros [Hv Hf]. split; [|exact Hf]. unfold opened_channel. parts Hv.
  - intros waiting Hw. specialize (I6 waiting Hw). destruct waiting as [[]|[]|[]| | |]; cbn in *; try done.
    destruct I6 as (? & ? & ?). split_and!; try done. by apply Forall_closing.
  - apply Forall_closing; [done|]. by intros [] _ [=].
  - unfold early in I8 |- *. cbn. destruct (v_stage v); rewrite ?length_alter; try done; destruct I8 as (-> & ? & ?); done.
  - intros Hq. destruct (I13 Hq) as [-> ?]. done.
Qed.

(** A channel that opens or closes; [f] sets its state. *)
Lemma view_alter_channel f d w :
  (forall c, channel_view (f c) = closing (channel_view c)) ->
  tview (w <| channels := alter f d (channels w) |>) = opened_channel d (tview w).
Proof. intros Hf. unfold opened_channel, tview. cbn. by rewrite (map_alter_channels _ closing). Qed.

Lemma channel_open_sound v d :
  tinv v -> ends v (let! go := gets (channel_is d [CONNECTING]) in
    when go (let! _ := alter_channel (fun c => c <| channelState := OPEN |>) d in if_listening d (dc_onopen d))) sound.
Proof.
  intros Hv w <-. unfold bind at 1 3, gets. cbn [fst snd].
  destruct (channel_is d [CONNECTING] w) eqn:Eg; [|exact Hv].
  unfold when, bind, alter_channel, modify, if_listening, gets. cbn [fst snd].
  set (w1 := w <| channels := _ |>). assert (E1 : tview w1 = opened_channel d (tview w)) by by apply view_alter_channel.
  assert (Hv1 : tinv (tview w1)) by (rewrite E1; by apply opened_tinv).
  unfold channel_is in Eg. destruct (channels w !! d) as [c|] eqn:Ec; [|done].
  assert (Est : channelState c = CONNECTING) by (apply bool_decide_eq_true in Eg; set_solver).
  assert (Ec1 : channels w1 !! d = Some (c <| channelState := OPEN |>)).
  { unfold w1. cbn. by rewrite list_lookup_alter_eq, Ec. }
  unfold bind, when. cbn beta iota. rewrite Ec1. destruct (listening (c <| channelState := OPEN |>)) eqn:El; [|exact Hv1].
  assert (Hl : listening c = true) by exact El.
  assert (Hd : v_channels (tview w) !! d = Some (true, true)).
  { rewrite channels_view, Ec. cbn. unfold channel_view. by rewrite Est, Hl. }
  assert (Hs : v_stage (tview w) = St_signals) by exact (Forall_lookup_1 _ _ _ _ (i_channels _ (proj1 Hv)) Hd eq_refl).
  apply (dc_onopen_sound (tview w1) d); [apply Hv1|by rewrite E1| | |done].
  - rewrite E1. assert (Hst := i_stage _ (proj1 Hv)). unfold early in Hst. rewrite Hs in Hst. destruct Hst as [Hlen _].
    cbn [opened_channel]. unfold opened_channel. change (Forall (fun c => c <> (true, true)) (alter closing d (v_channels (tview w)))).
    revert Hd Hlen. generalize (v_channels (tview w)). intros l Hd Hlen. destruct l as [|x [|y l]]; [done| |cbn in Hlen; lia].
    destruct d; [|done]. by repeat constructor.
  - rewrite E1. change (alter closing d (v_channels (tview w)) !! d = Some (false, true)).
    by rewrite list_lookup_alter_eq, Hd.
Qed.

Lemma channel_close_sound v d e :
  tinv v -> ends v (let! go := gets (channel_is d [CONNECTING; OPEN; CLOSING]) in
    when go (let! _ := alter_channel (fun c => c <| channelState := CLOSED |>) d in
             if_listening d (let! already := self closed in when (negb already) (fail e)))) sound.
Proof.
  intros Hv. apply ends_gets. intros w _. apply when_sound; [done|]. unfold alter_channel.
  apply (ends_modify _ (opened_channel d v)); [intros w1 <-; by apply view_alter_channel|].
  assert (Hv1 := opened_tinv d v Hv). unfold if_listening. apply ends_gets. intros w1 _. apply when_sound; [done|].
  unfold self. apply ends_gets. intros w2 _. apply when_sound; [done|]. by apply fail_ends.
Qed.

Lemma ice_state_sound v state : tinv v -> ends v (pc_oniceconnectionstatechange state) sound.
Proof.
  intros Hv. unfold pc_oniceconnectionstatechange. apply ends_emit; [done|]. apply when_sound; [done|]. by apply fail_ends.
Qed.

Lemma timer_sound v t :
  tinv v -> ends v (let! _ := modify (fun w => w <| timers := filter (fun u => u <> t) (timers w) |>) in timer_fired) sound.
Proof.
  intros [Hv Hf]. apply (ends_modify _ (v <| v_timers := filter (fun u => u <> t) (v_timers v) |>)); [by intros w <-|].
  unfold timer_fired. apply fail_sound. parts Hv. change (Forall (fun t => v_timeout v = Some t) (filter (fun u => u <> t) (v_timers v))).
  apply Forall_forall. intros x Hx. apply list_elem_of_filter in Hx as [_ Hx]. by apply (proj1 (Forall_forall _ _) I3).
Qed.

(** Every turn keeps the invariant. *)
Lemma dispatch_sound v e : tinv v -> (e = EvClose -> given_quit) -> ends v (dispatch e) sound.
Proof.
  intros Hv Hq. destruct e; cbn [dispatch].
  - by apply start_sound.
  - by apply sendFrame_sound.
  - apply finish_sound; [done|by apply Hq].
  - by apply fail_ends.
  - apply quiet_sound; [apply tun_requestCatalog|done].
  - apply ends_gets. intros w Ew. destruct (opening w) eqn:Eo; [|by apply ends_ret].
    apply open_continue_sound; [done|by rewrite <- Ew].
  - apply ends_gets. intros w _. apply when_sound; [done|]. apply ends_quiet; [preserves_tac|intros _|by intros e].
    by apply ws_onopen_sound.
  - apply ends_gets. intros w _. apply when_sound; [done|]. apply quiet_sound; [preserves_tac|done].
  - apply ends_gets. intros w _. apply when_sound; [done|]. apply quiet_sound; [preserves_tac|done].
  - apply ends_gets. intros w _. apply when_sound; [done|]. apply ends_quiet; [preserves_tac|intros _|by intros e].
    unfold ws_onclose, self. apply ends_gets. intros w1 _. apply when_sound; [done|]. by apply fail_ends.
  - apply quiet_sound; [preserves_tac|done].
  - apply ends_gets. intros w _. apply when_sound; [done|]. by apply timer_sound.
  - by apply receive_turn_sound.
  - by apply receive_resume_sound.
  - apply ends_gets. intros w _. apply when_sound; [done|]. apply quiet_sound; [preserves_tac|done].
  - apply ends_gets. intros w _. apply when_sound; [done|]. apply ends_quiet; [preserves_tac|intros _|by intros e].
    by apply ice_state_sound.
  - apply ends_gets. intros w _. apply when_sound; [done|]. apply ends_quiet; [preserves_tac|intros _|by intros e].
    apply when_sound; [done|]. by apply fail_ends.
  - by apply channel_open_sound.
  - apply ends_gets. intros w _. apply when_sound; [done|]. unfold if_listening. apply ends_gets. intros w1 _.
    apply when_sound; [done|]. apply quiet_sound; [preserves_tac|done].
  - apply ends_gets. intros w _. apply when_sound; [done|]. unfold if_listening. apply ends_gets. intros w1 _.
    apply when_sound; [done|]. by apply fail_ends.
  - by apply channel_close_sound.
  - apply quiet_sound; [|done]. apply tun_alter_channel. by intros [].
  - apply quiet_sound; [preserves_tac|done].
Qed.

Lemma init_tinv control t : tinv (tview (init (new_tunnel given_options given_identity given_state control) t)).
Proof.
  split; [|done]. split; cbn; try done.
  - by exists Attempting.
  - by intros [].
  - by intros [].
Qed.

Lemma run_tinv control t events :
  (EvClose ∈ events -> given_quit) -> tinv (tview (run events (init (new_tunnel given_options given_identity given_state control) t))).
Proof.
  unfold run. induction events as [|e events IH] using rev_ind; [intros _; apply init_tinv|]. intros Hq.
  rewrite fold_left_app. cbn [fold_left]. unfold step. eapply (dispatch_sound _ e); [apply IH; set_solver| |done].
  intros ->. apply Hq. set_solver.
Qed.
End Parts.
