(* ===== verification/QuickTunnelClosed.v ===== *)
(** * The peer tunnel transport: nothing after the end

    A closed transport stays closed, and reports nothing but diagnostics. The
    [echo] of a state is what its owner has heard and whether it is closed; in
    a closed state no turn changes it. *)

From S2P Require Import Prelude Bytes JsString JsMap Json DirectCrypto DirectFraming DirectHandshake.
From S2P Require Import EventLoop Transport NativeDirect PeerIdentity PeerDocuments PeerState PeerHandshake.
From S2P Require Import PeerFragments QuickTunnel QuickTunnelInv QuickTunnelSteps.

(** What the owner hears: every callback but the diagnostics, and the control
    messages. *)
Definition loud (e : TunnelEffect) : bool :=
  match e with Calls (CbDiagnostics _) => false | Calls _ | ConfigMessage _ _ => true | _ => false end.

Definition heard (l : list TunnelEffect) : list TunnelEffect := filter (fun e => loud e = true) l.

Section Closed.
Context `{Crypto} `{PeerCrypto} `{WebCrypto} `{JsText} `{Platform} `{UrlText} `{TunnelBrowser}.

Definition echo (w : TunnelWorld) : bool * list TunnelEffect := (closed (this w), heard (trace w)).

Lemma heard_quiet l e : loud e = false -> heard (l ++ [e]) = heard l.
Proof. intros He. unfold heard. rewrite filter_app, filter_cons_False by (rewrite He; done). apply app_nil_r. Qed.

Lemma echo_emit e : loud e = false -> preserves echo (emit e).
Proof. intros He w. unfold echo. cbn. by rewrite heard_quiet. Qed.
Hint Extern 3 (preserves echo (emit _)) => apply echo_emit; reflexivity : preserves.

Lemma echo_get_this : preserves echo get_this.
Proof. unfold get_this. preserves_tac. Qed.

Lemma echo_self {A} (f : PeerTunnel -> A) : preserves echo (self f).
Proof. unfold self. preserves_tac. Qed.

Lemma echo_on_handshake {A} leg (m : method PeerClientHandshake A) : preserves echo (on_handshake leg m).
Proof. intros w. unfold on_handshake. destruct (handshake_of leg (this w)); [|done]. destruct (m _). by destruct leg. Qed.

Lemma echo_on_codec {A} leg (m : method DirectClientRecordCodec A) : preserves echo (on_codec leg m).
Proof. intros w. unfold on_codec. destruct (codec_of leg (this w)); [|done]. destruct (m _). by destruct leg. Qed.
Hint Resolve echo_get_this echo_self echo_on_handshake echo_on_codec : preserves.

Lemma echo_ws_send s n e : loud e = false -> preserves echo (ws_send s n e).
Proof. intros He. pose proof (echo_emit e He). unfold ws_send, add_socket_buffered. preserves_tac. Qed.

Lemma echo_ws_send_bytes s data : preserves echo (ws_send_bytes s data).
Proof. by apply echo_ws_send. Qed.

Lemma echo_ws_send_text s text : preserves echo (ws_send_text s text).
Proof. by apply echo_ws_send. Qed.

Lemma echo_dc_send d data : preserves echo (dc_send d data).
Proof. unfold dc_send, alter_channel. preserves_tac. Qed.
Hint Resolve echo_ws_send_bytes echo_ws_send_text echo_dc_send : preserves.

Lemma echo_seal_and_send s fragments : preserves echo (seal_and_send s fragments).
Proof. induction fragments as [|f rest IH]; cbn [seal_and_send]; preserves_tac. Qed.
Hint Resolve echo_seal_and_send : preserves.

Lemma echo_sendSignal type payload : preserves echo (sendSignal type payload).
Proof. unfold sendSignal, assign. preserves_tac. Qed.

Lemma echo_requestCatalog : preserves echo requestCatalog.
Proof.
  assert (Hseal : forall kind parts, preserves echo (seal_each kind parts))
    by (intros kind parts; induction parts as [|p rest IH]; cbn [seal_each]; preserves_tac).
  assert (Hsend : forall s records, preserves echo (send_each s records))
    by (intros s records; induction records as [|r rest IH]; cbn [send_each]; preserves_tac).
  unfold requestCatalog, assign. preserves_tac.
Qed.

Lemma echo_suspend waiting : preserves echo (suspend waiting).
Proof. unfold suspend. preserves_tac. Qed.
Hint Resolve echo_sendSignal echo_suspend : preserves.

Lemma echo_continue waiting ans : preserves echo (continue waiting ans).
Proof.
  unfold continue, created_signal, created_data, hello_settled, assign. preserves_tac.
Qed.

(** In a closed state, an error that [fail] catches is not reported. *)
Definition mute {A} (m : Act TunnelWorld A) : Prop :=
  forall w, closed (this w) = true -> echo (fst (m w)) = echo w.

Lemma mute_preserves {A} (m : Act TunnelWorld A) : preserves echo m -> mute m.
Proof. intros Hm w _. apply Hm. Qed.

Lemma mute_bind {A B} (m : Act TunnelWorld A) (k : A -> Act TunnelWorld B) :
  mute m -> (forall a, mute (k a)) -> mute (bind m k).
Proof.
  intros Hm Hk w Hw. specialize (Hm w Hw). unfold bind. destruct (m w) as [w' [a|e]]; cbn in Hm |- *; [|exact Hm].
  rewrite (Hk a w'); [exact Hm|]. injection Hm as Hc _. congruence.
Qed.

Lemma mute_gets {A B} (f : TunnelWorld -> A) (k : A -> Act TunnelWorld B) :
  (forall w, closed (this w) = true -> echo (fst (k (f w) w)) = echo w) -> mute (bind (gets f) k).
Proof. intros Hk w Hw. by apply Hk. Qed.

Lemma mute_fail e : mute (fail e).
Proof. intros w Hw. unfold fail, self, bind, gets. cbn [fst snd]. by rewrite Hw. Qed.

Lemma mute_finish : mute finish.
Proof. intros w Hw. unfold finish, self, bind, gets. cbn [fst snd]. by rewrite Hw. Qed.

Lemma mute_catch (m : Act TunnelWorld unit) : mute m -> mute (catch m fail).
Proof.
  intros Hm w Hw. specialize (Hm w Hw). unfold catch. destruct (m w) as [w' [a|e]]; cbn [fst] in Hm |- *; [exact Hm|].
  rewrite (mute_fail e w'); [exact Hm|]. injection Hm as Hc _. congruence.
Qed.

Lemma mute_when b (m : Act TunnelWorld unit) : mute m -> mute (when b m).
Proof. by destruct b. Qed.

(** A closed transport has no socket and no channel, so that no message is
    handled any more. *)
Definition detached (w : TunnelWorld) : Prop := ws (this w) = None /\ dc (this w) = None.

Lemma run_job_detached f job w : detached w -> exists e, run_job f job w = (w, Raise e).
Proof.
  intros [Hws Hdc]. destruct job as [data|data]; cbn [run_job].
  - unfold handleWSMessage, get_this, bind, gets. cbn [fst snd]. rewrite Hws. destruct (context (this w)); by eexists.
  - unfold bind, answer. destruct (asBytes data); cbn; [|by eexists].
    unfold handleDataMessage, get_this, bind, gets. cbn [fst snd]. rewrite Hdc. by eexists.
Qed.

Lemma target_detached w : detached w -> target (this w) w = None.
Proof. intros [Hws Hdc]. unfold target. rewrite Hws, Hdc. by destruct (is_quick_tunnel _). Qed.

Lemma sendFrame_detached frame w : detached w -> sendFrame frame w = (w, Done false).
Proof.
  intros Hd. unfold sendFrame, get_this, bind, gets. cbn [fst snd]. by rewrite target_detached.
Qed.

Lemma receive_turn_detached f w : closed (this w) = true -> detached w -> echo (fst (receive_turn f w)) = echo w.
Proof.
  intros Hc Hd. unfold receive_turn, bind, gets. cbn [fst snd].
  destruct (chain_next (receiveChain w)) as [[job rest]|]; [|done].
  unfold modify. cbn [fst snd]. set (w1 := w <| receiveChain := rest |>).
  destruct (run_job_detached f job w1 Hd) as [e E].
  assert (E1 : catch (let! waiting := run_job f job in suspend waiting) fail w1 = fail e w1)
    by (unfold catch, bind; by rewrite E).
  change (echo (fst (catch (let! waiting := run_job f job in suspend waiting) fail w1)) = echo w).
  rewrite E1. by apply (mute_fail e w1).
Qed.

Lemma mute_guarded (b : TunnelWorld -> bool) (m : Act TunnelWorld unit) :
  mute m -> mute (let! go := gets b in when go m).
Proof. intros Hm. apply mute_gets. intros w Hw. by apply mute_when. Qed.

Lemma mute_then (m k : Act TunnelWorld unit) : preserves echo m -> mute k -> mute (let! _ := m in k).
Proof. intros Hm Hk. apply mute_bind; [by apply mute_preserves|done]. Qed.

Lemma mute_open_continue clock : mute (open_continue clock).
Proof.
  unfold open_continue. apply mute_then; [preserves_tac|]. apply mute_catch, mute_preserves.
  unfold assign, setTimeout. preserves_tac.
Qed.

Lemma mute_receive_resume ans : mute (receive_resume ans).
Proof.
  unfold receive_resume. apply mute_gets. intros w Hw. destruct (suspended_job (receiveChain w)) as [waiting|]; [|done].
  revert w Hw. apply mute_then; [preserves_tac|]. apply mute_catch, mute_bind; [apply mute_preserves, echo_continue|].
  intros next. apply mute_preserves. preserves_tac.
Qed.

Lemma mute_dc_onopen d : mute (dc_onopen d).
Proof. unfold dc_onopen, assign. apply mute_catch, mute_preserves. preserves_tac. Qed.

Lemma mute_listening d m : mute m -> mute (if_listening d m).
Proof. apply mute_guarded. Qed.

Lemma mute_unless_closed e : mute (let! already := self closed in when (negb already) (fail e)).
Proof. apply mute_gets. intros w Hw. by apply mute_when, Hw; apply mute_fail. Qed.

Lemma closed_dispatch e w : closed (this w) = true -> detached w -> echo (fst (dispatch e w)) = echo w.
Proof.
  intros Hc Hd.
  assert (Hm : match e with EvSendFrame _ | EvTurn _ => True | _ => mute (dispatch e) end).
  { destruct e; try exact I; cbn [dispatch]; try (apply mute_guarded).
    - apply mute_preserves. unfold start, assign. preserves_tac.
    - apply mute_finish.
    - apply mute_fail.
    - apply mute_preserves, echo_requestCatalog.
    - apply mute_open_continue.
    - apply mute_then; [unfold set_socket; preserves_tac|]. unfold ws_onopen, assign. apply mute_catch, mute_preserves. preserves_tac.
    - apply mute_preserves. unfold chain_job. preserves_tac.
    - apply mute_preserves. unfold set_socket. preserves_tac.
    - apply mute_then; [unfold set_socket; preserves_tac|]. apply mute_unless_closed.
    - apply mute_preserves. preserves_tac.
    - apply mute_then; [preserves_tac|apply mute_fail].
    - apply mute_receive_resume.
    - apply mute_preserves. unfold pc_onicecandidate. preserves_tac.
    - apply mute_then; [preserves_tac|]. apply mute_then; [preserves_tac|]. apply mute_when, mute_fail.
    - apply mute_then; [preserves_tac|]. apply mute_when, mute_fail.
    - apply mute_then; [unfold alter_channel; preserves_tac|]. apply mute_listening, mute_dc_onopen.
    - apply mute_listening, mute_preserves. unfold chain_job. preserves_tac.
    - apply mute_listening, mute_fail.
    - apply mute_then; [unfold alter_channel; preserves_tac|]. apply mute_listening, mute_unless_closed.
    - apply mute_preserves. unfold alter_channel. preserves_tac.
    - apply mute_preserves. preserves_tac. }
  destruct e; try (by apply Hm); cbn [dispatch].
  - unfold bind. by rewrite sendFrame_detached.
  - by apply receive_turn_detached.
Qed.
End Closed.
