(* ===== verification/QuickTunnelDisposed.v ===== *)
(** * The peer tunnel transport: the handshakes of a closed transport

    Closing erases the keys of both handshakes. Only a call of [handleHostHello]
    that was waiting for the shared secret when the transport was closed gives
    a handshake keys again: it goes on when the secret comes. *)

From S2P Require Import Prelude Bytes JsString JsMap Json DirectCrypto DirectFraming DirectHandshake.
From S2P Require Import EventLoop Transport NativeDirect PeerIdentity PeerDocuments PeerState PeerHandshake.
From S2P Require Import PeerFragments QuickTunnel QuickTunnelInv QuickTunnelSteps QuickTunnelClosed.

(** ** Handshake methods that give no keys *)

Section Keyless.
Context `{Crypto} `{PeerCrypto} `{WebCrypto}.

Definition keyless {A} (m : method PeerClientHandshake A) : Prop :=
  forall h, PeerHandshake.keys h = None -> PeerHandshake.keys (fst (m h)) = None.

Lemma keyless_hello : keyless clientHello.
Proof. intros h Hk. unfold clientHello. mrun. repeat (case_match; try done). Qed.

Lemma keyless_host_hello message : keyless (handleHostHello message).
Proof. intros h Hk. unfold handleHostHello. mrun. repeat (case_match; try done). Qed.

Lemma keyless_auth_ok message : keyless (handleAuthOK message).
Proof. intros h Hk. unfold handleAuthOK. mrun. rewrite Hk. repeat (case_match; try done). Qed.

(** The call is not about to derive the keys. *)
Definition deriving (awaiting : Awaiting) : bool :=
  match awaiting with A_derive (Some _) _ _ _ => true | _ => false end.

Lemma keyless_resume awaiting : deriving awaiting = false -> keyless (handleHostHello_resume awaiting).
Proof.
  intros Hd h Hk. destruct awaiting as [pk proof t|[jwk|] pk t b|t b]; try done; unfold handleHostHello_resume; mrun;
    repeat (case_match; try done).
Qed.

Lemma create_keyless auth self space client host now pk jwk h :
  create auth self space client host now pk jwk = Ok h -> PeerHandshake.keys h = None.
Proof. unfold create. intros E. inv_ok. by subst. Qed.
End Keyless.

(** ** What a closed transport holds *)

Section Tidy.
Context `{Crypto} `{PeerCrypto} `{WebCrypto} `{JsText} `{Platform} `{UrlText} `{TunnelBrowser}.
Context (leg : Leg).

(** The keys of the handshake of the leg. *)
Definition leg_keys (w : TunnelWorld) : option DirectHandshakeKeys :=
  handshake_of leg (this w) ≫= PeerHandshake.keys.

Definition held (w : TunnelWorld) : bool * option DirectHandshakeKeys := (closed (this w), leg_keys w).

(** If the transport is closed, the handshake of the leg has no keys. *)
Definition tidy (w : TunnelWorld) : Prop := closed (this w) = true -> leg_keys w = None.

Lemma tidy_held {A} (m : M A) : preserves held m -> keeps tidy m.
Proof.
  intros Hm. apply (preserves_keeps held); [done|]. unfold tidy. intros w w' E. injection E as -> ->. done.
Qed.

Lemma tidy_gets {A} (f : TunnelWorld -> A) : keeps tidy (gets f).
Proof. by intros w. Qed.

Lemma tidy_self {A} (f : PeerTunnel -> A) : keeps tidy (self f).
Proof. apply tidy_gets. Qed.

Lemma tidy_get_this : keeps tidy get_this.
Proof. apply tidy_gets. Qed.

Lemma tidy_modify f : (forall w, held (f w) = held w) -> keeps tidy (modify f).
Proof. intros Hf. by apply tidy_held, preserves_modify. Qed.

Lemma tidy_on_codec {A} leg' (m : method DirectClientRecordCodec A) : keeps tidy (on_codec leg' m).
Proof.
  apply tidy_held. intros w. unfold on_codec. destruct (codec_of leg' (this w)); [|done]. destruct (m _).
  by destruct leg'.
Qed.

Lemma tidy_on_reassembler {A} (m : method Reassembler A) : keeps tidy (on_reassembler m).
Proof. apply tidy_held. intros w. unfold on_reassembler. by destruct (m _). Qed.

Lemma tidy_on_signal_fragment {A} (m : method (option Collection) A) : keeps tidy (on_signal_fragment m).
Proof. apply tidy_held. intros w. unfold on_signal_fragment. by destruct (m _). Qed.

Lemma tidy_on_config_fragment {A} (m : method (option Collection) A) : keeps tidy (on_config_fragment m).
Proof. apply tidy_held. intros w. unfold on_config_fragment. by destruct (m _). Qed.

Lemma tidy_on_handshake {A} leg' (m : method PeerClientHandshake A) : keyless m -> keeps tidy (on_handshake leg' m).
Proof.
  intros Hm w Hw Hc. unfold on_handshake in *. destruct (handshake_of leg' (this w)) as [h|] eqn:E; [|by apply Hw].
  specialize (Hm h). destruct (m h) as [h' r] eqn:Em. cbn [fst] in *. unfold tidy, leg_keys in *.
  destruct leg', leg; cbn in *; rewrite ?E in Hw; cbn in *; auto.
Qed.

(** Closing erases them. *)
Lemma tidy_finish : keeps tidy finish.
Proof.
  intros w Hw. destruct (closed (this w)) eqn:Hc.
  - unfold finish, self, bind, gets. cbn [fst snd]. by rewrite Hc.
  - intros _. destruct (leads_finish w Hc) as [Ev _].
    assert (E : leg_keys (fst (finish w)) = v_handshake leg (fin (tview w)) ≫= PeerHandshake.keys)
      by (rewrite <- Ev; unfold leg_keys; by destruct leg).
    rewrite E. destruct leg; cbn; [by destruct (signalHandshake _)|by destruct (dataHandshake _)].
Qed.

(** A handshake that is just made has none. *)
Lemma tidy_install (f : PeerTunnel -> PeerTunnel) :
  (forall c, closed (f c) = closed c /\ (handshake_of leg c ≫= PeerHandshake.keys = None ->
                                        handshake_of leg (f c) ≫= PeerHandshake.keys = None)) ->
  keeps tidy (assign f).
Proof.
  intros Hf w Hw. unfold tidy, leg_keys in *. cbn. destruct (Hf (this w)) as [-> Hk]. auto.
Qed.
End Tidy.

Create HintDb tidy.
#[export] Hint Resolve tidy_gets tidy_self tidy_get_this tidy_on_codec tidy_on_reassembler tidy_on_signal_fragment
  tidy_on_config_fragment tidy_finish : tidy.
#[export] Hint Extern 3 (keeps (tidy _) (on_handshake _ _)) =>
  apply tidy_on_handshake; (apply keyless_hello || apply keyless_host_hello || apply keyless_auth_ok) : tidy.

(** Walks through a method that leaves a closed transport without keys. *)
Ltac tidy_tac :=
  repeat first
    [ solve [auto with tidy act_keeps]
    | apply tidy_modify; intros ?; reflexivity
    | match goal with
      | |- keeps _ (bind _ _) => apply act_keeps_bind; [|intros ?]
      | |- keeps _ (catch _ _) => apply keeps_catch; [|intros ?]
      | |- keeps _ (if ?b then _ else _) => destruct b
      | |- keeps _ (match ?x with _ => _ end) => destruct x
      | |- keeps _ (when ?b _) => apply keeps_when
      | |- keeps _ (settled _) => apply keeps_settled
      | |- keeps _ (attempt _) => apply keeps_attempt
      | |- keeps _ (let _ := _ in _) => cbv zeta
      end ].

Section Steps.
Context `{Crypto} `{PeerCrypto} `{WebCrypto} `{JsText} `{Platform} `{UrlText} `{TunnelBrowser}.
Context (leg : Leg).
Notation neat := (keeps (tidy leg)).

Lemma tidy_emit e : neat (emit e).
Proof. unfold emit. tidy_tac. Qed.
Hint Resolve tidy_emit : tidy.

Lemma tidy_fail e : neat (fail e).
Proof. unfold fail. tidy_tac. Qed.
Hint Resolve tidy_fail : tidy.

Lemma tidy_ws_send s n e : neat (ws_send s n e).
Proof. unfold ws_send, add_socket_buffered. tidy_tac. Qed.

Lemma tidy_dc_send d data : neat (dc_send d data).
Proof. unfold dc_send, alter_channel. tidy_tac. Qed.

Lemma tidy_ws_send_bytes s data : neat (ws_send_bytes s data).
Proof. apply tidy_ws_send. Qed.

Lemma tidy_ws_send_text s text : neat (ws_send_text s text).
Proof. apply tidy_ws_send. Qed.
Hint Resolve tidy_ws_send_bytes tidy_ws_send_text tidy_dc_send : tidy.

Lemma tidy_setTimeout delay : neat (setTimeout delay).
Proof. unfold setTimeout. tidy_tac. Qed.

Lemma tidy_clearTimeout : neat clearTimeout.
Proof. unfold clearTimeout, assign. tidy_tac. Qed.

Lemma tidy_seal_and_send s fragments : neat (seal_and_send s fragments).
Proof. induction fragments as [|f rest IH]; cbn [seal_and_send]; tidy_tac. Qed.
Hint Resolve tidy_setTimeout tidy_clearTimeout tidy_seal_and_send : tidy.

Lemma tidy_sendSignal type payload : neat (sendSignal type payload).
Proof. unfold sendSignal, assign. tidy_tac. Qed.

Lemma tidy_requestCatalog : neat requestCatalog.
Proof.
  assert (Hseal : forall kind parts, neat (seal_each kind parts))
    by (intros kind parts; induction parts as [|p rest IH]; cbn [seal_each]; tidy_tac).
  assert (Hsend : forall s records, neat (send_each s records))
    by (intros s records; induction records as [|r rest IH]; cbn [send_each]; tidy_tac).
  unfold requestCatalog, assign. tidy_tac.
Qed.

Lemma tidy_target_send id data : neat (target_send id data).
Proof. unfold target_send. tidy_tac. Qed.
Hint Resolve tidy_sendSignal tidy_requestCatalog tidy_target_send : tidy.

Lemma tidy_send_records id records : neat (send_records id records).
Proof. induction records as [|r rest IH]; cbn [send_records]; tidy_tac. Qed.
Hint Resolve tidy_send_records : tidy.

Lemma tidy_sendFrame frame : neat (sendFrame frame).
Proof. unfold sendFrame. tidy_tac. Qed.

Lemma tidy_handleRecord depth kind p : neat (handleRecord depth kind p).
Proof.
  revert kind p. induction depth as [|depth IH]; intros kind p; cbn [handleRecord]; tidy_tac.
Qed.

Lemma tidy_startWebRTC f : neat (startWebRTC f).
Proof. unfold startWebRTC, assign. tidy_tac. Qed.

Lemma tidy_applySignal signal : neat (applySignal signal).
Proof. unfold applySignal. tidy_tac. Qed.

Lemma tidy_suspend waiting : neat (suspend waiting).
Proof. unfold suspend. tidy_tac. Qed.
Hint Resolve tidy_sendFrame tidy_handleRecord tidy_startWebRTC tidy_applySignal tidy_suspend : tidy.

Lemma tidy_begin_hello leg' to message : neat (begin_hello leg' to message).
Proof. unfold begin_hello. tidy_tac. Qed.

Lemma tidy_handleSignalRecord kind p : neat (handleSignalRecord kind p).
Proof. unfold handleSignalRecord, signal_of_record, assign. tidy_tac. Qed.
Hint Resolve tidy_begin_hello tidy_handleSignalRecord : tidy.

Lemma tidy_run_job f job : neat (run_job f job).
Proof. destruct job; cbn [run_job]; unfold handleWSMessage, handleDataMessage, assign; tidy_tac. Qed.
Hint Resolve tidy_run_job : tidy.

Lemma tidy_receive_turn f : neat (receive_turn f).
Proof. unfold receive_turn. tidy_tac. Qed.

(** The call of the leg that is about to derive keys. *)
Definition derives (waiting : option Waiting) : bool :=
  match awaiting_of leg waiting with Some awaiting => deriving awaiting | None => false end.

Lemma tidy_resume leg' to awaiting :
  derives (Some (InHello leg' to awaiting)) = false -> neat (on_handshake leg' (handleHostHello_resume awaiting)).
Proof.
  intros Hd. unfold derives in Hd. destruct (decide (leg' = leg)) as [->|Hne].
  - apply tidy_on_handshake, keyless_resume. by destruct leg.
  - apply tidy_held. intros w. unfold on_handshake. destruct (handshake_of leg' (this w)); [|done].
    destruct (handleHostHello_resume _ _). unfold held, leg_keys. by destruct leg', leg.
Qed.

Lemma tidy_created auth called c o (k : PeerClientHandshake -> M (option Waiting)) :
  (forall h, PeerHandshake.keys h = None -> neat (k h)) ->
  neat (let! h := answer (create_handshake c auth called o) in k h).
Proof.
  intros Hk w Hw. unfold bind, answer. destruct (create_handshake c auth called o) as [h|e] eqn:E; [|done].
  apply Hk; [|done]. unfold create_handshake in E. destruct (context c); [|done]. destruct o as [[pk jwk]|]; [|done].
  destruct (create _ _ _ _ _ _ _ _) eqn:Ec in E; [|done]. injection E as <-. by apply create_keyless in Ec.
Qed.

Lemma tidy_created_signal h : PeerHandshake.keys h = None -> neat (created_signal h).
Proof.
  intros Hk. unfold created_signal. apply act_keeps_bind; [|intros _; unfold assign; tidy_tac].
  apply tidy_install. intros c. by destruct leg.
Qed.

Lemma tidy_created_data p h : PeerHandshake.keys h = None -> neat (created_data p h).
Proof.
  intros Hk. unfold created_data. apply act_keeps_bind; [|intros _; tidy_tac].
  apply tidy_install. intros c. by destruct leg.
Qed.

Lemma tidy_hello_settled leg' to o : neat (hello_settled leg' to o).
Proof. unfold hello_settled, assign. tidy_tac. Qed.

Lemma tidy_continue waiting ans : (ans = Proceed -> derives (Some waiting) = false) -> neat (continue waiting ans).
Proof.
  intros Hd. destruct waiting as [leg' auth called p|leg' to awaiting|leg' to o|p| |], ans; cbn [continue];
    try apply act_keeps_ret; try (apply act_keeps_bind; [|intros ?]); try solve [unfold assign; tidy_tac].
  - apply tidy_created. intros h Hh. destruct leg'; [by apply tidy_created_signal|by apply tidy_created_data].
  - by apply keeps_settled, (tidy_resume leg' to), Hd.
Qed.

Lemma tidy_receive_resume ans w :
  (ans = Proceed -> derives (suspended_job (receiveChain w)) = false) -> tidy leg w ->
  tidy leg (fst (receive_resume ans w)).
Proof.
  intros Hd Hw. unfold receive_resume, bind at 1, gets. cbn [fst snd].
  destruct (suspended_job (receiveChain w)) as [waiting|]; [|done]. revert w Hw. apply act_keeps_bind; [tidy_tac|].
  intros _. apply keeps_catch; [|intros e; tidy_tac]. apply act_keeps_bind; [by apply tidy_continue|intros; tidy_tac].
Qed.

Lemma open_tidy w : closed (this w) = false -> tidy leg w.
Proof. unfold tidy. congruence. Qed.

(** While the transport is open, its handshake may have keys. *)
Lemma open_receive_resume ans w : closed (this w) = false -> tidy leg (fst (receive_resume ans w)).
Proof.
  intros Hc. unfold receive_resume, bind at 1, gets. cbn [fst snd].
  destruct (suspended_job (receiveChain w)) as [waiting|]; [|by apply open_tidy].
  set (m := let! next := continue waiting ans in suspend next).
  assert (Hm : preserves echo m)
    by (apply preserves_bind; [apply echo_continue|intros next; apply echo_suspend]).
  change (tidy leg (fst (catch m fail (fst (suspend None w))))).
  specialize (Hm (fst (suspend None w))). injection Hm as Hm _. unfold catch.
  destruct (m _) as [w' [a|e]]; cbn in Hm |- *; [apply open_tidy; congruence|].
  apply tidy_fail, open_tidy. congruence.
Qed.

(** The one turn that gives a closed transport keys: its call goes on once the
    shared secret is there. *)
Definition late (e : Event) (w : TunnelWorld) : Prop :=
  e = EvResume Proceed /\ closed (this w) = true /\ derives (suspended_job (receiveChain w)) = true.

Lemma tidy_step e w : tidy leg w -> tidy leg (step e w) \/ late e w.
Proof.
  intros Hw. unfold step.
  assert (Hm : match e with EvResume _ => True | _ => neat (dispatch e) end).
  { destruct e; try exact I; cbn [dispatch]; unfold start, close, open_continue, ws_onopen, ws_onclose, timer_fired,
      set_socket, chain_job, pc_onicecandidate, pc_oniceconnectionstatechange, pc_onconnectionstatechange, if_listening,
      alter_channel, dc_onopen, assign; tidy_tac. apply tidy_receive_turn. }
  destruct e as [| | | | | | | | | | | | |ans| | | | | | | | |]; try (left; by apply Hm). clear Hm. cbn [dispatch].
  destruct (closed (this w)) eqn:Hc; [|left; by apply open_receive_resume].
  destruct (derives (suspended_job (receiveChain w))) eqn:Hd; [|left; by apply tidy_receive_resume].
  destruct ans; try (left; apply tidy_receive_resume; [|exact Hw]; discriminate). by right.
Qed.
End Steps.
