(* ===== verification/QuickTunnelToy.v ===== *)
(** * A concrete attempt of the peer tunnel transport

    The device that joined the space of [JoinedToy], a browser in which nothing
    fails, and a host that holds its membership: from the start to the
    authenticated quick tunnel. *)

From S2P Require Import Prelude Bytes JsString JsMap Json JsonText DirectCrypto DirectFraming DirectHandshake.
From S2P Require Import EventLoop Transport NativeDirect PeerIdentity PeerJoin PeerDocuments PeerTrust PeerState PeerHandshake.
From S2P Require Import PeerStateProps PeerFragments QuickTunnel.

#[export] Instance toy_tunnel_browser : TunnelBrowser := {
  socket_error _ := None;
  rtc_supported := true;
  channel_full _ := false;
}.

Module Tunnel.
Definition session : jsstr := js "00112233-4455-6677-8899-aabbccddeeff".
Definition attempt : jsstr := js "0123abcd-4455-6677-8899-aabbccddeeff".
Definition options : TunnelOptions := mkTunnelOptions session (js "client-1") (Some RouteQuickTunnel) None None.
Definition rtc : RtcAnswers := mkRtcAnswers (Done tt) (Done tt).

Definition start_world : TunnelWorld := init (new_tunnel options JoinedToy.self JoinedToy.state false) 400000.

Definition claims : EventData := Eval vm_compute in
  Text (JSON_stringify (JObj [(js "v", jint 1); (js "kind", JStr (js "authorized")); (js "user_id", JStr (Space.uuid "0"));
        (js "host_id", JStr (Space.peer 1)); (js "permission", jint 2); (js "expires_at_unix_millis", jint 500000)])).

Definition client_key : bytes := 4 :: repeat 2 64.
Definition host_key : bytes := 4 :: repeat 7 64.

Definition authorization : DirectAuthorization :=
  mkAuthorization attempt (zeros 32) session (Space.uuid "0") (Space.peer 1) (js "client-1") 2 500000.

(** The HOST_HELLO of the member that issued the bundle. *)
Definition host_hello_for (auth : DirectAuthorization) : bytes :=
  match marshalDirectTranscript (transcript_of auth client_key host_key) with
  | Ok t => [1; 2] ++ host_key ++ toy_sig (Space.key 1) (PEER_PROOF_DOMAIN ++ [DirectRole.Host] ++ t)
  | Throw _ => []
  end.

Definition host_hello : bytes := Eval vm_compute in host_hello_for authorization.

Definition receive (data : EventData) : list Event := [EvSocketMessage 0 data; EvTurn rtc].

(** Up to the fallback signal that the client sends, after the start. *)
Definition handshake_events (hello : bytes) : list Event :=
  [EvContext (fun _ => 400000); EvSocketOpen 0 (Done (zeros 32, attempt))] ++ receive claims
  ++ [EvResume (KeyPair (Done (client_key, 5)))] ++ receive (Binary hello)
  ++ repeat (EvResume Proceed) 4 ++ receive (Binary [1; 4]).

Definition keyed_events : list Event := EvStart :: handshake_events host_hello.

(** The codec of the host, in step with the client's. *)
Definition host_codec (w : TunnelWorld) : DirectClientRecordCodec :=
  match signalCodec (this w) with
  | Some c => new_codec (mirror (codec_keys c))
  | None => new_codec (mkHandshakeKeys (mkTrafficKeys [] [] [] []) [])
  end.

Definition record (w : TunnelWorld) (kind : Z) (p : bytes) : bytes :=
  match seal kind p (host_codec w) with (_, Ok r) => r | _ => [] end.

(** And on to the authenticated quick tunnel. *)
Definition ready_record : bytes := Eval vm_compute in
  record (run keyed_events start_world) DirectRecordKind.Signal (signalPayload S_wss_ready []).

Definition live_events : list Event := keyed_events ++ receive (Binary ready_record).

(** On the direct route, the handshake of the channel after that of the socket. *)
Definition direct_world : TunnelWorld :=
  init (new_tunnel (mkTunnelOptions session (js "client-1") (Some RouteDirect) None None) JoinedToy.self JoinedToy.state false) 400000.

Definition direct_events : list Event :=
  keyed_events
  ++ [EvResume (KeyPair (Done (client_key, 6))); EvResume (Settled (Done tt));
      EvResume (LocalDescription (Done tt) (JObj [(js "type", JStr (js "offer"))])); EvChannelOpen 0;
      EvChannelMessage 0 (Binary host_hello); EvTurn rtc]
  ++ repeat (EvResume Proceed) 4 ++ [EvChannelMessage 0 (Binary [1; 4]); EvTurn rtc].
End Tunnel.

(** What the owner hears on either route. *)
Example tunnel_runs :
  calls (trace (run Tunnel.live_events Tunnel.start_world))
  = [CbDiagnostics (mkDiagnostics (Some (js "quick_tunnel")) None None); CbAuthenticated] /\
  calls (trace (run Tunnel.direct_events Tunnel.direct_world)) = [CbAuthenticated].
Proof. split; vm_compute; reflexivity. Qed.
