(* ===== verification/QuickTunnelProps.v ===== *)
(** * The peer tunnel transport: what it promises

    An authenticated route stands on the documents of the space and on the
    host's own proof; the owner hears of it in order; and a closed transport
    says nothing and holds nothing, but for the keys of a handshake that was
    deriving them when it was closed. *)

From S2P Require Import Prelude Bytes JsString Base64Url JsMap Json JsonText DirectCrypto DirectFraming DirectHandshake.
From S2P Require Import EventLoop Transport NativeDirect PeerIdentity PeerJoin PeerDocuments PeerTrust PeerState PeerHandshake.
From S2P Require Import PeerStateProps PeerFragments QuickTunnel QuickTunnelInv QuickTunnelSteps QuickTunnelClosed QuickTunnelDisposed.
From S2P Require Import QuickTunnelToy.

(** A completed control message is never a fragment again, so that the
    recursion of [handleRecord] ends. *)
Lemma completed_kind `{Platform} fragment now c c' kind payload :
  addConfigFragment fragment now c = (c', Ok (Some (kind, payload))) -> kind <> DirectRecordKind.ConfigFragment.
Proof.
  unfold addConfigFragment, mbind, mlift. destruct (read_config_fragment fragment) as [p|e] eqn:Er; [|done].
  assert (Hk : pc_kind p <> DirectRecordKind.ConfigFragment).
  { unfold read_config_fragment in Er. inv_ok. cbn. guards. done. }
  unfold collect. mrun. destruct c as [state|].
  - split_guard; [done|]. destruct (set_range _ _ _); [|done]. destruct (negb (_ =? col_total state)); [done|].
    intros [= _ <- _]. guards. congruence.
  - split_guard; [done|]. cbn [col_startedAt col_id col_kind col_total col_next col_buffer].
    split_guard; [done|]. destruct (set_range _ _ _); [|done]. destruct (negb (_ =? pc_total p)); [done|].
    by intros [= _ <- _].
Qed.

Lemma handleRecord_depth `{Crypto} `{JsText} `{Platform} `{TunnelBrowser} `{PeerCrypto} `{WebCrypto} depth kind p w :
  handleRecord (S depth) kind p w = handleRecord 1 kind p w.
Proof.
  cbn [handleRecord]. destruct (kind =? DirectRecordKind.ConfigFragment) eqn:E; [|done].
  unfold bind, gets, on_config_fragment. destruct (addConfigFragment p (now w) (configFragments (this w))) as [c' [[[k q]|]|e]] eqn:Ea;
    cbn [of_result]; [|done..]. apply completed_kind in Ea.
  destruct depth as [|depth]; [done|]. cbn [handleRecord]. by rewrite (proj2 (Z.eqb_neq _ _) Ea).
Qed.

Section Props.
Context `{Crypto} `{PeerCrypto} `{WebCrypto} `{JsText} `{Platform} `{UrlText} `{TunnelBrowser}.
Context (o : TunnelOptions) (me : PeerIdentity) (st : PeerClientState) (control : bool) (t0 : Z).

Definition run_of (events : list Event) : TunnelWorld := run events (init (new_tunnel o me st control) t0).

Lemma of_result_done {A} (r : result A) a : of_result r = Done a -> r = Ok a.
Proof. destruct r; cbn; congruence. Qed.

Lemma peerPermission_text p : peerPermission (inl (permission_text p)) = Ok (permissionRank p).
Proof. by destruct p. Qed.

(** A session that a scope admits; an empty scope admits every session. *)
Definition in_scope (allowed : list jsstr) (session : jsstr) : Prop := allowed = [] \/ session ∈ allowed.

(** What the claims of a host may authorize: this session, in this space, with
    this host, within both memberships, and not after its time. *)
Record authorized (ctx : PeerContext) (auth : DirectAuthorization) (now : Z) : Prop := {
  az_session : auth_sessionId auth = sessionId o;
  az_space : auth_userId auth = space_id (gen_document (c_genesis ctx));
  az_host : auth_hostId auth = subject_peer_id (vg_document (c_hostMembership ctx));
  az_local : auth_permission auth <= permissionRank (permission (vg_document (c_localMembership ctx)));
  az_remote : auth_permission auth <= permissionRank (permission (vg_document (c_hostMembership ctx)));
  az_scope : sessionId o <> CONTROL_SESSION_ID ->
    in_scope (allowed_session_ids (vg_document (c_localMembership ctx))) (sessionId o) /\
    in_scope (allowed_session_ids (vg_document (c_hostMembership ctx))) (sessionId o);
  az_time : now < auth_expiresAtUnixMs auth;
}.

Lemma confined_scope allowed session : confined_elsewhere allowed session = false -> in_scope allowed session.
Proof.
  unfold confined_elsewhere, in_scope. destruct (bool_decide (allowed = [])) eqn:E; guards; [by left|].
  cbn [negb andb]. intros Hs. right. by destruct (bool_decide (session ∈ allowed)) eqn:E'; guards.
Qed.

Lemma authorize_authorized ctx ticket attempt t data auth :
  authorize o ctx ticket attempt t data = Ok auth -> authorized ctx auth t.
Proof.
  unfold authorize. destruct data as [text|p]; [|done]. intros E. inv_ok. destruct ticket as [ticket|]; [|done].
  inv_ok. rewrite !peerPermission_text in *. inv_ok. guards. split; cbn; try done.
  intros Hs. rewrite bool_decide_false in * by done. cbn [negb andb] in *. guards. split; by apply confined_scope.
Qed.

(** The keys of a session between the two members, which the holder of the
    host's membership has signed for. *)
Definition member_session (ctx : PeerContext) (auth : DirectAuthorization) (k : DirectHandshakeKeys) : Prop :=
  exists public_key jwk events transcript finish,
    finish_of me (c_genesis ctx) (c_localMembership ctx) (c_hostMembership ctx) transcript finish /\
    session_keys auth (c_genesis ctx) (c_localMembership ctx) (c_hostMembership ctx) public_key jwk events transcript k.

Lemma completed_session ctx auth k :
  completed auth me (c_genesis ctx) (c_localMembership ctx) (c_hostMembership ctx) k -> member_session ctx auth k.
Proof.
  intros (now & pk & jwk & h0 & events & message & h' & Hc & Hk).
  destruct (handshake_keys_session _ _ _ _ _ _ _ _ _ _ _ _ _ Hc Hk) as (_ & _ & t & fin & _ & Hf & Hs).
  by exists pk, jwk, events, t, fin.
Qed.

#[local] Instance given_here : Given := {| given_options := o; given_identity := me; given_state := st; given_quit := True |}.

Lemma run_of_inv events : tinv (tview (run_of events)).
Proof. exact (run_tinv control t0 events (fun _ => I)). Qed.

Lemma tunnel_ordered events :
  exists phase, observe_all Attempting (reports (trace (run_of events))) = Some phase /\
    (closed (this (run_of events)) = false ->
     phase = if authenticated (this (run_of events)) then Live else Attempting).
Proof. destruct (run_of_inv events) as [Hv _]. exact (i_phase _ Hv). Qed.

(** A transport that its owner has not closed ends in a failure. *)
Lemma ends_in_failure events :
  EvClose ∉ events -> closed (this (run_of events)) = true ->
  observe_all Attempting (reports (trace (run_of events))) = Some Over.
Proof.
  intros Hq Hc. pose (given_false := {| given_options := o; given_identity := me; given_state := st; given_quit := False |}).
  destruct (run_tinv (H6 := given_false) control t0 events Hq) as [Hv _]. by destruct (i_over _ Hv Hc).
Qed.

(** What an authentication that was reported stood on. *)
Lemma spoken_facts events :
  spoken (trace (run_of events)) = true ->
  exists ctx auth k clock now, loadPeerContext me st clock = Ok ctx /\ authorized ctx auth now /\ member_session ctx auth k.
Proof.
  intros Hs. destruct (run_of_inv events) as [Hv _].
  destruct (i_backed _ Hv Hs) as (ctx & clock & auth & ticket & attempt & now & data & k & Hload & Haz & Hk).
  exists ctx, auth, k, clock, now. split_and!; [done|by eapply authorize_authorized|by apply completed_session].
Qed.

(** What an authenticated transport stands on. *)
Lemma authenticated_facts events :
  authenticated (this (run_of events)) = true ->
  exists ctx auth k clock now,
    context (this (run_of events)) = Some ctx /\ loadPeerContext me st clock = Ok ctx /\
    tunnel_authorization (this (run_of events)) = Some auth /\ authorized ctx auth now /\
    option_map codec_keys (activeCodec (this (run_of events))) = Some k /\ member_session ctx auth k.
Proof.
  intros Ha. destruct (run_of_inv events) as [Hv _]. set (w := run_of events) in *.
  destruct (i_given _ Hv) as (Ho & Hme & Hst). destruct (i_authenticated _ Hv Ha) as (_ & _ & Hk).
  assert (Hc : v_closed (tview w) = false).
  { destruct (v_closed (tview w)) eqn:E; [|done]. destruct (i_closed _ Hv E) as (_ & _ & _ & _ & E'). cbn in E'. congruence. }
  destruct (v_keys (v_active (tview w)) (tview w)) as [k|] eqn:Ek; [|done].
  pose proof (i_keys _ Hv _ _ Ek) as Hkk. rewrite Hc in Hkk. destruct Hkk as (_ & auth & ctx & Eauth & Ectx & Hdone).
  rewrite Hme in Hdone. destruct (i_context _ Hv ctx Ectx) as [clock Hload]. rewrite Hme, Hst in Hload.
  destruct (i_authorization _ Hv auth Eauth) as (ctx' & ticket & attempt & now & data & Ectx' & Haz).
  assert (ctx' = ctx) as -> by congruence. rewrite Ho in Haz.
  exists ctx, auth, k, clock, now. split_and!; try done.
  - by eapply authorize_authorized.
  - rewrite <- Ek. unfold activeCodec, active_leg, v_active. cbn [v_options tview]. by destruct (is_quick_tunnel _).
  - by apply completed_session.
Qed.

(** C28. Whenever the transport is authenticated, the state it was made with is
    one that its documents bear out: the two memberships are active in the
    space, the authorization is for this session and this host, within the
    permission and the sessions of both memberships, and was accepted before it
    expired; and the codec that carries the route has keys that the holder of
    the host's membership has signed for and that the client's CLIENT_FINISH
    for the very transcript binds to both memberships. *)
Theorem tunnel_authenticated (events : list Event) (Hauth : authenticated (this (run_of events)) = true) :
  exists ctx auth codec clock now,
    context (this (run_of events)) = Some ctx /\ loadPeerContext me st clock = Ok ctx /\
    tunnel_authorization (this (run_of events)) = Some auth /\ authorized ctx auth now /\
    activeCodec (this (run_of events)) = Some codec /\ member_session ctx auth (codec_keys codec).
Proof.
  destruct (authenticated_facts events Hauth) as (ctx & auth & k & clock & now & ? & ? & ? & ? & Hk & ?).
  destruct (activeCodec (this (run_of events))) as [codec|]; [|done]. injection Hk as <-.
  by exists ctx, auth, codec, clock, now.
Qed.

(** C29. The owner hears of the route in order: the authentication at most
    once, frames, control messages and the end of the replay only after it, a
    failure at most once and nothing but diagnostics after it; and while the transport is open
    it is authenticated exactly when it has said so. *)
Theorem tunnel_callbacks_ordered (events : list Event) :
  exists phase, observe_all Attempting (reports (trace (run_of events))) = Some phase /\
    (closed (this (run_of events)) = false ->
     phase = if authenticated (this (run_of events)) then Live else Attempting).
Proof. apply tunnel_ordered. Qed.

Lemma closed_detached events : closed (this (run_of events)) = true -> detached (run_of events).
Proof. intros Hc. destruct (run_of_inv events) as [Hv _]. by destruct (i_closed _ Hv Hc) as (? & _ & ? & _). Qed.

Lemma closed_echo events later :
  closed (this (run_of events)) = true -> echo (run_of (events ++ later)) = echo (run_of events).
Proof.
  intros Hc. induction later as [|e later IH] using rev_ind; [by rewrite app_nil_r|].
  rewrite app_assoc. set (before := events ++ later) in *.
  assert (Hc' : closed (this (run_of before)) = true) by (unfold echo in IH; injection IH as IH _; congruence).
  unfold run_of, run in *. rewrite fold_left_app. cbn [fold_left]. unfold step at 1.
  rewrite (closed_dispatch e _ Hc'); [exact IH|]. by apply (closed_detached before).
Qed.

Lemma run_of_snoc events e : run_of (events ++ [e]) = step e (run_of events).
Proof. unfold run_of, run. by rewrite fold_left_app. Qed.

Lemma run_of_closed events e : closed (this (run_of events)) = true -> closed (this (step e (run_of events))) = true.
Proof.
  intros Hc. pose proof (closed_echo events [e] Hc) as He. rewrite run_of_snoc in He. injection He as He _. congruence.
Qed.

(** After the transport was closed, the call of the leg that awaited the shared
    secret went on, and derived keys. *)
Definition derived_late (leg : Leg) (events : list Event) : Prop :=
  exists before after, events = before ++ EvResume Proceed :: after /\
    closed (this (run_of before)) = true /\
    derives leg (suspended_job (receiveChain (run_of before))) = true.

Lemma run_of_tidy leg events : tidy leg (run_of events) \/ derived_late leg events.
Proof.
  induction events as [|e events IH] using rev_ind; [by left|]. destruct IH as [Ht|(before & after & -> & Hl)].
  - rewrite run_of_snoc. destruct (tidy_step leg e _ Ht) as [?|(-> & Hc & Hd)]; [by left|right].
    by exists events, [].
  - right. exists before, (after ++ [e]). split; [|exact Hl]. by rewrite <- app_assoc.
Qed.

(** C30. The end is final: once closed, by its owner or by a failure, the
    transport stays closed whatever happens. It holds no socket, no peer
    connection and no channel, its timer is gone, every key of its codecs has
    been erased, and the owner hears nothing more but diagnostics. Its
    handshakes hold no keys either, but for one whose call was waiting for the
    shared secret at a time when the transport was closed already, and then
    went on. *)
Theorem tunnel_closed_final (events later : list Event) (Hclosed : closed (this (run_of events)) = true) :
  let w := run_of (events ++ later) in
  closed (this w) = true /\ authenticated (this w) = false /\
  ws (this w) = None /\ pc (this w) = None /\ dc (this w) = None /\ timers w = [] /\
  (forall leg codec, codec_of leg (this w) = Some codec -> erase_keys (codec_keys codec) = codec_keys codec) /\
  (forall leg h k, handshake_of leg (this w) = Some h -> PeerHandshake.keys h = Some k ->
    derived_late leg (events ++ later)) /\
  heard (trace w) = heard (trace (run_of events)).
Proof.
  cbv zeta. pose proof (closed_echo events later Hclosed) as He. injection He as Hc Hh.
  rewrite Hclosed in Hc. destruct (run_of_inv (events ++ later)) as [Hv _].
  destruct (i_closed _ Hv Hc) as (Hws & Hpc & Hdc & Ht & Ha). split_and!; try done.
  - pose proof (i_timers _ Hv) as Htm. rewrite Ht in Htm. exact (remaining_none None _ Htm).
  - intros leg codec Ecodec. pose proof (i_keys _ Hv leg (codec_keys codec)) as Hk.
    assert (Ek : v_keys leg (tview (run_of (events ++ later))) = Some (codec_keys codec))
      by (destruct leg; cbn in *; by rewrite Ecodec).
    specialize (Hk Ek). change (v_closed (tview (run_of (events ++ later)))) with (closed (this (run_of (events ++ later)))) in Hk.
    rewrite Hc in Hk. exact Hk.
  - intros leg h k Eh Ek. destruct (run_of_tidy leg (events ++ later)) as [Htidy|]; [|done].
    specialize (Htidy Hc). unfold leg_keys in Htidy. rewrite Eh in Htidy. cbn in Htidy. congruence.
Qed.
End Props.

(** [close()] closes, whatever the state. *)
Lemma close_closes `{Crypto} `{PeerCrypto} `{WebCrypto} `{JsText} `{Platform} `{UrlText} `{TunnelBrowser} w :
  closed (this (step EvClose w)) = true.
Proof.
  unfold step. cbn [dispatch]. destruct (closed (this w)) eqn:Hc.
  - unfold close, finish, self, bind, gets. cbn. by rewrite Hc.
  - destruct (leads_finish w Hc) as [Ev _]. change (v_closed (tview (fst (finish w))) = true). by rewrite Ev.
Qed.

Lemma tunnel_authenticated_witness :
  authenticated (this (run_of Tunnel.options JoinedToy.self JoinedToy.state false 400000 Tunnel.live_events)) = true /\
  exists ctx auth now, authorized Tunnel.options ctx auth now /\
    exists k, member_session JoinedToy.self ctx auth k.
Proof.
  assert (Ha : authenticated (this (run_of Tunnel.options JoinedToy.self JoinedToy.state false 400000 Tunnel.live_events)) = true)
    by (vm_compute; reflexivity).
  split; [exact Ha|].
  destruct (tunnel_authenticated Tunnel.options JoinedToy.self JoinedToy.state false 400000 Tunnel.live_events Ha)
    as (ctx & auth & codec & clock & now & _ & _ & _ & Haz & _ & Hs).
  exists ctx, auth, now. split; [exact Haz|]. exists (codec_keys codec). exact Hs.
Defined.

Lemma tunnel_closed_final_witness :
  let events := Tunnel.live_events ++ [EvClose] in
  let later := [EvSocketClose 0; EvTimer 0; EvTurn Tunnel.rtc] in
  closed (this (run_of Tunnel.options JoinedToy.self JoinedToy.state false 400000 events)) = true /\
  timers (run_of Tunnel.options JoinedToy.self JoinedToy.state false 400000 (events ++ later)) = [].
Proof.
  cbv zeta. set (events := Tunnel.live_events ++ [EvClose]).
  assert (Hc : closed (this (run_of Tunnel.options JoinedToy.self JoinedToy.state false 400000 events)) = true).
  { unfold events. rewrite run_of_snoc. apply close_closes. }
  split; [exact Hc|].
  destruct (tunnel_closed_final Tunnel.options JoinedToy.self JoinedToy.state false 400000 events
    [EvSocketClose 0; EvTimer 0; EvTurn Tunnel.rtc] Hc) as (_ & _ & _ & _ & _ & Ht & _ & _ & _).
  exact Ht.
Defined.
