(* ===== verification/QuickTunnelGrowth.v ===== *)
(** * The peer tunnel transport: a turn only adds to the trace *)

From S2P Require Import Prelude Bytes JsString JsMap Json DirectCrypto DirectFraming DirectHandshake.
From S2P Require Import EventLoop Transport NativeDirect PeerIdentity PeerDocuments PeerState PeerHandshake.
From S2P Require Import PeerFragments QuickTunnel.

(** Walks through a method that keeps a property of the state, statement by
    statement. *)
Ltac grow_tac :=
  repeat first
    [ solve [auto with act_keeps]
    | apply act_keeps_modify; intros ? Hl; exact Hl
    | match goal with
      | |- keeps _ (bind _ _) => apply act_keeps_bind; [|intros ?]
      | |- keeps _ (catch _ _) => apply keeps_catch; [|intros ?]
      | |- keeps _ (if ?b then _ else _) => apply keeps_if
      | |- keeps _ (match ?x with _ => _ end) => destruct x
      | |- keeps _ (when _ _) => apply keeps_when
      | |- keeps _ (attempt _) => apply keeps_attempt
      | |- keeps _ (let _ := _ in _) => cbv zeta
      end ].

Section Growth.
Context `{Crypto} `{PeerCrypto} `{WebCrypto} `{JsText} `{Platform} `{UrlText} `{TunnelBrowser}.
Context (l0 : list TunnelEffect).

Definition grown (w : TunnelWorld) : Prop := l0 `prefix_of` trace w.

Lemma grown_gets {A} (f : TunnelWorld -> A) : keeps grown (gets f).
Proof. by intros w. Qed.

Lemma grown_emit e : keeps grown (emit e).
Proof. apply act_keeps_modify. intros w. apply prefix_app_r. Qed.

Lemma grown_on_handshake {A} leg (m : method PeerClientHandshake A) : keeps grown (on_handshake leg m).
Proof. intros w Hw. unfold on_handshake. destruct (handshake_of leg (this w)); [|exact Hw]. by destruct (m _). Qed.

Lemma grown_on_codec {A} leg (m : method DirectClientRecordCodec A) : keeps grown (on_codec leg m).
Proof. intros w Hw. unfold on_codec. destruct (codec_of leg (this w)); [|exact Hw]. by destruct (m _). Qed.

Lemma grown_on_reassembler {A} (m : method Reassembler A) : keeps grown (on_reassembler m).
Proof. intros w Hw. unfold on_reassembler. by destruct (m _). Qed.

Lemma grown_on_signal_fragment {A} (m : method (option Collection) A) : keeps grown (on_signal_fragment m).
Proof. intros w Hw. unfold on_signal_fragment. by destruct (m _). Qed.

Lemma grown_on_config_fragment {A} (m : method (option Collection) A) : keeps grown (on_config_fragment m).
Proof. intros w Hw. unfold on_config_fragment. by destruct (m _). Qed.
Hint Resolve grown_gets grown_emit grown_on_handshake grown_on_codec grown_on_reassembler grown_on_signal_fragment
  grown_on_config_fragment : act_keeps.
Hint Unfold self get_this assign : act_keeps.

Lemma grown_ws_send s n e : keeps grown (ws_send s n e).
Proof. unfold ws_send, add_socket_buffered. grow_tac. Qed.

Lemma grown_dc_send d data : keeps grown (dc_send d data).
Proof. unfold dc_send, alter_channel. grow_tac. Qed.
Hint Resolve grown_ws_send grown_dc_send : act_keeps.

Lemma grown_seal_and_send s fragments : keeps grown (seal_and_send s fragments).
Proof. induction fragments as [|f rest IH]; cbn [seal_and_send]; unfold ws_send_bytes; grow_tac. Qed.
Hint Resolve grown_seal_and_send : act_keeps.

Lemma grown_sendSignal type payload : keeps grown (sendSignal type payload).
Proof. unfold sendSignal, assign, get_this, ws_send_bytes. grow_tac. Qed.

Lemma grown_requestCatalog : keeps grown requestCatalog.
Proof.
  assert (Hseal : forall kind parts, keeps grown (seal_each kind parts))
    by (intros kind parts; induction parts as [|p rest IH]; cbn [seal_each]; grow_tac).
  assert (Hsend : forall s records, keeps grown (send_each s records))
    by (intros s records; induction records as [|r rest IH]; cbn [send_each]; unfold ws_send_bytes; grow_tac).
  unfold requestCatalog, get_this, assign. grow_tac.
Qed.

Lemma grown_finish : keeps grown finish.
Proof.
  unfold finish, clearTimeout, dispose_leg, close_opt, dc_close, pc_close, ws_close, alter_channel, set_socket, self, get_this, assign.
  grow_tac.
Qed.
Hint Resolve grown_sendSignal grown_requestCatalog grown_finish : act_keeps.

Lemma grown_fail e : keeps grown (fail e).
Proof. unfold fail, self. grow_tac. Qed.
Hint Resolve grown_fail : act_keeps.

Lemma grown_target_send id data : keeps grown (target_send id data).
Proof. unfold target_send, get_this, ws_send_bytes. grow_tac. Qed.
Hint Resolve grown_target_send : act_keeps.

Lemma grown_sendFrame frame : keeps grown (sendFrame frame).
Proof.
  assert (Hs : forall id records, keeps grown (send_records id records))
    by (intros id records; induction records as [|r rest IH]; cbn [send_records]; grow_tac).
  unfold sendFrame, get_this. grow_tac.
Qed.

Lemma grown_handleRecord depth kind p : keeps grown (handleRecord depth kind p).
Proof. revert kind p. induction depth as [|depth IH]; intros kind p; cbn [handleRecord]; unfold get_this; grow_tac. Qed.

Lemma grown_startWebRTC f : keeps grown (startWebRTC f).
Proof. unfold startWebRTC, get_this, assign. grow_tac. Qed.

Lemma grown_applySignal signal : keeps grown (applySignal signal).
Proof. unfold applySignal, self. grow_tac. Qed.

Lemma grown_begin_hello leg to message : keeps grown (begin_hello leg to message).
Proof. unfold begin_hello. grow_tac. Qed.
Hint Resolve grown_sendFrame grown_handleRecord grown_startWebRTC grown_applySignal grown_begin_hello : act_keeps.

Lemma grown_handleSignalRecord kind p : keeps grown (handleSignalRecord kind p).
Proof. unfold handleSignalRecord, signal_of_record, clearTimeout, self, get_this, assign. grow_tac. Qed.
Hint Resolve grown_handleSignalRecord : act_keeps.

Lemma grown_handleWSMessage f data : keeps grown (handleWSMessage f data).
Proof. unfold handleWSMessage, get_this, assign. grow_tac. Qed.

Lemma grown_handleDataMessage message : keeps grown (handleDataMessage message).
Proof. unfold handleDataMessage, clearTimeout, self, get_this, assign. grow_tac. Qed.
Hint Resolve grown_handleWSMessage grown_handleDataMessage : act_keeps.

Lemma grown_continue waiting ans : keeps grown (continue waiting ans).
Proof.
  unfold continue, created_signal, created_data, hello_settled, alter_channel, ws_send_bytes, self, get_this, assign. grow_tac.
Qed.
Hint Resolve grown_continue : act_keeps.

Lemma grown_dispatch e : keeps grown (dispatch e).
Proof.
  destruct e; cbn [dispatch]; unfold start, open_continue, close, ws_onopen, ws_onclose, ws_send_text, timer_fired, receive_turn,
    run_job, receive_resume, suspend, chain_job, pc_onicecandidate, pc_oniceconnectionstatechange, pc_onconnectionstatechange,
    dc_onopen, if_listening, setTimeout, alter_channel, set_socket, self, get_this, assign; grow_tac.
Qed.
End Growth.

(** A turn adds to the trace. *)
Lemma step_trace `{Crypto} `{PeerCrypto} `{WebCrypto} `{JsText} `{Platform} `{UrlText} `{TunnelBrowser} e w :
  trace w `prefix_of` trace (step e w).
Proof. apply (grown_dispatch (trace w) e w). unfold grown. done. Qed.
