(* ===== verification/PeerCatalog.v ===== *)
(** * The listing of the sessions of a peer (peer/quickTunnelClient.ts)

    [listQuickTunnelPeerSessions] opens a tunnel transport of its own for the
    control session, asks for the catalog when the transport reports its
    authentication, and settles its promise with the first answer, the failure
    of the transport or its deadline, whichever comes first.

    The transport is the one of [QuickTunnel], with the callbacks of the
    listing as its owner: the state is the world of the transport with the
    variables of the listing around it, and after each turn of the transport
    the listing hears what the turn reported. Each report is the last thing
    that its handler does, so that hearing it after the turn is hearing it in
    the turn. *)

From S2P Require Import Prelude Bytes JsString JsMap Json DirectCrypto DirectFraming DirectHandshake.
From S2P Require Import EventLoop Transport NativeDirect PeerIdentity PeerDocuments PeerState PeerHandshake.
From S2P Require Import PeerFragments QuickTunnel.

Section Listing.
Context `{Crypto} `{PeerCrypto} `{WebCrypto} `{JsText} `{Platform} `{UrlText} `{TunnelBrowser}.

Definition CATALOG_TIMEOUT_MS : Z := 8000.

(** [tunnel]: the transport, once the context has been loaded; [resolved]: the
    variable; [deadline]: whether the timer is pending; [settlements]: the
    calls of [resolve] and [reject]. *)
Record Lister := mkLister {
  tunnel : option TunnelWorld;
  loading : bool;
  resolved : bool;
  deadline : bool;
  settlements : list (outcome (list Json));
}.

#[export] Instance eta_lister : Eta Lister :=
  fun l => mkLister (tunnel l) (loading l) (resolved l) (deadline l) (settlements l).

Definition new_lister : Lister := mkLister None true false false [].

Definition settle (o : outcome (list Json)) (l : Lister) : Lister := l <| settlements := settlements l ++ [o] |>.

(** A call or an event of the transport. *)
Definition turn (e : Event) (l : Lister) : Lister := l <| tunnel := option_map (step e) (tunnel l) |>.

(** [const finish = (fn) => { if (!resolved) { resolved = true; transport.close(); fn() } }] *)
Definition finish_listing (o : outcome (list Json)) (l : Lister) : Lister :=
  if resolved l then l else settle o (turn EvClose (l <| resolved := true |>)).

(** [onFailure], and what else the transport reports of an error that a
    callback threw. *)
Definition hear_failure (e : TunnelEffect) (l : Lister) : Lister :=
  match e with Calls (CbFailure error) => finish_listing (Raise error) l | _ => l end.

Definition hear_each (hear : TunnelEffect -> Lister -> Lister) (effects : list TunnelEffect) (l : Lister) : Lister :=
  fold_left (fun l e => hear e l) effects l.

Definition effects_of (l : Lister) : list TunnelEffect := match tunnel l with Some w => trace w | None => [] end.

(** What a turn has added to the effects of the transport. *)
Definition news (before after : Lister) : list TunnelEffect := drop (length (effects_of before)) (effects_of after).

(** An error that a callback threw: the handler that called it fails. *)
Definition callback_threw (error : jsstr) (l : Lister) : Lister :=
  let l' := turn (EvCallbackThrew error) l in
  hear_each hear_failure (news l l') l'.

(** [JSON.parse(decoder.decode(plaintext))] and its checks: [None] for an
    invalid response, an error where the code throws. *)
Definition read_catalog (plaintext : bytes) : result (option (list Json)) :=
  match decodeFatal plaintext with
  | None => Throw "TypeError: The encoded data was not valid"
  | Some text =>
      let* body := JSON_parse text in
      let* v := prop body "v" in
      if negb (is_number v 1) then Ok None
      else
        let* sessions := prop body "sessions" in
        match sessions with Some (JArr l) => Ok (Some l) | _ => Ok None end
  end.

Definition onConfigMessage (kind : Z) (plaintext : bytes) (l : Lister) : Lister :=
  if negb (kind =? DirectRecordKind.CatalogResponse) then
    finish_listing (Raise (js "peer catalog: unexpected control response")) l
  else match read_catalog plaintext with
       | Throw error => callback_threw (js error) l
       | Ok None => finish_listing (Raise (js "peer catalog: invalid response")) l
       | Ok (Some sessions) => finish_listing (Done sessions) l
       end.

Definition onAuthenticated (l : Lister) : Lister :=
  match tunnel l with
  | None => l
  | Some w =>
      let l' := turn EvRequestCatalog l in
      match snd (requestCatalog w) with
      | Done _ => l'
      | Raise error => callback_threw error l'
      end
  end.

Definition hear (e : TunnelEffect) (l : Lister) : Lister :=
  match e with
  | Calls CbAuthenticated => onAuthenticated l
  | Calls (CbFailure error) => finish_listing (Raise error) l
  | ConfigMessage kind plaintext => onConfigMessage kind plaintext l
  | _ => l
  end.

(** The options of the listing's transport. *)
Definition listing_options (instance_id : jsstr) : TunnelOptions :=
  mkTunnelOptions CONTROL_SESSION_ID instance_id (Some RouteQuickTunnel) None None.

(** After the context: the transport is made and started, and the deadline set.
    [random]: what [crypto.randomUUID()] gives, at time [t]. *)
Definition begin_listing (identity : PeerIdentity) (state : PeerClientState) (random : outcome jsstr) (t : Z) (l : Lister) : Lister :=
  match random with
  | Raise error => settle (Raise error) l
  | Done instance_id =>
      let w := init (new_tunnel (listing_options instance_id) identity state true) t in
      let l1 := l <| tunnel := Some w |> in
      let l2 := turn EvStart l1 in
      (hear_each hear (news l1 l2) l2) <| deadline := true |>
  end.

Inductive ListEvent :=
  | LsLoaded (clock : nat -> Z) (random : outcome jsstr) (t : Z)
  | LsTransport (e : Event)
  | LsDeadline.

(** The events that are not calls of the transport's owner, which is the listing. *)
Definition from_outside (e : Event) : bool :=
  match e with EvStart | EvSendFrame _ | EvClose | EvCallbackThrew _ | EvRequestCatalog => false | _ => true end.

Definition list_step (identity : PeerIdentity) (state : PeerClientState) (e : ListEvent) (l : Lister) : Lister :=
  match e with
  | LsLoaded clock random t =>
      if loading l then
        let l := l <| loading := false |> in
        match loadPeerContext identity state clock with
        | Throw error => settle (Raise (js error)) l
        | Ok ctx => begin_listing (c_identity ctx) (c_state ctx) random t l
        end
      else l
  | LsTransport e =>
      if from_outside e then
        let l' := turn e l in
        hear_each hear (news l l') l'
      else l
  | LsDeadline =>
      if deadline l then finish_listing (Raise (js "peer catalog: timeout")) (l <| deadline := false |>) else l
  end.

Definition listQuickTunnelPeerSessions (identity : PeerIdentity) (state : PeerClientState) (events : list ListEvent) : Lister :=
  fold_left (fun l e => list_step identity state e l) events new_lister.

(** [quickTunnelRouteAvailable] *)
Definition quickTunnelRouteAvailable (state : PeerClientState) : bool :=
  starts_with (js "atc1.") (st_route_bundle state) || includes (st_route_bundle state) (js "#atc1.").
End Listing.
