(* ===== verification/PeerCatalogProps.v ===== *)
(** * The listing of the sessions of a peer: what it promises

    The listing settles once, by its deadline at the latest, and then its
    transport is closed; the sessions it gives came over an authenticated
    route. *)

From S2P Require Import Prelude Bytes JsString Base64Url JsMap Json JsonText DirectCrypto DirectFraming DirectHandshake.
From S2P Require Import EventLoop Transport NativeDirect PeerIdentity PeerJoin PeerDocuments PeerTrust PeerState PeerHandshake.
From S2P Require Import PeerStateProps PeerFragments QuickTunnel QuickTunnelInv QuickTunnelSteps QuickTunnelClosed QuickTunnelToy.
From S2P Require Import QuickTunnelProps QuickTunnelGrowth PeerCatalog.

(** What an owner that ends in a failure has heard. *)
Lemma observed_failure p l : observe_all p l = Some Over -> p <> Over -> exists e, CbFailure e ∈ l.
Proof.
  revert p. induction l as [|cb l IH]; intros p; cbn; [congruence|].
  destruct (observe p cb) as [p'|] eqn:E; [|done]. cbn. intros Hl Hp.
  destruct p' eqn:Ep; [destruct (IH _ Hl) as [e He]; [done|]; exists e; by right..|].
  destruct p, cb; try discriminate E; try done; eexists; by left.
Qed.

Lemma report_failure e l : CbFailure e ∈ reports l -> Calls (CbFailure e) ∈ l.
Proof.
  unfold reports. rewrite list_elem_of_omap. intros (x & Hx & E). destruct x as [| | | | | | | | | | |cb|kind p]; try discriminate E.
  by injection E as ->.
Qed.

Section Catalog.
Context `{Crypto} `{PeerCrypto} `{WebCrypto} `{JsText} `{Platform} `{UrlText} `{TunnelBrowser}.
Context (me : PeerIdentity) (st : PeerClientState).

Lemma loadPeerContext_given clock ctx : loadPeerContext me st clock = Ok ctx -> c_identity ctx = me /\ c_state ctx = st.
Proof.
  unfold loadPeerContext. intros E. inv_ok. destruct (find_token _ _) as [local|]; [|done]. inv_ok.
  destruct (find_token _ _) as [host|]; [|done]. by injection E as <-.
Qed.

(** A transport of a listing that its owner has not closed unless [quit]. *)
Definition listed (quit : bool) (w : TunnelWorld) : Prop :=
  exists instance_id t0 events, w = run_of (listing_options instance_id) me st true t0 events /\ (quit = false -> EvClose ∉ events).

Lemma listed_step quit e w : listed quit w -> e <> EvClose \/ quit = true -> listed quit (step e w).
Proof.
  intros (i & t0 & events & -> & Hq) He. exists i, t0, (events ++ [e]). split.
  - by rewrite run_of_snoc.
  - intros Hf. destruct He as [He|He]; [|congruence]. specialize (Hq Hf). set_solver.
Qed.

Lemma listed_quit quit w : listed quit w -> listed true w.
Proof. intros (i & t0 & events & -> & _). by exists i, t0, events. Qed.

(** A turn that closes the transport reports the failure. *)
Lemma listed_closes e w :
  listed false w -> e <> EvClose -> closed (this w) = false -> closed (this (step e w)) = true ->
  exists error, Calls (CbFailure error) ∈ drop (length (trace w)) (trace (step e w)).
Proof.
  intros Hl He Hc Hc'. pose proof (listed_step false e w Hl (or_introl He)) as (i & t0 & events & Ew & Hq).
  pose proof (ends_in_failure (listing_options i) me st true t0 events (Hq eq_refl)) as Ho. rewrite <- Ew in Ho. specialize (Ho Hc').
  destruct Hl as (i' & t0' & events' & -> & _). set (w0 := run_of _ _ _ _ _ events') in *.
  destruct (tunnel_ordered (listing_options i') me st true t0' events') as (p & Hp & Hlive). fold w0 in Hp, Hlive.
  specialize (Hlive Hc). destruct (step_trace e w0) as [new Et]. rewrite Et, drop_app_length.
  rewrite Et, tunnel_reports_app, observe_all_app, Hp in Ho. cbn in Ho.
  destruct (observed_failure _ _ Ho) as [error Herr]; [by rewrite Hlive; destruct (authenticated _)|].
  exists error. by apply report_failure.
Qed.

(** ** The listing while it hears what a turn reported *)

(** Sessions that a control message of the transport holds. *)
Definition told (w : TunnelWorld) (sessions : list Json) : Prop :=
  exists p, ConfigMessage DirectRecordKind.CatalogResponse p ∈ trace w /\ read_catalog p = Ok (Some sessions).

(** [pending]: the effects that it has not heard yet. *)
Record hearing (l : Lister) (pending : list TunnelEffect) : Prop := mkHearing {
  h_tunnel : exists w, tunnel l = Some w /\ listed (resolved l) w /\
    (resolved l = true -> closed (this w) = true) /\
    (closed (this w) = true -> resolved l = false -> exists e, Calls (CbFailure e) ∈ pending) /\
    (forall sessions, Done sessions ∈ settlements l -> told w sessions) /\
    (forall e, e ∈ pending -> e ∈ trace w);
  h_open : resolved l = false -> settlements l = [];
  h_settled : resolved l = true -> exists o, settlements l = [o];
}.

Lemma catalog_told_step e w sessions : told w sessions -> told (step e w) sessions.
Proof. intros (p & Hp & Hr). exists p. split; [|done]. destruct (step_trace e w) as [new ->]. set_solver. Qed.

Lemma listed_closed quit e w : listed quit w -> closed (this w) = true -> closed (this (step e w)) = true.
Proof. intros (i & t0 & events & -> & _). apply run_of_closed. Qed.

(** A turn that is not a call of [close]: what it reports is to be heard. *)
Lemma hearing_turn e l pending :
  e <> EvClose -> hearing l pending -> hearing (turn e l) (news l (turn e l) ++ pending).
Proof.
  intros He [(w & Ew & Hl & Hrc & Hcf & Ht & Hp) Ho Hs].
  assert (En : news l (turn e l) = drop (length (trace w)) (trace (step e w))).
  { unfold news, effects_of, turn. cbn. by rewrite Ew. }
  destruct (step_trace e w) as [new Et]. split; [|done..]. exists (step e w). split_and!.
  - cbn. by rewrite Ew.
  - apply listed_step; [done|by left].
  - intros Hr. eapply listed_closed; [done|by apply Hrc].
  - cbn. intros Hc Hr. rewrite En. destruct (closed (this w)) eqn:Hcw.
    + destruct (Hcf eq_refl Hr) as [error Herr]. exists error. set_solver.
    + rewrite Hr in Hl. destruct (listed_closes e w Hl He Hcw Hc) as [error Herr]. exists error. set_solver.
  - intros sessions Hd. by apply catalog_told_step, Ht.
  - intros x. rewrite En, Et, drop_app_length, elem_of_app. intros [Hx|Hx%Hp]; set_solver.
Qed.

(** The listing settles, unless it has. *)
Lemma hearing_finish o l pending :
  hearing l pending -> (forall w sessions, tunnel l = Some w -> o = Done sessions -> told w sessions) ->
  hearing (finish_listing o l) pending /\ resolved (finish_listing o l) = true.
Proof.
  intros Hl Hd. unfold finish_listing. destruct (resolved l) eqn:Hr; [by split|]. split; [|done].
  destruct Hl as [(w & Ew & Hl & Hrc & Hcf & Ht & Hp) Ho Hs]. specialize (Ho Hr). split.
  - exists (step EvClose w). cbn. rewrite Ew, Ho. cbn. split_and!; try done.
    + apply listed_step; [by eapply listed_quit|by right].
    + intros _. apply close_closes.
    + intros sessions. rewrite list_elem_of_singleton. intros <-. by eapply catalog_told_step, Hd.
    + intros e He. destruct (step_trace EvClose w) as [new ->]. specialize (Hp e He). set_solver.
  - done.
  - intros _. exists o. cbn. by rewrite Ho.
Qed.

Lemma hearing_skip q l pending :
  hearing l (q ++ pending) -> (resolved l = false -> forall e, Calls (CbFailure e) ∉ q) -> hearing l pending.
Proof.
  intros [(w & Ew & Hl & Hrc & Hcf & Ht & Hp) Ho Hs] Hq. split; [|done..]. exists w. split_and!; try done.
  - intros Hc Hr. destruct (Hcf Hc Hr) as [e He%elem_of_app]. destruct He as [He|He]; [by destruct (Hq Hr e)|by exists e].
  - set_solver.
Qed.

Lemma hearing_fails error l pending :
  hearing l (Calls (CbFailure error) :: pending) -> hearing (finish_listing (Raise error) l) pending.
Proof.
  intros Hl. destruct (hearing_finish (Raise error) _ _ Hl) as [Hl' Hr]; [done|].
  apply (hearing_skip [Calls (CbFailure error)]); [exact Hl'|congruence].
Qed.

Lemma hearing_failures effects l pending :
  hearing l (effects ++ pending) -> hearing (hear_each hear_failure effects l) pending.
Proof.
  revert l. induction effects as [|e effects IH]; intros l Hl; [exact Hl|]. cbn. apply IH.
  assert (Hskip : (forall error, e <> Calls (CbFailure error)) -> hearing l (effects ++ pending)).
  { intros He. apply (hearing_skip [e]); [exact Hl|]. intros _ error. rewrite list_elem_of_singleton. intros E. by destruct (He error). }
  destruct e as [| | | | | | | | | | |[]|]; cbn [hear_failure]; try (by apply Hskip). by apply hearing_fails.
Qed.

Lemma hearing_threw error l pending : hearing l pending -> hearing (callback_threw error l) pending.
Proof. intros Hl. unfold callback_threw. apply hearing_failures. by apply hearing_turn. Qed.

(** The request is nothing that the listing hears of. *)
Lemma request_quiet w : forall e, Calls (CbFailure e) ∉ drop (length (trace w)) (trace (step EvRequestCatalog w)).
Proof.
  intros e. destruct (step_trace EvRequestCatalog w) as [new Et]. rewrite Et, drop_app_length.
  pose proof (echo_requestCatalog w) as He. injection He as _ He.
  change (trace (fst (requestCatalog w))) with (trace (step EvRequestCatalog w)) in He. rewrite Et in He. unfold heard in He.
  rewrite filter_app in He. apply (f_equal length) in He. rewrite length_app in He.
  assert (Hnil : filter (fun x => loud x = true) new = []) by (apply nil_length_inv; lia).
  intros Hin. apply (not_elem_of_nil (Calls (CbFailure e))). rewrite <- Hnil. by apply list_elem_of_filter.
Qed.

Lemma hearing_authenticated l pending : hearing l pending -> hearing (onAuthenticated l) pending.
Proof.
  intros Hl. assert (He := h_tunnel _ _ Hl). destruct He as (w & Ew & _). unfold onAuthenticated. rewrite Ew.
  assert (Hl' : hearing (turn EvRequestCatalog l) pending).
  { apply (hearing_skip (news l (turn EvRequestCatalog l))); [by apply hearing_turn|]. intros _ e.
    unfold news, effects_of, turn. cbn. rewrite Ew. apply request_quiet. }
  destruct (snd (requestCatalog w)); [exact Hl'|by apply hearing_threw].
Qed.

Lemma hearing_config kind p l pending :
  hearing l (ConfigMessage kind p :: pending) -> hearing (onConfigMessage kind p l) pending.
Proof.
  intros Hl. assert (Hin : forall w, tunnel l = Some w -> ConfigMessage kind p ∈ trace w).
  { intros w Ew. destruct (h_tunnel _ _ Hl) as (w' & Ew' & _ & _ & _ & _ & Hp). assert (w' = w) as -> by congruence.
    apply Hp. by left. }
  assert (Hl' : hearing l pending).
  { apply (hearing_skip [ConfigMessage kind p]); [exact Hl|]. intros _ e. by rewrite list_elem_of_singleton. }
  unfold onConfigMessage. destruct (kind =? _) eqn:Ek; cbn [negb]; [|by apply hearing_finish].
  apply Z.eqb_eq in Ek as ->. destruct (read_catalog p) as [[sessions|]|error] eqn:Er.
  - apply hearing_finish; [done|]. intros w s' Ew [= <-]. exists p. split; [by apply Hin|done].
  - by apply hearing_finish.
  - by apply hearing_threw.
Qed.

Lemma hearing_hear e l pending : hearing l (e :: pending) -> hearing (hear e l) pending.
Proof.
  intros Hl. assert (Hskip : (forall error, e <> Calls (CbFailure error)) -> hearing l pending).
  { intros He. apply (hearing_skip [e]); [exact Hl|]. intros _ error. rewrite list_elem_of_singleton. intros E. by destruct (He error). }
  destruct e as [| | | | | | | | | | |[]|]; cbn [hear]; try (by apply Hskip).
  - by apply hearing_authenticated, Hskip.
  - by apply hearing_fails.
  - by apply hearing_config.
Qed.

Lemma hearing_each effects l : hearing l effects -> hearing (hear_each hear effects l) [].
Proof.
  revert l. induction effects as [|e effects IH]; intros l Hl; [exact Hl|]. cbn. by apply IH, hearing_hear.
Qed.

Lemma hearing_each_turn e l : e <> EvClose -> hearing l [] -> hearing (hear_each hear (news l (turn e l)) (turn e l)) [].
Proof. intros He Hl. apply hearing_each. rewrite <- (app_nil_r (news _ _)). by apply hearing_turn. Qed.

(** *** What hearing leaves alone *)

Record sticky (l l' : Lister) : Prop := mkSticky {
  s_loading : loading l' = loading l;
  s_deadline : deadline l' = deadline l;
  s_resolved : resolved l = true -> resolved l' = true;
  s_settlements : settlements l `prefix_of` settlements l';
}.

Lemma sticky_refl l : sticky l l.
Proof. by split. Qed.

Lemma sticky_trans l1 l2 l3 : sticky l1 l2 -> sticky l2 l3 -> sticky l1 l3.
Proof. intros [] []. split; [congruence..|auto|by etrans]. Qed.

Lemma sticky_turn e l : sticky l (turn e l).
Proof. by split. Qed.

Lemma sticky_finish o l : sticky l (finish_listing o l).
Proof. unfold finish_listing. destruct (resolved l) eqn:Hr; [apply sticky_refl|]. split; cbn; try done. by apply prefix_app_r. Qed.

Lemma sticky_each f effects l : (forall e l, sticky l (f e l)) -> sticky l (hear_each f effects l).
Proof.
  intros Hf. revert l. induction effects as [|e effects IH]; intros l; [apply sticky_refl|].
  eapply sticky_trans; [apply (Hf e)|apply IH].
Qed.

Lemma sticky_threw error l : sticky l (callback_threw error l).
Proof.
  unfold callback_threw. eapply sticky_trans; [apply sticky_turn|apply sticky_each]. intros e l'.
  destruct e as [| | | | | | | | | | |[]|]; cbn [hear_failure]; try apply sticky_refl. apply sticky_finish.
Qed.

Lemma sticky_hear e l : sticky l (hear e l).
Proof.
  destruct e as [| | | | | | | | | | |[]|kind p]; cbn [hear]; try apply sticky_refl.
  - unfold onAuthenticated. destruct (tunnel l); [|apply sticky_refl].
    destruct (snd _); [apply sticky_turn|]. eapply sticky_trans; [apply sticky_turn|apply sticky_threw].
  - apply sticky_finish.
  - unfold onConfigMessage. destruct (negb _); [apply sticky_finish|].
    destruct (read_catalog p) as [[]|]; [apply sticky_finish..|apply sticky_threw].
Qed.

Lemma sticky_event e l : sticky l (hear_each hear (news l (turn e l)) (turn e l)).
Proof. eapply sticky_trans; [apply sticky_turn|apply sticky_each, sticky_hear]. Qed.

(** *** The invariant *)

Inductive linv (l : Lister) : Prop :=
  | linv_loading : l = new_lister -> linv l
  | linv_refused error : l = mkLister None false false false [Raise error] -> linv l
  | linv_open : loading l = false -> hearing l [] -> (resolved l = false -> deadline l = true) -> linv l.

Lemma begin_linv random t l : l = mkLister None false false false [] -> linv (begin_listing me st random t l).
Proof.
  intros ->. destruct random as [instance_id|error]; [|by apply (linv_refused _ error)].
  pose (l1 := mkLister (Some (init (new_tunnel (listing_options instance_id) me st true) t)) false false false []).
  pose (l2 := turn EvStart l1). change (linv ((hear_each hear (news l1 l2) l2) <| deadline := true |>)).
  assert (Hl1 : hearing l1 []).
  { split; cbn; try done. exists (init (new_tunnel (listing_options instance_id) me st true) t).
    split_and!; try done; [|by intros ? ?%elem_of_nil..]. exists instance_id, t, []. split; [done|]. intros _. by apply not_elem_of_nil. }
  assert (Hl : hearing (hear_each hear (news l1 l2) l2) []) by (by apply hearing_each_turn).
  assert (Hf := s_loading _ _ (sticky_event EvStart l1)). fold l2 in Hf. apply linv_open; [exact Hf| |done].
  destruct Hl as [Hw Ho Hs]. by split.
Qed.

Lemma list_step_linv e l : linv l -> linv (list_step me st e l).
Proof.
  intros [-> |error -> |Hlo Hl Hd].
  - destruct e as [clock random t|e|]; cbn [list_step new_lister loading].
    + destruct (loadPeerContext me st clock) as [ctx|error] eqn:Hc; [|by eapply linv_refused].
      destruct (loadPeerContext_given _ _ Hc) as [-> ->]. by apply begin_linv.
    + destruct (from_outside e); by apply linv_loading.
    + by apply linv_loading.
  - destruct e as [clock random t|e|]; cbn [list_step loading deadline]; [|destruct (from_outside e)|]; by apply (linv_refused _ error).
  - destruct e as [clock random t|e|]; cbn [list_step].
    + rewrite Hlo. by apply linv_open.
    + destruct (from_outside e) eqn:Ee; [|by apply linv_open]. assert (He : e <> EvClose) by by intros ->.
      destruct (sticky_event e l) as [Hs1 Hs2 Hs3 _]. apply linv_open; [by rewrite Hs1|by apply hearing_each_turn|].
      intros Hr. rewrite Hs2. apply Hd. destruct (resolved l); [|done]. by rewrite Hs3 in Hr.
    + destruct (deadline l) eqn:Ed; [|by apply linv_open; [..|rewrite Ed]]. set (l0 := l <| deadline := false |>).
      assert (Hl0 : hearing l0 []) by (exact (mkHearing l0 [] (h_tunnel _ _ Hl) (h_open _ _ Hl) (h_settled _ _ Hl))).
      destruct (hearing_finish (Raise (js "peer catalog: timeout")) l0 [] Hl0) as [Hl' Hr]; [done|].
      apply linv_open; [|done|congruence]. by rewrite (s_loading _ _ (sticky_finish _ l0)).
Qed.

Lemma listing_inv events : linv (listQuickTunnelPeerSessions me st events).
Proof.
  unfold listQuickTunnelPeerSessions. induction events as [|e events IH] using rev_ind; [by apply linv_loading|].
  rewrite fold_left_app. by apply list_step_linv.
Qed.

(** A settlement is kept: there is no second one. *)
Lemma linv_settlements l : linv l -> settlements l = [] \/ exists o, settlements l = [o].
Proof.
  intros [-> |error -> |Hlo Hl Hd]; [by left|right; by eexists|].
  destruct (resolved l) eqn:Hr; [right; exact (h_settled _ _ Hl Hr)|left; exact (h_open _ _ Hl Hr)].
Qed.

Lemma list_step_settlements e l : linv l -> settlements l `prefix_of` settlements (list_step me st e l).
Proof.
  intros Hl. destruct e as [clock random t|e|]; cbn [list_step].
  - destruct (loading l) eqn:Hlo; [|done]. assert (En : settlements l = []); [|rewrite En; apply prefix_nil].
    destruct Hl as [-> |error -> |Hlo' _ _]; [done..|congruence].
  - destruct (from_outside e); [|done]. apply sticky_event.
  - destruct (deadline l); [|done]. by destruct (sticky_finish (Raise (js "peer catalog: timeout")) (l <| deadline := false |>)) as [_ _ _ Hs].
Qed.

(** C32. The listing settles once. While it loads nothing has happened; once it
    has settled, its transport, if it made one, is closed, and the settlement
    stays the only one whatever happens; until then the transport is open and
    the deadline pending, and the deadline settles it. *)
Theorem catalog_settles_once (events later : list ListEvent) :
  let l := listQuickTunnelPeerSessions me st events in
  (loading l = true /\ settlements l = [] /\ tunnel l = None) \/
  (loading l = false /\ settlements l = [] /\ deadline l = true /\
   (exists w, tunnel l = Some w /\ closed (this w) = false) /\
   settlements (listQuickTunnelPeerSessions me st (events ++ [LsDeadline])) = [Raise (js "peer catalog: timeout")]) \/
  (exists o, settlements l = [o] /\ (forall w, tunnel l = Some w -> closed (this w) = true) /\
   settlements (listQuickTunnelPeerSessions me st (events ++ later)) = [o]).
Proof.
  cbv zeta. assert (Hmono : settlements (listQuickTunnelPeerSessions me st events)
    `prefix_of` settlements (listQuickTunnelPeerSessions me st (events ++ later))).
  { induction later as [|e later IH] using rev_ind; [by rewrite app_nil_r|]. etrans; [exact IH|]. rewrite app_assoc.
    unfold listQuickTunnelPeerSessions at 2. rewrite fold_left_app. apply list_step_settlements, listing_inv. }
  assert (Hlater : forall o, settlements (listQuickTunnelPeerSessions me st events) = [o] ->
    settlements (listQuickTunnelPeerSessions me st (events ++ later)) = [o]).
  { intros o Eo. rewrite Eo in Hmono. destruct Hmono as [rest Er].
    destruct (linv_settlements _ (listing_inv (events ++ later))) as [E|[o' E]]; rewrite E in Er; [done|]. rewrite E. by destruct rest. }
  clear Hmono. pose proof (listing_inv events) as Hl. destruct Hl as [El|error El|Hlo Hl Hd].
  - left. by rewrite El.
  - right. right. exists (Raise error). split_and!; [by rewrite El|by rewrite El|apply Hlater; by rewrite El].
  - right. assert (Ht := h_tunnel _ _ Hl). destruct Ht as (w & Ew & _ & Hrc & Hcf & _). destruct (resolved (listQuickTunnelPeerSessions me st events)) eqn:Hr.
    + right. destruct (h_settled _ _ Hl Hr) as [o Eo]. exists o. split_and!; [done| |by apply Hlater].
      intros w' Ew'. assert (w' = w) as -> by congruence. by apply Hrc.
    + left. split_and!; [done|exact (h_open _ _ Hl Hr)|by apply Hd| |].
      * exists w. split; [done|]. destruct (closed (this w)); [|done]. destruct (Hcf eq_refl eq_refl) as [e He]. by apply elem_of_nil in He.
      * unfold listQuickTunnelPeerSessions. rewrite fold_left_app. fold (listQuickTunnelPeerSessions me st events).
        cbn. rewrite (Hd eq_refl). unfold finish_listing. cbn. rewrite Hr. cbn. by rewrite (h_open _ _ Hl Hr).
Qed.

(** Control messages come after the authentication. *)
Lemma observed_over l p f : observe_all Over l = Some p -> CbFrame f ∉ l.
Proof.
  induction l as [|cb l IH]; [intros _; apply not_elem_of_nil|]. intros Ho.
  destruct cb; try discriminate Ho. intros Hin. apply elem_of_cons in Hin as [?|?]; [done|]. by apply IH.
Qed.

Lemma observed_live l p f : observe_all Attempting l = Some p -> CbFrame f ∈ l -> CbAuthenticated ∈ l.
Proof.
  induction l as [|cb l IH]; [by intros _ ?%elem_of_nil|]. intros Ho Hin.
  destruct cb; try discriminate Ho; [by left| |]; apply elem_of_cons in Hin as [?|Hin]; try done.
  - right. by apply IH.
  - by destruct (observed_over l p f Ho).
Qed.

Lemma config_spoken w kind p phase :
  observe_all Attempting (reports (trace w)) = Some phase -> ConfigMessage kind p ∈ trace w -> spoken (trace w) = true.
Proof.
  intros Ho Hin. assert (Hf : CbFrame p ∈ reports (trace w)) by (apply list_elem_of_omap; by exists (ConfigMessage kind p)).
  apply (observed_live _ _ _ Ho), list_elem_of_omap in Hf as (e & He & Ee). unfold spoken. apply existsb_exists.
  exists e. split; [by apply list_elem_of_In|]. destruct e as [| | | | | | | | | | |[]|]; by try discriminate Ee.
Qed.

(** C33. The sessions that a listing gives are those of a catalog response that
    came over its transport, which had authenticated before: the documents of
    the stored state hold, the authorization is for the control session within
    both memberships, and the host has signed for keys of the session with its
    membership. *)
Theorem catalog_from_member (events : list ListEvent) (sessions : list Json)
    (Hsettled : Done sessions ∈ settlements (listQuickTunnelPeerSessions me st events)) :
  exists w p instance_id ctx auth k clock now,
    tunnel (listQuickTunnelPeerSessions me st events) = Some w /\
    ConfigMessage DirectRecordKind.CatalogResponse p ∈ trace w /\ read_catalog p = Ok (Some sessions) /\
    loadPeerContext me st clock = Ok ctx /\ authorized (listing_options instance_id) ctx auth now /\ member_session me ctx auth k.
Proof.
  destruct (listing_inv events) as [El|error El|_ Hl _]; [rewrite El in Hsettled; by apply elem_of_nil in Hsettled|..].
  { rewrite El in Hsettled. cbn in Hsettled. by apply list_elem_of_singleton in Hsettled. }
  destruct (h_tunnel _ _ Hl) as (w & Ew & Hr & _ & _ & Ht & _). destruct (Ht sessions Hsettled) as (p & Hp & Hread).
  destruct Hr as (i & t0 & es & -> & _). destruct (tunnel_ordered (listing_options i) me st true t0 es) as (phase & Hph & _).
  destruct (spoken_facts (listing_options i) me st true t0 es (config_spoken _ _ _ _ Hph Hp)) as (ctx & auth & k & clock & now & ? & ? & ?).
  by exists (run_of (listing_options i) me st true t0 es), p, i, ctx, auth, k, clock, now.
Qed.
End Catalog.

(** ** A listing that succeeds *)

Module CatalogToy.
Definition authorization : DirectAuthorization :=
  mkAuthorization Tunnel.attempt (zeros 32) CONTROL_SESSION_ID (Space.uuid "0") (Space.peer 1) (js "list-1") 2 500000.

Definition host_hello : bytes := Eval vm_compute in Tunnel.host_hello_for authorization.

Definition keyed : list ListEvent :=
  LsLoaded (fun _ => 400000) (Done (js "list-1")) 400000
    :: map LsTransport (Tunnel.handshake_events host_hello).

Definition listed_session : Json := JObj [(js "id", JStr (js "s1"))].
Definition response : bytes := utf8_encode (JSON_stringify (JObj [(js "v", jint 1); (js "sessions", JArr [listed_session])])).

(** The two records that the host then sends. *)
Definition keyed_lister : Lister := listQuickTunnelPeerSessions JoinedToy.self JoinedToy.state keyed.
Definition keyed_world : option TunnelWorld := tunnel keyed_lister.

Definition host_records (w : TunnelWorld) : list bytes :=
  let '(c, ready) := seal DirectRecordKind.Signal (signalPayload S_wss_ready []) (Tunnel.host_codec w) in
  let '(_, catalog) := seal DirectRecordKind.CatalogResponse response c in
  match ready, catalog with Ok r1, Ok r2 => [r1; r2] | _, _ => [] end.

Definition records_in (world : option TunnelWorld) : list bytes := match world with Some w => host_records w | None => [] end.
Definition records : list bytes := Eval vm_compute in records_in keyed_world.

Definition events : list ListEvent :=
  keyed ++ map LsTransport (concat (map (fun r => Tunnel.receive (Binary r)) records)).
End CatalogToy.

Lemma catalog_from_member_witness :
  settlements (listQuickTunnelPeerSessions JoinedToy.self JoinedToy.state CatalogToy.events) = [Done [CatalogToy.listed_session]] /\
  exists instance_id ctx auth k now, authorized (listing_options instance_id) ctx auth now /\ member_session JoinedToy.self ctx auth k.
Proof.
  assert (Hs : settlements (listQuickTunnelPeerSessions JoinedToy.self JoinedToy.state CatalogToy.events)
    = [Done [CatalogToy.listed_session]]) by (vm_compute; reflexivity).
  split; [exact Hs|].
  destruct (catalog_from_member JoinedToy.self JoinedToy.state CatalogToy.events [CatalogToy.listed_session])
    as (w & p & i & ctx & auth & k & clock & now & _ & _ & _ & _ & Haz & Hk).
  - rewrite Hs. left.
  - exists i, ctx, auth, k, now. exact (conj Haz Hk).
Defined.
