(* ===== verification/AsyncTasks.v ===== *)
(** * Calls that overlap

    An [async] function as a program that runs in turns: what it does to the
    state it shares with other calls, and where it gives way to them ([await]).
    A reading of the state and an answer of the environment belong to the turn
    they are made in. With the scheduler that runs calls in any order, and
    rules for what every turn keeps, whoever runs in between. *)

From S2P Require Import Prelude Bytes JsString EventLoop.

Section Async.
Context {S E : Type}.

(** [Do f k]: change the state by [f], and go on as [k] says of the state
    before; [Yield k]: the end of the turn; [Fork orphan k]: something goes on
    that nobody awaits. *)
Inductive Async (A : Type) : Type :=
  | Settled (o : outcome A)
  | Do (f : S -> E -> S) (k : S -> E -> Async A)
  | Yield (k : Async A)
  | Fork (orphan : Async unit) (k : Async A).
Arguments Settled {A} o.
Arguments Do {A} f k.
Arguments Yield {A} k.
Arguments Fork {A} orphan k.

(** The continuation hears of a rejection too. *)
Fixpoint afterwards {A B} (p : Async A) (k : outcome A -> Async B) : Async B :=
  match p with
  | Settled o => k o
  | Do f c => Do f (fun s e => afterwards (c s e) k)
  | Yield c => Yield (afterwards c k)
  | Fork orphan c => Fork orphan (afterwards c k)
  end.

Definition async_ret {A} (a : A) : Async A := Settled (Done a).
Definition async_throw {A} (error : jsstr) : Async A := Settled (Raise error).
Definition async_bind {A B} (p : Async A) (k : A -> Async B) : Async B :=
  afterwards p (fun o => match o with Done a => k a | Raise e => Settled (Raise e) end).

Definition reads {A} (f : S -> A) : Async A := Do (fun s _ => s) (fun s _ => Settled (Done (f s))).
Definition writes (f : S -> S) : Async unit := Do (fun s _ => f s) (fun _ _ => Settled (Done tt)).

(** [await p]: the caller goes on in a later turn. *)
Definition await {A} (p : Async A) : Async A := afterwards p (fun o => Yield (Settled o)).

(** What the environment answers, some turns later. *)
Definition external {A} (f : E -> outcome A) : Async A := Yield (Do (fun s _ => s) (fun _ e => Settled (f e))).

(** [Promise.all([p, q])], both called: the environment says which of them goes
    on ([first_goes e]). The first rejection rejects, and the other goes on
    alone. *)
Definition ignored {A} (p : Async A) : Async unit := afterwards p (fun _ => Settled (Done tt)).

Fixpoint both (first_goes : E -> bool) {A B} (p : Async A) : Async B -> Async (A * B) :=
  fix both_q (q : Async B) : Async (A * B) :=
    let left_goes :=
      match p with
      | Do f c => Do f (fun s e => both first_goes (c s e) q)
      | Yield c => Yield (both first_goes c q)
      | Fork orphan c => Fork orphan (both first_goes c q)
      | Settled _ => async_throw []
      end in
    let right_goes :=
      match q with
      | Do f c => Do f (fun s e => both_q (c s e))
      | Yield c => Yield (both_q c)
      | Fork orphan c => Fork orphan (both_q c)
      | Settled _ => async_throw []
      end in
    match p, q with
    | Settled (Done a), _ => async_bind q (fun b => async_ret (a, b))
    | _, Settled (Done b) => async_bind p (fun a => async_ret (a, b))
    | Settled (Raise e), _ => Fork (ignored q) (Settled (Raise e))
    | _, Settled (Raise e) => Fork (ignored p) (Settled (Raise e))
    | _, _ => Do (fun s _ => s) (fun _ e => if first_goes e then left_goes else right_goes)
    end.

(** ** The scheduler *)

(** The part of a program that runs in this turn: the state after it, the rest,
    and what it has forked. *)
Fixpoint run_turn {A : Type} (p : Async A) (e : E) (s : S) : S * Async A * list (Async unit) :=
  match p with
  | Settled o => (s, Settled o, [])
  | Yield c => (s, c, [])
  | Do f c => run_turn (c s e) e (f s e)
  | Fork orphan c =>
      let '(s', c', orphans) := run_turn c e s in
      (s', c', orphan :: orphans)
  end.

(** The calls made, each with the rest of its program, and what goes on
    unawaited. *)
Record Tasks (R : Type) := mkTasks { shared : S; called : list (Async R); orphaned : list (Async unit) }.
Arguments mkTasks {R}.
Arguments shared {R}.
Arguments called {R}.
Arguments orphaned {R}.

Inductive TaskEvent (R : Type) :=
  | EvCall (p : Async R) (e : E)
  | EvGoesOn (i : nat) (e : E)
  | EvOrphan (i : nat) (e : E).
Arguments EvCall {R}.
Arguments EvGoesOn {R}.
Arguments EvOrphan {R}.

Definition task_step {R} (ev : TaskEvent R) (w : Tasks R) : Tasks R :=
  match ev with
  | EvCall p e =>
      let '(s, p', orphans) := run_turn p e (shared w) in
      mkTasks s (called w ++ [p']) (orphaned w ++ orphans)
  | EvGoesOn i e =>
      match called w !! i with
      | Some p =>
          let '(s, p', orphans) := run_turn p e (shared w) in
          mkTasks s (<[i := p']> (called w)) (orphaned w ++ orphans)
      | None => w
      end
  | EvOrphan i e =>
      match orphaned w !! i with
      | Some p =>
          let '(s, p', orphans) := run_turn p e (shared w) in
          mkTasks s (called w) (<[i := p']> (orphaned w) ++ orphans)
      | None => w
      end
  end.

Definition run_tasks {R} (events : list (TaskEvent R)) (s : S) : Tasks R :=
  fold_left (fun w ev => task_step ev w) events (mkTasks s [] []).

(** How a call has settled. *)
Definition settlement_of {R} (i : nat) (w : Tasks R) : option (outcome R) :=
  match called w !! i with Some (Settled o) => Some o | _ => None end.

(** ** What every turn keeps

    [secure Q p]: whoever runs between the turns of [p], as long as they keep
    [I], every turn of [p] keeps it, and [p] settles as [Q] says. *)

Section Secure.
Context (I : S -> Prop).

Fixpoint secure {A : Type} (Q : outcome A -> Prop) (p : Async A) : Prop :=
  match p with
  | Settled o => Q o
  | Do f c => forall s e, I s -> I (f s e) /\ secure Q (c s e)
  | Yield c => secure Q c
  | Fork orphan c => secure (fun _ => True) orphan /\ secure Q c
  end.

(** [Q] of a value, whatever the errors. *)
Definition gives {A} (Q : A -> Prop) (o : outcome A) : Prop := match o with Done a => Q a | Raise _ => True end.

Lemma secure_mono {A} (Q Q' : outcome A -> Prop) p : (forall o, Q o -> Q' o) -> secure Q p -> secure Q' p.
Proof.
  revert Q Q'. induction p as [A o|A f c IH|A c IH|A orphan _ c IH]; intros Q Q' HQ; cbn; [apply HQ| |by apply IH|].
  - intros Hp s e Hs. destruct (Hp s e Hs) as [? ?]. split; [done|]. by apply (IH s e Q).
  - intros [? ?]. split; [done|]. by apply (IH Q).
Qed.

Lemma secure_afterwards {A B} Q R (p : Async A) (k : outcome A -> Async B) :
  secure Q p -> (forall o, Q o -> secure R (k o)) -> secure R (afterwards p k).
Proof.
  revert Q k. induction p as [A o|A f c IH|A c IH|A orphan _ c IH]; intros Q k Hp Hk; cbn in *; [by apply Hk| |by apply (IH Q)|].
  - intros s e Hs. destruct (Hp s e Hs) as [? ?]. split; [done|]. by apply (IH s e Q).
  - destruct Hp as [? ?]. split; [done|]. by apply (IH Q).
Qed.

Lemma secure_bind {A B} (Q : A -> Prop) (R : B -> Prop) (p : Async A) (k : A -> Async B) :
  secure (gives Q) p -> (forall a, Q a -> secure (gives R) (k a)) -> secure (gives R) (async_bind p k).
Proof. intros Hp Hk. eapply secure_afterwards; [exact Hp|]. intros [a|e] Ho; [by apply Hk|done]. Qed.

Lemma secure_await {A} (Q : outcome A -> Prop) (p : Async A) : secure Q p -> secure Q (await p).
Proof. intros Hp. eapply secure_afterwards; [exact Hp|]. by intros o. Qed.

Lemma secure_ignored {A} Q (p : Async A) : secure Q p -> secure (fun _ => True) (ignored p).
Proof. intros Hp. eapply secure_afterwards; [exact Hp|]. by intros o. Qed.

Lemma secure_reads {A} (f : S -> A) (Q : A -> Prop) : (forall s, I s -> Q (f s)) -> secure (gives Q) (reads f).
Proof. intros Hf s _ Hs. split; [done|]. by apply Hf. Qed.

Lemma secure_writes f : (forall s, I s -> I (f s)) -> secure (gives (fun _ => True)) (writes f).
Proof. intros Hf s _ Hs. split; [by apply Hf|done]. Qed.

Lemma secure_external {A} (f : E -> outcome A) (Q : A -> Prop) : (forall e a, f e = Done a -> Q a) -> secure (gives Q) (external f).
Proof. intros Hf s e Hs. split; [done|]. cbn. destruct (f e) eqn:Ef; [by eapply Hf|done]. Qed.

Lemma secure_both first_goes {A B} (P : A -> Prop) (Q : B -> Prop) (p : Async A) (q : Async B) :
  secure (gives P) p -> secure (gives Q) q -> secure (gives (fun x => P (fst x) /\ Q (snd x))) (both first_goes p q).
Proof.
  revert P Q q. induction p as [A o|A f c IH|A c IH|A orphan _ c IH]; intros P.
  { intros Q q Hp Hq. assert (Eb : both first_goes (Settled o) q = match o with
      | Done a => async_bind q (fun b => async_ret (a, b))
      | Raise e => match q with Settled (Done b) => Settled (Raise e) | _ => Fork (ignored q) (Settled (Raise e)) end end).
    { destruct o; by destruct q as [[]| | |]. }
    rewrite Eb. destruct o as [a|e]; [by eapply secure_bind|].
    destruct q as [[b|e']| | |]; [done|..]; (split; [by eapply secure_ignored|done]). }
  all: intros Q q Hp; revert Q; induction q as [B o|B f' c' IH'|B c' IH'|B orphan' _ c' IH']; intros Q Hq.
  all: try (destruct o as [b|e]; [by eapply (secure_bind P)|split; [by eapply secure_ignored|done]]).
  all: intros s e Hs; split; [done|]; destruct (first_goes e).
  all: try (intros s' e' Hs'; destruct (Hp s' e' Hs') as [? ?]; split; [done|by apply IH]).
  all: try (intros s' e' Hs'; destruct (Hq s' e' Hs') as [? ?]; split; [done|by apply IH']).
  all: try (by apply IH).
  all: try (by apply IH').
  all: try (destruct Hp; split; [done|by apply IH]).
  all: try (destruct Hq; split; [done|by apply IH']).
Qed.

(** *** The scheduler keeps it *)

Lemma run_turn_secure {A} Q (p : Async A) e s :
  secure Q p -> I s ->
  let '(s', p', orphans) := run_turn p e s in I s' /\ secure Q p' /\ Forall (secure (fun _ => True)) orphans.
Proof.
  revert Q s. induction p as [A o|A f c IH|A c IH|A orphan _ c IH]; intros Q s Hp Hs; cbn; [done| |done|].
  - destruct (Hp s e Hs) as [Hs' Hc]. by apply IH.
  - destruct Hp as [Ho Hc]. specialize (IH Q s Hc Hs). destruct (run_turn c e s) as [[s' c'] orphans].
    destruct IH as (? & ? & ?). split_and!; [done|done|by constructor].
Qed.

Definition tasks_secure {R} (Q : outcome R -> Prop) (w : Tasks R) : Prop :=
  I (shared w) /\ Forall (secure Q) (called w) /\ Forall (secure (fun _ => True)) (orphaned w).

Lemma task_step_secure {R} Q (ev : TaskEvent R) w :
  (forall p e, ev = EvCall p e -> secure Q p) -> tasks_secure Q w -> tasks_secure Q (task_step ev w).
Proof.
  intros Hev (Hs & Hc & Ho). destruct ev as [p e|i e|i e]; cbn.
  - pose proof (run_turn_secure Q p e (shared w) (Hev p e eq_refl) Hs) as Ht.
    destruct (run_turn p e (shared w)) as [[s' p'] orphans]. destruct Ht as (? & ? & ?). split_and!; [done|..]; apply Forall_app; by auto.
  - destruct (called w !! i) as [p|] eqn:Ei; [|done]. assert (Hp := Forall_lookup_1 _ _ _ _ Hc Ei).
    pose proof (run_turn_secure Q p e (shared w) Hp Hs) as Ht.
    destruct (run_turn p e (shared w)) as [[s' p'] orphans]. destruct Ht as (? & ? & ?).
    split_and!; [done|by apply Forall_insert|by apply Forall_app].
  - destruct (orphaned w !! i) as [p|] eqn:Ei; [|done]. assert (Hp := Forall_lookup_1 _ _ _ _ Ho Ei).
    pose proof (run_turn_secure (fun _ => True) p e (shared w) Hp Hs) as Ht.
    destruct (run_turn p e (shared w)) as [[s' p'] orphans]. destruct Ht as (? & ? & ?).
    split_and!; [done|done|]. apply Forall_app. split; [by apply Forall_insert|done].
Qed.

Lemma run_tasks_secure {R} Q (events : list (TaskEvent R)) s :
  (forall p e, EvCall p e ∈ events -> secure Q p) -> I s -> tasks_secure Q (run_tasks events s).
Proof.
  intros Hev Hs. unfold run_tasks. induction events as [|ev events IH] using rev_ind; [split_and!; [done|constructor..]|].
  rewrite fold_left_app. apply task_step_secure; [|apply IH; set_solver].
  intros p e ->. apply (Hev p e). set_solver.
Qed.
End Secure.

(** ** What a turn does, whatever ran before it

    [within Q s0 s p]: in a turn that began in [s0] and has come to [s], [p] goes
    on so that the turn leaves a state related to [s0] by [R], and so does
    every later turn, from whatever state it finds; where it settles, [Q]. *)

Section Within.
Context (R : S -> S -> Prop).

Fixpoint within {A : Type} (Q : S -> S -> outcome A -> Prop) (s0 s : S) (p : Async A) : Prop :=
  match p with
  | Settled o => Q s0 s o
  | Do f c => forall e, within Q s0 (f s e) (c s e)
  | Yield c => R s0 s /\ forall s', within Q s' s' c
  | Fork orphan c => (forall s', within (fun s0 s _ => R s0 s) s' s' orphan) /\ within Q s0 s c
  end.

Definition leaves {A} (s0 s : S) (o : outcome A) : Prop := R s0 s.

Lemma within_afterwards {A B} Q Q' (p : Async A) (k : outcome A -> Async B) s0 s :
  within Q s0 s p -> (forall s0 s o, Q s0 s o -> within Q' s0 s (k o)) -> within Q' s0 s (afterwards p k).
Proof.
  revert Q k s0 s. induction p as [A o|A f c IH|A c IH|A orphan _ c IH]; intros Q k s0 s Hp Hk; cbn in *.
  - by apply Hk.
  - intros e. by apply (IH s e Q).
  - destruct Hp as [Hr Hp]. split; [done|]. intros s'. by apply (IH Q).
  - destruct Hp as [Ho Hp]. split; [done|]. by apply (IH Q).
Qed.

(** The rests of a program, each left by a turn in some state. *)
Inductive residual {A} (p : Async A) : Async A -> Prop :=
  | residual_start : residual p p
  | residual_turn q e s : residual p q -> residual p (snd (fst (run_turn q e s))).

Context (R_refl : forall s, R s s).

Lemma run_turn_within {A} (p : Async A) e s0 s :
  within leaves s0 s p ->
  let '(s', p', orphans) := run_turn p e s in
  R s0 s' /\ (forall s'', within leaves s'' s'' p') /\ Forall (fun q => forall s'', within leaves s'' s'' q) orphans.
Proof.
  revert s. induction p as [A o|A f c IH|A c IH|A orphan _ c IH]; intros s Hp; cbn.
  - split_and!; [exact Hp|intros s''; apply R_refl|constructor].
  - by apply IH.
  - destruct Hp as [Hr Hp]. split_and!; [exact Hr|exact Hp|constructor].
  - destruct Hp as [Ho Hp]. specialize (IH s Hp). destruct (run_turn c e s) as [[s' c'] orphans].
    destruct IH as (? & ? & ?). split_and!; [done|done|by constructor].
Qed.

(** Every turn of [p] is related by [R]. *)
Lemma residual_within {A} (p q : Async A) e s :
  (forall s, within leaves s s p) -> residual p q -> R s (fst (fst (run_turn q e s))).
Proof.
  intros Hp Hq. assert (Hw : forall s, within leaves s s q).
  { induction Hq as [|q e' s' Hq IH]; [exact Hp|]. pose proof (run_turn_within q e' s' s' (IH s')) as Ht.
    destruct (run_turn q e' s') as [[s1 q'] orphans]. by destruct Ht as (_ & Ht & _). }
  pose proof (run_turn_within q e s s (Hw s)) as Ht. destruct (run_turn q e s) as [[s1 q'] orphans]. by destruct Ht.
Qed.
End Within.

(** ** A call that runs alone *)

Fixpoint alone {A : Type} (p : Async A) (e : E) (s : S) : S * outcome A :=
  match p with
  | Settled o => (s, o)
  | Do f c => alone (c s e) e (f s e)
  | Yield c => alone c e s
  | Fork _ c => alone c e s
  end.

Lemma alone_bind {A B} (p : Async A) (k : A -> Async B) e s :
  alone (async_bind p k) e s =
    match alone p e s with
    | (s', Done a) => alone (k a) e s'
    | (s', Raise error) => (s', Raise error)
    end.
Proof.
  unfold async_bind. revert s k. induction p as [A o|A f c IH|A c IH|A orphan _ c IH]; intros s k; cbn; [|apply IH..].
  by destruct o.
Qed.
End Async.

Arguments Async : clear implicits.
Arguments Settled {S E A} o.
Arguments Do {S E A} f k.
Arguments Yield {S E A} k.
Arguments Fork {S E A} orphan k.
Arguments Tasks : clear implicits.
Arguments shared {S E R} t.
Arguments called {S E R} t.
Arguments orphaned {S E R} t.
Arguments TaskEvent : clear implicits.
Arguments EvCall {S E R} p e.
Arguments EvGoesOn {S E R} i e.
Arguments EvOrphan {S E R} i e.

Notation "'let~' x := m 'in' k" := (async_bind m (fun x => k))
  (at level 10, x name, m at level 100, k at level 200) : js_scope.
