(* ===== verification/PeerBridge.v ===== *)
(** * The peer client's bridge (peer/clientBridge.ts)

    [createPeerClientBridge] gives the interface its peer operations over an
    identity and a state that it caches in two variables. Every operation is an
    [async] function, so that they overlap: each is a program of [AsyncTasks]
    over the variables and the store. [LazyPeerTransport] is the transport that
    it hands out before identity and state are known. *)

From S2P Require Import Prelude Bytes JsString JsMap Json DirectCrypto DirectFraming DirectHandshake.
From S2P Require Import EventLoop Transport NativeDirect PeerIdentity PeerDocuments PeerState PeerHandshake.
From S2P Require Import PeerFragments QuickTunnel AsyncTasks.

(** ** What the operations give *)

Record PeerConfigSyncStatus := mkSyncStatus {
  sync_configured : bool;
  local_operations : Z;
  pending_operations : Z;
  replica_devices : Z;
  active_remote_members : Z;
  acknowledging_peers : Z;
  pending_import_records : Z;
}.

Definition emptySyncStatus (configured : bool) : PeerConfigSyncStatus :=
  mkSyncStatus configured 0 0 (if configured then 1 else 0) 0 0 0.

Record PeerRendezvousConfig := mkRendezvousConfig {
  rv_mode : string; rv_url : string; rv_websocket_url : string; rv_health_url : string; rv_stun_mode : string;
  rv_stun_urls : list string; rv_turn_enabled : bool; rv_turn_urls : list string; rv_turn_username : string;
  rv_turn_credential_configured : bool;
}.

Definition disabledRendezvous : PeerRendezvousConfig :=
  mkRendezvousConfig "disabled" "" "" "" "default" ["stun:stun.cloudflare.com:3478"] false [] "" false.

Record PeerRendezvousStatus := mkRendezvousStatus { rs_mode : string; rs_state : string; reachable_peers : Z }.

Record PeerLANConfig := mkLANConfig {
  lan_only : bool; lan_enabled : bool; auto_discovery : bool; advertise_host : string; lan_port : Z;
  lan_routes : list string; lan_running : bool; discovery_running : bool;
}.

Record PeerRouteImportResult := mkImportResult {
  im_issuer_peer_id : jsstr; im_quick_tunnel : bool; im_manual_lan : bool; im_expires_at : Z;
}.

Record RouteStatus := mkRouteStatus { rt_direct : bool; rt_lan : bool; rt_quick_tunnel : bool }.

(** The fields that a row may lack are [None]. *)
Record RemoteSession := mkRemoteSession {
  rw_session_id : jsstr; rw_host_id : jsstr; rw_host : jsstr; rw_user : jsstr; rw_title : jsstr; rw_cwd : jsstr;
  rw_cols : Number; rw_rows : Number; rw_started_at : option Number; rw_remote_permission : jsstr;
  rw_task_state : option jsstr; rw_current_command : option jsstr; rw_command_started_at : option Number;
  rw_command_ended_at : option Number; rw_command_duration_ms : option Number; rw_command_exit_code : option Number;
  rw_last_output_at : option Number; rw_type : option jsstr; rw_attention_at : option Number;
}.

Definition as_number (j : option Json) : option Number := match j with Some (JNum n) => Some n | _ => None end.

(** [sessionRow] *)
Definition sessionRow (value : Json) : option RemoteSession :=
  match value with
  | JObj row =>
      let f k := field row k in
      let id := text_of (f "id") in
      if bool_decide (id = []) then None
      else Some (mkRemoteSession id (text_of (f "host_id")) (text_of (f "host")) (text_of (f "user"))
        (text_of (f "title")) (text_of (f "cwd")) (default (Finite (QArith_base.inject_Z 80)) (as_number (f "cols")))
        (default (Finite (QArith_base.inject_Z 24)) (as_number (f "rows"))) (as_number (f "started_at"))
        (match f "permission" with
         | Some (JNum _) =>
             if is_number (f "permission") 1 then js "view" else if is_number (f "permission") 2 then js "control" else js "full"
         | Some (JStr permission) => permission
         | _ => js "view"
         end)
        (as_string (f "task_state")) (as_string (f "current_command")) (as_number (f "command_started_at"))
        (as_number (f "command_ended_at")) (as_number (f "command_duration_ms")) (as_number (f "command_exit_code"))
        (as_number (f "last_output_at")) (as_string (f "type")) (as_number (f "attention_at")))
  | _ => None
  end.

(** A store of the state ([PeerClientStateStore]). *)
Class StateStore (Storage : Type) := {
  store_read : Storage -> result (option PeerClientState);
  store_write : Storage -> PeerClientState -> Storage;
}.

Section Bridge.
Context `{Crypto} `{PeerCrypto} `{WebCrypto} `{JsText} `{Platform} `{UrlText} `{TunnelBrowser} {Storage : Type} `{!StateStore Storage}.

Inductive BridgeResult :=
  | RStatus (status : PeerSpaceStatus)
  | RSync (status : PeerConfigSyncStatus)
  | RPreview (preview : PeerConnectionPreview)
  | RImported (result : PeerRouteImportResult)
  | RInvitations
  | RMembers (members : list PeerMember)
  | RRendezvous (config : PeerRendezvousConfig)
  | RRendezvousStatus (status : PeerRendezvousStatus)
  | RLAN (config : PeerLANConfig)
  | RSessions (rows : list RemoteSession)
  | RRouteStatus (status : RouteStatus)
  | RConsent (allowed : bool)
  | RDone.

(** The two variables, and the store. [stateCache] is [None] while it is
    [undefined]. *)
Record Shared := mkShared {
  identityCache : option PeerIdentity;
  stateCache : option (option PeerClientState);
  storage : Storage;
}.

#[export] Instance eta_shared : Eta Shared := fun s => mkShared (identityCache s) (stateCache s) (storage s).

(** What the environment says in a turn: the time, what [loadIdentity] gives,
    whether an access to the store fails, which part of a [Promise.all] goes
    on, random bytes, what [fetch] answers and how the listing settles. *)
Record Env := mkEnv {
  e_clock : nat -> Z;
  e_identity : outcome PeerIdentity;
  e_refusal : option jsstr;
  e_left : bool;
  e_join_nonce : bytes;
  e_seal_nonce : bytes;
  e_fetch : jsstr -> jsstr -> result (bool * jsstr);
  e_sessions : outcome (list Json);
}.

Definition P (A : Type) : Type := Async Shared Env A.

(** The work of an awaited call that touches none of the variables. *)
Definition verified {A} (f : Env -> result A) : P A := external (fun e => of_result (f e)).

(** [options.store.load()] and [options.store.save(next)]: the store is
    accessed at some time before the call settles. *)
Definition load_state : P (option PeerClientState) :=
  Yield (Do (fun s _ => s) (fun s e =>
    Yield (Settled (match e_refusal e with Some error => Raise error | None => of_result (store_read (storage s)) end)))).

Definition save_state (next : PeerClientState) : P unit :=
  Yield (Do (fun s e => match e_refusal e with Some _ => s | None => s <| storage := store_write (storage s) next |> end)
    (fun _ e => Yield (Settled (match e_refusal e with Some error => Raise error | None => Done tt end)))).

(** [identityCache ??= await options.loadIdentity()] *)
Definition identity : P PeerIdentity :=
  let~ cached := reads identityCache in
  match cached with
  | Some identity => async_ret identity
  | None =>
      let~ loaded := external e_identity in
      let~ _ := writes (fun s => s <| identityCache := Some loaded |>) in
      async_ret loaded
  end.

Definition state : P (option PeerClientState) :=
  let~ cached := reads stateCache in
  match cached with
  | Some state => async_ret state
  | None =>
      let~ loaded := await load_state in
      let~ _ := writes (fun s => s <| stateCache := Some loaded |>) in
      async_ret loaded
  end.

Definition configured : P (PeerIdentity * PeerClientState) :=
  let~ resolved := await (both e_left identity state) in
  match snd resolved with
  | None => async_throw (js "Peer Space is not configured")
  | Some st => async_ret (fst resolved, st)
  end.

Definition unsupported {A} : P A := async_throw (js "peer client capability unavailable on this device").

Definition keep (next : PeerClientState) : P unit :=
  let~ _ := await (save_state next) in
  writes (fun s => s <| stateCache := Some (Some next) |>).

Definition status : P BridgeResult :=
  let~ me := await identity in
  let~ st := await state in
  let~ result := verified (fun e => peerClientStatus me st (e_clock e)) in
  async_ret (RStatus result).

Definition sync_status : P BridgeResult :=
  let~ st := await state in
  async_ret (RSync (emptySyncStatus (bool_decide (is_Some st)))).

Definition previewConnectionBundle (raw : jsstr) : P BridgeResult :=
  let~ previewed := verified (fun e => previewPeerConnection raw (e_clock e 0%nat)) in
  async_ret (RPreview (snd previewed)).

Definition joinSpace (connection_bundle expected_fingerprint : jsstr) : P BridgeResult :=
  let~ existing := await state in
  match existing with
  | Some _ => async_throw (js "Peer Space already exists")
  | None =>
      let~ me := await identity in
      let~ next := verified (fun e =>
        joinPeerSpace me connection_bundle expected_fingerprint (e_join_nonce e) (e_seal_nonce e) (e_clock e) (e_fetch e)) in
      let~ _ := keep next in
      let~ me := await identity in
      let~ result := verified (fun e => peerClientStatus me (Some next) (e_clock e)) in
      async_ret (RStatus result)
  end.

(** [active.some((grant) => grant.token === bundle.document.issuer_membership)] *)
Definition issued_within (bundle : VerifiedConnectionBundle) (active : list VerifiedGrant) : bool :=
  existsb (fun grant => is_text (vb_issuer_membership bundle) (vg_token grant)) active.

Definition importConnectionBundle (raw : jsstr) : P BridgeResult :=
  let rejected {A} : P A := async_throw (js "Peer route import rejected") in
  let~ current := await configured in
  let st := snd current in
  let~ bundle := verified (fun e => verifyConnectionBundle raw (Some (e_clock e 0%nat))) in
  if bool_decide (vb_ticket bundle <> None) then rejected else
  let~ genesis := verified (fun _ => verifyGenesis (st_genesis st)) in
  if negb (bool_decide (gen_hash (vb_genesis bundle) = gen_hash genesis)) then rejected else
  let~ active := verified (fun e => activeMemberships (st_memberships st) (st_revocations st) genesis (Some (e_clock e 0%nat))) in
  if negb (issued_within bundle active) then rejected else
  let next := st <| st_route_bundle := vb_token bundle |> in
  let~ _ := keep next in
  async_ret (RImported (mkImportResult (vb_issuer_peer_id bundle)
    (bool_decide (route_kind (vb_route bundle) = K_quick_tunnel)) (bool_decide (route_kind (vb_route bundle) = K_manual_lan))
    (vb_expires_at bundle))).

Definition listMembers : P BridgeResult :=
  let~ current := await configured in
  let~ members := verified (fun e => peerClientMembers (snd current) (e_clock e 0%nat)) in
  async_ret (RMembers members).

(** The listing itself is that of [PeerCatalog]. *)
Definition listSessions : P BridgeResult :=
  let~ _ := await configured in
  let~ sessions := external e_sessions in
  async_ret (RSessions (omap sessionRow sessions)).

Definition getSessionRouteStatus : P BridgeResult :=
  let~ current := await configured in
  async_ret (RRouteStatus (mkRouteStatus rtc_supported false (st_fallback_consent (snd current)))).

Definition getQuickTunnelFallbackConsent : P BridgeResult :=
  let~ st := await state in
  async_ret (RConsent (match st with Some st => st_fallback_consent st | None => false end)).

Definition setQuickTunnelFallbackConsent (allowed : bool) : P BridgeResult :=
  let~ current := await configured in
  let~ _ := keep ((snd current) <| st_fallback_consent := allowed |>) in
  async_ret RDone.

(** The methods of the bridge; [createSessionTransport] is [LazyPeerTransport]
    below. *)
Inductive BridgeOp :=
  | Op_status | Op_configSyncStatus | Op_acceptPendingConfig | Op_discardPendingConfig | Op_createSpace
  | Op_previewConnectionBundle (raw : jsstr)
  | Op_joinSpace (connection_bundle expected_fingerprint : jsstr)
  | Op_importConnectionBundle (raw : jsstr)
  | Op_createInvitations | Op_listInvitations | Op_revokeInvitation | Op_revokeInvitationBatch
  | Op_listMembers | Op_revokeMember
  | Op_getRendezvousConfig | Op_setRendezvousConfig | Op_getRendezvousStatus | Op_reconnectRendezvous
  | Op_getLANConfig | Op_setLANConfig | Op_syncConfigNow
  | Op_listSessions | Op_getSessionRouteStatus
  | Op_getQuickTunnelFallbackConsent | Op_setQuickTunnelFallbackConsent (allowed : bool).

Definition bridge_method (op : BridgeOp) : P BridgeResult :=
  match op with
  | Op_status => status
  | Op_configSyncStatus | Op_acceptPendingConfig | Op_discardPendingConfig | Op_syncConfigNow => sync_status
  | Op_createSpace | Op_createInvitations | Op_revokeInvitation | Op_revokeInvitationBatch | Op_revokeMember
  | Op_setRendezvousConfig | Op_setLANConfig => unsupported
  | Op_previewConnectionBundle raw => previewConnectionBundle raw
  | Op_joinSpace bundle fingerprint => joinSpace bundle fingerprint
  | Op_importConnectionBundle raw => importConnectionBundle raw
  | Op_listInvitations => async_ret RInvitations
  | Op_listMembers => listMembers
  | Op_getRendezvousConfig => async_ret (RRendezvous disabledRendezvous)
  | Op_getRendezvousStatus | Op_reconnectRendezvous => async_ret (RRendezvousStatus (mkRendezvousStatus "disabled" "disabled" 0))
  | Op_getLANConfig => async_ret (RLAN (mkLANConfig false false false "" 8484 [] false false))
  | Op_listSessions => listSessions
  | Op_getSessionRouteStatus => getSessionRouteStatus
  | Op_getQuickTunnelFallbackConsent => getQuickTunnelFallbackConsent
  | Op_setQuickTunnelFallbackConsent allowed => setQuickTunnelFallbackConsent allowed
  end.

(** The bridge as it is made, over a store. *)
Definition new_bridge (stored : Storage) : Shared := mkShared None None stored.

(** The calls of the interface and their turns, in any order. *)
Inductive BridgeEvent :=
  | BrCall (op : BridgeOp) (e : Env)
  | BrGoesOn (i : nat) (e : Env)
  | BrOrphan (i : nat) (e : Env).

Definition task_of (ev : BridgeEvent) : TaskEvent Shared Env BridgeResult :=
  match ev with
  | BrCall op e => EvCall (bridge_method op) e
  | BrGoesOn i e => EvGoesOn i e
  | BrOrphan i e => EvOrphan i e
  end.

Definition run_bridge (events : list BridgeEvent) (stored : Storage) : Tasks Shared Env BridgeResult :=
  run_tasks (map task_of events) (new_bridge stored).

(** ** The transport that waits for its state *)

Record LazyPeerTransport := mkLazy {
  delegate : option TunnelWorld;
  lazy_closed : bool;
  resolving : nat;                        (* calls of [resolve] that are pending *)
  lazy_failures : list jsstr;             (* what it has reported itself *)
}.

#[export] Instance eta_lazy : Eta LazyPeerTransport :=
  fun l => mkLazy (delegate l) (lazy_closed l) (resolving l) (lazy_failures l).

Definition new_lazy : LazyPeerTransport := mkLazy None false 0 [].

Inductive LazyEvent :=
  | LzStart
  | LzResolved (o : outcome (PeerIdentity * PeerClientState)) (t : Z)
  | LzSendFrame (frame : bytes)
  | LzClose
  | LzDelegate (e : Event).

Definition to_delegate (e : Event) (l : LazyPeerTransport) : LazyPeerTransport :=
  l <| delegate := option_map (step e) (delegate l) |>.

(** [start], and what it does when [resolve()] settles at time [t]. *)
Definition lazy_step (options : TunnelOptions) (ev : LazyEvent) (l : LazyPeerTransport) : LazyPeerTransport :=
  match ev with
  | LzStart => l <| resolving := S (resolving l) |>
  | LzResolved o t =>
      match resolving l with
      | O => l
      | S pending =>
          let l := l <| resolving := pending |> in
          match o with
          | Done (me, st) =>
              if lazy_closed l then l
              else to_delegate EvStart (l <| delegate := Some (init (new_tunnel options me st false) t) |>)
          | Raise error => l <| lazy_failures := lazy_failures l ++ [error] |>
          end
      end
  | LzSendFrame frame => if lazy_closed l then l else to_delegate (EvSendFrame frame) l
  | LzClose => to_delegate EvClose (l <| lazy_closed := true |>)
  | LzDelegate e => to_delegate e l
  end.

(** What [sendFrame] returns. *)
Definition lazy_sendFrame (frame : bytes) (l : LazyPeerTransport) : bool :=
  if lazy_closed l then false
  else match delegate l with
       | Some w => match snd (sendFrame frame w) with Done sent => sent | Raise _ => false end
       | None => false
       end.

Definition run_lazy (options : TunnelOptions) (events : list LazyEvent) : LazyPeerTransport :=
  fold_left (fun l ev => lazy_step options ev l) events new_lazy.
End Bridge.
