(* ===== verification/PeerBridgeProps.v ===== *)
(** * The peer client's bridge: what it keeps

    However its calls overlap, the bridge changes nothing of a configured
    state but the route, to one of a host that is a member, and the consent. *)

From S2P Require Import Prelude Bytes JsString Base64Url JsMap Json JsonText DirectCrypto DirectFraming DirectHandshake.
From S2P Require Import EventLoop Transport NativeDirect PeerIdentity PeerJoin PeerDocuments PeerTrust PeerState PeerHandshake.
From S2P Require Import PeerStateProps PeerFragments QuickTunnel QuickTunnelToy QuickTunnelProps AsyncTasks PeerBridge.

(** What the bridge relies on: a state that is written is read again. *)
Class StateStoreLaws (Storage : Type) `{StateStore Storage} := {
  store_sound : Storage -> Prop;
  storable : PeerClientState -> Prop;
  store_written s x : store_sound s -> storable x -> store_sound (store_write s x) /\ store_read (store_write s x) = Ok (Some x);
  storable_route x token : storable x -> storable (x <| st_route_bundle := token |>);
  storable_consent x allowed : storable x -> storable (x <| st_fallback_consent := allowed |>);
}.

Section Kept.
Context `{Crypto} `{PeerCrypto} `{WebCrypto} `{JsText} `{Platform} `{UrlText} `{TunnelBrowser}.
Context {Storage : Type} `{!StateStore Storage} `{!StateStoreLaws Storage}.

(** The same state but for the route and the consent. *)
Definition same_space (x0 x : PeerClientState) : Prop :=
  x = x0 <| st_route_bundle := st_route_bundle x |> <| st_fallback_consent := st_fallback_consent x |>.

(** A route bundle that is valid at some time, grants nothing, and comes from
    an active member of the space. *)
Definition admitted (x0 : PeerClientState) (token : jsstr) : Prop :=
  exists raw now now' bundle genesis active,
    verifyConnectionBundle raw now = Ok bundle /\ vb_token bundle = token /\ vb_ticket bundle = None /\
    verifyGenesis (st_genesis x0) = Ok genesis /\ gen_hash (vb_genesis bundle) = gen_hash genesis /\
    activeMemberships (st_memberships x0) (st_revocations x0) genesis now' = Ok active /\ issued_within bundle active = true.

Definition descends (x0 x : PeerClientState) : Prop :=
  same_space x0 x /\ (st_route_bundle x = st_route_bundle x0 \/ admitted x0 (st_route_bundle x)).

Lemma descends_refl x : descends x x.
Proof. split; [by destruct x|by left]. Qed.

Lemma descends_route x0 x token : descends x0 x -> admitted x0 token -> descends x0 (x <| st_route_bundle := token |>).
Proof. intros [E _] Ht. split; [rewrite E; by destruct x0|by right]. Qed.

Lemma descends_consent x0 x allowed : descends x0 x -> descends x0 (x <| st_fallback_consent := allowed |>).
Proof. intros [E Ht]. split; [rewrite E; by destruct x0|done]. Qed.

Lemma descends_fields x0 x :
  descends x0 x -> st_genesis x = st_genesis x0 /\ st_memberships x = st_memberships x0 /\ st_revocations x = st_revocations x0.
Proof. intros [-> _]. by destruct x0. Qed.

(** ** What every turn keeps *)

(** The states that the bridge may start from: the one that was stored, or one
    that a join made; [unset]: whether there may be none. *)
Context (origin : PeerClientState -> Prop) (unset : Prop).
Context (origin_storable : forall x, origin x -> storable x).
Context (origin_joined : unset -> forall me raw fingerprint n1 n2 clock fetch x,
  joinPeerSpace me raw fingerprint n1 n2 clock fetch = Ok x -> origin x).

Definition held (x : PeerClientState) : Prop := storable x /\ exists x0, origin x0 /\ descends x0 x.

Definition held_opt (x : option PeerClientState) : Prop := match x with Some x => held x | None => unset end.

Record kept (s : Shared (Storage := Storage)) : Prop := mkKept {
  k_sound : store_sound (storage s);
  k_stored : exists x, store_read (storage s) = Ok x /\ held_opt x;
  k_cached : forall x, stateCache s = Some x -> held_opt x;
}.

Lemma held_origin x : origin x -> held x.
Proof. intros Hx. split; [by apply origin_storable|]. exists x. split; [done|apply descends_refl]. Qed.

Lemma held_consent x allowed : held x -> held (x <| st_fallback_consent := allowed |>).
Proof.
  intros [Hs (x0 & Ho & Hd)]. split; [by apply storable_consent|]. exists x0. split; [done|by apply descends_consent].
Qed.

Notation secured := (secure kept).

Lemma secure_verified {A} (f : Env -> result A) (Q : A -> Prop) :
  (forall e a, f e = Ok a -> Q a) -> secured (gives Q) (verified f).
Proof. intros Hf. apply secure_external. intros e a. destruct (f e) eqn:E; [|done]. intros [= <-]. by eapply Hf. Qed.

Lemma secure_load : secured (gives held_opt) load_state.
Proof.
  intros s e Hs. split; [done|]. cbn. destruct (e_refusal e); [done|].
  destruct (k_stored s Hs) as (x & Ex & Hx). rewrite Ex. exact Hx.
Qed.

Lemma secure_save next : held next -> secured (gives (fun _ => True)) (save_state next).
Proof.
  intros Hn s e Hs. split; [|by cbn; destruct (e_refusal e)]. destruct (e_refusal e); [done|].
  destruct (store_written (storage s) next (k_sound s Hs) (proj1 Hn)) as [Hs' Hr].
  split; [exact Hs'|by exists (Some next)|exact (k_cached s Hs)].
Qed.

Lemma secure_keep next : held next -> secured (gives (fun _ => True)) (keep next).
Proof.
  intros Hn. unfold keep. eapply secure_bind; [by apply secure_await, secure_save|]. intros _ _. apply secure_writes.
  intros s [Hs Hr Hc]. split; [done..|]. by intros x [= <-].
Qed.

Lemma secure_state : secured (gives held_opt) state.
Proof.
  unfold state. eapply (secure_bind _ (fun cached => forall x, cached = Some x -> held_opt x)).
  { apply secure_reads. intros s Hs x. by apply k_cached. }
  intros [x|] Hx; [exact (Hx x eq_refl)|]. eapply secure_bind; [apply secure_await, secure_load|].
  intros x' Hx'. eapply (secure_bind _ (fun _ => True)); [|by intros _ _]. apply secure_writes.
  intros s [Hs Hr Hc]. split; [done..|]. by intros x [= <-].
Qed.

Lemma secure_identity : secured (gives (fun _ => True)) identity.
Proof.
  unfold identity. eapply (secure_bind _ (fun _ => True)); [by apply secure_reads|]. intros [i|] _; [done|].
  eapply (secure_bind _ (fun _ => True)); [by apply secure_external|]. intros i _.
  eapply (secure_bind _ (fun _ => True)); [|by intros _ _]. apply secure_writes. intros s [Hs Hr Hc]. by split.
Qed.

Lemma secure_configured : secured (gives (fun c => held (snd c))) configured.
Proof.
  unfold configured. eapply secure_bind; [apply secure_await, (secure_both kept e_left (fun _ => True) held_opt)|].
  - apply secure_identity.
  - apply secure_state.
  - intros [i [x|]] [_ Hx]; [exact Hx|done].
Qed.

Lemma secure_join raw fp : secured (gives (fun _ => True)) (joinSpace raw fp).
Proof.
  unfold joinSpace. eapply secure_bind; [apply secure_await, secure_state|]. intros [x|] Hx; [done|].
  eapply secure_bind; [apply secure_await, secure_identity|]. intros me _.
  eapply secure_bind; [apply (secure_verified _ held)|].
  { intros e x Ex. apply held_origin. by eapply (origin_joined Hx). }
  intros next Hn. eapply secure_bind; [by apply secure_keep|]. intros _ _.
  eapply secure_bind; [apply secure_await, secure_identity|]. intros me' _.
  eapply (secure_bind _ (fun _ => True)); [by apply secure_verified|]. done.
Qed.

Lemma secure_import raw : secured (gives (fun _ => True)) (importConnectionBundle raw).
Proof.
  unfold importConnectionBundle. cbv zeta. eapply secure_bind; [apply secure_await, secure_configured|]. intros [me x] [Hst (x0 & Ho & Hd)].
  destruct (descends_fields x0 x Hd) as (Eg & Em & Er). cbn [snd] in *.
  eapply (secure_bind _ (fun b => exists now, verifyConnectionBundle raw now = Ok b)); [apply secure_verified; intros e b E; by eexists|].
  intros bundle [now Eb]. destruct (bool_decide (vb_ticket bundle <> None)) eqn:Et; [done|]. apply bool_decide_eq_false in Et.
  eapply (secure_bind _ (fun g => verifyGenesis (st_genesis x) = Ok g)); [by apply secure_verified|]. intros genesis Egen.
  destruct (bool_decide (gen_hash (vb_genesis bundle) = gen_hash genesis)) eqn:Eh; [|done]. apply bool_decide_eq_true in Eh.
  eapply (secure_bind _ (fun a => exists now', activeMemberships (st_memberships x) (st_revocations x) genesis now' = Ok a));
    [apply secure_verified; intros e a E; by eexists|].
  intros active [now' Ea]. destruct (issued_within bundle active) eqn:Ei; [|done]. cbn [negb].
  eapply secure_bind; [|by intros _ _]. apply secure_keep. split; [by apply storable_route|]. exists x0. split; [done|].
  apply descends_route; [done|]. rewrite Eg in Egen. rewrite Em, Er in Ea.
  exists raw, now, now', bundle, genesis, active. split_and!; try done. destruct (vb_ticket bundle); [|done]. by destruct Et.
Qed.

Lemma secure_consent allowed : secured (gives (fun _ => True)) (setQuickTunnelFallbackConsent allowed).
Proof.
  unfold setQuickTunnelFallbackConsent. eapply secure_bind; [apply secure_await, secure_configured|]. intros [me x] Hx.
  eapply secure_bind; [|by intros _ _]. by apply secure_keep, held_consent.
Qed.

Lemma secure_method op : secured (gives (fun _ => True)) (bridge_method op).
Proof.
  destruct op; cbn [bridge_method]; try done.
  all: try (by eapply (secure_bind _ held_opt); [apply secure_await, secure_state|]).
  - eapply secure_bind; [apply secure_await, secure_identity|]. intros me _.
    eapply secure_bind; [apply secure_await, secure_state|]. intros x _.
    eapply (secure_bind _ (fun _ => True)); [by apply secure_verified|done].
  - eapply (secure_bind _ (fun _ => True)); [by apply secure_verified|done].
  - apply secure_join.
  - apply secure_import.
  - eapply secure_bind; [apply secure_await, secure_configured|]. intros c _. eapply (secure_bind _ (fun _ => True)); [by apply secure_verified|done].
  - eapply secure_bind; [apply secure_await, secure_configured|]. intros c _. eapply (secure_bind _ (fun _ => True)); [by apply secure_external|done].
  - by eapply secure_bind; [apply secure_await, secure_configured|].
  - apply secure_consent.
Qed.

Lemma bridge_kept (events : list BridgeEvent) (stored : Storage) :
  store_sound stored -> (exists x, store_read stored = Ok x /\ held_opt x) -> kept (shared (run_bridge events stored)).
Proof.
  intros Hs Hr. apply (run_tasks_secure kept (gives (fun _ => True))); [|by split].
  intros p e Hin. apply list_elem_of_fmap in Hin as (ev & Eev & _). destruct ev; try discriminate Eev.
  injection Eev as -> _. apply secure_method.
Qed.
End Kept.

(** ** The theorems *)

Section Bridge.
Context `{Crypto} `{PeerCrypto} `{WebCrypto} `{JsText} `{Platform} `{UrlText} `{TunnelBrowser}.
Context {Storage : Type} `{!StateStore Storage} `{!StateStoreLaws Storage}.

(** C34. Once a space is configured, no sequence of calls, however they overlap
    and whichever accesses to the store fail, changes the space, the
    memberships or the keys of the device: the state that is stored, and the
    one that the bridge has cached, are the first one but for the consent and
    the route, and a new route is that of a valid bundle, without an
    invitation, of an active member of the same space. *)
Theorem bridge_space_kept (events : list BridgeEvent) (stored : Storage) (x0 : PeerClientState)
    (Hsound : store_sound stored) (Hstored : store_read stored = Ok (Some x0)) (Hstorable : storable x0) :
  let s := shared (run_bridge events stored) in
  (exists x, store_read (storage s) = Ok (Some x) /\ descends x0 x) /\
  (forall c, stateCache s = Some c -> exists x, c = Some x /\ descends x0 x).
Proof.
  cbv zeta.
  assert (Hk : kept (fun x => x = x0) False (shared (run_bridge events stored))).
  { apply bridge_kept; [by intros x ->|done|done|]. exists (Some x0). split; [done|]. by apply held_origin; [intros x ->|]. }
  assert (Hd : forall x, held_opt (fun x => x = x0) False x -> exists y, x = Some y /\ descends x0 y).
  { intros [y|]; [|done]. intros [_ (x1 & -> & Hd)]. by exists y. }
  destruct Hk as [_ (x & Ex & Hx) Hc]. split.
  - destruct (Hd x Hx) as (y & -> & ?). by exists y.
  - intros c Ec. apply Hd. by apply Hc.
Qed.

(** Where nothing is stored at first, every state that is kept later was made by
    a join, but for the route and the consent. *)
Lemma bridge_joined (events : list BridgeEvent) (stored : Storage) :
  store_sound stored -> store_read stored = Ok None ->
  (forall me raw fingerprint n1 n2 clock fetch x, joinPeerSpace me raw fingerprint n1 n2 clock fetch = Ok x -> storable x) ->
  forall x, store_read (storage (shared (run_bridge events stored))) = Ok (Some x) ->
  exists me raw fingerprint n1 n2 clock fetch x0,
    joinPeerSpace me raw fingerprint n1 n2 clock fetch = Ok x0 /\ descends x0 x.
Proof.
  intros Hs Hr Hj x Hx.
  pose (joined := fun x => exists me raw fingerprint n1 n2 clock fetch, joinPeerSpace me raw fingerprint n1 n2 clock fetch = Ok x).
  assert (Hk : kept joined True (shared (run_bridge events stored))).
  { apply bridge_kept; [|by intros; repeat eexists|done|by exists None].
    intros y (me & raw & fp & n1 & n2 & clock & fetch & E). by eapply Hj. }
  destruct Hk as [_ (y & Ey & Hy) _]. assert (y = Some x) as -> by congruence.
  destruct Hy as [_ (x0 & (me & raw & fp & n1 & n2 & clock & fetch & E) & Hd)].
  by exists me, raw, fp, n1, n2, clock, fetch, x0.
Qed.
End Bridge.

(** ** Stores *)

(** The store of a browser, under a key of the storage. *)
Section LocalStore.
Context `{JsText} (key : jsstr).

#[export] Instance local_store : StateStore (list (jsstr * jsstr)) := {
  store_read storage := store_load storage key;
  store_write storage x := store_save storage key x;
}.

Definition local_store_laws
    (text : forall x, JSON_parse (JSON_stringify (state_json x)) = Ok (state_json x) /\ JSON_stringify (state_json x) <> []) :
  StateStoreLaws (list (jsstr * jsstr)).
Proof.
  refine {| store_sound := map_ok; storable := fun x => 0 < st_joined_at x <= MAX_SAFE_INTEGER |}; try (by intros []).
  intros storage x Hs Hx. split; [by apply map_ok_set|].
  by destruct (state_store_roundtrip storage key x Hx (proj1 (text x)) (proj2 (text x)) Hs) as [Hr _].
Defined.
End LocalStore.

(** A store that holds one state, for the runs below. *)
#[local] Instance cell_store : StateStore (option PeerClientState) := {
  store_read cell := Ok cell;
  store_write _ x := Some x;
}.

#[local] Instance cell_laws : StateStoreLaws (option PeerClientState) := {
  store_sound _ := True;
  storable _ := True;
  store_written _ x _ _ := conj I (eq_refl (Ok (Some x)));
  storable_route _ _ _ := I;
  storable_consent _ _ _ := I;
}.

Module BridgeToy.
Definition env : Env :=
  mkEnv (fun _ => 400000) (Done JoinedToy.self) None true (zeros 32) (zeros 24) JoinedToy.fetch (Done []).

(** The stored state, with the consent given. *)
Definition consented : PeerClientState := JoinedToy.state <| st_fallback_consent := true |>.

Definition bridge (events : list BridgeEvent) : Tasks Shared Env BridgeResult := run_bridge events (Some consented).

Definition new_bundle : jsstr := Eval vm_compute in JoinedToy.bundle "c" [].

(** A new route bundle is imported; before it is saved the user withdraws the
    consent, and that call completes. *)
Definition import_then_withdraw : list BridgeEvent :=
  BrCall (Op_importConnectionBundle new_bundle) env :: repeat (BrGoesOn 0 env) 8
  ++ BrCall (Op_setQuickTunnelFallbackConsent false) env :: repeat (BrGoesOn 1 env) 12.

(** And the import goes on. *)
Definition import_goes_on : list BridgeEvent := repeat (BrGoesOn 0 env) 12.

Definition consent_in (w : Tasks Shared Env BridgeResult) : option bool := option_map st_fallback_consent (storage (shared w)).
End BridgeToy.

Lemma triple_equal {A B C} (a a' : A) (b b' : B) (c c' : C) : (a, b, c) = (a', b', c') -> a = a' /\ b = b' /\ c = c'.
Proof. by intros [= -> -> ->]. Qed.

(** A withdrawal of the consent that completes during an import is lost: the
    import saves the state that it read before, and the consent is back. *)
Lemma consent_withdrawal_lost :
  settlement_of 1 (BridgeToy.bridge BridgeToy.import_then_withdraw) = Some (Done RDone) /\
  BridgeToy.consent_in (BridgeToy.bridge BridgeToy.import_then_withdraw) = Some false /\
  BridgeToy.consent_in (BridgeToy.bridge (BridgeToy.import_then_withdraw ++ BridgeToy.import_goes_on)) = Some true.
Proof.
  assert (E : (fun w => (settlement_of 1 w, BridgeToy.consent_in w,
                        BridgeToy.consent_in (fold_left (fun w ev => task_step ev w) (map task_of BridgeToy.import_goes_on) w)))
    (BridgeToy.bridge BridgeToy.import_then_withdraw) = (Some (Done RDone), Some false, Some true)) by (vm_compute; reflexivity).
  assert (Eb : BridgeToy.bridge (BridgeToy.import_then_withdraw ++ BridgeToy.import_goes_on)
    = fold_left (fun w ev => task_step ev w) (map task_of BridgeToy.import_goes_on) (BridgeToy.bridge BridgeToy.import_then_withdraw)).
  { unfold BridgeToy.bridge, run_bridge, run_tasks. rewrite map_app, fold_left_app. reflexivity. }
  rewrite Eb. clear Eb. revert E. generalize (BridgeToy.bridge BridgeToy.import_then_withdraw). intros w E.
  apply triple_equal. exact E.
Qed.

Lemma bridge_space_kept_witness :
  exists x, store_read (storage (shared (BridgeToy.bridge (BridgeToy.import_then_withdraw ++ BridgeToy.import_goes_on)))) = Ok (Some x) /\
    descends BridgeToy.consented x.
Proof.
  destruct (bridge_space_kept (BridgeToy.import_then_withdraw ++ BridgeToy.import_goes_on) (Some BridgeToy.consented) BridgeToy.consented)
    as [(x & Ex & Hx) _]; [exact I|reflexivity|exact I|].
  exists x. exact (conj Ex Hx).
Defined.

(** ** The transport that waits for its state *)

Section Lazy.
Context `{Crypto} `{PeerCrypto} `{WebCrypto} `{JsText} `{Platform} `{UrlText} `{TunnelBrowser} (o : TunnelOptions).

(** The transport it stands for is one of [QuickTunnel], made once the state is
    known and not after [close]; closed, it is closed too, and nothing is sent
    before it is there or after it is closed. *)
Definition lazy_ok (l : LazyPeerTransport) : Prop :=
  forall w, delegate l = Some w ->
    (exists me st t0 es, w = run_of o me st false t0 es) /\ (lazy_closed l = true -> closed (this w) = true).

Lemma to_delegate_ok e l closing :
  lazy_ok l -> (closing = true -> lazy_closed l = true \/ e = EvClose) -> lazy_ok (to_delegate e (l <| lazy_closed := closing |>)).
Proof.
  intros Hl Hc w. cbn. destruct (delegate l) as [w0|] eqn:E; [|done]. cbn. intros [= <-].
  destruct (Hl w0 E) as [(me & st & t0 & es & ->) Hcl]. split.
  - exists me, st, t0, (es ++ [e]). by rewrite run_of_snoc.
  - intros Hclosing. destruct (Hc Hclosing) as [Hc'| ->]; [by apply run_of_closed, Hcl|apply close_closes].
Qed.

Lemma lazy_step_ok ev l : lazy_ok l -> lazy_ok (lazy_step o ev l).
Proof.
  intros Hl. assert (Hsame : forall e, lazy_ok (to_delegate e l)).
  { intros e. pose proof (to_delegate_ok e l (lazy_closed l) Hl) as Ht. destruct l. apply Ht. by left. }
  destruct ev as [|res t|frame| |e]; cbn [lazy_step]; try done.
  - destruct (resolving l) as [|pending]; [done|]. destruct res as [[me st]|error]; [|done].
    destruct (lazy_closed (l <| resolving := pending |>)) eqn:Ec; [done|].
    intros w [= <-]. split; [by exists me, st, t, [EvStart]|]. cbn in Ec |- *. congruence.
  - destruct (lazy_closed l); [done|]. apply Hsame.
  - apply to_delegate_ok; [done|]. by right.
Qed.

Lemma lazy_transport events :
  lazy_ok (run_lazy o events) /\
  (lazy_closed (run_lazy o events) = true \/ delegate (run_lazy o events) = None ->
   forall frame, lazy_sendFrame frame (run_lazy o events) = false).
Proof.
  split.
  - unfold run_lazy. induction events as [|ev events IH] using rev_ind; [done|]. rewrite fold_left_app. by apply lazy_step_ok.
  - unfold lazy_sendFrame. intros [-> | ->] frame; [done|]. by destruct (lazy_closed _).
Qed.
End Lazy.

(** A failure of [resolve()] is reported even after [close]; the session
    connection drops the callbacks of a transport that it has closed. *)
Lemma lazy_reports_after_close `{Crypto} `{PeerCrypto} `{WebCrypto} `{JsText} `{Platform} `{UrlText} `{TunnelBrowser} o error t :
  lazy_failures (run_lazy o [LzStart; LzClose; LzResolved (Raise error) t]) = [error].
Proof. done. Qed.
