(* ===== verification/PrefsSync.v ===== *)
(** * Preference synchronisation (lib/prefsSync.ts, lib/prefsSync.capacitor.ts,
      and the web client's shared/sync/prefsSync.ts)

    [PrefsSyncEngine] keeps preferences in step with the relay: a change made
    here marks its key dirty and is pushed; what the relay has newer is pulled.
    Pushes, pulls and changes overlap: they are programs of [AsyncTasks] over
    the local storage. The engine of the web client ([Web]) is a copy that does
    not give way between its writes. *)

From Stdlib Require Import QArith_base.
From S2P Require Import Prelude Bytes JsString JsMap Json EventLoop AsyncTasks.
#[local] Open Scope Z_scope.

(** [a > b] *)
Definition Number_gt (a b : Number) : bool :=
  match a, b with
  | NaN, _ | _, NaN => false
  | PosInfinity, PosInfinity => false
  | PosInfinity, _ => true
  | Finite _, NegInfinity => true
  | Finite p, Finite q => negb (Qle_bool p q)
  | _, _ => false
  end.

Definition number_of (z : Z) : Number := Finite (inject_Z z).

(** [Number(s)] of a string. *)
Class NumberText := { Number_text : jsstr -> Number }.

(** [Number(j)] *)
Definition Number_ `{JsText} `{NumberText} (j : Json) : Number :=
  match j with
  | JNull => number_of 0
  | JBool b => number_of (if b then 1 else 0)
  | JNum n => n
  | JStr s => Number_text s
  | JArr _ | JObj _ => Number_text (String_ j)
  end.

Definition SYNCED_KEYS : list jsstr :=
  map js ["locale_preference"; "traffic_time_zone"; "quick_templates"; "notifications_enabled"; "ai_notifications_only";
          "command_notify_threshold_seconds"; "shell_integration_enabled"; "pinned_session_ids"].

Record Meta := mkMeta { updatedAtLocal : Number; dirty : bool }.

Record ServerItem := mkServerItem { it_key : jsstr; it_value : Json; it_updated_at : Number }.
Record ClientItem := mkClientItem { ci_key : jsstr; ci_value : Json; client_updated_at : Number }.

(** The interface [Adapter]. *)
Class Adapter (Storage : Type) := {
  readValue : Storage -> jsstr -> option Json;
  writeValue : Storage -> jsstr -> Json -> Storage;
  readMeta : Storage -> jsstr -> Meta;
  writeMeta : Storage -> jsstr -> Meta -> Storage;
  adapter_keys : list jsstr;
}.

(** What the engine relies on: a key has its value and its mark. *)
Class AdapterLaws (Storage : Type) `{Adapter Storage} := {
  adapter_ok : Storage -> Prop;
  value_ok : Json -> Prop;
  meta_ok : Meta -> Prop;
  ok_value s k v : adapter_ok s -> adapter_ok (writeValue s k v);
  ok_meta s k m : adapter_ok s -> adapter_ok (writeMeta s k m);
  value_value s k k' v : adapter_ok s -> value_ok v ->
    readValue (writeValue s k v) k' = if bool_decide (k = k') then Some v else readValue s k';
  value_other s k k' v : adapter_ok s -> k <> k' -> readValue (writeValue s k v) k' = readValue s k';
  value_meta s k k' m : adapter_ok s -> readValue (writeMeta s k m) k' = readValue s k';
  meta_value s k k' v : adapter_ok s -> readMeta (writeValue s k v) k' = readMeta s k';
  meta_meta s k k' m : adapter_ok s -> meta_ok m ->
    readMeta (writeMeta s k m) k' = if bool_decide (k = k') then m else readMeta s k';
  meta_other s k k' m : adapter_ok s -> k <> k' -> readMeta (writeMeta s k m) k' = readMeta s k';
}.

(** ** The adapter of the browser *)

Section LocalStorage.
Context `{JsText} `{NumberText}.

Definition VALUE_KEY (k : jsstr) : jsstr := js "atterm." ++ k ++ js ".value".
Definition META_KEY (k : jsstr) : jsstr := js "atterm." ++ k ++ js ".meta".

Definition no_meta : Meta := mkMeta (number_of 0) false.

(** [{ updatedAtLocal: Number(m?.updatedAtLocal ?? 0), dirty: !!m?.dirty }] *)
Definition read_meta (m : Json) : Meta :=
  let f k := match m with JObj fields => field fields k | _ => None end in
  mkMeta (match f "updatedAtLocal" with None | Some JNull => number_of 0 | Some j => Number_ j end) (truthy (f "dirty")).

Definition meta_json (m : Meta) : Json := JObj [(js "updatedAtLocal", JNum (updatedAtLocal m)); (js "dirty", JBool (dirty m))].

#[export] Instance localStorageAdapter : Adapter (list (jsstr * jsstr)) := {
  readValue storage k :=
    match map_get storage (VALUE_KEY k) with
    | None => None
    | Some raw => match JSON_parse raw with Ok v => Some v | Throw _ => None end
    end;
  writeValue storage k v := map_set storage (VALUE_KEY k) (JSON_stringify v);
  readMeta storage k :=
    match map_get storage (META_KEY k) with
    | None => no_meta
    | Some raw => match JSON_parse raw with Ok m => read_meta m | Throw _ => no_meta end
    end;
  writeMeta storage k m := map_set storage (META_KEY k) (JSON_stringify (meta_json m));
  adapter_keys := SYNCED_KEYS;
}.
End LocalStorage.

(** ** The engine *)

Section Engine.
Context {Storage : Type} `{!Adapter Storage}.

(** What the environment says in a turn: the time, whether the storage is full,
    and how the requests to the relay settle. *)
Record PrefsEnv := mkPrefsEnv {
  p_now : Z;
  p_full : option jsstr;
  p_get : outcome (list ServerItem);
  p_put : list ClientItem -> outcome (list ServerItem);
}.

Definition P (A : Type) : Type := Async Storage PrefsEnv A.

(** A write, which throws if the storage is full. *)
Definition stores (f : Storage -> Storage) : P unit :=
  Do (fun s e => match p_full e with Some _ => s | None => f s end)
     (fun _ e => Settled (match p_full e with Some error => Raise error | None => Done tt end)).

(** [await undefined] *)
Definition pause : P unit := Yield (Settled (Done tt)).

Definition clean_meta (it : ServerItem) : Meta := mkMeta (it_updated_at it) false.

(** The dirty keys that have a value. *)
Definition pending_item (s : Storage) (k : jsstr) : option ClientItem :=
  let m := readMeta s k in
  if dirty m then option_map (fun v => mkClientItem k v (updatedAtLocal m)) (readValue s k) else None.

Definition pending_items (s : Storage) : list ClientItem := omap (pending_item s) adapter_keys.

Definition markDirty (key : jsstr) (updatedAt : Z) : P unit :=
  stores (fun s => writeMeta s key (mkMeta (number_of updatedAt) true)).

(** [pull]: the loop, and the method. *)
Fixpoint pull_items (items : list ServerItem) : P unit :=
  match items with
  | [] => async_ret tt
  | it :: rest =>
      let~ local := reads (fun s => readMeta s (it_key it)) in
      if Number_gt (it_updated_at it) (updatedAtLocal local) then
        if dirty local then pull_items rest
        else
          let~ _ := stores (fun s => writeValue s (it_key it) (it_value it)) in
          let~ _ := pause in
          let~ _ := stores (fun s => writeMeta s (it_key it) (clean_meta it)) in
          let~ _ := pause in
          pull_items rest
      else pull_items rest
  end.

Definition pull : P unit :=
  let~ items := external p_get in
  pull_items items.

Fixpoint push_items (items : list ServerItem) : P unit :=
  match items with
  | [] => async_ret tt
  | it :: rest =>
      let~ _ := stores (fun s => writeValue s (it_key it) (it_value it)) in
      let~ _ := pause in
      let~ _ := stores (fun s => writeMeta s (it_key it) (clean_meta it)) in
      let~ _ := pause in
      push_items rest
  end.

Definition push : P unit :=
  let~ items := reads pending_items in
  if bool_decide (items = []) then async_ret tt
  else
    let~ resp := external (fun e => p_put e items) in
    push_items resp.

(** ** A change of a preference *)

(** [notifyLocalChange], of the shared engine if it is set ([push] is its push);
    the promise of the push is not awaited and its rejection is dropped. *)
Definition notifyLocalChange (push : option (P unit)) (key : jsstr) : P unit :=
  match push with
  | None => async_ret tt
  | Some push =>
      let~ now := Do (fun s _ => s) (fun _ e => Settled (Done (p_now e))) in
      let~ _ := markDirty key now in
      ignored push
  end.
End Engine.

(** ** The web client's copy *)

Module Web.
Section Engine.
Context {Storage : Type} `{!Adapter Storage}.

Fixpoint pull_items (items : list ServerItem) : P unit :=
  match items with
  | [] => async_ret tt
  | it :: rest =>
      let~ local := reads (fun s => readMeta s (it_key it)) in
      if Number_gt (it_updated_at it) (updatedAtLocal local) then
        if dirty local then pull_items rest
        else
          let~ _ := stores (fun s => writeValue s (it_key it) (it_value it)) in
          let~ _ := stores (fun s => writeMeta s (it_key it) (clean_meta it)) in
          pull_items rest
      else pull_items rest
  end.

Definition pull : P unit :=
  let~ items := external p_get in
  pull_items items.

Fixpoint push_items (items : list ServerItem) : P unit :=
  match items with
  | [] => async_ret tt
  | it :: rest =>
      let~ _ := stores (fun s => writeValue s (it_key it) (it_value it)) in
      let~ _ := stores (fun s => writeMeta s (it_key it) (clean_meta it)) in
      push_items rest
  end.

Definition push : P unit :=
  let~ items := reads pending_items in
  if bool_decide (items = []) then async_ret tt
  else
    let~ resp := external (fun e => p_put e items) in
    push_items resp.
End Engine.
End Web.

(** ** A setter of the mobile client (platform/capacitor.ts) *)

Section Pins.
Context `{JsText} `{NumberText}.

Definition getPins (storage : list (jsstr * jsstr)) : list jsstr :=
  match map_get storage (js "atterm.pinned_session_ids.value") with
  | None => []
  | Some raw =>
      match JSON_parse raw with
      | Ok (JArr v) => omap (fun x => match x with JStr id => Some id | _ => None end) v
      | _ => []
      end
  end.

Definition setPins (push : option (P unit)) (ids : list jsstr) : P unit :=
  let~ _ := stores (fun storage => map_set storage (js "atterm.pinned_session_ids.value") (JSON_stringify (JArr (map JStr ids)))) in
  notifyLocalChange push (js "pinned_session_ids").
End Pins.
