(* ===== verification/PrefsSyncProps.v ===== *)
(** * Preference synchronisation: what it promises

    A pull leaves changes alone that were made here, whatever runs meanwhile;
    alone, pull and push do what their specification says, and the two copies
    of the engine agree. A push, however, takes the answer of the relay over a
    change that was made while it was under way. *)

From Stdlib Require Import QArith_base.
From S2P Require Import Prelude Bytes JsString JsMap Json JsonText EventLoop AsyncTasks PrefsSync.
#[local] Open Scope Z_scope.

Section Props.
Context {Storage : Type} `{!Adapter Storage} `{!AdapterLaws Storage}.

(** ** Pull and the changes made here *)

(** From [s] to [s'] the values and marks of the keys that are dirty in [s] are
    the same; [keeps_values]: the values are. *)
Definition keeps_changes (s s' : Storage) : Prop :=
  adapter_ok s -> adapter_ok s' /\
  forall k, dirty (readMeta s k) = true -> readValue s' k = readValue s k /\ readMeta s' k = readMeta s k.

Definition keeps_values (s s' : Storage) : Prop :=
  adapter_ok s -> adapter_ok s' /\ forall k, dirty (readMeta s k) = true -> readValue s' k = readValue s k.

Lemma keeps_changes_refl s : keeps_changes s s.
Proof. done. Qed.

Lemma keeps_values_refl s : keeps_values s s.
Proof. done. Qed.

Lemma keeps_changes_trans s1 s2 s3 : keeps_changes s1 s2 -> keeps_changes s2 s3 -> keeps_changes s1 s3.
Proof.
  intros H1 H2 Hok. destruct (H1 Hok) as [Hok2 Hk1]. destruct (H2 Hok2) as [Hok3 Hk2]. split; [done|].
  intros k Hd. destruct (Hk1 k Hd) as [E1 E2]. destruct (Hk2 k) as [E3 E4]; [by rewrite E2|]. split; congruence.
Qed.

(** Writes to a key that is not dirty. *)
Lemma keeps_write_value s k v : dirty (readMeta s k) = false -> keeps_changes s (writeValue s k v).
Proof.
  intros Hd Hok. split; [by apply ok_value|]. intros k' Hd'. rewrite value_other, meta_value; [done..|congruence].
Qed.

Lemma keeps_adopt s k v m : dirty (readMeta s k) = false -> keeps_changes s (writeMeta (writeValue s k v) k m).
Proof.
  intros Hd Hok. assert (Hok' : adapter_ok (writeValue s k v)) by by apply ok_value. split; [by apply ok_meta|].
  intros k' Hd'. assert (k <> k') by congruence. by rewrite value_meta, meta_other, value_other, meta_value.
Qed.

(** A write in a turn; if the storage is full it throws, and nothing is
    written. *)
Lemma within_stores {A} R Q f (k : Async Storage PrefsEnv A) s0 s :
  (forall error, Q s0 s (Raise error)) -> within R Q s0 (f s) k -> within R Q s0 s (async_bind (stores f) (fun _ => k)).
Proof. intros He Hk e. cbn. destruct (p_full e); [apply He|exact Hk]. Qed.

Lemma within_pause {A} R Q (k : Async Storage PrefsEnv A) s0 s :
  R s0 s -> (forall s', within R Q s' s' k) -> within R Q s0 s (async_bind pause (fun _ => k)).
Proof. by split. Qed.

Lemma web_pull_items_keep items s0 s : keeps_changes s0 s -> within keeps_changes (leaves keeps_changes) s0 s (Web.pull_items items).
Proof.
  revert s. induction items as [|it items IH]; intros s Hs; [exact Hs|]. intros e. cbn.
  destruct (Number_gt _ _); [|by apply IH]. destruct (dirty (readMeta s (it_key it))) eqn:Ed; [by apply IH|].
  apply within_stores; [by intros ?|]. apply within_stores.
  - intros ?. eapply keeps_changes_trans; [exact Hs|by apply keeps_write_value].
  - apply IH. eapply keeps_changes_trans; [exact Hs|by apply keeps_adopt].
Qed.

Lemma pull_items_keep items s : within keeps_values (leaves keeps_values) s s (pull_items items).
Proof.
  revert s. induction items as [|it items IH]; intros s; [apply keeps_values_refl|]. intros e. cbn.
  destruct (Number_gt _ _); [|by apply IH]. destruct (dirty (readMeta s (it_key it))) eqn:Ed; [by apply IH|].
  apply within_stores; [intros ?; apply keeps_values_refl|]. apply within_pause.
  - intros Hok. split; [by apply ok_value|]. intros k Hd. rewrite value_other; [done..|congruence].
  - intros s1. apply within_stores; [intros ?; apply keeps_values_refl|]. apply within_pause; [|exact IH].
    intros Hok. split; [by apply ok_meta|]. intros k _. by apply value_meta.
Qed.

(** C36. A pull leaves the changes alone that are waiting to be pushed: whatever
    runs between its turns, no turn of it touches a key that is dirty then.
    The web client's copy leaves both the value and the mark of such a key; the
    other copy, which gives way between its two writes, the value. *)
Theorem pull_keeps_changes (q : Async Storage PrefsEnv unit) (e : PrefsEnv) (s : Storage) (Hok : adapter_ok s) :
  (residual Web.pull q -> forall k, dirty (readMeta s k) = true ->
     let s' := fst (fst (run_turn q e s)) in readValue s' k = readValue s k /\ readMeta s' k = readMeta s k) /\
  (residual pull q -> forall k, dirty (readMeta s k) = true -> readValue (fst (fst (run_turn q e s))) k = readValue s k).
Proof.
  split; intros Hq.
  - destruct (residual_within keeps_changes keeps_changes_refl Web.pull q e s) as [_ Hk]; [|done..].
    intros s0. split; [done|]. intros s1 e1. cbn. destruct (p_get e1); [by apply web_pull_items_keep|done].
  - destruct (residual_within keeps_values keeps_values_refl pull q e s) as [_ Hk]; [|done..].
    intros s0. split; [done|]. intros s1 e1. cbn. destruct (p_get e1); [by apply pull_items_keep|done].
Qed.

(** ** Pull and push alone *)

(** What a pull and a push do with an item of the relay. *)
Definition take_item (s : Storage) (it : ServerItem) : Storage :=
  writeMeta (writeValue s (it_key it) (it_value it)) (it_key it) (clean_meta it).

Definition wanted (s : Storage) (it : ServerItem) : bool :=
  Number_gt (it_updated_at it) (updatedAtLocal (readMeta s (it_key it))) && negb (dirty (readMeta s (it_key it))).

Definition adopt (s : Storage) (it : ServerItem) : Storage := if wanted s it then take_item s it else s.

Lemma alone_pull_items items e (s : Storage) :
  p_full e = None ->
  alone (pull_items items) e s = (fold_left adopt items s, Done tt) /\
  alone (Web.pull_items items) e s = (fold_left adopt items s, Done tt).
Proof.
  intros He. revert s. induction items as [|it items IH]; intros s; [done|]. cbn.
  assert (Ea : adopt s it = if wanted s it then take_item s it else s) by done. rewrite Ea. unfold wanted.
  destruct (Number_gt _ _); cbn; [|apply IH]. destruct (dirty _); cbn; [apply IH|].
  rewrite !He. cbn. rewrite !He. cbn. apply IH.
Qed.

Lemma alone_push_items items e (s : Storage) :
  p_full e = None ->
  alone (push_items items) e s = (fold_left take_item items s, Done tt) /\
  alone (Web.push_items items) e s = (fold_left take_item items s, Done tt).
Proof.
  intros He. revert s. induction items as [|it items IH]; intros s; [done|]. cbn. rewrite !He. cbn. rewrite !He. cbn. apply IH.
Qed.

(** The item of a key. *)
Definition item_of (items : list ServerItem) (k : jsstr) : option ServerItem :=
  List.find (fun it => bool_decide (it_key it = k)) items.

Definition good_item (it : ServerItem) : Prop := value_ok (it_value it) /\ meta_ok (clean_meta it).

(** What becomes of a key, if its item is taken when [f] says so. *)
Definition outcome_of (f : Storage -> ServerItem -> bool) (items : list ServerItem) (s s' : Storage) : Prop :=
  forall k, match item_of items k with
            | Some it => if f s it then readValue s' k = Some (it_value it) /\ readMeta s' k = clean_meta it
                         else readValue s' k = readValue s k /\ readMeta s' k = readMeta s k
            | None => readValue s' k = readValue s k /\ readMeta s' k = readMeta s k
            end.

Lemma take_item_key s it k :
  adapter_ok s -> good_item it ->
  adapter_ok (take_item s it) /\
  readValue (take_item s it) k = (if bool_decide (it_key it = k) then Some (it_value it) else readValue s k) /\
  readMeta (take_item s it) k = (if bool_decide (it_key it = k) then clean_meta it else readMeta s k).
Proof.
  intros Hok [Hv Hm]. unfold take_item. assert (Hok' := ok_value s (it_key it) (it_value it) Hok).
  split_and!; [by apply ok_meta|by rewrite value_meta, value_value|by rewrite meta_meta, meta_value].
Qed.

(** Taking the wanted items of a list with distinct keys. *)
Lemma fold_outcome (f : Storage -> ServerItem -> bool) items s :
  (forall s s' it, readMeta s' (it_key it) = readMeta s (it_key it) -> f s' it = f s it) ->
  adapter_ok s -> Forall good_item items -> NoDup (map it_key items) ->
  outcome_of f items s (fold_left (fun s it => if f s it then take_item s it else s) items s).
Proof.
  intros Hf Hok Hg Hn. revert s Hok. induction Hg as [|it items Hit Hg IH]; intros s Hok k; [done|]. cbn [fold_left].
  inversion_clear Hn as [|? ? Hnot Hn']. specialize (IH Hn'). unfold item_of. cbn [List.find].
  set (s1 := if f s it then take_item s it else s).
  destruct (take_item_key s it k Hok Hit) as (Hok' & Ev & Em).
  assert (Hok1 : adapter_ok s1) by (unfold s1; by destruct (f s it)). specialize (IH s1 Hok1 k). fold (item_of items k).
  case_bool_decide as Hk.
  - assert (Hnone : item_of items k = None).
    { destruct (item_of items k) as [it'|] eqn:E; [|done]. apply find_some in E as [Hin Hk']. apply bool_decide_eq_true in Hk'.
      destruct Hnot. rewrite Hk, <- Hk'. apply list_elem_of_fmap_2. by apply list_elem_of_In. }
    rewrite Hnone in IH. destruct IH as [IHv IHm]. rewrite IHv, IHm. unfold s1. destruct (f s it); [|done].
    by rewrite Ev, Em.
  - assert (Es : readValue s1 k = readValue s k /\ readMeta s1 k = readMeta s k) by (unfold s1; by destruct (f s it)).
    destruct Es as [Esv Esm]. destruct (item_of items k) as [it'|] eqn:E; [|by rewrite <- Esv, <- Esm].
    assert (Hk' : it_key it' = k) by (apply find_some in E as [_ E]; by apply bool_decide_eq_true in E).
    rewrite (Hf s s1 it') in IH by by rewrite Hk'. destruct (f s it'); [done|]. by rewrite <- Esv, <- Esm.
Qed.

(** C35. Alone, both copies of the engine do the same. A pull that the relay
    answers takes, of every key, the relay's value if it is newer and the key
    not dirty, and clears nothing else. A push sends the dirty keys that have a
    value, with their times; without any it asks nothing; and it takes what the
    relay answers, after which the answered keys are clean. *)
Theorem sync_alone (e : PrefsEnv) (items : list ServerItem) (s : Storage)
    (Hfull : p_full e = None) (Hok : adapter_ok s) (Hgood : Forall good_item items) (Hkeys : NoDup (map it_key items)) :
  (p_get e = Done items ->
   exists s', alone pull e s = (s', Done tt) /\ alone Web.pull e s = (s', Done tt) /\ outcome_of wanted items s s') /\
  (p_put e (pending_items s) = Done items -> pending_items s <> [] ->
   exists s', alone push e s = (s', Done tt) /\ alone Web.push e s = (s', Done tt) /\ outcome_of (fun _ _ => true) items s s') /\
  (pending_items s = [] -> alone push e s = (s, Done tt) /\ alone Web.push e s = (s, Done tt)) /\
  (forall k v t, mkClientItem k v t ∈ pending_items s <->
     k ∈ adapter_keys /\ readMeta s k = mkMeta t true /\ readValue s k = Some v).
Proof.
  split_and!.
  - intros Hget. destruct (alone_pull_items items e s Hfull) as [E1 E2]. exists (fold_left adopt items s).
    cbn. rewrite Hget. split_and!; [done..|].
    apply (fold_outcome wanted); try done. intros s1 s2 it E. unfold wanted. by rewrite E.
  - intros Hput Hp. destruct (alone_push_items items e s Hfull) as [E1 E2]. exists (fold_left take_item items s).
    cbn. rewrite bool_decide_false by done. cbn. rewrite Hput.
    split_and!; [done..|]. by apply (fold_outcome (fun _ _ => true)).
  - intros Hp. cbn. by rewrite bool_decide_true.
  - intros k v t. unfold pending_items. rewrite list_elem_of_omap. unfold pending_item. split.
    + intros (k' & Hk' & E). destruct (readMeta s k') as [t' d] eqn:Em. cbn in E. destruct d; [|done].
      destruct (readValue s k') as [v'|] eqn:Ev; [|done]. cbn in E. injection E as -> -> ->. done.
    + intros (Hk & Em & Ev). exists k. split; [done|]. by rewrite Em, Ev.
Qed.
End Props.

(** ** The local storage is an adapter *)

Section LocalStorage.
Context `{JsText} `{NumberText}.

Lemma VALUE_KEY_inj k k' : VALUE_KEY k = VALUE_KEY k' -> k = k'.
Proof. unfold VALUE_KEY. intros E. apply app_inv_head in E. by apply app_inv_tail in E. Qed.

Lemma META_KEY_inj k k' : META_KEY k = META_KEY k' -> k = k'.
Proof. unfold META_KEY. intros E. apply app_inv_head in E. by apply app_inv_tail in E. Qed.

Lemma value_not_meta k k' : VALUE_KEY k <> META_KEY k'.
Proof.
  intros E. apply (f_equal last) in E. unfold VALUE_KEY, META_KEY in E. by rewrite !last_app in E.
Qed.

#[export] Program Instance localStorage_laws : AdapterLaws (list (jsstr * jsstr)) := {
  adapter_ok := map_ok;
  value_ok v := JSON_parse (JSON_stringify v) = Ok v;
  meta_ok m := exists j, JSON_parse (JSON_stringify (meta_json m)) = Ok j /\ read_meta j = m;
}.
Next Obligation. intros s k v Hs. by apply map_ok_set. Qed.
Next Obligation. intros s k m Hs. by apply map_ok_set. Qed.
Next Obligation.
  intros s k k' v Hs Hv. cbn. rewrite map_get_set by done. destruct (decide (k = k')) as [->|Hk].
  - by rewrite !bool_decide_true, Hv by done.
  - rewrite !bool_decide_false; [done|done|]. intros E. by apply VALUE_KEY_inj in E.
Qed.
Next Obligation.
  intros s k k' v Hs Hk. cbn. rewrite map_get_set by done. rewrite bool_decide_false; [done|].
  intros E. by apply VALUE_KEY_inj in E.
Qed.
Next Obligation.
  intros s k k' m Hs. cbn. rewrite map_get_set by done. rewrite bool_decide_false; [done|].
  intros E. by destruct (value_not_meta k' k).
Qed.
Next Obligation.
  intros s k k' v Hs. cbn. rewrite map_get_set by done. rewrite bool_decide_false; [done|].
  intros E. by destruct (value_not_meta k k').
Qed.
Next Obligation.
  intros s k k' m Hs (j & Hj & Hm). cbn. rewrite map_get_set by done. destruct (decide (k = k')) as [->|Hk].
  - by rewrite !bool_decide_true, Hj by done.
  - rewrite !bool_decide_false; [done|done|]. intros E. by apply META_KEY_inj in E.
Qed.
Next Obligation.
  intros s k k' m Hs Hk. cbn. rewrite map_get_set by done. rewrite bool_decide_false; [done|].
  intros E. by apply META_KEY_inj in E.
Qed.

(** An item that survives the storage. *)
Lemma stored_item it :
  JSON_parse (JSON_stringify (it_value it)) = Ok (it_value it) ->
  match JSON_parse (JSON_stringify (meta_json (clean_meta it))) with Ok j => read_meta j = clean_meta it | Throw _ => False end ->
  good_item (Storage := list (jsstr * jsstr)) it.
Proof.
  intros Hv Hm. split; [exact Hv|]. destruct (JSON_parse (JSON_stringify (meta_json _))) as [j|] eqn:E; [by exists j|done].
Qed.
End LocalStorage.

(** ** Runs on concrete storages *)

Module Toy.
(** A number as JSON writes it; no text is 0, another text no number. *)
#[local] Instance toy_numbers : NumberText := {
  Number_text s := if bool_decide (s = []) then number_of 0 else match JSON_parse s with Ok (JNum n) => n | _ => NaN end;
}.
#[local] Existing Instance ascii_text.

Definition Storage : Type := list (jsstr * jsstr).
Definition locale : jsstr := js "locale_preference".
Definition pins : jsstr := js "pinned_session_ids".
Definition ids (s : string) : Json := JArr [JStr (js s)].

(** The relay's pull answers items; its push the value "old" at time 5, or an error. *)
Definition env (now : Z) (ok : bool) : PrefsEnv :=
  mkPrefsEnv now None
    (Done [mkServerItem locale (JStr (js "en")) (number_of 9); mkServerItem pins (ids "theirs") (number_of 9)])
    (fun _ => if ok then Done [mkServerItem pins (ids "old") (number_of 5)] else Raise (js "put prefs: HTTP 502")).

(** Pins changed here at time 5, their push under way. *)
Definition changed : Storage := shared (run_tasks [EvCall (setPins (Some push) [js "old"]) (env 5 true)] []).

Lemma changed_ok : adapter_ok changed.
Proof. change (map_ok changed). apply (bool_decide_unpack _). vm_compute. exact I. Qed.

(** The second turn of a pull, with the answer of the relay. *)
Definition rest (pull : Async Storage PrefsEnv unit) : Async Storage PrefsEnv unit :=
  snd (fst (run_turn pull (env 6 true) [])).

Lemma pull_keeps_changes_witness :
  readValue changed pins = Some (ids "old") /\ dirty (readMeta changed pins) = true /\
  let s' := fst (fst (run_turn (rest Web.pull) (env 7 true) changed)) in
  readValue s' pins = Some (ids "old") /\ dirty (readMeta s' pins) = true /\
  readValue s' locale = Some (JStr (js "en")).
Proof.
  assert (Hd : dirty (readMeta changed pins) = true) by (vm_compute; reflexivity).
  assert (Hv : readValue changed pins = Some (ids "old")) by (vm_compute; reflexivity).
  destruct (pull_keeps_changes (rest Web.pull) (env 7 true) changed changed_ok) as [Hk _].
  destruct (Hk (residual_turn _ _ _ _ (residual_start _)) pins Hd) as [Ev Em].
  refine (conj Hv (conj Hd (conj _ (conj _ _)))).
  - exact (eq_trans Ev Hv).
  - exact (eq_trans (f_equal dirty Em) Hd).
  - vm_compute. reflexivity.
Defined.

Lemma sync_alone_witness :
  pending_items changed = [mkClientItem pins (ids "old") (number_of 5)] /\
  exists s', alone push (env 6 true) changed = (s', Done tt) /\ alone Web.push (env 6 true) changed = (s', Done tt) /\
    outcome_of (fun _ _ => true) [mkServerItem pins (ids "old") (number_of 5)] changed s'.
Proof.
  assert (Hp : pending_items changed = [mkClientItem pins (ids "old") (number_of 5)]) by (vm_compute; reflexivity).
  split; [exact Hp|].
  destruct (sync_alone (env 6 true) [mkServerItem pins (ids "old") (number_of 5)] changed) as (_ & Hs & _).
  - reflexivity.
  - exact changed_ok.
  - repeat constructor; apply stored_item; (vm_compute; reflexivity).
  - apply NoDup_singleton.
  - apply Hs; [reflexivity|]. rewrite Hp. discriminate.
Defined.

(** A change that is made while a push of the same key is under way is lost if
    its own push fails: the answer to the first push overwrites it and takes its
    mark away, and nothing is left to push. *)
Definition lost (push : Async Storage PrefsEnv unit) : Tasks Storage PrefsEnv unit :=
  run_tasks ([EvCall (setPins (Some push) [js "old"]) (env 4 true); EvCall (setPins (Some push) [js "new"]) (env 6 true);
              EvGoesOn 1 (env 7 false)] ++ repeat (EvGoesOn 0 (env 8 true)) 3) [].

Definition before_answer (push : Async Storage PrefsEnv unit) : Tasks Storage PrefsEnv unit :=
  run_tasks [EvCall (setPins (Some push) [js "old"]) (env 4 true); EvCall (setPins (Some push) [js "new"]) (env 6 true);
             EvGoesOn 1 (env 7 false)] [].

Lemma edit_lost_in_flight :
  Forall (fun push => getPins (shared (before_answer push)) = [js "new"] /\
                      map ci_value (pending_items (shared (before_answer push))) = [ids "new"] /\
                      getPins (shared (lost push)) = [js "old"] /\ pending_items (shared (lost push)) = [] /\
                      map (fun i => settlement_of i (lost push)) [0%nat; 1%nat] = [Some (Done tt); Some (Done tt)])
    [push; Web.push].
Proof. repeat constructor; (vm_compute; reflexivity). Qed.
End Toy.
